(* ===== verification/_CoqProject ===== *)
-Q . S2P
Prelude.v
JsString.v
JsNumber.v
JsFloat.v
JsDate.v
Dates.v
BillingPeriod.v
TariffTypes.v
Recurrence.v
BandCoverage.v
Validity.v
Progression.v
PriceHistory.v
RateLines.v
DynamicPrices.v
Transfer.v
Feasibility.v
ApiClient.v
Json.v
QueryKeys.v
ApiErrors.v
DateFormats.v
TariffErrors.v
Iban.v
ZevForm.v
Access.v
Session.v
InvoiceTypes.v
Invoices.v
Backups.v
Imports.v
Outbox.v
Overview.v
LiveEnergy.v
BillingParams.v
ObjectUrl.v
TariffForms.v
Editors.v
ImportWizard.v
BulkDelete.v
MeteringPoints.v
MeteringActions.v
PvPlanes.v
Dialogs.v
ConfirmDialog.v
InvoiceActions.v
TariffVersions.v
TariffDisplay.v
MeteringLabels.v
Participants.v
Sources.v
Passkeys.v
Accounts.v
Drafts.v
SignIn.v
UrlParams.v
Routes.v
RawMetering.v
SettingsDraft.v
ZevWizard.v
Communities.v
MeteringPage.v
Parties.v
InvoicesPage.v
