(* ===== verification/Prelude.v ===== *)
(** * OpenZEV: the rules of the web client

    OpenZEV runs communities of self-consumption (ZEV): a Django server keeps meters,
    tariffs and invoices, and a React client (frontend/src/, TypeScript) lets managers,
    participants and administrators work on them. This development models the client's
    own decisions: calendars and billing periods, tariffs and their prices, forms and
    what they send, lists and counts, access, and the state machines that run while
    requests are in flight. File names below are under frontend/src/.

    ** How to read a model

    A definition keeps the name of the function it models. Texts are the UTF-8 bytes of a
    [string], an absent or null field is [None] (where the two differ the file says so),
    numbers are binary64 values ([JsNumber.num]) or [Z] where the source only counts, a
    civil day is its number since 1970-01-01 and [iso] writes it as a text. A [Map] or
    [Set] that is listed in insertion order is an association list ([Prelude]). What the
    source throws is [None]. A hook is a state, its render and its effects; a set of
    concurrent requests is a transition system: one step is one event of the event loop
    (a click, an answer, a timer, a continuation), in any order, and a click may come from
    any earlier render whose handler the page may still hold.

    ** Files

    The language and shared lemmas:
    - Prelude: tactics, sorting, ordered maps and sets, list lemmas.
    - JsString, JsNumber, JsDate, Json: strings, numbers, the calendar, JSON values.
      JsFloat: how close number arithmetic stays to decimals.

    Time and periods:
    - Dates: lib/dates.ts, lib/dateRangePresets.ts. The zone data of Intl is the class
      [Zone]; what the code relies on is [ZoneLaws], which the Swiss rule satisfies.
    - BillingPeriod: lib/billingPeriod.ts.  BillingParams: lib/useBillingPeriodParams.ts,
      the period of a page between URL and scope.
    - DateFormats: the formats of lib/appSettings.tsx.

    Tariffs (features/tariffs/ unless named):
    - TariffTypes: the records.  Recurrence: recurrence.ts, bands.ts.
      BandCoverage: bandCoverage.ts.  Validity: validity.ts, tariffOverview.ts.
    - PriceHistory: priceHistory.ts.  Progression: progression/progression.ts.
      RateLines: rateLines.ts, priceDelta.ts.  DynamicPrices: dynamicPriceGaps.ts,
      dynamicSources.ts.
    - TariffForms: useTariffForms.ts.  TariffErrors: errors.ts.  Editors: useTariffCrud.ts
      and lib/useWriteScope.ts, the open editors and their requests.  TariffVersions:
      useTariffVersions.ts, the tasks on versions.  TariffDisplay: useTariffDisplay.ts.

    Communities, accounts and the session:
    - Access: lib/membership.ts, lib/communityAccess.ts, lib/managedZev.tsx.
    - Session: lib/auth.tsx.  ApiClient: lib/api/client.ts, lib/api/pagination.ts.
      ApiErrors: lib/api/errors.ts.
    - ZevForm: lib/zevForm.ts.  Iban: lib/iban.ts.  Transfer: features/zev/
      transferSections.ts, features/tariffs/vseImportSelection.ts.
    - Accounts: features/accounts/accountList.ts, features/account/credentials.ts,
      apiKeyStatus.ts and accountTabs.ts, lib/mfaGate.ts, lib/mfaChallenge.ts,
      lib/notifications.ts.  Passkeys: lib/webauthn.ts.
    - Participants: features/participants/useParticipantForm.ts, participantIssues.ts,
      lib/participantFormat.ts, features/charges/chargeForm.ts.
    - Drafts: lib/useTemplateDraft.ts, components/useUnsavedInput.ts and
      components/useDraftGuard.ts, what is asked before unsaved input is dropped.
      SettingsDraft: pages/ZevSettingsPage.tsx, the draft of the settings of a community,
      and lib/zevUnsavedGuard.ts.
    - SignIn: pages/LoginPage.tsx, MagicSignInPage.tsx and VerifyEmailPage.tsx.
    - ZevWizard and Communities: pages/ZevListPage.tsx, the creation of a community and
      what its row offers. Parties: features/zev/ZevPartiesSection.tsx, PartyAccess.tsx and
      PartyFormModal.tsx, the people of a community.

    Invoices, meters and documents:
    - InvoiceTypes, Invoices: the rules of features/invoices/ and publicInvoice/grouping.ts.
      InvoiceActions: useInvoiceActions.tsx and useEmailDelivery.ts, the sends and the
      watch on their delivery.  InvoicesPage: pages/InvoicesPage.tsx around it, with the
      other mutations of useInvoiceActions.tsx and the watch of pdfWatch.ts.
    - MeteringPoints: features/meteringPoints/.  MeteringActions:
      useMeteringPointActions.tsx of it, the dialogs of the list and their requests.
      MeteringPage: pages/MeteringChartPage.tsx.  RawMetering:
      components/RawMeteringTable.tsx.
    - Imports: features/imports/.  ImportWizard: the wizard of pages/ImportsPage.tsx.
      BulkDelete: the deletion of imports.
      LiveEnergy: lib/live.ts, lib/forecast.ts, lib/myEnergy.ts, lib/numbers.ts.
    - Overview: features/overview/.  Outbox: features/inbox/documentPresentation.ts.
      Backups: features/backups/backupHelpers.ts.  ObjectUrl: lib/usePdfObjectUrl.ts.
    - MeteringLabels: lib/meteringLabels.ts.  PvPlanes: lib/pvPlanes.ts and the saves of
      features/meteringPoints/PvPlanesDialog.tsx.
    - Sources: lib/supplementary.ts and features/supplementary/useSourcePane.ts, the pane
      over the page's history entries with its draft guard.
    - Feasibility: features/feasibility/useFeasibilityForm.ts.

    The frame of the application:
    - UrlParams: the query string of a page.  Routes: components/AppRoutes.tsx,
      ProtectedRoute.tsx, RouteAliases.tsx, ScopeGuard.tsx and MfaEnrolmentGate.tsx, the
      sidebar of Layout.tsx and pages/HomePage.tsx: which page an address ends on.
    - QueryKeys: lib/api/queryKeys.ts and the invalidations of the cache.
    - Dialogs: components/dialogInertness.ts and the stack of useDialogBehavior.ts.
      ConfirmDialog: components/ConfirmDialog.tsx.

    ** How the parts interact

    A page takes its community from Access and its period from BillingParams, which walks
    the periods of BillingPeriod; its lists come from the API through ApiClient, whose
    interceptor renews the session that Session keeps. A save goes through a form
    (TariffForms, ZevForm, Backups), an editing session (Editors) or a confirmation
    (ConfirmDialog); its errors come back through ApiErrors, TariffErrors or ZevForm. The
    price files feed each other: TariffTypes to Recurrence and Validity, these to
    BandCoverage and PriceHistory, this to Progression and RateLines.

    ** What the theorems show

    - State machines, for every order of events: ApiClient (a request is sent at most
      twice, a waiting one has a refresh in flight, every run settles), Session (saves of a
      session are serialized and the last one wins), Editors (a late answer only touches
      the form it was submitted from), InvoiceActions (no invoice is in two sends),
      ConfirmDialog (an action runs once), ObjectUrl (no URL leaks or is used when dead),
      TariffVersions (likewise), BillingParams (two effects settle, the period shown does
      not move), Dialogs (the outside is inert, and as before once all are closed), Access
      (a pick does not outlive its account), Drafts (nothing that drops input happens
      without consent), Sources (closing the pane returns to the list's own entry once the
      step back has arrived, and a draft in it is let go only by an answer), PvPlanes (only valid values are sent, one save at a time).
      Pages, in the same way: ImportWizard (what is uploaded was previewed), BulkDelete
      (nothing listed as protected is asked to be deleted), MeteringActions (writes are allowed,
      refreshes exact), SignIn (a session opens only by an accepted login or code),
      SettingsDraft (edits survive a refetch, saves are valid), ZevWizard (a complete
      request, once per opening), Communities (a purge only after its name was typed),
      MeteringPage (requests for what is listed and selected), InvoicesPage (a request fits
      the view and the row it is made from, one of a kind runs at a time, what each answer
      refreshes exactly, dialogs outlive answers about other invoices, the watch on the
      documents ends), Parties (who is shown where,
      assignments valid and asked about), Routes (redirects settle, a page opens only to
      its audience, every link of the sidebar opens).
    - Against a reference: BandCoverage (the reported gaps are the instants without price,
      for all of them and not only the probed ones), PriceHistory and Progression (each day
      shows what is in force), Recurrence (season ranges are the maximal circular runs),
      LiveEnergy (the merged chart), Transfer (least and greatest coherent selections),
      ApiErrors (the leaves of a response), Iban (the number modulo 97), Outbox, Overview
      and MeteringPoints (every record in exactly one place, counts equal lists).
      RawMetering (pages tile the list, a row of the grid holds its readings) and
      QueryKeys (no cache entry is shared by two queries) likewise.
    - Calendars: BillingPeriod, Dates and DateFormats (tilings, nearest periods, business
      days across clock changes).
    - Round trips and payloads: TariffForms, Backups, MeteringPoints, DateFormats (what is
      shown reads back; what is opened and saved unchanged is sent unchanged).
      Participants, PvPlanes and Passkeys are of this group: the bytes of a credential and
      the fields of a record come back as they went.
    - Arithmetic: JsFloat shows that binary64 results are within a counted number of units
      of the exact value, so that Feasibility's request holds exact decimals and totals
      that are the sums of its rows.
    - Labels: MeteringLabels (readings of different minutes differ, also in the repeated
      hour), Participants (namesakes are told apart), TariffDisplay (ranges and keys).

    ** Bounds and fuel

    Loops without a structural argument take fuel. [fetchAllPages] makes at most 200 requests
    as the source does. [drop_orphans] (Transfer) gets one round more than there are selected
    sections, of which each round but the last removes one, and [pull_in] one more than
    the sections have requirements; [roots_loop] (Dialogs) one more than there are elements, and
    roots are distinct elements; [chunks] (Iban) the length of the text, of which each round
    takes seven; [billingPeriodsOfYear] at least the twelve periods a year can have: that
    these end with a result is proved in their files. [collect_pairs] (BandCoverage),
    [year_boundaries] (PriceHistory) and [for_steps] (LiveEnergy) get the number of days,
    years and steps of their range. The printing of numbers (JsNumber) tries
    the 17 digits a double can need and the decimal positions it can have.
    [follow] (Routes) visits at most five addresses: no chain of redirects is longer
    ([Routes.redirects_settle]).
    Calendar theorems hold for the days whose year has four digits ([iso_range]).

    ** Parameters

    What is not this program's code is an argument: the zone data and month names of Intl,
    its number formats, [localeCompare], translations [t], the URL parser, the router
    ([RouterLaws]), the server and the order of its answers. Hypotheses on them state their documented behaviour and are
    named where they are used; each theorem with hypotheses has a witness.

    ** Not modelled

    The server (Python). React markup, charts and styles. Request wrappers, which hold a
    path and a payload each. Translations. The browser's focus, clipboard, notification
    and download interfaces. Texts are not normalised to UTF-16: functions that index a
    text are applied by the sources to ASCII. Of a partly modelled file the part left out is
    named in that file's header.

    ** What modelling showed

    - lib/api/errors.ts:63 puts an arrow for every full stop of a message
      ([ApiErrors.formatApiError_arrow_in_message]).
    - lib/auth.tsx:153 compares account and number of a save and not its slot, so an answer
      from before a logout is merged after the same account logged in again
      ([Session.stale_save_is_merged]).
    - features/meteringPoints/PvPlanesDialog.tsx:52 closes whatever form is open when a save
      completes, also one opened for another plane while the save ran, and what was typed
      there is lost ([PvPlanes.late_save_closes_other]). The same happens at
      features/meteringPoints/useMeteringPointActions.tsx:443
      ([MeteringActions.late_assignment_save_closes_other]), pages/ZevListPage.tsx:171
      ([ZevWizard.late_creation_takes_over_wizard], [Communities.late_update_closes_other_edit])
      and features/zev/ZevPartiesSection.tsx:112 and :542
      ([Parties.late_contact_goes_to_other_form], [Parties.late_assignment_closes_new_form]).
    - pages/ImportsPage.tsx:271 shows an answer in the wizard open now, whichever upload it
      belongs to ([ImportWizard.late_outcome_misplaces_preview]).
    - pages/VerifyEmailPage.tsx:86 offers the password again when only the reload of the
      account failed ([SignIn.refresh_failure_resends_password]).
    - components/RawMeteringTable.tsx:477 leaves the page number beyond a shorter list
      ([RawMetering.shorter_list_strands_page]).
    - pages/ZevSettingsPage.tsx:173: a page visited again brings back a draft from before a
      save ([SettingsDraft.revisited_draft_undoes_save]).
    - pages/ZevListPage.tsx:355 does not send a failed creation again
      ([ZevWizard.failed_create_is_not_retried]).
    - features/supplementary/useSourcePane.ts:69: the step back arrives after the flag that
      lets it pass the guard is lowered, so that after discarding a typed key the pane stays
      open and asks again ([Sources.discard_closes]).
    - features/invoices/useInvoiceActions.tsx:344 names the archive after the period shown
      when it arrives ([InvoicesPage.late_download_named_after_other_period]), and at :187
      and its like an answer refreshes the period shown then and not its own
      ([InvoicesPage.refreshed_reaches]). *)

From Stdlib Require Export Bool ZArith Lia String Ascii.
From stdpp Require Export base tactics list sets strings.
From Stdlib Require Export Sorting.Permutation Sorting.Sorted.

#[export] Set Default Goal Selector "!".

#[global] Arguments String.append : simpl nomatch.

Declare Scope js_scope.
Delimit Scope js_scope with js.

(** ** Case analysis and boolean reflection *)

Create HintDb js discriminated.

(** Turn boolean comparisons on [Z], [nat] and [bool] into propositions. *)
Ltac bool_facts :=
  repeat match goal with
  | H : _ && _ = true |- _ => apply andb_prop in H; destruct H
  | H : _ || _ = false |- _ => apply orb_false_elim in H; destruct H
  | H : negb _ = true |- _ => apply negb_true_iff in H
  | H : negb _ = false |- _ => apply negb_false_iff in H
  | H : (_ <? _)%Z = true |- _ => apply Z.ltb_lt in H
  | H : (_ <? _)%Z = false |- _ => apply Z.ltb_ge in H
  | H : (_ <=? _)%Z = true |- _ => apply Z.leb_le in H
  | H : (_ <=? _)%Z = false |- _ => apply Z.leb_gt in H
  | H : (_ =? _)%Z = true |- _ => apply Z.eqb_eq in H
  | H : (_ =? _)%Z = false |- _ => apply Z.eqb_neq in H
  | H : (_ =? _)%nat = true |- _ => apply Nat.eqb_eq in H
  | H : (_ =? _)%nat = false |- _ => apply Nat.eqb_neq in H
  end.

(** Split on the scrutinee of every [if] and [match] of the goal. *)
Ltac cases :=
  repeat match goal with
  | |- context [if ?b then _ else _] => destruct b eqn:?
  | |- context [match ?x with _ => _ end] => destruct x eqn:?
  end.

(** ** Sorting: [Array.prototype.sort] with a comparator is stable *)
Section Sort.
Context {A : Type} (leb : A → A → bool).

Fixpoint insert_sorted (x : A) (l : list A) : list A :=
  match l with
  | [] => [x]
  | y :: l' => if leb x y then x :: l else y :: insert_sorted x l'
  end.

Definition sort_by (l : list A) : list A := foldr insert_sorted [] l.

Lemma insert_sorted_perm x l : Permutation (insert_sorted x l) (x :: l).
Proof.
  induction l as [|y l IH]; simpl; [done|].
  destruct (leb x y); [done|]. rewrite IH. apply perm_swap.
Qed.

Lemma sort_by_perm l : Permutation (sort_by l) l.
Proof.
  induction l as [|x l IH]; simpl; [done|].
  rewrite insert_sorted_perm. by constructor.
Qed.

Lemma elem_of_sort_by x l : x ∈ sort_by l ↔ x ∈ l.
Proof. by rewrite sort_by_perm. Qed.

Lemma length_sort_by l : length (sort_by l) = length l.
Proof. by rewrite sort_by_perm. Qed.

(** Sorting is the identity on a list whose heads are below their tails. *)
Lemma sort_by_id l : StronglySorted (λ x y, leb x y = true) l → sort_by l = l.
Proof.
  induction 1 as [|x l _ IH Hx]; simpl; [done|]. rewrite IH.
  destruct l as [|y l]; simpl; [done|]. inversion Hx; subst. by rewrite H1.
Qed.

Context (leb_total : ∀ x y, leb x y = true ∨ leb y x = true).

Lemma insert_sorted_hd x y l :
  leb y x = true → HdRel (λ x y, leb x y = true) y l →
  HdRel (λ x y, leb x y = true) y (insert_sorted x l).
Proof. intros Hyx [|z l' Hz]; simpl; [by constructor|]. destruct (leb x z); by constructor. Qed.

Lemma insert_sorted_sorted x l :
  Sorted (λ x y, leb x y = true) l → Sorted (λ x y, leb x y = true) (insert_sorted x l).
Proof.
  induction 1 as [|y l Hs IH Hhd]; simpl; [by repeat constructor|].
  destruct (leb x y) eqn:E; [by repeat constructor|].
  constructor; [done|]. apply insert_sorted_hd; [|done].
  destruct (leb_total x y); congruence.
Qed.

Lemma sort_by_sorted l : Sorted (λ x y, leb x y = true) (sort_by l).
Proof. induction l; simpl; [constructor|]. by apply insert_sorted_sorted. Qed.
End Sort.

(** Sorting elements on which the comparator is a total preorder. *)
Section SortOn.
Context {A : Type} (leb : A → A → bool) (P : A → Prop).
Context (total_on : ∀ x y, P x → P y → leb x y = true ∨ leb y x = true).
Context (trans_on : ∀ x y z, P x → P y → P z → leb x y = true → leb y z = true → leb x z = true).

Lemma insert_strong_on x l :
  P x → Forall P l → StronglySorted (λ x y, leb x y = true) l →
  StronglySorted (λ x y, leb x y = true) (insert_sorted leb x l).
Proof.
  intros Hx Hl. induction 1 as [|y l Hs IH Hy]; simpl; [by repeat constructor|].
  inversion Hl as [|? ? Hpy Hpl]; subst. destruct (leb x y) eqn:E.
  - constructor; [by constructor|]. constructor; [done|]. rewrite Forall_forall in *.
    intros z Hz. apply (trans_on x y z); auto.
  - constructor; [by apply IH|]. rewrite insert_sorted_perm. constructor; [|done].
    destruct (total_on x y Hx Hpy); congruence.
Qed.

Lemma sort_by_strong_on l : Forall P l → StronglySorted (λ x y, leb x y = true) (sort_by leb l).
Proof.
  induction 1 as [|x l Hx Hl IH]; [constructor|]. simpl. apply insert_strong_on; [done| |done].
  by rewrite sort_by_perm.
Qed.
End SortOn.

(** ** Insertion-ordered sets: [new Set(...)] as the list of its elements *)
Section OrderedSet.
Context {A : Type} `{!EqDecision A}.

Definition oset_has (x : A) (s : list A) : bool := bool_decide (x ∈ s).
Definition oset_add (x : A) (s : list A) : list A := if oset_has x s then s else s ++ [x].
Definition oset_delete (x : A) (s : list A) : list A := filter (λ y, y ≠ x) s.
Definition oset_of (l : list A) : list A := foldl (λ s x, oset_add x s) [] l.

Lemma oset_has_true x s : oset_has x s = true ↔ x ∈ s.
Proof. apply bool_decide_eq_true. Qed.
Lemma oset_has_false x s : oset_has x s = false ↔ x ∉ s.
Proof. apply bool_decide_eq_false. Qed.

Lemma elem_of_oset_add x y s : y ∈ oset_add x s ↔ y = x ∨ y ∈ s.
Proof.
  unfold oset_add. destruct (oset_has x s) eqn:E.
  - apply oset_has_true in E. naive_solver.
  - rewrite elem_of_app, list_elem_of_singleton. tauto.
Qed.

Lemma NoDup_oset_add x s : NoDup s → NoDup (oset_add x s).
Proof.
  intros Hs. unfold oset_add. destruct (oset_has x s) eqn:E; [done|].
  apply oset_has_false in E. rewrite NoDup_app. split_and!; [done| |apply NoDup_singleton].
  intros y Hy ->%list_elem_of_singleton. done.
Qed.

Lemma elem_of_oset_delete x y s : y ∈ oset_delete x s ↔ y ≠ x ∧ y ∈ s.
Proof. unfold oset_delete. by rewrite list_elem_of_filter. Qed.

Lemma elem_of_foldl_oset_add y l s : y ∈ foldl (λ s x, oset_add x s) s l ↔ y ∈ s ∨ y ∈ l.
Proof.
  revert s; induction l as [|x l IH]; intros s; simpl.
  - rewrite elem_of_nil. tauto.
  - rewrite IH, elem_of_oset_add, elem_of_cons. tauto.
Qed.

Lemma elem_of_oset_of y l : y ∈ oset_of l ↔ y ∈ l.
Proof. unfold oset_of. rewrite elem_of_foldl_oset_add, elem_of_nil. tauto. Qed.

Lemma NoDup_oset_of l : NoDup (oset_of l).
Proof.
  unfold oset_of. generalize (NoDup_nil_2 (A:=A)). generalize (@nil A) as s.
  induction l as [|x l IH]; intros s Hs; simpl; [done|]. by apply IH, NoDup_oset_add.
Qed.
End OrderedSet.

(** ** Insertion-ordered maps: [new Map(...)] as an association list *)
Section OrderedMap.
Context {K V : Type} `{!EqDecision K}.

Fixpoint omap_get (k : K) (m : list (K * V)) : option V :=
  match m with
  | [] => None
  | (k', v) :: m' => if bool_decide (k = k') then Some v else omap_get k m'
  end.

(** [map.set]: a present key keeps its position, a new one goes to the end. *)
Fixpoint omap_set (k : K) (v : V) (m : list (K * V)) : list (K * V) :=
  match m with
  | [] => [(k, v)]
  | (k', v') :: m' => if bool_decide (k = k') then (k', v) :: m' else (k', v') :: omap_set k v m'
  end.

Definition omap_delete (k : K) (m : list (K * V)) : list (K * V) := filter (λ kv, kv.1 ≠ k) m.
Definition omap_of (l : list (K * V)) : list (K * V) := foldl (λ m kv, omap_set kv.1 kv.2 m) [] l.

Lemma omap_get_set_eq k v m : omap_get k (omap_set k v m) = Some v.
Proof.
  induction m as [|[k' v'] m IH]; simpl; [by rewrite bool_decide_true|].
  destruct (bool_decide (k = k')) eqn:E; simpl; by rewrite E.
Qed.

Lemma omap_get_set_ne k k' v m : k' ≠ k → omap_get k' (omap_set k v m) = omap_get k' m.
Proof.
  intros Hne. induction m as [|[k2 v2] m IH]; simpl.
  - by rewrite bool_decide_false.
  - destruct (bool_decide (k = k2)) eqn:E; simpl; [|by rewrite IH].
    apply bool_decide_eq_true in E as ->. by rewrite bool_decide_false.
Qed.

Lemma omap_get_Some_elem k v m : omap_get k m = Some v → (k, v) ∈ m.
Proof.
  induction m as [|[k' v'] m IH]; simpl; [done|].
  destruct (bool_decide (k = k')) eqn:E; intros; simplify_eq.
  - apply bool_decide_eq_true in E as ->. left.
  - right. auto.
Qed.

Lemma omap_set_keys k v m : (omap_set k v m).*1 = oset_add k m.*1.
Proof.
  induction m as [|[k' v'] m IH]; [done|]. cbn [omap_set].
  destruct (bool_decide (k = k')) eqn:E; unfold oset_add, oset_has in *; csimpl.
  - rewrite bool_decide_true; [done|]. apply bool_decide_eq_true in E as ->. left.
  - apply bool_decide_eq_false in E. rewrite IH.
    destruct (decide (k ∈ m.*1)).
    + rewrite !bool_decide_true; [done|by right|done].
    + rewrite !bool_decide_false; [done|rewrite elem_of_cons; naive_solver|done].
Qed.

Lemma NoDup_omap_set k v m : NoDup m.*1 → NoDup (omap_set k v m).*1.
Proof. rewrite omap_set_keys. apply NoDup_oset_add. Qed.

Lemma omap_elem_get k v m : NoDup m.*1 → (k, v) ∈ m → omap_get k m = Some v.
Proof.
  induction m as [|[k' v'] m IH]; csimpl; [by intros _ ?%elem_of_nil|].
  rewrite NoDup_cons, elem_of_cons. intros [Hk Hm] [Heq|Hin].
  - simplify_eq. by rewrite bool_decide_true.
  - rewrite bool_decide_false; [auto|]. intros ->.
    apply Hk. apply list_elem_of_fmap. by exists (k', v).
Qed.

Lemma omap_get_None k m : omap_get k m = None ↔ k ∉ m.*1.
Proof.
  induction m as [|[k' v'] m IH]; csimpl; [split; [by intros _ ?%elem_of_nil|done]|].
  rewrite elem_of_cons. destruct (bool_decide (k = k')) eqn:E.
  - apply bool_decide_eq_true in E as ->. split; [done|]. intros []. by left.
  - apply bool_decide_eq_false in E. rewrite IH. tauto.
Qed.

Lemma omap_get_filter (p : K → bool) k m :
  omap_get k (List.filter (λ kv, p kv.1) m) = if p k then omap_get k m else None.
Proof.
  induction m as [|[k' v'] m IH]; simpl; [by destruct (p k)|].
  destruct (bool_decide (k = k')) eqn:Ek.
  - apply bool_decide_eq_true in Ek as <-. destruct (p k); simpl; [|by rewrite IH].
    by rewrite bool_decide_true.
  - destruct (p k'); simpl; by rewrite ?Ek, IH.
Qed.

Lemma omap_keys_filter (p : K → bool) (m : list (K * V)) : NoDup m.*1 → NoDup (List.filter (λ kv, p kv.1) m).*1.
Proof.
  induction m as [|[k v] m IH]; csimpl; [done|]. intros [Hk Hm]%NoDup_cons.
  destruct (p k); csimpl; [|by apply IH]. apply NoDup_cons. split; [|by apply IH].
  intros (kv & -> & Hin)%list_elem_of_fmap. apply Hk, list_elem_of_fmap. exists kv. split; [done|].
  rewrite list_elem_of_In in *. by apply filter_In in Hin as [? _].
Qed.

(** Writing a list of entries with distinct keys. *)
Lemma omap_get_foldl_set k (l : list (K * V)) m :
  NoDup l.*1 → omap_get k (foldl (λ m kv, omap_set kv.1 kv.2 m) m l)
    = match omap_get k l with Some v => Some v | None => omap_get k m end.
Proof.
  revert m; induction l as [|[k' v'] l IH]; intros m Hn; csimpl; [done|].
  apply NoDup_cons in Hn as [Hk Hn]. simpl in Hk. rewrite IH by done. destruct (bool_decide (k = k')) eqn:E.
  - apply bool_decide_eq_true in E as ->. apply omap_get_None in Hk as ->. apply omap_get_set_eq.
  - apply bool_decide_eq_false in E. destruct (omap_get k l); [done|]. by apply omap_get_set_ne.
Qed.

Lemma omap_get_of k (l : list (K * V)) : NoDup l.*1 → omap_get k (omap_of l) = omap_get k l.
Proof. intros. unfold omap_of. rewrite omap_get_foldl_set by done. by destruct (omap_get k l). Qed.

Lemma NoDup_omap_of (l m : list (K * V)) : NoDup m.*1 → NoDup (foldl (λ m kv, omap_set kv.1 kv.2 m) m l).*1.
Proof. revert m; induction l as [|[k v] l IH]; intros m Hm; simpl; [done|]. by apply IH, NoDup_omap_set. Qed.

(** What a map holds was written: its entries are among those set, its keys are exactly theirs. *)
Lemma elem_of_omap_set k v m kv : kv ∈ omap_set k v m → kv = (k, v) ∨ kv ∈ m.
Proof.
  induction m as [|[k' v'] m IH]; cbn [omap_set]; [by intros ?%list_elem_of_singleton; left|].
  destruct (bool_decide (k = k')) eqn:E; rewrite !elem_of_cons; [|tauto].
  apply bool_decide_eq_true in E as ->. tauto.
Qed.

Lemma elem_of_omap_of kv l : kv ∈ omap_of l → kv ∈ l.
Proof.
  unfold omap_of. assert (∀ m, kv ∈ foldl (λ m kv, omap_set kv.1 kv.2 m) m l → kv ∈ m ∨ kv ∈ l) as H.
  { induction l as [|[k v] l IH]; intros m; cbn [foldl]; [by left|].
    intros [[->|?]%elem_of_omap_set|?]%IH; [right; left|by left|by right; right]. }
  by intros [?%elem_of_nil|?]%H.
Qed.

Lemma omap_of_keys (l : list (K * V)) : (omap_of l).*1 = oset_of l.*1.
Proof.
  unfold omap_of, oset_of. change (@nil K) with (@nil (K * V)).*1. generalize (@nil (K * V)) as m.
  induction l as [|[k v] l IH]; intros m; [done|]. cbn [foldl fmap list_fmap fst]. by rewrite IH, omap_set_keys.
Qed.
End OrderedMap.

(** ** Searching *)

(** [Array.prototype.find] and [findLast]. *)
Definition find_first {A} (p : A → bool) (l : list A) : option A := List.find p l.
Definition find_last {A} (p : A → bool) (l : list A) : option A := List.find p (rev l).
Definition find_index {A} (p : A → bool) (l : list A) : option nat :=
  fst <$> list_find (λ x, p x = true) l.

Lemma find_first_Some {A} (p : A → bool) l x :
  find_first p l = Some x → x ∈ l ∧ p x = true.
Proof. intros [Hin Hp]%List.find_some. by rewrite list_elem_of_In. Qed.

Lemma find_first_None {A} (p : A → bool) l :
  find_first p l = None ↔ ∀ x, x ∈ l → p x = false.
Proof.
  unfold find_first. induction l as [|y l IH]; simpl.
  { split; [|done]. intros _ x Hx. inversion Hx. }
  destruct (p y) eqn:E.
  - split; [done|]. intros H. specialize (H y). rewrite elem_of_cons in H. naive_solver congruence.
  - rewrite IH. setoid_rewrite elem_of_cons. naive_solver.
Qed.

Lemma find_last_Some {A} (p : A → bool) l x :
  find_last p l = Some x → x ∈ l ∧ p x = true.
Proof.
  intros [Hin Hp]%find_first_Some. split; [|done].
  by rewrite list_elem_of_In, <- in_rev, <- list_elem_of_In in Hin.
Qed.

Lemma find_last_None {A} (p : A → bool) l :
  find_last p l = None ↔ ∀ x, x ∈ l → p x = false.
Proof.
  unfold find_last. fold (@find_first A). rewrite find_first_None.
  setoid_rewrite list_elem_of_In. by setoid_rewrite <- in_rev.
Qed.

Lemma find_last_app {A} (p : A → bool) l1 l2 :
  find_last p (l1 ++ l2) = match find_last p l2 with Some x => Some x | None => find_last p l1 end.
Proof.
  unfold find_last. rewrite rev_app_distr. induction (rev l2) as [|x l IH]; [done|].
  simpl. by destruct (p x).
Qed.

(** A search that some element satisfies finds one. *)
Lemma find_first_exists {A} (p : A → bool) l x : x ∈ l → p x = true → ∃ y, find_first p l = Some y.
Proof.
  intros Hx Hp. destruct (find_first p l) eqn:E; [by eexists|].
  rewrite find_first_None in E. specialize (E x Hx). congruence.
Qed.

(** Elements with distinct keys are determined by their key. *)
Lemma NoDup_map_inj {A B} (f : A → B) l x y : NoDup (map f l) → x ∈ l → y ∈ l → f x = f y → x = y.
Proof.
  induction l as [|z l IH]; simpl; intros Hnd Hx Hy E; [by apply elem_of_nil in Hx|].
  apply NoDup_cons in Hnd as [Hz Hnd]. apply elem_of_cons in Hx as [->|Hx], Hy as [->|Hy]; auto.
  - exfalso. apply Hz. rewrite E. by apply list_elem_of_fmap_2.
  - exfalso. apply Hz. rewrite <- E. by apply list_elem_of_fmap_2.
Qed.

Lemma exists_snoc {A} (P : A → Prop) l x : (∃ y, y ∈ (l ++ [x])%list ∧ P y) ↔ (∃ y, y ∈ l ∧ P y) ∨ P x.
Proof.
  setoid_rewrite elem_of_app. setoid_rewrite list_elem_of_singleton. split.
  - intros (y & [Hy| ->] & Hp); [left; by exists y|by right].
  - intros [(y & Hy & Hp)|Hp]; [exists y|exists x]; auto.
Qed.

Lemma exists_cons {A} (P : A → Prop) l x : (∃ y, y ∈ x :: l ∧ P y) ↔ P x ∨ (∃ y, y ∈ l ∧ P y).
Proof.
  setoid_rewrite elem_of_cons. split.
  - intros (y & [->|Hy] & Hp); [by left|right; by exists y].
  - intros [Hp|(y & Hy & Hp)]; [exists x|exists y]; auto.
Qed.

Lemma exists_nil {A} (P : A → Prop) : (∃ y, y ∈ [] ∧ P y) ↔ False.
Proof. split; [|done]. intros (y & Hy & _). by apply elem_of_nil in Hy. Qed.

Lemma exists_Some {A} (P : A → Prop) x : (∃ y, Some x = Some y ∧ P y) ↔ P x.
Proof. split; [by intros (y & [= <-] & Hp)|by exists x]. Qed.

(** The boolean filter of the source's [Array.prototype.filter]. *)
Definition bfilter {A} (p : A → bool) (l : list A) : list A := List.filter p l.

Lemma elem_of_bfilter {A} (p : A → bool) l x : x ∈ bfilter p l ↔ x ∈ l ∧ p x = true.
Proof. unfold bfilter. by rewrite !list_elem_of_In, filter_In. Qed.

Lemma length_bfilter {A} (p : A → bool) l : (length (bfilter p l) <= length l)%nat.
Proof. induction l; simpl; [done|]. destruct (p a); simpl; lia. Qed.

Lemma bfilter_nil {A} (p : A → bool) l : bfilter p l = [] ↔ ∀ x, x ∈ l → p x = false.
Proof.
  unfold bfilter. induction l as [|x l IH]; simpl.
  - setoid_rewrite elem_of_nil. naive_solver.
  - setoid_rewrite elem_of_cons. destruct (p x) eqn:E; [naive_solver congruence|]. rewrite IH. naive_solver.
Qed.
Lemma bfilter_snoc {A} (p : A → bool) l x : bfilter p (l ++ [x]) = (bfilter p l ++ (if p x then [x] else []))%list.
Proof. unfold bfilter. rewrite List.filter_app. simpl. by destruct (p x). Qed.

Lemma bfilter_all {A} (p : A → bool) l : (∀ x, x ∈ l → p x = true) → bfilter p l = l.
Proof.
  induction l as [|x l IH]; intros H; simpl; [done|].
  rewrite H by (by left). f_equal. apply IH. intros y Hy. apply H. by right.
Qed.

Lemma bfilter_bfilter {A} (p q : A → bool) l : bfilter p (bfilter q l) = bfilter (λ x, q x && p x) l.
Proof. unfold bfilter. induction l as [|x l IH]; [done|]. cbn. destruct (q x); cbn; by rewrite IH. Qed.

Lemma bfilter_fmap {A B} (f : A → B) (p : B → bool) (P : A → Prop) `{!∀ x, Decision (P x)} l :
  (∀ x, x ∈ l → p (f x) = true ↔ P x) → bfilter p (f <$> l) = f <$> filter P l.
Proof.
  induction l as [|x l IH]; intros Hp; [done|]. rewrite fmap_cons, filter_cons. unfold bfilter.
  cbn [List.filter]. fold (bfilter p (f <$> l)). rewrite IH by (intros y Hy; apply Hp; by right).
  specialize (Hp x (list_elem_of_here _ _)). destruct (p (f x)), (decide (P x)); naive_solver.
Qed.

Lemma StronglySorted_bfilter {A} (R : A → A → Prop) (p : A → bool) l : StronglySorted R l → StronglySorted R (bfilter p l).
Proof.
  unfold bfilter. induction 1 as [|x l Hs IH Hx]; simpl; [constructor|].
  destruct (p x); [|done]. constructor; [done|]. rewrite Forall_forall in *.
  intros y Hy. apply Hx. rewrite list_elem_of_In in *. by apply filter_In in Hy as [? _].
Qed.

Lemma StronglySorted_impl {A} (R S : A → A → Prop) l :
  (∀ x y, R x y → S x y) → StronglySorted R l → StronglySorted S l.
Proof. intros H. induction 1 as [|x l Hs IH Hx]; constructor; [done|]. eapply Forall_impl; eauto. Qed.

(** The last element of a sorted list is its greatest. *)
Lemma StronglySorted_last {A} (R : A → A → Prop) l v :
  (∀ x, R x x) → StronglySorted R l → last l = Some v → ∀ w, w ∈ l → R w v.
Proof.
  intros Hr Hs Hl w Hw. apply last_Some in Hl as [l' ->].
  apply elem_of_app in Hw as [Hw| ->%list_elem_of_singleton]; [|done].
  induction l' as [|x l' IH]; [by apply elem_of_nil in Hw|]. inversion Hs as [|? ? Hs' Hx]; subst.
  apply elem_of_cons in Hw as [->|Hw]; [|by apply IH].
  rewrite Forall_forall in Hx. apply Hx. rewrite elem_of_app, list_elem_of_singleton. by right.
Qed.

Lemma existsb_elem {A} (p : A → bool) l : existsb p l = true ↔ ∃ x, x ∈ l ∧ p x = true.
Proof. rewrite existsb_exists. by setoid_rewrite list_elem_of_In. Qed.

Lemma forallb_elem {A} (p : A → bool) l : forallb p l = true ↔ ∀ x, x ∈ l → p x = true.
Proof. rewrite forallb_forall. by setoid_rewrite list_elem_of_In. Qed.

Lemma elem_of_flat_map {A B} (f : A → list B) l b : b ∈ flat_map f l ↔ ∃ a, a ∈ l ∧ b ∈ f a.
Proof.
  rewrite list_elem_of_In, in_flat_map. split; intros (a & ? & ?); exists a; by rewrite ?list_elem_of_In in *.
Qed.

Lemma length_bfilter_negb {A} (p : A → bool) l : length (bfilter (λ x, negb (p x)) l) = (length l - length (bfilter p l))%nat.
Proof.
  induction l as [|x l IH]; [done|]. unfold bfilter in *. cbn [List.filter length].
  pose proof (length_bfilter p l) as Hle. unfold bfilter in Hle. destruct (p x); cbn [negb length]; lia.
Qed.

Lemma bfilter_ext {A} (p q : A → bool) l : (∀ x, x ∈ l → p x = q x) → bfilter p l = bfilter q l.
Proof.
  induction l as [|x l IH]; [done|]. intros H. unfold bfilter in *. cbn [List.filter].
  rewrite H by set_solver. rewrite IH; [done|]. intros y Hy. apply H. set_solver.
Qed.

(** Removing one element. *)
Lemma delete_sublist {A} (x : A) (i : nat) (l : list A) : x ∈ delete i l → x ∈ l.
Proof. intros Hx. eapply elem_of_submseteq; [exact Hx|apply sublist_submseteq, sublist_delete]. Qed.

Lemma length_bfilter_delete {A} (p : A → bool) i l : (length (bfilter p (delete i l)) <= length (bfilter p l))%nat.
Proof.
  revert i. unfold bfilter. induction l as [|x l IH]; intros [|i]; [done|done| |].
  - change (delete 0 (x :: l)) with l. cbn [List.filter]. destruct (p x); cbn [length]; lia.
  - change (delete (S i) (x :: l)) with (x :: delete i l). cbn [List.filter]. specialize (IH i). destruct (p x); cbn [length]; lia.
Qed.

Lemma NoDup_fmap_bfilter {A B} (f : A → B) (p : A → bool) l : NoDup (f <$> l) → NoDup (f <$> bfilter p l).
Proof.
  induction l as [|x l IH]; intros H; [done|]. unfold bfilter in *. cbn [List.filter]. rewrite fmap_cons in H.
  apply NoDup_cons in H as [Hx H]. destruct (p x); [|by apply IH]. rewrite fmap_cons. apply NoDup_cons. split; [|by apply IH].
  intros (y & E & Hy)%list_elem_of_fmap. apply Hx. rewrite E. apply list_elem_of_fmap. exists y. split; [done|].
  by apply (elem_of_bfilter p l y) in Hy as [? _].
Qed.

#[export] Hint Rewrite @elem_of_bfilter @elem_of_sort_by @elem_of_oset_of @elem_of_oset_add
  @elem_of_oset_delete : js.

(** ** Optional values *)

(** A field that may be [undefined] or [null] and holds a string is falsy when
    it is absent or empty. *)
Definition truthy_str (o : option string) : bool :=
  match o with Some s => negb (String.eqb s "") | None => false end.

(** [a || b] on optional strings. *)
Definition or_str (o : option string) (d : string) : string :=
  match o with Some s => if String.eqb s "" then d else s | None => d end.

Lemma truthy_str_Some o : truthy_str o = true ↔ ∃ s, o = Some s ∧ s ≠ ""%string.
Proof.
  destruct o as [s|]; simpl; [|naive_solver].
  rewrite negb_true_iff, String.eqb_neq. naive_solver.
Qed.

(** Close a goal about concrete inputs by evaluation. *)
Ltac concrete := vm_compute; repeat split; first [reflexivity | discriminate | lia].
