(* ===== verification/JsString.v ===== *)
(** The JavaScript string operations the sources use.

    A string is its UTF-8 byte sequence ([String.string]).  Index-based
    operations ([slice], [charAt], [padStart]) are applied by the sources to
    ASCII text only (ISO dates, clock times, digits), where bytes and UTF-16
    code units coincide; comparison of two strings is by code point, which is
    the byte order of their UTF-8 forms.  [trim] removes ASCII white space. *)

From S2P Require Import Prelude.

Local Open Scope string_scope.

(** ** Order: [<] on strings *)

Definition str_lt (a b : string) : bool := String.ltb a b.
Definition str_le (a b : string) : bool := negb (str_lt b a).

Lemma ascii_compare_refl a : Ascii.compare a a = Eq.
Proof. unfold Ascii.compare. apply N.compare_refl. Qed.

Lemma ascii_compare_eq a b : Ascii.compare a b = Eq → a = b.
Proof. apply Ascii.compare_eq_iff. Qed.

Lemma str_compare_refl s : String.compare s s = Eq.
Proof. induction s as [|a s IH]; simpl; [done|]. by rewrite ascii_compare_refl. Qed.

Lemma str_compare_lt_trans a b c :
  String.compare a b = Lt → String.compare b c = Lt → String.compare a c = Lt.
Proof.
  revert b c; induction a as [|x a IH]; intros [|y b] [|z c]; simpl; try done.
  destruct (Ascii.compare x y) eqn:Exy; try done.
  - apply ascii_compare_eq in Exy as ->. destruct (Ascii.compare y z); try done. apply IH.
  - intros _. destruct (Ascii.compare y z) eqn:Eyz; try done.
    + apply ascii_compare_eq in Eyz as ->. by rewrite Exy.
    + unfold Ascii.compare in *. rewrite N.compare_lt_iff in Exy, Eyz. intros _.
      assert (N_of_ascii x < N_of_ascii z)%N as H by lia.
      by apply N.compare_lt_iff in H as ->.
Qed.

Lemma str_lt_spec a b : str_lt a b = true ↔ String.compare a b = Lt.
Proof. unfold str_lt, String.ltb. by destruct (String.compare a b). Qed.

Lemma str_lt_irrefl a : str_lt a a = false.
Proof. unfold str_lt, String.ltb. by rewrite str_compare_refl. Qed.

Lemma str_lt_trans a b c : str_lt a b = true → str_lt b c = true → str_lt a c = true.
Proof. rewrite !str_lt_spec. apply str_compare_lt_trans. Qed.

Lemma str_lt_total a b : str_lt a b = true ∨ a = b ∨ str_lt b a = true.
Proof.
  rewrite !str_lt_spec. destruct (String.compare a b) eqn:E; [|by left|].
  - right; left. by apply String.compare_eq_iff.
  - right; right. rewrite String.compare_antisym, E. done.
Qed.

Lemma str_lt_asym a b : str_lt a b = true → str_lt b a = false.
Proof.
  intros H. destruct (str_lt b a) eqn:E; [|done].
  pose proof (str_lt_trans _ _ _ H E) as F. by rewrite str_lt_irrefl in F.
Qed.

Lemma str_le_spec a b : str_le a b = true ↔ str_lt a b = true ∨ a = b.
Proof.
  unfold str_le. rewrite negb_true_iff. split.
  - intros H. destruct (str_lt_total a b) as [?|[?|?]]; auto; congruence.
  - intros [H| ->]; [by apply str_lt_asym|apply str_lt_irrefl].
Qed.

Lemma str_le_refl a : str_le a a = true.
Proof. apply str_le_spec. by right. Qed.

Lemma str_le_trans a b c : str_le a b = true → str_le b c = true → str_le a c = true.
Proof. rewrite !str_le_spec. intros [H1| ->] [H2| ->]; eauto using str_lt_trans. Qed.

Lemma str_le_lt_trans a b c : str_le a b = true → str_lt b c = true → str_lt a c = true.
Proof. rewrite str_le_spec. intros [H1| ->] H2; eauto using str_lt_trans. Qed.

Lemma str_lt_le_trans a b c : str_lt a b = true → str_le b c = true → str_lt a c = true.
Proof. rewrite str_le_spec. intros H1 [H2| <-]; eauto using str_lt_trans. Qed.

Lemma str_le_total a b : str_le a b = true ∨ str_le b a = true.
Proof. rewrite !str_le_spec. destruct (str_lt_total a b) as [?|[?|?]]; auto. Qed.

(** The byte order as a comparator: a [localeCompare] to evaluate models with. *)
Definition byte_order (a b : string) : Z := if str_lt a b then (-1)%Z else if String.eqb a b then 0%Z else 1%Z.

Lemma byte_order_le a b : (byte_order a b <=? 0)%Z = str_le a b.
Proof.
  unfold byte_order. destruct (str_lt a b) eqn:E; [symmetry; apply str_le_spec; by left|].
  destruct (String.eqb_spec a b) as [->|Hne]; [symmetry; apply str_le_spec; by right|].
  destruct (str_le a b) eqn:El; [|done]. apply str_le_spec in El as [?|?]; congruence.
Qed.

Lemma byte_order_total a b : (byte_order a b <= 0 ∨ byte_order b a <= 0)%Z.
Proof. rewrite <- !Z.leb_le, !byte_order_le. apply str_le_total. Qed.

Lemma str_le_antisym a b : str_le a b = true → str_le b a = true → a = b.
Proof.
  rewrite !str_le_spec. intros [H1| ->] [H2|H2]; auto.
  apply str_lt_asym in H1. congruence.
Qed.

Lemma str_lt_false a b : str_lt a b = false ↔ str_le b a = true.
Proof. unfold str_le. by rewrite negb_true_iff. Qed.

Lemma str_le_not_lt a b : str_le a b = true → str_lt b a = false.
Proof. unfold str_le. by intros ?%negb_true_iff. Qed.

Lemma str_lt_le a b : str_lt a b = true → str_le a b = true.
Proof. rewrite str_le_spec. auto. Qed.

#[export] Hint Resolve str_le_refl str_lt_le : js.

(** Decide goals about [str_lt] and [str_le] by case analysis and the order laws. *)
Ltac str_order :=
  repeat match goal with
  | H : str_lt _ _ = false |- _ => apply str_lt_false in H
  | H : str_le ?a ?b = false |- _ =>
      unfold str_le in H; apply negb_false_iff in H
  end;
  first
    [ done
    | eauto using str_lt_trans, str_le_trans, str_le_lt_trans, str_lt_le_trans, str_lt_le, str_le_refl
    | match goal with
      | H : str_lt ?a ?a = true |- _ => by rewrite str_lt_irrefl in H
      | H : str_lt ?a ?b = true, H' : str_le ?b ?a = true |- _ =>
          pose proof (str_lt_le_trans _ _ _ H H') as ?; by rewrite str_lt_irrefl in *
      end ].

(** ** Slices, splitting and joining *)

Definition slice (s : string) (i j : nat) : string := substring i (j - i) s.
Definition slice_from (s : string) (i : nat) : string := substring i (String.length s - i) s.

Fixpoint split_on (c : ascii) (s : string) : list string :=
  match s with
  | "" => [""]
  | String a s' =>
      if Ascii.eqb a c then "" :: split_on c s'
      else match split_on c s' with
           | [] => [String a ""]
           | h :: t => String a h :: t
           end
  end.

Fixpoint join (sep : string) (l : list string) : string :=
  match l with
  | [] => ""
  | [x] => x
  | x :: l' => x ++ sep ++ join sep l'
  end.

(** [.filter(Boolean)] on strings. *)
Definition nonempty (s : string) : bool := negb (String.eqb s "").

Lemma nonempty_true s : nonempty s = true ↔ s ≠ "".
Proof. unfold nonempty. by rewrite negb_true_iff, String.eqb_neq. Qed.
Lemma nonempty_false s : nonempty s = false ↔ s = "".
Proof. unfold nonempty. by rewrite negb_false_iff, String.eqb_eq. Qed.

Definition is_space (c : ascii) : bool :=
  let n := N_of_ascii c in ((9 <=? n)%N && (n <=? 13)%N) || (n =? 32)%N.

Fixpoint ltrim (s : string) : string :=
  match s with
  | String a s' => if is_space a then ltrim s' else s
  | "" => ""
  end.

Fixpoint rtrim (s : string) : string :=
  match s with
  | "" => ""
  | String a s' =>
      let r := rtrim s' in
      if is_space a && String.eqb r "" then "" else String a r
  end.

Definition trim (s : string) : string := rtrim (ltrim s).

Definition starts_with (p s : string) : bool := String.prefix p s.
Definition ends_with (p s : string) : bool :=
  let n := String.length s in let k := String.length p in
  (k <=? n)%nat && String.eqb (substring (n - k) k s) p.
Definition includes (p s : string) : bool :=
  match String.index 0 p s with Some _ => true | None => false end.

Definition upper_char (c : ascii) : ascii :=
  let n := N_of_ascii c in
  if (97 <=? n)%N && (n <=? 122)%N then ascii_of_N (n - 32) else c.
Definition lower_char (c : ascii) : ascii :=
  let n := N_of_ascii c in
  if (65 <=? n)%N && (n <=? 90)%N then ascii_of_N (n + 32) else c.

Fixpoint str_map (f : ascii → ascii) (s : string) : string :=
  match s with "" => "" | String a s' => String (f a) (str_map f s') end.
Definition to_upper : string → string := str_map upper_char.
Definition to_lower : string → string := str_map lower_char.

Fixpoint str_filter (p : ascii → bool) (s : string) : string :=
  match s with
  | "" => ""
  | String a s' => if p a then String a (str_filter p s') else str_filter p s'
  end.

Fixpoint str_forall (p : ascii → bool) (s : string) : bool :=
  match s with "" => true | String a s' => p a && str_forall p s' end.

Lemma str_app_assoc (a b c : string) : (a ++ b) ++ c = a ++ b ++ c.
Proof. induction a; simpl; [done|]. by f_equal. Qed.

Lemma str_app_nil_r (a : string) : a ++ "" = a.
Proof. induction a; simpl; [done|]. by f_equal. Qed.

Lemma str_length_app (a b : string) :
  String.length (a ++ b) = (String.length a + String.length b)%nat.
Proof. induction a; simpl; [done|]. by f_equal. Qed.

Lemma substring_app_l a b : substring 0 (String.length a) (a ++ b) = a.
Proof. induction a; simpl; [by destruct b|]. by f_equal. Qed.

Lemma substring_skip a b n m : substring (String.length a + n) m (a ++ b) = substring n m b.
Proof. induction a; simpl; [done|]. done. Qed.

Lemma substring_full a : substring 0 (String.length a) a = a.
Proof. induction a; simpl; [done|]. by f_equal. Qed.

(** Two strings with prefixes of the same length compare by prefix first. *)
Lemma str_compare_app a b x y :
  String.length a = String.length b →
  String.compare (a ++ x) (b ++ y) =
  match String.compare a b with Eq => String.compare x y | c => c end.
Proof.
  revert b; induction a as [|c a IH]; intros [|d b]; simpl; try done.
  intros [= Hl]. destruct (Ascii.compare c d); try done. by apply IH.
Qed.

Lemma str_compare_app_same a x y : String.compare (a ++ x) (a ++ y) = String.compare x y.
Proof. rewrite str_compare_app by done. by rewrite str_compare_refl. Qed.

(** ** Decimal digits *)

Definition digit (d : Z) : ascii := ascii_of_N (Z.to_N (48 + d)).

Definition digit_val (c : ascii) : option Z :=
  let n := Z.of_N (N_of_ascii c) in
  if (48 <=? n)%Z && (n <=? 57)%Z then Some (n - 48)%Z else None.

Definition is_digit (c : ascii) : bool := bool_decide (is_Some (digit_val c)).

Lemma N_of_digit d : (0 <= d <= 9)%Z → N_of_ascii (digit d) = Z.to_N (48 + d).
Proof. intros. unfold digit. apply N_ascii_embedding. lia. Qed.

Lemma digit_val_digit d : (0 <= d <= 9)%Z → digit_val (digit d) = Some d.
Proof.
  intros. unfold digit_val. rewrite N_of_digit by done.
  replace (Z.of_N (Z.to_N (48 + d))) with (48 + d)%Z by lia.
  destruct (48 <=? 48 + d)%Z eqn:?, (48 + d <=? 57)%Z eqn:?; bool_facts; try lia.
  simpl. f_equal. lia.
Qed.

Lemma digit_val_range c d : digit_val c = Some d → (0 <= d <= 9)%Z ∧ c = digit d.
Proof.
  unfold digit_val. cases; intros [= <-]. bool_facts. split; [lia|].
  unfold digit. rewrite <- (ascii_N_embedding c) at 1. f_equal. lia.
Qed.

Lemma compare_digit a b :
  (0 <= a <= 9)%Z → (0 <= b <= 9)%Z → Ascii.compare (digit a) (digit b) = Z.compare a b.
Proof.
  intros. unfold Ascii.compare. rewrite !N_of_digit by done.
  rewrite <- N2Z.inj_compare. rewrite !Z2N.id by lia. apply Z.add_compare_mono_l.
Qed.

(** The last [w] decimal digits of [n], most significant first. *)
Fixpoint fix_digits (w : nat) (n : Z) : string :=
  match w with
  | O => ""
  | S w' => String (digit (n / 10 ^ Z.of_nat w' mod 10)) (fix_digits w' n)
  end.

Lemma length_fix_digits w n : String.length (fix_digits w n) = w.
Proof. induction w; simpl; congruence. Qed.

Lemma fix_digits_mod w k n :
  (w <= k)%nat → fix_digits w (n mod 10 ^ Z.of_nat k) = fix_digits w n.
Proof.
  induction w as [|w IH]; intros Hk; simpl; [done|]. rewrite IH by lia. do 2 f_equal.
  set (p := (10 ^ Z.of_nat w)%Z). set (r := (10 ^ (Z.of_nat k - 1 - Z.of_nat w))%Z).
  assert (0 < p)%Z by (apply Z.pow_pos_nonneg; lia).
  assert (0 < r)%Z by (apply Z.pow_pos_nonneg; lia).
  assert (10 ^ Z.of_nat k = p * (10 * r))%Z as ->.
  { unfold p, r. rewrite <- (Z.pow_succ_r 10), <- Z.pow_add_r by lia. f_equal. lia. }
  rewrite Z.rem_mul_r, (Z.mul_comm p), Z.div_add, (Z.div_small (n mod p)) by
    (try apply Z.mod_pos_bound; lia).
  rewrite Z.add_0_l, Z.rem_mul_r, (Z.mul_comm 10), Z.mod_add, Z.mod_mod by lia. done.
Qed.

Lemma compare_fix_digits w a b :
  (0 <= a < 10 ^ Z.of_nat w)%Z → (0 <= b < 10 ^ Z.of_nat w)%Z →
  String.compare (fix_digits w a) (fix_digits w b) = Z.compare a b.
Proof.
  revert a b; induction w as [|w IH]; intros a b Ha Hb.
  { simpl in *. assert (a = 0 ∧ b = 0)%Z as [-> ->] by lia. done. }
  cbn [fix_digits String.compare].
  assert (Hp : (10 ^ Z.of_nat (S w) = 10 * 10 ^ Z.of_nat w)%Z)
    by (rewrite Nat2Z.inj_succ, Z.pow_succ_r by lia; done).
  assert (0 < 10 ^ Z.of_nat w)%Z by (apply Z.pow_pos_nonneg; lia).
  rewrite Hp in Ha, Hb. clear Hp. set (p := (10 ^ Z.of_nat w)%Z) in *.
  assert (Hd : ∀ x, (0 <= x < 10 * p → 0 <= x / p < 10)%Z).
  { intros x Hx. split; [apply Z.div_pos|apply Z.div_lt_upper_bound]; lia. }
  pose proof (Hd a Ha). pose proof (Hd b Hb).
  rewrite (Z.mod_small (a / p)), (Z.mod_small (b / p)) by lia. rewrite compare_digit by lia.
  pose proof (Z_div_mod_eq_full a p) as Ea. pose proof (Z_div_mod_eq_full b p) as Eb.
  pose proof (Z.mod_pos_bound a p). pose proof (Z.mod_pos_bound b p).
  destruct (Z.compare_spec (a / p) (b / p)) as [E|E|E].
  - rewrite <- (fix_digits_mod w w a), <- (fix_digits_mod w w b) by lia. fold p.
    rewrite IH by lia. rewrite E in Ea.
    destruct (Z.compare_spec (a mod p) (b mod p)), (Z.compare_spec a b); first [done | exfalso; lia].
  - symmetry. apply Z.compare_lt_iff. nia.
  - symmetry. apply Z.compare_gt_iff. nia.
Qed.

Lemma fix_digits_snoc w n :
  fix_digits (S w) n = fix_digits w (n / 10) ++ String (digit (n mod 10)) "".
Proof.
  induction w as [|w IH].
  - simpl. by rewrite Z.div_1_r.
  - change (fix_digits (S (S w)) n) with
      (String (digit (n / 10 ^ Z.of_nat (S w) mod 10)) (fix_digits (S w) n)).
    rewrite IH. cbn [fix_digits]. simpl String.append. do 3 f_equal.
    rewrite Nat2Z.inj_succ, Z.pow_succ_r, Z.div_div by lia. done.
Qed.

(** [String(n)] of a non-negative integer; [fuel] bounds the number of digits. *)
Fixpoint dec_digits (fuel : nat) (n : Z) (acc : string) : string :=
  match fuel with
  | O => acc
  | S fuel' =>
      let acc' := String (digit (n mod 10)) acc in
      if (n <? 10)%Z then acc' else dec_digits fuel' (n / 10) acc'
  end.

Definition Zstr (n : Z) : string :=
  let go m := dec_digits (S (Z.to_nat (Z.log2 m))) m "" in
  if (n <? 0)%Z then "-" ++ go (- n)%Z else go n.

Lemma dec_digits_fix w fuel n acc :
  (w <= fuel)%nat → (10 ^ Z.of_nat w <= n < 10 ^ Z.of_nat (S w))%Z →
  dec_digits (S fuel) n acc = fix_digits (S w) n ++ acc.
Proof.
  revert fuel n acc; induction w as [|w IH]; intros fuel n acc Hf Hn.
  - change (1 <= n < 10)%Z in Hn. cbn [dec_digits].
    destruct (n <? 10)%Z eqn:E; bool_facts; [|lia]. simpl. by rewrite Z.div_1_r.
  - rewrite (Nat2Z.inj_succ (S w)), Z.pow_succ_r in Hn by lia.
    assert (10 <= 10 ^ Z.of_nat (S w))%Z.
    { rewrite Nat2Z.inj_succ, Z.pow_succ_r by lia.
      assert (0 < 10 ^ Z.of_nat w)%Z by (apply Z.pow_pos_nonneg; lia). lia. }
    destruct fuel as [|fuel]; [lia|].
    change (dec_digits (S (S fuel)) n acc) with
      (if (n <? 10)%Z then String (digit (n mod 10)) acc
       else dec_digits (S fuel) (n / 10) (String (digit (n mod 10)) acc)).
    destruct (n <? 10)%Z eqn:E; bool_facts; [lia|].
    rewrite IH; [|lia|].
    + rewrite (fix_digits_snoc (S w) n), str_app_assoc. done.
    + rewrite (Nat2Z.inj_succ w), Z.pow_succ_r in * by lia. split.
      * apply Z.div_le_lower_bound; lia.
      * apply Z.div_lt_upper_bound; lia.
Qed.

Lemma Zstr_fix w n :
  (10 ^ Z.of_nat w <= n < 10 ^ Z.of_nat (S w))%Z → Zstr n = fix_digits (S w) n.
Proof.
  intros Hn. unfold Zstr.
  assert (0 < 10 ^ Z.of_nat w)%Z by (apply Z.pow_pos_nonneg; lia).
  destruct (n <? 0)%Z eqn:E; bool_facts; [lia|].
  rewrite (dec_digits_fix w); [apply str_app_nil_r| |done].
  assert (Z.of_nat w <= Z.log2 n)%Z; [|lia].
  apply Z.log2_le_pow2; [lia|].
  transitivity (10 ^ Z.of_nat w)%Z; [|lia]. apply Z.pow_le_mono_l. lia.
Qed.

(** [String(n).padStart(2, '0')]. *)
Definition pad2 (n : Z) : string :=
  let s := Zstr n in if (String.length s <? 2)%nat then "0" ++ s else s.

Lemma pad2_fix n : (0 <= n <= 99)%Z → pad2 n = fix_digits 2 n.
Proof.
  intros Hn. destruct (decide (n <= 9)%Z).
  - rewrite <- (Z2Nat.id n) by lia. assert (Z.to_nat n < 10)%nat as Hk by lia.
    revert Hk. generalize (Z.to_nat n) as k; intros k Hk.
    do 10 (destruct k as [|k]; [reflexivity|]). lia.
  - unfold pad2. rewrite (Zstr_fix 1) by (simpl; lia). done.
Qed.

Lemma Zstr_year y : (1000 <= y <= 9999)%Z → Zstr y = fix_digits 4 y.
Proof. intros. apply (Zstr_fix 3). simpl. lia. Qed.

(** Reading a run of digits; [None] when the string is empty or holds another character. *)
Fixpoint digits_val_from (acc : Z) (s : string) : option Z :=
  match s with
  | "" => Some acc
  | String c s' =>
      match digit_val c with
      | Some d => digits_val_from (10 * acc + d) s'
      | None => None
      end
  end.

Definition parse_digits (s : string) : option Z :=
  match s with "" => None | _ => digits_val_from 0 s end.

Lemma digits_val_from_fix w n acc :
  (0 <= n)%Z →
  digits_val_from acc (fix_digits w n) = Some (acc * 10 ^ Z.of_nat w + n mod 10 ^ Z.of_nat w)%Z.
Proof.
  intros Hn. revert acc; induction w as [|w IH]; intros acc; cbn [fix_digits digits_val_from].
  - simpl. rewrite Z.mod_1_r. f_equal. lia.
  - pose proof (Z.mod_pos_bound (n / 10 ^ Z.of_nat w) 10).
    assert (0 < 10 ^ Z.of_nat w)%Z by (apply Z.pow_pos_nonneg; lia).
    rewrite digit_val_digit, IH by lia. f_equal.
    rewrite Nat2Z.inj_succ, Z.pow_succ_r by lia.
    rewrite (Z.mul_comm 10 (10 ^ _)), (Z.rem_mul_r n) by lia. ring.
Qed.

Lemma parse_digits_fix w n :
  (0 <= n < 10 ^ Z.of_nat w)%Z → (0 < w)%nat → parse_digits (fix_digits w n) = Some n.
Proof.
  intros Hn Hw. unfold parse_digits. destruct (fix_digits w n) eqn:E; [by destruct w; [lia|]|].
  rewrite <- E, digits_val_from_fix, Z.mod_small by lia. done.
Qed.

(** ** Texts without a separator or a space *)

Definition free_of (c : ascii) (s : string) : bool := str_forall (λ a, negb (Ascii.eqb a c)) s.
Definition no_space (s : string) : bool := str_forall (λ a, negb (is_space a)) s.

Lemma split_on_app c a s :
  free_of c a = true → split_on c (a ++ String c s) = a :: split_on c s.
Proof.
  unfold free_of. induction a as [|x a IH]; simpl; intros H.
  - by rewrite Ascii.eqb_refl.
  - bool_facts. change (String x a ++ String c s) with (String x (a ++ String c s)). cbn [split_on].
    destruct (Ascii.eqb x c); [congruence|]. by rewrite IH.
Qed.

Lemma split_on_free c a : free_of c a = true → split_on c a = [a].
Proof.
  unfold free_of. induction a as [|x a IH]; simpl; intros H; [done|]. bool_facts.
  destruct (Ascii.eqb x c); [congruence|]. by rewrite IH.
Qed.

(** [join] then [split] gives the parts back. *)
Lemma split_on_join c l :
  l ≠ [] → Forall (λ s, free_of c s = true) l → split_on c (join (String c "") l) = l.
Proof.
  intros Hl Hf. induction Hf as [|x l Hx Hf IH]; [done|].
  destruct l as [|y l]; [by apply split_on_free|].
  change (join (String c "") (x :: y :: l)) with (x ++ (String c (join (String c "") (y :: l)))).
  rewrite split_on_app, IH; done.
Qed.

Lemma join_inj c l1 l2 :
  l1 ≠ [] → l2 ≠ [] → Forall (λ s, free_of c s = true) l1 → Forall (λ s, free_of c s = true) l2 →
  join (String c "") l1 = join (String c "") l2 → l1 = l2.
Proof. intros. rewrite <- (split_on_join c l1), <- (split_on_join c l2) by done. by f_equal. Qed.

Lemma ltrim_no_space s : no_space s = true → ltrim s = s.
Proof.
  unfold no_space. destruct s as [|c s]; simpl; [done|]. intros. bool_facts.
  destruct (is_space c); congruence.
Qed.

Lemma rtrim_no_space s : no_space s = true → rtrim s = s.
Proof.
  unfold no_space. induction s as [|c s IH]; simpl; intros H; [done|]. bool_facts.
  rewrite IH by done. destruct (is_space c); [congruence|]. by destruct s.
Qed.

Lemma trim_no_space s : no_space s = true → trim s = s.
Proof. intros. unfold trim. by rewrite ltrim_no_space, rtrim_no_space. Qed.

Lemma str_forall_impl (p q : ascii → bool) s :
  (∀ a, p a = true → q a = true) → str_forall p s = true → str_forall q s = true.
Proof.
  intros Hpq. induction s as [|c s IH]; simpl; [done|]. intros. bool_facts.
  by rewrite Hpq, IH.
Qed.

Lemma dec_digits_forall fuel n acc :
  str_forall is_digit acc = true → str_forall is_digit (dec_digits fuel n acc) = true.
Proof.
  revert n acc; induction fuel as [|k IH]; intros n acc H; [done|]. cbn [dec_digits].
  assert (str_forall is_digit (String (digit (n mod 10)) acc) = true).
  { simpl. rewrite H, andb_true_r. unfold is_digit. apply bool_decide_eq_true.
    rewrite digit_val_digit; [eauto|]. pose proof (Z.mod_pos_bound n 10). lia. }
  destruct (n <? 10)%Z; auto.
Qed.

Lemma Zstr_digits n : (0 <= n)%Z → str_forall is_digit (Zstr n) = true.
Proof.
  intros Hn. unfold Zstr. destruct (n <? 0)%Z eqn:E; bool_facts; [lia|]. by apply dec_digits_forall.
Qed.

Lemma is_digit_cases (P : ascii → Prop) :
  Forall P (digit <$> [0;1;2;3;4;5;6;7;8;9]%Z) → ∀ a, is_digit a = true → P a.
Proof.
  rewrite Forall_forall. intros HP a Ha. unfold is_digit in Ha. apply bool_decide_eq_true in Ha as [d Hd].
  apply digit_val_range in Hd as [Hd ->]. apply HP, list_elem_of_fmap. exists d. split; [done|].
  rewrite !elem_of_cons. lia.
Qed.

Lemma Zstr_no_space n : (0 <= n)%Z → no_space (Zstr n) = true.
Proof.
  intros Hn. apply (str_forall_impl is_digit); [|by apply Zstr_digits].
  apply is_digit_cases. repeat constructor.
Qed.

Lemma Zstr_free_of n c : is_digit c = false → (0 <= n)%Z → free_of c (Zstr n) = true.
Proof.
  intros Hc Hn. apply (str_forall_impl is_digit); [|by apply Zstr_digits].
  intros a Ha. apply negb_true_iff, Ascii.eqb_neq. intros ->. congruence.
Qed.

Lemma dec_digits_nonempty fuel n c acc : dec_digits fuel n (String c acc) ≠ "".
Proof.
  revert n c acc; induction fuel as [|k IH]; intros n c acc; cbn [dec_digits]; [done|].
  destruct (n <? 10)%Z; [done|apply IH].
Qed.

Lemma Zstr_nonempty n : (0 <= n)%Z → Zstr n ≠ "".
Proof.
  intros Hn. unfold Zstr. destruct (n <? 0)%Z eqn:E; bool_facts; [lia|]. cbn [dec_digits].
  destruct (n <? 10)%Z; [done|apply dec_digits_nonempty].
Qed.

Example Zstr_examples : Zstr 0 = "0" ∧ Zstr 1234567 = "1234567" ∧ Zstr (-40) = "-40" ∧ pad2 7 = "07".
Proof. by vm_compute. Qed.
Example split_example : split_on "," "1,,2" = ["1"; ""; "2"].
Proof. reflexivity. Qed.
Example trim_example : trim "  a b " = "a b".
Proof. reflexivity. Qed.
