(* ===== verification/JsNumber.v ===== *)
(** JavaScript numbers: binary64 values on the Standard Library's SpecFloat.
    [Number(text)], the arithmetic operators, comparisons with their NaN rules,
    [Number.isInteger], [Math.round], [toFixed] and [String(number)]. Only the
    language is modelled here, no file of the program. *)

From Stdlib Require Import Floats.SpecFloat.
From S2P Require Import Prelude JsString.
Local Open Scope string_scope.

Definition num : Type := spec_float.

#[export] Instance num_eq_dec : EqDecision num.
Proof. solve_decision. Defined.

Definition nan : num := S754_nan.
Definition num_add : num → num → num := SFadd 53 1024.
Definition num_sub : num → num → num := SFsub 53 1024.
Definition num_mul : num → num → num := SFmul 53 1024.
Definition num_div : num → num → num := SFdiv 53 1024.
Definition num_neg : num → num := SFopp.
Definition num_abs : num → num := SFabs.

(** The double nearest to [(-1)^neg * n / d], ties to even. *)
Definition of_ratio (neg : bool) (n d : Z) : num :=
  match n, d with
  | Zpos p, Zpos q => SFdiv 53 1024 (S754_finite neg p 0) (S754_finite false q 0)
  | _, _ => S754_zero neg
  end.

Definition of_Z (n : Z) : num := of_ratio (n <? 0)%Z (Z.abs n) 1.

(** The operators [<], [<=], [===]: false whenever an operand is NaN. *)
Definition num_lt : num → num → bool := SFltb.
Definition num_le : num → num → bool := SFleb.
Definition num_gt (a b : num) : bool := num_lt b a.
Definition num_ge (a b : num) : bool := num_le b a.
Definition num_eqb : num → num → bool := SFeqb.

Definition is_nan (x : num) : bool := match x with S754_nan => true | _ => false end.
Definition is_finite (x : num) : bool :=
  match x with S754_zero _ | S754_finite _ _ _ => true | _ => false end.

(** A finite number is [m * 2^e]. *)
Definition num_parts (x : num) : option (Z * Z) :=
  match x with
  | S754_zero _ => Some (0, 0)%Z
  | S754_finite s m e => Some (cond_Zopp s (Zpos m), e)
  | _ => None
  end.

(** [Math.floor], as an integer. *)
Definition num_floor (x : num) : option Z :=
  '(m, e) ← num_parts x;
  Some (if (0 <=? e)%Z then Z.shiftl m e else m / 2 ^ (- e))%Z.

(** The integer a number holds, when [Number.isInteger] accepts it. *)
Definition num_int (x : num) : option Z :=
  '(m, e) ← num_parts x;
  if (0 <=? e)%Z then Some (Z.shiftl m e)
  else if (m mod 2 ^ (- e) =? 0)%Z then Some (m / 2 ^ (- e))%Z else None.

Definition is_integer (x : num) : bool := bool_decide (is_Some (num_int x)).

(** [Math.round]: half goes up; a result of zero keeps the sign. *)
Definition math_round (x : num) : num :=
  match x with
  | S754_finite s m e =>
      let n := cond_Zopp s (Zpos m) in
      let k := (if 0 <=? e then Z.shiftl n e else (2 * n + 2 ^ (- e)) / 2 ^ (1 - e))%Z in
      if (k =? 0)%Z then S754_zero s else of_Z k
  | _ => x
  end.

(** [Math.max] and [Math.min] of two numbers. *)
Definition math_max (a b : num) : num :=
  if is_nan a || is_nan b then nan else if num_lt a b then b else a.
Definition math_min (a b : num) : num :=
  if is_nan a || is_nan b then nan else if num_lt b a then b else a.

(** ** [Number(text)] *)

Definition radix_digit (c : ascii) : option Z :=
  let n := Z.of_N (N_of_ascii c) in
  if (48 <=? n)%Z && (n <=? 57)%Z then Some (n - 48)%Z
  else if (97 <=? n)%Z && (n <=? 102)%Z then Some (n - 87)%Z
  else if (65 <=? n)%Z && (n <=? 70)%Z then Some (n - 55)%Z
  else None.

Fixpoint radix_digits (r acc : Z) (s : string) : option Z :=
  match s with
  | "" => Some acc
  | String c s' =>
      d ← radix_digit c; if (d <? r)%Z then radix_digits r (r * acc + d)%Z s' else None
  end.

(** The leading run of decimal digits and what follows it. *)
Fixpoint take_digits (s : string) : string * string :=
  match s with
  | String c s' =>
      if is_digit c then let '(d, rest) := take_digits s' in (String c d, rest) else ("", s)
  | "" => ("", "")
  end.

Definition exponent_of (s : string) : option Z :=
  match s with
  | "" => Some 0%Z
  | String e s' =>
      if Ascii.eqb e "e" || Ascii.eqb e "E" then
        match s' with
        | String "-" d => Z.opp <$> parse_digits d
        | String "+" d => parse_digits d
        | d => parse_digits d
        end
      else None
  end.

(** An unsigned decimal literal: digits, an optional fraction, an optional
    exponent; one of the two digit runs is not empty. *)
Definition unsigned_decimal (neg : bool) (s : string) : num :=
  if String.eqb s "Infinity" then S754_infinity neg else
  let '(ip, rest) := take_digits s in
  let '(fp, rest) :=
    match rest with String "." r => take_digits r | _ => ("", rest) end in
  match parse_digits (ip ++ fp), exponent_of rest with
  | Some m, Some e =>
      let k := (e - Z.of_nat (String.length fp))%Z in
      if (0 <=? k)%Z then of_ratio neg (m * 10 ^ k) 1 else of_ratio neg m (10 ^ (- k))
  | _, _ => nan
  end.

Definition radix_literal (r : Z) (s : string) : num :=
  match s with
  | "" => nan
  | _ => match radix_digits r 0 s with Some n => of_Z n | None => nan end
  end.

Definition to_number (text : string) : num :=
  match trim text with
  | "" => S754_zero false
  | String "-" s => unsigned_decimal true s
  | String "+" s => unsigned_decimal false s
  | String "0" (String "x" s) | String "0" (String "X" s) => radix_literal 16 s
  | String "0" (String "o" s) | String "0" (String "O" s) => radix_literal 8 s
  | String "0" (String "b" s) | String "0" (String "B" s) => radix_literal 2 s
  | s => unsigned_decimal false s
  end.

(** ** Numbers as text *)

Fixpoint zeros (n : nat) : string := match n with O => "" | S k => String "0" (zeros k) end.

(** [Number.prototype.toString]: the fewest significant digits that read back
    as the same number. [digits] is tried at 1 .. 17 digits. *)
Definition ratio_of (m e : Z) : Z * Z :=
  if (0 <=? e)%Z then (Z.shiftl m e, 1%Z) else (m, (2 ^ (- e))%Z).

(** The position of the decimal point: [10^(n-1) <= p/q < 10^n]. *)
Fixpoint point_up (fuel : nat) (p q n : Z) : Z :=
  match fuel with
  | O => n
  | S k => if (10 ^ n * q <=? p)%Z then point_up k p q (n + 1) else n
  end.
Fixpoint point_down (fuel : nat) (p q n : Z) : Z :=
  match fuel with
  | O => n
  | S k => if (p * 10 ^ (1 - n) <? q)%Z then point_down k p q (n - 1) else n
  end.
Definition point_of (p q : Z) : Z :=
  if (q <=? p)%Z then point_up 310 p q 1 else point_down 330 p q 0.

Definition round_half_up (p q : Z) : Z := ((2 * p + q) / (2 * q))%Z.

Fixpoint shortest (fuel : nat) (k : Z) (x : num) (p q n : Z) : Z * Z :=
  let s := (if 0 <=? k - n then round_half_up (p * 10 ^ (k - n)) q
            else round_half_up p (q * 10 ^ (n - k)))%Z in
  match fuel with
  | O => (s, k)
  | S fuel' =>
      let back := (if 0 <=? k - n then of_ratio false s (10 ^ (k - n))
                   else of_ratio false (s * 10 ^ (n - k)) 1)%Z in
      if num_eqb back x then (s, k) else shortest fuel' (k + 1)%Z x p q n
  end.

Definition show_digits (s n : Z) : string :=
  let ds := Zstr s in
  let k := Z.of_nat (String.length ds) in
  if ((k <=? n) && (n <=? 21))%Z then ds ++ zeros (Z.to_nat (n - k))
  else if ((0 <? n) && (n <=? 21))%Z then
    substring 0 (Z.to_nat n) ds ++ "." ++ slice_from ds (Z.to_nat n)
  else if ((-6 <? n) && (n <=? 0))%Z then "0." ++ zeros (Z.to_nat (- n)) ++ ds
  else
    let e := (n - 1)%Z in
    let sign := if (e <? 0)%Z then "-" else "+" in
    let frac := match ds with String _ "" => "" | String _ r => "." ++ r | "" => "" end in
    substring 0 1 ds ++ frac ++ "e" ++ sign ++ Zstr (Z.abs e).

(** Remove the trailing zeros of the digits; the point does not move. *)
Fixpoint drop_zeros (fuel : nat) (s : Z) : Z :=
  match fuel with
  | O => s
  | S k => if ((s mod 10 =? 0) && negb (s =? 0))%Z then drop_zeros k (s / 10)%Z else s
  end.

Definition num_to_string (x : num) : string :=
  match x with
  | S754_nan => "NaN"
  | S754_infinity s => if s then "-Infinity" else "Infinity"
  | S754_zero _ => "0"
  | S754_finite s m e =>
      let '(p, q) := ratio_of (Zpos m) e in
      let n := point_of p q in
      let '(d, k) := shortest 17 1 (S754_finite false m e) p q n in
      let n' := if (Z.of_nat (String.length (Zstr d)) =? k)%Z then n else (n + 1)%Z in
      (if s then "-" else "") ++ show_digits (drop_zeros 17 d) n'
  end.

(** [x.toFixed(f)]: the exact value rounded half up at [f] decimals; the text
    of [String(x)] from [10^21] on. *)
Definition fixed_text (s : bool) (n : Z) (f : nat) : string :=
  let ds := Zstr n in
  let ds := zeros (S f - String.length ds) ++ ds in
  let k := (String.length ds - f)%nat in
  (if s then "-" else "") ++
  match f with O => ds | _ => substring 0 k ds ++ "." ++ slice_from ds k end.

Definition to_fixed (f : nat) (x : num) : string :=
  match x with
  | S754_zero _ => fixed_text false 0 f
  | S754_finite s m e =>
      if num_ge (num_abs x) (of_Z (10 ^ 21)) then num_to_string x
      else let '(p, q) := ratio_of (Zpos m) e in
        fixed_text s (round_half_up (p * 10 ^ Z.of_nat f) q) f
  | _ => num_to_string x
  end.

(** ** Laws *)

Lemma num_eqb_refl x : is_nan x = false → num_eqb x x = true.
Proof.
  intros H. unfold num_eqb, SFeqb, SFcompare.
  destruct x as [[]|[]| |[] m e]; simpl; try done; rewrite Z.compare_refl, Pos.compare_cont_refl; done.
Qed.

Lemma num_sub_diag x : is_finite x = true → num_sub x x = S754_zero false.
Proof.
  intros H. unfold num_sub, SFsub. destruct x as [[]|[]| |s m e]; simpl; try done.
  by rewrite Z.sub_diag.
Qed.

Lemma SFcompare_antisym a b :
  SFcompare b a = match SFcompare a b with Some c => Some (CompOpp c) | None => None end.
Proof.
  unfold SFcompare.
  destruct a as [sa|sa| |sa ma ea], b as [sb|sb| |sb mb eb];
    try (by destruct sa); try (by destruct sb); try done; try (destruct sa, sb; done).
  rewrite (Z.compare_antisym ea eb). destruct sa, sb; simpl; try done.
  - destruct (ea ?= eb)%Z; simpl; try done.
    rewrite (Pos.compare_cont_antisym ma mb Eq). by destruct (Pos.compare_cont Eq ma mb).
  - destruct (ea ?= eb)%Z; simpl; try done.
    rewrite (Pos.compare_cont_antisym ma mb Eq). by destruct (Pos.compare_cont Eq ma mb).
Qed.

Lemma num_le_total a b :
  is_nan a = false → is_nan b = false → num_le a b = true ∨ num_le b a = true.
Proof.
  intros Ha Hb. unfold num_le, SFleb. rewrite (SFcompare_antisym a b).
  destruct (SFcompare a b) as [[]|] eqn:E; simpl; auto.
  exfalso. destruct a as [[]|[]| |[] ma ea], b as [[]|[]| |[] mb eb]; simpl in *; try done;
    destruct (ea ?= eb)%Z; done.
Qed.

Lemma num_lt_irrefl x : num_lt x x = false.
Proof.
  unfold num_lt, SFltb. pose proof (SFcompare_antisym x x) as H.
  by destruct (SFcompare x x) as [[]|].
Qed.

(** Comparison is a preorder on the numbers that are not NaN; a comparison that
    holds says that neither side is NaN. *)
Lemma SFcompare_finite s m1 e1 m2 e2 :
  SFcompare (S754_finite s m1 e1) (S754_finite s m2 e2) =
  Some (match (if s then e2 ?= e1 else e1 ?= e2)%Z with
        | Eq => (if s then m2 ?= m1 else m1 ?= m2)%positive | c => c end).
Proof.
  destruct s; simpl.
  - rewrite (Z.compare_antisym e1 e2). destruct (e1 ?= e2)%Z; simpl; try done.
    rewrite (Pos.compare_antisym m1 m2). unfold Pos.compare. by destruct (Pos.compare_cont Eq m1 m2).
  - by destruct (e1 ?= e2)%Z.
Qed.

Definition lex_le (a b : Z * positive) : Prop := (a.1 < b.1)%Z ∨ a.1 = b.1 ∧ (a.2 <= b.2)%positive.

Lemma num_le_finite s m1 e1 m2 e2 :
  num_le (S754_finite s m1 e1) (S754_finite s m2 e2) = true ↔
  if s then lex_le (e2, m2) (e1, m1) else lex_le (e1, m1) (e2, m2).
Proof.
  unfold num_le, SFleb, lex_le. rewrite SFcompare_finite. destruct s; simpl.
  - destruct (Z.compare_spec e2 e1) as [->|H|H], (Pos.compare_spec m2 m1); naive_solver lia.
  - destruct (Z.compare_spec e1 e2) as [->|H|H], (Pos.compare_spec m1 m2); naive_solver lia.
Qed.

Lemma num_le_trans a b c : num_le a b = true → num_le b c = true → num_le a c = true.
Proof.
  destruct a as [[]|[]| |[] ma ea], b as [[]|[]| |[] mb eb], c as [[]|[]| |[] mc ec];
    try done; rewrite ?num_le_finite; unfold lex_le; simpl; naive_solver lia.
Qed.

Lemma num_lt_le a b : num_lt a b = true → num_le a b = true.
Proof. unfold num_lt, num_le, SFltb, SFleb. by destruct (SFcompare a b) as [[]|]. Qed.

Lemma num_lt_not_le a b : num_lt a b = true → num_le b a = false.
Proof.
  unfold num_lt, num_le, SFltb, SFleb. rewrite (SFcompare_antisym a b).
  by destruct (SFcompare a b) as [[]|].
Qed.

Lemma num_le_nan a b : num_le a b = true → is_nan a = false ∧ is_nan b = false.
Proof. by destruct a as [[]|[]| |[] ma ea], b as [[]|[]| |[] mb eb]. Qed.

Lemma num_not_lt a b : is_nan a = false → is_nan b = false → num_lt a b = negb (num_le b a).
Proof.
  intros Ha Hb. pose proof (num_le_total a b Ha Hb) as Ht. revert Ht.
  unfold num_lt, num_le, SFltb, SFleb. rewrite (SFcompare_antisym a b).
  destruct (SFcompare a b) as [[]|]; simpl; naive_solver.
Qed.

Lemma num_le_lt_trans a b c : num_le a b = true → num_lt b c = true → num_lt a c = true.
Proof.
  intros H1 H2. destruct (num_le_nan _ _ H1), (num_le_nan _ _ (num_lt_le _ _ H2)).
  rewrite num_not_lt by done. apply negb_true_iff. destruct (num_le c a) eqn:E; [|done].
  pose proof (num_le_trans _ _ _ E H1). by rewrite num_lt_not_le in *.
Qed.

Lemma num_lt_le_trans a b c : num_lt a b = true → num_le b c = true → num_lt a c = true.
Proof.
  intros H1 H2. destruct (num_le_nan _ _ H2), (num_le_nan _ _ (num_lt_le _ _ H1)).
  rewrite num_not_lt by done. apply negb_true_iff. destruct (num_le c a) eqn:E; [|done].
  pose proof (num_le_trans _ _ _ H2 E). by rewrite num_lt_not_le in *.
Qed.

Lemma num_eqb_le a b : num_eqb a b = true → num_le a b = true ∧ num_le b a = true.
Proof.
  unfold num_eqb, num_le, SFeqb, SFleb. rewrite (SFcompare_antisym a b).
  by destruct (SFcompare a b) as [[]|].
Qed.

Example to_number_examples :
  num_to_string (to_number "0.28") = "0.28" ∧ num_to_string (to_number " -12.50 ") = "-12.5" ∧
  num_to_string (num_add (to_number "0.1") (to_number "0.2")) = "0.30000000000000004" ∧
  num_to_string (to_number "1e21") = "1e+21" ∧ num_to_string (to_number "123456789") = "123456789" ∧
  num_to_string (to_number "1e-7") = "1e-7" ∧ num_to_string (to_number "5e-324") = "5e-324" ∧
  num_to_string (to_number "0.000123") = "0.000123" ∧ num_to_string (to_number "100") = "100" ∧
  num_to_string (to_number "9.5") = "9.5" ∧ num_to_string (to_number "0x1F") = "31" ∧
  to_number "1,5" = nan ∧ to_number "." = nan ∧ to_number "" = S754_zero false ∧
  num_to_string (to_number "1.7976931348623157e308") = "1.7976931348623157e+308".
Proof. vm_compute. repeat split. Qed.
Example to_fixed_examples :
  to_fixed 2 (to_number "1.005") = "1.00" ∧ to_fixed 2 (to_number "-0.004") = "-0.00" ∧
  to_fixed 5 (to_number "0.123456") = "0.12346" ∧ to_fixed 0 (to_number "2.5") = "3" ∧
  to_fixed 2 (to_number "1234.5") = "1234.50".
Proof. vm_compute. repeat split. Qed.
Example round_examples :
  num_int (math_round (to_number "2.5")) = Some 3%Z ∧ num_int (math_round (to_number "-2.5")) = Some (-2)%Z ∧
  math_round (to_number "-0.4") = S754_zero true ∧ num_int (to_number "7") = Some 7%Z ∧
  num_int (to_number "7.5") = None.
Proof. vm_compute. repeat split. Qed.

(** [Number] reads the padded fields of a date. *)
Lemma num_int_fix4 y : (1000 <= y <= 9999)%Z → num_int (to_number (fix_digits 4 y)) = Some y.
Proof.
  intros H. assert (y ∈ seqZ 1000 9000) as Hin by (rewrite elem_of_seqZ; lia). revert Hin. clear H.
  assert (forallb (λ y, bool_decide (num_int (to_number (fix_digits 4 y)) = Some y)) (seqZ 1000 9000) = true) as Hall by (by vm_compute).
  rewrite forallb_elem in Hall. intros Hin. specialize (Hall y Hin). by rewrite bool_decide_eq_true in Hall.
Qed.

Lemma num_int_fix2 m : (0 <= m <= 99)%Z → num_int (to_number (fix_digits 2 m)) = Some m.
Proof.
  intros H. assert (m ∈ seqZ 0 100) as Hin by (rewrite elem_of_seqZ; lia). revert Hin. clear H.
  assert (forallb (λ m, bool_decide (num_int (to_number (fix_digits 2 m)) = Some m)) (seqZ 0 100) = true) as Hall by (by vm_compute).
  rewrite forallb_elem in Hall. intros Hin. specialize (Hall m Hin). by rewrite bool_decide_eq_true in Hall.
Qed.
