(* ===== verification/JsFloat.v ===== *)
(** Accuracy of binary64: the operations of JsNumber on positive numbers are within one
    part in [2^52] of the exact result, so that what is formatted with few decimals is the
    exact decimal. Values are rationals. *)

From Stdlib Require Import Floats.SpecFloat QArith Qpower Lqa.
From S2P Require Import Prelude JsString JsNumber.

(** ** Powers of two *)

Definition p2 (e : Z) : Q := (2 # 1) ^ e.

Lemma p2_pos e : (0 < p2 e)%Q.
Proof. by apply Qpower_0_lt. Qed.

Lemma p2_plus a b : (p2 (a + b) == p2 a * p2 b)%Q.
Proof. by apply Qpower_plus. Qed.

Lemma p2_Z e : (0 <= e)%Z → (p2 e == inject_Z (2 ^ e))%Q.
Proof. intros H. unfold p2. rewrite Zpower_Qpower by done. done. Qed.

Lemma p2_le a b : (a <= b)%Z → (p2 a <= p2 b)%Q.
Proof.
  intros H. replace b with (a + (b - a))%Z by lia. rewrite p2_plus, (p2_Z (b - a)) by lia. pose proof (p2_pos a).
  assert (1 <= inject_Z (2 ^ (b - a)))%Q as H1.
  { change 1%Q with (inject_Z 1). rewrite <- Zle_Qle. pose proof (Z.pow_pos_nonneg 2 (b - a)). lia. }
  nra.
Qed.

Lemma p2_lt_inv a b : (p2 a < p2 b)%Q → (a < b)%Z.
Proof. intros H. destruct (Z.lt_ge_cases a b) as [|Hge]; [done|]. apply p2_le in Hge. lra. Qed.

Lemma p2_1 e : (p2 (e + 1) == 2 * p2 e)%Q.
Proof. rewrite p2_plus. unfold p2 at 2. change ((2 # 1) ^ 1)%Q with (2 # 1)%Q. ring. Qed.

Lemma p2_scale a b e : (a <= b)%Z → (inject_Z a * p2 e <= inject_Z b * p2 e)%Q.
Proof. intros H. apply Qmult_le_compat_r; [by rewrite <- Zle_Qle|]. pose proof (p2_pos e). lra. Qed.

(** ** Digits and shifts *)

Lemma digits2_bounds p : (2 ^ (Zpos (digits2_pos p) - 1) <= Zpos p < 2 ^ Zpos (digits2_pos p))%Z.
Proof.
  induction p as [p IH|p IH|]; cbn [digits2_pos]; [| |done].
  all: rewrite Pos2Z.inj_succ; replace (Z.succ (Zpos (digits2_pos p)) - 1)%Z with (Zpos (digits2_pos p) - 1 + 1)%Z by lia;
    rewrite Z.pow_add_r, Z.pow_succ_r by lia; lia.
Qed.

Lemma Zdigits2_bounds m : (0 < m)%Z → (2 ^ (Zdigits2 m - 1) <= m < 2 ^ Zdigits2 m)%Z.
Proof. destruct m; [lia| |lia]. intros _. apply digits2_bounds. Qed.

Lemma Zdigits2_pos m : (0 < m)%Z → (1 <= Zdigits2 m)%Z.
Proof. destruct m; cbn; lia. Qed.

Lemma pow2_lt_inv a b : (0 <= b)%Z → (2 ^ a < 2 ^ b)%Z → (a < b)%Z.
Proof. intros Hb H. by apply (Z.pow_lt_mono_r_iff 2). Qed.

(** The number of digits from bounds. *)
Lemma Zdigits2_ge m k : (0 <= k)%Z → (2 ^ k <= m)%Z → (k < Zdigits2 m)%Z.
Proof.
  intros Hk H. assert (0 < m)%Z as Hm by (pose proof (Z.pow_pos_nonneg 2 k); lia).
  pose proof (Zdigits2_bounds m Hm). pose proof (Zdigits2_pos m Hm). apply pow2_lt_inv; lia.
Qed.

Lemma Zdigits2_le m k : (0 < m)%Z → (0 <= k)%Z → (m < 2 ^ k)%Z → (Zdigits2 m <= k)%Z.
Proof.
  intros Hm Hk H. pose proof (Zdigits2_bounds m Hm). pose proof (Zdigits2_pos m Hm).
  assert (Zdigits2 m - 1 < k)%Z by (apply pow2_lt_inv; lia). lia.
Qed.

Lemma shr_1_half r : (0 <= shr_m r)%Z → shr_m (shr_1 r) = (shr_m r / 2)%Z.
Proof.
  destruct r as [[|[p|p|]|p] a b]; cbn [shr_m shr_1]; intros H; try done; try lia.
  - by rewrite Pos2Z.inj_xI, Z.mul_comm, Z.div_add_l.
  - by rewrite Pos2Z.inj_xO, Z.mul_comm, Z.div_mul.
Qed.

Lemma iter_shr p : ∀ r, (0 <= shr_m r)%Z → shr_m (SpecFloat.iter_pos shr_1 p r) = (shr_m r / 2 ^ Zpos p)%Z.
Proof.
  induction p as [p IH|p IH|]; intros r H; cbn [SpecFloat.iter_pos].
  - pose proof (shr_1_half r H) as H1. assert (0 <= shr_m (shr_1 r))%Z as H2 by (rewrite H1; apply Z.div_pos; lia).
    assert (0 <= shr_m (SpecFloat.iter_pos shr_1 p (shr_1 r)))%Z as H3 by (rewrite IH by done; apply Z.div_pos; lia).
    rewrite (IH _ H3), (IH _ H2), H1, !Z.div_div by lia. f_equal.
    replace (Zpos p~1) with (1 + Zpos p + Zpos p)%Z by lia. rewrite !Z.pow_add_r by lia. ring.
  - assert (0 <= shr_m (SpecFloat.iter_pos shr_1 p r))%Z as H3 by (rewrite IH by done; apply Z.div_pos; lia).
    rewrite (IH _ H3), (IH _ H), Z.div_div by lia. f_equal.
    replace (Zpos p~0) with (Zpos p + Zpos p)%Z by lia. by rewrite Z.pow_add_r by lia.
  - by rewrite shr_1_half.
Qed.

Lemma shr_fexp_spec m e l :
  (0 <= m)%Z → let E := Z.max e (fexp 53 1024 (Zdigits2 m + e)) in
  ∃ r, shr_fexp 53 1024 m e l = (r, E) ∧ shr_m r = (m / 2 ^ (E - e))%Z.
Proof.
  intros Hm E. unfold shr_fexp. assert (shr_m (shr_record_of_loc m l) = m) as Hr by (by destruct l as [|[]]).
  set (n := (fexp 53 1024 (Zdigits2 m + e) - e)%Z). unfold shr. destruct n as [|p|p] eqn:En.
  - eexists. split; [do 2 f_equal; lia|]. rewrite Hr. replace (E - e)%Z with 0%Z by lia. by rewrite Z.div_1_r.
  - eexists. split; [do 2 f_equal; lia|]. rewrite iter_shr by (by rewrite Hr). rewrite Hr. do 2 f_equal. lia.
  - eexists. split; [do 2 f_equal; lia|]. rewrite Hr. replace (E - e)%Z with 0%Z by lia. by rewrite Z.div_1_r.
Qed.

Lemma fexp_normal x : (-1021 <= x)%Z → fexp 53 1024 x = (x - 53)%Z.
Proof. unfold fexp, SpecFloat.emin. lia. Qed.

Lemma round_nearest_even_cases m l : round_nearest_even m l = m ∨ round_nearest_even m l = (m + 1)%Z.
Proof. destruct l as [|[]]; cbn; try tauto. destruct (Z.even m); tauto. Qed.

(** ** Rounding *)

(** A positive number as close to [v] as one unit in its last place of a full mantissa. *)
Definition near (k : Z) (x : num) (v : Q) : Prop :=
  match x with
  | S754_zero false => (v == 0)%Q
  | S754_finite false m e =>
      (2 ^ 52 <= Zpos m < 2 ^ 53)%Z ∧ (0 < v)%Q ∧
      (- (inject_Z k * p2 (-52) * v) <= inject_Z (Zpos m) * p2 e - v <= inject_Z k * p2 (-52) * v)%Q
  | _ => False
  end.

Lemma round_near mx ex lx v :
  (2 ^ 52 <= mx)%Z → (inject_Z mx * p2 ex <= v)%Q → (v < inject_Z (mx + 1) * p2 ex)%Q → (p2 (-900) <= v)%Q → (v <= p2 900)%Q →
  near 1 (binary_round_aux 53 1024 false mx ex lx) v.
Proof.
  intros Hmx Hl Hu Hlo Hhi. set (d := Zdigits2 mx). assert (0 < mx)%Z as Hpos by lia.
  pose proof (Zdigits2_bounds mx Hpos) as Hd. fold d in Hd. assert (52 < d)%Z as Hd53 by (apply Zdigits2_ge; lia).
  assert (-900 < d + ex)%Z as Hde.
  { apply p2_lt_inv. rewrite p2_plus. eapply Qle_lt_trans; [exact Hlo|]. eapply Qlt_le_trans; [exact Hu|].
    rewrite (p2_Z d) by lia. apply Qmult_le_compat_r; [|pose proof (p2_pos ex); lra]. rewrite <- Zle_Qle. lia. }
  unfold binary_round_aux. destruct (shr_fexp_spec mx ex lx) as (r & -> & Hr); [lia|]. fold d in Hr |- *.
  rewrite fexp_normal in Hr |- * by lia. replace (Z.max ex (d + ex - 53)) with (ex + (d - 53))%Z in Hr |- * by lia.
  replace (ex + (d - 53) - ex)%Z with (d - 53)%Z in Hr by lia. set (E := (ex + (d - 53))%Z) in *.
  set (m1 := shr_m r) in *. set (K := (2 ^ (d - 53))%Z) in *. assert (0 < K)%Z as HK by (by apply Z.pow_pos_nonneg; lia).
  assert (2 ^ (d - 1) = 2 ^ 52 * K ∧ 2 ^ d = 2 ^ 53 * K)%Z as [Hd1 Hd2].
  { unfold K. rewrite <- !Z.pow_add_r by lia. split; f_equal; lia. }
  rewrite Hd1, Hd2 in Hd. assert (2 ^ 52 <= m1 < 2 ^ 53)%Z as Hm1.
  { rewrite Hr. split; [apply Z.div_le_lower_bound; lia|apply Z.div_lt_upper_bound; lia]. }
  assert (m1 * K <= mx < (m1 + 1) * K)%Z as HmK.
  { rewrite Hr. pose proof (Z.div_mod mx K ltac:(lia)). pose proof (Z.mod_pos_bound mx K HK). nia. }
  assert (p2 E == inject_Z K * p2 ex)%Q as HE.
  { unfold E. rewrite p2_plus, (p2_Z (d - 53)) by lia. fold K. ring. }
  assert (inject_Z m1 * p2 E <= v)%Q as Hlo1.
  { rewrite HE, Qmult_assoc, <- inject_Z_mult. eapply Qle_trans; [|exact Hl]. apply p2_scale. lia. }
  assert (v < inject_Z (m1 + 1) * p2 E)%Q as Hup1.
  { rewrite HE, Qmult_assoc, <- inject_Z_mult. eapply Qlt_le_trans; [exact Hu|]. apply p2_scale. lia. }
  assert (p2 E <= p2 (-52) * v)%Q as Hulp.
  { eapply Qle_trans; [|apply Qmult_le_l; [apply p2_pos|exact Hlo1]].
    assert (p2 (-52) * inject_Z (2 ^ 52) == 1)%Q as E1 by reflexivity.
    eapply Qle_trans; [|rewrite Qmult_assoc; apply Qmult_le_compat_r; [|pose proof (p2_pos E); lra]; apply Qmult_le_l; [apply p2_pos|];
      rewrite <- Zle_Qle; exact (proj1 Hm1)].
    rewrite E1. lra. }
  set (m2 := round_nearest_even m1 (loc_of_shr_record r)).
  assert (m1 <= m2 <= m1 + 1)%Z as Hm2 by (unfold m2; destruct (round_nearest_even_cases m1 (loc_of_shr_record r)); lia).
  assert (- (p2 E) <= inject_Z m2 * p2 E - v <= p2 E)%Q as Herr.
  { rewrite inject_Z_plus in Hup1. pose proof (p2_scale m1 m2 E ltac:(lia)). pose proof (p2_scale m2 (m1 + 1) E ltac:(lia)) as H2.
    rewrite inject_Z_plus in H2. change (inject_Z 1) with 1%Q in *. lra. }
  assert (0 < v)%Q as Hv by (pose proof (p2_pos (-900)); lra).
  assert (- (inject_Z 1 * p2 (-52) * v) <= inject_Z m2 * p2 E - v <= inject_Z 1 * p2 (-52) * v)%Q as Hn.
  { change (inject_Z 1) with 1%Q. lra. }
  assert (E <= 900)%Z as HE9.
  { cut (E < 901)%Z; [lia|]. apply p2_lt_inv. eapply Qle_lt_trans; [exact Hulp|].
    assert (p2 (-52) <= p2 0)%Q as H52 by (by apply p2_le). change (p2 0) with 1%Q in H52. pose proof (p2_pos (-52)).
    assert (p2 901 == 2 * p2 900)%Q by (rewrite <- p2_1; reflexivity). pose proof (p2_pos 900). nra. }
  destruct (shr_fexp_spec m2 E loc_Exact) as (r2 & -> & Hr2); [lia|].
  pose proof (Zdigits2_ge m2 52 ltac:(lia) ltac:(lia)) as Hdg. pose proof (Zdigits2_le m2 54 ltac:(lia) ltac:(lia) ltac:(lia)) as Hdl.
  assert (E = ex + (d - 53))%Z as HEq by reflexivity.
  rewrite fexp_normal in Hr2 |- * by lia. destruct (Z.eq_dec m2 (2 ^ 53)%Z) as [Ee|Hne].
  - assert (Zdigits2 m2 = 54)%Z as Ed by (by rewrite Ee). rewrite Ed in Hr2 |- *.
    replace (Z.max E (54 + E - 53)) with (E + 1)%Z in Hr2 |- * by lia. replace (E + 1 - E)%Z with 1%Z in Hr2 by lia.
    rewrite Ee in Hr2. change (shr_m r2 = 4503599627370496)%Z in Hr2. rewrite Hr2.
    rewrite (proj2 (Z.leb_le _ _)) by lia. split; [lia|]. split; [done|]. rewrite p2_1.
    rewrite Ee in Hn. change (inject_Z (2 ^ 53)) with (2 * 4503599627370496)%Q in Hn. change (inject_Z 4503599627370496) with 4503599627370496%Q. lra.
  - assert (Zdigits2 m2 <= 53)%Z as Hd3 by (apply Zdigits2_le; lia). replace (Z.max E (Zdigits2 m2 + E - 53)) with E in Hr2 |- * by lia.
    rewrite Z.sub_diag, Z.div_1_r in Hr2. rewrite Hr2. destruct m2 as [|p|p]; [lia| |lia].
    rewrite (proj2 (Z.leb_le _ _)) by lia. split; [lia|]. split; [done|]. exact Hn.
Qed.

#[export] Instance near_proper k x : Proper (Qeq ==> iff) (near k x).
Proof. intros v w E. destruct x as [[]|[]| |[] m e]; cbn [near]; try done; by rewrite !E. Qed.

(** A positive value the double range holds with room for the roundings below. *)
Definition in_range (v : Q) : Prop := (v == 0)%Q ∨ (p2 (-800) <= v ∧ v <= p2 800)%Q.

#[export] Instance in_range_proper : Proper (Qeq ==> iff) in_range.
Proof. intros v w E. unfold in_range. by rewrite !E. Qed.

Lemma p2_900_800 : (p2 (-900) * 4 <= p2 (-800) ∧ 4 * p2 800 <= p2 900)%Q.
Proof. split; reflexivity || by vm_compute. Qed.

(** The error factor of small counts. *)
Lemma factor_small k : (0 <= k <= 2 ^ 19)%Z → (0 <= inject_Z k * p2 (-52) <= 1 # 1000)%Q.
Proof.
  intros Hk. split; [apply Qmult_le_0_compat; [by change 0%Q with (inject_Z 0); rewrite <- Zle_Qle; lia|pose proof (p2_pos (-52)); lra]|].
  apply Qle_trans with (inject_Z (2 ^ 19) * p2 (-52))%Q; [|done]. apply p2_scale. lia.
Qed.

(** A result near the exact value of rounded operands is near the value of the exact ones. *)
Lemma near_shift k x w v :
  near 1 x w → (0 < v)%Q → (0 <= k <= 2 ^ 19)%Z →
  (- (inject_Z k * p2 (-52) * v) <= w - v <= inject_Z k * p2 (-52) * v)%Q → near (k + 2) x v.
Proof.
  intros Hn Hv Hk Hw. pose proof (factor_small k Hk) as Hku.
  pose proof (p2_pos (-52)) as Hu. set (u := p2 (-52)) in *. set (c := (inject_Z k * u)%Q) in *.
  assert (c * v <= (1 # 1000) * v)%Q as Hcv by (apply Qmult_le_compat_r; lra).
  destruct x as [[]|[]| |[] m e]; cbn [near] in Hn |- *; try done; [lra|].
  destruct Hn as (Hm & Hw0 & He). split; [done|]. split; [done|]. fold u in He |- *. set (X := (inject_Z (Zpos m) * p2 e)%Q) in *.
  change (inject_Z 1) with 1%Q in He. rewrite inject_Z_plus. change (inject_Z 2) with 2%Q.
  assert ((inject_Z k + 2) * u * v == c * v + 2 * (u * v))%Q as -> by (unfold c; ring).
  assert (u * w <= u * (2 * v))%Q by (apply Qmult_le_l; lra). lra.
Qed.

(** What [near] says of a positive value. *)
Lemma near_pos k x v :
  near k x v → (0 < v)%Q → ∃ m e, x = S754_finite false m e ∧ (2 ^ 52 <= Zpos m < 2 ^ 53)%Z ∧
    (- (inject_Z k * p2 (-52) * v) <= inject_Z (Zpos m) * p2 e - v <= inject_Z k * p2 (-52) * v)%Q.
Proof.
  destruct x as [[]|[]| |[] m e]; cbn [near]; try done; [intros H Hv; lra|]. intros (Hm & _ & He) _. by exists m, e.
Qed.

Lemma near_zero k x v : near k x v → (v == 0)%Q → x = S754_zero false.
Proof. destruct x as [[]|[]| |[] m e]; cbn [near]; try done. intros (_ & Hv & _) H. lra. Qed.

Lemma prod_bounds a b X Y v w :
  (0 <= a <= 1 # 1000)%Q → (0 <= b <= 1 # 1000)%Q → (0 < v)%Q → (0 < w)%Q → (- (a * v) <= X - v <= a * v)%Q → (- (b * w) <= Y - w <= b * w)%Q →
  (- ((a + b + a * b) * (v * w)) <= X * Y - v * w <= (a + b + a * b) * (v * w))%Q.
Proof.
  intros Ha Hb Hv Hw HX HY. assert (0 < X)%Q by nra. assert (0 < Y)%Q by nra.
  assert (X * Y - v * w == (X - v) * Y + v * (Y - w))%Q as -> by ring.
  assert (Y <= (1 + b) * w)%Q by lra.
  assert (- (a * v * Y) <= (X - v) * Y <= a * v * Y)%Q by nra.
  assert (a * v * Y <= a * v * ((1 + b) * w))%Q by (assert (0 <= a * v)%Q by nra; nra).
  assert (- (v * (b * w)) <= v * (Y - w) <= v * (b * w))%Q by nra. lra.
Qed.

Lemma near_cases k x v : near k x v → x = S754_zero false ∧ (v == 0)%Q ∨ (0 < v)%Q.
Proof. destruct x as [[]|[]| |[] m e]; cbn [near]; try done; [by left|]. intros (_ & ? & _). by right. Qed.

Lemma factor_le k : (0 <= k <= 2 ^ 10)%Z → (0 <= inject_Z k <= 1024)%Q.
Proof. intros H. change 0%Q with (inject_Z 0). change 1024%Q with (inject_Z (2 ^ 10)). rewrite <- !Zle_Qle. lia. Qed.

Lemma near_weaken k k' x v : (k <= k')%Z → near k x v → near k' x v.
Proof.
  intros Hk. destruct x as [[]|[]| |[] m e]; cbn [near]; try done. intros (Hm & Hv & He). split; [done|]. split; [done|].
  assert (inject_Z k * p2 (-52) * v <= inject_Z k' * p2 (-52) * v)%Q by (apply Qmult_le_compat_r; [by apply p2_scale|lra]). lra.
Qed.

(** The error of a product, counted in units. *)
Lemma prod_factor k1 k2 :
  (0 <= k1 <= 2 ^ 10)%Z → (0 <= k2 <= 2 ^ 10)%Z → let u := p2 (-52) in
  (inject_Z k1 * u + inject_Z k2 * u + inject_Z k1 * u * (inject_Z k2 * u) <= inject_Z (k1 + k2 + 1) * u)%Q.
Proof.
  intros H1 H2 u. rewrite !inject_Z_plus. change (inject_Z 1) with 1%Q. pose proof (factor_le k1 H1) as F1. pose proof (factor_le k2 H2) as F2.
  assert (0 < u)%Q as Hu by apply p2_pos. assert (1024 * 1024 * u <= 1)%Q as Hu1 by done.
  set (a := inject_Z k1) in *. set (b := inject_Z k2) in *. assert (0 <= a * b <= 1024 * 1024)%Q as Hab by nra.
  assert (a * b * u <= 1)%Q by (eapply Qle_trans; [apply Qmult_le_compat_r; [exact (proj2 Hab)|lra]|done]).
  assert (a * u * (b * u) <= 1 * u)%Q; [|lra]. assert (a * u * (b * u) == (a * b * u) * u)%Q as -> by ring. apply Qmult_le_compat_r; lra.
Qed.

(** The exact value stays in the range of [round_near] when it moves by little. *)
Lemma range_near v w c :
  (p2 (-800) <= v)%Q → (v <= p2 800)%Q → (0 <= c <= 1 # 2)%Q → (- (c * v) <= w - v <= c * v)%Q → (p2 (-900) <= w ∧ w <= p2 900)%Q.
Proof.
  intros Hl Hh Hc Hw. destruct p2_900_800 as [H1 H2]. pose proof (p2_pos (-900)). pose proof (p2_pos (-800)).
  assert (c * v <= (1 # 2) * v)%Q by (apply Qmult_le_compat_r; lra). pose proof (p2_pos 800). split; lra.
Qed.

Lemma factor_half k : (0 <= k <= 2 ^ 19)%Z → (0 <= inject_Z k * p2 (-52) <= 1 # 2)%Q.
Proof. intros H. pose proof (factor_small k H). lra. Qed.

Lemma near_mul k1 k2 x y v w :
  (0 <= k1 <= 2 ^ 10)%Z → (0 <= k2 <= 2 ^ 10)%Z → near k1 x v → near k2 y w → in_range (v * w) → near (k1 + k2 + 3) (num_mul x y) (v * w).
Proof.
  intros Hk1 Hk2 Hx Hy Hr. destruct (near_cases _ _ _ Hx) as [(-> & Hv)|Hv].
  { destruct (near_cases _ _ _ Hy) as [(-> & Hw)|Hw]; [cbn; nra|]. destruct (near_pos _ _ _ Hy Hw) as (m & e & -> & _). cbn. rewrite Hv. ring. }
  destruct (near_pos _ _ _ Hx Hv) as (mx & ex & -> & Hmx & Ex). destruct (near_cases _ _ _ Hy) as [(-> & Hw)|Hw]; [cbn; rewrite Hw; ring|].
  destruct (near_pos _ _ _ Hy Hw) as (my & ey & -> & Hmy & Ey). unfold num_mul, SFmul. cbn [xorb].
  assert (0 < v * w)%Q as Hvw by nra. destruct Hr as [Hr|[Hrl Hrh]]; [lra|].
  replace (k1 + k2 + 3)%Z with (k1 + k2 + 1 + 2)%Z by lia.
  set (X := (inject_Z (Zpos mx) * p2 ex)%Q) in *. set (Y := (inject_Z (Zpos my) * p2 ey)%Q) in *.
  assert (inject_Z (Zpos (mx * my)) * p2 (ex + ey) == X * Y)%Q as EW.
  { rewrite Pos2Z.inj_mul, inject_Z_mult, p2_plus. unfold X, Y. ring. }
  pose proof (prod_bounds _ _ X Y v w (factor_small k1 ltac:(lia)) (factor_small k2 ltac:(lia)) Hv Hw Ex Ey) as Hp.
  assert (- (inject_Z (k1 + k2 + 1) * p2 (-52) * (v * w)) <= X * Y - v * w <= inject_Z (k1 + k2 + 1) * p2 (-52) * (v * w))%Q as HW.
  { pose proof (prod_factor k1 k2 Hk1 Hk2) as Hf. cbn zeta in Hf. pose proof (Qmult_le_compat_r _ _ (v * w) Hf (Qlt_le_weak _ _ Hvw)). lra. }
  destruct (range_near _ _ _ Hrl Hrh (factor_half (k1 + k2 + 1) ltac:(lia)) HW) as [Hl Hh].
  apply (near_shift _ _ (X * Y)); [|done|lia|done]. apply round_near; [nia|lra| |done|done].
  rewrite inject_Z_plus, Qmult_plus_distr_l, EW. pose proof (p2_pos (ex + ey)). change (inject_Z 1) with 1%Q. lra.
Qed.

(** The quotient that [SFdiv] rounds. *)
Lemma div_core mx ex my ey :
  let X := (inject_Z (Zpos mx) * p2 ex)%Q in let Y := (inject_Z (Zpos my) * p2 ey)%Q in
  (p2 (-900) <= X / Y)%Q → (X / Y <= p2 900)%Q → near 1 (num_div (S754_finite false mx ex) (S754_finite false my ey)) (X / Y).
Proof.
  intros X Y Hl Hh. unfold num_div, SFdiv. cbn [xorb]. unfold SFdiv_core_binary.
  set (d1 := Zdigits2 (Zpos mx)). set (d2 := Zdigits2 (Zpos my)). pose proof (Zdigits2_bounds (Zpos mx) ltac:(lia)) as B1. fold d1 in B1.
  pose proof (Zdigits2_bounds (Zpos my) ltac:(lia)) as B2. fold d2 in B2. pose proof (Zdigits2_pos (Zpos mx) ltac:(lia)) as P1. fold d1 in P1.
  pose proof (Zdigits2_pos (Zpos my) ltac:(lia)) as P2. fold d2 in P2. assert (0 < Y)%Q as HY.
  { unfold Y. apply Qmult_lt_0_compat; [by change 0%Q with (inject_Z 0); rewrite <- Zlt_Qlt|apply p2_pos]. }
  assert (-900 < d1 + ex - (d2 - 1 + ey))%Z as Hd.
  { apply p2_lt_inv. eapply Qle_lt_trans; [exact Hl|]. apply Qlt_shift_div_r; [done|].
    eapply Qlt_le_trans; [unfold X; apply Qmult_lt_compat_r; [apply p2_pos|rewrite <- Zlt_Qlt; exact (proj2 B1)]|].
    rewrite <- (p2_Z d1), <- p2_plus by lia. apply Qle_trans with (p2 (d1 + ex - (d2 - 1 + ey)) * p2 (d2 - 1 + ey))%Q.
    - rewrite <- p2_plus. apply p2_le. lia.
    - apply Qmult_le_l; [apply p2_pos|]. rewrite p2_plus. unfold Y. rewrite (p2_Z (d2 - 1)) by lia. apply p2_scale. lia. }
  rewrite fexp_normal by lia. set (e' := Z.min (d1 + ex - (d2 + ey) - 53) (ex - ey)). set (s := (ex - ey - e')%Z).
  assert (0 <= s ∧ 53 - d1 + d2 <= s)%Z as [Hs0 Hs] by lia.
  assert (match s with Zpos _ => Z.shiftl (Zpos mx) s | 0%Z => Zpos mx | Zneg _ => 0%Z end = Zpos mx * 2 ^ s)%Z as ->.
  { destruct s eqn:Es; [lia|by rewrite Z.shiftl_mul_pow2 by lia|lia]. }
  set (n := (Zpos mx * 2 ^ s)%Z). pose proof (Z.div_mod n (Zpos my) ltac:(lia)) as Hdm. pose proof (Z.mod_pos_bound n (Zpos my) ltac:(lia)) as Hmb.
  unfold Z.modulo, Z.div in Hdm, Hmb. destruct (Z.div_eucl n (Zpos my)) as [q r] eqn:Eq. cbn in Hdm, Hmb.
  assert (2 ^ 52 * Zpos my <= n)%Z as Hn.
  { unfold n. apply Z.le_trans with (2 ^ (d1 - 1) * 2 ^ s)%Z; [|nia]. rewrite <- Z.pow_add_r by lia.
    apply Z.le_trans with (2 ^ 52 * 2 ^ d2)%Z; [lia|]. rewrite <- Z.pow_add_r by lia. apply Z.pow_le_mono_r; lia. }
  assert (X / Y == inject_Z n * p2 e' / inject_Z (Zpos my))%Q as Ev.
  { unfold X, Y, n. rewrite inject_Z_mult, <- p2_Z by lia. assert (p2 ex == p2 s * p2 e' * p2 ey)%Q as -> by (rewrite <- !p2_plus; f_equiv; lia).
    field. split; [by intros ?|]. pose proof (p2_pos ey). lra. }
  apply round_near; [nia| | |done|done]; rewrite Ev.
  - apply Qle_shift_div_l; [done|]. assert (inject_Z q * p2 e' * inject_Z (Zpos my) == inject_Z (q * Zpos my) * p2 e')%Q as -> by (rewrite inject_Z_mult; ring).
    apply p2_scale. lia.
  - apply Qlt_shift_div_r; [done|]. assert (inject_Z (q + 1) * p2 e' * inject_Z (Zpos my) == inject_Z ((q + 1) * Zpos my) * p2 e')%Q as -> by (rewrite inject_Z_mult; ring).
    apply Qmult_lt_compat_r; [apply p2_pos|]. rewrite <- Zlt_Qlt. lia.
Qed.

Lemma near_div k1 k2 x y v w :
  (0 <= k1 <= 2 ^ 10)%Z → (0 <= k2 <= 2 ^ 10)%Z → near k1 x v → near k2 y w → (0 < w)%Q → in_range (v / w) →
  near (k1 + k2 + 5) (num_div x y) (v / w).
Proof.
  intros Hk1 Hk2 Hx Hy Hw Hr. destruct (near_pos _ _ _ Hy Hw) as (my & ey & -> & Hmy & Ey).
  destruct (near_cases _ _ _ Hx) as [(-> & Hv)|Hv]; [cbn; rewrite Hv; field; lra|].
  destruct (near_pos _ _ _ Hx Hv) as (mx & ex & -> & Hmx & Ex). set (q := (v / w)%Q) in *.
  assert (v == q * w)%Q as Eq by (unfold q; field; lra). assert (0 < q)%Q as Hq by (apply Qlt_shift_div_l; lra).
  destruct Hr as [Hr|[Hrl Hrh]]; [lra|]. replace (k1 + k2 + 5)%Z with (k1 + k2 + 3 + 2)%Z by lia.
  pose proof (div_core mx ex my ey) as Hc. cbn zeta in Hc.
  set (X := (inject_Z (Zpos mx) * p2 ex)%Q) in *. set (Y := (inject_Z (Zpos my) * p2 ey)%Q) in *.
  pose proof (factor_small k1 ltac:(lia)) as Ha. pose proof (factor_small k2 ltac:(lia)) as Hb. pose proof (factor_small (k1 + k2 + 3) ltac:(lia)) as Hcs.
  assert (inject_Z (k1 + k2 + 3) * p2 (-52) == inject_Z k1 * p2 (-52) + inject_Z k2 * p2 (-52) + 3 * p2 (-52))%Q as Ec.
  { rewrite !inject_Z_plus. change (inject_Z 3) with 3%Q. ring. }
  assert (inject_Z k2 * p2 (-52) * (inject_Z (k1 + k2 + 3) * p2 (-52)) <= p2 (-52))%Q as Hbc.
  { pose proof (factor_le k2 Hk2). pose proof (p2_pos (-52)) as Hu. assert (inject_Z k2 * (inject_Z (k1 + k2 + 3) * p2 (-52)) <= 1024 * (1 # 100000000))%Q as Hs.
    { apply Qle_trans with (1024 * (inject_Z (k1 + k2 + 3) * p2 (-52)))%Q; [apply Qmult_le_compat_r; lra|]. apply Qmult_le_l; [done|].
      apply Qle_trans with (inject_Z 3000 * p2 (-52))%Q; [apply p2_scale; lia|done]. }
    assert (inject_Z k2 * p2 (-52) * (inject_Z (k1 + k2 + 3) * p2 (-52)) == inject_Z k2 * (inject_Z (k1 + k2 + 3) * p2 (-52)) * p2 (-52))%Q as -> by ring.
    apply Qle_trans with (1 * p2 (-52))%Q; [|lra]. apply Qmult_le_compat_r; lra. }
  set (a := (inject_Z k1 * p2 (-52))%Q) in *. set (b := (inject_Z k2 * p2 (-52))%Q) in *. set (c := (inject_Z (k1 + k2 + 3) * p2 (-52))%Q) in *.
  pose proof (p2_pos (-52)) as Hu. set (u := p2 (-52)) in *. assert (0 < Y)%Q as HY by nra.
  assert (0 <= b * c)%Q as Hbc0 by (apply Qmult_le_0_compat; lra).
  assert (- (c * q) <= X / Y - q <= c * q)%Q as HW.
  { rewrite Eq in Ex. clear Hc. assert ((1 - c) * q <= X / Y ∧ X / Y <= (1 + c) * q)%Q as [H1 H2]; [|split; lra]. split.
    - apply Qle_shift_div_l; [done|]. assert (Y <= (1 + b) * w)%Q by lra. assert ((1 - c) * (1 + b) <= 1 - a)%Q by lra.
      assert (0 < q * w)%Q by nra. assert ((1 - c) * q * Y <= (1 - c) * q * ((1 + b) * w))%Q by (apply Qmult_le_l; [apply Qmult_lt_0_compat; lra|done]).
      assert ((1 - c) * (1 + b) * (q * w) <= (1 - a) * (q * w))%Q by (apply Qmult_le_compat_r; lra). lra.
    - apply Qle_shift_div_r; [done|]. assert ((1 - b) * w <= Y)%Q by lra. assert (1 + a <= (1 + c) * (1 - b))%Q by lra.
      assert (0 < q * w)%Q by nra. assert ((1 + c) * q * ((1 - b) * w) <= (1 + c) * q * Y)%Q by (apply Qmult_le_l; [apply Qmult_lt_0_compat; lra|done]).
      assert ((1 + a) * (q * w) <= (1 + c) * (1 - b) * (q * w))%Q by (apply Qmult_le_compat_r; lra). lra. }
  destruct (range_near _ _ _ Hrl Hrh (factor_half (k1 + k2 + 3) ltac:(lia)) HW) as [Hl Hh].
  apply (near_shift _ _ (X / Y)); [by apply Hc|done|lia|done].
Qed.

(** The number read for a decimal fraction. *)
Lemma near_ratio n d : (0 <= n)%Z → (0 < d)%Z → in_range (inject_Z n / inject_Z d) → near 1 (of_ratio false n d) (inject_Z n / inject_Z d).
Proof.
  intros Hn Hd Hr. destruct d as [|d|d]; [lia| |lia]. destruct n as [|n|n]; [cbn; by unfold Qdiv; rewrite Qmult_0_l| |lia].
  unfold of_ratio. pose proof (div_core n 0 d 0) as Hc. cbn zeta in Hc. change (p2 0) with 1%Q in Hc. rewrite !Qmult_1_r in Hc.
  destruct p2_900_800 as [Hp Hq]. pose proof (p2_pos (-900)). pose proof (p2_pos 800). destruct Hr as [Hr|[H1 H2]].
  - exfalso. assert (0 < inject_Z (Zpos n) / inject_Z (Zpos d))%Q by (by apply Qlt_shift_div_l). lra.
  - apply Hc; lra.
Qed.

Lemma near_Z n : (0 <= n)%Z → in_range (inject_Z n) → near 1 (of_Z n) (inject_Z n).
Proof.
  intros Hn Hr. unfold of_Z. rewrite (proj2 (Z.ltb_ge _ _)), Z.abs_eq by lia.
  assert (inject_Z n / inject_Z 1 == inject_Z n)%Q as E by field. rewrite <- E. apply near_ratio; [done|lia|by rewrite E].
Qed.

Lemma iter_xO m d : Zpos (Pos.iter xO m d) = (Zpos m * 2 ^ Zpos d)%Z.
Proof.
  induction d as [|d IH] using Pos.peano_ind; [cbn; lia|]. rewrite Pos.iter_succ, Pos2Z.inj_xO, IH, Pos2Z.inj_succ, Z.pow_succ_r by lia. lia.
Qed.

Lemma shl_align_spec m e ez : (ez <= e)%Z → Zpos (fst (shl_align m e ez)) = (Zpos m * 2 ^ (e - ez))%Z.
Proof.
  intros H. unfold shl_align. destruct (ez - e)%Z as [|d|d] eqn:Ed; [|lia|]; cbn [fst].
  - replace (e - ez)%Z with 0%Z by lia. lia.
  - rewrite iter_xO. do 2 f_equal. lia.
Qed.

Lemma near_add k1 k2 x y v w :
  (0 <= k1 <= 2 ^ 18)%Z → (0 <= k2 <= 2 ^ 18)%Z → near k1 x v → near k2 y w → in_range (v + w) → near (Z.max k1 k2 + 2) (num_add x y) (v + w).
Proof.
  intros Hk1 Hk2 Hx Hy Hr. destruct (near_cases _ _ _ Hx) as [(-> & Hv)|Hv].
  { rewrite Hv, Qplus_0_l. destruct (near_cases _ _ _ Hy) as [(-> & Hw)|Hw]; [done|]. apply (near_weaken k2); [lia|].
    destruct (near_pos _ _ _ Hy Hw) as (m & e & -> & _). done. }
  destruct (near_pos _ _ _ Hx Hv) as (mx & ex & -> & Hmx & Ex). destruct (near_cases _ _ _ Hy) as [(-> & Hw)|Hw].
  { rewrite Hw, Qplus_0_r. by apply (near_weaken k1); [lia|]. }
  destruct (near_pos _ _ _ Hy Hw) as (my & ey & -> & Hmy & Ey). unfold num_add, SFadd. cbn zeta. cbn [cond_Zopp].
  set (ez := Z.min ex ey). rewrite (shl_align_spec mx ex ez), (shl_align_spec my ey ez) by lia.
  set (X := (inject_Z (Zpos mx) * p2 ex)%Q) in *. set (Y := (inject_Z (Zpos my) * p2 ey)%Q) in *.
  set (n := (Zpos mx * 2 ^ (ex - ez) + Zpos my * 2 ^ (ey - ez))%Z).
  assert (2 ^ 52 <= n)%Z as Hn. { pose proof (Z.pow_pos_nonneg 2 (ex - ez)). pose proof (Z.pow_pos_nonneg 2 (ey - ez)). nia. }
  assert (inject_Z n * p2 ez == X + Y)%Q as En.
  { unfold n, X, Y. rewrite inject_Z_plus, !inject_Z_mult, <- (p2_Z (ex - ez)), <- (p2_Z (ey - ez)) by lia.
    assert (p2 ex == p2 (ex - ez) * p2 ez)%Q as -> by (rewrite <- p2_plus; f_equiv; lia).
    assert (p2 ey == p2 (ey - ez) * p2 ez)%Q as -> by (rewrite <- p2_plus; f_equiv; lia). ring. }
  set (k := Z.max k1 k2). pose proof (p2_pos (-52)) as Hu.
  assert (- (inject_Z k * p2 (-52) * (v + w)) <= X + Y - (v + w) <= inject_Z k * p2 (-52) * (v + w))%Q as HW.
  { assert (inject_Z k1 * p2 (-52) * v <= inject_Z k * p2 (-52) * v)%Q by (apply Qmult_le_compat_r; [apply p2_scale; lia|lra]).
    assert (inject_Z k2 * p2 (-52) * w <= inject_Z k * p2 (-52) * w)%Q by (apply Qmult_le_compat_r; [apply p2_scale; lia|lra]). lra. }
  destruct Hr as [Hr|[Hrl Hrh]]; [lra|]. destruct (range_near _ _ _ Hrl Hrh (factor_half k ltac:(lia)) HW) as [Hl Hh].
  unfold binary_normalize. destruct n as [|p|p] eqn:Ep; [lia| |lia]. unfold binary_round.
  pose proof (Zdigits2_ge (Zpos p) 52 ltac:(lia) ltac:(lia)) as Hdg. cbn [Zdigits2] in Hdg.
  pose proof (digits2_bounds p) as Hdb. assert (-900 < Zpos (digits2_pos p) + ez)%Z as Hde.
  { apply p2_lt_inv. rewrite p2_plus. eapply Qle_lt_trans; [exact Hl|]. rewrite <- En, (p2_Z (Zpos (digits2_pos p))) by lia. apply Qmult_lt_compat_r; [apply p2_pos|].
    rewrite <- Zlt_Qlt. exact (proj2 Hdb). }
  rewrite fexp_normal by lia. assert (shl_align p ez (Zpos (digits2_pos p) + ez - 53) = (p, ez)) as ->.
  { unfold shl_align. destruct (Zpos (digits2_pos p) + ez - 53 - ez)%Z eqn:E; [done..|lia]. }
  apply (near_shift _ _ (X + Y)); [|lra|lia|done]. apply round_near; [done|lra| |done|done].
  rewrite inject_Z_plus, Qmult_plus_distr_l, En. pose proof (p2_pos ez). change (inject_Z 1) with 1%Q. lra.
Qed.

(** ** Decimal texts *)

Local Open Scope string_scope.

Lemma fix_digits_app a b n : fix_digits (a + b) n = fix_digits a (n / 10 ^ Z.of_nat b) ++ fix_digits b n.
Proof.
  induction a as [|a IH]; [done|]. cbn [Nat.add fix_digits]. rewrite IH. cbn [String.append]. do 2 f_equal.
  rewrite Z.div_div by lia. do 3 f_equal. rewrite <- Z.pow_add_r by lia. f_equal. lia.
Qed.

Lemma zeros_fix j w n : (0 <= n < 10 ^ Z.of_nat w)%Z → zeros j ++ fix_digits w n = fix_digits (j + w) n.
Proof.
  intros Hn. rewrite fix_digits_app, Z.div_small by done. f_equal. induction j as [|j IH]; [done|]. cbn [zeros fix_digits].
  by rewrite Z.div_0_l, IH by (apply Z.pow_nonzero; lia).
Qed.

Lemma Zstr_fix_ex n : (0 <= n)%Z → ∃ w, Zstr n = fix_digits (S w) n ∧ (n < 10 ^ Z.of_nat (S w))%Z.
Proof.
  intros Hn. assert (n = 0 ∨ ∃ w, 10 ^ Z.of_nat w <= n < 10 ^ Z.of_nat (S w))%Z as [->|[w Hw]].
  - revert Hn. induction n as [n IH] using (well_founded_induction (Z.lt_wf 0)). intros Hn. destruct (Z.eq_dec n 0%Z) as [?|Hne]; [by left|].
    right. destruct (Z.lt_ge_cases n 10%Z) as [?|Hge]; [exists 0%nat; cbn; lia|]. destruct (IH (n / 10)%Z) as [E|[w Hw]].
    + split; [apply Z.div_pos; lia|apply Z.div_lt; lia].
    + apply Z.div_pos; lia.
    + exfalso. pose proof (Z.div_mod n 10%Z). pose proof (Z.mod_pos_bound n 10%Z). lia.
    + exists (S w). rewrite !Nat2Z.inj_succ, !Z.pow_succ_r in * by lia. pose proof (Z.div_mod n 10%Z). pose proof (Z.mod_pos_bound n 10%Z). lia.
  - exists 0%nat. done.
  - exists w. split; [by apply Zstr_fix|lia].
Qed.

(** A padded decimal text: the digits before the point and those after it. *)
Lemma fixed_text_split n f :
  (0 <= n)%Z → ∃ w, fixed_text false n (S f) = fix_digits (S w) (n / 10 ^ Z.of_nat (S f)) ++ "." ++ fix_digits (S f) n ∧
    (n < 10 ^ Z.of_nat (S w + S f))%Z.
Proof.
  intros Hn. destruct (Zstr_fix_ex n Hn) as (v & E & Hv). unfold fixed_text. rewrite E, length_fix_digits, zeros_fix by lia.
  set (j := (S (S f) - S v + S v)%nat). destruct (Nat.le_exists_sub (S (S f)) j) as (w & Ej & _); [lia|].
  exists w. rewrite length_fix_digits, Ej. replace (w + S (S f) - S f)%nat with (S w) by lia. replace (w + S (S f))%nat with (S w + S f)%nat by lia.
  split.
  - rewrite fix_digits_app. unfold slice_from. cbn [String.append]. f_equal.
    + rewrite <- (length_fix_digits (S w) (n / 10 ^ Z.of_nat (S f))) at 1. apply substring_app_l.
    + rewrite str_length_app, !length_fix_digits. f_equal. replace (S w + S f - S w)%nat with (S f) by lia.
      rewrite <- (length_fix_digits (S w) (n / 10 ^ Z.of_nat (S f))) at 1. rewrite <- (Nat.add_0_r (String.length _)), substring_skip.
      rewrite <- (length_fix_digits (S f) n) at 1. apply substring_full.
  - eapply Z.lt_le_trans; [exact Hv|]. apply Z.pow_le_mono_r; lia.
Qed.

Lemma fix_digits_forall w n : str_forall is_digit (fix_digits w n) = true.
Proof.
  induction w as [|w IH]; [done|]. cbn [fix_digits str_forall]. rewrite IH, andb_true_r. unfold is_digit. apply bool_decide_eq_true.
  rewrite digit_val_digit; [eauto|]. pose proof (Z.mod_pos_bound (n / 10 ^ Z.of_nat w) 10). lia.
Qed.

Lemma take_digits_app d r :
  str_forall is_digit d = true → match r with String c _ => is_digit c = false | "" => True end → take_digits (d ++ r) = (d, r).
Proof.
  intros Hd Hr. induction d as [|c d IH]; cbn [String.append take_digits str_forall] in *.
  - destruct r as [|c r]; [done|]. cbn. by rewrite Hr.
  - bool_facts. by rewrite H, IH.
Qed.

(** A text of digits and points is read as a decimal literal. *)
Lemma to_number_unsigned c r :
  is_digit c = true → match r with String c' _ => is_digit c' = true ∨ c' = "."%char | "" => True end → no_space (String c r) = true →
  to_number (String c r) = unsigned_decimal false (String c r).
Proof.
  intros Hc Hr Hs. unfold to_number. rewrite trim_no_space by done. clear Hs. revert c Hc. apply is_digit_cases.
  repeat constructor. destruct r as [|c r]; [done|]. destruct Hr as [Hc | ->]; [|done]. revert c Hc. apply is_digit_cases. repeat constructor.
Qed.

Lemma digits_no_space d r : str_forall is_digit d = true → no_space r = true → no_space (d ++ r) = true.
Proof.
  intros Hd Hr. unfold no_space in *. induction d as [|c d IH]; [done|]. cbn [String.append str_forall] in *. bool_facts.
  rewrite IH by done. rewrite andb_true_r. revert c H. apply is_digit_cases. repeat constructor.
Qed.

Lemma unsigned_decimal_read c a b n :
  str_forall is_digit (String c a) = true → str_forall is_digit b = true → b ≠ "" → parse_digits (String c a ++ b) = Some n →
  unsigned_decimal false (String c a ++ "." ++ b) = of_ratio false n (10 ^ Z.of_nat (String.length b)).
Proof.
  intros Ha Hb Hne Hp. unfold unsigned_decimal. assert (String.eqb (String c a ++ "." ++ b) "Infinity" = false) as ->.
  { cbn [str_forall] in Ha. bool_facts. revert c H Hp. apply (is_digit_cases (λ c, parse_digits (String c a ++ b) = Some n → _)). repeat constructor. }
  rewrite take_digits_app by done. cbn [String.append]. rewrite <- (str_app_nil_r b), take_digits_app by done. rewrite str_app_nil_r.
  change (String c (a ++ b)) with (String c a ++ b). rewrite Hp. cbn [exponent_of]. destruct b as [|c' b]; [done|].
  rewrite (proj2 (Z.leb_gt _ _)) by (cbn [String.length]; lia). done.
Qed.

(** [Number] of a decimal text is the nearest double of the decimal. *)
Lemma to_number_fixed n f : (0 <= n)%Z → to_number (fixed_text false n (S f)) = of_ratio false n (10 ^ Z.of_nat (S f)).
Proof.
  intros Hn. destruct (fixed_text_split n f Hn) as (w & -> & Hw).
  pose proof (fix_digits_forall (S w) (n / 10 ^ Z.of_nat (S f))) as Ha. pose proof (fix_digits_forall (S f) n) as Hb.
  assert (parse_digits (fix_digits (S w) (n / 10 ^ Z.of_nat (S f)) ++ fix_digits (S f) n) = Some n) as Hp.
  { rewrite <- fix_digits_app. apply parse_digits_fix; lia. }
  assert (no_space (fix_digits (S w) (n / 10 ^ Z.of_nat (S f)) ++ "." ++ fix_digits (S f) n) = true) as Hsp.
  { apply digits_no_space; [done|]. cbn [String.append]. rewrite <- (str_app_nil_r (fix_digits _ _)). unfold no_space. cbn [str_forall].
    change (str_forall _ ?s) with (no_space s). by rewrite digits_no_space. }
  pose proof (length_fix_digits (S f) n) as El. set (a := fix_digits (S w) _) in *. set (b := fix_digits (S f) n) in *.
  destruct a as [|c a0] eqn:Ea; [by cbn in Ea|]. clear a Ea. rename a0 into a.
  rewrite <- El. rewrite <- (unsigned_decimal_read c a b n Ha Hb ltac:(by destruct b) Hp). cbn [String.append] in *.
  apply to_number_unsigned; [|destruct a as [|c' a]; [by right|]; left|done]; cbn [str_forall] in Ha; bool_facts; done.
Qed.

Lemma to_number_Zstr n : (0 <= n)%Z → to_number (Zstr n) = of_Z n.
Proof.
  intros Hn. destruct (Zstr_fix_ex n Hn) as (w & -> & Hw). pose proof (fix_digits_forall (S w) n) as Ha.
  assert (no_space (fix_digits (S w) n) = true) as Hsp by (rewrite <- (str_app_nil_r (fix_digits _ _)); by apply digits_no_space).
  pose proof (parse_digits_fix (S w) n ltac:(lia) ltac:(lia)) as Hp. destruct (fix_digits (S w) n) as [|c a] eqn:E; [done|].
  rewrite to_number_unsigned; [| |destruct a as [|c' a]; [done|left]|done]; [|cbn [str_forall] in Ha; bool_facts; done..].
  unfold unsigned_decimal. assert (String.eqb (String c a) "Infinity" = false) as ->.
  { cbn [str_forall] in Ha. bool_facts. clear E Hsp Hp. revert c H. by apply is_digit_cases; repeat constructor. }
  rewrite <- (str_app_nil_r (String c a)), take_digits_app by done. cbn beta iota. rewrite !str_app_nil_r, Hp. cbn [mbind option_bind exponent_of String.length Z.leb].
  unfold of_Z. rewrite (proj2 (Z.ltb_ge _ _)), Z.abs_eq, Z.mul_1_r by lia. done.
Qed.

(** ** Formatting with few decimals *)

Lemma Qdiv_mul a b : (0 < b)%Q → (a / b * b == a)%Q.
Proof. intros H. field. lra. Qed.

Lemma round_half_up_near a q n :
  (0 < q)%Z → (inject_Z n - (1 # 2) <= inject_Z a / inject_Z q)%Q → (inject_Z a / inject_Z q < inject_Z n + (1 # 2))%Q → round_half_up a q = n.
Proof.
  intros Hq Hl Hh. assert (0 < inject_Z q)%Q as HqQ by (change 0%Q with (inject_Z 0); by rewrite <- Zlt_Qlt).
  set (x := (inject_Z a / inject_Z q)%Q) in *. assert (x * inject_Z q == inject_Z a)%Q as Ex by by apply Qdiv_mul.
  assert (2 * n * q <= 2 * a + q)%Z as H1.
  { rewrite Zle_Qle, inject_Z_plus, !inject_Z_mult. change (inject_Z 2) with 2%Q.
    pose proof (Qmult_le_compat_r _ _ (inject_Z q) Hl (Qlt_le_weak _ _ HqQ)). lra. }
  assert (2 * a + q < 2 * (n + 1) * q)%Z as H2.
  { rewrite Zlt_Qlt, inject_Z_plus, !inject_Z_mult, inject_Z_plus. change (inject_Z 2) with 2%Q. change (inject_Z 1) with 1%Q.
    pose proof (Qmult_lt_compat_r _ _ (inject_Z q) HqQ Hh). lra. }
  unfold round_half_up. symmetry. apply (Z.div_unique_pos _ _ _ (2 * a + q - 2 * n * q)); lia.
Qed.

Lemma ratio_of_value m e : let '(p, q) := ratio_of m e in (0 < q)%Z ∧ (inject_Z p / inject_Z q == inject_Z m * p2 e)%Q.
Proof.
  unfold ratio_of. destruct (Z.leb_spec 0 e).
  - split; [done|]. rewrite Z.shiftl_mul_pow2, inject_Z_mult, <- p2_Z by done. field.
  - split; [apply Z.pow_pos_nonneg; lia|]. rewrite <- p2_Z by lia. pose proof (p2_pos (- e)).
    assert (p2 e * p2 (- e) == 1)%Q as E by (rewrite <- p2_plus, Z.add_opp_diag_r; reflexivity).
    apply (Qmult_inj_r _ _ (p2 (- e))); [lra|]. rewrite Qdiv_mul by done. rewrite <- Qmult_assoc, E. ring.
Qed.

Definition pow10 (f : nat) : Z := (10 ^ Z.of_nat f)%Z.

Lemma pow10_pos f : (0 < pow10 f)%Z.
Proof. apply Z.pow_pos_nonneg; lia. Qed.

Lemma pow10_Q f : (0 < inject_Z (pow10 f))%Q.
Proof. change 0%Q with (inject_Z 0). rewrite <- Zlt_Qlt. apply pow10_pos. Qed.

(** The limit from which [toFixed] answers as [String]. *)
Lemma below_limit m e : (Zpos m < 2 ^ 53)%Z → (2 ^ 52 <= Zpos m)%Z → (inject_Z (Zpos m) * p2 e < p2 69)%Q → num_ge (S754_finite false m e) (of_Z (10 ^ 21)) = false.
Proof.
  intros Hm Hm2 Hv. assert (e < 17)%Z as He.
  { apply p2_lt_inv. apply (Qmult_lt_l _ _ (inject_Z (2 ^ 52))); [done|]. eapply Qle_lt_trans; [apply p2_scale; exact Hm2|]. eapply Qlt_le_trans; [exact Hv|done]. }
  assert (of_Z (10 ^ 21) = S754_finite false 7629394531250000 17) as -> by by vm_compute.
  unfold num_ge, num_le, SFleb, SFcompare. assert (Z.compare 17 e = Gt) as -> by (by apply Z.compare_gt_iff). done.
Qed.

(** A number near a decimal is formatted as that decimal. *)
Lemma near_fixed k f x n :
  near k x (inject_Z n / inject_Z (pow10 f)) → (0 <= k <= 2 ^ 18)%Z → (0 <= n)%Z → (k * n < 2 ^ 50)%Z → (n < 2 ^ 60 * pow10 f)%Z →
  to_fixed f x = fixed_text false n f.
Proof.
  intros Hn Hk Hn0 Hkn Hnf. pose proof (pow10_Q f) as HF. destruct (near_cases _ _ _ Hn) as [[-> Hv]|Hv].
  { cbn [to_fixed]. f_equal. assert (inject_Z n == inject_Z 0)%Q as E by (rewrite <- (Qdiv_mul (inject_Z n) _ HF), Hv; ring). symmetry. by apply inject_Z_injective. }
  destruct (near_pos _ _ _ Hn Hv) as (m & e & -> & Hm & He). pose proof (factor_small k ltac:(lia)) as Hf.
  set (F := inject_Z (pow10 f)) in *. set (v := (inject_Z n / F)%Q) in *. set (X := (inject_Z (Zpos m) * p2 e)%Q) in *.
  assert (v * F == inject_Z n)%Q as Ev by by apply Qdiv_mul. assert (v < p2 60)%Q as Hv60.
  { apply Qlt_shift_div_r; [done|]. rewrite p2_Z by lia. unfold F. rewrite <- inject_Z_mult, <- Zlt_Qlt. lia. }
  cbn [to_fixed num_abs SFabs]. rewrite below_limit; [|lia|lia|].
  2:{ assert (inject_Z k * p2 (-52) * v <= (1 # 1000) * v)%Q by (apply Qmult_le_compat_r; lra). assert (2 * p2 60 <= p2 69)%Q by done. fold X. lra. }
  pose proof (ratio_of_value (Zpos m) e) as Hr. destruct (ratio_of (Zpos m) e) as [p q]. destruct Hr as [Hq Hr]. fold X in Hr.
  f_equal. assert (inject_Z (p * 10 ^ Z.of_nat f) / inject_Z q == X * F)%Q as Ea.
  { rewrite inject_Z_mult, <- Hr. unfold F, pow10. field. intros E. by apply (inject_Z_injective q 0) in E; lia. }
  assert (inject_Z k * p2 (-52) * inject_Z n <= 1 # 4)%Q as Herr.
  { assert (inject_Z k * p2 (-52) * inject_Z n == inject_Z (k * n) * p2 (-52))%Q as -> by (rewrite inject_Z_mult; ring).
    apply Qle_trans with (inject_Z (2 ^ 50) * p2 (-52))%Q; [apply p2_scale; lia|done]. }
  assert (- (1 # 4) <= X * F - inject_Z n <= 1 # 4)%Q as HX.
  { assert (X * F - inject_Z n == (X - v) * F)%Q as -> by (rewrite <- Ev; ring).
    assert (inject_Z k * p2 (-52) * v * F <= 1 # 4)%Q by (rewrite <- Qmult_assoc, Ev; exact Herr).
    split; [apply Qle_trans with (- (inject_Z k * p2 (-52) * v) * F)%Q; [lra|]|apply Qle_trans with (inject_Z k * p2 (-52) * v * F)%Q; [|done]]; apply Qmult_le_compat_r; lra. }
  apply round_half_up_near; [done|rewrite Ea; lra|rewrite Ea; lra].
Qed.

(** ** Values of decimals *)

Definition dec (n : Z) (f : nat) : Q := inject_Z n / inject_Z (pow10 f).

Lemma in_range_bounds v : (0 <= v)%Q → (v == 0)%Q ∨ (p2 (-400) <= v)%Q → (v <= p2 400)%Q → in_range v.
Proof.
  intros H0 [?|H1] H2; [by left|right]. split; [eapply Qle_trans; [|exact H1]|eapply Qle_trans; [exact H2|]]; by apply p2_le.
Qed.

Lemma pow10_le f : (f <= 60)%nat → (inject_Z (pow10 f) <= p2 300)%Q.
Proof.
  intros H. rewrite p2_Z by lia. rewrite <- Zle_Qle. pose proof (Z.pow_le_mono_r 10 (Z.of_nat f) 60 ltac:(lia) ltac:(lia)) as Hp.
  eapply Z.le_trans; [exact Hp|]. by vm_compute.
Qed.

Lemma dec_range n f : (0 <= n < 2 ^ 300)%Z → (f <= 60)%nat → in_range (dec n f).
Proof.
  intros Hn Hf. pose proof (pow10_Q f) as HF. pose proof (pow10_le f Hf) as HF2. unfold dec. destruct (Z.eq_dec n 0%Z) as [->|Hne].
  { left. unfold Qdiv. by rewrite Qmult_0_l. }
  assert (1 <= inject_Z n ∧ inject_Z n <= inject_Z (2 ^ 300))%Q as [Hn1 Hn2].
  { change 1%Q with (inject_Z 1). rewrite <- !Zle_Qle. lia. }
  assert (1 <= inject_Z (pow10 f))%Q as HF1. { change 1%Q with (inject_Z 1). rewrite <- Zle_Qle. pose proof (pow10_pos f). lia. }
  apply in_range_bounds.
  - apply Qle_shift_div_l; lra.
  - right. apply Qle_shift_div_l; [done|]. eapply Qle_trans; [apply Qmult_le_l; [apply p2_pos|exact HF2]|]. rewrite <- p2_plus.
    apply Qle_trans with 1%Q; [change 1%Q with (p2 0); apply p2_le; lia|done].
  - apply Qle_shift_div_r; [done|]. rewrite <- p2_Z in Hn2 by lia. eapply Qle_trans; [exact Hn2|]. eapply Qle_trans; [apply (p2_le 300 400); lia|].
    rewrite <- (Qmult_1_r (p2 400)) at 1. apply Qmult_le_l; [apply p2_pos|exact HF1].
Qed.

Lemma fixed_text_Z n : (0 <= n)%Z → fixed_text false n 0 = Zstr n.
Proof.
  intros Hn. unfold fixed_text. destruct (Zstr_fix_ex n Hn) as (w & -> & _). rewrite length_fix_digits. done.
Qed.

(** The number read from a decimal text is near its value. *)
Lemma near_text n f : (0 <= n < 2 ^ 300)%Z → (f <= 60)%nat → near 1 (to_number (fixed_text false n f)) (dec n f).
Proof.
  intros Hn Hf. pose proof (dec_range n f Hn Hf) as Hr. destruct f as [|f].
  - rewrite fixed_text_Z, to_number_Zstr by lia. assert (dec n 0 == inject_Z n)%Q as E by (unfold dec; change (pow10 0) with 1%Z; field). rewrite E in Hr |- *. by apply near_Z; [lia|].
  - rewrite to_number_fixed by lia. by apply near_ratio; [lia|apply pow10_pos|].
Qed.

(** What is read from a decimal text is formatted back as the text. *)
Lemma to_fixed_text n f : (0 <= n < 2 ^ 50)%Z → (f <= 60)%nat → to_fixed f (to_number (fixed_text false n f)) = fixed_text false n f.
Proof.
  intros Hn Hf. apply (near_fixed 1); [apply near_text; lia|lia..|]. pose proof (pow10_pos f). nia.
Qed.

(** Comparisons follow the values of full mantissas. *)
Lemma num_lt_value m1 e1 m2 e2 :
  (2 ^ 52 <= Zpos m1 < 2 ^ 53)%Z → (2 ^ 52 <= Zpos m2 < 2 ^ 53)%Z → num_lt (S754_finite false m1 e1) (S754_finite false m2 e2) = true →
  (inject_Z (Zpos m1) * p2 e1 < inject_Z (Zpos m2) * p2 e2)%Q.
Proof.
  intros H1 H2. unfold num_lt, SFltb, SFcompare. destruct (Z.compare_spec e1 e2) as [->|He|He]; [|intros _|done].
  - change (Pos.compare_cont Eq m1 m2) with (Pos.compare m1 m2). destruct (Pos.compare_spec m1 m2) as [|Hm|]; [done| |done]. intros _.
    apply Qmult_lt_compat_r; [apply p2_pos|]. by rewrite <- Zlt_Qlt.
  - apply Qlt_le_trans with (inject_Z (2 ^ 53) * p2 e1)%Q; [apply Qmult_lt_compat_r; [apply p2_pos|]; rewrite <- Zlt_Qlt; lia|].
    apply Qle_trans with (inject_Z (2 ^ 52) * p2 e2)%Q; [|apply p2_scale; lia]. rewrite <- !p2_Z, <- !p2_plus by lia. apply p2_le. lia.
Qed.

(** A number near a clearly larger value is not smaller. *)
Lemma near_not_lt x v y w :
  near 1 x v → near 1 y w → (0 < w)%Q → (w * (1 + (1 # 100000000)) <= v)%Q → num_lt x y = false.
Proof.
  intros Hx Hy Hw Hwv. destruct (near_pos _ _ _ Hx ltac:(lra)) as (m1 & e1 & -> & Hm1 & E1). destruct (near_pos _ _ _ Hy Hw) as (m2 & e2 & -> & Hm2 & E2).
  destruct (num_lt _ _) eqn:E; [|done]. apply num_lt_value in E; [|done..]. exfalso.
  change (inject_Z 1) with 1%Q in *. assert (p2 (-52) <= 1 # 1000000000)%Q as Hu by done. pose proof (p2_pos (-52)).
  assert (p2 (-52) * v <= (1 # 1000000000) * v)%Q by (apply Qmult_le_compat_r; lra).
  assert (p2 (-52) * w <= (1 # 1000000000) * w)%Q by (apply Qmult_le_compat_r; lra). lra.
Qed.

(** A decimal text has no spaces around it and is not empty. *)
Lemma fixed_text_trim n f : (0 <= n)%Z → trim (fixed_text false n f) = fixed_text false n f ∧ fixed_text false n f ≠ "".
Proof.
  intros Hn. destruct f as [|f].
  - rewrite fixed_text_Z by done. split; [apply trim_no_space; by apply Zstr_no_space|by apply Zstr_nonempty].
  - destruct (fixed_text_split n f Hn) as (w & -> & _). split; [|done]. apply trim_no_space, digits_no_space; [apply fix_digits_forall|].
    cbn [String.append]. unfold no_space. cbn [str_forall]. change (str_forall _ ?s) with (no_space s). rewrite <- (str_app_nil_r (fix_digits _ _)).
    by rewrite digits_no_space by (done || apply fix_digits_forall).
Qed.

(** ** Arithmetic of decimals *)

Lemma pow10_add f g : (pow10 (f + g) = pow10 f * pow10 g)%Z.
Proof. unfold pow10. rewrite Nat2Z.inj_add, Z.pow_add_r by lia. done. Qed.

Lemma dec_mul a f b g : (dec a f * dec b g == dec (a * b) (f + g))%Q.
Proof.
  unfold dec. rewrite pow10_add, !inject_Z_mult. pose proof (pow10_Q f). pose proof (pow10_Q g). field. split; lra.
Qed.

Lemma dec_scale a f j : (dec (a * pow10 j) (f + j) == dec a f)%Q.
Proof. unfold dec. rewrite pow10_add, !inject_Z_mult. pose proof (pow10_Q f). pose proof (pow10_Q j). field. split; lra. Qed.

Lemma dec_hundredth a f : (dec a f / 100 == dec a (f + 2))%Q.
Proof.
  unfold dec. rewrite pow10_add, inject_Z_mult. change (inject_Z (pow10 2)) with 100%Q. pose proof (pow10_Q f). field. lra.
Qed.

Lemma dec_add a b f : (dec a f + dec b f == dec (a + b) f)%Q.
Proof. unfold dec. rewrite inject_Z_plus. pose proof (pow10_Q f). field. lra. Qed.

Lemma near_hundred : near 1 (of_Z 100) 100.
Proof. change 100%Q with (inject_Z 100). apply near_Z; [lia|]. right. split; [apply Qle_trans with (p2 0)|apply Qle_trans with (p2 7)]; (by apply p2_le) || done. Qed.

(** A number near a decimal of fewer places is formatted with zeros after them. *)
Lemma near_fixed_dec k x n f j :
  near k x (dec n f) → (0 <= k <= 2 ^ 18)%Z → (0 <= n)%Z → (k * (n * pow10 j) < 2 ^ 50)%Z → (n < 2 ^ 60)%Z →
  to_fixed (f + j) x = fixed_text false (n * pow10 j) (f + j).
Proof.
  intros Hx Hk Hn Hkn Hn2. pose proof (pow10_pos j). pose proof (pow10_pos f). apply (near_fixed k); [|done|lia|done|].
  - change (inject_Z ?a / inject_Z (pow10 ?b))%Q with (dec a b). by rewrite dec_scale.
  - rewrite pow10_add. assert (n * pow10 j < 2 ^ 60 * pow10 j)%Z by nia. nia.
Qed.

Lemma in_range_integer n : (0 <= n < 2 ^ 51)%Z → in_range (inject_Z n).
Proof.
  intros Hn. destruct (decide (n = 0%Z)) as [->|]; [by left|]. right. assert (p2 (-800) <= 1 ∧ inject_Z (2 ^ 51) <= p2 800)%Q as [H1 H2] by (split; by vm_compute).
  assert (1 <= inject_Z n)%Q by (change 1%Q with (inject_Z 1); rewrite <- Zle_Qle; lia).
  assert (inject_Z n <= inject_Z (2 ^ 51))%Q by (rewrite <- Zle_Qle; lia). split; lra.
Qed.

(** Integers below 2^51 are told apart. *)
Lemma of_Z_inj n m : (0 <= n < 2 ^ 51)%Z → (0 <= m < 2 ^ 51)%Z → of_Z n = of_Z m → n = m.
Proof.
  intros Hn Hm E. pose proof (near_Z n ltac:(lia) (in_range_integer n Hn)) as An. pose proof (near_Z m ltac:(lia) (in_range_integer m Hm)) as Am.
  rewrite <- E in Am. unfold near in An, Am. destruct (of_Z n) as [[]|[]| |[] q e]; try done.
  - apply (inject_Z_injective n m). by rewrite An, Am.
  - destruct An as (_ & _ & An), Am as (_ & _ & Am). assert (p2 (-52) * inject_Z (2 ^ 51) == 1 # 2)%Q as Ep by by vm_compute.
    assert (∀ k, (0 <= k < 2 ^ 51)%Z → inject_Z 1 * p2 (-52) * inject_Z k < 1 # 2)%Q as Hk.
    { intros k Hk. assert (inject_Z k < inject_Z (2 ^ 51))%Q by (rewrite <- Zlt_Qlt; lia). assert (0 < p2 (-52))%Q by apply p2_pos.
      assert (p2 (-52) * inject_Z k < p2 (-52) * inject_Z (2 ^ 51))%Q by (by apply Qmult_lt_l). change (inject_Z 1) with 1%Q. lra. }
    pose proof (Hk n Hn). pose proof (Hk m Hm). set (w := (inject_Z (Zpos q) * p2 e)%Q) in *.
    assert (inject_Z n - inject_Z m < 1 ∧ -(1) < inject_Z n - inject_Z m)%Q as [H1 H2] by (split; lra).
    assert (inject_Z n < inject_Z (m + 1))%Q by (rewrite inject_Z_plus; change (inject_Z 1) with 1%Q; lra).
    assert (inject_Z m < inject_Z (n + 1))%Q by (rewrite inject_Z_plus; change (inject_Z 1) with 1%Q; lra).
    rewrite <- !Zlt_Qlt in *. lia.
Qed.
