(* ===== verification/JsDate.v ===== *)
(** The calendar of the ECMAScript [Date] type.

    Days are numbered from 1970-01-01 ([Day(t)]).  [day_from_year],
    [year_from_day] and [make_day] are the specification's DayFromYear,
    YearFromTime and MakeDay.  A civil date is year, month (0-11) and day.

    A [Date] that a source builds from civil fields in the viewer's own zone
    ([new Date(y, m, d)], [new Date(iso + 'T00:00:00')]) is represented by its
    civil day, which is what the local getters read back; [None] is an Invalid
    Date.  An instant is its epoch milliseconds.  Texts outside the ISO formats
    below are host-defined input to [Date.parse]; they are Invalid Date here. *)

From S2P Require Import Prelude JsString.

Local Open Scope Z_scope.

(** ** Years and months *)

Definition is_leap (y : Z) : bool :=
  (y mod 4 =? 0) && (negb (y mod 100 =? 0) || (y mod 400 =? 0)).

Definition leap_day (y : Z) : Z := if is_leap y then 1 else 0.

Definition day_from_year (y : Z) : Z :=
  365 * (y - 1970) + (y - 1969) / 4 - (y - 1901) / 100 + (y - 1601) / 400.

(** The largest [y] with [day_from_year y <= d]: an estimate off by at most one. *)
Definition year_from_day (d : Z) : Z :=
  let y := 1970 + (d * 400) / 146097 in
  if d <? day_from_year y then y - 1
  else if day_from_year (y + 1) <=? d then y + 1 else y.

Definition month_start (lp m : Z) : Z :=
  nth (Z.to_nat m) [0; 31; 59; 90; 120; 151; 181; 212; 243; 273; 304; 334; 365] 0
  + (if 2 <=? m then lp else 0).

Definition month_from_doy (lp doy : Z) : Z :=
  if doy <? 31 then 0 else if doy <? 59 + lp then 1 else if doy <? 90 + lp then 2
  else if doy <? 120 + lp then 3 else if doy <? 151 + lp then 4 else if doy <? 181 + lp then 5
  else if doy <? 212 + lp then 6 else if doy <? 243 + lp then 7 else if doy <? 273 + lp then 8
  else if doy <? 304 + lp then 9 else if doy <? 334 + lp then 10 else 11.

Definition days_in_month (y m : Z) : Z :=
  month_start (leap_day y) (m + 1) - month_start (leap_day y) m.

Record civil := Civil { cyear : Z; cmonth : Z; cday : Z }.

#[export] Instance civil_eq_dec : EqDecision civil.
Proof. solve_decision. Defined.

(** [MakeDay]: the month and the day may be any integer. *)
Definition make_day (y m d : Z) : Z :=
  let ym := y + m / 12 in
  day_from_year ym + month_start (leap_day ym) (m mod 12) + d - 1.

Definition civil_of_day (n : Z) : civil :=
  let y := year_from_day n in
  let doy := n - day_from_year y in
  let m := month_from_doy (leap_day y) doy in
  Civil y m (doy - month_start (leap_day y) m + 1).

Definition civil_valid (c : civil) : Prop :=
  0 <= cmonth c <= 11 ∧ 1 <= cday c <= days_in_month (cyear c) (cmonth c).

Definition day_of (c : civil) : Z := make_day (cyear c) (cmonth c) (cday c).

(** *** Laws of the calendar *)

Lemma leap_day_range y : 0 <= leap_day y <= 1.
Proof. unfold leap_day. destruct (is_leap y); lia. Qed.

Lemma day_from_year_succ y : day_from_year (y + 1) = day_from_year y + 365 + leap_day y.
Proof.
  unfold day_from_year, leap_day, is_leap.
  destruct (y mod 4 =? 0) eqn:E4, (y mod 100 =? 0) eqn:E1, (y mod 400 =? 0) eqn:E0;
    simpl; bool_facts; Z.div_mod_to_equations; lia.
Qed.

Lemma day_from_year_bounds y :
  146097 * (y - 1970) - 800 <= 400 * day_from_year y <= 146097 * (y - 1970) + 800.
Proof. unfold day_from_year. Z.div_mod_to_equations. lia. Qed.

Lemma year_from_day_spec d :
  day_from_year (year_from_day d) <= d < day_from_year (year_from_day d + 1).
Proof.
  unfold year_from_day. set (y := 1970 + d * 400 / 146097).
  assert (146097 * (y - 1970) <= 400 * d < 146097 * (y - 1970) + 146097)
    by (unfold y; Z.div_mod_to_equations; lia).
  pose proof (day_from_year_bounds (y - 1)). pose proof (day_from_year_bounds (y + 2)).
  destruct (d <? day_from_year y) eqn:E1; bool_facts.
  - replace (y - 1 + 1) with y by lia. lia.
  - destruct (day_from_year (y + 1) <=? d) eqn:E2; bool_facts; [|lia].
    replace (y + 1 + 1) with (y + 2) by lia. lia.
Qed.

Lemma day_from_year_mono y z : y <= z → day_from_year y <= day_from_year z.
Proof. unfold day_from_year. intros. Z.div_mod_to_equations. lia. Qed.

Lemma year_from_day_unique d y :
  day_from_year y <= d < day_from_year (y + 1) → year_from_day d = y.
Proof.
  intros H. pose proof (year_from_day_spec d) as S.
  destruct (Z.lt_trichotomy (year_from_day d) y) as [L|[->|L]]; [|done|].
  - pose proof (day_from_year_mono (year_from_day d + 1) y). lia.
  - pose proof (day_from_year_mono (y + 1) (year_from_day d)). lia.
Qed.

(** Reason about a month number by its twelve values. *)
Ltac month_cases m :=
  let H := fresh in
  assert (m = 0 ∨ m = 1 ∨ m = 2 ∨ m = 3 ∨ m = 4 ∨ m = 5 ∨ m = 6 ∨ m = 7 ∨ m = 8 ∨ m = 9 ∨
          m = 10 ∨ m = 11) as H by lia;
  repeat destruct H as [->|H]; [..|rewrite H in *].

Lemma month_start_total lp : 0 <= lp <= 1 → month_start lp 12 = 365 + lp.
Proof. reflexivity. Qed.

Lemma month_from_doy_spec lp doy :
  0 <= lp <= 1 → 0 <= doy < 365 + lp →
  let m := month_from_doy lp doy in
  0 <= m <= 11 ∧ month_start lp m <= doy < month_start lp (m + 1).
Proof.
  intros Hl Hd. unfold month_from_doy.
  repeat match goal with |- context [if ?b then _ else _] => destruct b eqn:? end;
    bool_facts; unfold month_start; simpl; lia.
Qed.

Lemma month_from_doy_unique lp doy m :
  0 <= lp <= 1 → 0 <= m <= 11 → month_start lp m <= doy < month_start lp (m + 1) →
  month_from_doy lp doy = m.
Proof.
  intros Hl Hm. unfold month_from_doy. month_cases m; unfold month_start; simpl; intros;
    repeat match goal with |- context [if ?b then _ else _] => destruct b eqn:? end;
    bool_facts; lia.
Qed.

Lemma month_start_bounds lp m :
  0 <= lp <= 1 → 0 <= m <= 11 →
  0 <= month_start lp m ∧ month_start lp m < month_start lp (m + 1) <= 365 + lp.
Proof. intros Hl Hm. month_cases m; unfold month_start; simpl; lia. Qed.

Lemma days_in_month_range y m : 0 <= m <= 11 → 28 <= days_in_month y m <= 31.
Proof.
  intros Hm. unfold days_in_month. pose proof (leap_day_range y).
  month_cases m; unfold month_start; simpl; lia.
Qed.

Lemma day_of_valid c :
  civil_valid c →
  day_of c = day_from_year (cyear c) + month_start (leap_day (cyear c)) (cmonth c) + cday c - 1.
Proof.
  intros [Hm _]. unfold day_of, make_day. rewrite Z.div_small, Z.mod_small by lia.
  by rewrite Z.add_0_r.
Qed.

(** Reading the fields of a day and building the day from them are inverse. *)
Lemma civil_of_day_valid n : civil_valid (civil_of_day n).
Proof.
  unfold civil_of_day, civil_valid. simpl.
  pose proof (year_from_day_spec n) as S. rewrite day_from_year_succ in S.
  set (y := year_from_day n) in *. pose proof (leap_day_range y) as Hl.
  destruct (month_from_doy_spec (leap_day y) (n - day_from_year y)) as [Hm Hs]; [done|lia|].
  unfold days_in_month. lia.
Qed.

Lemma day_of_civil_of_day n : day_of (civil_of_day n) = n.
Proof. rewrite day_of_valid by apply civil_of_day_valid. unfold civil_of_day. simpl. lia. Qed.

Lemma make_day_fields n :
  make_day (cyear (civil_of_day n)) (cmonth (civil_of_day n)) (cday (civil_of_day n)) = n.
Proof. exact (day_of_civil_of_day n). Qed.

Lemma make_day_in_year y m d :
  0 <= m <= 11 → make_day y m d = day_from_year y + month_start (leap_day y) m + d - 1.
Proof. intros Hm. unfold make_day. rewrite Z.div_small, Z.mod_small by lia. by rewrite Z.add_0_r. Qed.

Lemma civil_of_day_of c : civil_valid c → civil_of_day (day_of c) = c.
Proof.
  intros Hc. pose proof (day_of_valid c Hc) as E. destruct Hc as [Hm Hd].
  unfold days_in_month in Hd. destruct c as [y m d]; simpl in *.
  pose proof (leap_day_range y) as Hl.
  pose proof (month_start_bounds _ m Hl Hm). unfold civil_of_day. rewrite E.
  rewrite (year_from_day_unique _ y) by (rewrite day_from_year_succ; lia).
  replace (day_from_year y + month_start (leap_day y) m + d - 1 - day_from_year y)
    with (month_start (leap_day y) m + d - 1) by lia.
  rewrite (month_from_doy_unique _ _ m) by lia. f_equal. lia.
Qed.

Lemma day_of_inj c1 c2 : civil_valid c1 → civil_valid c2 → day_of c1 = day_of c2 → c1 = c2.
Proof. intros H1 H2 E. rewrite <- (civil_of_day_of c1), <- (civil_of_day_of c2) by done. by rewrite E. Qed.

Lemma make_day_norm y m d : make_day y m d = make_day (y + m / 12) (m mod 12) d.
Proof.
  unfold make_day. rewrite (Z.div_small (m mod 12)), Z.mod_mod by (try apply Z.mod_pos_bound; lia).
  by rewrite Z.add_0_r.
Qed.

Lemma first_of_month_valid y m : 0 <= m <= 11 → civil_valid (Civil y m 1).
Proof. intros Hm. pose proof (days_in_month_range y m Hm). split; simpl; lia. Qed.

(** The first of a month read back, for any integer month number. *)
Lemma civil_first y m : civil_of_day (make_day y m 1) = Civil (y + m / 12) (m mod 12) 1.
Proof.
  rewrite make_day_norm.
  apply (civil_of_day_of (Civil (y + m / 12) (m mod 12) 1)), first_of_month_valid.
  pose proof (Z.mod_pos_bound m 12). lia.
Qed.

(** Day 0 of a month is the last day of the month before it. *)
Lemma civil_last y m :
  civil_of_day (make_day y m 0) =
  let y' := y + (m - 1) / 12 in let m' := (m - 1) mod 12 in Civil y' m' (days_in_month y' m').
Proof.
  cbv zeta. set (y' := y + (m - 1) / 12). set (m' := (m - 1) mod 12).
  assert (Hm : 0 <= m' <= 11) by (pose proof (Z.mod_pos_bound (m - 1) 12); unfold m'; lia).
  pose proof (days_in_month_range y' m' Hm).
  rewrite <- (civil_of_day_of (Civil y' m' _)) by (split; simpl; lia). f_equal.
  rewrite day_of_valid by (split; simpl; lia). simpl. unfold days_in_month, make_day.
  destruct (Z.eq_dec m' 11) as [E|E].
  - assert (m / 12 = (m - 1) / 12 + 1 ∧ m mod 12 = 0) as [-> ->]
      by (unfold m' in E; Z.div_mod_to_equations; lia).
    rewrite E, Z.add_assoc. fold y'. change (11 + 1) with 12.
    rewrite month_start_total, day_from_year_succ by apply leap_day_range.
    unfold month_start at 1. simpl. lia.
  - assert (m / 12 = (m - 1) / 12 ∧ m mod 12 = m' + 1) as [-> ->]
      by (unfold m' in *; Z.div_mod_to_equations; lia).
    fold y'. lia.
Qed.

(** Day numbers are ordered as their civil dates are, field by field. *)
Definition civil_ltb (a b : civil) : bool :=
  (cyear a <? cyear b)
  || ((cyear a =? cyear b) && ((cmonth a <? cmonth b)
      || ((cmonth a =? cmonth b) && (cday a <? cday b)))).

Lemma month_start_mono lp m k : 0 <= lp <= 1 → 0 <= m → m <= k → k <= 12 → month_start lp m <= month_start lp k.
Proof.
  intros Hl Hm Hk H12. unfold month_start.
  assert (k = 12 ∨ 0 <= k <= 11) as [->|Hk'] by lia; assert (m = 12 ∨ 0 <= m <= 11) as [->|Hm'] by lia;
    try month_cases k; try month_cases m; simpl; lia.
Qed.

Lemma day_of_lt a b : civil_valid a → civil_valid b → civil_ltb a b = true → day_of a < day_of b.
Proof.
  intros Ha Hb H. rewrite !day_of_valid by done.
  destruct a as [y m d], b as [y' m' d']. destruct Ha as [Hm Hd], Hb as [Hm' Hd']. simpl in *.
  unfold days_in_month in *. unfold civil_ltb in H; simpl in H.
  pose proof (leap_day_range y). pose proof (leap_day_range y').
  apply orb_prop in H as [H|[E H]%andb_prop]; bool_facts.
  - pose proof (month_start_bounds (leap_day y) m). pose proof (month_start_bounds (leap_day y') m').
    pose proof (day_from_year_mono (y + 1) y'). rewrite day_from_year_succ in *. lia.
  - subst. apply orb_prop in H as [H|[E H]%andb_prop]; bool_facts.
    + pose proof (month_start_mono (leap_day y') (m + 1) m'). lia.
    + subst. lia.
Qed.

#[global] Strategy 100 [civil_of_day year_from_day month_from_doy make_day day_of day_from_year month_start leap_day].
#[global] Arguments civil_of_day : simpl never.
#[global] Arguments make_day : simpl never.
#[global] Arguments day_of : simpl never.
#[global] Arguments Zstr : simpl never.
#[global] Arguments pad2 : simpl never.

(** ** ISO dates *)

(** [/^\d{4}-\d{2}-\d{2}$/] with its three numbers. *)
Definition iso_fields (s : string) : option (Z * Z * Z) :=
  match s with
  | String a (String b (String c (String d (String h1 (String e (String f (String h2
      (String g (String i EmptyString))))))))) =>
      if Ascii.eqb h1 "-" && Ascii.eqb h2 "-" then
        match parse_digits (String a (String b (String c (String d EmptyString)))),
              parse_digits (String e (String f EmptyString)),
              parse_digits (String g (String i EmptyString)) with
        | Some y, Some m, Some dd => Some (y, m, dd)
        | _, _, _ => None
        end
      else None
  | _ => None
  end.

(** The civil date of a [YYYY-MM-DD] text, [None] when it names no calendar day. *)
Definition parse_iso (s : string) : option civil :=
  match iso_fields s with
  | Some (y, m, d) =>
      if (1 <=? m) && (m <=? 12) && (1 <=? d) && (d <=? days_in_month y (m - 1))
      then Some (Civil y (m - 1) d) else None
  | None => None
  end.

(** [`${year}-${month padded}-${day padded}`]: the year is not padded. *)
Definition iso_of_civil (c : civil) : string :=
  (Zstr (cyear c) ++ "-" ++ pad2 (cmonth c + 1) ++ "-" ++ pad2 (cday c))%string.

Definition year4 (c : civil) : Prop := 1000 <= cyear c <= 9999.

Definition iso_day (c : civil) : Prop := civil_valid c ∧ year4 c.

Lemma iso_of_civil_fix c :
  iso_day c →
  iso_of_civil c =
  (fix_digits 4 (cyear c) ++ "-" ++ fix_digits 2 (cmonth c + 1) ++ "-" ++ fix_digits 2 (cday c))%string.
Proof.
  intros [[Hm Hd] Hy]. unfold year4 in Hy. pose proof (days_in_month_range (cyear c) _ Hm).
  unfold iso_of_civil. rewrite Zstr_year, !pad2_fix by lia. done.
Qed.

Lemma iso_fields_fix y m d :
  0 <= y <= 9999 → 0 <= m <= 99 → 0 <= d <= 99 →
  iso_fields (fix_digits 4 y ++ "-" ++ fix_digits 2 m ++ "-" ++ fix_digits 2 d) = Some (y, m, d).
Proof.
  intros Hy Hm Hd.
  pose proof (parse_digits_fix 4 y ltac:(simpl; lia) ltac:(lia)) as Py.
  pose proof (parse_digits_fix 2 m ltac:(simpl; lia) ltac:(lia)) as Pm.
  pose proof (parse_digits_fix 2 d ltac:(simpl; lia) ltac:(lia)) as Pd.
  cbn [fix_digits String.append iso_fields] in *. rewrite Py, Pm, Pd. done.
Qed.

Lemma parse_iso_of_civil c : iso_day c → parse_iso (iso_of_civil c) = Some c.
Proof.
  intros H. rewrite iso_of_civil_fix by done. destruct H as [[Hm Hd] Hy]. unfold year4 in Hy.
  pose proof (days_in_month_range (cyear c) _ Hm).
  unfold parse_iso. rewrite iso_fields_fix by lia.
  replace (cmonth c + 1 - 1) with (cmonth c) by lia.
  repeat match goal with |- context [(?a <=? ?b)] => replace (a <=? b) with true by lia end.
  simpl. by destruct c.
Qed.

Lemma iso_fields_range s y m d : iso_fields s = Some (y, m, d) → 0 <= y <= 9999 ∧ 0 <= m <= 99 ∧ 0 <= d <= 99.
Proof.
  unfold iso_fields. do 10 (destruct s as [|? s]; [done|]). destruct s; [|done].
  cases; intros; simplify_eq. unfold parse_digits, digits_val_from in *.
  repeat case_match; simplify_eq;
  repeat match goal with H : digit_val _ = Some _ |- _ => apply digit_val_range in H as [? _] end; lia.
Qed.

Lemma parse_iso_valid s c : parse_iso s = Some c → civil_valid c ∧ 0 <= cyear c <= 9999.
Proof.
  unfold parse_iso. destruct (iso_fields s) as [[[y m] d]|] eqn:E; [|done].
  apply iso_fields_range in E. destruct (_ && _ && _ && _) eqn:B; intros; simplify_eq.
  bool_facts. split; [split; simpl; lia|simpl; lia].
Qed.

(** Lexicographic order of ISO texts is the order of the days. *)
Lemma iso_compare a b :
  iso_day a → iso_day b →
  String.compare (iso_of_civil a) (iso_of_civil b) = Z.compare (day_of a) (day_of b).
Proof.
  intros Ha Hb. rewrite !iso_of_civil_fix by done.
  destruct Ha as [Va Ya], Hb as [Vb Yb]. unfold year4 in *.
  pose proof (days_in_month_range (cyear a) (cmonth a) ltac:(apply Va)).
  pose proof (days_in_month_range (cyear b) (cmonth b) ltac:(apply Vb)).
  destruct (Va) as [Ma Da], (Vb) as [Mb Db].
  rewrite str_compare_app, str_compare_app_same by (by rewrite !length_fix_digits).
  rewrite str_compare_app, str_compare_app_same by (by rewrite !length_fix_digits).
  rewrite (compare_fix_digits 4) by (simpl; lia).
  rewrite (compare_fix_digits 2 (_ + 1)) by (simpl; lia).
  rewrite (compare_fix_digits 2) by (simpl; lia).
  assert (L : ∀ x y, civil_valid x → civil_valid y → civil_ltb x y = true →
                Z.compare (day_of x) (day_of y) = Lt)
    by (intros; apply Z.compare_lt_iff; by apply day_of_lt).
  assert (G : ∀ x y, civil_valid x → civil_valid y → civil_ltb y x = true →
                Z.compare (day_of x) (day_of y) = Gt)
    by (intros; apply Z.compare_gt_iff; by apply day_of_lt).
  destruct a as [y m d], b as [y' m' d']; unfold civil_ltb in *; cbn [cyear cmonth cday] in *.
  destruct (Z.compare_spec y y') as [E1|E1|E1]; symmetry;
    [|apply L; auto; simpl; lia|apply G; auto; simpl; lia].
  destruct (Z.compare_spec (m + 1) (m' + 1)) as [E2|E2|E2];
    [|apply L; auto; simpl; lia|apply G; auto; simpl; lia].
  destruct (Z.compare_spec d d') as [E3|E3|E3];
    [|apply L; auto; simpl; lia|apply G; auto; simpl; lia].
  apply Z.compare_eq_iff. f_equal. f_equal; lia.
Qed.

Lemma iso_lt a b :
  iso_day a → iso_day b → str_lt (iso_of_civil a) (iso_of_civil b) = (day_of a <? day_of b).
Proof.
  intros. unfold str_lt, String.ltb, Z.ltb. by rewrite iso_compare.
Qed.

Lemma iso_le a b :
  iso_day a → iso_day b → str_le (iso_of_civil a) (iso_of_civil b) = (day_of a <=? day_of b).
Proof. intros. unfold str_le. rewrite iso_lt by done. by rewrite Z.leb_antisym. Qed.

Lemma iso_of_civil_inj a b : iso_day a → iso_day b → iso_of_civil a = iso_of_civil b → a = b.
Proof.
  intros Ha Hb E. apply (f_equal parse_iso) in E. rewrite !parse_iso_of_civil in E by done. congruence.
Qed.

(** ** Local dates *)

(** Years 0-99 passed to the [Date] constructor and to [Date.UTC] mean 1900-1999. *)
Definition full_year (y : Z) : Z := if (0 <=? y) && (y <=? 99) then 1900 + y else y.

(** TimeClip, on days. *)
Definition clip_day (n : Z) : option Z := if Z.abs n <=? 100000000 then Some n else None.

(** [new Date(y, m, d)]. *)
Definition new_date (y m d : Z) : option Z := clip_day (make_day (full_year y) m d).

(** [new Date(`${s}T00:00:00`)]. *)
Definition date_of_iso (s : string) : option Z := day_of <$> parse_iso s.

(** [getFullYear], [getMonth], [getDate]; [None] is [NaN]. *)
Definition get_year (d : option Z) : option Z := cyear ∘ civil_of_day <$> d.
Definition get_month (d : option Z) : option Z := cmonth ∘ civil_of_day <$> d.
Definition get_date (d : option Z) : option Z := cday ∘ civil_of_day <$> d.

(** [new Date(d.getFullYear(), d.getMonth() + k, day)]. *)
Definition date_at (d : option Z) (k day : Z) : option Z :=
  y ← get_year d; m ← get_month d; new_date y (m + k) day.

#[global] Strategy 100 [full_year clip_day new_date date_at parse_iso date_of_iso get_year get_month get_date
  iso_of_civil Zstr pad2].

Lemma get_year_Some n : get_year (Some n) = Some (cyear (civil_of_day n)).
Proof. reflexivity. Qed.
Lemma get_month_Some n : get_month (Some n) = Some (cmonth (civil_of_day n)).
Proof. reflexivity. Qed.
Lemma get_date_Some n : get_date (Some n) = Some (cday (civil_of_day n)).
Proof. reflexivity. Qed.

(** Read the fields of known dates without unfolding the calendar. *)
Ltac date_fields :=
  rewrite ?get_year_Some, ?get_month_Some, ?get_date_Some;
  cbn [mbind option_bind fmap option_fmap option_map cyear cmonth cday].

(** A day in the years 1000-9999, where an ISO text has four year digits. *)
Definition iso_range (n : Z) : Prop := year4 (civil_of_day n).

Lemma iso_day_of_range n : iso_range n → iso_day (civil_of_day n).
Proof. split; [apply civil_of_day_valid|done]. Qed.

Lemma clip_day_year4 c : civil_valid c → 0 <= cyear c <= 10000 → clip_day (day_of c) = Some (day_of c).
Proof.
  intros Hc Hy. unfold clip_day. rewrite day_of_valid by done. destruct Hc as [Hm Hd].
  pose proof (day_from_year_bounds (cyear c)). pose proof (leap_day_range (cyear c)) as Hl.
  pose proof (month_start_bounds _ _ Hl Hm). unfold days_in_month in Hd.
  destruct (Z.abs _ <=? _) eqn:E; [done|]. bool_facts. lia.
Qed.

Lemma full_year_id y : 100 <= y → full_year y = y.
Proof. intros. unfold full_year. destruct (0 <=? y) eqn:?, (y <=? 99) eqn:?; simpl; bool_facts; lia. Qed.

Lemma new_date_first y m :
  100 <= y → 0 <= y + m / 12 <= 10000 →
  new_date y m 1 = Some (day_of (Civil (y + m / 12) (m mod 12) 1)).
Proof.
  intros Hy Hr. unfold new_date. rewrite full_year_id by done.
  rewrite make_day_norm. change (make_day (y + m / 12) (m mod 12) 1) with
    (day_of (Civil (y + m / 12) (m mod 12) 1)).
  apply clip_day_year4; [|done]. apply first_of_month_valid.
  pose proof (Z.mod_pos_bound m 12). lia.
Qed.

Lemma date_of_iso_civil c : iso_day c → date_of_iso (iso_of_civil c) = Some (day_of c).
Proof. intros. unfold date_of_iso. by rewrite parse_iso_of_civil. Qed.

(** ** Instants *)

Definition DAY_MS : Z := 86400000.

(** [Date.parse(`${s}T00:00:00Z`)]. *)
Definition parse_utc_midnight (s : string) : option Z := (λ c, day_of c * DAY_MS) <$> parse_iso s.

(** [new Date(ms).toISOString().slice(0, 10)]: years outside 0-9999 use the signed six-digit form. *)
Definition to_iso_slice (ms : Z) : string :=
  let c := civil_of_day (ms / DAY_MS) in
  let tail := ("-" ++ fix_digits 2 (cmonth c + 1) ++ "-" ++ fix_digits 2 (cday c))%string in
  if (0 <=? cyear c) && (cyear c <=? 9999) then (fix_digits 4 (cyear c) ++ tail)%string
  else slice ((if (cyear c <? 0)%Z then "-" else "+") ++ fix_digits 6 (Z.abs (cyear c)) ++ tail)%string 0 10.

Lemma to_iso_slice_civil c k :
  iso_day c → 0 <= k < DAY_MS → to_iso_slice (day_of c * DAY_MS + k) = iso_of_civil c.
Proof.
  intros Hc Hk. unfold to_iso_slice. unfold DAY_MS in *.
  rewrite Z.div_add_l, Z.div_small, Z.add_0_r by lia.
  rewrite (iso_of_civil_fix c) by done. destruct Hc as [Hv Hy]. unfold year4 in Hy.
  rewrite civil_of_day_of by done.
  replace (0 <=? cyear c) with true by lia. replace (cyear c <=? 9999) with true by lia. done.
Qed.

Lemma parse_utc_midnight_civil c :
  iso_day c → parse_utc_midnight (iso_of_civil c) = Some (day_of c * DAY_MS).
Proof. intros. unfold parse_utc_midnight. by rewrite parse_iso_of_civil. Qed.

(** [hh:mm[:ss[.fff]]] then [Z] or [±hh:mm], as milliseconds to add to UTC midnight. *)
Definition two_digits (a b : ascii) : option Z := parse_digits (String a (String b EmptyString)).

Definition parse_zone (s : string) : option Z :=
  match s with
  | String "Z" EmptyString => Some 0
  | String sg (String a (String b (String ":" (String c (String d EmptyString))))) =>
      match two_digits a b, two_digits c d with
      | Some h, Some m =>
          if (h <? 24) && (m <? 60) then
            if Ascii.eqb sg "+" then Some ((h * 60 + m) * 60000)
            else if Ascii.eqb sg "-" then Some (- ((h * 60 + m) * 60000)) else None
          else None
      | _, _ => None
      end
  | _ => None
  end.

(** The digits of a fraction up to its first non-digit, as milliseconds (extra digits are cut). *)
Fixpoint parse_fraction (weight : Z) (s : string) : Z * string :=
  match s with
  | String c s' =>
      match digit_val c with
      | Some d => let '(v, rest) := parse_fraction (weight / 10) s' in (d * weight + v, rest)
      | None => (0, s)
      end
  | EmptyString => (0, EmptyString)
  end.

Definition parse_clock (s : string) : option Z :=
  match s with
  | String a (String b (String ":" (String c (String d rest)))) =>
      match two_digits a b, two_digits c d with
      | Some h, Some m =>
          if (h <? 24) && (m <? 60) then
            let base := (h * 60 + m) * 60000 in
            match rest with
            | String ":" (String e (String f rest')) =>
                match two_digits e f with
                | Some sec =>
                    if sec <? 60 then
                      let '(ms, tail) :=
                        match rest' with
                        | String "." r => parse_fraction 100 r
                        | _ => (0, rest')
                        end in
                      (λ z, base + sec * 1000 + ms - z) <$> parse_zone tail
                    else None
                | None => None
                end
            | _ => (λ z, base - z) <$> parse_zone rest
            end
          else None
      | _, _ => None
      end
  | _ => None
  end.

(** [Date.parse] on the texts the API sends: a date (UTC midnight), or a date and time with its zone. *)
Definition date_parse (s : string) : option Z :=
  match parse_iso (slice s 0 10) with
  | None => None
  | Some c =>
      let rest := slice_from s 10 in
      match rest with
      | EmptyString => Some (day_of c * DAY_MS)
      | String "T" t => (λ k, day_of c * DAY_MS + k) <$> parse_clock t
      | _ => None
      end
  end.

Example date_parse_ex :
  date_parse "2026-03-29T02:15:00+01:00" = Some 1774746900000
  ∧ date_parse "1970-01-01T00:00:01.5Z" = Some 1500 ∧ date_parse "2026-02-30" = None.
Proof. by vm_compute. Qed.

Lemma date_parse_date_only c : iso_day c → date_parse (iso_of_civil c) = Some (day_of c * DAY_MS).
Proof.
  intros H. unfold date_parse, slice, slice_from.
  assert (L : String.length (iso_of_civil c) = 10%nat)
    by (rewrite iso_of_civil_fix, !str_length_app, !length_fix_digits by done; done).
  assert (substring 0 (10 - 0) (iso_of_civil c) = iso_of_civil c) as ->
    by (change (10 - 0)%nat with 10%nat; rewrite <- L; apply substring_full).
  rewrite parse_iso_of_civil, L by done.
  assert (substring 10 (10 - 10) (iso_of_civil c) = EmptyString) as ->; [|done].
  generalize (iso_of_civil c) as s; intros s. change (10 - 10)%nat with 0%nat. generalize 10%nat as n.
  induction s as [|a s IH]; intros [|n]; simpl; done.
Qed.

Lemma length_iso c : iso_day c → String.length (iso_of_civil c) = 10%nat.
Proof. intros H. by rewrite iso_of_civil_fix, !str_length_app, !length_fix_digits. Qed.

Lemma iso_civil_nonempty c : iso_day c → String.eqb (iso_of_civil c) "" = false.
Proof. intros H%length_iso. by destruct (iso_of_civil c). Qed.

Lemma date_parse_time c t k :
  iso_day c → parse_clock t = Some k →
  date_parse (iso_of_civil c ++ String "T" t)%string = Some (day_of c * DAY_MS + k).
Proof.
  intros H Hk. unfold date_parse, slice, slice_from. change (10 - 0)%nat with 10%nat.
  rewrite <- (length_iso c H), substring_app_l, parse_iso_of_civil, str_length_app by done.
  rewrite <- (Nat.add_0_r (String.length (iso_of_civil c))) at 1. rewrite substring_skip.
  replace (String.length (iso_of_civil c) + String.length (String "T" t) - String.length (iso_of_civil c))%nat
    with (String.length (String "T" t)) by lia.
  rewrite substring_full, Hk. done.
Qed.

(** ** The ISO text of a day number *)

Definition iso (n : Z) : string := iso_of_civil (civil_of_day n).
#[global] Strategy 100 [iso].

Lemma date_of_iso_iso n : iso_range n → date_of_iso (iso n) = Some n.
Proof. intros H. unfold iso. rewrite date_of_iso_civil by by apply iso_day_of_range. by rewrite day_of_civil_of_day. Qed.

Lemma iso_lt_days a b : iso_range a → iso_range b → str_lt (iso a) (iso b) = (a <? b).
Proof. intros. unfold iso. rewrite iso_lt by by apply iso_day_of_range. by rewrite !day_of_civil_of_day. Qed.

Lemma iso_le_days a b : iso_range a → iso_range b → str_le (iso a) (iso b) = (a <=? b).
Proof. intros. unfold str_le. rewrite iso_lt_days by done. by rewrite Z.leb_antisym. Qed.

Lemma iso_inj_days a b : iso_range a → iso_range b → iso a = iso b → a = b.
Proof.
  intros Ha Hb E. apply iso_of_civil_inj in E; try by apply iso_day_of_range.
  rewrite <- (day_of_civil_of_day a), E. apply day_of_civil_of_day.
Qed.

Lemma iso_nonempty n : String.eqb (iso n) "" = false.
Proof.
  unfold iso, iso_of_civil. apply String.eqb_neq. intros E.
  apply (f_equal String.length) in E. rewrite !str_length_app in E. simpl in E. lia.
Qed.

Lemma iso_midnight n : iso_range n → parse_utc_midnight (iso n) = Some (n * DAY_MS).
Proof.
  intros H. unfold iso. rewrite parse_utc_midnight_civil by by apply iso_day_of_range.
  by rewrite day_of_civil_of_day.
Qed.

Lemma to_iso_slice_iso n : iso_range n → to_iso_slice (n * DAY_MS) = iso n.
Proof.
  intros H. rewrite <- (day_of_civil_of_day n) at 1. rewrite <- (Z.add_0_r (_ * DAY_MS)).
  apply to_iso_slice_civil; [by apply iso_day_of_range|]. unfold DAY_MS. lia.
Qed.

(** Four-digit years form an interval of day numbers, checked at its ends. *)
Lemma iso_range_iff n : iso_range n ↔ -354285 <= n <= 2932896.
Proof.
  unfold iso_range, year4. destruct (civil_of_day_valid n) as [Hm Hd].
  pose proof (year_from_day_spec n) as Hy. change (cyear (civil_of_day n)) with (year_from_day n).
  assert (day_from_year 1000 = -354285) as E1 by reflexivity.
  assert (day_from_year 10000 = 2932897) as E2 by reflexivity.
  split.
  - intros [H1 H2]. pose proof (day_from_year_mono 1000 (year_from_day n) H1).
    pose proof (day_from_year_mono (year_from_day n + 1) 10000). lia.
  - intros [H1 H2]. split.
    + destruct (decide (year_from_day n < 1000)) as [Hl|]; [|lia].
      pose proof (day_from_year_mono (year_from_day n + 1) 1000). lia.
    + destruct (decide (9999 < year_from_day n)) as [Hl|]; [|lia].
      pose proof (day_from_year_mono 10000 (year_from_day n)). lia.
Qed.

Lemma clip_day_range n : iso_range n → clip_day n = Some n.
Proof.
  intros H. apply iso_range_iff in H. unfold clip_day.
  destruct (Z.abs n <=? 100000000) eqn:E; [done|]. apply Z.leb_gt in E. lia.
Qed.

Lemma make_day_add y m d k : make_day y m (d + k) = make_day y m d + k.
Proof. unfold make_day. ring. Qed.

(** ** Months, counted from January of year 0 *)

(** First day of month [M], counted from January of year 0. *)
Definition month_day (M : Z) : Z := make_day 0 M 1.
Definition month_index (n : Z) : Z := 12 * cyear (civil_of_day n) + cmonth (civil_of_day n).
#[global] Arguments iso : simpl never.
#[global] Strategy 100 [month_day month_index].

(** Month indices of the years 1000-9999. *)
Definition month_ok (M : Z) : Prop := 12000 <= M < 120000.

Lemma make_day_index y m d : make_day y m d = make_day 0 (12 * y + m) d.
Proof.
  unfold make_day. replace (0 + (12 * y + m) / 12) with (y + m / 12) by (Z.div_mod_to_equations; lia).
  replace ((12 * y + m) mod 12) with (m mod 12) by (Z.div_mod_to_equations; lia). done.
Qed.

Lemma civil_month_day M : civil_of_day (month_day M) = Civil (M / 12) (M mod 12) 1.
Proof. unfold month_day. by rewrite civil_first. Qed.

Lemma month_index_day M : month_index (month_day M) = M.
Proof. unfold month_index. rewrite civil_month_day. simpl. Z.div_mod_to_equations. lia. Qed.

Lemma month_day_mono M N : M < N → month_day M < month_day N.
Proof.
  intros HMN. rewrite <- (day_of_civil_of_day (month_day M)), <- (day_of_civil_of_day (month_day N)).
  apply day_of_lt; try apply civil_of_day_valid. rewrite !civil_month_day. unfold civil_ltb. simpl.
  destruct (Z.lt_trichotomy (M / 12) (N / 12)) as [L|[E|L]].
  - apply Z.ltb_lt in L. by rewrite L.
  - rewrite E, Z.ltb_irrefl, Z.eqb_refl. simpl.
    assert (M mod 12 < N mod 12) as L%Z.ltb_lt by (Z.div_mod_to_equations; lia). by rewrite L.
  - Z.div_mod_to_equations. lia.
Qed.

Lemma month_day_le M N : M <= N → month_day M <= month_day N.
Proof. intros. destruct (decide (M = N)) as [->|]; [done|]. pose proof (month_day_mono M N). lia. Qed.

(** A day lies in the month its fields name. *)
Lemma month_day_bounds n : month_day (month_index n) <= n < month_day (month_index n + 1).
Proof.
  pose proof (civil_of_day_valid n) as [Hm Hd]. pose proof (make_day_fields n) as E.
  rewrite make_day_in_year in E by done. unfold days_in_month in Hd.
  assert (L : month_day (month_index n) + cday (civil_of_day n) - 1 = n).
  { unfold month_day, month_index. rewrite <- make_day_index, make_day_in_year by done. lia. }
  split; [lia|].
  set (y := cyear (civil_of_day n)) in *. set (m := cmonth (civil_of_day n)) in *.
  assert (month_day (month_index n + 1) = day_from_year y + month_start (leap_day y) (m + 1)) as ->; [|lia].
  unfold month_day, month_index. fold y m. rewrite <- Z.add_assoc, <- make_day_index. unfold make_day.
  destruct (decide (m = 11)) as [->|].
  - change ((11 + 1) / 12) with 1. change ((11 + 1) mod 12) with 0. rewrite day_from_year_succ.
    unfold month_start. simpl. lia.
  - rewrite Z.div_small, Z.mod_small, Z.add_0_r by lia. lia.
Qed.

Lemma month_index_unique n M : month_day M <= n < month_day (M + 1) → month_index n = M.
Proof.
  intros H. pose proof (month_day_bounds n).
  destruct (Z.lt_trichotomy (month_index n) M) as [L|[E|L]]; [|done|].
  - pose proof (month_day_le (month_index n + 1) M). lia.
  - pose proof (month_day_le (M + 1) (month_index n)). lia.
Qed.

Lemma month_index_mono a b : a <= b → month_index a <= month_index b.
Proof.
  intros. pose proof (month_day_bounds a). pose proof (month_day_bounds b).
  destruct (decide (month_index a <= month_index b)); [done|].
  pose proof (month_day_le (month_index b + 1) (month_index a)). lia.
Qed.

Lemma month_range M n : month_ok M → month_day M <= n < month_day (M + 1) → iso_range n.
Proof.
  intros HM H. apply month_index_unique in H. unfold month_ok, month_index, iso_range, year4 in *.
  pose proof (civil_of_day_valid n) as [? _]. lia.
Qed.

Lemma new_date_index y m :
  100 <= y → 0 <= 12 * y + m < 120012 → new_date y m 1 = Some (month_day (12 * y + m)).
Proof.
  intros Hy Hm. rewrite new_date_first by (Z.div_mod_to_equations; lia).
  f_equal. unfold day_of, month_day. simpl. rewrite <- make_day_norm. apply make_day_index.
Qed.

(** ** [toISOString] of an instant *)

Definition clock_text (k : Z) : string :=
  (fix_digits 2 (k / 3600000) ++ ":" ++ fix_digits 2 (k / 60000 mod 60) ++ ":"
   ++ fix_digits 2 (k / 1000 mod 60) ++ "." ++ fix_digits 3 (k mod 1000) ++ "Z")%string.

Definition to_iso_string (ms : Z) : string := (to_iso_slice ms ++ "T" ++ clock_text (ms mod DAY_MS))%string.

Lemma two_digits_fix n : 0 <= n <= 99 → two_digits (digit (n / 10 mod 10)) (digit (n mod 10)) = Some n.
Proof.
  intros H. unfold two_digits. rewrite <- (parse_digits_fix 2 n) by (simpl; lia).
  cbn [fix_digits]. change (10 ^ Z.of_nat 1) with 10. change (10 ^ Z.of_nat 0) with 1. by rewrite Z.div_1_r.
Qed.

Lemma clock_text_parse k : 0 <= k < DAY_MS → parse_clock (clock_text k) = Some k.
Proof.
  intros Hk. unfold DAY_MS in Hk. unfold clock_text. cbn [fix_digits].
  change (10 ^ Z.of_nat 2) with 100. change (10 ^ Z.of_nat 1) with 10. change (10 ^ Z.of_nat 0) with 1.
  rewrite !Z.div_1_r. unfold parse_clock. cbn [String.append].
  assert (0 <= k / 3600000 <= 23) as H1 by (Z.div_mod_to_equations; lia).
  pose proof (Z.mod_pos_bound (k / 60000) 60) as H2. pose proof (Z.mod_pos_bound (k / 1000) 60) as H3.
  rewrite !two_digits_fix by lia.
  assert ((k / 3600000 <? 24) && (k / 60000 mod 60 <? 60) = true) as ->.
  { apply andb_true_intro. split; apply Z.ltb_lt; lia. }
  assert ((k / 1000 mod 60 <? 60) = true) as -> by (apply Z.ltb_lt; lia).
  cbn [parse_fraction]. rewrite !digit_val_digit by (Z.div_mod_to_equations; lia).
  change (digit_val "Z") with (@None Z). cbn [parse_zone fmap option_fmap option_map]. f_equal.
  change (100 / 10 / 10) with 1. change (100 / 10) with 10.
  Z.div_mod_to_equations. lia.
Qed.

Lemma date_parse_to_iso n k :
  iso_range n → 0 <= k < DAY_MS → date_parse (to_iso_string (n * DAY_MS + k)) = Some (n * DAY_MS + k).
Proof.
  intros Hn Hk. unfold to_iso_string.
  rewrite <- (day_of_civil_of_day n) at 1. rewrite to_iso_slice_civil by (by try apply iso_day_of_range).
  assert ((n * DAY_MS + k) mod DAY_MS = k) as ->.
  { rewrite Z.add_comm, Z.mod_add by (unfold DAY_MS; lia). by apply Z.mod_small. }
  change ("T" ++ ?s)%string with (String "T" s).
  rewrite (date_parse_time _ _ k) by (by try apply iso_day_of_range; try apply clock_text_parse).
  by rewrite day_of_civil_of_day.
Qed.
