(* ===== verification/Dates.v ===== *)
(** Civil dates and the business time zone: [frontend/src/lib/dates.ts],
    [frontend/src/lib/dateRangePresets.ts] and the calendar arithmetic of
    [frontend/src/lib/myEnergy.ts].

    [Intl] and its time-zone data are the platform's; what the source relies on
    is the interface [Zone] (the offset of the business zone at an instant) and
    its laws [ZoneLaws].  [zurich] is the rule in force since 1996 and satisfies
    them.  A function that throws on an Invalid Date returns [None]. *)

From S2P Require Import Prelude JsString JsDate.

Local Open Scope Z_scope.

(** ** The business zone *)

Class Zone := offset_ms : Z → Z.

(** Documented behaviour of Swiss civil time: whole minutes, at most two hours
    ahead of UTC, and no change within the two hours before UTC midnight (the
    changes happen at 01:00 UTC). It is the present rule, taken for every instant: local mean
    time before 1894 and the summer times of 1941 and 1942 do not obey it. *)
Class ZoneLaws `{Zone} := {
  off_minutes : ∀ t, offset_ms t mod 60000 = 0;
  off_range : ∀ t, 0 <= offset_ms t <= 7200000;
  off_midnight : ∀ n t, n * DAY_MS - 7200000 <= t <= n * DAY_MS → offset_ms t = offset_ms (n * DAY_MS);
}.

Definition HOUR_MS : Z := 3600000.

(** The last Sunday of a month, as a day number. *)
Definition last_sunday (y m : Z) : Z :=
  let last := make_day y (m + 1) 0 in last - (last + 4) mod 7.

(** Summer time from the last Sunday of March to the last Sunday of October, 01:00 UTC. *)
Definition zurich : Zone := λ t,
  let y := year_from_day (t / DAY_MS) in
  if (last_sunday y 2 * DAY_MS + HOUR_MS <=? t) && (t <? last_sunday y 9 * DAY_MS + HOUR_MS)
  then 2 * HOUR_MS else HOUR_MS.

(** ** [lib/dates.ts] *)

Definition show_field (f : option Z) : string := match f with Some n => Zstr n | None => "NaN" end.
Definition show_field2 (f : option Z) : string := match f with Some n => pad2 n | None => "NaN" end.

Definition formatIsoDate (date : option Z) : string :=
  (show_field (get_year date) ++ "-" ++ show_field2 (Z.add 1 <$> get_month date) ++ "-"
   ++ show_field2 (get_date date))%string.

Definition formatUtcIsoDate (ms : option Z) : string :=
  formatIsoDate ((λ t, t / DAY_MS) <$> ms).

Record ZonedParts := { zp_year : Z; zp_month : Z; zp_day : Z; zp_hours : Z; zp_minutes : Z }.

Section BusinessZone.
Context `{Zone}.

(** Calendar and clock fields of an instant ([formatToParts], floored to the minute). *)
Definition zonedParts (value : Z) : ZonedParts :=
  let wall := value + offset_ms value in
  let c := civil_of_day (wall / DAY_MS) in
  {| zp_year := cyear c; zp_month := cmonth c + 1; zp_day := cday c;
     zp_hours := wall mod DAY_MS / HOUR_MS; zp_minutes := wall mod HOUR_MS / 60000 |}.

Definition formatBusinessIsoDate (value : Z) : string :=
  let p := zonedParts value in
  (Zstr (zp_year p) ++ "-" ++ pad2 (zp_month p) ++ "-" ++ pad2 (zp_day p))%string.

Definition businessOffsetMs (ms : Z) : Z :=
  let p := zonedParts ms in
  let wall := make_day (full_year (zp_year p)) (zp_month p - 1) (zp_day p) * DAY_MS
              + zp_hours p * HOUR_MS + zp_minutes p * 60000 in
  wall - ms / 60000 * 60000.

Definition businessDayStartMs (isoDate : string) : option Z :=
  utcMidnight ← parse_utc_midnight isoDate;
  let estimate := utcMidnight - businessOffsetMs utcMidnight in
  Some (utcMidnight - businessOffsetMs estimate).

Definition todayBusinessIso (now : Z) : string := formatBusinessIsoDate now.
End BusinessZone.

Definition nextIsoDate (isoDate : string) : string :=
  formatUtcIsoDate (Z.add DAY_MS <$> parse_utc_midnight isoDate).

(** [Math.round] of a quotient by a positive integer. *)
Definition round_div (a b : Z) : Z := (2 * a + b) / (2 * b).

Definition daysInPeriod (from to : string) : Z :=
  if String.eqb from "" || String.eqb to "" then 0
  else match parse_utc_midnight from, parse_utc_midnight to with
       | Some fromMs, Some toMs => round_div (toMs - fromMs) DAY_MS + 1
       | _, _ => 0
       end.

(** ** [lib/myEnergy.ts]: calendar arithmetic *)

(** [toISOString] of an Invalid Date throws. *)
Definition shiftIsoDate (isoDate : string) (days : Z) : option string :=
  (λ ms, to_iso_slice (ms + days * DAY_MS)) <$> parse_utc_midnight isoDate.

Definition lastDaysRange (todayIso : string) (days : Z) : option (string * string) :=
  (λ from, (from, todayIso)) <$> shiftIsoDate todayIso (- (days - 1)).

(** ** [lib/dateRangePresets.ts] *)

Inductive QuickRangePreset := this_month | last_month | this_quarter | last_quarter | this_year | last_year.

(** [now] is the civil day of [new Date()]. *)
Definition quickRangeToDates (preset : QuickRangePreset) (now : Z) : string * string :=
  let y := cyear (civil_of_day now) in
  let m := cmonth (civil_of_day now) in
  let today := new_date y m (cday (civil_of_day now)) in
  match preset with
  | this_month => (formatIsoDate (new_date y m 1), formatIsoDate today)
  | last_month => (formatIsoDate (new_date y (m - 1) 1), formatIsoDate (new_date y m 0))
  | this_quarter => (formatIsoDate (new_date y (m / 3 * 3) 1), formatIsoDate today)
  | last_quarter =>
      let q := m / 3 * 3 in
      (formatIsoDate (new_date y (q - 3) 1), formatIsoDate (new_date y q 0))
  | this_year => (formatIsoDate (new_date y 0 1), formatIsoDate today)
  | last_year => (formatIsoDate (new_date (y - 1) 0 1), formatIsoDate (new_date (y - 1) 11 31))
  end.

(** ** Lemmas *)

Lemma formatIsoDate_Some n : formatIsoDate (Some n) = iso_of_civil (civil_of_day n).
Proof. unfold formatIsoDate, iso_of_civil. simpl. by rewrite Z.add_comm. Qed.

Lemma formatIsoDate_civil c : civil_valid c → formatIsoDate (Some (day_of c)) = iso_of_civil c.
Proof. intros. by rewrite formatIsoDate_Some, civil_of_day_of. Qed.

Lemma formatUtcIsoDate_day n k :
  0 <= k < DAY_MS → formatUtcIsoDate (Some (n * DAY_MS + k)) = iso_of_civil (civil_of_day n).
Proof.
  intros Hk. unfold formatUtcIsoDate. cbn [fmap option_fmap option_map].
  rewrite formatIsoDate_Some. do 2 f_equal. symmetry. apply Z.div_unique with k; lia.
Qed.

Lemma nextIsoDate_civil c :
  iso_day c → nextIsoDate (iso_of_civil c) = iso_of_civil (civil_of_day (day_of c + 1)).
Proof.
  intros Hc. unfold nextIsoDate. rewrite parse_utc_midnight_civil by done.
  rewrite <- (formatUtcIsoDate_day _ 0) by (unfold DAY_MS; lia).
  cbn [fmap option_fmap option_map]. do 2 f_equal. ring.
Qed.

Lemma shiftIsoDate_civil c k :
  iso_day c → iso_range (day_of c + k) →
  shiftIsoDate (iso_of_civil c) k = Some (iso_of_civil (civil_of_day (day_of c + k))).
Proof.
  intros Hc Hr. unfold shiftIsoDate. rewrite parse_utc_midnight_civil by done.
  rewrite <- (to_iso_slice_civil _ 0 (iso_day_of_range _ Hr)) by (unfold DAY_MS; lia).
  rewrite day_of_civil_of_day. cbn [fmap option_fmap option_map]. do 2 f_equal. ring.
Qed.

Section ZoneFacts.
Context `{ZoneLaws}.

Lemma wall_fields wall :
  wall mod DAY_MS / HOUR_MS * HOUR_MS + wall mod HOUR_MS / 60000 * 60000
  = wall mod DAY_MS - wall mod 60000.
Proof. unfold DAY_MS, HOUR_MS. Z.div_mod_to_equations. lia. Qed.

(** The offset the source derives from the zoned fields is the zone's own. *)
Lemma businessOffsetMs_offset ms :
  100 <= cyear (civil_of_day ((ms + offset_ms ms) / DAY_MS)) →
  businessOffsetMs ms = offset_ms ms.
Proof.
  intros Hy. unfold businessOffsetMs, zonedParts. cbn [zp_year zp_month zp_day zp_hours zp_minutes].
  rewrite full_year_id by done. set (wall := ms + offset_ms ms) in *.
  replace (cmonth (civil_of_day (wall / DAY_MS)) + 1 - 1)
    with (cmonth (civil_of_day (wall / DAY_MS))) by lia.
  rewrite make_day_fields.
  pose proof (wall_fields wall). pose proof (off_minutes ms) as Hm.
  assert (wall mod 60000 = ms mod 60000) as Hw
    by (unfold wall; rewrite Z.add_mod, Hm, Z.add_0_r, Z.mod_mod by lia; done).
  pose proof (Z_div_mod_eq_full wall DAY_MS). pose proof (Z_div_mod_eq_full ms 60000).
  unfold wall in *. lia.
Qed.

Lemma formatBusinessIsoDate_civil ms :
  formatBusinessIsoDate ms = iso_of_civil (civil_of_day ((ms + offset_ms ms) / DAY_MS)).
Proof. reflexivity. Qed.

(** The instant at which the business zone enters civil day [n]. *)
Definition day_start (n : Z) : Z := n * DAY_MS - offset_ms (n * DAY_MS).

Lemma day_start_offset n : offset_ms (day_start n) = offset_ms (n * DAY_MS).
Proof. pose proof (off_range (n * DAY_MS)). apply off_midnight. unfold day_start. lia. Qed.

Lemma day_start_wall n : day_start n + offset_ms (day_start n) = n * DAY_MS.
Proof. rewrite day_start_offset. unfold day_start. lia. Qed.

Lemma businessDayStartMs_civil c :
  iso_day c → businessDayStartMs (iso_of_civil c) = Some (day_start (day_of c)).
Proof.
  intros Hc. unfold businessDayStartMs. rewrite parse_utc_midnight_civil by done. simpl. f_equal.
  set (U := day_of c * DAY_MS). pose proof (off_range U).
  assert (Hy : ∀ t, U <= t < U + DAY_MS → 100 <= cyear (civil_of_day (t / DAY_MS))).
  { intros t Ht. replace (t / DAY_MS) with (day_of c).
    - rewrite civil_of_day_of by apply Hc. destruct Hc as [_ Hy]. unfold year4 in Hy. lia.
    - unfold U, DAY_MS in *. Z.div_mod_to_equations. lia. }
  rewrite (businessOffsetMs_offset U) by (apply Hy; unfold DAY_MS; lia).
  assert (offset_ms (U - offset_ms U) = offset_ms U) as E by (apply off_midnight; fold U; lia).
  rewrite businessOffsetMs_offset; [|rewrite E; apply Hy; unfold DAY_MS; lia].
  rewrite E. done.
Qed.

Lemma day_start_length n : 22 * HOUR_MS <= day_start (n + 1) - day_start n <= 26 * HOUR_MS.
Proof.
  unfold day_start, DAY_MS, HOUR_MS.
  pose proof (off_range (n * 86400000)). pose proof (off_range ((n + 1) * 86400000)). lia.
Qed.
End ZoneFacts.

(** ** The zone rule satisfies the interface *)

Lemma zurich_same_year y t n :
  year_from_day (t / DAY_MS) = y → year_from_day n = y →
  n * DAY_MS - 7200000 <= t <= n * DAY_MS → zurich t = zurich (n * DAY_MS).
Proof.
  intros Et En Ht. unfold zurich. rewrite Et, Z.div_mul, En by done.
  unfold DAY_MS, HOUR_MS in *. set (a := last_sunday y 2). set (b := last_sunday y 9).
  destruct (a * 86400000 + 3600000 <=? t) eqn:?, (t <? b * 86400000 + 3600000) eqn:?,
    (a * 86400000 + 3600000 <=? n * 86400000) eqn:?, (n * 86400000 <? b * 86400000 + 3600000) eqn:?;
    simpl; bool_facts; lia.
Qed.

Lemma last_sunday_bounds y m : make_day y (m + 1) 0 - 6 <= last_sunday y m <= make_day y (m + 1) 0.
Proof. unfold last_sunday. pose proof (Z.mod_pos_bound (make_day y (m + 1) 0 + 4) 7). lia. Qed.

(** Outside the days from 24 March to 31 October it is winter time. *)
Lemma zurich_winter t y :
  year_from_day (t / DAY_MS) = y →
  t < (day_from_year y + 83) * DAY_MS ∨ (day_from_year y + 305) * DAY_MS <= t → zurich t = HOUR_MS.
Proof.
  intros Ey Ht. unfold zurich. rewrite Ey.
  pose proof (last_sunday_bounds y 2) as B1. pose proof (last_sunday_bounds y 9) as B2.
  pose proof (leap_day_range y). rewrite make_day_in_year in B1, B2 by lia.
  change (month_start (leap_day y) (2 + 1)) with (90 + leap_day y) in B1.
  change (month_start (leap_day y) (9 + 1)) with (304 + leap_day y) in B2.
  unfold DAY_MS, HOUR_MS in *.
  destruct (_ <=? t) eqn:?, (t <? _) eqn:?; simpl; bool_facts; lia.
Qed.

#[export] Instance zurich_laws : @ZoneLaws zurich.
Proof.
  constructor.
  - intros t. unfold offset_ms, zurich. by destruct (_ && _).
  - intros t. unfold offset_ms, zurich. destruct (_ && _); unfold HOUR_MS; lia.
  - intros n t Ht. unfold offset_ms. set (y := year_from_day n).
    pose proof (year_from_day_spec n) as Sn. fold y in Sn.
    destruct (decide (n * DAY_MS = t)) as [<-|Hne]; [done|].
    assert (Hd : t / DAY_MS = n - 1)
      by (unfold DAY_MS in *; symmetry; apply Z.div_unique with (t - (n - 1) * 86400000); lia).
    destruct (decide (day_from_year y <= n - 1)) as [L|L].
    + apply zurich_same_year with y; [|done|done]. rewrite Hd. apply year_from_day_unique. lia.
    + assert (n = day_from_year y) by lia.
      rewrite day_from_year_succ in Sn. pose proof (leap_day_range (y - 1)).
      pose proof (day_from_year_succ (y - 1)) as P. replace (y - 1 + 1) with y in P by lia.
      rewrite (zurich_winter t (y - 1)), (zurich_winter (n * DAY_MS) y); [done|..].
      * by rewrite Z.div_mul.
      * left. unfold DAY_MS. lia.
      * rewrite Hd. apply year_from_day_unique. replace (y - 1 + 1) with y by lia. lia.
      * right. unfold DAY_MS in *. lia.
Qed.

Example zurich_summer_day :
  @businessDayStartMs zurich "2026-03-29" = Some 1774738800000
  ∧ @businessDayStartMs zurich "2026-03-30" = Some 1774821600000.
Proof. by vm_compute. Qed.

(** ** The days of the business zone *)

Section BusinessDays.
Context `{ZoneLaws}.

(** The civil day of an instant in the business zone. *)
Definition local_day (t : Z) : Z := (t + offset_ms t) / DAY_MS.

Lemma formatBusinessIsoDate_iso t : formatBusinessIsoDate t = iso (local_day t).
Proof. exact (formatBusinessIsoDate_civil t). Qed.

(** The instants of a day are those from its start to the start of the next. *)
Lemma local_day_iff t n : local_day t = n ↔ day_start n <= t < day_start (n + 1).
Proof.
  assert (∀ m, m <= local_day t ↔ day_start m <= t) as Hle.
  { intros m. unfold local_day, day_start. pose proof (off_range t). pose proof (off_range (m * DAY_MS)).
    assert (m <= (t + offset_ms t) / DAY_MS ↔ m * DAY_MS <= t + offset_ms t) as ->.
    { unfold DAY_MS in *. Z.div_mod_to_equations. lia. }
    destruct (decide (m * DAY_MS - 7200000 <= t <= m * DAY_MS)) as [Hin|Hout].
    - rewrite (off_midnight m t Hin). lia.
    - lia. }
  pose proof (Hle n). pose proof (Hle (n + 1)). lia.
Qed.

Lemma day_start_mono m n : m < n → day_start m < day_start n.
Proof.
  intros Hmn. unfold day_start. pose proof (off_range (m * DAY_MS)). pose proof (off_range (n * DAY_MS)).
  assert (m * DAY_MS + DAY_MS <= n * DAY_MS) by (unfold DAY_MS; lia). unfold DAY_MS in *. lia.
Qed.

Lemma local_day_mono s t : s <= t → local_day s <= local_day t.
Proof.
  intros Hst. destruct (decide (local_day t < local_day s)) as [Hlt|]; [|lia].
  pose proof (proj1 (local_day_iff s _) eq_refl). pose proof (proj1 (local_day_iff t _) eq_refl).
  destruct (decide (local_day t + 1 = local_day s)) as [E|]; [rewrite <- E in *; lia|].
  pose proof (day_start_mono (local_day t + 1) (local_day s)). lia.
Qed.

Lemma businessDayStartMs_iso n : iso_range n → businessDayStartMs (iso n) = Some (day_start n).
Proof. intros Hn. unfold iso. rewrite businessDayStartMs_civil by by apply iso_day_of_range. by rewrite day_of_civil_of_day. Qed.

Lemma nextIsoDate_iso n : iso_range n → nextIsoDate (iso n) = iso (n + 1).
Proof. intros Hn. unfold iso at 1. rewrite nextIsoDate_civil by by apply iso_day_of_range. by rewrite day_of_civil_of_day. Qed.

(** C34. A business day runs from the instant [businessDayStartMs] computes to the
    one it computes for the next date: exactly the instants between them show
    that date, and the first one shows midnight. *)
Theorem businessDayStartMs_bounds n :
  iso_range n → iso_range (n + 1) →
  ∃ start stop, businessDayStartMs (iso n) = Some start ∧ businessDayStartMs (nextIsoDate (iso n)) = Some stop ∧
    zp_hours (zonedParts start) = 0 ∧ zp_minutes (zonedParts start) = 0 ∧
    22 * HOUR_MS <= stop - start <= 26 * HOUR_MS ∧
    ∀ t, iso_range (local_day t) → formatBusinessIsoDate t = iso n ↔ start <= t < stop.
Proof.
  intros Hn Hn1. exists (day_start n), (day_start (n + 1)).
  rewrite nextIsoDate_iso, !businessDayStartMs_iso by done. split; [done|]. split; [done|].
  split; [|split; [|split; [apply day_start_length|]]].
  - unfold zonedParts. cbn [zp_hours]. rewrite day_start_wall. by rewrite Z.mod_mul by (unfold DAY_MS; lia).
  - unfold zonedParts. cbn [zp_minutes]. rewrite day_start_wall.
    replace (n * DAY_MS) with (n * 24 * HOUR_MS) by (unfold DAY_MS, HOUR_MS; lia).
    by rewrite Z.mod_mul by (unfold HOUR_MS; lia).
  - intros t Ht. rewrite formatBusinessIsoDate_iso, <- local_day_iff. split.
    + intros E. by apply iso_inj_days in E.
    + by intros ->.
Qed.
End BusinessDays.

Lemma businessDayStartMs_bounds_witness :
  ∃ start stop, @businessDayStartMs zurich (iso 20541) = Some start ∧ iso 20541 = "2026-03-29"%string ∧
    stop - start = 23 * HOUR_MS ∧ ∀ t, iso_range (@local_day zurich t) → @formatBusinessIsoDate zurich t = iso 20541 ↔ start <= t < stop.
Proof.
  destruct (@businessDayStartMs_bounds zurich zurich_laws 20541) as (start & stop & E1 & E2 & _ & _ & _ & H).
  - apply iso_range_iff. lia.
  - apply iso_range_iff. lia.
  - exists start, stop. split; [exact E1|]. split; [vm_compute; reflexivity|]. split; [|exact H].
    vm_compute in E1, E2. injection E1 as <-. injection E2 as <-. reflexivity.
Defined.
