(* ===== verification/BillingPeriod.v ===== *)
(** Billing periods: [frontend/src/lib/billingPeriod.ts].

    The four intervals divide the months, counted from year 0, into runs of 1,
    3, 6 or 12.  [period_start i q] is the first day of the [q]-th run and
    [billing_period i q] the run's first and last day as ISO texts: the abstract
    sequence of periods that every operation of the file is proved to walk.
    [new Date()] is an argument ([now], a civil day of the viewer). *)

From S2P Require Import Prelude JsString JsDate Dates.

Local Open Scope Z_scope.

Inductive BillingInterval := monthly | quarterly | semi_annual | annual.

#[export] Instance BillingInterval_eq_dec : EqDecision BillingInterval.
Proof. solve_decision. Defined.

Record range := Range { from : string; to : string }.

#[export] Instance range_eq_dec : EqDecision range.
Proof. solve_decision. Defined.

Definition steps (interval : BillingInterval) : Z :=
  match interval with monthly => 1 | quarterly => 3 | semi_annual => 6 | annual => 12 end.

(** [today] and [start] are local dates; an Invalid Date stays invalid. *)
Definition startOfBillingPeriod (today : option Z) (interval : BillingInterval) : option Z :=
  year ← get_year today;
  month ← get_month today;
  match interval with
  | monthly => new_date year month 1
  | quarterly => new_date year (month / 3 * 3) 1
  | semi_annual => new_date year (if month <? 6 then 0 else 6) 1
  | annual => new_date year 0 1
  end.

Definition endOfBillingPeriod (start : option Z) (interval : BillingInterval) : option Z :=
  let nextStart := date_at start (steps interval) 1 in
  date_at nextStart 0 0.

Definition getCurrentBillingPeriod (interval : BillingInterval) (now : Z) : range :=
  let start := startOfBillingPeriod (Some now) interval in
  Range (formatIsoDate start) (formatIsoDate (endOfBillingPeriod start interval)).

(** [Date.UTC] reads years 0-99 as 1900-1999, so the check refuses them. *)
Definition isValidIsoDay (iso : string) : bool :=
  match iso_fields iso with
  | None => false
  | Some (year, month, day) =>
      match clip_day (make_day (full_year year) (month - 1) day) with
      | None => false
      | Some check =>
          let c := civil_of_day check in
          (cyear c =? year) && (cmonth c =? month - 1) && (cday c =? day)
      end
  end.

Definition billingRangeFromParams (fromIso toIso : option string) : option range :=
  match fromIso, toIso with
  | Some f, Some t =>
      if String.eqb f "" || String.eqb t "" || negb (isValidIsoDay f) || negb (isValidIsoDay t)
      then None
      else if str_lt t f then None else Some (Range f t)
  | _, _ => None
  end.

Definition invoiceRangeFromParams (fromIso toIso communityStartIso : option string) : option range :=
  match billingRangeFromParams fromIso toIso with
  | None => None
  | Some r =>
      match communityStartIso with
      | Some s => if nonempty s && str_lt (from r) s then None else Some r
      | None => Some r
      end
  end.

Definition dir_sign (backwards : bool) : Z := if backwards then -1 else 1.

Definition shiftBillingPeriod (fromIso : string) (interval : BillingInterval) (direction : Z) : range :=
  let fromDate := date_of_iso fromIso in
  let shiftedStart := date_at fromDate (steps interval * direction) 1 in
  Range (formatIsoDate shiftedStart) (formatIsoDate (endOfBillingPeriod shiftedStart interval)).

(** The loop pushes the period before the last one [count] times. *)
Fixpoint push_previous (interval : BillingInterval) (last : range) (count : nat) : list range :=
  match count with
  | O => []
  | S k =>
      let prev := shiftBillingPeriod (from last) interval (-1) in
      prev :: push_previous interval prev k
  end.

Definition recentBillingPeriods
    (interval : BillingInterval) (count : nat) (minFrom : option string) (now : Z) : list range :=
  let current := getCurrentBillingPeriod interval now in
  bfilter
    (λ r, match minFrom with Some m => String.eqb m "" || str_le m (from r) | None => true end)
    (current :: push_previous interval current count).

Definition isBillingAlignedPeriod (from to : string) (interval : BillingInterval) : bool :=
  if String.eqb from "" || String.eqb to "" then false
  else
    let start := startOfBillingPeriod (date_of_iso from) interval in
    String.eqb (formatIsoDate start) from
    && String.eqb (formatIsoDate (endOfBillingPeriod start interval)) to.

Definition adjacentBillingPeriod (fromIso : string) (interval : BillingInterval) (direction : Z) : range :=
  let containing := formatIsoDate (startOfBillingPeriod (date_of_iso fromIso) interval) in
  if (direction =? -1) && str_lt containing fromIso
  then Range containing (formatIsoDate (endOfBillingPeriod (date_of_iso containing) interval))
  else shiftBillingPeriod containing interval direction.

(** The [while] loop with fuel; [None] when it is still running out of fuel. *)
Fixpoint periods_while (fuel : nat) (year start : string) (interval : BillingInterval) : option (list range) :=
  if negb (String.eqb (slice start 0 4) year) then Some []
  else match fuel with
       | O => None
       | S k =>
           let period := Range start (formatIsoDate (endOfBillingPeriod (date_of_iso start) interval)) in
           cons period <$> periods_while k year (from (shiftBillingPeriod start interval 1)) interval
       end.

Definition billingPeriodsOfYear (fuel : nat) (fromIso : string) (interval : BillingInterval) : option (list range) :=
  periods_while fuel (slice fromIso 0 4) (slice fromIso 0 4 ++ "-01-01") interval.

Definition firstAlignedBillingPeriod (startIso : option string) (interval : BillingInterval) : option range :=
  match startIso with
  | None => None
  | Some s =>
      if String.eqb s "" || negb (isValidIsoDay s) then None
      else
        let start := date_of_iso s in
        let step := steps interval in
        let firstStart :=
          y ← get_year start; m ← get_month start; d ← get_date start;
          let monthIndex := y * 12 + m - m mod step in
          let containing := new_date (monthIndex / 12) (monthIndex mod 12) 1 in
          if (d =? 1) && (m mod step =? 0) then containing
          else date_at containing step 1 in
        Some (Range (formatIsoDate firstStart) (formatIsoDate (endOfBillingPeriod firstStart interval)))
  end.

Definition getPreviousBillingPeriod (interval : BillingInterval) (now : Z) : range :=
  let currentStart := startOfBillingPeriod (Some now) interval in
  shiftBillingPeriod (formatIsoDate currentStart) interval (-1).

Definition alignedPeriodEndingWith (r : range) (interval : BillingInterval) : range :=
  let start := startOfBillingPeriod (date_of_iso (to r)) interval in
  Range (formatIsoDate start) (formatIsoDate (endOfBillingPeriod start interval)).

(** ** The abstract sequence of periods *)

Definition period_of (i : BillingInterval) (n : Z) : Z := month_index n / steps i.
Definition period_start (i : BillingInterval) (q : Z) : Z := month_day (q * steps i).
Definition period_end (i : BillingInterval) (q : Z) : Z := period_start i (q + 1) - 1.

Definition billing_period (i : BillingInterval) (q : Z) : range :=
  Range (iso (period_start i q)) (iso (period_end i q)).

#[global] Arguments str_lt : simpl never.

(** A period lying in those years. *)
Definition period_ok (i : BillingInterval) (q : Z) : Prop := 12000 <= q * steps i ∧ (q + 1) * steps i <= 120000.

Lemma steps_pos i : 1 <= steps i <= 12.
Proof. destruct i; simpl; lia. Qed.

Lemma period_of_bounds i n : period_start i (period_of i n) <= n <= period_end i (period_of i n).
Proof.
  unfold period_end, period_start, period_of. pose proof (month_day_bounds n). pose proof (steps_pos i).
  set (M := month_index n) in *.
  pose proof (month_day_le (M / steps i * steps i) M) as L1.
  pose proof (month_day_le (M + 1) ((M / steps i + 1) * steps i)) as L2.
  assert (M / steps i * steps i <= M < (M / steps i + 1) * steps i) by (Z.div_mod_to_equations; nia). lia.
Qed.

Lemma period_start_mono i q r : q < r → period_start i q < period_start i r.
Proof. intros. apply month_day_mono. pose proof (steps_pos i). nia. Qed.

Lemma period_start_le i q r : q <= r → period_start i q <= period_start i r.
Proof. intros. apply month_day_le. pose proof (steps_pos i). nia. Qed.

Lemma period_of_unique i n q : period_start i q <= n <= period_end i q → period_of i n = q.
Proof.
  intros H. pose proof (period_of_bounds i n) as B. unfold period_end in *.
  destruct (Z.lt_trichotomy (period_of i n) q) as [L|[E|L]]; [|done|].
  - pose proof (period_start_le i (period_of i n + 1) q). lia.
  - pose proof (period_start_le i (q + 1) (period_of i n)). lia.
Qed.

Lemma period_days_ok i q n :
  period_ok i q → period_start i q <= n <= period_end i q → iso_range n.
Proof.
  intros [H1 H2] H. apply (month_range (month_index n)); [|apply month_day_bounds].
  pose proof (month_index_mono _ _ (proj1 H)) as L1.
  pose proof (month_index_mono _ _ (proj2 H)) as L2.
  unfold period_end, period_start in *. rewrite month_index_day in L1.
  pose proof (month_day_mono ((q + 1) * steps i - 1) ((q + 1) * steps i)).
  rewrite (month_index_unique (month_day ((q + 1) * steps i) - 1) ((q + 1) * steps i - 1)) in L2;
    [|replace ((q + 1) * steps i - 1 + 1) with ((q + 1) * steps i) by lia; lia].
  unfold month_ok. lia.
Qed.

Lemma period_bounds_ok i q : period_ok i q → iso_range (period_start i q) ∧ iso_range (period_end i q).
Proof.
  intros Hq. pose proof (period_start_mono i q (q + 1)).
  split; apply (period_days_ok i q); unfold period_end; try done; lia.
Qed.

Lemma period_start_range i q : period_ok i q → iso_range (period_start i q).
Proof. intros Hq. exact (proj1 (period_bounds_ok i q Hq)). Qed.

Lemma formatIsoDate_iso n : formatIsoDate (Some n) = iso n.
Proof. exact (formatIsoDate_Some n). Qed.

(** *** The operations on the abstract sequence *)

Lemma start_of_period i n :
  iso_range n → startOfBillingPeriod (Some n) i = Some (period_start i (period_of i n)).
Proof.
  intros Hn. unfold startOfBillingPeriod, period_start, period_of, month_index. date_fields.
  unfold iso_range, year4 in Hn. pose proof (civil_of_day_valid n) as [Hm _].
  set (y := cyear (civil_of_day n)) in *. set (m := cmonth (civil_of_day n)) in *.
  destruct i; cbn [steps]; try destruct (m <? 6) eqn:?; bool_facts.
  all: rewrite new_date_index by (Z.div_mod_to_equations; lia);
    do 2 f_equal; Z.div_mod_to_equations; lia.
Qed.

Lemma month_fields M : 12 * (M / 12) + M mod 12 = M.
Proof. Z.div_mod_to_equations. lia. Qed.

Lemma shift_months M k :
  1200 <= M → 0 <= M + k < 120012 →
  date_at (Some (month_day M)) k 1 = Some (month_day (M + k)).
Proof.
  intros HM Hk. unfold date_at. date_fields. rewrite civil_month_day. cbn [cyear cmonth].
  pose proof (month_fields M) as E.
  assert (100 <= M / 12) by (apply Z.div_le_lower_bound; lia).
  rewrite new_date_index by lia. do 2 f_equal. lia.
Qed.

Lemma month_day_pred N : make_day (N / 12) (N mod 12) 0 = month_day N - 1.
Proof.
  rewrite make_day_index, month_fields. unfold month_day, make_day. lia.
Qed.

Lemma month_before N :
  12000 < N <= 120000 →
  date_at (Some (month_day N)) 0 0 = Some (month_day N - 1).
Proof.
  intros HN. unfold date_at. date_fields. rewrite Z.add_0_r. rewrite civil_month_day. cbn [cyear cmonth]. unfold new_date.
  assert (100 <= N / 12) by (apply Z.div_le_lower_bound; lia).
  rewrite full_year_id, month_day_pred by done.
  assert (Hr : iso_range (month_day N - 1)).
  { apply (month_range (N - 1)); [unfold month_ok; lia|].
    pose proof (month_day_mono (N - 1) N). replace (N - 1 + 1) with N by lia. lia. }
  pose proof (clip_day_year4 (civil_of_day (month_day N - 1)) (civil_of_day_valid _)) as C.
  rewrite day_of_civil_of_day in C. apply C. unfold iso_range, year4 in Hr. lia.
Qed.

Lemma end_of_period i q :
  period_ok i q → endOfBillingPeriod (Some (period_start i q)) i = Some (period_end i q).
Proof.
  intros [H1 H2]. unfold endOfBillingPeriod, period_end, period_start. pose proof (steps_pos i).
  assert (E : (q + 1) * steps i = q * steps i + steps i) by ring.
  rewrite shift_months by lia. rewrite E. apply month_before. lia.
Qed.

Lemma period_texts i q : period_ok i q →
  Range (formatIsoDate (Some (period_start i q)))
        (formatIsoDate (endOfBillingPeriod (Some (period_start i q)) i)) = billing_period i q.
Proof. intros Hq. rewrite end_of_period, !formatIsoDate_iso by done. reflexivity. Qed.

Lemma current_period i now :
  iso_range now → period_ok i (period_of i now) →
  getCurrentBillingPeriod i now = billing_period i (period_of i now).
Proof. intros Hn Hq. unfold getCurrentBillingPeriod. rewrite start_of_period by done. by apply period_texts. Qed.

Lemma shift_period i q k :
  iso_range (period_start i q) → period_ok i (q + k) →
  shiftBillingPeriod (iso (period_start i q)) i k = billing_period i (q + k).
Proof.
  intros Hs [Q1 Q2]. unfold shiftBillingPeriod. rewrite date_of_iso_iso by done.
  pose proof (steps_pos i).
  replace ((q + k + 1) * steps i) with ((q + k) * steps i + steps i) in Q2 by ring.
  assert (E : (q + k) * steps i = q * steps i + steps i * k) by ring.
  assert (12000 <= q * steps i).
  { unfold iso_range, year4, period_start in Hs. rewrite civil_month_day in Hs. cbn [cyear] in Hs.
    pose proof (month_fields (q * steps i)). pose proof (Z.mod_pos_bound (q * steps i) 12). lia. }
  unfold period_start at 1 2. rewrite shift_months by lia. rewrite <- E.
  apply (period_texts i (q + k)). split; lia.
Qed.

(** A text whose first four characters are the year of its day. *)
Lemma slice_year n : iso_range n → slice (iso n) 0 4 = fix_digits 4 (cyear (civil_of_day n)).
Proof.
  intros Hn. unfold iso. rewrite iso_of_civil_fix by by apply iso_day_of_range.
  unfold slice. change (4 - 0)%nat with (String.length (fix_digits 4 (cyear (civil_of_day n)))).
  apply substring_app_l.
Qed.

Lemma range_ok_lt i q r : period_ok i q → period_ok i r → q <= r → ∀ k, q <= k <= r → period_ok i k.
Proof. intros [H1 H2] [H3 H4] L k Hk. pose proof (steps_pos i). split; nia. Qed.

Lemma aligned_period i n :
  iso_range n → period_ok i (period_of i n) →
  alignedPeriodEndingWith (Range "" (iso n)) i = billing_period i (period_of i n).
Proof.
  intros Hn Hq. unfold alignedPeriodEndingWith. cbn [to].
  rewrite date_of_iso_iso, start_of_period by done. by apply period_texts.
Qed.

(** Every day of the four-digit years lies in a period of those years. *)
Lemma period_ok_of i n : iso_range n → period_ok i (period_of i n).
Proof.
  intros Hn. unfold iso_range, year4 in Hn. pose proof (civil_of_day_valid n) as [Hm _].
  unfold period_ok, period_of, month_index. set (M := 12 * cyear (civil_of_day n) + cmonth (civil_of_day n)).
  assert (12000 <= M < 120000) by (unfold M; lia). destruct i; cbn [steps]; Z.div_mod_to_equations; lia.
Qed.

Lemma billing_period_aligned i q :
  period_ok i q → isBillingAlignedPeriod (from (billing_period i q)) (to (billing_period i q)) i = true.
Proof.
  intros Hq. destruct (period_bounds_ok i q Hq) as [Hs He]. unfold isBillingAlignedPeriod, billing_period. cbn [from to].
  rewrite !iso_nonempty. cbn [orb]. rewrite date_of_iso_iso by done.
  assert (period_of i (period_start i q) = q) as Hp.
  { apply period_of_unique. pose proof (period_start_mono i q (q + 1)). unfold period_end. lia. }
  rewrite start_of_period, Hp, end_of_period, !formatIsoDate_iso by (rewrite ?Hp; done). by rewrite !String.eqb_refl.
Qed.

(** ** Theorems *)

(** The period shown as the current one is the whole billing period that contains today. *)
Theorem current_period_contains_today i now :
  iso_range now → period_ok i (period_of i now) →
  getCurrentBillingPeriod i now = billing_period i (period_of i now)
  ∧ period_start i (period_of i now) <= now <= period_end i (period_of i now).
Proof. intros Hn Hq. split; [by apply current_period|apply period_of_bounds]. Qed.

(** Shifting forwards and back returns to the same period. *)
Theorem shift_period_roundtrip i q :
  period_ok i q → period_ok i (q + 1) →
  shiftBillingPeriod (from (shiftBillingPeriod (iso (period_start i q)) i 1)) i (-1)
  = billing_period i q.
Proof.
  intros Hq Hq1. rewrite shift_period by (try done; by apply period_start_range).
  cbn [from billing_period]. rewrite shift_period.
  - f_equal. lia.
  - by apply period_start_range.
  - by replace (q + 1 + -1) with q by lia.
Qed.

(** The alignment test accepts exactly the billing periods. *)
Theorem isBillingAlignedPeriod_iff i n m :
  iso_range n → iso_range m → period_ok i (period_of i n) →
  isBillingAlignedPeriod (iso n) (iso m) i = true
  ↔ Range (iso n) (iso m) = billing_period i (period_of i n).
Proof.
  intros Hn Hm Hq. unfold isBillingAlignedPeriod. rewrite !iso_nonempty. cbn [orb].
  rewrite date_of_iso_iso, start_of_period, end_of_period, !formatIsoDate_iso by done.
  rewrite andb_true_iff, !String.eqb_eq. unfold billing_period. split.
  - intros [E1 E2]. by rewrite E1, E2.
  - intros E. split; symmetry; [exact (f_equal from E)|exact (f_equal to E)].
Qed.

(** Stepping back finds the nearest period that starts before the given day,
    stepping forwards the nearest that starts after it. *)
Theorem adjacentBillingPeriod_nearest i n :
  iso_range n → period_ok i (period_of i n - 1) → period_ok i (period_of i n + 1) →
  (∃ q, adjacentBillingPeriod (iso n) i (-1) = billing_period i q
        ∧ period_start i q < n ∧ ∀ r, period_start i r < n → r <= q)
  ∧ (∃ q, adjacentBillingPeriod (iso n) i 1 = billing_period i q
          ∧ n < period_start i q ∧ ∀ r, n < period_start i r → q <= r).
Proof.
  intros Hn Hp Hs. set (q := period_of i n) in *.
  assert (Hq : period_ok i q) by (apply (range_ok_lt i (q - 1) (q + 1)); [done|done|lia|lia]).
  pose proof (period_bounds_ok i q Hq) as [R1 R2]. pose proof (period_of_bounds i n) as B. fold q in B.
  unfold adjacentBillingPeriod. rewrite date_of_iso_iso, start_of_period by done. fold q.
  rewrite formatIsoDate_iso.
  rewrite iso_lt_days by done. split.
  - change (-1 =? -1) with true. cbn [andb]. destruct (period_start i q <? n) eqn:E; bool_facts.
    + exists q. rewrite date_of_iso_iso, end_of_period, formatIsoDate_iso by done.
      split_and!; [done|done|]. intros r Hr. destruct (decide (r <= q)); [done|].
      pose proof (period_start_le i (q + 1) r). unfold period_end in B. lia.
    + exists (q - 1). rewrite shift_period by done. split_and!.
      * by f_equal.
      * pose proof (period_start_mono i (q - 1) q). lia.
      * intros r Hr. destruct (decide (r <= q - 1)); [done|]. pose proof (period_start_le i q r). lia.
  - exists (q + 1). change (1 =? -1) with false. cbn [andb]. rewrite shift_period by done. split_and!; [done| |].
    + unfold period_end in B. lia.
    + intros r Hr. destruct (decide (q + 1 <= r)); [done|]. pose proof (period_start_le i r q). lia.
Qed.

Lemma push_previous_periods i q k :
  period_ok i q → period_ok i (q - Z.of_nat k) →
  push_previous i (billing_period i q) k
  = (λ j, billing_period i (q - 1 - Z.of_nat j)) <$> seq 0 k.
Proof.
  revert q; induction k as [|k IH]; intros q Hq Hk; [done|].
  cbn [push_previous]. cbn [from billing_period].
  assert (Hp : period_ok i (q + -1)) by (apply (range_ok_lt i (q - Z.of_nat (S k)) q); [done|done|lia|lia]).
  rewrite shift_period by (try done; by apply period_start_range).
  change (seq 0 (S k)) with (0%nat :: seq 1 k). rewrite fmap_cons.
  f_equal; [f_equal; simpl; lia|]. rewrite IH; [|done|].
  - rewrite <- seq_shift. rewrite <- list_fmap_compose. apply list_fmap_ext.
    intros ? j ?. simpl. f_equal. lia.
  - by replace (q + -1 - Z.of_nat k) with (q - Z.of_nat (S k)) by lia.
Qed.

(** The preset menu lists the current period and the [count] before it, newest
    first, without those that start before [minFrom]. *)
Theorem recentBillingPeriods_spec i count m now :
  iso_range now → iso_range m →
  period_ok i (period_of i now) → period_ok i (period_of i now - Z.of_nat count) →
  recentBillingPeriods i count (Some (iso m)) now
  = (λ k, billing_period i (period_of i now - Z.of_nat k))
    <$> filter (λ k, m <= period_start i (period_of i now - Z.of_nat k)) (seq 0 (S count)).
Proof.
  intros Hn Hm Hq Hc. unfold recentBillingPeriods. rewrite current_period, push_previous_periods by done.
  set (q := period_of i now) in *.
  assert (E : billing_period i q :: ((λ j, billing_period i (q - 1 - Z.of_nat j)) <$> seq 0 count)
              = (λ k, billing_period i (q - Z.of_nat k)) <$> seq 0 (S count)).
  { change (seq 0 (S count)) with (0%nat :: seq 1 count). rewrite fmap_cons, <- seq_shift.
    rewrite <- list_fmap_compose. f_equal; [f_equal; lia|]. apply list_fmap_ext.
    intros ? j ?. simpl. f_equal. lia. }
  rewrite E. clear E.
  apply bfilter_fmap. intros k Hk. apply elem_of_seq in Hk.
  assert (period_ok i (q - Z.of_nat k))
    by (apply (range_ok_lt i (q - Z.of_nat count) q); [done|done|lia|lia]).
  rewrite iso_nonempty. unfold str_le. cbn [orb from billing_period].
  rewrite iso_lt_days by (try done; by apply period_start_range).
  rewrite negb_true_iff, Z.ltb_ge. done.
Qed.

(** The page opens on the last period that has ended. *)
Theorem previous_period_last_complete i now :
  iso_range now → period_ok i (period_of i now) → period_ok i (period_of i now - 1) →
  ∃ q, getPreviousBillingPeriod i now = billing_period i q
       ∧ period_end i q < now ∧ ∀ r, period_end i r < now → r <= q.
Proof.
  intros Hn Hq Hp. exists (period_of i now - 1). unfold getPreviousBillingPeriod.
  rewrite start_of_period, formatIsoDate_iso by done.
  rewrite shift_period by (try done; by apply period_start_range).
  pose proof (period_of_bounds i now) as B. unfold period_end in *. split_and!.
  - by f_equal.
  - replace (period_of i now - 1 + 1) with (period_of i now) by lia. lia.
  - intros r Hr. destruct (decide (r <= period_of i now - 1)); [done|].
    pose proof (period_start_le i (period_of i now + 1) (r + 1)). lia.
Qed.

Lemma slice_year_period i q y :
  period_ok i q → 1000 <= y <= 9999 →
  String.eqb (slice (iso (period_start i q)) 0 4) (fix_digits 4 y) = (y =? q * steps i / 12).
Proof.
  intros Hq Hy. pose proof (period_bounds_ok i q Hq) as [R _]. rewrite slice_year by done.
  unfold iso_range, year4, period_start in R |- *. rewrite civil_month_day in *. cbn [cyear] in *.
  destruct (y =? q * steps i / 12) eqn:E; bool_facts.
  - subst. apply String.eqb_refl.
  - apply String.eqb_neq. intros F. apply E.
    pose proof (compare_fix_digits 4 y (q * steps i / 12) ltac:(simpl; lia) ltac:(simpl; lia)) as C.
    rewrite F, str_compare_refl in C. symmetry in C. by apply Z.compare_eq_iff in C.
Qed.

Lemma periods_while_spec i y q k fuel :
  1000 <= y <= 9998 → 12 * y <= q * steps i → q * steps i + Z.of_nat k * steps i = 12 * (y + 1) →
  (k <= fuel)%nat →
  periods_while fuel (fix_digits 4 y) (iso (period_start i q)) i
  = Some ((λ j, billing_period i (q + Z.of_nat j)) <$> seq 0 k).
Proof.
  revert q fuel. induction k as [|k IH]; intros q fuel Hy H1 H2 Hf; pose proof (steps_pos i).
  - assert (Hq : period_ok i q) by (split; nia).
    assert ((y =? q * steps i / 12) = false) as E
      by (apply Z.eqb_neq; replace (q * steps i) with ((y + 1) * 12) by lia; rewrite Z.div_mul; lia).
    destruct fuel; cbn [periods_while]; rewrite slice_year_period, E by (done || lia); done.
  - assert (Hq : period_ok i q) by (split; nia).
    assert (Hq1 : period_ok i (q + 1)) by (split; nia).
    destruct fuel as [|fuel]; [lia|]. cbn [periods_while].
    assert ((y =? q * steps i / 12) = true) as E.
    { apply Z.eqb_eq. apply Z.div_unique with (q * steps i - 12 * y); nia. }
    rewrite slice_year_period, E by (done || lia). cbn [negb].
    pose proof (period_bounds_ok i q Hq) as [R _].
    rewrite date_of_iso_iso, end_of_period, formatIsoDate_iso, shift_period by done.
    cbn [from billing_period]. rewrite IH by nia. cbn [fmap option_fmap option_map]. f_equal.
    change (seq 0 (S k)) with (0%nat :: seq 1 k). rewrite fmap_cons, <- seq_shift, <- list_fmap_compose.
    f_equal; [by rewrite Z.add_0_r|]. apply list_fmap_ext. intros ? j ?. simpl. f_equal. lia.
Qed.

(** The loop over a calendar year ends after at most twelve rounds and lists the
    year's billing periods in order. *)
Theorem billingPeriodsOfYear_tiles i n fuel :
  iso_range n → cyear (civil_of_day n) <= 9998 → (12 <= fuel)%nat →
  billingPeriodsOfYear fuel (iso n) i
  = Some ((λ j, billing_period i (12 * cyear (civil_of_day n) / steps i + Z.of_nat j))
          <$> seq 0 (Z.to_nat (12 / steps i))).
Proof.
  intros Hn Hy Hf. unfold billingPeriodsOfYear. rewrite slice_year by done.
  unfold iso_range, year4 in Hn. set (y := cyear (civil_of_day n)) in *.
  assert (Hd : 12 * y / steps i * steps i = 12 * y)
    by (destruct i; cbn [steps]; Z.div_mod_to_equations; lia).
  assert ((fix_digits 4 y ++ "-01-01")%string = iso (period_start i (12 * y / steps i))) as ->.
  { unfold iso, period_start. rewrite Hd, civil_month_day, (Z.mul_comm 12 y), Z.div_mul, Z.mod_mul by done.
    rewrite iso_of_civil_fix; [done|]. split; [by apply first_of_month_valid|]. unfold year4. simpl. lia. }
  assert (Hk : Z.of_nat (Z.to_nat (12 / steps i)) * steps i = 12) by (destruct i; reflexivity).
  assert (Z.to_nat (12 / steps i) <= 12)%nat by (destruct i; vm_compute; lia).
  apply periods_while_spec; [lia|rewrite Hd; lia|rewrite Hd, Hk; lia|lia].
Qed.

Lemma two_digit_year_moves y m d :
  0 <= y → 0 <= m <= 11 → make_day y m d = make_day (full_year y) m d → 100 <= y.
Proof.
  intros Hy Hm F. unfold full_year in F.
  destruct (0 <=? y) eqn:?, (y <=? 99) eqn:?; cbn [andb] in F; bool_facts; try lia.
  rewrite !make_day_in_year in F by lia.
  pose proof (month_start_bounds _ _ (leap_day_range y) Hm).
  pose proof (month_start_bounds _ _ (leap_day_range (1900 + y)) Hm).
  pose proof (day_from_year_mono (y + 1 + 1) (1900 + y)). rewrite !day_from_year_succ in *.
  pose proof (leap_day_range y). pose proof (leap_day_range (y + 1)). lia.
Qed.

(** [Date.UTC] reads two-digit years as 1900-1999: such texts are refused. *)
Lemma isValidIsoDay_spec s :
  isValidIsoDay s = true ↔ ∃ c, parse_iso s = Some c ∧ 100 <= cyear c.
Proof.
  unfold isValidIsoDay, parse_iso. destruct (iso_fields s) as [[[y m] d]|] eqn:E; [|naive_solver].
  apply iso_fields_range in E as (Hy & Hm & Hd). split.
  - destruct (clip_day _) as [n|] eqn:En; [|done].
    intros [[Ey%Z.eqb_eq Em%Z.eqb_eq]%andb_prop Ed%Z.eqb_eq]%andb_prop.
    assert (Hn : n = make_day (full_year y) (m - 1) d)
      by (unfold clip_day in En; destruct (_ <=? _); congruence).
    pose proof (civil_of_day_valid n) as [V1 V2]. pose proof (make_day_fields n) as F.
    rewrite Ey, Em, Ed in *.
    assert (100 <= y) by (by apply (two_digit_year_moves y (m - 1) d); [lia|lia|congruence]).
    exists (Civil y (m - 1) d). split; [|done].
    repeat match goal with |- context [?x <=? ?z] => replace (x <=? z) with true by lia end. done.
  - intros (c & Hc & H100). destruct (_ && _ && _ && _) eqn:B; simplify_eq. bool_facts. cbn [cyear] in *.
    rewrite full_year_id by done.
    assert (V : civil_valid (Civil y (m - 1) d)) by (split; simpl; lia).
    change (make_day y (m - 1) d) with (day_of (Civil y (m - 1) d)).
    rewrite clip_day_year4 by (try done; simpl; lia). rewrite civil_of_day_of by done. simpl.
    by rewrite !Z.eqb_refl.
Qed.

(** The range read from the URL is one of two calendar days in order, or nothing. *)
Theorem billingRangeFromParams_spec f t r :
  billingRangeFromParams (Some f) (Some t) = Some r
  ↔ r = Range f t ∧ str_le f t = true
    ∧ (∃ c, parse_iso f = Some c ∧ 100 <= cyear c) ∧ (∃ c, parse_iso t = Some c ∧ 100 <= cyear c).
Proof.
  rewrite <- !isValidIsoDay_spec. unfold billingRangeFromParams, str_le.
  destruct (String.eqb_spec f "") as [->|]; [split; [done|intros (_ & _ & H & _); done]|].
  destruct (String.eqb_spec t "") as [->|]; [split; [done|intros (_ & _ & _ & H); done]|]. simpl.
  destruct (isValidIsoDay f), (isValidIsoDay t), (str_lt t f); simpl; naive_solver.
Qed.

(** The first billable period is the first whole one that starts on or after the community's start. *)
Theorem firstAlignedBillingPeriod_first i n :
  iso_range n → period_ok i (period_of i n) → period_ok i (period_of i n + 1) →
  ∃ q, firstAlignedBillingPeriod (Some (iso n)) i = Some (billing_period i q)
       ∧ n <= period_start i q ∧ ∀ r, n <= period_start i r → q <= r.
Proof.
  intros Hn Hq Hq1. unfold firstAlignedBillingPeriod. rewrite iso_nonempty.
  assert (isValidIsoDay (iso n) = true) as ->.
  { apply isValidIsoDay_spec. exists (civil_of_day n). unfold iso.
    rewrite parse_iso_of_civil by by apply iso_day_of_range. unfold iso_range, year4 in Hn. split; [done|lia]. }
  cbn [orb negb]. rewrite date_of_iso_iso by done. date_fields.
  pose proof (steps_pos i) as Hs. pose proof (month_day_bounds n) as Hb. pose proof (period_of_bounds i n) as B.
  unfold period_of in *. set (q := month_index n / steps i) in *.
  pose proof (civil_of_day_valid n) as [V1 V2]. pose proof (make_day_fields n) as F.
  unfold iso_range, year4 in Hn.
  assert (Em : cyear (civil_of_day n) * 12 + cmonth (civil_of_day n)
               - cmonth (civil_of_day n) mod steps i = q * steps i).
  { unfold q, month_index. destruct i; cbn [steps]; Z.div_mod_to_equations; lia. }
  assert (Ea : cmonth (civil_of_day n) mod steps i = month_index n - q * steps i) by (unfold month_index; lia).
  rewrite Em, Ea. destruct Hq as [Q1 Q2].
  assert (100 <= q * steps i / 12) by (apply Z.div_le_lower_bound; lia).
  pose proof (month_fields (q * steps i)).
  rewrite new_date_index by lia. rewrite month_fields.
  destruct ((cday (civil_of_day n) =? 1) && (month_index n - q * steps i =? 0)) eqn:E; bool_facts.
  - exists q. fold (period_start i q). rewrite period_texts by done. split_and!; [done| |].
    + assert (month_index n = q * steps i ∧ cday (civil_of_day n) = 1) as [Ei Ed] by lia.
      rewrite make_day_index, Ed in F. fold (month_index n) (month_day (month_index n)) in F.
      unfold period_start. rewrite <- Ei, F. lia.
    + intros r Hr. destruct (decide (q <= r)); [done|]. pose proof (period_start_mono i r q). lia.
  - exists (q + 1). rewrite shift_months by lia.
    replace (q * steps i + steps i) with ((q + 1) * steps i) by ring. fold (period_start i (q + 1)).
    rewrite period_texts by done. split_and!; [done|unfold period_end in B; lia|].
    intros r Hr. destruct (decide (q + 1 <= r)); [done|]. exfalso.
    assert (n = period_start i q) as En by (pose proof (period_start_le i r q); lia).
    assert (month_index n = q * steps i) as Ei by (rewrite En; apply month_index_day).
    assert (civil_of_day n = Civil (q * steps i / 12) ((q * steps i) mod 12) 1) as Ec
      by (rewrite En; apply civil_month_day).
    rewrite Ei, Ec, Z.sub_diag in E. done.
Qed.

(** ** The theorems at concrete inputs: 17 March 2026 is day 20529 *)

Lemma current_period_contains_today_witness :
  getCurrentBillingPeriod quarterly 20529 = Range "2026-01-01" "2026-03-31"
  ∧ period_start quarterly (period_of quarterly 20529) <= 20529.
Proof.
  destruct (current_period_contains_today quarterly 20529) as [E [L _]]; [concrete|concrete|].
  split; [rewrite E; vm_compute; reflexivity|exact L].
Defined.

Lemma shift_period_roundtrip_witness :
  shiftBillingPeriod (from (shiftBillingPeriod "2026-01-01" semi_annual 1)) semi_annual (-1)
  = Range "2026-01-01" "2026-06-30".
Proof.
  assert (E : shiftBillingPeriod (from (shiftBillingPeriod (iso (period_start semi_annual 4052)) semi_annual 1))
    semi_annual (-1) = billing_period semi_annual 4052) by (apply shift_period_roundtrip; concrete).
  vm_compute in E |- *. exact E.
Defined.

Lemma isBillingAlignedPeriod_iff_witness :
  isBillingAlignedPeriod (iso 20529) (iso 20543) monthly = true
  ↔ Range (iso 20529) (iso 20543) = billing_period monthly (period_of monthly 20529).
Proof. apply (isBillingAlignedPeriod_iff monthly 20529 20543); concrete. Defined.

Lemma adjacentBillingPeriod_nearest_witness :
  ∃ q, adjacentBillingPeriod (iso 20529) monthly (-1) = billing_period monthly q.
Proof.
  destruct (adjacentBillingPeriod_nearest monthly 20529) as [(q & E & _) _]; [concrete|concrete|concrete|].
  exists q. exact E.
Defined.

Lemma recentBillingPeriods_spec_witness :
  length (recentBillingPeriods monthly 5 (Some (iso 20454)) 20529) = 3%nat.
Proof.
  rewrite (recentBillingPeriods_spec monthly 5 20454 20529); [vm_compute; reflexivity|concrete..].
Defined.

Lemma previous_period_last_complete_witness :
  ∃ q, getPreviousBillingPeriod quarterly 20529 = billing_period quarterly q.
Proof.
  destruct (previous_period_last_complete quarterly 20529) as (q & E & _); [concrete..|]. exists q. exact E.
Defined.

Lemma billingPeriodsOfYear_tiles_witness :
  length <$> billingPeriodsOfYear 12 (iso 20529) quarterly = Some 4%nat.
Proof.
  rewrite (billingPeriodsOfYear_tiles quarterly 20529 12); [vm_compute; reflexivity|concrete|concrete|lia].
Defined.

Lemma firstAlignedBillingPeriod_first_witness :
  ∃ q, firstAlignedBillingPeriod (Some (iso 20529)) monthly = Some (billing_period monthly q)
       ∧ 20529 <= period_start monthly q.
Proof.
  destruct (firstAlignedBillingPeriod_first monthly 20529) as (q & E & L & _); [concrete..|]. exists q. exact (conj E L).
Defined.
