(* ===== verification/TariffTypes.v ===== *)
(** The tariff records of src/frontend/src/types/api.ts: versions of a tariff,
    their price bands, the series that groups them, and the sources of fetched
    prices. String-literal unions are inductive types, optional and nullable
    fields are options. *)

From S2P Require Import Prelude.
Local Open Scope string_scope.

Inductive TariffBillingMode :=
  | Energy | PercentageOfEnergy | MonthlyFee | YearlyFee | PerMeteringPointMonthlyFee
  | PerMeteringPointYearlyFee | SharedMonthlyFee | SharedYearlyFee.

Inductive TariffCategory := CatEnergy | CatGridFees | CatLevies | CatMetering.
Inductive EnergyType := LocalEnergy | GridEnergy | FeedIn.
Inductive SplitKey := SplitEqual | SplitWeight.
Inductive CompleteStatus := StatusComplete | StatusPartial | StatusUnavailable.
Inductive SourceComponent := ComponentBase | ComponentEnergy | ComponentNone.

#[export] Instance TariffBillingMode_eq_dec : EqDecision TariffBillingMode.
Proof. solve_decision. Defined.
#[export] Instance TariffCategory_eq_dec : EqDecision TariffCategory.
Proof. solve_decision. Defined.
#[export] Instance EnergyType_eq_dec : EqDecision EnergyType.
Proof. solve_decision. Defined.
#[export] Instance SplitKey_eq_dec : EqDecision SplitKey.
Proof. solve_decision. Defined.

Record DynamicPriceSummary := {
  dps_status : CompleteStatus;
  dps_average_chf_per_kwh : option string;
  dps_reference_from : option string;
  dps_reference_to : option string;
}.

Record PercentageBaseSummary := {
  pbs_price_chf_per_kwh : option string;
  pbs_dynamic_status : option CompleteStatus;
  pbs_reference_date : string;
}.

Record Tariff := {
  tariff_id : string;
  zev : string;
  name : string;
  category : TariffCategory;
  billing_mode : TariffBillingMode;
  energy_type : option EnergyType;
  fixed_price_chf : option string;
  split_key : SplitKey;
  valid_from : string;
  valid_to : option string;
  notes : option string;
  source_component : option SourceComponent;
  source_series_name : option string;
  dynamic_source : option string;
  minimum_price_chf_per_kwh : option string;
  dynamic_price_summary : option DynamicPriceSummary;
  percentage_base_summary : option PercentageBaseSummary;
}.

Inductive TariffPeriodType := Flat | High | Low | Band.
#[export] Instance TariffPeriodType_eq_dec : EqDecision TariffPeriodType.
Proof. solve_decision. Defined.

(** The literals themselves, where the code compares them as texts. *)
Definition period_type_text (t : TariffPeriodType) : string :=
  match t with Flat => "flat" | High => "high" | Low => "low" | Band => "band" end.

Record TariffPeriod := {
  period_id : string;
  period_tariff : string;
  period_type : TariffPeriodType;
  label : option string;
  price_chf_per_kwh : option string;
  percentage : option string;
  time_from : option string;
  time_to : option string;
  weekdays : option string;
  months : option string;
}.

(** [TariffVersion extends Tariff]. *)
Record TariffVersion := {
  version_tariff :> Tariff;
  periods : list TariffPeriod;
}.

Record TariffGap := { gap_start : string; gap_end : string }.

Record TariffSeries := {
  series_zev : string;
  series_name : string;
  series_category : TariffCategory;
  series_billing_mode : TariffBillingMode;
  series_energy_type : option EnergyType;
  version_count : Z;
  active_version_id : option string;
  series_gaps : list TariffGap;
  versions : list TariffVersion;
}.

Inductive DynamicTariffType :=
  | DynElectricity | DynGrid | DynMetering | DynNationalFees | DynRegionalFees
  | DynDso | DynDsoComplete | DynIntegrated | DynIntegratedComplete | DynFeedIn | DynRefund.
#[export] Instance DynamicTariffType_eq_dec : EqDecision DynamicTariffType.
Proof. solve_decision. Defined.

Inductive DynamicApiVersion := V1_0_5 | V2_0_0 | BfeRmp.
#[export] Instance DynamicApiVersion_eq_dec : EqDecision DynamicApiVersion.
Proof. solve_decision. Defined.

Inductive FetchStatus := FetchPending | FetchOk | FetchFailed.

Record DynamicTariffSource := {
  source_id : string;
  source_label : string;
  source_url : string;
  source_api_version : DynamicApiVersion;
  source_tariff_type : DynamicTariffType;
  source_tariff_name : string;
  source_enabled : bool;
  last_fetch_status : FetchStatus;
  last_fetch_at : option string;
  last_success_at : option string;
  last_fetch_error : string;
  covers_from : option string;
  covers_to : option string;
  recovery_from : option string;
  point_count : Z;
  linked_tariff_count : Z;
  linked_zev_count : Z;
  supports_backfill : bool;
  empty_on_not_found : bool;
  aggregated_tariff_types : list DynamicTariffType;
  source_created_at : string;
  source_updated_at : string;
}.

Record DynamicPricePoint := {
  point_from : string;
  point_to : string;
  point_price : string;
}.

Record DynamicPriceStats := {
  stats_point_count : Z;
  minimum_chf_per_kwh : option string;
  maximum_chf_per_kwh : option string;
  average_chf_per_kwh : option string;
  negative_count : Z;
  gap_count : Z;
}.

Record PriceGap := { gap_from : string; gap_to : string }.

Record DynamicPriceHistory := {
  history_source : string;
  history_date_from : string;
  history_date_to : string;
  history_stats : DynamicPriceStats;
  history_gaps : list PriceGap;
  history_points : list DynamicPricePoint;
}.

(** A version with the given validity and bands, for concrete instances. *)
Definition sample_version (vid from : string) (to : option string) (bands : list TariffPeriod) : TariffVersion :=
  {| version_tariff :=
       {| tariff_id := vid; zev := "z"; name := "Grid"; category := CatEnergy; billing_mode := Energy;
          energy_type := Some GridEnergy; fixed_price_chf := None; split_key := SplitEqual;
          valid_from := from; valid_to := to; notes := None; source_component := None;
          source_series_name := None; dynamic_source := None; minimum_price_chf_per_kwh := None;
          dynamic_price_summary := None; percentage_base_summary := None |};
     periods := bands |}.

Definition sample_period (pid : string) (t : TariffPeriodType) (price : string) (ms : option string) : TariffPeriod :=
  {| period_id := pid; period_tariff := "t"; period_type := t; label := None; price_chf_per_kwh := Some price;
     percentage := None; time_from := None; time_to := None; weekdays := None; months := ms |}.

Definition sample_series (m : TariffBillingMode) (vs : list TariffVersion) : TariffSeries :=
  {| series_zev := "z"; series_name := "Grid"; series_category := CatEnergy; series_billing_mode := m;
     series_energy_type := Some GridEnergy; version_count := Z.of_nat (length vs); active_version_id := None;
     series_gaps := []; versions := vs |}.
