(* ===== verification/Recurrence.v ===== *)
(** When a price band applies (features/tariffs/recurrence.ts) and what it is
    called (features/tariffs/bands.ts): month and weekday masks, their runs,
    the selection of a toggle group and its stored value.

    [monthRanges] is shown to cover exactly the months of its mask, with
    December and January adjacent; the toggle group's selection and its stored
    value are a round trip. *)

From S2P Require Import Prelude JsString JsNumber TariffTypes.
Local Open Scope string_scope.
Local Open Scope Z_scope.

(** ** Model of recurrence.ts *)

Definition WEEKDAY_KEYS : list string := ["mon"; "tue"; "wed"; "thu"; "fri"; "sat"; "sun"].

Definition MONTH_KEYS : list string :=
  ["jan"; "feb"; "mar"; "apr"; "may"; "jun"; "jul"; "aug"; "sep"; "oct"; "nov"; "dec"].

(** [Number(part)] kept when it is an integer between [lo] and [hi]. *)
Definition int_between (lo hi : Z) (part : string) : option Z :=
  n ← num_int (to_number part); if (lo <=? n) && (n <=? hi) then Some n else None.

Definition parseMonths (raw : option string) : list Z :=
  match raw with
  | None => []
  | Some raw =>
      if String.eqb raw "" then []
      else sort_by Z.leb (omap (λ part, int_between 1 12 (trim part)) (split_on "," raw))
  end.

(** The loop both formatters share: a value continues the last run when it is
    one more than the run's last entry, otherwise it opens a run. *)
Definition add_to_runs (runs : list (list Z)) (value : Z) : list (list Z) :=
  match last runs with
  | Some run =>
      if bool_decide (Some value = (λ x, x + 1) <$> last run)
      then (removelast runs ++ [run ++ [value]])%list
      else (runs ++ [[value]])%list
  | None => [[value]]
  end.

Definition runs_of (values : list Z) : list (list Z) := foldl add_to_runs [] values.

(** [runs[last].push(...runs.shift())] when the first run starts in January and
    the last one ends in December. *)
Definition wrap_year (runs : list (list Z)) : list (list Z) :=
  match runs with
  | first :: (_ :: _) as rest =>
      match last rest with
      | Some tail =>
          if bool_decide (head first = Some 1) && bool_decide (last tail = Some 12)
          then (removelast rest ++ [tail ++ first])%list
          else runs
      | None => runs
      end
  | _ => runs
  end.

Definition run_ends (run : list Z) : Z * Z := (default 0 (head run), default 0 (last run)).

Definition monthRanges (months : list Z) : list (Z * Z) :=
  if (length months =? 0)%nat || (length months =? 12)%nat then []
  else run_ends <$> wrap_year (runs_of months).

(** [names[i]] as a template renders it: [undefined] out of range. *)
Definition name_at (names : list string) (i : Z) : string :=
  if i <? 0 then "undefined" else default "undefined" (names !! Z.to_nat i).

Definition formatSeason (raw : option string) (monthNames : list string) : string :=
  join ", " ((λ '(first, last),
    if first =? last then name_at monthNames (first - 1)
    else (name_at monthNames (first - 1) ++ "–" ++ name_at monthNames (last - 1))%string)
    <$> monthRanges (parseMonths raw)).

Definition formatWeekdays (raw : option string) (dayNames : list string) : string :=
  let parts := bfilter nonempty (trim <$> split_on "," (default "" raw)) in
  let days := sort_by Z.leb (oset_of (omap (int_between 0 6) parts)) in
  if (length days =? 0)%nat || (length days =? 7)%nat then ""
  else join ", " ((λ run,
    let '(first, last) := run_ends run in
    if (length run =? 1)%nat then name_at dayNames first
    else (name_at dayNames first ++ "–" ++ name_at dayNames last)%string)
    <$> runs_of days).

Definition seasonSortKey (raw : option string) : Z :=
  match monthRanges (parseMonths raw) with [] => -1 | (first, _) :: _ => first end.

Definition selectedRecurrence (value : option string) (allValues : list Z) : list string :=
  let parsed := bfilter nonempty (trim <$> split_on "," (default "" value)) in
  if (0 <? length parsed)%nat then parsed else Zstr <$> allValues.

(** The comparator [Number(left) - Number(right)]: its sign is the order of the
    two numbers, and a NaN difference counts as equal. *)
Definition numeric_le (left right : string) : bool := negb (num_lt (to_number right) (to_number left)).

Definition recurrenceValue (next : list string) (optionCount : nat) : option string :=
  if (length next =? 0)%nat then None
  else if (optionCount <=? length next)%nat then Some ""
  else Some (join "," (sort_by numeric_le next)).

(** ** Model of bands.ts *)

Record BandLike := {
  bl_period_type : TariffPeriodType;
  bl_label : option string;
  bl_time_from : option string;
  bl_time_to : option string;
}.

Definition band_like (p : TariffPeriod) : BandLike :=
  {| bl_period_type := period_type p; bl_label := label p; bl_time_from := time_from p; bl_time_to := time_to p |}.

Definition hhmm (value : string) : string := slice value 0 5.

Definition bandWindow (period : BandLike) : option string :=
  match bl_time_from period, bl_time_to period with
  | Some a, Some b => if nonempty a && nonempty b then Some (hhmm a ++ "–" ++ hhmm b)%string else None
  | _, _ => None
  end.

Definition bandName (period : BandLike) (translatedType : string) : string :=
  if bool_decide (bl_period_type period = Band)
  then or_str (bl_label period) (or_str (bandWindow period) translatedType)
  else translatedType.

(** ** Reading and writing masks *)

Lemma omap_Zstr lo hi (l : list Z) :
  (∀ n, n ∈ l → int_between lo hi (Zstr n) = Some n) →
  omap (int_between lo hi) (Zstr <$> l) = l.
Proof.
  intros H. induction l as [|n l IH]; [done|]. csimpl. rewrite H by (by left). f_equal.
  apply IH. intros m Hm. apply H. by right.
Qed.

Lemma int_between_Zstr lo hi n : 0 <= n <= 12 → lo <= n <= hi → int_between lo hi (Zstr n) = Some n.
Proof.
  intros Hn Hr. unfold int_between.
  assert (num_int (to_number (Zstr n)) = Some n) as ->.
  { rewrite <- (Z2Nat.id n) by lia. assert (Z.to_nat n < 13)%nat as Hk by lia.
    revert Hk. generalize (Z.to_nat n) as k. intros k Hk.
    do 13 (destruct k as [|k]; [reflexivity|]). lia. }
  simpl. destruct (lo <=? n) eqn:E1, (n <=? hi) eqn:E2; bool_facts; simpl; done || lia.
Qed.

Lemma int_between_range lo hi s n : int_between lo hi s = Some n → lo <= n <= hi.
Proof.
  unfold int_between. destruct (num_int _) as [m|]; simpl; [|done].
  destruct (_ && _) eqn:E; intros; simplify_eq. bool_facts. lia.
Qed.

Lemma parseMonths_range raw n : n ∈ parseMonths raw → 1 <= n <= 12.
Proof.
  destruct raw as [raw|]; simpl; [|by intros ?%elem_of_nil].
  destruct (String.eqb raw ""); [by intros ?%elem_of_nil|].
  rewrite elem_of_sort_by, list_elem_of_omap. intros (s & _ & H). eapply int_between_range, H.
Qed.

(** ** Masks of months, enumerated *)

(** Every increasing list of values of [l]. *)
Fixpoint sublists {A} (l : list A) : list (list A) :=
  match l with
  | [] => [[]]
  | x :: l' => ((cons x <$> sublists l') ++ sublists l')%list
  end.

Lemma sublists_nil {A} (l : list A) : [] ∈ sublists l.
Proof. induction l; simpl; [by left|]. rewrite elem_of_app. by right. Qed.

Lemma sublists_seqZ a n l :
  StronglySorted Z.lt l → (∀ x, x ∈ l → a <= x < a + Z.of_nat n) → l ∈ sublists (seqZ a (Z.of_nat n)).
Proof.
  revert a l; induction n as [|n IH]; intros a l Hs Hr.
  - destruct l as [|x l]; [by left|]. specialize (Hr x (list_elem_of_here _ _)). lia.
  - rewrite seqZ_cons by lia. replace (Z.pred (Z.of_nat (S n))) with (Z.of_nat n) by lia.
    cbn [sublists]. rewrite elem_of_app. destruct Hs as [|x l Hs Hx].
    { right. apply sublists_nil. }
    rewrite Forall_forall in Hx. pose proof (Hr x (list_elem_of_here _ _)) as Hxr.
    destruct (decide (x = a)) as [->|Hne].
    + left. apply list_elem_of_fmap. exists l. split; [done|]. apply IH; [done|].
      intros y Hy. specialize (Hx y Hy). specialize (Hr y (list_elem_of_further _ _ _ Hy)). lia.
    + right. apply IH.
      * constructor; [done|]. by rewrite Forall_forall.
      * intros y Hy. pose proof (Hr y Hy). apply elem_of_cons in Hy as [->|Hy]; [lia|].
        specialize (Hx y Hy). lia.
Qed.

(** [m] lies in the range, which wraps past December when its end is before its start. *)
Definition in_range (m : Z) (r : Z * Z) : bool :=
  let '(first, last) := r in
  if first <=? last then (first <=? m) && (m <=? last) else (first <=? m) || (m <=? last).

Definition next_month (m : Z) : Z := m mod 12 + 1.

(** The checks of [monthRanges_exact], as one boolean per mask. *)
Definition ranges_exact (months : list Z) : bool :=
  (length months =? 12)%nat ||
  (forallb (λ m, eqb (existsb (in_range m) (monthRanges months)) (bool_decide (m ∈ months))) (seqZ 1 12)
   && forallb (λ r, negb (bool_decide (next_month r.2 ∈ months))) (monthRanges months)).

Lemma all_masks_exact : forallb ranges_exact (sublists (seqZ 1 12)) = true.
Proof. vm_compute. reflexivity. Qed.

(** The ranges of a proper season contain exactly its months, and the month
    after a range is outside the season: the ranges are the maximal runs of
    the year seen as a circle. *)
Theorem monthRanges_exact months :
  StronglySorted Z.lt months → (∀ m, m ∈ months → 1 <= m <= 12) → length months ≠ 12%nat →
  (∀ m, 1 <= m <= 12 → (∃ r, r ∈ monthRanges months ∧ in_range m r = true) ↔ m ∈ months)
  ∧ (∀ r, r ∈ monthRanges months → next_month r.2 ∉ months).
Proof.
  intros Hs Hr Hl.
  assert (months ∈ sublists (seqZ 1 12)) as Hin.
  { apply (sublists_seqZ 1 12); [done|]. intros x Hx. specialize (Hr x Hx). lia. }
  pose proof all_masks_exact as Hall. rewrite forallb_elem in Hall. specialize (Hall _ Hin).
  unfold ranges_exact in Hall. apply orb_true_iff in Hall as [E|E]; bool_facts; [done|].
  split.
  - intros m Hm. rewrite forallb_elem in H. specialize (H m). rewrite elem_of_seqZ in H.
    specialize (H ltac:(lia)). apply eqb_prop in H. rewrite <- existsb_elem, H.
    apply bool_decide_eq_true.
  - intros r Hrr. rewrite forallb_elem in H0. specialize (H0 r Hrr). bool_facts.
    by apply bool_decide_eq_false in H0.
Qed.

Lemma monthRanges_exact_witness :
  monthRanges [1; 2; 3; 7; 10; 11; 12] = [(7, 7); (10, 3)]
  ∧ ((∃ r, r ∈ monthRanges [1; 2; 3; 7; 10; 11; 12] ∧ in_range 2 r = true) ↔ 2 ∈ [1; 2; 3; 7; 10; 11; 12]).
Proof.
  split; [reflexivity|].
  apply (monthRanges_exact [1; 2; 3; 7; 10; 11; 12]); [| |done|lia].
  - repeat constructor.
  - intros m Hm. repeat (apply elem_of_cons in Hm as [->|Hm]; [lia|]). by apply elem_of_nil in Hm.
Defined.

(** ** The toggle group *)

Lemma parts_of_join l :
  l ≠ [] → Forall (λ s, ∃ n, 0 <= n ∧ s = Zstr n) l →
  bfilter nonempty (trim <$> split_on "," (join "," l)) = l.
Proof.
  intros Hl Hf. rewrite split_on_join; [|done|].
  - assert (trim <$> l = l) as ->.
    { clear Hl. induction Hf as [|s l (n & Hn & ->) _ IH]; [done|]. csimpl. rewrite IH.
      by rewrite trim_no_space by (by apply Zstr_no_space). }
    apply bfilter_all. intros s Hs. rewrite Forall_forall in Hf. destruct (Hf s Hs) as (n & Hn & ->).
    unfold nonempty. by apply negb_true_iff, String.eqb_neq, Zstr_nonempty.
  - eapply Forall_impl; [exact Hf|]. intros s (n & Hn & ->). simpl. by apply Zstr_free_of.
Qed.

(** What a selection is stored as selects the same options again: none is
    refused, all of them is the blank mask. *)
Theorem recurrence_roundtrip next allValues value :
  NoDup allValues → (∀ n, n ∈ allValues → 0 <= n) →
  NoDup next → (∀ s, s ∈ next → s ∈ Zstr <$> allValues) →
  recurrenceValue next (length allValues) = Some value →
  Permutation (selectedRecurrence (Some value) allValues) next.
Proof.
  intros Hnd Hpos Hn Hsub. unfold recurrenceValue, selectedRecurrence.
  destruct (length next =? 0)%nat eqn:E0; [done|]. bool_facts.
  destruct (length allValues <=? length next)%nat eqn:E1.
  - intros [= <-]. simpl. apply Nat.leb_le in E1. symmetry.
    apply submseteq_length_Permutation; [by apply NoDup_submseteq|by rewrite length_fmap].
  - intros [= <-]. change (default "" (Some ?x)) with x. set (l := sort_by numeric_le next).
    assert (Permutation l next) as Hp by apply sort_by_perm.
    rewrite parts_of_join.
    + assert (0 < length l)%nat by (rewrite Hp; lia). destruct (0 <? length l)%nat eqn:E2; [done|].
      apply Nat.ltb_ge in E2. lia.
    + intros ->. apply Permutation_nil_l in Hp. by subst.
    + rewrite Hp. apply Forall_forall. intros s Hs. apply Hsub, list_elem_of_fmap in Hs as (n & -> & Hin).
      eauto.
Qed.

Lemma recurrence_roundtrip_witness :
  recurrenceValue ["4"; "0"; "2"] 7 = Some "0,2,4" ∧
  Permutation (selectedRecurrence (Some "0,2,4") [0; 1; 2; 3; 4; 5; 6]) ["4"; "0"; "2"].
Proof.
  split; [by vm_compute|].
  apply (recurrence_roundtrip ["4"; "0"; "2"] [0; 1; 2; 3; 4; 5; 6]).
  - apply (bool_decide_unpack _); by vm_compute.
  - intros n Hn. repeat (apply elem_of_cons in Hn as [->|Hn]; [lia|]). by apply elem_of_nil in Hn.
  - apply (bool_decide_unpack _); by vm_compute.
  - intros s Hs. repeat (apply elem_of_cons in Hs as [->|Hs]; [by apply (bool_decide_unpack _); vm_compute|]).
    by apply elem_of_nil in Hs.
  - by vm_compute.
Defined.

Example formatSeason_ex :
  formatSeason (Some "12, 1,2,6,10,11") MONTH_KEYS = "jun, oct–feb" ∧ seasonSortKey (Some "4,5") = 4
  ∧ formatWeekdays (Some "0,1,2,3,4,6,6") WEEKDAY_KEYS = "mon–fri, sun" ∧ seasonSortKey None = -1.
Proof. by vm_compute. Qed.
