(* ===== verification/BandCoverage.v ===== *)
(** Which hours of the year a version's bands price
    (features/tariffs/bandCoverage.ts). The code probes one instant per stretch
    between two window edges; the theorems show that its gaps are exactly the
    instants no band prices, for every month, weekday and second of the day. *)

From S2P Require Import Prelude JsString JsNumber JsDate TariffTypes Recurrence.
Local Open Scope string_scope.
Local Open Scope Z_scope.

Record CoverageBand := {
  cb_id : option string;
  cb_period_type : TariffPeriodType;
  cb_label : option string;
  cb_price_chf_per_kwh : option string;
  cb_percentage : option string;
  cb_time_from : option string;
  cb_time_to : option string;
  cb_weekdays : option string;
  cb_months : option string;
}.

Record CoverageGap := {
  gap_months : list Z;
  gap_weekdays : list Z;
  gap_start : num;
  gap_end : num;
}.

(** A band is an object of the caller's array: its position is its identity. *)
Definition band_ref : Type := nat * CoverageBand.

Record Fallback := { fallback_band : band_ref; fallback_months : list Z }.

Record BandCoverage := {
  uncovered : bool;
  overlaps : bool;
  gaps : list CoverageGap;
  fallbacks : list Fallback;
}.

Definition DAY : num := of_Z 86400.

Definition seconds (value : option string) : option num :=
  match value with
  | None => None
  | Some text =>
      if String.eqb text "" then None else
      let parts := to_number <$> split_on ":" text in
      let hours := default nan (parts !! 0%nat) in
      let minutes := default (of_Z 0) (parts !! 1%nat) in
      let secs := default (of_Z 0) (parts !! 2%nat) in
      Some (num_add (num_add (num_mul hours (of_Z 3600)) (num_mul minutes (of_Z 60))) secs)
  end.

Definition parseWeekdays (raw : option string) : list num :=
  bfilter (λ day, num_ge day (of_Z 0) && num_le day (of_Z 6))
    (to_number <$> bfilter nonempty (trim <$> split_on "," (default "" raw))).

(** [getUTCMonth() * 7 + (getUTCDay() + 6) % 7] of a day: Monday is 0. *)
Definition day_pair (day : Z) : Z := cmonth (civil_of_day day) * 7 + (day + 3) mod 7.

(** The loop of [reachablePairs]: [fuel] days are left up to [end]. *)
Fixpoint collect_pairs (fuel : nat) (day : Z) (pairs : list Z) : list Z :=
  match fuel with
  | O => pairs
  | S fuel' =>
      if (length pairs <? 84)%nat then collect_pairs fuel' (day + 1) (oset_add (day_pair day) pairs)
      else pairs
  end.

Definition noon (date : string) : option Z :=
  (λ ms, ms / DAY_MS) <$> date_parse (date ++ "T12:00:00Z")%string.

Definition reachablePairs (validFrom validTo : option string) : option (list Z) :=
  if truthy_str validFrom && truthy_str validTo then
    match noon (default "" validFrom), noon (default "" validTo) with
    | Some day, Some last => Some (collect_pairs (Z.to_nat (last - day + 1)) day [])
    | _, _ => None
    end
  else None.

Record Window := {
  w_band : band_ref;
  w_start : option num;
  w_end : option num;
  w_months : list Z;
  w_days : list num;
}.

Definition window_of (i : nat) (b : CoverageBand) : Window :=
  {| w_band := (i, b); w_start := seconds (cb_time_from b); w_end := seconds (cb_time_to b);
     w_months := parseMonths (cb_months b); w_days := parseWeekdays (cb_weekdays b) |}.

(** The value of [undefined ?? d]. *)
Definition or_num (o : option num) (d : num) : num := default d o.

Section Coverage.
(** [String.prototype.localeCompare], whose order is the environment's. *)
Context (localeCompare : string → string → Z).

(** [a - b] as a sort key: [Eq] stands for a falsy difference (zero or NaN). *)
Definition num_cmp (a b : num) : comparison :=
  if num_lt a b then Lt else if num_lt b a then Gt else Eq.

Definition window_cmp (a b : Window) : comparison :=
  let ta := period_type_text (cb_period_type (w_band a).2) in
  let tb := period_type_text (cb_period_type (w_band b).2) in
  if str_lt ta tb then Lt else if str_lt tb ta then Gt else
  match num_cmp (or_num (w_start a) (of_Z (-1))) (or_num (w_start b) (of_Z (-1))) with
  | Eq => localeCompare (default "" (cb_id (w_band a).2)) (default "" (cb_id (w_band b).2)) ?= 0
  | c => c
  end.

Definition window_le (a b : Window) : bool := match window_cmp a b with Gt => false | _ => true end.

Definition ordered_windows (bands : list CoverageBand) : list Window :=
  sort_by window_le (imap window_of bands).

(** [new Set] stores [-0] as [0]. *)
Definition set_key (x : num) : num := match x with SpecFloat.S754_zero _ => of_Z 0 | _ => x end.

Definition window_edges (w : Window) : list num := omap id [w_start w; w_end w].

Definition edges_of (ordered : list Window) : list num :=
  sort_by (λ a b, negb (num_lt b a)) (oset_of (set_key <$> (of_Z 0 :: DAY :: mbind window_edges ordered))).

Definition on_day (w : Window) (day : Z) : bool :=
  (length (w_days w) =? 0)%nat || existsb (num_eqb (of_Z day)) (w_days w).

Definition in_season (month : Z) (w : Window) : bool :=
  (length (w_months w) =? 0)%nat || bool_decide (month ∈ w_months w).

Definition is_flat (w : Window) : bool := bool_decide (cb_period_type (w_band w).2 = Flat).

Definition is_catch_all (day : Z) (w : Window) : bool :=
  negb (is_flat w) && (bool_decide (w_start w = None) || bool_decide (w_end w = None)) && on_day w day.

Definition matches (day : Z) (time : num) (w : Window) : bool :=
  is_flat w ||
  match w_start w, w_end w with
  | Some start, Some stop =>
      on_day w day &&
      (if num_lt start stop then num_ge time start && num_lt time stop
       else num_ge time start || num_lt time stop)
  | _, _ => false
  end.

Definition count {A} (p : A → bool) (l : list A) : nat := length (bfilter p l).

Definition is_reachable (reachable : option (list Z)) (month day : Z) : bool :=
  match reachable with
  | Some pairs => oset_has ((month - 1) * 7 + day) pairs
  | None => true
  end.

Definition WEEK : list Z := [0; 1; 2; 3; 4; 5; 6].
Definition YEAR : list Z := [1; 2; 3; 4; 5; 6; 7; 8; 9; 10; 11; 12].

(** The inner loop over the weekdays of one stretch: the open days, and whether
    two bands or two catch-alls met. *)
Definition open_days (reachable : option (list Z)) (month : Z) (inSeason : list Window) (time : num) : list Z :=
  bfilter (λ day, is_reachable reachable month day
    && (count (matches day time) inSeason =? 0)%nat && (count (is_catch_all day) inSeason =? 0)%nat) WEEK.

Definition stretch_overlaps (reachable : option (list Z)) (month : Z) (inSeason : list Window) (time : num) : bool :=
  existsb (λ day, is_reachable reachable month day
    && ((1 <? count (is_catch_all day) inSeason)%nat || (1 <? count (matches day time) inSeason)%nat)) WEEK.

Record MonthGap := { mg_weekdays : list Z; mg_start : num; mg_end : num }.

(** [weekdays.join()]. *)
Definition days_text (days : list Z) : string := join "," (Zstr <$> days).

Definition add_stretch (monthGaps : list MonthGap) (open : list Z) (time stop : num) : list MonthGap :=
  match last monthGaps with
  | Some g =>
      if num_eqb (mg_end g) time && String.eqb (days_text (mg_weekdays g)) (days_text open)
      then removelast monthGaps ++ [{| mg_weekdays := mg_weekdays g; mg_start := mg_start g; mg_end := stop |}]
      else monthGaps ++ [{| mg_weekdays := open; mg_start := time; mg_end := stop |}]
  | None => [{| mg_weekdays := open; mg_start := time; mg_end := stop |}]
  end%list.

(** The loop over the stretches [edges[i], edges[i+1])]. *)
Fixpoint month_gaps (open_at : num → list Z) (edges : list num) (acc : list MonthGap) : list MonthGap :=
  match edges with
  | time :: ((stop :: _) as rest) =>
      let open := open_at time in
      month_gaps open_at rest (if (length open =? 0)%nat then acc else add_stretch acc open time stop)
  | _ => acc
  end.

(** [edges.slice(0, -1)]: the instants that are probed. *)
Definition probes (edges : list num) : list num := removelast edges.

Definition same_gap (g : MonthGap) (e : CoverageGap) : bool :=
  num_eqb (gap_start e) (mg_start g) && num_eqb (gap_end e) (mg_end g)
  && String.eqb (days_text (gap_weekdays e)) (days_text (mg_weekdays g)).

Fixpoint add_gap (month : Z) (found : list CoverageGap) (g : MonthGap) : list CoverageGap :=
  match found with
  | [] => [{| gap_months := [month]; gap_weekdays := mg_weekdays g; gap_start := mg_start g; gap_end := mg_end g |}]
  | e :: rest =>
      if same_gap g e then
        {| gap_months := (gap_months e ++ [month])%list; gap_weekdays := gap_weekdays e;
           gap_start := gap_start e; gap_end := gap_end e |} :: rest
      else e :: add_gap month rest g
  end.

Fixpoint add_fallback (month : Z) (found : list Fallback) (b : band_ref) : list Fallback :=
  match found with
  | [] => [{| fallback_band := b; fallback_months := [month] |}]
  | e :: rest =>
      if (fst (fallback_band e) =? fst b)%nat then
        {| fallback_band := fallback_band e; fallback_months := (fallback_months e ++ [month])%list |} :: rest
      else e :: add_fallback month rest b
  end.

(** One turn of the loop over the months. *)
Definition cover_month (reachable : option (list Z)) (ordered : list Window) (edges : list num)
    (result : BandCoverage) (month : Z) : BandCoverage :=
  let inSeason := bfilter (in_season month) ordered in
  let open_at := open_days reachable month inSeason in
  let monthGaps := month_gaps open_at edges [] in
  {| uncovered := uncovered result || existsb (λ time, negb (length (open_at time) =? 0)%nat) (probes edges);
     overlaps := overlaps result || existsb (stretch_overlaps reachable month inSeason) (probes edges);
     gaps := foldl (add_gap month) (gaps result) monthGaps;
     fallbacks :=
       match head inSeason, head ordered with
       | Some w, _ | None, Some w =>
           if (0 <? length monthGaps)%nat then add_fallback month (fallbacks result) (w_band w)
           else fallbacks result
       | None, None => fallbacks result
       end |}.

Definition bandCoverage (bands : list CoverageBand) (validity : option (option string * option string)) : BandCoverage :=
  let reachable := reachablePairs (mbind fst validity) (mbind snd validity) in
  let ordered := ordered_windows bands in
  foldl (cover_month reachable ordered (edges_of ordered))
    {| uncovered := false; overlaps := false; gaps := []; fallbacks := [] |} YEAR.
End Coverage.

Definition cmp_texts (a b : string) : Z := if str_lt a b then -1 else if str_lt b a then 1 else 0.

Definition band (id : string) (t : TariffPeriodType) (from to days months : string) : CoverageBand :=
  {| cb_id := Some id; cb_period_type := t; cb_label := None; cb_price_chf_per_kwh := Some "0.2";
     cb_percentage := None; cb_time_from := Some from; cb_time_to := Some to;
     cb_weekdays := Some days; cb_months := Some months |}.

(** A high band on weekdays and a low one at night leave the weekend days open. *)
Example coverage_ex :
  let r := bandCoverage cmp_texts
    [band "a" High "07:00" "21:00" "0,1,2,3,4" ""; band "b" Low "21:00:00" "07:00" "" ""] None in
  uncovered r = true ∧ overlaps r = false ∧
  (λ g, (gap_months g, gap_weekdays g, num_int (gap_start g), num_int (gap_end g))) <$> gaps r
    = [(YEAR, [5; 6], Some 25200, Some 75600)]
  ∧ (λ f, (fst (fallback_band f), fallback_months f)) <$> fallbacks r = [(0%nat, YEAR)].
Proof. by vm_compute. Qed.

(** ** Windows between two edges *)

Definition within (a t b : num) : bool := num_le a t && num_lt t b.

(** [s <= t] and [s <= e] agree: no edge separates the two instants. *)
Definition same_side (e t s : num) : Prop := num_le s t = num_le s e.

Lemma matches_same_side e t day w :
  is_nan e = false → is_nan t = false →
  (∀ s, w_start w = Some s ∨ w_end w = Some s → same_side e t s) →
  (∀ s, w_start w = Some s ∨ w_end w = Some s → is_nan s = false) →
  matches day t w = matches day e w.
Proof.
  intros He Ht Hs Hn. unfold matches. f_equal.
  destruct (w_start w) as [a|], (w_end w) as [b|]; try done.
  pose proof (Hs a ltac:(auto)) as Ha. pose proof (Hs b ltac:(auto)) as Hb. unfold same_side in *.
  unfold num_ge. rewrite !(num_not_lt _ b) by auto. by rewrite Ha, Hb.
Qed.

(** Consecutive pairs of a list. *)
Fixpoint stretches (l : list num) : list (num * num) :=
  match l with
  | a :: ((b :: _) as rest) => (a, b) :: stretches rest
  | _ => []
  end.

Lemma stretches_cons x y l : stretches (x :: y :: l) = (x, y) :: stretches (y :: l).
Proof. reflexivity. Qed.

Definition num_sorted (l : list num) : Prop := Sorted (λ a b, num_le a b = true) l.

Lemma num_sorted_strong l : num_sorted l → StronglySorted (λ a b, num_le a b = true) l.
Proof. apply Sorted_StronglySorted. intros x y z. apply num_le_trans. Qed.

(** Every instant from the first edge to before some later one lies in a stretch. *)
Lemma stretches_find l a z t :
  head l = Some a → z ∈ l → Forall (λ x, is_nan x = false) l → is_nan t = false →
  num_le a t = true → num_lt t z = true →
  ∃ e e', (e, e') ∈ stretches l ∧ within e t e' = true.
Proof.
  intros Hh Hz Hn Ht. revert a Hh Hz. induction Hn as [|x l Hx Hn IH]; intros a Hh Hz Ha Htz; [done|].
  simpl in Hh. injection Hh as <-. apply elem_of_cons in Hz as [->|Hz].
  { by rewrite num_lt_not_le in Ha. }
  destruct l as [|y l]; [by apply elem_of_nil in Hz|].
  destruct (num_le y t) eqn:Ey.
  - destruct (IH y eq_refl Hz Ey Htz) as (e & e' & Hin & Hw). exists e, e'.
    split; [|done]. by right.
  - exists x, y. split; [by left|]. unfold within. rewrite Ha.
    inversion Hn; subst. rewrite num_not_lt by done. by rewrite Ey.
Qed.

Lemma stretches_elem l e e' : (e, e') ∈ stretches l → e ∈ removelast l ∧ e' ∈ l.
Proof.
  induction l as [|x [|y l] IH]; try (by intros ?%elem_of_nil). rewrite stretches_cons.
  intros [[= -> ->]|Hin]%elem_of_cons.
  - split; [left|right; left].
  - destruct (IH Hin) as [H1 H2]. split; [by right|by right].
Qed.

Lemma removelast_elem {A} (l : list A) x : x ∈ removelast l → x ∈ l.
Proof. induction l as [|y [|z l] IH]; [done|by intros ?%elem_of_nil|]. cbn [removelast]. rewrite !elem_of_cons in *. tauto. Qed.

(** No edge of a sorted list separates two instants of one stretch. *)
Lemma stretches_same_side l e e' t s :
  num_sorted l → Forall (λ x, is_nan x = false) l → (e, e') ∈ stretches l → within e t e' = true →
  s ∈ l → same_side e t s.
Proof.
  intros Hs%num_sorted_strong Hn. unfold same_side. revert s.
  induction Hs as [|x l Hs IH Hx]; intros s Hin Hw Hl; [by apply elem_of_nil in Hin|].
  unfold within in *. apply andb_prop in Hw as Hw'. destruct Hw' as [Het Hte].
  destruct l as [|y l]; [by apply elem_of_nil in Hin|]. rewrite stretches_cons in Hin.
  inversion Hn as [|? ? Hxn Hn']; subst. rewrite Forall_forall in Hx.
  apply elem_of_cons in Hin as [[= -> ->]|Hin].
  - apply elem_of_cons in Hl as [->|Hl].
    + rewrite Het. symmetry. destruct (num_le_total x x) as [|]; done.
    + assert (num_le y s = true) as Hys.
      { inversion Hs as [|? ? ? Hy]; subst. apply elem_of_cons in Hl as [->|Hl].
        - destruct (num_le_total y y); [by inversion Hn'|by inversion Hn'|done|done].
        - rewrite Forall_forall in Hy. by apply Hy. }
      rewrite (num_lt_not_le t s) by (eapply num_lt_le_trans; eauto).
      symmetry. apply num_lt_not_le. eapply num_lt_le_trans; [|exact Hys]. eapply num_le_lt_trans; eauto.
  - apply elem_of_cons in Hl as [->|Hl]; [|by apply IH].
    pose proof (stretches_elem _ _ _ Hin) as [He%removelast_elem _].
    rewrite (Hx e He). eapply num_le_trans; eauto.
Qed.

(** ** The gaps of one month *)

Definition month_covers (acc : list MonthGap) (day : Z) (t : num) : Prop :=
  ∃ g, g ∈ acc ∧ day ∈ mg_weekdays g ∧ within (mg_start g) t (mg_end g) = true.

Definition week_days (days : list Z) : Prop := days ≠ [] ∧ Forall (λ d, 0 <= d <= 6) days.

Definition good_gap (g : MonthGap) : Prop :=
  week_days (mg_weekdays g) ∧ num_le (mg_start g) (mg_end g) = true.

Lemma days_text_inj a b : week_days a → week_days b → days_text a = days_text b → a = b.
Proof.
  intros [Ha Fa] [Hb Fb] H. unfold days_text in H.
  assert (∀ l, Forall (λ d, 0 <= d <= 6) l → Forall (λ s, free_of "," s = true) (Zstr <$> l)) as Hfree.
  { intros l Hl. rewrite Forall_fmap. eapply Forall_impl; [exact Hl|]. intros d Hd. simpl in *.
    apply Zstr_free_of; [reflexivity|lia]. }
  apply join_inj in H; [|by destruct a|by destruct b|auto|auto].
  assert (∀ l, Forall (λ d, 0 <= d <= 6) l → omap (int_between 0 6) (Zstr <$> l) = l) as Hback.
  { intros l Hl. apply omap_Zstr. intros n Hn. rewrite Forall_forall in Hl. specialize (Hl n Hn).
    apply int_between_Zstr; lia. }
  rewrite <- (Hback a), <- (Hback b) by done. by f_equal.
Qed.

Lemma within_congr a b c d t :
  num_eqb a b = true → num_eqb c d = true → within a t c = within b t d.
Proof.
  intros [H1 H2]%num_eqb_le [H3 H4]%num_eqb_le. unfold within. apply Bool.eq_true_iff_eq.
  rewrite !andb_true_iff. split; intros [Ha Hc]; split;
    eauto using num_le_trans, num_lt_le_trans.
Qed.

Lemma within_join a b b' c t :
  num_le a b = true → num_eqb b b' = true → num_le b' c = true →
  within a t c = within a t b || within b' t c.
Proof.
  intros Hab [H1 H2]%num_eqb_le Hbc. unfold within. apply Bool.eq_true_iff_eq.
  rewrite orb_true_iff, !andb_true_iff. split.
  - intros [Ha Hc]. destruct (num_le_nan _ _ Ha) as [_ Ht]. destruct (num_le_nan _ _ Hab) as [_ Hb].
    destruct (num_lt t b) eqn:E; [by left|]. right. split; [|done].
    rewrite num_not_lt in E by done. apply negb_false_iff in E. eauto using num_le_trans.
  - intros [[Ha Hc]|[Ha Hc]]; split; eauto using num_le_trans, num_lt_le_trans.
Qed.

Lemma month_covers_snoc acc g day t :
  month_covers (acc ++ [g]) day t ↔
    month_covers acc day t ∨ (day ∈ mg_weekdays g ∧ within (mg_start g) t (mg_end g) = true).
Proof.
  unfold month_covers. split.
  - intros (g' & [Hin| ->%list_elem_of_singleton]%elem_of_app & H); [left; eauto|by right].
  - intros [(g' & Hin & H)|H].
    + exists g'. rewrite elem_of_app. auto.
    + exists g. rewrite elem_of_app, list_elem_of_singleton. auto.
Qed.

Lemma add_stretch_covers acc open a b day t :
  Forall good_gap acc → week_days open → num_le a b = true →
  month_covers (add_stretch acc open a b) day t ↔
    month_covers acc day t ∨ (day ∈ open ∧ within a t b = true).
Proof.
  intros Hg Ho Hab. unfold add_stretch.
  destruct (last acc) as [g|] eqn:El.
  2: { apply last_None in El as ->. apply (month_covers_snoc []). }
  apply last_Some in El as [acc' ->]. rewrite removelast_last.
  destruct (_ && _) eqn:E; rewrite !month_covers_snoc; [|done].
  apply andb_prop in E as [E1 E2]. apply String.eqb_eq in E2.
  apply Forall_app in Hg as [_ Hg]. inversion Hg as [|? ? [Hw Hse] _]; subst.
  apply days_text_inj in E2 as <-; [|done..]. cbn [mg_weekdays mg_start mg_end].
  rewrite (within_join (mg_start g) (mg_end g) a b t Hse E1 Hab), orb_true_iff. tauto.
Qed.

Lemma add_stretch_good acc open a b :
  Forall good_gap acc → week_days open → num_le a b = true → Forall good_gap (add_stretch acc open a b).
Proof.
  intros Hg Ho Hab. unfold add_stretch.
  destruct (last acc) as [g|] eqn:El.
  2: { repeat constructor; apply Ho || done. }
  apply last_Some in El as [acc' ->]. rewrite removelast_last.
  destruct (_ && _) eqn:E.
  - apply Forall_app in Hg as [Hacc Hg]. inversion Hg as [|? ? [Hw Hse] _]; subst.
    apply Forall_app. split; [done|]. constructor; [|done]. split; [done|]. simpl.
    apply andb_prop in E as [[E1 _]%num_eqb_le _]. eauto using num_le_trans.
  - apply Forall_app. split; [done|]. by repeat constructor; try apply Ho.
Qed.

Lemma month_gaps_covers open_at edges acc :
  (∀ e, open_at e = [] ∨ week_days (open_at e)) → num_sorted edges → Forall good_gap acc →
  Forall good_gap (month_gaps open_at edges acc) ∧
  ∀ day t, month_covers (month_gaps open_at edges acc) day t ↔
    month_covers acc day t ∨ ∃ e e', (e, e') ∈ stretches edges ∧ day ∈ open_at e ∧ within e t e' = true.
Proof.
  intros Ho. revert acc. induction edges as [|a [|b l] IH]; intros acc Hs Hg.
  1,2: (cbn [month_gaps stretches]; split; [done|]; setoid_rewrite elem_of_nil; naive_solver).
  inversion Hs as [|? ? Hs' Hab]; subst. inversion Hab as [|? ? Hab']; subst.
  rewrite stretches_cons. cbn [month_gaps].
  set (acc' := if (length (open_at a) =? 0)%nat then acc else add_stretch acc (open_at a) a b).
  assert (Forall good_gap acc' ∧ ∀ day t, month_covers acc' day t ↔
    month_covers acc day t ∨ (day ∈ open_at a ∧ within a t b = true)) as [Hg' Hc].
  { unfold acc'. destruct (Ho a) as [->|Hw].
    - simpl. split; [done|]. intros. rewrite elem_of_nil. tauto.
    - destruct (length (open_at a) =? 0)%nat eqn:E.
      { apply Nat.eqb_eq, length_zero_iff_nil in E. by destruct Hw. }
      split; [by apply add_stretch_good|]. intros. by apply add_stretch_covers. }
  destruct (IH acc' Hs' Hg') as [IH1 IH2]. split; [done|].
  intros day t. rewrite IH2, Hc. split.
  - intros [[H|[Hd Hw]]|(e & e' & Hin & H)]; [by left|right; exists a, b; split; [by left|done]|].
    right. exists e, e'. split; [by right|done].
  - intros [H|(e & e' & [[= -> ->]|Hin]%elem_of_cons & H)]; [auto|auto|].
    right. exists e, e'. auto.
Qed.

(** ** The edges of a version's windows *)

Definition valid_time (s : num) : Prop := num_le (of_Z 0) s = true ∧ num_le s DAY = true.

(** The times of a band are times of the day. *)
Definition valid_times (b : CoverageBand) : Prop :=
  ∀ s, seconds (cb_time_from b) = Some s ∨ seconds (cb_time_to b) = Some s → valid_time s.

Definition valid_window (w : Window) : Prop :=
  ∀ s, w_start w = Some s ∨ w_end w = Some s → valid_time s.

Lemma set_key_le_l x t : num_le (set_key x) t = num_le x t.
Proof. by destruct x as [[]| | |], t as [[]|[]| |[]]. Qed.
Lemma set_key_le_r x t : num_le t (set_key x) = num_le t x.
Proof. by destruct x as [[]| | |], t as [[]|[]| |[]]. Qed.

Lemma set_key_antisym x y : num_le x y = true → num_le y x = true → set_key x = set_key y.
Proof.
  destruct x as [[]|[]| |[] m e], y as [[]|[]| |[] m' e']; try done;
    rewrite !num_le_finite; unfold lex_le; simpl; intros H1 H2;
    assert (e = e') as -> by lia; assert (m = m') as -> by lia; done.
Qed.

Lemma set_key_idem x : set_key (set_key x) = set_key x.
Proof. by destruct x. Qed.

Lemma valid_time_not_nan s : valid_time s → is_nan s = false.
Proof. intros [H _]. by destruct (num_le_nan _ _ H). Qed.

Section Edges.
Context (ordered : list Window) (Hvalid : ∀ w, w ∈ ordered → valid_window w).

Lemma elem_of_edges x :
  x ∈ edges_of ordered ↔
  ∃ y, x = set_key y ∧ (y = of_Z 0 ∨ y = DAY ∨ ∃ w, w ∈ ordered ∧ (w_start w = Some y ∨ w_end w = Some y)).
Proof.
  unfold edges_of. rewrite elem_of_sort_by, elem_of_oset_of, list_elem_of_fmap.
  apply exist_proper. intros y. rewrite !elem_of_cons, list_elem_of_bind.
  assert (∀ w, y ∈ window_edges w ↔ w_start w = Some y ∨ w_end w = Some y) as Hw.
  { intros w. unfold window_edges. rewrite list_elem_of_omap. unfold id.
    setoid_rewrite elem_of_cons. setoid_rewrite elem_of_cons. setoid_rewrite elem_of_nil. naive_solver. }
  setoid_rewrite Hw. naive_solver.
Qed.

Lemma edges_valid x : x ∈ edges_of ordered → valid_time x ∧ set_key x = x.
Proof.
  intros (y & -> & Hy)%elem_of_edges. rewrite set_key_idem. split; [|done].
  unfold valid_time. rewrite set_key_le_l, set_key_le_r.
  destruct Hy as [->|[->|(w & Hw & Hs)]]; [done|done|by apply (Hvalid w)].
Qed.

Lemma edges_not_nan : Forall (λ x, is_nan x = false) (edges_of ordered).
Proof. apply Forall_forall. intros x Hx. by apply valid_time_not_nan, edges_valid. Qed.

Lemma edges_sorted : num_sorted (edges_of ordered).
Proof.
  assert (Sorted (λ a b, negb (num_lt b a) = true) (edges_of ordered)) as Hs.
  { apply sort_by_sorted. intros a b. destruct (num_lt b a) eqn:E; [|by left]. right.
    destruct (num_lt a b) eqn:E'; [|done]. pose proof (num_lt_le _ _ E). by rewrite num_lt_not_le in *. }
  pose proof edges_not_nan as Hn. revert Hs Hn. unfold num_sorted.
  generalize (edges_of ordered). induction 1 as [|x l Hs IH Hh]; intros Hn; [constructor|].
  inversion Hn as [|? ? Hx Hl]; subst. constructor; [by apply IH|].
  destruct Hh as [|y l Hy]; constructor. inversion Hl; subst.
  rewrite num_not_lt in Hy by done. by rewrite negb_involutive in Hy.
Qed.

Lemma edges_stretch t :
  num_le (of_Z 0) t = true → num_lt t DAY = true →
  ∃ e e', (e, e') ∈ stretches (edges_of ordered) ∧ within e t e' = true.
Proof.
  intros H0 H1. pose proof edges_sorted as Hs%num_sorted_strong. pose proof edges_not_nan as Hn.
  assert (of_Z 0 ∈ edges_of ordered) as Hz by (apply elem_of_edges; by exists (of_Z 0); auto).
  assert (DAY ∈ edges_of ordered) as Hd by (apply elem_of_edges; by exists DAY; auto).
  destruct (edges_of ordered) as [|a l] eqn:E; [by apply elem_of_nil in Hz|].
  apply (stretches_find _ a DAY); [done|done|done| | |done].
  - by destruct (num_le_nan _ _ H0).
  - apply elem_of_cons in Hz as [<-|Hz]; [done|].
    inversion Hs as [|? ? _ Ha]; subst. rewrite Forall_forall in Ha. eapply num_le_trans; [by apply Ha|done].
Qed.

Lemma edges_NoDup : NoDup (edges_of ordered).
Proof. unfold edges_of. rewrite sort_by_perm. apply NoDup_oset_of. Qed.

Lemma stretches_lt l e e' :
  num_sorted l → NoDup l → (∀ x, x ∈ l → is_nan x = false ∧ set_key x = x) →
  (e, e') ∈ stretches l → num_lt e e' = true.
Proof.
  intros Hs Hd Hk. induction l as [|x [|y l] IH]; try by intros ?%elem_of_nil.
  inversion Hs as [|? ? Hs' Hh]; subst. apply NoDup_cons in Hd as [Hx Hd].
  rewrite stretches_cons. intros [[= -> ->]|Hin]%elem_of_cons.
  - inversion Hh as [|? ? Hxy]; subst.
    destruct (Hk x ltac:(by left)) as [Hx1 Hx2], (Hk y ltac:(by right; left)) as [Hy1 Hy2].
    rewrite num_not_lt by done. apply negb_true_iff. destruct (num_le y x) eqn:E; [|done].
    destruct Hx. pose proof (set_key_antisym x y Hxy E) as He. rewrite Hx2, Hy2 in He. subst. by left.
  - apply IH; [done|done| |done]. intros z Hz. apply Hk. by right.
Qed.

(** Each probe starts a stretch, inside the day. *)
Lemma probe_stretch e :
  e ∈ probes (edges_of ordered) → ∃ e', (e, e') ∈ stretches (edges_of ordered) ∧ num_lt e e' = true ∧
    num_le (of_Z 0) e = true ∧ num_lt e DAY = true.
Proof.
  intros He. assert (∃ e', (e, e') ∈ stretches (edges_of ordered)) as [e' Hin].
  { unfold probes in He. revert He. generalize (edges_of ordered). intros l.
    induction l as [|x [|y l] IH]; try by intros ?%elem_of_nil.
    rewrite stretches_cons. cbn [removelast]. intros [->|Hin]%elem_of_cons; [exists y; by left|].
    destruct (IH Hin) as [e' ?]. exists e'. by right. }
  exists e'. split; [done|].
  assert (num_lt e e' = true) as Hlt.
  { eapply stretches_lt; eauto using edges_sorted, edges_NoDup.
    intros x Hx. destruct (edges_valid x Hx). split; [by apply valid_time_not_nan|done]. }
  apply stretches_elem in Hin as [H1%removelast_elem H2].
  destruct (edges_valid _ H1) as [[H0 _] _], (edges_valid _ H2) as [[_ Hd] _].
  split_and!; [done|done|]. eapply num_lt_le_trans; eauto.
Qed.

(** The bands that match at an instant match at the start of its stretch. *)
Lemma matches_probe day t e e' w :
  w ∈ ordered → (e, e') ∈ stretches (edges_of ordered) → within e t e' = true →
  matches day t w = matches day e w.
Proof.
  intros Hw Hin Ht. assert (num_le e t = true) as Het by (apply andb_prop in Ht; tauto).
  destruct (num_le_nan _ _ Het) as [He Htn].
  apply matches_same_side; [done|done| |].
  - intros s Hs. assert (same_side e t (set_key s)) as H.
    { eapply stretches_same_side; eauto using edges_sorted, edges_not_nan.
      apply elem_of_edges. exists s. split; [done|]. right; right. eauto. }
    unfold same_side in *. by rewrite !set_key_le_l in H.
  - intros s Hs. apply valid_time_not_nan. by apply (Hvalid w Hw).
Qed.

Lemma count_ext {A} (p q : A → bool) l : (∀ x, x ∈ l → p x = q x) → count p l = count q l.
Proof.
  unfold count, bfilter. intros H. f_equal. apply List.filter_ext_in.
  intros x Hx. apply H. by rewrite list_elem_of_In.
Qed.

Lemma month_gaps_exact reachable month day t :
  0 <= day <= 6 → num_le (of_Z 0) t = true → num_lt t DAY = true →
  let inSeason := bfilter (in_season month) ordered in
  Forall good_gap (month_gaps (open_days reachable month inSeason) (edges_of ordered) []) ∧
  (month_covers (month_gaps (open_days reachable month inSeason) (edges_of ordered) []) day t ↔
    day ∈ open_days reachable month inSeason t).
Proof.
  intros Hday H0 H1 inSeason.
  assert (∀ e, open_days reachable month inSeason e = [] ∨ week_days (open_days reachable month inSeason e)) as Ho.
  { intros e. destruct (open_days reachable month inSeason e) as [|d l] eqn:E; [by left|]. right.
    split; [done|]. rewrite <- E. apply Forall_forall. intros x [Hx _]%elem_of_bfilter.
    unfold WEEK in Hx. repeat (apply elem_of_cons in Hx as [->|Hx]; [lia|]). by apply elem_of_nil in Hx. }
  destruct (month_gaps_covers _ (edges_of ordered) [] Ho edges_sorted ltac:(constructor)) as [Hg Hc].
  split; [done|]. rewrite Hc.
  assert (∀ e e', (e, e') ∈ stretches (edges_of ordered) → within e t e' = true →
    open_days reachable month inSeason t = open_days reachable month inSeason e) as Heq.
  { intros e e' Hin Hw. unfold open_days, bfilter. apply List.filter_ext. intros d. do 2 f_equal.
    f_equal. apply count_ext. intros w [Hw' _]%elem_of_bfilter. by eapply matches_probe. }
  split.
  - intros [(g & Hg' & _)|(e & e' & Hin & Hd & Hw)]; [by apply elem_of_nil in Hg'|].
    by rewrite (Heq e e').
  - intros Hd. right. destruct (edges_stretch t H0 H1) as (e & e' & Hin & Hw).
    exists e, e'. split_and!; [done| |done]. by rewrite <- (Heq e e').
Qed.

(** Every instant of the day has a probe at which the same bands match. *)
Lemma probe_of t :
  num_le (of_Z 0) t = true → num_lt t DAY = true →
  ∃ e, e ∈ probes (edges_of ordered) ∧ ∀ w day, w ∈ ordered → matches day t w = matches day e w.
Proof.
  intros H0 H1. destruct (edges_stretch t H0 H1) as (e & e' & Hin & Hw). exists e. split.
  - by apply stretches_elem in Hin as [? _].
  - intros w day Hw'. by eapply matches_probe.
Qed.
End Edges.

(** ** The gaps of the year *)

Definition year_covers (found : list CoverageGap) (month day : Z) (t : num) : Prop :=
  ∃ e, e ∈ found ∧ month ∈ gap_months e ∧ day ∈ gap_weekdays e ∧ within (gap_start e) t (gap_end e) = true.

Definition good_found (found : list CoverageGap) : Prop := Forall (λ e, week_days (gap_weekdays e)) found.

Lemma year_covers_cons e found m d t :
  year_covers (e :: found) m d t ↔
    (m ∈ gap_months e ∧ d ∈ gap_weekdays e ∧ within (gap_start e) t (gap_end e) = true) ∨ year_covers found m d t.
Proof.
  unfold year_covers. split.
  - intros (x & [->|Hx]%elem_of_cons & H); [by left|right; eauto].
  - intros [H|(x & Hx & H)]; [exists e|exists x]; rewrite elem_of_cons; auto.
Qed.

Lemma add_gap_covers month found g m d t :
  good_found found → week_days (mg_weekdays g) →
  good_found (add_gap month found g) ∧
  (year_covers (add_gap month found g) m d t ↔
    year_covers found m d t ∨
    (m = month ∧ d ∈ mg_weekdays g ∧ within (mg_start g) t (mg_end g) = true)).
Proof.
  intros Hf Hg. induction Hf as [|e found He Hf IH]; cbn [add_gap].
  - split; [by repeat constructor; apply Hg|].
    rewrite year_covers_cons. cbn [gap_months gap_weekdays gap_start gap_end].
    rewrite list_elem_of_singleton. tauto.
  - destruct IH as [IH1 IH2]. destruct (same_gap g e) eqn:E.
    + unfold same_gap in E. apply andb_prop in E as [E E3]. apply andb_prop in E as [E1 E2].
      apply String.eqb_eq, days_text_inj in E3; [|done..].
      split; [by constructor|]. rewrite !year_covers_cons. cbn [gap_months gap_weekdays gap_start gap_end].
      rewrite elem_of_app, list_elem_of_singleton, E3, (within_congr _ _ _ _ t E1 E2). tauto.
    + split; [by constructor|]. rewrite !year_covers_cons, IH2. tauto.
Qed.

Lemma add_gaps_cover month gs found m d t :
  good_found found → Forall good_gap gs →
  good_found (foldl (add_gap month) found gs) ∧
  (year_covers (foldl (add_gap month) found gs) m d t ↔
    year_covers found m d t ∨ (m = month ∧ month_covers gs d t)).
Proof.
  intros Hf Hg. revert found Hf. induction Hg as [|g gs [Hw _] _ IH]; intros found Hf; cbn [foldl].
  - split; [done|]. unfold month_covers. setoid_rewrite elem_of_nil. naive_solver.
  - destruct (add_gap_covers month found g m d t Hf Hw) as [Hf' Hc].
    destruct (IH _ Hf') as [IH1 IH2]. split; [done|]. rewrite IH2, Hc. unfold month_covers. split.
    + intros [[H|[-> H]]|[-> (g' & Hin & H)]]; [by left| |]; right; (split; [done|]);
        [exists g; split; [by left|done]|exists g'; split; [by right|done]].
    + intros [H|[-> (g' & [->|Hin]%elem_of_cons & H)]]; [auto|auto|]. right. split; [done|]. by exists g'.
Qed.

Section Year.
Context (localeCompare : string → string → Z).
Context (reachable : option (list Z)) (ordered : list Window).
Context (Hvalid : ∀ w, w ∈ ordered → valid_window w).

Definition month_open (month : Z) (t : num) : list Z :=
  open_days reachable month (bfilter (in_season month) ordered) t.

Lemma cover_months_gaps ms r m d t :
  0 <= d <= 6 → num_le (of_Z 0) t = true → num_lt t DAY = true → good_found (gaps r) →
  good_found (gaps (foldl (cover_month reachable ordered (edges_of ordered)) r ms)) ∧
  (year_covers (gaps (foldl (cover_month reachable ordered (edges_of ordered)) r ms)) m d t ↔
    year_covers (gaps r) m d t ∨ (m ∈ ms ∧ d ∈ month_open m t)).
Proof.
  intros Hd H0 H1. revert r. induction ms as [|month ms IH]; intros r Hr; cbn [foldl].
  - split; [done|]. rewrite elem_of_nil. tauto.
  - destruct (month_gaps_exact ordered Hvalid reachable month d t Hd H0 H1) as [Hg Hc].
    destruct (add_gaps_cover month _ (gaps r) m d t Hr Hg) as [Hr' Hc'].
    set (r' := cover_month reachable ordered (edges_of ordered) r month).
    destruct (IH r') as [IH1 IH2]; [exact Hr'|]. split; [done|]. rewrite IH2.
    change (gaps r') with
      (foldl (add_gap month) (gaps r) (month_gaps (month_open month) (edges_of ordered) [])).
    unfold month_open at 1. rewrite Hc', Hc, elem_of_cons. unfold month_open. naive_solver.
Qed.

Lemma cover_months_flags ms r :
  let r' := foldl (cover_month reachable ordered (edges_of ordered)) r ms in
  uncovered r' = uncovered r || existsb (λ m,
    existsb (λ time, negb (length (month_open m time) =? 0)%nat) (probes (edges_of ordered))) ms
  ∧ overlaps r' = overlaps r || existsb (λ m,
    existsb (stretch_overlaps reachable m (bfilter (in_season m) ordered)) (probes (edges_of ordered))) ms.
Proof.
  revert r. induction ms as [|m ms IH]; intros r; cbn [foldl existsb].
  - by rewrite !orb_false_r.
  - destruct (IH (cover_month reachable ordered (edges_of ordered) r m)) as [H1 H2].
    cbv zeta. rewrite H1, H2. cbn [uncovered overlaps cover_month]. by rewrite !orb_assoc.
Qed.
End Year.

(** ** Against the bands themselves *)

(** A band prices an instant: it is in season and flat, or its window matches. *)
Definition prices (month day : Z) (t : num) (b : CoverageBand) : bool :=
  in_season month (window_of 0 b) && matches day t (window_of 0 b).

(** A band without a full window catches every hour of its months and days. *)
Definition catches (month day : Z) (b : CoverageBand) : bool :=
  in_season month (window_of 0 b) && is_catch_all day (window_of 0 b).

Lemma count_perm {A} (p : A → bool) l l' : Permutation l l' → count p l = count p l'.
Proof.
  unfold count, bfilter. induction 1; simpl; repeat destruct (p _); simpl; congruence || lia.
Qed.

Lemma count_filter {A} (p q : A → bool) l : count p (bfilter q l) = count (λ x, q x && p x) l.
Proof.
  unfold count, bfilter. induction l as [|x l IH]; [done|]. simpl.
  destruct (q x); simpl; [|done]. destruct (p x); simpl; congruence.
Qed.

Lemma count_zero {A} (p : A → bool) l : count p l = 0%nat ↔ ∀ x, x ∈ l → p x = false.
Proof.
  unfold count. rewrite length_zero_iff_nil. split.
  - intros Hn x Hx. destruct (p x) eqn:E; [|done].
    assert (x ∈ bfilter p l) as Hin by (by apply elem_of_bfilter). rewrite Hn in Hin. by apply elem_of_nil in Hin.
  - intros H. destruct (bfilter p l) as [|x l'] eqn:E; [done|].
    assert (x ∈ bfilter p l) as [Hx Hp]%elem_of_bfilter by (rewrite E; left). by rewrite H in Hp.
Qed.

Lemma count_imap {A B} (f : nat → A → B) (p : B → bool) (q : A → bool) l :
  (∀ i x, p (f i x) = q x) → count p (imap f l) = count q l.
Proof.
  intros H. unfold count, bfilter. revert f H. induction l as [|x l IH]; intros f H; [done|].
  rewrite imap_cons. simpl. rewrite H. specialize (IH (f ∘ S) (λ i, H (S i))).
  destruct (q x); simpl; by rewrite IH.
Qed.

Section Spec.
Context (localeCompare : string → string → Z).

Definition version_reachable (validity : option (option string * option string)) : Z → Z → bool :=
  is_reachable (reachablePairs (mbind fst validity) (mbind snd validity)).

Lemma ordered_valid bands :
  Forall valid_times bands → ∀ w, w ∈ ordered_windows localeCompare bands → valid_window w.
Proof.
  intros H w. unfold ordered_windows. rewrite elem_of_sort_by, elem_of_lookup_imap.
  intros (i & b & -> & Hb). rewrite Forall_forall in H. intros s Hs. apply (H b); [|done].
  by eapply list_elem_of_lookup_2.
Qed.

Lemma count_ordered (p q : Window → bool) bands :
  (∀ i b, p (window_of i b) = p (window_of 0 b)) → (∀ i b, q (window_of i b) = q (window_of 0 b)) →
  count p (bfilter q (ordered_windows localeCompare bands))
  = count (λ b, q (window_of 0 b) && p (window_of 0 b)) bands.
Proof.
  intros Hp Hq. rewrite count_filter. unfold ordered_windows.
  rewrite (count_perm _ _ _ (sort_by_perm _ _)). apply count_imap. intros i b. by rewrite Hp, Hq.
Qed.

Lemma month_open_iff reachable bands m d t :
  d ∈ month_open reachable (ordered_windows localeCompare bands) m t ↔
  0 <= d <= 6 ∧ is_reachable reachable m d = true ∧
  ∀ b, b ∈ bands → prices m d t b = false ∧ catches m d b = false.
Proof.
  unfold month_open, open_days. rewrite elem_of_bfilter, !andb_true_iff, !Nat.eqb_eq.
  rewrite !count_ordered, !count_zero by done. unfold prices, catches.
  assert (d ∈ WEEK ↔ 0 <= d <= 6) as ->.
  { unfold WEEK. rewrite !elem_of_cons, elem_of_nil. lia. }
  split.
  - intros (Hd & [Hr Hp] & Hc). auto.
  - intros (Hd & Hr & H). split; [done|]. split; [split; [done|]|]; intros b Hb; by destruct (H b Hb).
Qed.

(** C21. The gaps of a version are exactly the instants none of its bands prices:
    a month, weekday and second of the day lies in a reported gap if and only
    if the version can see that pair, no flat or windowed band in season
    matches it and no catch-all band of the season applies on that day. *)
Theorem bandCoverage_gaps_exact bands validity month day t :
  Forall valid_times bands → 1 <= month <= 12 → 0 <= day <= 6 →
  num_le (of_Z 0) t = true → num_lt t DAY = true →
  (∃ g, g ∈ gaps (bandCoverage localeCompare bands validity) ∧
     month ∈ gap_months g ∧ day ∈ gap_weekdays g ∧ within (gap_start g) t (gap_end g) = true) ↔
  version_reachable validity month day = true ∧
  ∀ b, b ∈ bands → prices month day t b = false ∧ catches month day b = false.
Proof.
  intros Hv Hm Hd H0 H1. unfold bandCoverage.
  edestruct (cover_months_gaps (reachablePairs (mbind fst validity) (mbind snd validity))
    (ordered_windows localeCompare bands) (ordered_valid bands Hv) YEAR) as [_ Hc];
    [exact Hd|exact H0|exact H1| |unfold year_covers in Hc; rewrite Hc]; [constructor|].
  rewrite month_open_iff. cbn [gaps].
  assert (month ∈ YEAR) by (unfold YEAR; rewrite !elem_of_cons; lia). split.
  - intros [(e & He & _)|(_ & _ & Hp)]; [by apply elem_of_nil in He|done].
  - intros Hp. right. done.
Qed.

Lemma elem_of_WEEK d : d ∈ WEEK ↔ 0 <= d <= 6.
Proof. unfold WEEK. rewrite !elem_of_cons, elem_of_nil. lia. Qed.
Lemma elem_of_YEAR m : m ∈ YEAR ↔ 1 <= m <= 12.
Proof. unfold YEAR. rewrite !elem_of_cons, elem_of_nil. lia. Qed.

Lemma stretch_overlaps_iff reachable bands m t :
  stretch_overlaps reachable m (bfilter (in_season m) (ordered_windows localeCompare bands)) t = true ↔
  ∃ d, 0 <= d <= 6 ∧ is_reachable reachable m d = true ∧
    ((1 < count (catches m d) bands)%nat ∨ (1 < count (prices m d t) bands)%nat).
Proof.
  unfold stretch_overlaps. rewrite existsb_elem. apply exist_proper. intros d.
  rewrite andb_true_iff, orb_true_iff, !Nat.ltb_lt, !count_ordered, elem_of_WEEK by done. done.
Qed.

Lemma some_open_iff (l : list Z) : negb (length l =? 0)%nat = true ↔ ∃ d, d ∈ l.
Proof.
  rewrite negb_true_iff, Nat.eqb_neq. destruct l as [|d l]; simpl; [|split; [exists d; left|done]].
  split; [done|]. intros [d Hd]. by apply elem_of_nil in Hd.
Qed.

(** The probes decide what holds at some instant of the day. *)
Lemma probes_decide bands (P : num → Prop) :
  Forall valid_times bands →
  (∀ t e, (∀ w day, w ∈ ordered_windows localeCompare bands → matches day t w = matches day e w) → P t → P e) →
  (∃ e, e ∈ probes (edges_of (ordered_windows localeCompare bands)) ∧ P e) ↔
  ∃ t, (num_le (of_Z 0) t = true ∧ num_lt t DAY = true) ∧ P t.
Proof.
  intros Hv HP. split.
  - intros (e & He & Hp). exists e. split; [|done].
    destruct (probe_stretch _ (ordered_valid bands Hv) e He) as (_ & _ & _ & H). exact H.
  - intros (t & [H0 H1] & Hp). destruct (probe_of _ (ordered_valid bands Hv) t H0 H1) as (e & He & Heq).
    exists e. split; [done|]. by apply (HP t).
Qed.

Lemma count_season_ext ordered m (p q : Window → bool) :
  (∀ w, w ∈ ordered → p w = q w) →
  count p (bfilter (in_season m) ordered) = count q (bfilter (in_season m) ordered).
Proof. intros H. apply count_ext. intros w [Hw _]%elem_of_bfilter. auto. Qed.

(** The two flags say that some instant of the version has no price of its own,
    and that some instant has two windows (or two catch-alls) competing for it. *)
Theorem bandCoverage_flags bands validity :
  Forall valid_times bands →
  let r := bandCoverage localeCompare bands validity in
  let visible m d t := 1 <= m <= 12 ∧ 0 <= d <= 6 ∧ version_reachable validity m d = true ∧
    num_le (of_Z 0) t = true ∧ num_lt t DAY = true in
  (uncovered r = true ↔ ∃ m d t, visible m d t ∧
    ∀ b, b ∈ bands → prices m d t b = false ∧ catches m d b = false)
  ∧ (overlaps r = true ↔ ∃ m d t, visible m d t ∧
    ((1 < count (catches m d) bands)%nat ∨ (1 < count (prices m d t) bands)%nat)).
Proof.
  intros Hv r visible. unfold r, bandCoverage.
  edestruct (cover_months_flags (reachablePairs (mbind fst validity) (mbind snd validity))
    (ordered_windows localeCompare bands) YEAR) as [-> ->]. cbn [uncovered overlaps orb].
  rewrite !existsb_elem. setoid_rewrite elem_of_YEAR. setoid_rewrite existsb_elem.
  unfold visible. split.
  - setoid_rewrite some_open_iff.
    setoid_rewrite (probes_decide bands (λ t, ∃ d, d ∈ month_open _ _ _ t) Hv).
    2: { intros t e Heq [d Hd]. exists d. revert Hd. unfold month_open, open_days.
         rewrite !elem_of_bfilter. erewrite (count_season_ext _ _ (matches d t)); [done|]. auto. }
    setoid_rewrite month_open_iff. unfold version_reachable. naive_solver.
  - setoid_rewrite (probes_decide bands (λ t, stretch_overlaps _ _ _ t = true) Hv).
    2: { intros t e Heq. unfold stretch_overlaps. rewrite !existsb_elem. intros (d & Hd & H). exists d.
         split; [done|]. by erewrite (count_season_ext _ _ (matches d e)); [|symmetry; auto]. }
    setoid_rewrite stretch_overlaps_iff. unfold version_reachable. naive_solver.
Qed.
End Spec.

(** ** The pairs a version can see *)

Lemma day_pair_range n : 0 <= day_pair n < 84.
Proof.
  unfold day_pair. destruct (civil_of_day_valid n) as [Hm _].
  pose proof (Z.mod_pos_bound (n + 3) 7). lia.
Qed.

Lemma collect_pairs_spec fuel day pairs p :
  NoDup pairs → (∀ q, q ∈ pairs → 0 <= q < 84) → 0 <= p < 84 →
  p ∈ collect_pairs fuel day pairs ↔
    p ∈ pairs ∨ ∃ n, day <= n < day + Z.of_nat fuel ∧ p = day_pair n.
Proof.
  revert day pairs; induction fuel as [|fuel IH]; intros day pairs Hn Hr Hp; cbn [collect_pairs].
  { split; [by left|]. intros [?|(n & ? & _)]; [done|lia]. }
  destruct (length pairs <? 84)%nat eqn:E.
  - rewrite IH, elem_of_oset_add; [|by apply NoDup_oset_add| |done].
    + split.
      * intros [[->|H]|(n & Hn' & ->)]; [right; exists day; split; [lia|done]|by left|].
        right. exists n. split; [lia|done].
      * intros [H|(n & Hn' & ->)]; [auto|]. destruct (decide (n = day)) as [->|]; [by left; left|].
        right. exists n. split; [lia|done].
    + intros q [->|Hq]%elem_of_oset_add; [apply day_pair_range|auto].
  - apply Nat.ltb_ge in E. split; [by left|]. intros _.
    assert (Permutation pairs (seqZ 0 84)) as ->.
    { apply submseteq_length_Permutation; [|by rewrite length_seqZ]. apply NoDup_submseteq; [done|].
      intros q Hq. rewrite elem_of_seqZ. specialize (Hr q Hq). lia. }
    rewrite elem_of_seqZ. lia.
Qed.

Lemma noon_civil c : iso_day c → noon (iso_of_civil c) = Some (day_of c).
Proof.
  intros H. unfold noon. rewrite (date_parse_time c "12:00:00Z" 43200000) by done.
  unfold DAY_MS. cbn [fmap option_fmap option_map]. f_equal.
  rewrite Z.div_add_l by lia. rewrite (Z.div_small 43200000) by lia. lia.
Qed.

(** A bounded version sees a (month, weekday) pair exactly when one of its days
    falls on it, although the search stops as soon as all 84 pairs are in. *)
Theorem version_reachable_iff first final month day :
  iso_day first → iso_day final → 1 <= month <= 12 → 0 <= day <= 6 →
  version_reachable (Some (Some (iso_of_civil first), Some (iso_of_civil final))) month day = true ↔
  ∃ n, day_of first <= n <= day_of final ∧ cmonth (civil_of_day n) = month - 1 ∧ (n + 3) mod 7 = day.
Proof.
  intros Hf Hl Hm Hd. unfold version_reachable, reachablePairs.
  change (truthy_str _ && _) with (negb (String.eqb (iso_of_civil first) "") && negb (String.eqb (iso_of_civil final) "")).
  rewrite !iso_civil_nonempty by done. cbn [negb andb].
  change (default "" (Some ?x)) with x.
  change (noon (default "" _)) with (noon (iso_of_civil first)) at 1.
  change (noon (default "" _)) with (noon (iso_of_civil final)).
  rewrite !noon_civil by done. unfold is_reachable. rewrite oset_has_true, collect_pairs_spec.
  2: constructor. 2: by intros q ?%elem_of_nil. 2: lia.
  rewrite elem_of_nil. split.
  - intros [[]|(n & Hn & Hp)]. exists n. split; [lia|]. unfold day_pair in Hp.
    destruct (civil_of_day_valid n) as [Hc _]. pose proof (Z.mod_pos_bound (n + 3) 7). lia.
  - intros (n & Hn & Hc & Hw). right. exists n. split; [lia|]. unfold day_pair. lia.
Qed.

Lemma version_reachable_iff_witness :
  ∃ first final, iso_of_civil first = "2026-02-27" ∧ iso_of_civil final = "2026-03-01" ∧
  (version_reachable (Some (Some (iso_of_civil first), Some (iso_of_civil final))) 3 6 = true ↔
   ∃ n, day_of first <= n <= day_of final ∧ cmonth (civil_of_day n) = 3 - 1 ∧ (n + 3) mod 7 = 6).
Proof.
  exists (Civil 2026 1 27), (Civil 2026 2 1). split; [by vm_compute|]. split; [by vm_compute|].
  apply (version_reachable_iff (Civil 2026 1 27) (Civil 2026 2 1)); [| |lia|lia].
  all: unfold iso_day, civil_valid, year4; vm_compute; intuition discriminate.
Defined.

(** Two bands that leave the weekend days open. *)
Definition sample_bands : list CoverageBand :=
  [band "a" High "07:00" "21:00" "0,1,2,3,4" ""; band "b" Low "21:00:00" "07:00" "" ""].

Lemma sample_bands_valid : Forall valid_times sample_bands.
Proof.
  constructor; [|constructor; [|constructor]]; intros s H; vm_compute in H; destruct H as [[= <-]|[= <-]];
    split; vm_compute; reflexivity.
Qed.

Lemma bandCoverage_gaps_exact_witness :
  (∃ g, g ∈ gaps (bandCoverage cmp_texts sample_bands None) ∧
     1 ∈ gap_months g ∧ 6 ∈ gap_weekdays g ∧ within (gap_start g) (of_Z 36000) (gap_end g) = true) ↔
  version_reachable None 1 6 = true ∧
  ∀ b, b ∈ sample_bands → prices 1 6 (of_Z 36000) b = false ∧ catches 1 6 b = false.
Proof.
  apply (bandCoverage_gaps_exact cmp_texts sample_bands None 1 6 (of_Z 36000));
    [apply sample_bands_valid|lia|lia|vm_compute; reflexivity|vm_compute; reflexivity].
Defined.

Lemma bandCoverage_flags_witness :
  uncovered (bandCoverage cmp_texts sample_bands None) = true ∧
  ∃ m d t, (1 <= m <= 12 ∧ 0 <= d <= 6 ∧ version_reachable None m d = true ∧
    num_le (of_Z 0) t = true ∧ num_lt t DAY = true) ∧
    ∀ b, b ∈ sample_bands → prices m d t b = false ∧ catches m d b = false.
Proof.
  assert (uncovered (bandCoverage cmp_texts sample_bands None) = true) as H by (vm_compute; reflexivity).
  split; [exact H|]. apply (bandCoverage_flags cmp_texts sample_bands None sample_bands_valid). exact H.
Defined.
