(* ===== verification/Validity.v ===== *)
(** Where the versions of a tariff stand relative to a day
    (features/tariffs/validity.ts, tariffOverview.ts, datePresentation.ts): the
    validity state, the version a list row stands for, and the overview's three
    groups, shown to partition the series. *)

From S2P Require Import Prelude JsString TariffTypes.
Local Open Scope string_scope.

Inductive ValidityState := Active | Scheduled | Expired.
#[export] Instance ValidityState_eq_dec : EqDecision ValidityState.
Proof. solve_decision. Defined.

(** ** Model of validity.ts *)

Definition validityState (tariff : Tariff) (today : string) : ValidityState :=
  if str_lt today (valid_from tariff) then Scheduled
  else if truthy_str (valid_to tariff) && str_lt (default "" (valid_to tariff)) today then Expired
  else Active.

Definition has_state (s : ValidityState) (today : string) (tariff : Tariff) : bool :=
  bool_decide (validityState tariff today = s).

(** [has_state] of a version, which extends the tariff record. *)
Definition in_state (s : ValidityState) (today : string) (version : TariffVersion) : bool := has_state s today version.

Definition isTariffCurrentlyValid (tariff : Tariff) (today : string) : bool := has_state Active today tariff.

Definition hasUpcomingVersion (versions : list Tariff) (today : string) : bool :=
  existsb (has_state Scheduled today) versions.

(** [a ?? b]. *)
Definition or_else {A} (a b : option A) : option A := match a with Some _ => a | None => b end.

(** [versions[0]] of no version is [undefined]. *)
Definition listedVersion (versions : list TariffVersion) (today : string) (upcoming : bool) : option TariffVersion :=
  let next := find_last (in_state Scheduled today) versions in
  if upcoming && bool_decide (is_Some next) then next
  else or_else (find_first (in_state Active today) versions) (or_else next (head versions)).

Record TariffOverviewRow := {
  row_series : TariffSeries;
  row_version : TariffVersion;
  row_upcomingVersion : option TariffVersion;
}.

Record TariffOverview := {
  current : list TariffOverviewRow;
  upcoming : list TariffOverviewRow;
  history : list TariffOverviewRow;
}.

(** One turn of the loop of [tariffOverview]. *)
Definition overview_step (today : string) (overview : TariffOverview) (entry : TariffSeries) : TariffOverview :=
  let active := find_first (in_state Active today) (versions entry) in
  let next := find_last (in_state Scheduled today) (versions entry) in
  let ended := find_first (in_state Expired today) (versions entry) in
  match active, next, ended with
  | Some v, _, _ =>
      {| current := current overview ++ [{| row_series := entry; row_version := v; row_upcomingVersion := next |}];
         upcoming := upcoming overview; history := history overview |}
  | None, Some v, _ =>
      {| current := current overview;
         upcoming := upcoming overview ++ [{| row_series := entry; row_version := v; row_upcomingVersion := None |}];
         history := history overview |}
  | None, None, Some v =>
      {| current := current overview; upcoming := upcoming overview;
         history := history overview ++ [{| row_series := entry; row_version := v; row_upcomingVersion := None |}] |}
  | None, None, None => overview
  end%list.

Definition tariffOverview (series : list TariffSeries) (today : string) : TariffOverview :=
  foldl (overview_step today) {| current := []; upcoming := []; history := [] |} series.

(** ** Model of tariffOverview.ts *)

Inductive TariffValidityFilter := FilterValid | FilterAll.

Record TariffOverviewParams := { params_zev_id : string; params_scope : TariffValidityFilter }.

Definition tariffOverviewParams (zevId : string) (validityFilter : TariffValidityFilter) : TariffOverviewParams :=
  {| params_zev_id := zevId;
     params_scope := match validityFilter with FilterAll => FilterAll | FilterValid => FilterValid end |}.

Definition tariffOverviewFilename (asOfIso : string) : string := "tariff-overview-" ++ asOfIso ++ ".pdf".

(** ** Model of datePresentation.ts *)

Record DatePart := { part_text : string; part_strong : bool }.

Definition is_separator (c : ascii) : bool := Ascii.eqb c "." || Ascii.eqb c "/" || Ascii.eqb c "-".

(** [text.split(/([./-])/)]: fields at the even places, separators between them. *)
Fixpoint split_fields (text : string) : list string :=
  match text with
  | "" => [""]
  | String c rest =>
      if is_separator c then "" :: String c "" :: split_fields rest
      else match split_fields rest with
           | [] => [String c ""]
           | f :: fs => String c f :: fs
           end
  end.

Definition strong_field (fields : list string) (withMonth : bool) (index : nat) : bool :=
  let f := default "undefined" (fields !! index) in
  String.eqb f "yyyy" || (withMonth && String.eqb f "MM").

Definition add_part (runs : list DatePart) (text : string) (strong : bool) : list DatePart :=
  match last runs with
  | Some p =>
      if Bool.eqb (part_strong p) strong
      then removelast runs ++ [{| part_text := (part_text p ++ text)%string; part_strong := strong |}]
      else runs ++ [{| part_text := text; part_strong := strong |}]
  | None => [{| part_text := text; part_strong := strong |}]
  end%list.

Fixpoint date_parts (fields : list string) (withMonth : bool) (index : nat) (texts : list string)
    (runs : list DatePart) : list DatePart :=
  match texts with
  | [] => runs
  | text :: rest =>
      let strong := if Nat.even index then strong_field fields withMonth index
        else strong_field fields withMonth (index - 1) && strong_field fields withMonth (index + 1) in
      date_parts fields withMonth (S index) rest (add_part runs text strong)
  end.

Definition emphasizedDate (formatted pattern : string) (withMonth : bool) : list DatePart :=
  let fields := split_fields pattern in
  let texts := split_fields formatted in
  if negb (length fields =? length texts)%nat then [{| part_text := formatted; part_strong := false |}]
  else date_parts fields withMonth 0 texts [].

(** ** The state of a version *)

Lemma has_state_true s today v : has_state s today v = true ↔ validityState v today = s.
Proof. apply bool_decide_eq_true. Qed.
Lemma in_state_true s today v : in_state s today v = true ↔ validityState (version_tariff v) today = s.
Proof. apply bool_decide_eq_true. Qed.

(** Both bounds are inclusive; a missing or blank end is open. *)
Theorem validityState_spec tariff today :
  match validityState tariff today with
  | Scheduled => str_lt today (valid_from tariff) = true
  | Active => str_le (valid_from tariff) today = true ∧
      (truthy_str (valid_to tariff) = true → str_le today (default "" (valid_to tariff)) = true)
  | Expired => str_le (valid_from tariff) today = true ∧ truthy_str (valid_to tariff) = true ∧
      str_lt (default "" (valid_to tariff)) today = true
  end.
Proof.
  unfold validityState. destruct (str_lt today _) eqn:E; [done|]. rewrite str_lt_false in E.
  destruct (truthy_str _) eqn:E1; simpl; [|done].
  destruct (str_lt _ today) eqn:E2; [done|]. by rewrite str_lt_false in E2.
Qed.

Lemma some_state (v : TariffVersion) today : in_state Active today v = false → in_state Scheduled today v = false →
  in_state Expired today v = true.
Proof. unfold in_state, has_state. rewrite !bool_decide_eq_false, bool_decide_eq_true. by destruct (validityState v today). Qed.

(** ** The overview *)

(** The group a series belongs to. *)
Definition in_force (today : string) (s : TariffSeries) : bool := existsb (in_state Active today) (versions s).
Definition coming (today : string) (s : TariffSeries) : bool :=
  negb (in_force today s) && existsb (in_state Scheduled today) (versions s).
Definition ended (today : string) (s : TariffSeries) : bool :=
  negb (in_force today s) && negb (coming today s) && negb (bool_decide (length (versions s) = 0)%nat).

Definition row_ok (today : string) (s : ValidityState) (r : TariffOverviewRow) : Prop :=
  row_version r ∈ versions (row_series r) ∧ validityState (row_version r) today = s.

Lemma existsb_find {A} (p : A → bool) l : existsb p l = bool_decide (is_Some (find_first p l)).
Proof.
  unfold find_first. induction l as [|x l IH]; [done|]. simpl. destruct (p x); [|done].
  symmetry. apply bool_decide_eq_true. eauto.
Qed.

Lemma existsb_find_last {A} (p : A → bool) l : existsb p l = bool_decide (is_Some (find_last p l)).
Proof.
  unfold find_last. fold (find_first p (rev l)). rewrite <- existsb_find.
  apply eq_true_iff_eq. rewrite !existsb_exists. by setoid_rewrite <- in_rev.
Qed.

Definition overview_inv (today : string) (done : list TariffSeries) (o : TariffOverview) : Prop :=
  row_series <$> current o = bfilter (in_force today) done ∧
  row_series <$> upcoming o = bfilter (coming today) done ∧
  row_series <$> history o = bfilter (ended today) done ∧
  Forall (row_ok today Active) (current o) ∧ Forall (row_ok today Scheduled) (upcoming o) ∧
  Forall (row_ok today Expired) (history o).

Lemma row_ok_find today s entry v next :
  find_first (in_state s today) (versions entry) = Some v ∨ find_last (in_state s today) (versions entry) = Some v →
  row_ok today s {| row_series := entry; row_version := v; row_upcomingVersion := next |}.
Proof.
  intros [[Hv Hs]%find_first_Some|[Hv Hs]%find_last_Some]; (split; [done|]); by apply in_state_true.
Qed.

Lemma overview_step_inv today done o entry :
  overview_inv today done o → overview_inv today (done ++ [entry]) (overview_step today o entry).
Proof.
  intros (H1 & H2 & H3 & H4 & H5 & H6). unfold overview_inv. rewrite !bfilter_snoc.
  assert (in_force today entry = bool_decide (is_Some (find_first (in_state Active today) (versions entry)))) as Ef.
  { unfold in_force. apply existsb_find. }
  assert (existsb (in_state Scheduled today) (versions entry)
    = bool_decide (is_Some (find_last (in_state Scheduled today) (versions entry)))) as Ec.
  { apply existsb_find_last. }
  unfold ended, coming. rewrite Ef, Ec. unfold overview_step.
  destruct (find_first (in_state Active today) (versions entry)) as [v|] eqn:Ea; simpl.
  { rewrite !app_nil_r, fmap_app, H1. split_and!; try done. apply Forall_app. split; [done|].
    constructor; [|done]. apply row_ok_find. auto. }
  destruct (find_last (in_state Scheduled today) (versions entry)) as [v|] eqn:Es; simpl.
  { rewrite !app_nil_r, fmap_app, H2. split_and!; try done. apply Forall_app. split; [done|].
    constructor; [|done]. apply row_ok_find. auto. }
  rewrite find_first_None in Ea. rewrite find_last_None in Es.
  destruct (find_first (in_state Expired today) (versions entry)) as [v|] eqn:Ee; simpl.
  - assert (length (versions entry) ≠ 0)%nat as Hl.
    { apply find_first_Some in Ee as [Hv _]. by destruct (versions entry); [apply elem_of_nil in Hv|]. }
    rewrite bool_decide_eq_false_2 by done. simpl.
    rewrite !app_nil_r, fmap_app, H3. split_and!; try done. apply Forall_app. split; [done|].
    constructor; [|done]. apply row_ok_find. auto.
  - rewrite find_first_None in Ee. rewrite bool_decide_eq_true_2; simpl; rewrite ?app_nil_r; [done|].
    destruct (versions entry) as [|v vs]; [done|]. exfalso.
    pose proof (some_state v today (Ea v (list_elem_of_here _ _)) (Es v (list_elem_of_here _ _))).
    by rewrite Ee in * by (by left).
Qed.

Lemma overview_inv_foldl today series done o :
  overview_inv today done o → overview_inv today (done ++ series) (foldl (overview_step today) o series).
Proof.
  revert done o; induction series as [|s series IH]; intros done o H; simpl; [by rewrite app_nil_r|].
  rewrite cons_middle, app_assoc. by apply IH, overview_step_inv.
Qed.

(** Every series with a version is in exactly one group, in the order of the
    input: in force when one of its versions is, else coming when one is
    scheduled, else ended; its row stands for a version in that state. *)
Theorem tariffOverview_partition series today :
  overview_inv today series (tariffOverview series today).
Proof.
  apply (overview_inv_foldl today series [] {| current := []; upcoming := []; history := [] |}).
  by repeat split.
Qed.

(** Newest first, as the series endpoint sends the versions. *)
Definition newest_first (vs : list TariffVersion) : Prop :=
  StronglySorted (λ a b : TariffVersion, str_le (valid_from b) (valid_from a) = true) vs.

Lemma find_last_nearest vs (p : TariffVersion → bool) v :
  newest_first vs → find_last p vs = Some v →
  ∀ w : TariffVersion, w ∈ vs → p w = true → str_le (valid_from v) (valid_from w) = true.
Proof.
  intros Hs. unfold find_last. induction Hs as [|x l Hs IH Hx]; simpl; [by intros|].
  rewrite Forall_forall in Hx.
  assert (List.find p (rev l ++ [x]) =
    or_else (List.find p (rev l)) (if p x then Some x else None)) as ->.
  { clear. induction (rev l) as [|y m IH]; simpl; [by destruct (p x)|]. by destruct (p y). }
  destruct (List.find _ (rev l)) as [u|] eqn:E; simpl.
  - intros [= <-] w [->|Hw]%elem_of_cons Hp; [|by apply IH].
    destruct (find_last_Some _ _ _ E) as [Hu _]. by apply Hx.
  - destruct (p x) eqn:Ep; [|done]. intros [= <-] w [->|Hw]%elem_of_cons Hp; [apply str_le_refl|].
    apply (find_last_None p) with (x := w) in E; [congruence|done].
Qed.

(** The version a row stands for: the one in force, otherwise the scheduled one
    that starts next, otherwise the newest; the Upcoming view prefers the next. *)
Theorem listedVersion_spec vs today up v :
  newest_first vs → listedVersion vs today up = Some v →
  v ∈ vs ∧
  match validityState v today with
  | Active => up = true → ∀ w, w ∈ vs → validityState (version_tariff w) today ≠ Scheduled
  | Scheduled => (∀ w : TariffVersion, w ∈ vs → validityState w today = Scheduled →
        str_le (valid_from v) (valid_from w) = true)
      ∧ (up = false → ∀ w, w ∈ vs → validityState (version_tariff w) today ≠ Active)
  | Expired => (∀ w, w ∈ vs → validityState (version_tariff w) today = Expired)
      ∧ ∀ w : TariffVersion, w ∈ vs → str_le (valid_from w) (valid_from v) = true
  end.
Proof.
  intros Hs. unfold listedVersion.
  destruct (find_last (in_state Scheduled today) vs) as [n|] eqn:En.
  - destruct (find_last_Some _ _ _ En) as [Hn Hsn]. apply in_state_true in Hsn.
    assert (∀ w : TariffVersion, w ∈ vs → validityState w today = Scheduled →
      str_le (valid_from n) (valid_from w) = true) as Hnear.
    { intros w Hw Hst. apply (find_last_nearest _ _ _ Hs En); [done|]. by apply in_state_true. }
    destruct up; simpl; [intros [= <-]; by rewrite Hsn|].
    destruct (find_first (in_state Active today) vs) as [a|] eqn:Ea; simpl; intros [= <-].
    + destruct (find_first_Some _ _ _ Ea) as [Ha Hst]. apply in_state_true in Hst. by rewrite Hst.
    + rewrite Hsn. split; [done|]. split; [done|]. intros _ w Hw Hst. rewrite find_first_None in Ea.
      specialize (Ea w Hw). by apply bool_decide_eq_false in Ea.
  - rewrite andb_false_r. rewrite find_last_None in En.
    assert (∀ w, w ∈ vs → validityState (version_tariff w) today ≠ Scheduled) as Hno.
    { intros w Hw. specialize (En w Hw). by apply bool_decide_eq_false in En. }
    destruct (find_first (in_state Active today) vs) as [a|] eqn:Ea; simpl; [intros [= <-]|].
    { destruct (find_first_Some _ _ _ Ea) as [Ha Hst]. apply in_state_true in Hst. by rewrite Hst. }
    rewrite find_first_None in Ea. destruct Hs as [|x l Hs Hx]; [done|]. intros [= <-].
    assert (∀ w, w ∈ x :: l → validityState (version_tariff w) today = Expired) as He.
    { intros w Hw. apply in_state_true, some_state; auto. }
    rewrite (He x) by (by left). split; [by left|]. split; [done|].
    intros w [->|Hw]%elem_of_cons; [apply str_le_refl|]. rewrite Forall_forall in Hx. by apply Hx.
Qed.

(** ** The emphasized date *)

Definition parts_text (runs : list DatePart) : string := join "" (part_text <$> runs).

Lemma join_cons x l : join "" (x :: l) = x ++ join "" l.
Proof. destruct l; [by rewrite str_app_nil_r|done]. Qed.

Lemma join_snoc l x : join "" (l ++ [x]) = join "" l ++ x.
Proof.
  induction l as [|y l IH]; [done|]. change ((y :: l) ++ [x])%list with (y :: (l ++ [x]))%list.
  by rewrite !join_cons, IH, str_app_assoc.
Qed.

Lemma add_part_text runs text strong : parts_text (add_part runs text strong) = parts_text runs ++ text.
Proof.
  unfold parts_text, add_part. destruct (last runs) as [p|] eqn:E.
  2: { by apply last_None in E as ->. }
  apply last_Some in E as [runs' ->]. rewrite removelast_last.
  destruct (Bool.eqb _ _); rewrite !fmap_app, !fmap_cons, !fmap_nil, !join_snoc; [|done].
  cbn [part_text]. by rewrite str_app_assoc.
Qed.

Lemma join_split_fields s : join "" (split_fields s) = s.
Proof.
  induction s as [|c s IH]; [done|]. cbn [split_fields]. destruct (is_separator c).
  - by rewrite !join_cons, IH.
  - destruct (split_fields s) as [|f fs]; [by rewrite <- IH|]. rewrite join_cons in *. by rewrite <- IH.
Qed.

(** The parts are the formatted text cut in pieces: nothing is lost. *)
Theorem emphasizedDate_text formatted pattern withMonth :
  parts_text (emphasizedDate formatted pattern withMonth) = formatted.
Proof.
  unfold emphasizedDate. destruct (negb _); [done|].
  assert (∀ texts index runs, parts_text (date_parts (split_fields pattern) withMonth index texts runs)
    = parts_text runs ++ join "" texts) as H.
  { induction texts as [|t texts IH]; intros index runs; cbn [date_parts]; [by rewrite str_app_nil_r|].
    by rewrite IH, add_part_text, str_app_assoc, join_cons. }
  rewrite H. apply join_split_fields.
Qed.

Example emphasized_ex :
  (λ p, (part_text p, part_strong p)) <$> emphasizedDate "01.11.2026" "dd.MM.yyyy" true
  = [("01.", false); ("11.2026", true)].
Proof. by vm_compute. Qed.

Lemma listedVersion_spec_witness :
  let v2 := sample_version "b" "2027-01-01" None [] in
  let v1 := sample_version "a" "2026-01-01" (Some "2026-12-31") [] in
  newest_first [v2; v1] ∧ listedVersion [v2; v1] "2026-05-01" false = Some v1 ∧
  v1 ∈ [v2; v1] ∧ validityState v1 "2026-05-01" = Active.
Proof.
  intros v2 v1.
  assert (newest_first [v2; v1]) as Hs by (repeat constructor).
  assert (listedVersion [v2; v1] "2026-05-01" false = Some v1) as Hl by (vm_compute; reflexivity).
  split; [exact Hs|]. split; [exact Hl|].
  destruct (listedVersion_spec [v2; v1] "2026-05-01" false v1 Hs Hl) as [H _].
  split; [exact H|vm_compute; reflexivity].
Defined.
