(* ===== verification/Progression.v ===== *)
(** The combined price over time (features/tariffs/progression/progression.ts):
    the step-chart dataset, the interval, line and composition in force on a
    day, the label of a line and the merged list of what the totals lack.

    The merged issues are proved to cover exactly the days of the intervals that
    list them. *)

From S2P Require Import Prelude JsString JsNumber JsDate TariffTypes Recurrence.
Local Open Scope string_scope.

(** ** The API's progression records *)

Inductive TariffProgressionVatMode := NotRegistered | Registered | Inclusive.
#[export] Instance VatMode_eq_dec : EqDecision TariffProgressionVatMode.
Proof. solve_decision. Defined.
Inductive TariffProgressionEnergyType := ProgGrid | ProgLocal | ProgFeedIn.
Inductive TariffProgressionIncompleteReason := DynamicPartial | DynamicNoData | DynamicBase | NoBands.
#[export] Instance Reason_eq_dec : EqDecision TariffProgressionIncompleteReason.
Proof. solve_decision. Defined.

Record ProgressionWindow := { window_from : string; window_to : string }.

Record TariffProgressionRule := {
  rule_months : list Z;
  rule_weekdays : list Z;
  rule_windows : list ProgressionWindow;
}.

Record TariffProgressionComponent := {
  component_tariff_id : string;
  component_name : string;
  component_billing_mode : TariffBillingMode;
  component_band_period_id : option string;
  component_net : string;
  component_gross : option string;
  component_dynamic : bool;
  component_coverage : option string;
  component_percentage : option string;
  component_base_net : option string;
}.

Record TariffProgressionSubtotal := {
  subtotal_category : TariffCategory;
  subtotal_net : string;
  subtotal_gross : option string;
  subtotal_components : list TariffProgressionComponent;
}.

Record TariffProgressionSlot := {
  slot_line : string;
  slot_net : string;
  slot_gross : option string;
  slot_categories : list TariffProgressionSubtotal;
}.

Record IncompleteItem := {
  incomplete_tariff_id : string;
  incomplete_name : string;
  incomplete_reason : TariffProgressionIncompleteReason;
}.

Record TariffProgressionInterval := {
  interval_from : string;
  interval_to : string;
  interval_vat_rate : option string;
  missing_categories : list TariffCategory;
  incomplete : list IncompleteItem;
  slots : list TariffProgressionSlot;
}.

Inductive FeeUnit := FeeMonth | FeeYear.
#[export] Instance FeeUnit_eq_dec : EqDecision FeeUnit.
Proof. solve_decision. Defined.
Inductive FeeScope := ScopeParticipant | ScopeMeteringPoint | ScopeCommunity.

Record FeeVersion := {
  fee_tariff_id : string;
  fee_valid_from : string;
  fee_valid_to : option string;
  fee_amount_net : string;
  fee_amount_gross : option string;
  fee_vat_rate : option string;
}.

Record TariffProgressionFixedFee := {
  fee_name : string;
  fee_category : TariffCategory;
  fee_billing_mode : TariffBillingMode;
  fee_unit : FeeUnit;
  fee_scope : FeeScope;
  fee_split_key : option SplitKey;
  fee_versions : list FeeVersion;
}.

Record ProgressionLine := { line_key : string; line_rules : list TariffProgressionRule }.

Record TariffProgression := {
  progression_zev : string;
  progression_energy_type : TariffProgressionEnergyType;
  progression_vat_mode : TariffProgressionVatMode;
  progression_from : string;
  progression_to : string;
  expected_categories : list TariffCategory;
  lines : list ProgressionLine;
  intervals : list TariffProgressionInterval;
  fixed_fees : list TariffProgressionFixedFee;
}.

(** ** Model of progression.ts *)

Inductive PriceBasis := NetBasis | GrossBasis.
#[export] Instance PriceBasis_eq_dec : EqDecision PriceBasis.
Proof. solve_decision. Defined.

(** [None] is NaN: the text is not a date. *)
Definition dayMs (isoDate : string) : option Z := parse_utc_midnight isoDate.

Definition hasGross (vatMode : TariffProgressionVatMode) : bool := negb (bool_decide (vatMode = NotRegistered)).

Definition valueOf (net : string) (gross : option string) (basis : PriceBasis) : string :=
  match basis, gross with GrossBasis, Some g => g | _, _ => net end.

(** [{ t } & Record<string, number | null>]; [None] is null. *)
Definition ProgressionPoint : Type := list (string * option num).

Definition ms_num (ms : option Z) : num := match ms with Some n => of_Z n | None => nan end.

Record FlaggedStretch := { flagged_from : option Z; flagged_to : option Z }.

Record ProgressionChartData := {
  chart_points : list ProgressionPoint;
  chart_flagged : list FlaggedStretch;
}.

Definition line_value (basis : PriceBasis) (interval : TariffProgressionInterval) (line : ProgressionLine) : option num :=
  let byLine := omap_of ((λ s, (slot_line s, s)) <$> slots interval) in
  (λ s, to_number (valueOf (slot_net s) (slot_gross s) basis)) <$> omap_get (line_key line) byLine.

Definition valuesOf (lines : list ProgressionLine) (basis : PriceBasis) (interval : TariffProgressionInterval)
    : list (string * option num) :=
  omap_of ((λ line, (line_key line, line_value basis interval line)) <$> lines).

Definition chart_point (t : option Z) (values : list (string * option num)) : ProgressionPoint :=
  foldl (λ p kv, omap_set kv.1 kv.2 p) [("t", Some (ms_num t))] values.

Definition is_flagged (interval : TariffProgressionInterval) : bool :=
  (length (slots interval) =? 0)%nat || (0 <? length (missing_categories interval))%nat
  || (0 <? length (incomplete interval))%nat.

Definition buildChartData (progression : TariffProgression) (basis : PriceBasis) : ProgressionChartData :=
  let values := valuesOf (lines progression) basis in
  let points := (λ i, chart_point (dayMs (interval_from i)) (values i)) <$> intervals progression in
  {| chart_points := points ++
       match last (intervals progression) with
       | Some l => [chart_point (dayMs (interval_to l)) (values l)]
       | None => []
       end;
     chart_flagged := (λ i, {| flagged_from := dayMs (interval_from i);
                               flagged_to := (λ ms, (ms + DAY_MS)%Z) <$> dayMs (interval_to i) |})
       <$> bfilter is_flagged (intervals progression) |}.

Definition intervalOn (progression : TariffProgression) (day : string) : option TariffProgressionInterval :=
  find_first (λ i, str_le (interval_from i) day && str_le day (interval_to i)) (intervals progression).

Definition clampDay (day from to : string) : string :=
  if str_lt day from then from else if str_lt to day then to else day.

Definition compositionOn (progression : TariffProgression) (day lineKey : string)
    : option (TariffProgressionInterval * TariffProgressionSlot) :=
  match intervalOn progression day with
  | Some interval => (λ s, (interval, s)) <$> find_first (λ c, String.eqb (slot_line c) lineKey) (slots interval)
  | None => None
  end.

Definition lineOn (progression : TariffProgression) (day : string) (preferred : option string) : option string :=
  match intervalOn progression day with
  | None => preferred
  | Some interval =>
      match slots interval with
      | [] => preferred
      | first :: _ =>
          if existsb (λ s, bool_decide (Some (slot_line s) = preferred)) (slots interval) then preferred
          else Some (slot_line first)
      end
  end.

Definition ALL_HOURS : ProgressionWindow := {| window_from := "00:00"; window_to := "24:00" |}.

Definition isAllDay (rule : TariffProgressionRule) : bool :=
  match rule_windows rule with
  | [w] => String.eqb (window_from w) (window_from ALL_HOURS) && String.eqb (window_to w) (window_to ALL_HOURS)
  | _ => false
  end.

Definition lineLabel (rules : list TariffProgressionRule) (t : string → string) (dayNames monthNames : list string) : string :=
  let allHours := t "pages.tariffs.progression.allHours" in
  let always := match rules with
    | [r] => (length (rule_months r) =? 12)%nat && (length (rule_weekdays r) =? 7)%nat && isAllDay r
    | _ => false end in
  if always then allHours
  else
    let part r := join " " (bfilter nonempty
      [formatSeason (Some (join "," (Zstr <$> rule_months r))) monthNames;
       formatWeekdays (Some (join "," (Zstr <$> rule_weekdays r))) dayNames;
       if isAllDay r then "" else join ", " ((λ w, window_from w ++ "–" ++ window_to w) <$> rule_windows r)]) in
    join "; " ((λ p, if nonempty p then p else allHours) <$> (part <$> rules)).

(** ['missing' | TariffProgressionIncompleteReason]. *)
Inductive IssueKind := Missing | Incomplete (reason : TariffProgressionIncompleteReason).
#[export] Instance IssueKind_eq_dec : EqDecision IssueKind.
Proof. solve_decision. Defined.

Definition kind_text (k : IssueKind) : string :=
  match k with
  | Missing => "missing"
  | Incomplete DynamicPartial => "dynamic_partial"
  | Incomplete DynamicNoData => "dynamic_no_data"
  | Incomplete DynamicBase => "dynamic_base"
  | Incomplete NoBands => "no_bands"
  end.

Definition category_text (c : TariffCategory) : string :=
  match c with CatEnergy => "energy" | CatGridFees => "grid_fees" | CatLevies => "levies" | CatMetering => "metering" end.

Record ProgressionIssue := {
  issue_kind : IssueKind;
  issue_subject : string;
  issue_from : string;
  issue_to : string;
}.

(** [None] stands for the RangeError of [toISOString] on an invalid date. *)
Definition dayAfter (isoDate : string) : option string :=
  (λ ms, to_iso_slice (ms + DAY_MS)) <$> dayMs isoDate.

Definition issue_key (kind : IssueKind) (subject : string) : string := kind_text kind ++ "|" ++ subject.

Definition found_in (interval : TariffProgressionInterval) : list (IssueKind * string) :=
  ((λ c, (Missing, category_text c)) <$> missing_categories interval)
  ++ ((λ i, (Incomplete (incomplete_reason i), incomplete_name i)) <$> incomplete interval).

Record issue_state := { open : list (string * ProgressionIssue); done_issues : list ProgressionIssue }.

(** One entry of [found]: extend the open issue of its key when it ended the day
    before, otherwise close it and open a new one. *)
Definition note_issue (interval : TariffProgressionInterval) (st : issue_state) (f : IssueKind * string) : issue_state :=
  let '(kind, subject) := f in
  let key := issue_key kind subject in
  let fresh := {| issue_kind := kind; issue_subject := subject;
                  issue_from := interval_from interval; issue_to := interval_to interval |} in
  match omap_get key (open st) with
  | Some cur =>
      if bool_decide (dayAfter (issue_to cur) = Some (interval_from interval))
      then {| open := omap_set key {| issue_kind := issue_kind cur; issue_subject := issue_subject cur;
                                      issue_from := issue_from cur; issue_to := interval_to interval |} (open st);
              done_issues := done_issues st |}
      else {| open := omap_set key fresh (open st); done_issues := done_issues st ++ [cur] |}
  | None => {| open := omap_set key fresh (open st); done_issues := done_issues st |}
  end.

(** The issues whose key the interval does not list are done. *)
Definition close_absent (present : list string) (st : issue_state) : issue_state :=
  {| open := bfilter (λ kv, oset_has kv.1 present) (open st);
     done_issues := done_issues st ++ (bfilter (λ kv, negb (oset_has kv.1 present)) (open st)).*2 |}.

Definition issue_step (st : issue_state) (interval : TariffProgressionInterval) : issue_state :=
  let found := found_in interval in
  close_absent ((λ '(k, s), issue_key k s) <$> found) (foldl (note_issue interval) st found).

Definition progressionIssues (progression : TariffProgression) : list ProgressionIssue :=
  let st := foldl issue_step {| open := []; done_issues := [] |} (intervals progression) in
  sort_by (λ l r, str_le (issue_from l) (issue_from r)) (done_issues st ++ (open st).*2).

Record FeeGroups := { fees_month : list TariffProgressionFixedFee; fees_year : list TariffProgressionFixedFee }.

Definition groupFees (fees : list TariffProgressionFixedFee) : FeeGroups :=
  {| fees_month := bfilter (λ f, bool_decide (fee_unit f = FeeMonth)) fees;
     fees_year := bfilter (λ f, bool_decide (fee_unit f = FeeYear)) fees |}.

Definition fee_in_force (day : string) (v : FeeVersion) : bool :=
  str_le (fee_valid_from v) day && (negb (truthy_str (fee_valid_to v)) || str_le day (default "" (fee_valid_to v))).

Definition feeVersionOn (fee : TariffProgressionFixedFee) (day : string) : option FeeVersion :=
  match find_first (fee_in_force day) (fee_versions fee) with
  | Some v => Some v
  | None =>
      match last (bfilter (λ v, str_le (fee_valid_from v) day) (fee_versions fee)) with
      | Some v => Some v
      | None => head (fee_versions fee)
      end
  end.

(** ** The merged issues *)

(** An interval (or issue) from day [a] to day [b], inside the four-digit years. *)
Definition dated (from to : string) (a b : Z) : Prop :=
  from = iso a ∧ to = iso b ∧ (a <= b)%Z ∧ iso_range a ∧ iso_range b ∧ iso_range (b + 1).

Definition on_days (from to : string) (n : Z) : Prop := str_le from (iso n) = true ∧ str_le (iso n) to = true.

Lemma on_days_dated from to a b n : dated from to a b → iso_range n → on_days from to n ↔ (a <= n <= b)%Z.
Proof.
  intros (-> & -> & _ & Ha & Hb & _) Hn. unfold on_days. rewrite !iso_le_days by done.
  rewrite !Z.leb_le. done.
Qed.

Lemma dayAfter_iso b : iso_range b → iso_range (b + 1) → dayAfter (iso b) = Some (iso (b + 1)).
Proof.
  intros Hb Hb1. unfold dayAfter, dayMs. rewrite iso_midnight by done.
  change ((λ ms, to_iso_slice (ms + DAY_MS)) <$> Some (b * DAY_MS)%Z)
    with (Some (to_iso_slice (b * DAY_MS + DAY_MS))).
  replace (b * DAY_MS + DAY_MS)%Z with ((b + 1) * DAY_MS)%Z by ring. by rewrite to_iso_slice_iso.
Qed.

Lemma issue_key_inj k1 s1 k2 s2 : issue_key k1 s1 = issue_key k2 s2 → k1 = k2 ∧ s1 = s2.
Proof.
  unfold issue_key. destruct k1 as [|[]], k2 as [|[]]; simpl; intros H; try discriminate H;
    repeat (injection H as H); by subst.
Qed.

Definition of_kind (k : IssueKind) (s : string) (i : ProgressionIssue) : Prop := issue_kind i = k ∧ issue_subject i = s.
Definition covers_day (i : ProgressionIssue) (n : Z) : Prop := on_days (issue_from i) (issue_to i) n.

(** Some issue of the kind and subject, done or open, covers the day. *)
Definition covered (st : issue_state) (k : IssueKind) (s : string) (n : Z) : Prop :=
  (∃ i, i ∈ done_issues st ∧ of_kind k s i ∧ covers_day i n) ∨
  (∃ i, omap_get (issue_key k s) (open st) = Some i ∧ covers_day i n).

Definition issues_inv (st : issue_state) : Prop :=
  NoDup (open st).*1 ∧ ∀ key i, omap_get key (open st) = Some i →
    key = issue_key (issue_kind i) (issue_subject i) ∧ ∃ a b, dated (issue_from i) (issue_to i) a b.

Lemma inv_of_kind st k s i : issues_inv st → omap_get (issue_key k s) (open st) = Some i → of_kind k s i.
Proof. intros [_ H] Hi. destruct (H _ _ Hi) as [Hk _]. apply issue_key_inj in Hk as [-> ->]. done. Qed.

Lemma inv_set st k s i :
  issues_inv st → of_kind k s i → (∃ a b, dated (issue_from i) (issue_to i) a b) → ∀ done,
  issues_inv {| open := omap_set (issue_key k s) i (open st); done_issues := done |}.
Proof.
  intros [Hn Hi] [Hk Hs] Hd done. split; [by apply NoDup_omap_set|]. intros key j Hj. cbn [open] in Hj.
  destruct (decide (key = issue_key k s)) as [->|Hne].
  - rewrite omap_get_set_eq in Hj. injection Hj as <-. by rewrite Hk, Hs.
  - rewrite omap_get_set_ne in Hj by done. by apply Hi.
Qed.

Lemma covered_set st k s i done k' s' n :
  covered {| open := omap_set (issue_key k s) i (open st); done_issues := done |} k' s' n ↔
    (∃ i, i ∈ done ∧ of_kind k' s' i ∧ covers_day i n) ∨
    (if decide (issue_key k' s' = issue_key k s) then covers_day i n
     else ∃ i, omap_get (issue_key k' s') (open st) = Some i ∧ covers_day i n).
Proof.
  unfold covered. cbn [open done_issues]. destruct (decide _) as [E|E].
  - rewrite E, omap_get_set_eq. naive_solver.
  - by rewrite omap_get_set_ne.
Qed.

Lemma note_issue_inv interval a b st k s :
  dated (interval_from interval) (interval_to interval) a b → issues_inv st →
  issues_inv (note_issue interval st (k, s)) ∧
  ∀ k' s' n, iso_range n → covered (note_issue interval st (k, s)) k' s' n ↔
    covered st k' s' n ∨ ((k', s') = (k, s) ∧ on_days (interval_from interval) (interval_to interval) n).
Proof.
  intros Hd Hst. cbn [note_issue]. pose proof Hd as (Ef & Et & Hab & Hra & Hrb & Hrb1).
  assert (∀ k' s', issue_key k' s' = issue_key k s ↔ (k', s') = (k, s)) as Hkey.
  { intros k' s'. split; [by intros [-> ->]%issue_key_inj|by intros [= -> ->]]. }
  destruct (omap_get (issue_key k s) (open st)) as [cur|] eqn:Eg.
  - pose proof (inv_of_kind _ _ _ _ Hst Eg) as [Hck Hcs].
    destruct (proj2 Hst _ _ Eg) as (_ & a0 & b0 & Hd0). pose proof Hd0 as (Ef0 & Et0 & Hab0 & Hra0 & Hrb0 & Hrb10).
    destruct (bool_decide _) eqn:Ec.
    + apply bool_decide_eq_true in Ec. rewrite Et0, dayAfter_iso, Ef in Ec by done.
      injection Ec as Ec. apply iso_inj_days in Ec; [|done|done]. subst a.
      set (i := {| issue_kind := issue_kind cur; issue_subject := issue_subject cur;
                   issue_from := issue_from cur; issue_to := interval_to interval |}).
      assert (dated (issue_from i) (issue_to i) a0 b) as Hdi by (refine (conj Ef0 (conj Et (conj _ (conj Hra0 (conj Hrb Hrb1))))); lia).
      split; [apply inv_set; [done|done|eauto]|]. intros k' s' n Hn. rewrite covered_set. unfold covered.
      destruct (decide _) as [E|E]; rewrite Hkey in E.
      * injection E as -> ->. rewrite Eg.
        assert (covers_day i n ↔ (a0 <= n <= b)%Z) as -> by (by apply on_days_dated).
        assert ((∃ j, Some cur = Some j ∧ covers_day j n) ↔ (a0 <= n <= b0)%Z) as ->.
        { unfold covers_day. rewrite <- (on_days_dated _ _ _ _ n Hd0) by done. naive_solver. }
        rewrite (on_days_dated _ _ _ _ n Hd) by done.
        assert (a0 <= n <= b ↔ a0 <= n <= b0 ∨ b0 + 1 <= n <= b)%Z as -> by lia. tauto.
      * tauto.
    + split; [apply inv_set; [done|done|by exists a, b]|]. intros k' s' n Hn. rewrite covered_set. unfold covered.
      rewrite exists_snoc. destruct (decide _) as [E|E]; rewrite Hkey in E.
      * injection E as -> ->. rewrite Eg, exists_Some. unfold of_kind at 2, covers_day at 2.
        cbn [issue_from issue_to]. tauto.
      * assert (¬ of_kind k' s' cur) as Hno by (intros [<- <-]; by rewrite Hck, Hcs in E). tauto.
  - split; [apply inv_set; [done|done|by exists a, b]|]. intros k' s' n Hn. rewrite covered_set. unfold covered.
    destruct (decide _) as [E|E]; rewrite Hkey in E; [|tauto].
    injection E as -> ->. rewrite Eg. unfold covers_day at 2. cbn [issue_from issue_to]. naive_solver.
Qed.

Lemma close_absent_inv present st :
  issues_inv st → issues_inv (close_absent present st) ∧
  ∀ k s n, covered (close_absent present st) k s n ↔ covered st k s n.
Proof.
  intros [Hn Hi]. unfold close_absent. split.
  - split; cbn [open]; [by apply (omap_keys_filter (λ k, oset_has k present))|].
    intros key i. unfold bfilter. rewrite (omap_get_filter (λ k, oset_has k present)).
    destruct (oset_has _ _); [apply Hi|done].
  - intros k s n. unfold covered. cbn [open done_issues]. unfold bfilter at 2.
    rewrite (omap_get_filter (λ k, oset_has k present)). setoid_rewrite elem_of_app.
    setoid_rewrite list_elem_of_fmap. setoid_rewrite elem_of_bfilter. split.
    + intros [(i & [?|([key i'] & -> & Hin & Hp)] & Hk & ?)|(i & Hg & ?)]; [eauto 6| |].
      * right. exists i'. split; [|done]. apply omap_elem_get in Hin; [|done].
        destruct (Hi _ _ Hin) as [-> _]. destruct Hk as [<- <-]. done.
      * right. destruct (oset_has _ _); [eauto|done].
    + intros [(i & ? & ? & ?)|(i & Hg & ?)]; [eauto 8|].
      destruct (oset_has (issue_key k s) present) eqn:E; [eauto|]. left. exists i.
      split; [|split; [|done]].
      * right. exists (issue_key k s, i). split; [done|]. split; [by apply omap_get_Some_elem|]. simpl. by rewrite E.
      * apply (inv_of_kind st); [done|done].
Qed.

Definition dated_interval (i : TariffProgressionInterval) : Prop :=
  ∃ a b, dated (interval_from i) (interval_to i) a b.

Lemma issue_step_inv st interval :
  dated_interval interval → issues_inv st →
  issues_inv (issue_step st interval) ∧
  ∀ k s n, iso_range n → covered (issue_step st interval) k s n ↔
    covered st k s n ∨ ((k, s) ∈ found_in interval ∧ on_days (interval_from interval) (interval_to interval) n).
Proof.
  intros (a & b & Hd) Hst. unfold issue_step.
  set (present := (λ '(k, s), issue_key k s) <$> found_in interval). generalize present. clear present.
  generalize (found_in interval). intros found present.
  enough (issues_inv (foldl (note_issue interval) st found) ∧
    ∀ k s n, iso_range n → covered (foldl (note_issue interval) st found) k s n ↔
      covered st k s n ∨ ((k, s) ∈ found ∧ on_days (interval_from interval) (interval_to interval) n)) as [H1 H2].
  { destruct (close_absent_inv present _ H1) as [H3 H4]. split; [done|]. intros k s n Hn. by rewrite H4, H2. }
  revert st Hst. induction found as [|[k0 s0] found IH]; intros st Hst; cbn [foldl].
  - split; [done|]. intros. rewrite elem_of_nil. tauto.
  - destruct (note_issue_inv interval a b st k0 s0 Hd Hst) as [H1 H2].
    destruct (IH _ H1) as [H3 H4]. split; [done|]. intros k s n Hn. rewrite H4, H2, elem_of_cons by done. tauto.
Qed.

(** C26. The issues shown say exactly which days lack what: a day is covered by an
    issue of a kind and subject if and only if an interval that contains the
    day lists it; and they come in the order of their first days. *)
Theorem progressionIssues_cover progression k s n :
  Forall dated_interval (intervals progression) → iso_range n →
  ((∃ i, i ∈ progressionIssues progression ∧ of_kind k s i ∧ on_days (issue_from i) (issue_to i) n) ↔
   ∃ i, i ∈ intervals progression ∧ (k, s) ∈ found_in i ∧ on_days (interval_from i) (interval_to i) n)
  ∧ Sorted (λ l r, str_le (issue_from l) (issue_from r) = true) (progressionIssues progression).
Proof.
  intros Hd Hn. split.
  2: { apply sort_by_sorted. intros. apply str_le_total. }
  unfold progressionIssues. setoid_rewrite elem_of_sort_by.
  assert (∀ st, issues_inv st → issues_inv (foldl issue_step st (intervals progression)) ∧
    (covered (foldl issue_step st (intervals progression)) k s n ↔ covered st k s n ∨
      ∃ i, i ∈ intervals progression ∧ (k, s) ∈ found_in i ∧ on_days (interval_from i) (interval_to i) n)) as H.
  { induction Hd as [|i l Hi Hd IH]; intros st Hst; cbn [foldl].
    - split; [done|]. setoid_rewrite elem_of_nil. naive_solver.
    - destruct (issue_step_inv st i Hi Hst) as [H1 H2]. destruct (IH _ H1) as [H3 H4].
      split; [done|]. rewrite H4, H2 by done. setoid_rewrite elem_of_cons. split; [naive_solver|].
      intros [?|(j & [->|Hj] & ?)]; [by left; left|by left; right|]. right. by exists j. }
  destruct (H {| open := []; done_issues := [] |}) as [[Hnd Hinv] H2].
  { split; [constructor|done]. }
  set (st := foldl issue_step _ _) in *. transitivity (covered st k s n).
  - unfold covered. setoid_rewrite elem_of_app. setoid_rewrite list_elem_of_fmap. split.
    + intros (i & [?|([key i'] & -> & Hin)] & Hk & ?); [left; eauto|]. right. exists i'.
      apply omap_elem_get in Hin; [|done]. destruct (Hinv _ _ Hin) as [-> _]. destruct Hk as [<- <-]. done.
    + intros [(i & ? & ? & ?)|(i & Hg & ?)]; [eauto 6|]. exists i. split; [|split; [|done]].
      * right. exists (issue_key k s, i). split; [done|]. by apply omap_get_Some_elem.
      * by apply (inv_of_kind st).
  - rewrite H2. unfold covered. cbn [open done_issues]. setoid_rewrite elem_of_nil. naive_solver.
Qed.

Definition sample_interval (a b : string) (missing : list TariffCategory) (ss : list TariffProgressionSlot) : TariffProgressionInterval :=
  {| interval_from := a; interval_to := b; interval_vat_rate := None; missing_categories := missing;
     incomplete := []; slots := ss |}.

Definition sample_slot (l net : string) : TariffProgressionSlot :=
  {| slot_line := l; slot_net := net; slot_gross := None; slot_categories := [] |}.

Definition sample_progression : TariffProgression :=
  {| progression_zev := "z"; progression_energy_type := ProgGrid; progression_vat_mode := NotRegistered;
     progression_from := "2026-01-01"; progression_to := "2026-03-31"; expected_categories := [CatLevies];
     lines := [{| line_key := "all"; line_rules := [] |}; {| line_key := "night"; line_rules := [] |}];
     intervals := [sample_interval "2026-01-01" "2026-01-31" [CatLevies] [sample_slot "all" "0.3"];
                   sample_interval "2026-02-01" "2026-02-28" [CatLevies] [sample_slot "night" "0.1"; sample_slot "all" "0.3"];
                   sample_interval "2026-03-01" "2026-03-31" [] []];
     fixed_fees := [] |}.

Lemma dated_iso from to a b :
  iso a = from → iso b = to → (a <= b)%Z → iso_range a → iso_range (b + 1) → dated from to a b.
Proof. rewrite !iso_range_iff. intros <- <- ???. unfold dated. rewrite !iso_range_iff. split_and!; done || lia. Qed.

Lemma sample_dated : Forall dated_interval (intervals sample_progression).
Proof.
  constructor; [exists 20454%Z, 20484%Z|constructor; [exists 20485%Z, 20512%Z|constructor; [exists 20513%Z, 20543%Z|constructor]]].
  all: refine (dated_iso _ _ _ _ _ _ _ _ _); [vm_compute; reflexivity|vm_compute; reflexivity|lia|apply iso_range_iff; lia|apply iso_range_iff; lia].
Qed.

Lemma progressionIssues_cover_witness :
  progressionIssues sample_progression
    = [{| issue_kind := Missing; issue_subject := "levies"; issue_from := "2026-01-01"; issue_to := "2026-02-28" |}] ∧
  ∃ i, i ∈ intervals sample_progression ∧ (Missing, "levies") ∈ found_in i
    ∧ on_days (interval_from i) (interval_to i) 20500.
Proof.
  assert (progressionIssues sample_progression
    = [{| issue_kind := Missing; issue_subject := "levies"; issue_from := "2026-01-01"; issue_to := "2026-02-28" |}]) as E
    by (vm_compute; reflexivity).
  split; [exact E|].
  apply (progressionIssues_cover sample_progression Missing "levies" 20500 sample_dated).
  - apply iso_range_iff. lia.
  - rewrite E. eexists. split; [left|]. split; [exact (conj eq_refl eq_refl)|]. unfold on_days. split; vm_compute; reflexivity.
Defined.

(** ** What holds on a day *)

Lemma clampDay_spec day from to :
  str_le from to = true →
  str_le from (clampDay day from to) = true ∧ str_le (clampDay day from to) to = true ∧
  (str_le from day = true → str_le day to = true → clampDay day from to = day).
Proof.
  intros H. unfold clampDay. destruct (str_lt day from) eqn:E1.
  - split_and!; [apply str_le_refl|done|]. intros Hd. by rewrite str_le_not_lt in E1.
  - rewrite str_lt_false in E1. destruct (str_lt to day) eqn:E2.
    + split_and!; [done|apply str_le_refl|]. intros _ Hd. by rewrite str_le_not_lt in E2.
    + rewrite str_lt_false in E2. done.
Qed.

(** The line shown on a day exists in the interval of the day, so its
    composition does; a preferred line that exists there is kept. *)
Theorem lineOn_composition progression day preferred interval :
  intervalOn progression day = Some interval → slots interval ≠ [] →
  (str_le (interval_from interval) day = true ∧ str_le day (interval_to interval) = true) ∧
  ∃ line slot, lineOn progression day preferred = Some line ∧
    compositionOn progression day line = Some (interval, slot) ∧
    slot ∈ slots interval ∧ slot_line slot = line ∧
    (∀ p s, preferred = Some p → s ∈ slots interval → slot_line s = p → line = p).
Proof.
  intros Hi Hs. split.
  { apply find_first_Some in Hi as [_ Hp]. by bool_facts. }
  assert (∀ s, s ∈ slots interval → ∃ slot, compositionOn progression day (slot_line s) = Some (interval, slot)
    ∧ slot ∈ slots interval ∧ slot_line slot = slot_line s) as Hcomp.
  { intros s Hin. unfold compositionOn. rewrite Hi.
    destruct (find_first _ (slots interval)) as [slot|] eqn:E.
    - apply find_first_Some in E as [Hslot Hl]. apply String.eqb_eq in Hl. by exists slot.
    - rewrite find_first_None in E. specialize (E s Hin). by rewrite String.eqb_refl in E. }
  unfold lineOn. rewrite Hi. destruct (slots interval) as [|first rest] eqn:Es; [done|].
  destruct (existsb _ (first :: rest)) eqn:Ex.
  - apply existsb_elem in Ex as (s & Hin & Hp). apply bool_decide_eq_true in Hp. subst preferred.
    destruct (Hcomp s Hin) as (slot & Hc & Hslot & Hl). exists (slot_line s), slot.
    split_and!; try done. by intros p s' [= <-].
  - destruct (Hcomp first (list_elem_of_here _ _)) as (slot & Hc & Hslot & Hl).
    exists (slot_line first), slot. split_and!; try done. intros p s -> Hin <-.
    exfalso. assert (existsb (λ s0, bool_decide (Some (slot_line s0) = Some (slot_line s))) (first :: rest) = true) as Hx.
    { apply existsb_elem. exists s. split; [done|]. by apply bool_decide_eq_true. }
    congruence.
Qed.

Lemma lineOn_composition_witness :
  ∃ line slot, lineOn sample_progression "2026-02-10" (Some "all") = Some line ∧
    compositionOn sample_progression "2026-02-10" line = Some (sample_interval "2026-02-01" "2026-02-28" [CatLevies]
      [sample_slot "night" "0.1"; sample_slot "all" "0.3"], slot) ∧ line = "all".
Proof.
  destruct (lineOn_composition sample_progression "2026-02-10" (Some "all")
    (sample_interval "2026-02-01" "2026-02-28" [CatLevies] [sample_slot "night" "0.1"; sample_slot "all" "0.3"]))
    as (_ & line & slot & H1 & H2 & H3 & H4 & H5); [vm_compute; reflexivity|done|].
  exists line, slot. split; [exact H1|]. split; [exact H2|].
  apply (H5 "all" (sample_slot "all" "0.3")); [done| |done]. right. left.
Defined.

(** The fee row in force, else the latest one that has started, else the first. *)
Theorem feeVersionOn_spec fee day :
  StronglySorted (λ a b, str_le (fee_valid_from a) (fee_valid_from b) = true) (fee_versions fee) →
  fee_versions fee ≠ [] →
  ∃ v, feeVersionOn fee day = Some v ∧ v ∈ fee_versions fee ∧
    (fee_in_force day v = true ∨
     (∀ w, w ∈ fee_versions fee → fee_in_force day w = false) ∧
     ∀ w, w ∈ fee_versions fee →
       if str_le (fee_valid_from v) day
       then str_le (fee_valid_from w) day = true → str_le (fee_valid_from w) (fee_valid_from v) = true
       else str_le (fee_valid_from v) (fee_valid_from w) = true).
Proof.
  intros Hs Hne. unfold feeVersionOn. destruct (find_first _ _) as [v|] eqn:E.
  { apply find_first_Some in E as [Hv Hf]. exists v. auto. }
  rewrite find_first_None in E. destruct (last _) as [v|] eqn:El.
  - exists v. assert (v ∈ bfilter (λ v, str_le (fee_valid_from v) day) (fee_versions fee)) as [Hv Hst]%elem_of_bfilter.
    { apply last_Some in El as [l ->]. rewrite elem_of_app. right. by left. }
    split_and!; [done|done|]. right. split; [done|]. rewrite Hst. intros w Hw Hwd.
    eapply (StronglySorted_last _ _ _ (λ x, str_le_refl (fee_valid_from x))
      (StronglySorted_bfilter _ _ _ Hs) El). by apply elem_of_bfilter.
  - apply last_None in El. destruct Hs as [|x l Hs Hx]; [done|]. exists x. split_and!; [done|by left|].
    right. split; [done|].
    assert (str_le (fee_valid_from x) day = false) as ->.
    { destruct (str_le (fee_valid_from x) day) eqn:Ed; [|done].
      assert (x ∈ bfilter (λ v, str_le (fee_valid_from v) day) (x :: l)) as Hin by (apply elem_of_bfilter; by split; [left|]).
      rewrite El in Hin. by apply elem_of_nil in Hin. }
    intros w [->|Hw]%elem_of_cons; [apply str_le_refl|]. rewrite Forall_forall in Hx. by apply Hx.
Qed.

Lemma feeVersionOn_spec_witness :
  let v a b := {| fee_tariff_id := "t"; fee_valid_from := a; fee_valid_to := Some b; fee_amount_net := "5";
                  fee_amount_gross := None; fee_vat_rate := None |} in
  let fee := {| fee_name := "Base"; fee_category := CatMetering; fee_billing_mode := MonthlyFee; fee_unit := FeeMonth;
                fee_scope := ScopeParticipant; fee_split_key := None;
                fee_versions := [v "2024-01-01" "2024-12-31"; v "2025-01-01" "2025-06-30"] |} in
  ∃ w, feeVersionOn fee "2026-01-01" = Some w ∧ w ∈ fee_versions fee.
Proof.
  intros v fee. destruct (feeVersionOn_spec fee "2026-01-01") as (w & H1 & H2 & _).
  - repeat constructor.
  - done.
  - exists w. split; [exact H1|exact H2].
Defined.

(** ** The chart *)

(** The value of a line at the boundary of an interval: its slot's price, or
    null when the interval has no slot of that line. *)
Theorem buildChartData_value progression basis i interval line :
  NoDup (line_key <$> lines progression) → "t" ∉ line_key <$> lines progression →
  NoDup (slot_line <$> slots interval) →
  intervals progression !! i = Some interval → line ∈ lines progression →
  ∃ point, chart_points (buildChartData progression basis) !! i = Some point ∧
    omap_get "t" point = Some (Some (ms_num (dayMs (interval_from interval)))) ∧
    omap_get (line_key line) point =
      Some ((λ s, to_number (valueOf (slot_net s) (slot_gross s) basis)) <$>
        find_first (λ s, String.eqb (slot_line s) (line_key line)) (slots interval)).
Proof.
  intros Hk Ht Hs Hi Hl. unfold buildChartData. cbn [chart_points].
  exists (chart_point (dayMs (interval_from interval)) (valuesOf (lines progression) basis interval)).
  split. { apply lookup_app_l_Some. rewrite list_lookup_fmap, Hi. done. }
  assert (∀ f : ProgressionLine → option num, ((λ l, (line_key l, f l)) <$> lines progression).*1 = line_key <$> lines progression) as Hfst.
  { intros f. rewrite <- list_fmap_compose. done. }
  set (f := line_value basis interval).
  assert (NoDup (omap_of ((λ l, (line_key l, f l)) <$> lines progression)).*1) as Hn.
  { apply (NoDup_omap_of _ []). constructor. }
  unfold chart_point, valuesOf. fold f. rewrite !omap_get_foldl_set by exact Hn.
  rewrite !omap_get_of by (by rewrite Hfst). split.
  - assert (omap_get "t" ((λ l, (line_key l, f l)) <$> lines progression) = None) as ->; [|done].
    apply omap_get_None. by rewrite Hfst.
  - assert (omap_get (line_key line) ((λ l, (line_key l, f l)) <$> lines progression) = Some (f line)) as ->.
    { apply omap_elem_get; [by rewrite Hfst|]. apply list_elem_of_fmap. by exists line. }
    f_equal. unfold f, line_value. f_equal. rewrite omap_get_of by (by rewrite <- list_fmap_compose).
    clear. induction (slots interval) as [|s l IH]; [done|]. csimpl. rewrite IH. unfold find_first. cbn [List.find].
    rewrite (String.eqb_sym (slot_line s)). destruct (String.eqb (line_key line) (slot_line s)) eqn:E.
    + apply String.eqb_eq in E. by rewrite bool_decide_true.
    + apply String.eqb_neq in E. by rewrite bool_decide_false.
Qed.

Lemma buildChartData_value_witness :
  ∃ point, chart_points (buildChartData sample_progression NetBasis) !! 0%nat = Some point ∧
    omap_get "night" point = Some None.
Proof.
  destruct (buildChartData_value sample_progression NetBasis 0
    (sample_interval "2026-01-01" "2026-01-31" [CatLevies] [sample_slot "all" "0.3"])
    {| line_key := "night"; line_rules := [] |}) as (point & H1 & _ & H2).
  - apply (bool_decide_unpack _). vm_compute. reflexivity.
  - apply (bool_decide_unpack _). vm_compute. reflexivity.
  - apply (bool_decide_unpack _). vm_compute. reflexivity.
  - reflexivity.
  - right. left.
  - exists point. split; [exact H1|exact H2].
Defined.
