(* ===== verification/PriceHistory.v ===== *)
(** The step-chart dataset of a tariff series
    (features/tariffs/priceHistory.ts): season segments, the boundaries at which
    a price changes, gaps, and the derived prices of percentage tariffs.

    The season segments of a version are proved to tile its days, each with the
    bands that apply in every month it touches. *)

From S2P Require Import Prelude JsString JsNumber JsDate TariffTypes Recurrence.
Local Open Scope string_scope.
Local Open Scope Z_scope.

Inductive PriceUnit := ChfPerKwh | Chf | Percent.

Inductive BandKey := KFlat | KHigh | KLow | KAmount | KEffective | KBand (n : nat).
#[export] Instance BandKey_eq_dec : EqDecision BandKey.
Proof. solve_decision. Defined.

(** The text of a key, as the label of an unnamed band falls back to it. *)
Definition band_key_text (k : BandKey) : string :=
  match k with
  | KFlat => "flat" | KHigh => "high" | KLow => "low" | KAmount => "amount" | KEffective => "effective"
  | KBand n => "band-" ++ Zstr (Z.of_nat n)
  end.

(** A value of [null] is [None]; a key without an entry is [undefined]. *)
Definition BandValues : Type := list (BandKey * option num).

Record PriceHistoryPoint := {
  point_t : option Z;
  point_date : string;
  point_values : BandValues;
  point_note : option string;
}.

Record MsRange := { ms_from : option Z; ms_to : option Z }.

Record PriceHistory := {
  ph_unit : PriceUnit;
  ph_bands : list BandKey;
  ph_bandLabels : list (BandKey * string);
  ph_points : list PriceHistoryPoint;
  ph_gaps : list MsRange;
  ph_derived : bool;
}.

Definition BAND_ORDER : list (BandKey * TariffPeriodType) := [(KFlat, Flat); (KHigh, High); (KLow, Low)].

(** Milliseconds; [None] is NaN. *)
Definition ms (isoDate : string) : option Z := parse_utc_midnight isoDate.

(** [None] is the RangeError of [toISOString] on an invalid date. *)
Definition isoFromMs (value : option Z) : option string := to_iso_slice <$> value.

(** [a + b], [Math.max] and [a > b] on values that may be NaN. *)
Definition ms_add (a : option Z) (b : Z) : option Z := (λ x, x + b) <$> a.
Definition ms_max (a b : option Z) : option Z := match a, b with Some x, Some y => Some (Z.max x y) | _, _ => None end.
Definition ms_gt (a b : option Z) : bool := match a, b with Some x, Some y => y <? x | _, _ => false end.
Definition ms_eq (a b : option Z) : bool := match a, b with Some x, Some y => x =? y | _, _ => false end.

Definition num_of (value : option string) : option num :=
  match value with
  | Some text =>
      if String.eqb text "" then None
      else let parsed := to_number text in if is_finite parsed then Some parsed else None
  | None => None
  end.

Definition byValidFrom (left right : TariffVersion) : bool := str_le (valid_from left) (valid_from right).

Definition of_type (t : TariffPeriodType) (p : TariffPeriod) : bool := bool_decide (period_type p = t).

Definition representativePrice (ps : list TariffPeriod) : option num :=
  match ps with
  | [] => None
  | first :: _ =>
      let flat := find_first (of_type Flat) ps in
      let high := find_first (of_type High) ps in
      num_of (price_chf_per_kwh (default (default first high) flat))
  end.

Definition in_force_on (day : string) (version : TariffVersion) : bool :=
  str_le (valid_from version) day
  && (negb (truthy_str (valid_to version)) || str_le day (default "" (valid_to version))).

Definition versionOn (vs : list TariffVersion) (day : string) : option TariffVersion := find_first (in_force_on day) vs.

Definition is_grid_energy (s : TariffSeries) : bool :=
  match series_billing_mode s, series_energy_type s with Energy, Some GridEnergy => true | _, _ => false end.

Definition gridBaseOn (allSeries : list TariffSeries) (day : string) : num :=
  foldl (λ total s, num_add total
    (default (of_Z 0) (v ← versionOn (versions s) day; representativePrice (periods v))))
    (of_Z 0) (bfilter is_grid_energy allSeries).

Definition terminalBoundary (vs : list TariffVersion) (today : string) : option Z :=
  match last vs with
  | Some l =>
      if truthy_str (valid_to l) then ms (default "" (valid_to l))
      else ms_max (ms today) (ms (valid_from l))
  | None => None
  end.

(** ** Bands and seasons *)

Definition plainBands (v : TariffVersion) : list TariffPeriod := bfilter (of_type Band) (periods v).

Definition applies_in (month : Z) (p : TariffPeriod) : bool :=
  let ms := parseMonths (months p) in (length ms =? 0)%nat || bool_decide (month ∈ ms).

Definition bandsInMonth (v : TariffVersion) (month : Z) : list TariffPeriod := bfilter (applies_in month) (periods v).

Definition bandSignature (v : TariffVersion) (month : Z) : string :=
  join "|" (sort_by str_le (period_id <$> bandsInMonth v month)).

(** [new Date(Date.UTC(year, month - 1, day)).toISOString().slice(0, 10)]. *)
Definition isoDay (year month day : Z) : option string :=
  (λ n, to_iso_slice (n * DAY_MS)) <$> new_date year (month - 1) day.

Definition ALL_MONTHS : list Z := [1; 2; 3; 4; 5; 6; 7; 8; 9; 10; 11; 12].

Definition changeMonths (v : TariffVersion) : list Z :=
  bfilter (λ month, negb (String.eqb (bandSignature v month) (bandSignature v (if month =? 1 then 12 else month - 1))))
    ALL_MONTHS.

(** The integer [Number(date.slice(i, j))]. *)
Definition date_field (date : string) (i j : nat) : option Z := num_int (to_number (slice date i j)).

Definition season_end (v : TariffVersion) (today : string) : string :=
  match valid_to v with
  | Some d => d
  | None => if str_lt (valid_from v) today then today else valid_from v
  end.

(** The boundaries of the years from [year] on; [fuel] years are left. *)
Fixpoint year_boundaries (change : list Z) (from to : string) (fuel : nat) (year : Z) : list string :=
  match fuel with
  | O => []
  | S fuel' =>
      (bfilter (λ day, str_lt from day && str_le day to) (omap (λ month, isoDay year month 1) change)
       ++ year_boundaries change from to fuel' (year + 1))%list
  end.

Definition season_boundaries (change : list Z) (from to : string) : list string :=
  match date_field from 0 4, date_field to 0 4 with
  | Some y0, Some y1 => sort_by str_le (year_boundaries change from to (Z.to_nat (y1 - y0 + 1)) y0)
  | _, _ => []
  end.

Definition with_validity (v : TariffVersion) (from : string) (to : option string) (ps : list TariffPeriod) : TariffVersion :=
  {| version_tariff :=
       {| tariff_id := tariff_id v; zev := zev v; name := name v; category := category v;
          billing_mode := billing_mode v; energy_type := energy_type v; fixed_price_chf := fixed_price_chf v;
          split_key := split_key v; valid_from := from; valid_to := to; notes := notes v;
          source_component := source_component v; source_series_name := source_series_name v;
          dynamic_source := dynamic_source v; minimum_price_chf_per_kwh := minimum_price_chf_per_kwh v;
          dynamic_price_summary := dynamic_price_summary v; percentage_base_summary := percentage_base_summary v |};
     periods := ps |}.

(** [close(to)]: one segment, with the bands of the month it starts in. *)
Definition close_segment (v : TariffVersion) (from : string) (to : option string) : TariffVersion :=
  with_validity v from to (bandsInMonth v (default 0 (date_field from 5 7))).

(** The last day of the month before a boundary. *)
Definition day_before (boundary : string) : option string :=
  y ← date_field boundary 0 4; m ← date_field boundary 5 7; isoDay y m 0.

Fixpoint close_segments (v : TariffVersion) (from : string) (boundaries : list string) : list TariffVersion :=
  match boundaries with
  | [] => [close_segment v from (valid_to v)]
  | b :: rest => close_segment v from (day_before b) :: close_segments v b rest
  end.

Definition seasonalSegments (v : TariffVersion) (today : string) : list TariffVersion :=
  if negb (existsb (λ p, (0 <? length (parseMonths (months p)))%nat) (periods v)) then [v]
  else match changeMonths v with
  | [] => [v]
  | change => close_segments v (valid_from v) (season_boundaries change (valid_from v) (season_end v today))
  end.

Record BandKeys := {
  bk_named : list (BandKey * TariffPeriodType);
  bk_positional : list BandKey;
  bk_bands : list BandKey;
  bk_bandLabels : list (BandKey * string);
}.

Definition bandKeysFor (segments : list TariffVersion) : BandKeys :=
  let named := bfilter (λ kt, existsb (λ s, existsb (of_type kt.2) (periods s)) segments) BAND_ORDER in
  let bandCount := foldl Nat.max 0%nat ((λ s, length (plainBands s)) <$> segments) in
  let positional := KBand <$> seq 0 bandCount in
  let label index :=
    sample ← head (omap (λ s, plainBands s !! index) segments);
    Some (KBand index, bandName (band_like sample) (default (band_key_text (KBand index)) (bandWindow (band_like sample)))) in
  {| bk_named := named; bk_positional := positional; bk_bands := (named.*1 ++ positional)%list;
     bk_bandLabels := omap label (seq 0 bandCount) |}.

(** ** Points *)

Definition nulls (bands : list BandKey) : BandValues := omap_of ((λ b, (b, None)) <$> bands).

(** The points one version adds; [None] when a date cannot be written. *)
Definition version_points (bands : list BandKey) (today : string) (valuesFor : TariffVersion → BandValues)
    (version : TariffVersion) (next : option TariffVersion) : option (list PriceHistoryPoint) :=
  let values := valuesFor version in
  let from := ms (valid_from version) in
  let start := {| point_t := from; point_date := valid_from version; point_values := values; point_note := None |} in
  let ends := if truthy_str (valid_to version) then Some (ms (default "" (valid_to version))) else None in
  let contiguous := match next, ends with
    | Some n, Some e => ms_eq (ms (valid_from n)) (ms_add e DAY_MS)
    | _, _ => false end in
  if contiguous then Some [start] else
  let runEnd := match ends with Some e => e | None => ms_max (ms today) from end in
  run ← (if ms_gt runEnd from
         then d ← isoFromMs runEnd; Some [{| point_t := runEnd; point_date := d; point_values := values; point_note := None |}]
         else Some []);
  gap ← match next, ends with
        | Some _, Some e =>
            d ← isoFromMs (ms_add e DAY_MS);
            Some [{| point_t := ms_add e DAY_MS; point_date := d; point_values := nulls bands; point_note := None |}]
        | _, _ => Some []
        end;
  Some (start :: run ++ gap)%list.

Fixpoint assemble (bands : list BandKey) (today : string) (valuesFor : TariffVersion → BandValues)
    (vs : list TariffVersion) : option (list PriceHistoryPoint) :=
  match vs with
  | [] => Some []
  | v :: rest =>
      here ← version_points bands today valuesFor v (head rest);
      more ← assemble bands today valuesFor rest;
      Some (here ++ more)%list
  end.

Fixpoint zeroBaseStretches (points : list PriceHistoryPoint) : list MsRange :=
  match points with
  | p :: ((next :: _) as rest) =>
      let defined := omap snd (point_values p) in
      if (0 <? length defined)%nat && forallb (λ v, num_eqb v (of_Z 0)) defined
      then {| ms_from := point_t p; ms_to := point_t next |} :: zeroBaseStretches rest
      else zeroBaseStretches rest
  | _ => []
  end.

Definition energy_values (keys : BandKeys) (version : TariffVersion) : BandValues :=
  omap_of (((λ '(k, t), (k, p ← find_first (of_type t) (periods version); num_of (price_chf_per_kwh p))) <$> bk_named keys)
    ++ imap (λ i k, (k, p ← plainBands version !! i; num_of (price_chf_per_kwh p))) (bk_positional keys)).

(** [Number(((base * pct) / 100).toFixed(5))]. *)
Definition effective_price (base : num) (period : TariffPeriod) : num :=
  let pct := default (of_Z 0) (num_of (percentage period)) in
  to_number (to_fixed 5 (num_div (num_mul base pct) (of_Z 100))).

Definition effective_note (base : num) (period : TariffPeriod) : string :=
  num_to_string (default (of_Z 0) (num_of (percentage period))) ++ "% × " ++ to_fixed 5 base.

Definition segment_periods (keys : BandKeys) (segment : TariffVersion) : list (BandKey * option TariffPeriod) :=
  (((λ '(k, t), (k, find_first (of_type t) (periods segment))) <$> bk_named keys)
   ++ imap (λ i k, (k, plainBands segment !! i)) (bk_positional keys))%list.

Definition percentage_point (keys : BandKeys) (bands : list BandKey) (segments : list TariffVersion)
    (allSeries : list TariffSeries) (day : string) : PriceHistoryPoint :=
  match versionOn segments day with
  | None => {| point_t := ms day; point_date := day; point_values := nulls bands; point_note := None |}
  | Some segment =>
      let base := gridBaseOn allSeries day in
      let ps := segment_periods keys segment in
      {| point_t := ms day; point_date := day;
         point_values := foldl (λ m kp, omap_set kp.1 (effective_price base <$> kp.2) m) (nulls bands) ps;
         point_note := if (length bands =? 1)%nat then effective_note base <$> last (omap snd ps) else None |}
  end.

(** The day after the end of a version, when it ends. *)
Definition after_end (v : TariffVersion) : option (list string) :=
  if truthy_str (valid_to v) then (λ d, [d]) <$> isoFromMs (ms_add (ms (default "" (valid_to v))) DAY_MS) else Some [].

Fixpoint boundaries_of (vs : list TariffVersion) (days : list string) : option (list string) :=
  match vs with
  | [] => Some days
  | v :: rest =>
      ends ← after_end v;
      boundaries_of rest (foldl (λ s d, oset_add d s) (oset_add (valid_from v) days) ends)
  end.

Definition percentagePoints (vs : list TariffVersion) (allSeries : list TariffSeries) (today : string)
    : option (list BandKey * list (BandKey * string) * list PriceHistoryPoint) :=
  let segments := mbind (λ v, seasonalSegments v today) vs in
  let keys := bandKeysFor segments in
  let bands := match bk_bands keys with [] => [KEffective] | bs => bs end in
  boundaries ← boundaries_of (segments ++ mbind versions (bfilter is_grid_energy allSeries)) [];
  final ← (if (length vs =? 0)%nat then Some today else isoFromMs (terminalBoundary vs today));
  let relevant := match vs with
    | [] => []
    | v :: _ =>
        let days := sort_by str_le (bfilter (λ day, str_le (valid_from v) day && str_le day final) boundaries) in
        if bool_decide (final ∈ days) then days else (days ++ [final])%list
    end in
  Some (bands, bk_bandLabels keys, percentage_point keys bands segments allSeries <$> relevant).

Definition buildPriceHistory (series : TariffSeries) (allSeries : list TariffSeries) (today : string) : option PriceHistory :=
  let vs := sort_by byValidFrom (versions series) in
  let gaps := (λ g, {| ms_from := ms (gap_start g); ms_to := ms (gap_end g) |}) <$> series_gaps series in
  match series_billing_mode series with
  | PercentageOfEnergy =>
      '(bands, labels, points) ← percentagePoints vs allSeries today;
      Some {| ph_unit := ChfPerKwh; ph_bands := bands; ph_bandLabels := labels; ph_points := points;
              ph_gaps := (gaps ++ zeroBaseStretches points)%list; ph_derived := true |}
  | Energy =>
      let segments := mbind (λ v, seasonalSegments v today) vs in
      let keys := bandKeysFor segments in
      points ← assemble (bk_bands keys) today (energy_values keys) segments;
      Some {| ph_unit := ChfPerKwh; ph_bands := match bk_bands keys with [] => [KFlat] | bs => bs end;
              ph_bandLabels := bk_bandLabels keys; ph_points := points; ph_gaps := gaps; ph_derived := false |}
  | _ =>
      points ← assemble [KAmount] today (λ v, [(KAmount, num_of (fixed_price_chf v))]) vs;
      Some {| ph_unit := Chf; ph_bands := [KAmount]; ph_bandLabels := []; ph_points := points;
              ph_gaps := gaps; ph_derived := false |}
  end.

Definition seasonal_sample : TariffVersion :=
  sample_version "v" "2026-02-15" (Some "2027-05-31")
    [sample_period "s" High "0.20" (Some "4,5,6,7,8,9"); sample_period "w" High "0.30" (Some "10,11,12,1,2,3")].

Example segments_ex :
  (λ s, (valid_from (version_tariff s), valid_to (version_tariff s), period_id <$> periods s)) <$> seasonalSegments seasonal_sample "2026-06-01"
  = [("2026-02-15", Some "2026-03-31", ["w"]); ("2026-04-01", Some "2026-09-30", ["s"]);
     ("2026-10-01", Some "2027-03-31", ["w"]); ("2027-04-01", Some "2027-05-31", ["s"])].
Proof. by vm_compute. Qed.

Example history_ex :
  option_map (λ h, map (λ p, (point_date p, map (λ kv : BandKey * option num, (kv.1, option_map num_to_string kv.2)) (point_values p))) (ph_points h))
    (buildPriceHistory (sample_series Energy [sample_version "v" "2026-01-01" (Some "2026-03-31") [sample_period "a" Flat "0.2" None];
                                            sample_version "w" "2026-05-01" None [sample_period "b" Flat "0.25" None]]) [] "2026-07-01")
  = Some [("2026-01-01", [(KFlat, Some "0.2")]); ("2026-03-31", [(KFlat, Some "0.2")]); ("2026-04-01", [(KFlat, None)]);
     ("2026-05-01", [(KFlat, Some "0.25")]); ("2026-07-01", [(KFlat, Some "0.25")])].
Proof. by vm_compute. Qed.

(** ** Fields of an ISO day *)

Definition month_no (n : Z) : Z := cmonth (civil_of_day n) + 1.

Lemma date_field_year n : iso_range n → date_field (iso n) 0 4 = Some (cyear (civil_of_day n)).
Proof.
  intros H. pose proof (iso_day_of_range n H) as Hd. unfold date_field, slice, iso.
  rewrite iso_of_civil_fix by done. change (4 - 0)%nat with 4%nat.
  rewrite <- (length_fix_digits 4 (cyear (civil_of_day n))) at 1. rewrite substring_app_l.
  apply num_int_fix4. unfold iso_range, year4 in H. lia.
Qed.

Lemma date_field_month n : iso_range n → date_field (iso n) 5 7 = Some (month_no n).
Proof.
  intros H. pose proof (iso_day_of_range n H) as Hd. unfold date_field, slice, iso.
  rewrite iso_of_civil_fix by done. change (7 - 5)%nat with 2%nat. change 5%nat with (4 + 1)%nat.
  rewrite <- (length_fix_digits 4 (cyear (civil_of_day n))) at 1. rewrite substring_skip.
  change (substring 1 2 ("-" ++ ?s)) with (substring 0 2 s).
  rewrite <- (length_fix_digits 2 (cmonth (civil_of_day n) + 1)) at 1. rewrite substring_app_l.
  destruct Hd as [[Hm _] _]. fold (month_no n) in *.
  apply num_int_fix2. unfold month_no. lia.
Qed.

Lemma month_no_index n : month_no n = month_index n mod 12 + 1.
Proof.
  unfold month_no, month_index. destruct (civil_of_day_valid n) as [Hm _].
  f_equal. symmetry. rewrite Z.add_comm, Z.mul_comm, Z.mod_add by lia. apply Z.mod_small. lia.
Qed.

Lemma isoDay_month y m d :
  100 <= y → iso_range (month_day (12 * y + (m - 1)) + (d - 1)) →
  isoDay y m d = Some (iso (month_day (12 * y + (m - 1)) + (d - 1))).
Proof.
  intros Hy Hr. unfold isoDay, new_date. rewrite full_year_id by done.
  assert (make_day y (m - 1) d = month_day (12 * y + (m - 1)) + (d - 1)) as ->.
  { unfold month_day. rewrite make_day_index. unfold make_day. lia. }
  rewrite clip_day_range by done. cbn [fmap option_fmap option_map]. by rewrite to_iso_slice_iso.
Qed.

Lemma day_before_month M :
  iso_range (month_day M) → iso_range (month_day M - 1) →
  day_before (iso (month_day M)) = Some (iso (month_day M - 1)).
Proof.
  intros H H1. unfold day_before. rewrite date_field_year, date_field_month by done.
  cbn [mbind option_bind]. pose proof (civil_month_day M) as Ec.
  unfold iso_range, year4 in H. unfold month_no. rewrite Ec in *. cbn [cyear cmonth] in *.
  assert (12 * (M / 12) + (M mod 12 + 1 - 1) = M) as E by (Z.div_mod_to_equations; lia).
  rewrite isoDay_month; rewrite ?E; [done|lia|done].
Qed.

(** ** Bands of neighbouring months *)

(** Band ids are distinct, not blank and free of the separator. *)
Definition ids_ok (v : TariffVersion) : Prop :=
  NoDup (period_id <$> periods v) ∧ Forall (λ p, period_id p ≠ "" ∧ free_of "|" (period_id p) = true) (periods v).

Lemma join_pipe_inj l1 l2 :
  Forall (λ s, s ≠ "" ∧ free_of "|" s = true) l1 → Forall (λ s, s ≠ "" ∧ free_of "|" s = true) l2 →
  join "|" l1 = join "|" l2 → l1 = l2.
Proof.
  assert (∀ x l, x ≠ "" → join "|" (x :: l) ≠ "") as Hne.
  { intros x l Hx. destruct l; simpl; [done|]. by destruct x. }
  assert (∀ l, Forall (λ s, s ≠ "" ∧ free_of "|" s = true) l → Forall (λ s, free_of "|" s = true) l) as Hfree.
  { intros l Hl. eapply Forall_impl; [exact Hl|]. naive_solver. }
  intros H1 H2 E. pose proof (Hfree _ H1) as F1. pose proof (Hfree _ H2) as F2.
  destruct H1 as [|x l1 [Hx _]], H2 as [|y l2 [Hy _]].
  - done.
  - by destruct (Hne y l2 Hy).
  - by destruct (Hne x l1 Hx).
  - by apply join_inj in E.
Qed.

Lemma bandSignature_inj v m1 m2 :
  ids_ok v → bandSignature v m1 = bandSignature v m2 → bandsInMonth v m1 = bandsInMonth v m2.
Proof.
  intros [Hnd Hid] E. unfold bandSignature in E.
  assert (∀ m, Forall (λ s, s ≠ "" ∧ free_of "|" s = true) (sort_by str_le (period_id <$> bandsInMonth v m))) as Hf.
  { intros m. rewrite sort_by_perm, Forall_fmap. apply Forall_forall. intros p [Hp _]%elem_of_bfilter.
    rewrite Forall_forall in Hid. by apply Hid. }
  apply join_pipe_inj in E; [|apply Hf|apply Hf].
  assert (Permutation (period_id <$> bandsInMonth v m1) (period_id <$> bandsInMonth v m2)) as Hp.
  { rewrite <- (sort_by_perm str_le (period_id <$> bandsInMonth v m1)), E. apply sort_by_perm. }
  assert (∀ p q, p ∈ periods v → q ∈ periods v → period_id p = period_id q → p = q) as Hinj.
  { intros p q [i Hi]%list_elem_of_lookup_1 [j Hj]%list_elem_of_lookup_1 Epq.
    assert (i = j) as ->; [|congruence].
    eapply (NoDup_lookup (period_id <$> periods v)); [done|by rewrite list_lookup_fmap, Hi|].
    by rewrite list_lookup_fmap, Hj, Epq. }
  assert (∀ m p, p ∈ periods v → applies_in m p = true ↔ period_id p ∈ period_id <$> bandsInMonth v m) as Happ.
  { intros m p Hin. rewrite list_elem_of_fmap. unfold bandsInMonth. setoid_rewrite elem_of_bfilter. split.
    - intros Ha. by exists p.
    - intros (q & Eq & Hq & Ha). by rewrite (Hinj p q). }
  unfold bandsInMonth, bfilter. apply List.filter_ext_in. intros p Hin%list_elem_of_In.
  apply eq_true_iff_eq. by rewrite !Happ, Hp.
Qed.

Lemma unchanged_month v M :
  ids_ok v → M mod 12 + 1 ∉ changeMonths v →
  bandsInMonth v (M mod 12 + 1) = bandsInMonth v ((M - 1) mod 12 + 1).
Proof.
  intros Hid Hc. apply bandSignature_inj; [done|]. unfold changeMonths in Hc. rewrite elem_of_bfilter in Hc.
  assert (M mod 12 + 1 ∈ ALL_MONTHS) as Hin.
  { unfold ALL_MONTHS. rewrite !elem_of_cons. pose proof (Z.mod_pos_bound M 12). lia. }
  destruct (String.eqb _ _) eqn:E in Hc; [|tauto]. apply String.eqb_eq in E. rewrite E. f_equal.
  destruct (M mod 12 + 1 =? 1) eqn:E1; bool_facts; Z.div_mod_to_equations; lia.
Qed.

(** Without a change month in between, two days have the same bands. *)
Lemma same_bands v g n :
  ids_ok v → g <= n →
  (∀ M, g < month_day M <= n → M mod 12 + 1 ∉ changeMonths v) →
  bandsInMonth v (month_no n) = bandsInMonth v (month_no g).
Proof.
  intros Hid Hgn Hno. rewrite !month_no_index. pose proof (month_index_mono g n Hgn) as Hle.
  pose proof (month_day_bounds g) as Hg. pose proof (month_day_bounds n) as Hn.
  set (I := month_index g) in *. set (J := month_index n) in *.
  assert (∀ k, (k <= Z.to_nat (J - I))%nat →
    bandsInMonth v ((I + Z.of_nat k) mod 12 + 1) = bandsInMonth v (I mod 12 + 1)) as H.
  { induction k as [|k IH]; intros Hk; [by rewrite Z.add_0_r|].
    rewrite <- IH by lia. rewrite unchanged_month; [do 2 f_equal; f_equal; lia|done|].
    apply Hno. pose proof (month_day_le (I + 1) (I + Z.of_nat (S k))).
    pose proof (month_day_le (I + Z.of_nat (S k)) J). lia. }
  rewrite <- (H (Z.to_nat (J - I))) by lia. do 3 f_equal. lia.
Qed.

(** ** The boundaries *)

Lemma elem_of_year_boundaries change a e fuel y x :
  (∀ m, m ∈ change → 1 <= m <= 12) → iso_range a → iso_range e →
  1000 <= y → y + Z.of_nat fuel <= 10000 →
  x ∈ year_boundaries change (iso a) (iso e) fuel y ↔
  ∃ M, x = iso (month_day M) ∧ y <= M / 12 < y + Z.of_nat fuel ∧ M mod 12 + 1 ∈ change ∧ a < month_day M <= e.
Proof.
  intros Hc Ha He. revert y. induction fuel as [|fuel IH]; intros y Hy Hf; cbn [year_boundaries].
  { rewrite elem_of_nil. split; [done|]. intros (M & _ & ? & _). lia. }
  rewrite elem_of_app, IH, elem_of_bfilter, list_elem_of_omap by lia.
  assert (∀ m, m ∈ change → isoDay y m 1 = Some (iso (month_day (12 * y + (m - 1)))) ∧ iso_range (month_day (12 * y + (m - 1)))) as Hday.
  { intros m Hm%Hc. assert (iso_range (month_day (12 * y + (m - 1)))) as Hr.
    { apply (month_range (12 * y + (m - 1))); [unfold month_ok; lia|].
      pose proof (month_day_mono (12 * y + (m - 1)) (12 * y + (m - 1) + 1)). lia. }
    split; [|done]. rewrite isoDay_month; rewrite ?Z.add_0_r; done || lia. }
  split.
  - intros [[(m & Hm & Ex) Hp]|(M & -> & HM & Hin & Hr)]; [|exists M; split; [done|]; split; [lia|done]].
    destruct (Hday m Hm) as [Ed Hr]. rewrite Ed in Ex. injection Ex as <-.
    rewrite iso_lt_days, iso_le_days in Hp by done. bool_facts.
    exists (12 * y + (m - 1)). specialize (Hc m Hm). split; [done|]. split; [Z.div_mod_to_equations; lia|].
    split; [|lia]. replace ((12 * y + (m - 1)) mod 12 + 1) with m by (Z.div_mod_to_equations; lia). done.
  - intros (M & -> & HM & Hin & Hr). destruct (decide (M / 12 = y)) as [Ey|Ney].
    + left. destruct (Hday _ Hin) as [Ed Hrr].
      assert (12 * y + (M mod 12 + 1 - 1) = M) as EM by (Z.div_mod_to_equations; lia).
      rewrite EM in *. rewrite iso_lt_days, iso_le_days by done. split; [by exists (M mod 12 + 1)|].
      apply andb_true_intro. split; [apply Z.ltb_lt|apply Z.leb_le]; lia.
    + right. exists M. split; [done|]. split; [lia|done].
Qed.

Lemma year_of_index n : month_index n / 12 = cyear (civil_of_day n).
Proof. unfold month_index. destruct (civil_of_day_valid n) as [Hm _]. Z.div_mod_to_equations. lia. Qed.

Lemma elem_of_season_boundaries change a e x :
  (∀ m, m ∈ change → 1 <= m <= 12) → iso_range a → iso_range e → a <= e →
  x ∈ season_boundaries change (iso a) (iso e) ↔
  ∃ M, x = iso (month_day M) ∧ M mod 12 + 1 ∈ change ∧ a < month_day M <= e.
Proof.
  intros Hc Ha He Hae. unfold season_boundaries. rewrite !date_field_year by done.
  rewrite elem_of_sort_by. unfold iso_range, year4 in *.
  pose proof (month_index_mono a e Hae) as Hmono. rewrite <- !year_of_index in *.
  assert (month_index a / 12 <= month_index e / 12) by (apply Z.div_le_mono; lia).
  rewrite elem_of_year_boundaries by (try done; unfold iso_range, year4; rewrite <- ?year_of_index; lia).
  apply exist_proper. intros M. split; [naive_solver|].
  intros (-> & Hin & Hr). split; [done|]. split; [|done].
  pose proof (month_index_mono a (month_day M)) as L1. pose proof (month_index_mono (month_day M) e) as L2.
  rewrite month_index_day in *. specialize (L1 ltac:(lia)). specialize (L2 ltac:(lia)).
  apply (Z.div_le_mono _ _ 12) in L1; [|lia]. apply (Z.div_le_mono _ _ 12) in L2; [|lia]. lia.
Qed.

(** ** The segments *)

Lemma close_segment_fields v from to :
  valid_from (close_segment v from to) = from ∧ valid_to (close_segment v from to) = to.
Proof. done. Qed.

Lemma in_force_segment v f to n :
  iso_range f → iso_range n → truthy_str to = false ∨ (∃ b, to = Some (iso b) ∧ iso_range b ∧ n <= b) → f <= n →
  in_force_on (iso n) (close_segment v (iso f) to) = true.
Proof.
  intros Hf Hn Ht Hfn. unfold in_force_on. destruct (close_segment_fields v (iso f) to) as [-> ->].
  rewrite iso_le_days by done. apply andb_true_intro. split; [by apply Z.leb_le|].
  destruct Ht as [->|(b & -> & Hb & Hnb)]; [done|]. cbn [truthy_str]. rewrite iso_nonempty. cbn [negb orb].
  change (default "" (Some ?x)) with x. rewrite iso_le_days by done. by apply Z.leb_le.
Qed.

Lemma not_in_force_after v f b n :
  iso_range n → iso_range b → b < n → in_force_on (iso n) (close_segment v f (Some (iso b))) = false.
Proof.
  intros Hn Hb Hlt. unfold in_force_on. destruct (close_segment_fields v f (Some (iso b))) as [-> ->].
  cbn [truthy_str]. rewrite iso_nonempty. cbn [negb orb]. change (default "" (Some ?x)) with x.
  rewrite iso_le_days by done. apply andb_false_intro2, Z.leb_gt. done.
Qed.

(** The segment found for a day starts at the last boundary before it. *)
Lemma close_segments_find (v : TariffVersion) f n B :
  iso_range f → iso_range n → f <= n →
  Forall (λ x, ∃ M, x = iso (month_day M) ∧ iso_range (month_day M) ∧ iso_range (month_day M - 1)) B →
  StronglySorted (λ a b, str_le a b = true) B →
  truthy_str (valid_to v) = false ∨ (∃ b, valid_to v = Some (iso b) ∧ iso_range b ∧ n <= b) →
  ∃ g to, versionOn (close_segments v (iso f) B) (iso n) = Some (close_segment v (iso g) to) ∧
    (g = f ∨ iso g ∈ B) ∧ iso_range g ∧ g <= n ∧ ∀ b, iso_range b → iso b ∈ B → b <= n → b <= g.
Proof.
  intros Hf Hn Hfn HB Hs Hto. revert f Hf Hfn.
  induction Hs as [|x B Hs IH Hx]; intros f Hf Hfn; cbn [close_segments]; unfold versionOn, find_first; cbn [List.find].
  { rewrite in_force_segment by done. exists f, (valid_to v).
    split_and!; [done|by left|done|done|]. by intros b _ ?%elem_of_nil. }
  inversion HB as [|? ? (M & -> & HM & HM1) HB']; subst. rewrite Forall_forall in Hx.
  rewrite day_before_month by done. destruct (decide (n < month_day M)) as [Hlt|Hge].
  - rewrite in_force_segment; [|done|done|right; exists (month_day M - 1); split_and!; [done|done|lia]|done].
    exists f, (Some (iso (month_day M - 1))). split_and!; [done|by left|done|done|].
    intros b Hb Hin Hbn. exfalso. apply elem_of_cons in Hin as [E|Hin].
    + apply iso_inj_days in E; [|done|done]. lia.
    + specialize (Hx _ Hin). rewrite iso_le_days in Hx by done. bool_facts. lia.
  - rewrite not_in_force_after by (done || lia).
    destruct (IH HB' (month_day M) HM ltac:(lia)) as (g & to & Hg & Hgin & Hgr & Hgn & Hgm).
    exists g, to. split; [exact Hg|]. split; [right; destruct Hgin as [->|Hgin]; [by left|by right]|].
    split; [done|]. split; [done|]. intros b Hb Hin Hbn. apply elem_of_cons in Hin as [E|Hin].
    + apply iso_inj_days in E; [|done|done]. subst b. destruct Hgin as [->|Hgin]; [lia|].
      specialize (Hx _ Hgin). rewrite iso_le_days in Hx by done. by apply Z.leb_le in Hx.
    + by apply Hgm.
Qed.

Lemma bands_unrestricted v m :
  existsb (λ p, (0 <? length (parseMonths (months p)))%nat) (periods v) = false → bandsInMonth v m = periods v.
Proof.
  intros H. apply bfilter_all. intros p Hp. unfold applies_in.
  destruct (length (parseMonths (months p)) =? 0)%nat eqn:E; [done|]. apply Nat.eqb_neq in E.
  assert (existsb (λ p, (0 <? length (parseMonths (months p)))%nat) (periods v) = true) as Hx; [|congruence].
  apply existsb_elem. exists p. split; [done|]. apply Nat.ltb_lt. lia.
Qed.

Lemma bands_constant v m :
  ids_ok v → 1 <= m <= 12 → changeMonths v = [] → bandsInMonth v m = periods v.
Proof.
  intros Hid Hm Hc.
  assert (∀ k, bandsInMonth v (Z.of_nat k mod 12 + 1) = bandsInMonth v 1) as Hall.
  { induction k as [|k IH]; [done|]. transitivity (bandsInMonth v (Z.of_nat k mod 12 + 1)); [|exact IH].
    rewrite unchanged_month; [|done|rewrite Hc; apply not_elem_of_nil].
    do 3 f_equal. lia. }
  assert (∀ m', 1 <= m' <= 12 → bandsInMonth v m' = bandsInMonth v 1) as Hsame.
  { intros m' Hm'. rewrite <- (Hall (Z.to_nat (m' - 1))). f_equal. rewrite Z2Nat.id by lia.
    rewrite Z.mod_small by lia. lia. }
  rewrite Hsame by done. apply bfilter_all. intros p Hp. unfold applies_in.
  destruct (parseMonths (months p)) as [|x l] eqn:E; [done|]. simpl.
  assert (1 <= x <= 12) as Hx by (apply (parseMonths_range (months p)); rewrite E; by left).
  assert (p ∈ bandsInMonth v x) as Hin.
  { apply elem_of_bfilter. split; [done|]. unfold applies_in. rewrite E. apply bool_decide_eq_true. by left. }
  rewrite (Hsame x Hx) in Hin. apply elem_of_bfilter in Hin as [_ Ha]. unfold applies_in in Ha. by rewrite E in Ha.
Qed.

Lemma changeMonths_range v m : m ∈ changeMonths v → 1 <= m <= 12.
Proof. intros [Hm _]%elem_of_bfilter. unfold ALL_MONTHS in Hm. rewrite !elem_of_cons, elem_of_nil in Hm. lia. Qed.

(** The version runs from day [a] to day [e]: its own end, or, when it is
    open, the later of its start and today. *)
Definition runs (v : TariffVersion) (today : Z) (a e : Z) : Prop :=
  valid_from v = iso a ∧ iso_range (a - 1) ∧ iso_range a ∧ iso_range e ∧ iso_range today ∧ a <= e ∧
  (valid_to v = Some (iso e) ∨ valid_to v = None ∧ e = Z.max a today).

Lemma season_end_runs (v : TariffVersion) today a e : runs v today a e → season_end v (iso today) = iso e.
Proof.
  intros (Hf & _ & Ha & He & Ht & _ & [Hto|[Hto ->]]); unfold season_end; rewrite Hto; [done|].
  rewrite Hf, iso_lt_days by done. destruct (a <? today) eqn:E; bool_facts; f_equal; lia.
Qed.

(** The season segments tile the version: on every day it runs, the segment in
    force carries exactly the bands that apply in the month of that day. *)
Theorem seasonalSegments_tile v today a e n :
  ids_ok v → runs v today a e → a <= n <= e →
  ∃ s, versionOn (seasonalSegments v (iso today)) (iso n) = Some s ∧ periods s = bandsInMonth v (month_no n).
Proof.
  intros Hid Hr Hn. pose proof (season_end_runs v today a e Hr) as Hend.
  destruct Hr as (Hf & Ha1 & Ha & He & Ht & Hae & Hto).
  assert (iso_range n) as Hrn by (apply iso_range_iff in Ha, He; apply iso_range_iff; lia).
  assert (truthy_str (valid_to v) = false ∨ ∃ b, valid_to v = Some (iso b) ∧ iso_range b ∧ n <= b) as Hto'.
  { destruct Hto as [Hto|[Hto _]]; [right; exists e; split_and!; [done|done|lia]|left; by rewrite Hto]. }
  assert (1 <= month_no n <= 12) as Hmn by (unfold month_no; destruct (civil_of_day_valid n) as [? _]; lia).
  assert (in_force_on (iso n) v = true) as Hall.
  { pose proof (in_force_segment v a (valid_to v) n Ha Hrn Hto' ltac:(lia)) as Hx.
    unfold in_force_on in *. destruct (close_segment_fields v (iso a) (valid_to v)) as [E1 E2].
    rewrite E1, E2 in Hx. by rewrite Hf. }
  unfold seasonalSegments. destruct (existsb _ (periods v)) eqn:Es; cbn [negb].
  2: { exists v. unfold versionOn, find_first. cbn [List.find]. rewrite Hall.
       split; [done|]. by rewrite bands_unrestricted. }
  destruct (changeMonths v) as [|c cs] eqn:Ec.
  { exists v. unfold versionOn, find_first. cbn [List.find]. rewrite Hall.
    split; [done|]. by rewrite bands_constant. }
  rewrite <- Ec, Hend, Hf. set (B := season_boundaries (changeMonths v) (iso a) (iso e)).
  assert (∀ x, x ∈ B ↔ ∃ M, x = iso (month_day M) ∧ M mod 12 + 1 ∈ changeMonths v ∧ a < month_day M <= e) as HB.
  { intros x. apply elem_of_season_boundaries; [apply changeMonths_range|done|done|done]. }
  assert (∀ M, a < month_day M <= e → iso_range (month_day M) ∧ iso_range (month_day M - 1)) as HM.
  { rewrite !iso_range_iff in *. intros M HM. rewrite !iso_range_iff. lia. }
  destruct (close_segments_find v a n B) as (g & to & Hg & Hgin & Hgr & Hgn & Hgm); [done|done|lia| | |done|].
  { apply Forall_forall. intros x (M & -> & _ & Hr)%HB. exists M. split; [done|by apply HM]. }
  { apply Sorted_StronglySorted; [intros x y z; apply str_le_trans|]. unfold B, season_boundaries.
    destruct (date_field (iso a) 0 4), (date_field (iso e) 0 4); try constructor.
    apply sort_by_sorted, str_le_total. }
  exists (close_segment v (iso g) to). split; [exact Hg|].
  change (periods (close_segment v (iso g) to)) with (bandsInMonth v (default 0 (date_field (iso g) 5 7))).
  rewrite date_field_month by done. symmetry. apply same_bands; [done|done|].
  intros M [HgM HMn] Hin. assert (a <= g) as Hag.
  { destruct Hgin as [->|(M' & E & _ & HM')%HB]; [lia|]. apply iso_inj_days in E; [lia|done|]. by apply HM. }
  assert (month_day M <= g); [|lia]. destruct (HM M ltac:(lia)). apply Hgm; [done| |done].
  apply HB. exists M. split; [done|]. split; [done|lia].
Qed.

Lemma seasonalSegments_tile_witness :
  ∃ s, versionOn (seasonalSegments seasonal_sample (iso 20600)) (iso 20750) = Some s
    ∧ periods s = bandsInMonth seasonal_sample (month_no 20750) ∧ month_no 20750 = 10.
Proof.
  destruct (seasonalSegments_tile seasonal_sample 20600 20499 20969 20750) as (s & H1 & H2).
  - split; [apply (bool_decide_unpack _); vm_compute; reflexivity|].
    repeat constructor; try (vm_compute; reflexivity); done.
  - unfold runs. rewrite !iso_range_iff. repeat apply conj; try lia.
    + vm_compute. reflexivity.
    + left. vm_compute. reflexivity.
  - lia.
  - exists s. split; [exact H1|]. split; [exact H2|]. vm_compute. reflexivity.
Defined.

(** ** The step chart *)

(** Versions in order, each after the end of the one before it; only the last
    may be open. *)
Fixpoint timeline (vs : list TariffVersion) : Prop :=
  match vs with
  | [] => True
  | v :: rest =>
      ∃ a, valid_from v = iso a ∧ iso_range a ∧
        match rest with
        | [] => valid_to v = None ∨ ∃ b, valid_to v = Some (iso b) ∧ iso_range b ∧ a <= b
        | w :: _ => ∃ b c, valid_to v = Some (iso b) ∧ iso_range b ∧ a <= b ∧ valid_from w = iso c ∧ iso_range c ∧ b < c
        end ∧ timeline rest
  end.

(** The values the chart shows on a day: those of the last point not after it. *)
Definition chart_at (points : list PriceHistoryPoint) (n : Z) : option BandValues :=
  point_values <$> find_last (λ p, match point_t p with Some t => t <=? n * DAY_MS | None => false end) points.

Section Chart.
Context (bands : list BandKey) (today : Z) (valuesFor : TariffVersion → BandValues) (Htoday : iso_range today).

Definition values_point (day : Z) (values : BandValues) : PriceHistoryPoint :=
  {| point_t := Some (day * DAY_MS); point_date := iso day; point_values := values; point_note := None |}.

Lemma ms_iso n : iso_range n → ms (iso n) = Some (n * DAY_MS).
Proof. apply iso_midnight. Qed.

Lemma isoFromMs_day n : iso_range n → isoFromMs (Some (n * DAY_MS)) = Some (iso n).
Proof. intros H. cbn [isoFromMs fmap option_fmap option_map]. by rewrite to_iso_slice_iso. Qed.

Lemma ms_add_day n : ms_add (Some (n * DAY_MS)) DAY_MS = Some ((n + 1) * DAY_MS).
Proof. cbn [ms_add fmap option_fmap option_map]. f_equal. ring. Qed.

(** The point at the end of a run longer than a day. *)
Definition run_points (a b : Z) (values : BandValues) : list PriceHistoryPoint :=
  if a <? b then [values_point b values] else [].

Lemma version_points_inner (v w : TariffVersion) a b c :
  valid_from v = iso a → iso_range a → valid_to v = Some (iso b) → iso_range b →
  valid_from w = iso c → iso_range c → b < c →
  version_points bands (iso today) valuesFor v (Some w) = Some (values_point a (valuesFor v) ::
    (if c =? b + 1 then [] else run_points a b (valuesFor v) ++ [values_point (b + 1) (nulls bands)])%list).
Proof.
  intros Ef Ha Et Hb Ew Hc Hbc. unfold version_points. rewrite Ef, Et, Ew.
  cbn [truthy_str]. rewrite iso_nonempty. cbn [negb]. change (default "" (Some ?x)) with x.
  rewrite !ms_iso, ms_add_day by done. cbn [ms_eq].
  destruct (c =? b + 1) eqn:E; bool_facts.
  - subst c. by rewrite Z.eqb_refl.
  - destruct (c * DAY_MS =? (b + 1) * DAY_MS) eqn:E'; bool_facts; [unfold DAY_MS in E'; lia|].
    rewrite !isoFromMs_day; [|done|apply iso_range_iff in Hb, Hc; apply iso_range_iff; lia].
    unfold run_points. cbn [ms_gt]. assert ((a * DAY_MS <? b * DAY_MS) = (a <? b)) as ->.
    { apply eq_true_iff_eq. rewrite !Z.ltb_lt. unfold DAY_MS. lia. }
    by destruct (a <? b).
Qed.

Lemma version_points_last (v : TariffVersion) a :
  valid_from v = iso a → iso_range a →
  valid_to v = None ∨ (∃ b, valid_to v = Some (iso b) ∧ iso_range b ∧ a <= b) →
  ∃ e, a <= e ∧ version_points bands (iso today) valuesFor v None
    = Some (values_point a (valuesFor v) :: run_points a e (valuesFor v)).
Proof.
  intros Ef Ha Ht. unfold version_points. rewrite Ef. rewrite ms_iso by done.
  assert (∀ x y, (x * DAY_MS <? y * DAY_MS) = (x <? y)) as Hlt.
  { intros x y. apply eq_true_iff_eq. rewrite !Z.ltb_lt. unfold DAY_MS. lia. }
  destruct Ht as [->|(b & -> & Hb & Hab)].
  - exists (Z.max a today). split; [lia|]. cbn [truthy_str]. rewrite ms_iso by done. cbn [ms_max].
    assert (Z.max (today * DAY_MS) (a * DAY_MS) = Z.max a today * DAY_MS) as -> by (unfold DAY_MS; lia).
    cbn [ms_gt]. rewrite Hlt, isoFromMs_day; [unfold run_points; by destruct (a <? _)|].
    destruct (Z.max_spec a today) as [[_ ->]|[_ ->]]; done.
  - exists b. split; [done|]. cbn [truthy_str]. rewrite iso_nonempty. cbn [negb]. change (default "" (Some ?x)) with x.
    rewrite ms_iso by done. cbn [ms_gt]. rewrite Hlt, isoFromMs_day by done. unfold run_points. by destruct (a <? b).
Qed.

Definition starts_from (c : Z) (p : PriceHistoryPoint) : Prop := ∃ t, point_t p = Some (t * DAY_MS) ∧ c <= t.

Lemma chart_at_before points c n : Forall (starts_from c) points → n < c → 
  find_last (λ p, match point_t p with Some t => t <=? n * DAY_MS | None => false end) points = None.
Proof.
  intros Hp Hn. apply find_last_None. intros p Hin. rewrite Forall_forall in Hp.
  destruct (Hp p Hin) as (t & -> & Hct). apply Z.leb_gt. unfold DAY_MS. lia.
Qed.

Lemma find_point d values n :
  find_last (λ p, match point_t p with Some t => t <=? n * DAY_MS | None => false end) [values_point d values]
  = if d <=? n then Some (values_point d values) else None.
Proof.
  cbn. assert ((d * DAY_MS <=? n * DAY_MS) = (d <=? n)) as ->; [|by destruct (d <=? n)].
  apply eq_true_iff_eq. rewrite !Z.leb_le. unfold DAY_MS. lia.
Qed.
Lemma find_run a b values n :
  a <= n → find_last (λ p, match point_t p with Some t => t <=? n * DAY_MS | None => false end)
    (values_point a values :: run_points a b values) =
  Some (if (a <? b) && (b <=? n) then values_point b values else values_point a values).
Proof.
  intros Hn. change (values_point a values :: run_points a b values)
    with ([values_point a values] ++ run_points a b values)%list.
  rewrite find_last_app, find_point. unfold run_points. destruct (a <? b); cbn [andb].
  - rewrite find_point. destruct (b <=? n); [done|]. by rewrite (proj2 (Z.leb_le a n)).
  - cbn. by rewrite (proj2 (Z.leb_le a n)).
Qed.

Lemma timeline_starts vs a :
  timeline vs → (∀ v, head vs = Some v → valid_from (version_tariff v) = iso a) → iso_range a →
  ∀ w, w ∈ vs → ∃ c, valid_from (version_tariff w) = iso c ∧ iso_range c ∧ a <= c.
Proof.
  revert a; induction vs as [|v vs IH]; intros a Ht Hh Ha w Hw; [by apply elem_of_nil in Hw|].
  apply elem_of_cons in Hw as [->|Hw]; [exists a; split_and!; [by apply Hh|done|done]|].
  destruct Ht as (a' & Ef & Ha' & Hv & Ht). rewrite (Hh v eq_refl) in Ef. apply iso_inj_days in Ef as <-; [|done|done].
  destruct vs as [|x vs]; [by apply elem_of_nil in Hw|].
  destruct Hv as (b & c & _ & Hb & Hab & Ex & Hc & Hbc).
  destruct (IH c Ht ltac:(by intros ? [= <-]) Hc w Hw) as (d & ? & ? & ?). exists d. split_and!; [done|done|lia].
Qed.

Lemma not_yet_in_force vs c n :
  timeline vs → (∀ v, head vs = Some v → valid_from (version_tariff v) = iso c) → iso_range c → iso_range n →
  n < c → versionOn vs (iso n) = None.
Proof.
  intros Ht Hh Hc Hn Hnc. apply find_first_None. intros w Hw.
  destruct (timeline_starts vs c Ht Hh Hc w Hw) as (d & E & Hd & Hcd). unfold in_force_on.
  rewrite E, iso_le_days by done. apply andb_false_intro1, Z.leb_gt. lia.
Qed.

(** What the chart shows on a day of the timeline. *)
Definition shown (vs : list TariffVersion) (points : list PriceHistoryPoint) (n : Z) : Prop :=
  match versionOn vs (iso n) with
  | Some v => chart_at points n = Some (valuesFor v)
  | None => (∃ w c, w ∈ vs ∧ valid_from (version_tariff w) = iso c ∧ iso_range c ∧ n < c) →
      chart_at points n = Some (nulls bands)
  end.

Lemma in_force_iff (v : TariffVersion) a b n :
  valid_from v = iso a → valid_to v = Some (iso b) → iso_range a → iso_range b → iso_range n →
  in_force_on (iso n) v = (a <=? n) && (n <=? b).
Proof.
  intros Ea Eb Ha Hb Hn. unfold in_force_on. rewrite Ea, Eb. cbn [truthy_str]. rewrite iso_nonempty.
  cbn [negb orb]. change (default "" (Some ?x)) with x. by rewrite !iso_le_days.
Qed.

Lemma shown_last v a pts n :
  valid_from (version_tariff v) = iso a → iso_range a → iso_range n → a <= n →
  chart_at pts n = Some (valuesFor v) → shown [v] pts n.
Proof.
  intros Ef Ha Hn Han Hc. unfold shown, versionOn, find_first. cbn [List.find].
  destruct (in_force_on (iso n) v); [done|].
  intros (w & c & Hw & Ew & Hcr & Hnc). apply list_elem_of_singleton in Hw as ->.
  rewrite Ew in Ef. apply iso_inj_days in Ef; [lia|done|done].
Qed.

Lemma shown_cons v w rest a b c more n :
  timeline (w :: rest) → valid_from (version_tariff v) = iso a → valid_to (version_tariff v) = Some (iso b) →
  valid_from (version_tariff w) = iso c → iso_range a → iso_range b → iso_range c → iso_range n →
  a <= b → b < c → a <= n → Forall (starts_from c) more → (c <= n → shown (w :: rest) more n) →
  shown (v :: w :: rest) (values_point a (valuesFor v) ::
    (if c =? b + 1 then [] else run_points a b (valuesFor v) ++ [values_point (b + 1) (nulls bands)]) ++ more)%list n.
Proof.
  intros Ht Ea Eb Ec Ha Hb Hc Hn Hab Hbc Han Hmore Hrest.
  assert (versionOn (v :: w :: rest) (iso n) = if n <=? b then Some v else versionOn (w :: rest) (iso n)) as Ev.
  { unfold versionOn, find_first. cbn [List.find]. rewrite (in_force_iff v a b n) by done.
    assert ((a <=? n) = true) as -> by (by apply Z.leb_le). cbn [andb]. by destruct (n <=? b). }
  unfold shown. rewrite Ev. unfold chart_at. rewrite app_comm_cons, find_last_app.
  destruct (decide (c <= n)) as [Hcn|Hcn].
  - assert ((n <=? b) = false) as -> by (apply Z.leb_gt; lia). specialize (Hrest Hcn). unfold shown, chart_at in Hrest.
    destruct (versionOn (w :: rest) (iso n)) as [u|]; [by destruct (find_last _ more)|].
    intros (x & d & Hx & Ex & Hd & Hnd). destruct (find_last _ more); [|discriminate Hrest].
    + apply Hrest. exists x, d. split; [|done]. apply elem_of_cons in Hx as [->|Hx]; [|done].
      rewrite Ea in Ex. apply iso_inj_days in Ex; [lia|done|done].
    + exists x, d. split; [|done]. apply elem_of_cons in Hx as [->|Hx]; [|done].
      rewrite Ea in Ex. apply iso_inj_days in Ex; [lia|done|done].
  - rewrite (chart_at_before more c n) by (done || lia).
    rewrite (not_yet_in_force (w :: rest) c n); [|done|by intros ? [= <-]|done|done|lia].
    destruct (c =? b + 1) eqn:E; bool_facts.
    + assert ((n <=? b) = true) as -> by (apply Z.leb_le; lia). rewrite find_point.
      by assert ((a <=? n) = true) as -> by (apply Z.leb_le; lia).
    + rewrite app_comm_cons, find_last_app, find_point. destruct (n <=? b) eqn:Enb; bool_facts.
      * assert ((b + 1 <=? n) = false) as -> by (apply Z.leb_gt; lia). rewrite find_run by done.
        by destruct (_ && _).
      * assert ((b + 1 <=? n) = true) as -> by (apply Z.leb_le; lia). done.
Qed.

(** C25. The chart is the step function of the timeline: on every day it shows the
    prices of the version in force, and no price inside a gap. *)
Theorem assemble_steps vs v0 a0 :
  timeline vs → head vs = Some v0 → valid_from (version_tariff v0) = iso a0 → iso_range a0 →
  ∃ points, assemble bands (iso today) valuesFor vs = Some points ∧ Forall (starts_from a0) points ∧
    ∀ n, iso_range n → a0 <= n → shown vs points n.
Proof.
  revert v0 a0. induction vs as [|v vs IH]; intros v0 a0 Ht Hh Ea Ha; [done|]. injection Hh as <-.
  destruct Ht as (a & Ef & Ha' & Hv & Ht). rewrite Ea in Ef. apply iso_inj_days in Ef as <-; [|done|done].
  destruct vs as [|w rest].
  - destruct (version_points_last v a0 Ea Ha Hv) as (e & Hae & Ep).
    exists (values_point a0 (valuesFor v) :: run_points a0 e (valuesFor v)).
    split; [cbn [assemble head]; rewrite Ep; cbn [mbind option_bind]; by rewrite app_nil_r|].
    split; [constructor; [by exists a0|unfold run_points; destruct (a0 <? e); repeat constructor; by exists e]|].
    intros n Hn Han. apply (shown_last v a0); [done|done|done|done|].
    unfold chart_at. rewrite find_run by done. by destruct (_ && _).
  - destruct Hv as (b & c & Eb & Hb & Hab & Ec & Hc & Hbc).
    destruct (IH w c Ht eq_refl Ec Hc) as (more & Em & Hs & Hshow).
    set (here := values_point a0 (valuesFor v) :: (if c =? b + 1 then [] else
      run_points a0 b (valuesFor v) ++ [values_point (b + 1) (nulls bands)])%list).
    exists (here ++ more)%list. split.
    { change (assemble bands (iso today) valuesFor (v :: w :: rest)) with
        (here ← version_points bands (iso today) valuesFor v (Some w);
         more ← assemble bands (iso today) valuesFor (w :: rest); Some (here ++ more)%list).
      rewrite (version_points_inner v w a0 b c) by done. cbn [mbind option_bind]. by rewrite Em. }
    split.
    + apply Forall_app. split; [|eapply Forall_impl; [exact Hs|intros p (t & Et & Hct); exists t; split; [done|lia]]].
      unfold here. constructor; [by exists a0|]. destruct (c =? b + 1); [done|]. apply Forall_app. split.
      * unfold run_points. destruct (a0 <? b); repeat constructor. by exists b.
      * repeat constructor. exists (b + 1). split; [done|lia].
    + intros n Hn Han. apply shown_cons; try done. intros Hcn. by apply Hshow.
Qed.
End Chart.

Definition gap_timeline : list TariffVersion :=
  [sample_version "v" "2026-01-01" (Some "2026-03-31") [sample_period "a" Flat "0.2" None];
   sample_version "w" "2026-05-01" None [sample_period "b" Flat "0.25" None]].

Lemma gap_timeline_ok : timeline gap_timeline.
Proof.
  exists 20454. split; [vm_compute; reflexivity|]. split; [apply iso_range_iff; lia|]. split.
  - exists 20543, 20574. rewrite !iso_range_iff.
    repeat apply conj; try lia; vm_compute; reflexivity.
  - exists 20574. split; [vm_compute; reflexivity|]. split; [apply iso_range_iff; lia|]. split; [by left|done].
Qed.

Lemma assemble_steps_witness :
  let values (v : TariffVersion) : BandValues := [(KFlat, p ← head (periods v); num_of (price_chf_per_kwh p))] in
  ∃ points, assemble [KFlat] (iso 20635) values gap_timeline = Some points ∧
    shown [KFlat] values gap_timeline points 20550.
Proof.
  intros values.
  destruct (assemble_steps [KFlat] 20635 values (proj2 (iso_range_iff 20635) ltac:(lia)) gap_timeline
    (sample_version "v" "2026-01-01" (Some "2026-03-31") [sample_period "a" Flat "0.2" None]) 20454 gap_timeline_ok)
    as (points & E & _ & H).
  - reflexivity.
  - vm_compute. reflexivity.
  - apply iso_range_iff. lia.
  - exists points. split; [exact E|]. apply H; [apply iso_range_iff; lia|lia].
Defined.
