(* ===== verification/RateLines.v ===== *)
(** The rows a tariff shows (features/tariffs/rateLines.ts) and how prices move
    from one version to the next (features/tariffs/priceDelta.ts).

    Translations, [Intl.NumberFormat] and the date format are parameters: they
    belong to the runtime and the locale files. *)

From S2P Require Import Prelude JsString JsNumber TariffTypes Recurrence.
Local Open Scope string_scope.

(** An option passed to the translate function. *)
Inductive TranslateOpt := OptText (s : string) | OptNum (n : num).

Record RateLine := { applies : string; price : string; unit_text : string }.
#[export] Instance RateLine_eq_dec : EqDecision RateLine.
Proof. solve_decision. Defined.

(** How the next version of a tariff differs from the one in force. *)
Inductive NextChange :=
  | ChangePrices (prices unit : string)
  | ChangeSchedule
  | ChangeVersion.

(** [.filter(Boolean)] on texts that may be absent. *)
Definition present_texts (l : list (option string)) : list string :=
  bfilter nonempty (omap (λ x, x) l).

Section RateLines.
(** The translate function and [kwhPrice.format]. *)
Context (t : string → list (string * TranslateOpt) → string) (kwhPrice : num → string).

Definition formatBandApplies (period : TariffPeriod) (dayNames monthNames : list string) : string :=
  let window := bandWindow (band_like period) in
  let catchAll := negb (bool_decide (period_type period = Flat)) && negb (truthy_str window) in
  let allOtherHours := t "pages.tariffs.rateCard.allOtherHours" [] in
  let unnamedCatchAll := catchAll && bool_decide (period_type period = Band) && negb (truthy_str (label period)) in
  let name := if unnamedCatchAll then allOtherHours
    else bandName (band_like period)
      (t ("pages.tariffs.periodTypes." ++ period_type_text (period_type period))
         [("defaultValue", OptText (period_type_text (period_type period)))]) in
  let when := join ", " (present_texts
    [Some (formatWeekdays (weekdays period) dayNames);
     if bool_decide (Some name = window) then None else window;
     Some (formatSeason (months period) monthNames);
     if catchAll && negb unnamedCatchAll then Some allOtherHours else None]) in
  if bool_decide (period_type period = Flat) && negb (nonempty when) then t "pages.tariffs.rateCard.allHours" []
  else trim (name ++ " " ++ when).

Definition formatBandSchedule (period : TariffPeriod) (dayNames monthNames : list string) : string :=
  let hours := if bool_decide (period_type period = Flat) then t "pages.tariffs.allDay" []
    else default (t "pages.tariffs.rateCard.allOtherHours" []) (bandWindow (band_like period)) in
  let days := formatWeekdays (weekdays period) dayNames in
  join " · " (present_texts
    [Some hours; Some (if nonempty days then days else t "pages.tariffs.allWeekdays" []);
     Some (formatSeason (months period) monthNames)]).

Definition is_partial (s : option CompleteStatus) : bool := match s with Some StatusPartial => true | _ => false end.

Definition base_price (version : TariffVersion) : option string :=
  s ← percentage_base_summary version; pbs_price_chf_per_kwh s.

(** The row of one band. [Number(null)] is 0 and [Number(undefined)] is NaN; an
    absent percentage is taken as null, as the API sends it. *)
Definition period_line (billing : TariffBillingMode) (version : TariffVersion) (dayNames monthNames : list string)
    (period : TariffPeriod) : RateLine :=
  let perKwh := t "pages.tariffs.rateCard.perKwh" [] in
  let applies := formatBandApplies period dayNames monthNames in
  match billing with
  | Energy =>
      {| applies := applies;
         price := if truthy_str (price_chf_per_kwh period)
           then kwhPrice (to_number (default "" (price_chf_per_kwh period))) else "—";
         unit_text := perKwh |}
  | _ =>
      let pct := match percentage period with Some p => to_number p | None => of_Z 0 end in
      let share := match base_price version with
        | Some base => t "pages.tariffs.rateCard.percentOfBase" [("percentage", OptNum pct); ("base", OptText (to_fixed 3 (to_number base)))]
        | None => t "pages.tariffs.rateCard.percentOf" [("percentage", OptNum pct)]
        end in
      {| applies := join " · " (present_texts [Some applies; Some share;
           if is_partial (s ← percentage_base_summary version; pbs_dynamic_status s)
           then Some (t "pages.tariffs.rateCard.incompleteBaseAverage" []) else None]);
         price := match base_price version with
           | Some base => "≈ " ++ to_fixed 3 (num_div (num_mul (to_number base) pct) (of_Z 100))
           | None => "—" end;
         unit_text := perKwh |}
  end.

(** [billing_mode.endsWith('yearly_fee')] and the [startsWith] tests. *)
Definition is_yearly (m : TariffBillingMode) : bool :=
  match m with YearlyFee | PerMeteringPointYearlyFee | SharedYearlyFee => true | _ => false end.
Definition fee_basis (m : TariffBillingMode) : string :=
  match m with
  | PerMeteringPointMonthlyFee | PerMeteringPointYearlyFee => "perMeteringPoint"
  | SharedMonthlyFee | SharedYearlyFee => "shared"
  | _ => "perParticipant"
  end.

Definition dynamic_line (version : TariffVersion) (formatDate : string → string) : RateLine :=
  let perKwh := t "pages.tariffs.rateCard.perKwh" [] in
  let date d := if truthy_str d then formatDate (default "" d) else "" in
  match dynamic_price_summary version with
  | Some summary =>
      if truthy_str (dps_average_chf_per_kwh summary) then
        {| applies := t (match dps_status summary with
             | StatusPartial => "pages.tariffs.rateCard.dynamicPartial"
             | _ => "pages.tariffs.rateCard.dynamicAverage" end)
             [("from", OptText (date (dps_reference_from summary))); ("to", OptText (date (dps_reference_to summary)))];
           price := to_fixed 3 (to_number (default "" (dps_average_chf_per_kwh summary))); unit_text := perKwh |}
      else {| applies := t "pages.tariffs.dynamicPriced" []; price := "—"; unit_text := perKwh |}
  | None => {| applies := t "pages.tariffs.dynamicPriced" []; price := "—"; unit_text := perKwh |}
  end.

Definition fee_line (billing : TariffBillingMode) (version : TariffVersion) : RateLine :=
  {| applies := t ("pages.tariffs.rateCard." ++ fee_basis billing) [];
     price := to_fixed 2 (to_number (or_str (fixed_price_chf version) "0"));
     unit_text := t (if is_yearly billing then "pages.tariffs.rateCard.perYear" else "pages.tariffs.rateCard.perMonth") [] |}.

Definition is_banded (m : TariffBillingMode) : bool := match m with Energy | PercentageOfEnergy => true | _ => false end.

Definition buildRateLines (series : TariffSeries) (version : TariffVersion) (dayNames monthNames : list string)
    (formatDate : string → string) : list RateLine :=
  if truthy_str (dynamic_source version) then [dynamic_line version formatDate]
  else if is_banded (series_billing_mode series) then
    match periods version with
    | [] => [{| applies := t "pages.tariffs.noPeriods" []; price := ""; unit_text := "" |}]
    | ps => period_line (series_billing_mode series) version dayNames monthNames <$> ps
    end
  else [fee_line (series_billing_mode series) version].
End RateLines.

Definition hasPrice (line : RateLine) : bool := nonempty (price line) && negb (String.eqb (price line) "—").

Definition same_band (a b : RateLine) : bool := String.eqb (applies a) (applies b) && String.eqb (unit_text a) (unit_text b).

Definition nextChange (current planned : list RateLine) : NextChange :=
  if negb (existsb hasPrice planned) then ChangeVersion
  else if (length current =? length planned)%nat && forallb (λ '(a, b), same_band a b) (zip current planned)
  then ChangePrices (join " / " ((λ l, if nonempty (price l) then price l else "—") <$> planned))
         (default "" (unit_text <$> head planned))
  else ChangeSchedule.

(** ** Model of priceDelta.ts *)

Inductive DeltaUnit := UnitPrice | UnitChf | UnitPoints.
#[export] Instance DeltaUnit_eq_dec : EqDecision DeltaUnit.
Proof. solve_decision. Defined.

Record PriceDelta := { diff : num; percent : option num; delta_unit : DeltaUnit }.

Record VersionDeltas := { version_delta : option PriceDelta; band_deltas : list (string * PriceDelta) }.

Definition round_digits (value : num) (digits : nat) : num := to_number (to_fixed digits value).

Definition delta (from to : num) (unit : DeltaUnit) : option PriceDelta :=
  let d := round_digits (num_sub to from) (if bool_decide (unit = UnitChf) then 2 else 5) in
  if num_eqb d (of_Z 0) then None
  else Some {| diff := d;
    percent := if bool_decide (unit = UnitPoints) || num_eqb from (of_Z 0) then None
      else Some (round_digits (num_mul (num_div d from) (of_Z 100)) 1);
    delta_unit := unit |}.

Definition bandKey (period : TariffPeriod) : string :=
  join "|" [period_type_text (period_type period); default "" (label period); default "" (time_from period);
            default "" (time_to period); default "" (weekdays period); default "" (months period)].

Definition compared (percentage_mode : bool) (period : TariffPeriod) : option string :=
  if percentage_mode then percentage period else price_chf_per_kwh period.

(** The delta of one band of [to] against the band of [from] with its key. *)
Definition band_delta (percentage_mode : bool) (before : list (string * TariffPeriod)) (period : TariffPeriod) : option PriceDelta :=
  a ← (old ← omap_get (bandKey period) before; compared percentage_mode old);
  b ← compared percentage_mode period;
  delta (to_number a) (to_number b) (if percentage_mode then UnitPoints else UnitPrice).

Definition set_delta (percentage_mode : bool) (before : list (string * TariffPeriod))
    (bands : list (string * PriceDelta)) (period : TariffPeriod) : list (string * PriceDelta) :=
  match band_delta percentage_mode before period with
  | Some change => omap_set (period_id period) change bands
  | None => bands
  end.

Definition versionDeltas (series : TariffSeries) (from to : TariffVersion) : VersionDeltas :=
  if truthy_str (dynamic_source from) || truthy_str (dynamic_source to)
  then {| version_delta := None; band_deltas := [] |}
  else if is_banded (series_billing_mode series) then
    let pct := bool_decide (series_billing_mode series = PercentageOfEnergy) in
    let before := omap_of ((λ p, (bandKey p, p)) <$> periods from) in
    {| version_delta := None; band_deltas := foldl (set_delta pct before) [] (periods to) |}
  else
    {| version_delta := delta (to_number (or_str (fixed_price_chf from) "0")) (to_number (or_str (fixed_price_chf to) "0")) UnitChf;
       band_deltas := [] |}.

Section Format.
Context (kwhPrice : num → string) (points : num → string).

Definition formatDelta (value : PriceDelta) (short : bool) : string :=
  let sign := if num_gt (diff value) (of_Z 0) then "+" else "−" in
  let size := num_abs (diff value) in
  let percent_text := (λ p, sign ++ num_to_string (num_abs p) ++ " %") <$> percent value in
  match short, percent_text with
  | true, Some p => p
  | _, _ =>
      let amount := match delta_unit value with
        | UnitPoints => points size | UnitChf => to_fixed 2 size | UnitPrice => kwhPrice size end in
      match percent_text with
      | Some p => sign ++ amount ++ " (" ++ p ++ ")"
      | None => sign ++ amount
      end
  end.

Definition deltaSummary (series : TariffSeries) (from to : TariffVersion) : option string :=
  let deltas := versionDeltas series from to in
  let parts := if is_banded (series_billing_mode series)
    then (λ p, omap_get (period_id p) (band_deltas deltas)) <$> periods to
    else [version_delta deltas] in
  if forallb (λ p : option PriceDelta, bool_decide (¬ is_Some p)) parts then None
  else Some (join " / " ((λ p, match p with Some d => formatDelta d true | None => "±0" end) <$> parts)).
End Format.

#[export] Instance PriceDelta_eq_dec : EqDecision PriceDelta.
Proof. solve_decision. Defined.

(** ** How the next version differs *)

Lemma same_band_true a b : same_band a b = true ↔ applies a = applies b ∧ unit_text a = unit_text b.
Proof. unfold same_band. by rewrite andb_true_iff, !String.eqb_eq. Qed.

Lemma comparable_iff current planned :
  (length current =? length planned)%nat && forallb (λ '(a, b), same_band a b) (zip current planned) = true ↔
  Forall2 (λ a b, applies a = applies b ∧ unit_text a = unit_text b) current planned.
Proof.
  rewrite andb_true_iff, Nat.eqb_eq. revert planned.
  induction current as [|a l IH]; intros [|b planned]; simpl; try (split; [by intros []|intros H; inversion H]).
  - split; [constructor|done].
  - rewrite andb_true_iff, same_band_true, Forall2_cons, <- IH. naive_solver lia.
Qed.

(** Prices are lined up only against the same bands in the same order; a next
    version without any price is just a date. *)
Theorem nextChange_spec current planned :
  match nextChange current planned with
  | ChangeVersion => ∀ l, l ∈ planned → hasPrice l = false
  | ChangePrices _ unit =>
      (∃ l, l ∈ planned ∧ hasPrice l = true) ∧
      Forall2 (λ a b, applies a = applies b ∧ unit_text a = unit_text b) current planned ∧
      head planned = head planned ∧ Some unit = unit_text <$> head planned
  | ChangeSchedule =>
      (∃ l, l ∈ planned ∧ hasPrice l = true) ∧
      ¬ Forall2 (λ a b, applies a = applies b ∧ unit_text a = unit_text b) current planned
  end.
Proof.
  unfold nextChange. destruct (existsb hasPrice planned) eqn:E; cbn [negb].
  - apply existsb_elem in E. destruct (_ && _) eqn:Ec.
    + apply comparable_iff in Ec. split; [done|]. split; [done|]. split; [done|].
      destruct planned; [|done]. destruct E as (l & Hl & _). by apply elem_of_nil in Hl.
    + split; [done|]. rewrite <- comparable_iff. congruence.
  - intros l Hl. destruct (hasPrice l) eqn:Ep; [|done].
    assert (existsb hasPrice planned = true) by (apply existsb_elem; eauto). congruence.
Qed.

(** ** Deltas *)

Lemma delta_same x unit : is_finite x = true → delta x x unit = None.
Proof.
  intros H. unfold delta. rewrite num_sub_diag by done.
  destruct (bool_decide (unit = UnitChf)); unfold round_digits;
    (assert (num_eqb (to_number (to_fixed _ (SpecFloat.S754_zero false))) (of_Z 0) = true) as -> by (vm_compute; reflexivity)); done.
Qed.

Lemma foldl_set_delta pct before ps bands p :
  NoDup (period_id <$> ps) → p ∈ ps → omap_get (period_id p) bands = None →
  omap_get (period_id p) (foldl (set_delta pct before) bands ps) = band_delta pct before p.
Proof.
  assert (∀ ps bands k, k ∉ period_id <$> ps →
    omap_get k (foldl (set_delta pct before) bands ps) = omap_get k bands) as Hout.
  { clear. induction ps as [|q ps IH]; intros bands k Hk; [done|]. rewrite fmap_cons, elem_of_cons in Hk. cbn [foldl].
    rewrite IH by tauto. unfold set_delta. destruct (band_delta pct before q); [|done].
    apply omap_get_set_ne. tauto. }
  revert bands. induction ps as [|q ps IH]; intros bands Hn Hp Hb; [by apply elem_of_nil in Hp|].
  rewrite fmap_cons in Hn. apply NoDup_cons in Hn as [Hq Hn]. cbn [foldl].
  apply elem_of_cons in Hp as [->|Hp].
  - rewrite Hout by done. unfold set_delta. destruct (band_delta pct before q); [apply omap_get_set_eq|done].
  - apply IH; [done|done|]. unfold set_delta. destruct (band_delta pct before q); [|done].
    rewrite omap_get_set_ne; [done|]. intros E. apply Hq. rewrite <- E. by apply list_elem_of_fmap_2.
Qed.

Lemma before_lookup k (ps : list TariffPeriod) :
  NoDup (bandKey <$> ps) →
  omap_get k (omap_of ((λ p, (bandKey p, p)) <$> ps)) = find_first (λ q, String.eqb (bandKey q) k) ps.
Proof.
  intros Hk. rewrite omap_get_of by (by rewrite <- list_fmap_compose).
  clear. induction ps as [|q l IH]; [done|]. rewrite fmap_cons. cbn [omap_get]. rewrite IH.
  unfold find_first. cbn [List.find]. rewrite (String.eqb_sym (bandKey q)).
  destruct (String.eqb k (bandKey q)) eqn:E.
  - apply String.eqb_eq in E. by rewrite bool_decide_true.
  - apply String.eqb_neq in E. by rewrite bool_decide_false.
Qed.

Lemma band_deltas_lookup series from to p :
  truthy_str (dynamic_source (version_tariff from)) = false → truthy_str (dynamic_source (version_tariff to)) = false →
  is_banded (series_billing_mode series) = true → NoDup (period_id <$> periods to) → p ∈ periods to →
  omap_get (period_id p) (band_deltas (versionDeltas series from to)) =
    band_delta (bool_decide (series_billing_mode series = PercentageOfEnergy))
      (omap_of ((λ p, (bandKey p, p)) <$> periods from)) p.
Proof.
  intros Hf Ht Hm Hn Hp. unfold versionDeltas. rewrite Hf, Ht, Hm. cbn [orb band_deltas].
  by apply foldl_set_delta.
Qed.

(** Every band of the new version has exactly the delta to the band of the old
    one with the same hours, days and months. *)
Theorem versionDeltas_bands series from to p :
  truthy_str (dynamic_source (version_tariff from)) = false → truthy_str (dynamic_source (version_tariff to)) = false →
  is_banded (series_billing_mode series) = true →
  NoDup (bandKey <$> periods from) → NoDup (period_id <$> periods to) → p ∈ periods to →
  omap_get (period_id p) (band_deltas (versionDeltas series from to)) =
    let pct := bool_decide (series_billing_mode series = PercentageOfEnergy) in
    a ← (old ← find_first (λ q, String.eqb (bandKey q) (bandKey p)) (periods from); compared pct old);
    b ← compared pct p;
    delta (to_number a) (to_number b) (if pct then UnitPoints else UnitPrice).
Proof.
  intros Hf Ht Hm Hk Hn Hp. rewrite band_deltas_lookup by done. unfold band_delta. by rewrite before_lookup.
Qed.

Lemma versionDeltas_bands_witness :
  let old := sample_version "v" "2025-01-01" None [sample_period "a" Flat "0.20" None] in
  let new := sample_version "w" "2026-01-01" None [sample_period "b" Flat "0.21" None] in
  (λ d, (num_to_string (diff d), option_map num_to_string (percent d))) <$>
    omap_get "b" (band_deltas (versionDeltas (sample_series Energy []) old new)) = Some ("0.01", Some "5").
Proof.
  intros old new. change (omap_get "b") with (omap_get (V := PriceDelta) (period_id (sample_period "b" Flat "0.21" None))).
  rewrite (versionDeltas_bands (sample_series Energy []) old new (sample_period "b" Flat "0.21" None)
    eq_refl eq_refl eq_refl).
  - vm_compute. reflexivity.
  - apply (bool_decide_unpack _). vm_compute. reflexivity.
  - apply (bool_decide_unpack _). vm_compute. reflexivity.
  - left.
Defined.

Lemma no_parts (f : TariffPeriod → option PriceDelta) ps :
  (∀ p, p ∈ ps → f p = None) →
  forallb (λ p : option PriceDelta, bool_decide (¬ is_Some p)) (f <$> ps) = true.
Proof.
  intros H. apply forallb_elem. intros x (p & -> & Hin)%list_elem_of_fmap. rewrite H by done.
  apply bool_decide_eq_true. by intros [? [=]].
Qed.

(** A version compared with itself shows no change. *)
Theorem deltaSummary_same series v kwhPrice points :
  NoDup (bandKey <$> periods v) → NoDup (period_id <$> periods v) →
  (∀ p x, p ∈ periods v → price_chf_per_kwh p = Some x ∨ percentage p = Some x → is_finite (to_number x) = true) →
  is_finite (to_number (or_str (fixed_price_chf (version_tariff v)) "0")) = true →
  deltaSummary kwhPrice points series v v = None.
Proof.
  intros Hk Hn Hp Hfix. unfold deltaSummary.
  destruct (truthy_str (dynamic_source v)) eqn:Hd.
  { unfold versionDeltas. rewrite Hd. cbn [orb band_deltas version_delta].
    destruct (is_banded _); [|done]. by rewrite no_parts. }
  destruct (is_banded (series_billing_mode series)) eqn:Hb.
  2: { unfold versionDeltas. rewrite Hd, Hb. cbn [orb version_delta]. by rewrite delta_same. }
  assert (∀ p, p ∈ periods v → omap_get (period_id p) (band_deltas (versionDeltas series v v)) = None) as H.
  { intros p Hin. rewrite band_deltas_lookup by done. unfold band_delta. rewrite before_lookup by done.
    destruct (find_first _ (periods v)) as [q|] eqn:E; [|done].
    apply find_first_Some in E as [Hq E]. apply String.eqb_eq in E.
    assert (q = p) as ->.
    { apply list_elem_of_lookup_1 in Hq as [i Hi]. apply list_elem_of_lookup_1 in Hin as [j Hj].
      assert (i = j) as ->; [|congruence].
      eapply (NoDup_lookup (bandKey <$> periods v)); [done|by rewrite list_lookup_fmap, Hi|].
      rewrite list_lookup_fmap, Hj. simpl. congruence. }
    cbn [mbind option_bind]. unfold compared.
    destruct (bool_decide (series_billing_mode series = PercentageOfEnergy)).
    - destruct (percentage p) eqn:Ep; [|done]. cbn [mbind option_bind]. apply delta_same. eauto.
    - destruct (price_chf_per_kwh p) eqn:Ep; [|done]. cbn [mbind option_bind]. apply delta_same. eauto. }
  by rewrite no_parts.
Qed.

Lemma deltaSummary_same_witness :
  deltaSummary num_to_string num_to_string (sample_series Energy [])
    (sample_version "v" "2025-01-01" None [sample_period "a" Flat "0.20" None])
    (sample_version "v" "2025-01-01" None [sample_period "a" Flat "0.20" None]) = None.
Proof.
  apply (deltaSummary_same (sample_series Energy [])).
  - apply (bool_decide_unpack _). vm_compute. reflexivity.
  - apply (bool_decide_unpack _). vm_compute. reflexivity.
  - intros p x ->%list_elem_of_singleton [[= <-]|[=]]. vm_compute. reflexivity.
  - vm_compute. reflexivity.
Defined.

Example delta_ex :
  deltaSummary (to_fixed 3) (to_fixed 1) (sample_series Energy [])
    (sample_version "v" "2025-01-01" None [sample_period "a" High "0.295" None; sample_period "c" Low "0.2" None])
    (sample_version "w" "2026-01-01" None [sample_period "b" High "0.315" None; sample_period "d" Low "0.2" None])
  = Some "+6.8 % / ±0".
Proof. by vm_compute. Qed.
