(* ===== verification/DynamicPrices.v ===== *)
(** Fetched price series (features/tariffs/dynamicPriceGaps.ts and
    dynamicSources.ts): the elapsed part of the holes, the missing civil dates,
    the chart rows of a window, and which sources a tariff may link to.

    [localeCompare] is a parameter; [date_order] is what the code relies on for
    ISO dates. *)

From S2P Require Import Prelude JsString JsNumber JsDate Dates TariffTypes.
Local Open Scope string_scope.
Local Open Scope Z_scope.

(** ** Model of dynamicPriceGaps.ts *)

(** [a < b], [a >= b] and [===] on instants that may be NaN. *)
Definition opt_ge (a b : option Z) : bool := match a, b with Some x, Some y => y <=? x | _, _ => false end.
Definition opt_eq (a b : option Z) : bool := match a, b with Some x, Some y => x =? y | _, _ => false end.
Definition opt_min (a b : option Z) : option Z := match a, b with Some x, Some y => Some (Z.min x y) | _, _ => None end.
Definition opt_max (a b : option Z) : option Z := match a, b with Some x, Some y => Some (Z.max x y) | _, _ => None end.

(** One gap of [elapsedPriceGaps]; [None] is the RangeError of an invalid end. *)
Definition elapsed_gap (now : Z) (gap : PriceGap) : option (list PriceGap) :=
  let stop := opt_min (date_parse (gap_to gap)) (Some now) in
  if opt_ge (date_parse (gap_from gap)) stop then Some []
  else if opt_eq stop (date_parse (gap_to gap)) then Some [gap]
  else match stop with
       | Some ms => Some [{| gap_from := gap_from gap; gap_to := to_iso_string ms |}]
       | None => None
       end.

Fixpoint elapsedPriceGaps (gaps : list PriceGap) (now : Z) : option (list PriceGap) :=
  match gaps with
  | [] => Some []
  | g :: rest => here ← elapsed_gap now g; more ← elapsedPriceGaps rest now; Some (here ++ more)%list
  end.

Record DateRange := { range_from : string; range_to : string }.
#[export] Instance DateRange_eq_dec : EqDecision DateRange.
Proof. solve_decision. Defined.

Section Missing.
Context `{Zone} (localeCompare : string → string → Z).

(** The civil dates of a gap; [None] is the RangeError of an invalid date. *)
Definition gap_dates (gap : PriceGap) : option DateRange :=
  a ← date_parse (gap_from gap); b ← date_parse (gap_to gap);
  Some {| range_from := formatBusinessIsoDate a; range_to := formatBusinessIsoDate (b - 1) |}.

(** One turn of the merging loop. *)
Definition merge_day (ranges : list DateRange) (day : DateRange) : list DateRange :=
  match last ranges with
  | Some previous =>
      if str_le (range_from day) (nextIsoDate (range_to previous))
      then if str_lt (range_to previous) (range_to day)
           then removelast ranges ++ [{| range_from := range_from previous; range_to := range_to day |}]
           else ranges
      else ranges ++ [day]
  | None => [day]
  end%list.

Definition missingPriceDates (gaps : list PriceGap) : option (list DateRange) :=
  days ← mapM gap_dates gaps;
  Some (foldl merge_day [] (sort_by (λ l r, localeCompare (range_from l) (range_from r) <=? 0) days)).
End Missing.

Definition missingRangeLabel (formatShortDate : string → string) (t : string → list (string * string) → string)
    (r : DateRange) : string :=
  let from := formatShortDate (range_from r) in
  let to := formatShortDate (range_to r) in
  if String.eqb from to then t "pages.dynamicSources.history.missingDate" [("date", from)]
  else t "pages.dynamicSources.history.missingDates" [("from", from); ("to", to)].

(** A row of the chart: [None] prices are null, a [None] timestamp is NaN. *)
Record ChartRow := { timestamp : option Z; row_price : option num }.

Definition point_rows (start stop : Z) (point : DynamicPricePoint) : list ChartRow :=
  let from := opt_max (Some start) (date_parse (point_from point)) in
  let to := opt_min (Some stop) (date_parse (point_to point)) in
  if opt_ge from to then []
  else let price := Some (to_number (point_price point)) in
    [{| timestamp := from; row_price := price |}; {| timestamp := (λ x, x - 1) <$> to; row_price := price |}].

Definition gap_rows (gap : PriceGap) : list ChartRow :=
  [{| timestamp := date_parse (gap_from gap); row_price := None |};
   {| timestamp := (λ x, x - 1) <$> date_parse (gap_to gap); row_price := None |}].

(** A positive difference puts [right] first; NaN counts as equal. *)
Definition row_le (left right : ChartRow) : bool :=
  match timestamp left, timestamp right with Some a, Some b => a <=? b | _, _ => true end.

Definition dynamicChartData (points : list DynamicPricePoint) (gaps : list PriceGap) (start stop : Z) : list ChartRow :=
  sort_by row_le (mbind (point_rows start stop) points ++ mbind gap_rows gaps)%list.

Record WindowBounds := { bounds_start : option Z; bounds_end : option Z }.

Definition windowBounds `{Zone} (dateFrom dateTo : string) : WindowBounds :=
  if String.eqb dateFrom "" || String.eqb dateTo "" then {| bounds_start := Some 0; bounds_end := Some 0 |}
  else {| bounds_start := businessDayStartMs dateFrom; bounds_end := businessDayStartMs (nextIsoDate dateTo) |}.

(** ** Model of dynamicSources.ts *)

Definition ENERGY_TYPE_BY_DYNAMIC_TARIFF_TYPE (t : DynamicTariffType) : option EnergyType :=
  match t with
  | DynElectricity => Some GridEnergy
  | DynGrid => Some GridEnergy
  | DynMetering => Some GridEnergy
  | DynNationalFees => Some GridEnergy
  | DynDso => Some GridEnergy
  | DynDsoComplete => Some GridEnergy
  | DynIntegrated => Some GridEnergy
  | DynIntegratedComplete => Some GridEnergy
  | DynRegionalFees => Some GridEnergy
  | DynFeedIn => Some FeedIn
  | DynRefund => None
  end.

Definition impliedEnergyType (source : DynamicTariffSource) : option EnergyType :=
  ENERGY_TYPE_BY_DYNAMIC_TARIFF_TYPE (source_tariff_type source).

Definition dynamicSourceOptions (sources : list DynamicTariffSource) (lockedEnergyType : option EnergyType) : list DynamicTariffSource :=
  bfilter (λ source,
    match impliedEnergyType source with
    | Some energyType =>
        match lockedEnergyType with Some locked => bool_decide (energyType = locked) | None => true end
    | None => false
    end) sources.

(** ** The elapsed part of a gap *)

Definition instant_range (t : Z) : Prop := iso_range (t / DAY_MS).

Lemma date_parse_to_iso_instant t : instant_range t → date_parse (to_iso_string t) = Some t.
Proof.
  intros Ht. pose proof (Z.div_mod t DAY_MS ltac:(unfold DAY_MS; lia)) as E.
  rewrite Z.mul_comm in E. rewrite E at 1. rewrite date_parse_to_iso; [by rewrite <- E|done|].
  apply Z.mod_pos_bound. unfold DAY_MS. lia.
Qed.

(** The instants of a gap, its end exclusive. *)
Definition in_gap (g : PriceGap) (t : Z) : Prop :=
  ∃ a b, date_parse (gap_from g) = Some a ∧ date_parse (gap_to g) = Some b ∧ a <= t < b.

Definition parsed_gap (g : PriceGap) : Prop := ∃ a b, date_parse (gap_from g) = Some a ∧ date_parse (gap_to g) = Some b.

(** The elapsed gaps hold exactly the instants of the gaps that have passed. *)
Theorem elapsedPriceGaps_past gaps now :
  Forall parsed_gap gaps → instant_range now →
  ∃ past, elapsedPriceGaps gaps now = Some past ∧
    ∀ t, (∃ g, g ∈ past ∧ in_gap g t) ↔ t < now ∧ ∃ g, g ∈ gaps ∧ in_gap g t.
Proof.
  intros Hg Hnow. induction Hg as [|g gaps (a & b & Ea & Eb) _ (past & Ep & IH)].
  { exists []. split; [done|]. intros t. rewrite !exists_nil. tauto. }
  cbn [elapsedPriceGaps]. rewrite Ep.
  assert (∃ here, elapsed_gap now g = Some here ∧
    ∀ t, (∃ h, h ∈ here ∧ in_gap h t) ↔ t < now ∧ in_gap g t) as (here & Eh & Hh).
  { unfold elapsed_gap. rewrite Ea, Eb. cbn [opt_min opt_ge opt_eq].
    assert (∀ t, in_gap g t ↔ a <= t < b) as Hin.
    { intros t. unfold in_gap. rewrite Ea, Eb. split; [by intros (x & y & [= <-] & [= <-] & ?)|by exists a, b]. }
    destruct (Z.min b now <=? a) eqn:E1; bool_facts.
    - exists []. split; [done|]. intros t. rewrite exists_nil, Hin. lia.
    - destruct (Z.min b now =? b) eqn:E2; bool_facts.
      + exists [g]. split; [done|]. intros t. rewrite exists_cons, exists_nil, Hin. lia.
      + exists [{| gap_from := gap_from g; gap_to := to_iso_string (Z.min b now) |}]. split; [done|].
        intros t. rewrite exists_cons, exists_nil, Hin. unfold in_gap. cbn [gap_from gap_to].
        rewrite Z.min_r by lia. rewrite date_parse_to_iso_instant, Ea by done. split.
        * intros [(x & y & [= <-] & [= <-] & ?)|[]]. lia.
        * intros ?. left. exists a, now. split; [done|]. split; [done|lia]. }
  rewrite Eh. exists (here ++ past)%list. split; [done|]. intros t.
  rewrite exists_cons. setoid_rewrite elem_of_app. split.
  - intros (h & [Hin|Hin] & Ht).
    + destruct (proj1 (Hh t)) as [? ?]; [eauto|]. auto.
    + destruct (proj1 (IH t)) as [? ?]; [eauto|]. auto.
  - intros [Hlt [Ht|Ht]].
    + destruct (proj2 (Hh t)) as (h & ? & ?); [done|]. eauto.
    + destruct (proj2 (IH t)) as (h & ? & ?); [done|]. eauto.
Qed.

Lemma elapsedPriceGaps_past_witness :
  let gaps := [{| gap_from := "2026-03-01T00:00:00Z"; gap_to := "2026-03-02T00:00:00Z" |};
               {| gap_from := "2026-03-05T00:00:00Z"; gap_to := "2026-03-06T00:00:00Z" |}] in
  ∃ past, elapsedPriceGaps gaps 1772366400000 = Some past ∧
    ∀ t, (∃ g, g ∈ past ∧ in_gap g t) ↔ t < 1772366400000 ∧ ∃ g, g ∈ gaps ∧ in_gap g t.
Proof.
  intros gaps. apply (elapsedPriceGaps_past gaps 1772366400000).
  - constructor; [|constructor; [|constructor]]; eexists _, _; split; vm_compute; reflexivity.
  - apply iso_range_iff. unfold DAY_MS. Z.div_mod_to_equations. lia.
Defined.

Example elapsed_ex :
  elapsedPriceGaps [{| gap_from := "2026-03-01T00:00:00Z"; gap_to := "2026-03-02T00:00:00Z" |}] 1772366400000
  = Some [{| gap_from := "2026-03-01T00:00:00Z"; gap_to := "2026-03-01T12:00:00.000Z" |}].
Proof. by vm_compute. Qed.

(** ** The missing dates *)

Section MissingDates.
Context `{ZoneLaws} (localeCompare : string → string → Z).
(** The order of [localeCompare] on ISO dates is the order of the days. *)
Context (date_order : ∀ a b, iso_range a → iso_range b → (localeCompare (iso a) (iso b) <=? 0) = (a <=? b)).

(** A range of days, far enough inside the four-digit years. *)
Definition days_of (r : DateRange) (a b : Z) : Prop :=
  range_from r = iso a ∧ range_to r = iso b ∧ a <= b ∧ iso_range a ∧ iso_range b ∧ iso_range (b + 1).

Definition has_day (n : Z) (r : DateRange) : Prop := str_le (range_from r) (iso n) = true ∧ str_le (iso n) (range_to r) = true.

Lemma has_day_iff r a b n : days_of r a b → iso_range n → has_day n r ↔ a <= n <= b.
Proof.
  intros (Ef & Et & _ & Ha & Hb & _) Hn. unfold has_day. rewrite Ef, Et, !iso_le_days by done.
  by rewrite !Z.leb_le.
Qed.

(** Neighbouring ranges with a day between them. *)
Definition apart (r s : DateRange) : Prop := ∃ a b c d, days_of r a b ∧ days_of s c d ∧ b + 1 < c.

Definition dated (r : DateRange) : Prop := ∃ a b, days_of r a b.

(** The ranges are dated and apart, and none starts after day [c]. *)
Definition merged (ranges : list DateRange) (c : Z) : Prop :=
  Sorted apart ranges ∧ Forall dated ranges ∧ ∀ r a b, last ranges = Some r → days_of r a b → a <= c.

Lemma days_of_inj r a b c d : days_of r a b → days_of r c d → a = c ∧ b = d.
Proof.
  intros (E1 & E2 & _ & Ha & Hb & _) (E3 & E4 & _ & Hc & Hd & _). rewrite E1 in E3. rewrite E2 in E4.
  apply iso_inj_days in E3; [|done|done]. apply iso_inj_days in E4; done.
Qed.

Lemma Sorted_snoc {A} (R : A → A → Prop) l x :
  Sorted R l → (∀ y, last l = Some y → R y x) → Sorted R (l ++ [x])%list.
Proof.
  induction 1 as [|z l Hs IH Hh]; intros Hl; cbn [app]; [by repeat constructor|].
  constructor.
  - apply IH. intros y Hy. apply Hl. rewrite last_cons, Hy. done.
  - destruct Hh as [|w l Hw]; cbn [app]; constructor; [by apply Hl|done].
Qed.

Lemma Sorted_last_swap (l : list DateRange) r r' :
  Sorted apart (l ++ [r])%list → (∀ x, apart x r → apart x r') → Sorted apart (l ++ [r'])%list.
Proof.
  intros Hs Hr. induction l as [|z l IH]; cbn [app] in *; [by repeat constructor|].
  inversion Hs as [|? ? Hs' Hh]; subst. constructor; [by apply IH|].
  destruct l as [|w l]; cbn [app] in *; inversion Hh; subst; constructor; auto.
Qed.

Lemma merge_day_ok ranges c day x y n :
  merged ranges c → days_of day x y → c <= x → iso_range n →
  merged (merge_day ranges day) x ∧
  ((∃ r, r ∈ merge_day ranges day ∧ has_day n r) ↔ (∃ r, r ∈ ranges ∧ has_day n r) ∨ has_day n day).
Proof.
  intros (Hs & Hd & Hl) Hday Hcx Hn. unfold merge_day.
  destruct (last ranges) as [prev|] eqn:El.
  2: { apply last_None in El as ->. rewrite exists_cons, !exists_nil. split; [|tauto].
       split; [by repeat constructor|]. split; [constructor; [by exists x, y|constructor]|].
       intros r a b [= <-] Hr. destruct (days_of_inj _ _ _ _ _ Hday Hr). lia. }
  apply last_Some in El as [ranges' ->]. rewrite removelast_last.
  pose proof (proj1 (Forall_forall _ _) Hd prev ltac:(rewrite elem_of_app; right; by left)) as (a & b & Hprev).
  assert (a <= c) as Hac by (by apply (Hl prev a b)).
  pose proof Hprev as (Epf & Ept & Hab & Ha & Hb & Hb1). pose proof Hday as (Edf & Edt & Hxy & Hx & Hy & Hy1).
  assert (nextIsoDate (iso b) = iso (b + 1)) as En.
  { unfold iso at 1. rewrite nextIsoDate_civil by by apply iso_day_of_range. by rewrite day_of_civil_of_day. }
  rewrite Ept, En, Edf, Edt, iso_le_days, iso_lt_days by done. destruct (x <=? b + 1) eqn:E1; bool_facts.
  - destruct (b <? y) eqn:E2; bool_facts.
    + set (r' := {| range_from := range_from prev; range_to := iso y |}).
      assert (days_of r' a y) as Hr' by (refine (conj Epf (conj eq_refl (conj _ (conj Ha (conj Hy Hy1))))); lia).
      split; [split|].
      * apply (Sorted_last_swap _ prev); [done|]. intros z (a1 & b1 & c1 & d1 & H1 & H2 & H3).
        exists a1, b1, a, y. destruct (days_of_inj _ _ _ _ _ Hprev H2) as [<- _]. done.
      * split.
        -- apply Forall_app in Hd as [Hd _]. apply Forall_app. split; [done|]. constructor; [by exists a, y|done].
        -- intros r a' b' Hr Hrd. rewrite last_snoc in Hr. injection Hr as <-.
           destruct (days_of_inj _ _ _ _ _ Hr' Hrd). lia.
      * rewrite !exists_snoc. rewrite (has_day_iff r' a y), (has_day_iff prev a b), (has_day_iff day x y) by done.
        assert (a <= n <= y ↔ a <= n <= b ∨ x <= n <= y) as -> by lia. tauto.
    + split; [split; [done|split; [done|]]|].
      * intros r a' b'. rewrite last_snoc. intros [= <-] Hr. destruct (days_of_inj _ _ _ _ _ Hprev Hr). lia.
      * rewrite !exists_snoc. rewrite (has_day_iff prev a b), (has_day_iff day x y) by done.
        assert (x <= n <= y → a <= n <= b) by lia. tauto.
  - split; [split; [|split]|].
    + apply Sorted_snoc; [done|]. intros z. rewrite last_snoc. intros [= <-]. exists a, b, x, y. split_and!; done || lia.
    + apply Forall_app. split; [done|]. constructor; [by exists x, y|done].
    + intros r a' b'. rewrite last_snoc. intros [= <-] Hr. destruct (days_of_inj _ _ _ _ _ Hday Hr). lia.
    + rewrite (exists_snoc (has_day n) (ranges' ++ [prev])). tauto.
Qed.

Definition starts_sorted (days : list DateRange) : Prop :=
  StronglySorted (λ l r, ∀ a b c d, days_of l a b → days_of r c d → a <= c) days.

Lemma merge_days_ok days ranges c n :
  merged ranges c → Forall dated days → starts_sorted days → iso_range n →
  (∀ r a b, r ∈ days → days_of r a b → c <= a) →
  Sorted apart (foldl merge_day ranges days) ∧ Forall dated (foldl merge_day ranges days) ∧
  ((∃ r, r ∈ foldl merge_day ranges days ∧ has_day n r) ↔
    (∃ r, r ∈ ranges ∧ has_day n r) ∨ ∃ r, r ∈ days ∧ has_day n r).
Proof.
  intros Hm Hd Hs Hn. revert ranges c Hm. induction Hs as [|day days Hs IH Hx]; intros ranges c Hm Hc; cbn [foldl].
  - destruct Hm as (? & ? & _). rewrite exists_nil. split_and!; [done|done|tauto].
  - inversion Hd as [|? ? (x & y & Hday) Hd']; subst. rewrite Forall_forall in Hx.
    destruct (merge_day_ok ranges c day x y n Hm Hday) as [Hm' Hcov]; [|done|].
    { apply (Hc day x y); [by left|done]. }
    destruct (IH Hd' (merge_day ranges day) x Hm') as (H1 & H2 & H3).
    { intros r a b Hr Hrd. by apply (Hx r Hr x y a b). }
    split_and!; [done|done|]. rewrite H3, Hcov, exists_cons. tauto.
Qed.

Definition gap_days (g : PriceGap) (a b : Z) : Prop :=
  ∃ s t, date_parse (gap_from g) = Some s ∧ date_parse (gap_to g) = Some t ∧ s < t ∧
    a = local_day s ∧ b = local_day (t - 1) ∧ iso_range a ∧ iso_range b ∧ iso_range (b + 1).

Lemma gap_dates_days g a b : gap_days g a b → ∃ r, gap_dates g = Some r ∧ days_of r a b.
Proof.
  intros (s & t & Es & Et & Hst & -> & -> & Ha & Hb & Hb1). unfold gap_dates. rewrite Es, Et.
  eexists. split; [reflexivity|]. unfold days_of. cbn [range_from range_to].
  rewrite !formatBusinessIsoDate_iso. refine (conj eq_refl (conj eq_refl (conj _ (conj Ha (conj Hb Hb1))))). apply local_day_mono. lia.
Qed.

(** The missing dates are exactly the days the gaps touch, as ranges in order
    that neither overlap nor touch each other. *)
Theorem missingPriceDates_days gaps n :
  Forall (λ g, ∃ a b, gap_days g a b) gaps → iso_range n →
  ∃ ranges, missingPriceDates localeCompare gaps = Some ranges ∧ Sorted apart ranges ∧
    ((∃ r, r ∈ ranges ∧ has_day n r) ↔ ∃ g a b, g ∈ gaps ∧ gap_days g a b ∧ a <= n <= b).
Proof.
  intros Hg Hn. unfold missingPriceDates.
  assert (∃ days, mapM gap_dates gaps = Some days ∧ Forall dated days ∧
    ((∃ r, r ∈ days ∧ has_day n r) ↔ ∃ g a b, g ∈ gaps ∧ gap_days g a b ∧ a <= n <= b)) as (days & Em & Hd & Hcov).
  { induction Hg as [|g gaps (a & b & Hgd) _ (days & Em & Hd & Hcov)].
    - exists []. split; [done|]. split; [constructor|]. rewrite exists_nil.
      split; [done|]. intros (g & a & b & Hin & _). by apply elem_of_nil in Hin.
    - destruct (gap_dates_days g a b Hgd) as (r & Er & Hr). exists (r :: days). cbn [mapM]. rewrite Er.
      cbn [mbind option_bind]. rewrite Em. split; [done|]. split; [constructor; [by exists a, b|done]|].
      rewrite exists_cons, Hcov, (has_day_iff r a b) by done. split.
      + intros [?|(g' & a' & b' & ? & ?)]; [exists g, a, b; split; [by left|done]|].
        exists g', a', b'. split; [by right|done].
      + intros (g' & a' & b' & [->|Hin]%elem_of_cons & Hgd' & Hab); [left|right; by exists g', a', b'].
        destruct (gap_dates_days g a' b' Hgd') as (r' & Er' & Hr'). rewrite Er in Er'. injection Er' as <-.
        destruct (days_of_inj _ _ _ _ _ Hr Hr') as [-> ->]. done. }
  rewrite Em. cbn [mbind option_bind]. eexists. split; [reflexivity|].
  set (le := λ l r : DateRange, localeCompare (range_from l) (range_from r) <=? 0).
  assert (Forall dated (sort_by le days)) as Hd' by (by rewrite sort_by_perm).
  assert (starts_sorted (sort_by le days)) as Hsorted.
  { assert (StronglySorted (λ l r, le l r = true) (sort_by le days)) as Hs.
    { assert (∀ l r a b c d, days_of l a b → days_of r c d → le l r = (a <=? c)) as Hle.
      { intros l r a b c d (El & _ & _ & Ha & _) (Er & _ & _ & Hc & _). unfold le. rewrite El, Er. by apply date_order. }
      apply (sort_by_strong_on le dated); [| |done].
      - intros l r (a & b & Hl) (c & d & Hr). rewrite (Hle _ _ _ _ _ _ Hl Hr), (Hle _ _ _ _ _ _ Hr Hl).
        rewrite !Z.leb_le. lia.
      - intros x y z (a & b & Hx) (c & d & Hy) (e & f & Hz).
        rewrite (Hle _ _ _ _ _ _ Hx Hy), (Hle _ _ _ _ _ _ Hy Hz), (Hle _ _ _ _ _ _ Hx Hz), !Z.leb_le. lia. }
    eapply StronglySorted_impl; [|exact Hs]. intros l r Hlr a b c d (El & _ & _ & Ha & _) (Er & _ & _ & Hc & _).
    unfold le in Hlr. rewrite El, Er, date_order in Hlr by done. by apply Z.leb_le. }
  destruct (merge_days_ok (sort_by le days) [] (-400000) n) as (H1 & _ & H3); [|done|done|done| |].
  - split; [constructor|]. split; [constructor|]. by intros r a b [=].
  - intros r a b _ (_ & _ & _ & Ha%iso_range_iff & _). lia.
  - split; [done|]. rewrite H3, exists_nil. setoid_rewrite elem_of_sort_by. rewrite Hcov. tauto.
Qed.
End MissingDates.

Lemma date_order_texts a b :
  iso_range a → iso_range b → ((if str_lt (iso a) (iso b) then -1 else if str_lt (iso b) (iso a) then 1 else 0) <=? 0) = (a <=? b).
Proof.
  intros Ha Hb. rewrite !iso_lt_days by done. apply eq_true_iff_eq. rewrite !Z.leb_le.
  destruct (a <? b) eqn:E1, (b <? a) eqn:E2; bool_facts; lia.
Qed.

#[export] Existing Instance zurich.

Lemma missingPriceDates_days_witness :
  let gaps := [{| gap_from := "2026-03-04T23:30:00Z"; gap_to := "2026-03-05T02:00:00Z" |};
               {| gap_from := "2026-03-02T10:00:00Z"; gap_to := "2026-03-03T23:00:00Z" |}] in
  ∃ ranges, missingPriceDates (λ a b, if str_lt a b then -1 else if str_lt b a then 1 else 0) gaps = Some ranges ∧
    Sorted apart ranges ∧ ranges = [{| range_from := "2026-03-02"; range_to := "2026-03-03" |}; {| range_from := "2026-03-05"; range_to := "2026-03-05" |}].
Proof.
  intros gaps.
  destruct (missingPriceDates_days (λ a b, if str_lt a b then -1 else if str_lt b a then 1 else 0) date_order_texts gaps 20515)
    as (ranges & E & Hs & _).
  - constructor; [|constructor; [|constructor]].
    + exists 20517, 20517, 1772667000000, 1772676000000. unfold gap_days. split; [vm_compute; reflexivity|]. split; [vm_compute; reflexivity|]. split; [lia|].
      split; [vm_compute; reflexivity|]. split; [vm_compute; reflexivity|]. split; [|split]; apply iso_range_iff; lia.
    + exists 20514, 20515, 1772445600000, 1772578800000. unfold gap_days. split; [vm_compute; reflexivity|]. split; [vm_compute; reflexivity|]. split; [lia|].
      split; [vm_compute; reflexivity|]. split; [vm_compute; reflexivity|]. split; [|split]; apply iso_range_iff; lia.
  - apply iso_range_iff. lia.
  - exists ranges. split; [exact E|]. split; [exact Hs|]. vm_compute in E. injection E as <-. reflexivity.
Defined.

(** ** The chart rows *)

(** The rows come in time order, and the rows of a price stay inside the window
    and inside the price's own interval. *)
Theorem dynamicChartData_window points gaps start stop :
  Forall (λ p, is_Some (date_parse (point_from p)) ∧ is_Some (date_parse (point_to p))) points →
  Forall parsed_gap gaps →
  StronglySorted (λ l r, row_le l r = true) (dynamicChartData points gaps start stop) ∧
  ∀ r price, r ∈ dynamicChartData points gaps start stop → row_price r = Some price →
    ∃ t p a b, timestamp r = Some t ∧ start <= t < stop ∧ p ∈ points ∧ price = to_number (point_price p) ∧
      date_parse (point_from p) = Some a ∧ date_parse (point_to p) = Some b ∧ a <= t < b.
Proof.
  intros Hp Hg. set (rows := (mbind (point_rows start stop) points ++ mbind gap_rows gaps)%list).
  assert (∀ r, r ∈ rows → is_Some (timestamp r) ∧ ∀ price, row_price r = Some price →
    ∃ t p a b, timestamp r = Some t ∧ start <= t < stop ∧ p ∈ points ∧ price = to_number (point_price p) ∧
      date_parse (point_from p) = Some a ∧ date_parse (point_to p) = Some b ∧ a <= t < b) as Hrows.
  { intros r [Hr|Hr]%elem_of_app; apply list_elem_of_bind in Hr as (x & Hr & Hx).
    - rewrite Forall_forall in Hp. destruct (Hp x Hx) as [[a Ea] [b Eb]]. unfold point_rows in Hr.
      rewrite Ea, Eb in Hr. cbn [opt_max opt_min opt_ge] in Hr.
      destruct (Z.min stop b <=? Z.max start a) eqn:E; bool_facts; [by apply elem_of_nil in Hr|].
      apply elem_of_cons in Hr as [->|Hr]; [|apply list_elem_of_singleton in Hr as ->].
      + split; [done|]. intros price [= <-]. exists (Z.max start a), x, a, b. split_and!; done || lia.
      + split; [done|]. intros price [= <-]. exists (Z.min stop b - 1), x, a, b. split_and!; done || lia.
    - rewrite Forall_forall in Hg. destruct (Hg x Hx) as (a & b & Ea & Eb). unfold gap_rows in Hr.
      rewrite Ea, Eb in Hr. apply elem_of_cons in Hr as [->|Hr]; [|apply list_elem_of_singleton in Hr as ->]; done. }
  unfold dynamicChartData. fold rows. split.
  - apply (sort_by_strong_on row_le (λ r, is_Some (timestamp r))).
    + intros x y [a Ea] [b Eb]. unfold row_le. rewrite Ea, Eb, !Z.leb_le. lia.
    + intros x y z [a Ea] [b Eb] [c Ec]. unfold row_le. rewrite Ea, Eb, Ec, !Z.leb_le. lia.
    + apply Forall_forall. intros r Hr. by apply Hrows.
  - intros r price Hr Hpr. rewrite elem_of_sort_by in Hr. by apply Hrows.
Qed.
