(* ===== verification/Transfer.v ===== *)
(** Section selection of a community transfer (features/zev/transferSections.ts)
    and of the tariff import wizard (features/tariffs/vseImportSelection.ts).

    [toggleSection] runs two loops; both are given enough fuel and proved to
    finish. Ticking computes the least coherent selection above the old one,
    unticking the greatest coherent one below it. *)

From S2P Require Import Prelude JsString JsNumber.
Local Open Scope string_scope.

Inductive TransferSectionName :=
  | SecZev | SecParticipants | SecMeteringPoints | SecTariffs | SecCharges | SecReadings
  | SecSupplementaryData | SecInvoices | SecInvoicePdfs | SecDeliveredDocuments.
#[export] Instance TransferSectionName_eq_dec : EqDecision TransferSectionName.
Proof. solve_decision. Defined.

Record TransferSection := { section_name : TransferSectionName; requires : list TransferSectionName }.

Definition DEFAULT_SECTIONS : list TransferSection :=
  [{| section_name := SecZev; requires := [] |};
   {| section_name := SecParticipants; requires := [] |};
   {| section_name := SecMeteringPoints; requires := [SecParticipants] |};
   {| section_name := SecTariffs; requires := [] |};
   {| section_name := SecCharges; requires := [SecParticipants] |};
   {| section_name := SecReadings; requires := [SecMeteringPoints] |};
   {| section_name := SecSupplementaryData; requires := [SecMeteringPoints; SecParticipants] |};
   {| section_name := SecInvoices; requires := [SecParticipants] |};
   {| section_name := SecInvoicePdfs; requires := [SecInvoices] |};
   {| section_name := SecDeliveredDocuments; requires := [SecParticipants] |}].

Definition section_selectable (section : TransferSection) (selected : list TransferSectionName) : bool :=
  forallb (λ r, oset_has r selected) (requires section).

Definition unmetRequirements (section : TransferSection) (selected : list TransferSectionName) : list TransferSectionName :=
  bfilter (λ r, negb (oset_has r selected)) (requires section).

(** One pass of the [for] loop that drops the sections whose requirements are
    gone; it also tells whether anything changed. *)
Definition drop_one (st : list TransferSectionName * bool) (section : TransferSection) : list TransferSectionName * bool :=
  let '(next, changed) := st in
  if oset_has (section_name section) next && existsb (λ r, negb (oset_has r next)) (requires section)
  then (oset_delete (section_name section) next, true)
  else (next, changed).

Definition drop_pass (sections : list TransferSection) (next : list TransferSectionName) : list TransferSectionName * bool :=
  foldl drop_one (next, false) sections.

(** [while (changed)]. *)
Fixpoint drop_orphans (fuel : nat) (sections : list TransferSection) (next : list TransferSectionName) : option (list TransferSectionName) :=
  match fuel with
  | O => None
  | S fuel' =>
      let '(next', changed) := drop_pass sections next in
      if changed then drop_orphans fuel' sections next' else Some next'
  end.

(** [byName.get(name)?.requires ?? []]. *)
Definition requires_of (sections : list TransferSection) (name : TransferSectionName) : list TransferSectionName :=
  match omap_get name (omap_of ((λ s, (section_name s, s)) <$> sections)) with
  | Some s => requires s
  | None => []
  end.

(** [while (pending.length > 0)]; the top of the stack is the end of the list. *)
Fixpoint pull_in (fuel : nat) (sections : list TransferSection) (next pending : list TransferSectionName)
    : option (list TransferSectionName) :=
  match last pending with
  | None => Some next
  | Some current =>
      match fuel with
      | O => None
      | S fuel' =>
          if oset_has current next then pull_in fuel' sections next (removelast pending)
          else pull_in fuel' sections (oset_add current next) (removelast pending ++ requires_of sections current)
      end
  end.

(** Every section's requirements are pushed at most once. *)
Definition pull_fuel (sections : list TransferSection) : nat :=
  S (foldr (λ s n, length (requires s) + n)%nat 0%nat sections).

Definition toggleSection (sections : list TransferSection) (selected : list TransferSectionName) (name : TransferSectionName)
    : option (list TransferSectionName) :=
  let next := oset_of selected in
  next' ← (if oset_has name next
           then drop_orphans (S (length next)) sections (oset_delete name next)
           else pull_in (pull_fuel sections) sections next [name]);
  Some (bfilter (λ n, oset_has n next') (section_name <$> sections)).

(** ** Model of vseImportSelection.ts *)

Inductive VseTariffCandidateStatus := StNew | StNewVersion | StDuplicate | StConflict | StUnsupported.
#[export] Instance CandidateStatus_eq_dec : EqDecision VseTariffCandidateStatus.
Proof. solve_decision. Defined.

Record VseTariffPeriodPreview := {
  preview_period_type : string;
  preview_label : string;
  preview_price_chf_per_kwh : string;
  preview_time_from : option string;
  preview_time_to : option string;
  preview_weekdays : string;
  preview_months : string;
}.

Record VseTariffCandidate := {
  candidate_key : string;
  candidate_name : string;
  candidate_category : string;
  candidate_billing_mode : string;
  billing_mode_options : list string;
  candidate_energy_type : option string;
  candidate_fixed_price_chf : option string;
  candidate_valid_from : string;
  candidate_valid_to : option string;
  candidate_notes : string;
  candidate_periods : list VseTariffPeriodPreview;
  source_tariff_name : string;
  source_tariff_type : string;
  source_customer_type : string;
  source_voltage_level : option Z;
  standard_basegroup : bool;
  dynamic_url : string;
  candidate_series_name : string;
  candidate_status : VseTariffCandidateStatus;
  candidate_detail : string;
  candidate_warnings : list string;
  recommended : bool;
  effective_valid_to : option string;
}.

Definition IMPORTABLE_STATUSES : list VseTariffCandidateStatus := [StNew; StNewVersion].

Definition isSelectable (candidate : VseTariffCandidate) : bool :=
  bool_decide (candidate_status candidate ∈ IMPORTABLE_STATUSES).

Definition recommendedKeys (candidates : list VseTariffCandidate) : list string :=
  oset_of (candidate_key <$> bfilter (λ c, recommended c && isSelectable c) candidates).

(** [Number(date.slice(0, 4))], when it is an integer. *)
Definition yearOf (date : string) : option Z := num_int (to_number (slice date 0 4)).

(** The years [from .. to] of one candidate. *)
Definition years_between (from to : Z) : list Z := seqZ from (Z.max 0 (to - from + 1)).

Definition candidate_years (c : VseTariffCandidate) : list Z :=
  match yearOf (candidate_valid_from c) with
  | None => []
  | Some from =>
      match (if truthy_str (candidate_valid_to c) then yearOf (default "" (candidate_valid_to c)) else Some from) with
      | Some to => years_between from to
      | None => []
      end
  end.

Definition candidateYears (candidates : list VseTariffCandidate) : list Z :=
  sort_by Z.leb (foldl (λ years c, foldl (λ s y, oset_add y s) years (candidate_years c)) [] candidates).

Definition isValidInYear (candidate : VseTariffCandidate) (year : option Z) : bool :=
  match year with
  | None => true
  | Some year =>
      match yearOf (candidate_valid_from candidate) with
      | Some from => if (year <? from)%Z then false else
          negb (truthy_str (candidate_valid_to candidate)) ||
          match yearOf (default "" (candidate_valid_to candidate)) with Some to => (year <=? to)%Z | None => false end
      | None =>
          negb (truthy_str (candidate_valid_to candidate)) ||
          match yearOf (default "" (candidate_valid_to candidate)) with Some to => (year <=? to)%Z | None => false end
      end
  end.

Definition canChooseBillingMode (candidate : VseTariffCandidate) : bool :=
  (0 <? length (billing_mode_options candidate))%nat && bool_decide (candidate_status candidate = StNew).

Definition defaultBillingModes (candidates : list VseTariffCandidate) : list (string * string) :=
  omap_of ((λ c, (candidate_key c, candidate_billing_mode c)) <$> candidates).

Record Selection := { selection_key : string; selection_billing_mode : option string }.

Definition selectionFor (candidate : VseTariffCandidate) (chosen : option string) : Selection :=
  if truthy_str chosen && negb (String.eqb (default "" chosen) (candidate_billing_mode candidate))
  then {| selection_key := candidate_key candidate; selection_billing_mode := chosen |}
  else {| selection_key := candidate_key candidate; selection_billing_mode := None |}.

Definition toggleKey (selected : list string) (key : string) : list string :=
  if oset_has key selected then oset_delete key selected else oset_add key selected.

Definition trimPrice (value : string) : string :=
  let parsed := to_number value in if is_finite parsed then num_to_string parsed else value.

(** ** Selections *)

(** Every selected section has its requirements selected. *)
Definition coherent (sections : list TransferSection) (selected : list TransferSectionName) : Prop :=
  ∀ s r, s ∈ sections → section_name s ∈ selected → r ∈ requires s → r ∈ selected.

(** A dependency graph: names are distinct and requirements are sections. *)
Definition graph_ok (sections : list TransferSection) : Prop :=
  NoDup (section_name <$> sections) ∧ ∀ s r, s ∈ sections → r ∈ requires s → r ∈ section_name <$> sections.

Lemma length_oset_delete x (s : list TransferSectionName) : x ∈ s → (length (oset_delete x s) < length s)%nat.
Proof.
  unfold oset_delete. induction s as [|y s IH]; [by intros ?%elem_of_nil|].
  rewrite filter_cons. intros [->|Hx]%elem_of_cons.
  - rewrite decide_False by tauto. simpl. pose proof (length_filter (λ z, z ≠ y) s). lia.
  - destruct (decide (y ≠ x)); simpl; [specialize (IH Hx); lia|]. pose proof (length_filter (λ z, z ≠ x) s). lia.
Qed.

Lemma drop_pass_spec sections next b :
  let '(next', changed) := foldl drop_one (next, b) sections in
  (∀ x, x ∈ next' → x ∈ next) ∧
  (∀ C, coherent sections C → (∀ x, x ∈ C → x ∈ next) → ∀ x, x ∈ C → x ∈ next') ∧
  (changed = true → b = true ∨ (length next' < length next)%nat) ∧
  (length next' <= length next)%nat ∧
  (changed = false → next' = next ∧ b = false ∧
     ∀ s r, s ∈ sections → section_name s ∈ next → r ∈ requires s → r ∈ next).
Proof.
  assert (∀ s ss C, coherent (s :: ss) C → coherent ss C) as Hcons.
  { intros s ss C HC s' r Hs. apply HC. by right. }
  revert next b. induction sections as [|s sections IH]; intros next b; cbn [foldl].
  { split_and!; [done|done|by left|done|]. intros ->. split_and!; [done|done|by intros s r ?%elem_of_nil]. }
  unfold drop_one at 2. destruct (_ && _) eqn:E.
  - apply andb_prop in E as [E1 E2]. apply oset_has_true in E1. apply existsb_elem in E2 as (r & Hr & Hn).
    apply negb_true_iff, oset_has_false in Hn.
    pose proof (IH (oset_delete (section_name s) next) true) as H.
    destruct (foldl drop_one _ sections) as [next' changed]. destruct H as (H1 & H2 & H3 & H4 & H5).
    pose proof (length_oset_delete _ _ E1). split_and!.
    + intros x Hx%H1. by apply elem_of_oset_delete in Hx as [_ ?].
    + intros C HC Hsub. apply (H2 C (Hcons _ _ _ HC)). intros x Hx. apply elem_of_oset_delete. split; [|auto].
      intros ->. apply Hn, Hsub, (HC s r); [by left|done|done].
    + intros _. right. lia.
    + lia.
    + intros ->. by destruct (H5 eq_refl) as (_ & ? & _).
  - pose proof (IH next b) as H. destruct (foldl drop_one _ sections) as [next' changed].
    destruct H as (H1 & H2 & H3 & H4 & H5). split_and!; [done| |done|done|].
    + intros C HC. by apply H2, (Hcons s).
    + intros Hc. destruct (H5 Hc) as (-> & -> & H6). split_and!; [done|done|].
      intros s' r [->|Hs]%elem_of_cons Hn Hr; [|by apply (H6 s')].
      apply oset_has_true. destruct (oset_has r next) eqn:Er; [done|].
      assert (oset_has (section_name s) next && existsb (λ r, negb (oset_has r next)) (requires s) = true) as Hx; [|congruence].
      apply andb_true_intro. split; [by apply oset_has_true|]. apply existsb_elem. exists r. by rewrite Er.
Qed.

(** The loop finishes and leaves the greatest coherent part of the selection. *)
Lemma drop_orphans_spec sections fuel next :
  (length next < fuel)%nat →
  ∃ next', drop_orphans fuel sections next = Some next' ∧ (∀ x, x ∈ next' → x ∈ next) ∧ coherent sections next' ∧
    ∀ C, coherent sections C → (∀ x, x ∈ C → x ∈ next) → ∀ x, x ∈ C → x ∈ next'.
Proof.
  revert next. induction fuel as [|fuel IH]; intros next Hf; [lia|]. cbn [drop_orphans].
  pose proof (drop_pass_spec sections next false) as H. unfold drop_pass.
  destruct (foldl drop_one _ sections) as [next' changed]. destruct H as (H1 & H2 & H3 & H4 & H5).
  destruct changed.
  - destruct (H3 eq_refl) as [|Hlt]; [done|]. destruct (IH next' ltac:(lia)) as (final & E & F1 & F2 & F3).
    exists final. split_and!; [done|auto|done|]. intros C HC Hsub. apply F3; [done|]. by apply H2.
  - destruct (H5 eq_refl) as (-> & _ & H6). exists next. split_and!; [done|done|exact H6|done].
Qed.

Lemma requires_of_spec sections s :
  NoDup (section_name <$> sections) → s ∈ sections → requires_of sections (section_name s) = requires s.
Proof.
  intros Hn Hs. unfold requires_of.
  assert (((λ s, (section_name s, s)) <$> sections).*1 = section_name <$> sections) as E by (by rewrite <- list_fmap_compose).
  rewrite omap_get_of by (by rewrite E).
  rewrite (omap_elem_get _ s); [done|by rewrite E|]. apply list_elem_of_fmap. by exists s.
Qed.

Lemma requires_of_none sections name : name ∉ section_name <$> sections → requires_of sections name = [].
Proof.
  intros Hn. unfold requires_of.
  assert (omap_get name (omap_of ((λ s, (section_name s, s)) <$> sections)) = None) as ->; [|done].
  apply omap_get_None. unfold omap_of.
  assert (∀ l (m : list (TransferSectionName * TransferSection)), name ∉ l.*1 → name ∉ m.*1 →
    name ∉ (foldl (λ m kv, omap_set kv.1 kv.2 m) m l).*1) as H.
  { clear. induction l as [|[k v] l IH]; intros m Hl Hm; cbn [foldl]; [done|]. rewrite fmap_cons, elem_of_cons in Hl.
    apply IH; [tauto|]. rewrite omap_set_keys, elem_of_oset_add. simpl in *. tauto. }
  apply H; [by rewrite <- list_fmap_compose|apply not_elem_of_nil].
Qed.

(** What may still be pushed: the requirements of the sections not yet taken. *)
Fixpoint budget (next : list TransferSectionName) (sections : list TransferSection) : nat :=
  match sections with
  | [] => 0
  | s :: rest => (if oset_has (section_name s) next then 0 else length (requires s)) + budget next rest
  end%nat.

Lemma budget_add_out next x sections :
  x ∉ section_name <$> sections → budget (oset_add x next) sections = budget next sections.
Proof.
  induction sections as [|s l IH]; [done|]. rewrite fmap_cons, elem_of_cons. intros Hx. cbn [budget].
  rewrite IH by tauto. assert (oset_has (section_name s) (oset_add x next) = oset_has (section_name s) next) as ->; [|done].
  apply eq_true_iff_eq. rewrite !oset_has_true, elem_of_oset_add. intuition congruence.
Qed.

Lemma budget_add next x sections :
  NoDup (section_name <$> sections) → x ∉ next →
  (budget (oset_add x next) sections + length (requires_of sections x))%nat = budget next sections.
Proof.
  intros Hn Hx. destruct (decide (x ∈ section_name <$> sections)) as [Hin|Hout].
  2: { rewrite requires_of_none, budget_add_out by done. simpl. lia. }
  apply list_elem_of_fmap in Hin as (s & -> & Hs). rewrite requires_of_spec by done.
  clear -Hn Hx Hs. induction sections as [|s' l IH]; [by apply elem_of_nil in Hs|].
  rewrite fmap_cons in Hn. apply NoDup_cons in Hn as [Hs' Hn]. cbn [budget].
  apply elem_of_cons in Hs as [->|Hs].
  - rewrite budget_add_out by done.
    assert (oset_has (section_name s') (oset_add (section_name s') next) = true) as ->
      by (apply oset_has_true, elem_of_oset_add; by left).
    assert (oset_has (section_name s') next = false) as -> by (by apply oset_has_false). lia.
  - rewrite <- (IH Hn Hs).
    assert (oset_has (section_name s') (oset_add (section_name s) next) = oset_has (section_name s') next) as ->; [|lia].
    apply eq_true_iff_eq. rewrite !oset_has_true, elem_of_oset_add. split; [|by right].
    intros [E|?]; [|done]. destruct Hs'. rewrite E. by apply list_elem_of_fmap_2.
Qed.

(** The stack empties and leaves the least coherent selection above it. *)
Lemma pull_in_spec sections fuel next pending :
  NoDup (section_name <$> sections) → (length pending + budget next sections <= fuel)%nat →
  (∀ s r, s ∈ sections → section_name s ∈ next → r ∈ requires s → r ∈ next ∨ r ∈ pending) →
  ∃ next', pull_in fuel sections next pending = Some next' ∧
    (∀ x, x ∈ next ∨ x ∈ pending → x ∈ next') ∧ coherent sections next' ∧
    ∀ C, coherent sections C → (∀ x, x ∈ next ∨ x ∈ pending → x ∈ C) →
      ∀ x, x ∈ next' → x ∈ C ∨ x ∉ section_name <$> sections.
Proof.
  intros Hnd. revert next pending. induction fuel as [|fuel IH]; intros next pending Hf Hinv; cbn [pull_in].
  - destruct pending; [|simpl in Hf; lia]. exists next. split_and!; [done| | |auto].
    + intros x [?|?%elem_of_nil]; done.
    + intros s r Hs Hn Hr. destruct (Hinv s r Hs Hn Hr) as [?|?%elem_of_nil]; done.
  - destruct (last pending) as [current|] eqn:El.
    2: { apply last_None in El as ->. exists next. split_and!; [done| | |auto].
         - intros x [?|?%elem_of_nil]; done.
         - intros s r Hs Hn Hr. destruct (Hinv s r Hs Hn Hr) as [?|?%elem_of_nil]; done. }
    apply last_Some in El as [rest ->]. rewrite removelast_last. rewrite length_app in Hf. simpl in Hf.
    destruct (oset_has current next) eqn:Eh.
    + apply oset_has_true in Eh. destruct (IH next rest ltac:(lia)) as (next' & E & F1 & F2 & F3).
      { intros s r Hs Hn Hr. destruct (Hinv s r Hs Hn Hr) as [?|Hp]; [by left|].
        apply elem_of_app in Hp as [?| ->%list_elem_of_singleton]; auto. }
      exists next'. split_and!; [done| |done|].
      * intros x [?|[?| ->%list_elem_of_singleton]%elem_of_app]; auto.
      * intros C HC Hsub. apply F3; [done|]. intros x [?|?]; apply Hsub; [by left|]. right. apply elem_of_app. by left.
    + apply oset_has_false in Eh. pose proof (budget_add next current sections Hnd Eh) as Hb.
      destruct (IH (oset_add current next) (rest ++ requires_of sections current)%list) as (next' & E & F1 & F2 & F3).
      { rewrite length_app. lia. }
      { intros s r Hs Hn Hr. rewrite elem_of_app. apply elem_of_oset_add in Hn as [En|Hn].
        - right. right. by rewrite <- En, requires_of_spec.
        - rewrite elem_of_oset_add. destruct (Hinv s r Hs Hn Hr) as [?|Hp]; [auto|].
          apply elem_of_app in Hp as [?| ->%list_elem_of_singleton]; auto. }
      exists next'. split_and!; [done| |done|].
      * intros x [?|[?| ->%list_elem_of_singleton]%elem_of_app]; apply F1; rewrite elem_of_oset_add, elem_of_app; auto.
      * intros C HC Hsub. apply F3; [done|].
        assert (current ∈ C) as Hcur by (apply Hsub; right; apply elem_of_app; right; by left).
        intros x [[->|?]%elem_of_oset_add|[?|Hr]%elem_of_app]; [done|apply Hsub; by left| |].
        -- apply Hsub. right. apply elem_of_app. by left.
        -- destruct (decide (current ∈ section_name <$> sections)) as [Hin|Hout].
           ++ apply list_elem_of_fmap in Hin as (s & -> & Hs). rewrite requires_of_spec in Hr by done. by apply (HC s x).
           ++ rewrite requires_of_none in Hr by done. by apply elem_of_nil in Hr.
Qed.

Lemma budget_pull_fuel next sections : (S (budget next sections) <= pull_fuel sections)%nat.
Proof.
  unfold pull_fuel. apply le_n_S. induction sections as [|s l IH]; [done|]. cbn [budget foldr].
  destruct (oset_has _ next); lia.
Qed.

(** C23. Toggling always finishes, flips the section itself and keeps the selection
    coherent. Ticking gives the smallest coherent selection that holds the old
    one and the section; unticking the largest coherent one within the old
    selection without it. *)
Theorem toggleSection_spec sections selected name :
  graph_ok sections → coherent sections selected → name ∈ section_name <$> sections →
  (∀ n, n ∈ selected → n ∈ section_name <$> sections) →
  ∃ result, toggleSection sections selected name = Some result ∧ coherent sections result ∧
    (name ∈ result ↔ name ∉ selected) ∧
    if decide (name ∈ selected)
    then (∀ x, x ∈ result → x ∈ selected) ∧
         (∀ C, coherent sections C → (∀ x, x ∈ C → x ∈ selected ∧ x ≠ name) → ∀ x, x ∈ C → x ∈ result)
    else (∀ x, x ∈ selected → x ∈ result) ∧
         (∀ C, coherent sections C → (∀ x, x ∈ selected ∨ x = name → x ∈ C) → ∀ x, x ∈ result → x ∈ C).
Proof.
  intros [Hnd Hreq] Hc Hname Hsel. unfold toggleSection.
  destruct (decide (name ∈ selected)) as [Hin|Hout].
  - assert (oset_has name (oset_of selected) = true) as ->.
    { apply oset_has_true. by rewrite elem_of_oset_of. }
    destruct (drop_orphans_spec sections (S (length (oset_of selected))) (oset_delete name (oset_of selected)))
      as (next & E & F1 & F2 & F3).
    { unfold oset_delete. pose proof (length_filter (λ y, y ≠ name) (oset_of selected)). lia. }
    rewrite E. eexists. split; [reflexivity|].
    assert (∀ x, x ∈ bfilter (λ n, oset_has n next) (section_name <$> sections) ↔ x ∈ next) as Hres.
    { intros x. rewrite elem_of_bfilter, oset_has_true. split; [tauto|]. intros Hx. split; [|done].
      apply F1, elem_of_oset_delete in Hx as [_ Hx]. rewrite elem_of_oset_of in Hx. auto. }
    split; [|split; [|split]].
    + intros s r Hs Hn Hr. rewrite Hres in *. by apply (F2 s).
    + rewrite Hres. split; [|done]. intros Hx. apply F1, elem_of_oset_delete in Hx. tauto.
    + intros x Hx. apply Hres, F1, elem_of_oset_delete in Hx as [_ Hx]. by rewrite elem_of_oset_of in Hx.
    + intros C HC Hsub x Hx. apply Hres, (F3 C); [done| |done]. intros y Hy. destruct (Hsub y Hy).
      apply elem_of_oset_delete. by rewrite elem_of_oset_of.
  - assert (oset_has name (oset_of selected) = false) as ->.
    { apply oset_has_false. by rewrite elem_of_oset_of. }
    destruct (pull_in_spec sections (pull_fuel sections) (oset_of selected) [name] Hnd) as (next & E & F1 & F2 & F3).
    { simpl. apply budget_pull_fuel. }
    { intros s r Hs Hn Hr. left. rewrite elem_of_oset_of in *. by apply (Hc s). }
    rewrite E. eexists. split; [reflexivity|].
    assert (∀ x, x ∈ bfilter (λ n, oset_has n next) (section_name <$> sections) ↔ x ∈ next ∧ x ∈ section_name <$> sections) as Hres.
    { intros x. rewrite elem_of_bfilter, oset_has_true. tauto. }
    assert (∀ x, x ∈ selected → x ∈ next) as Hkeep.
    { intros x Hx. apply F1. left. by rewrite elem_of_oset_of. }
    assert (name ∈ next) as Hnx by (apply F1; right; by left).
    split; [|split; [|split]].
    + intros s r Hs Hn Hr. apply Hres in Hn as [Hn _]. apply Hres. split; [by apply (F2 s)|by apply (Hreq s)].
    + rewrite Hres. tauto.
    + intros x Hx. apply Hres. auto.
    + intros C HC Hsub x [Hx Hxs]%Hres. assert (∀ y, y ∈ oset_of selected ∨ y ∈ [name] → y ∈ C) as Hpre.
      { intros y [Hy|Hy]; apply Hsub; [left; by rewrite elem_of_oset_of in Hy|right; by apply list_elem_of_singleton in Hy]. }
      by destruct (F3 C HC Hpre x Hx).
Qed.

Lemma default_graph_ok : graph_ok DEFAULT_SECTIONS.
Proof.
  split; [apply (bool_decide_unpack _); vm_compute; reflexivity|]. intros s r Hs Hr.
  assert (forallb (λ s, forallb (λ r, bool_decide (r ∈ section_name <$> DEFAULT_SECTIONS)) (requires s)) DEFAULT_SECTIONS = true) as H
    by (vm_compute; reflexivity).
  rewrite forallb_elem in H. specialize (H s Hs). rewrite forallb_elem in H. specialize (H r Hr).
  by apply bool_decide_eq_true in H.
Qed.

Lemma toggleSection_spec_witness :
  toggleSection DEFAULT_SECTIONS [SecParticipants; SecMeteringPoints; SecReadings; SecTariffs] SecParticipants = Some [SecTariffs] ∧
  coherent DEFAULT_SECTIONS [SecTariffs].
Proof.
  assert (toggleSection DEFAULT_SECTIONS [SecParticipants; SecMeteringPoints; SecReadings; SecTariffs] SecParticipants = Some [SecTariffs]) as E0
    by (vm_compute; reflexivity).
  split; [exact E0|].
  destruct (toggleSection_spec DEFAULT_SECTIONS [SecParticipants; SecMeteringPoints; SecReadings; SecTariffs] SecParticipants
    default_graph_ok) as (result & E & Hc & _).
  - intros s r Hs Hn Hr.
    assert (forallb (λ s, negb (bool_decide (section_name s ∈ [SecParticipants; SecMeteringPoints; SecReadings; SecTariffs]))
      || forallb (λ r, bool_decide (r ∈ [SecParticipants; SecMeteringPoints; SecReadings; SecTariffs])) (requires s)) DEFAULT_SECTIONS = true) as H
      by (vm_compute; reflexivity).
    rewrite forallb_elem in H. specialize (H s Hs). apply orb_true_iff in H as [H|H].
    + apply negb_true_iff, bool_decide_eq_false in H. contradiction.
    + rewrite forallb_elem in H. specialize (H r Hr). by apply bool_decide_eq_true in H.
  - apply (bool_decide_unpack _). vm_compute. reflexivity.
  - intros n Hn. repeat (apply elem_of_cons in Hn as [->|Hn]; [apply (bool_decide_unpack _); vm_compute; reflexivity|]).
    by apply elem_of_nil in Hn.
  - rewrite E0 in E. injection E as <-. exact Hc.
Defined.

(** ** The import wizard *)

(** The years offered are exactly those at least one candidate is valid in, an
    open-ended candidate counting only its first year. *)
Theorem candidateYears_spec candidates year :
  Forall (λ c, is_Some (yearOf (candidate_valid_from c)) ∧
    (truthy_str (candidate_valid_to c) = true → is_Some (yearOf (default "" (candidate_valid_to c))))) candidates →
  year ∈ candidateYears candidates ↔
  ∃ c from, c ∈ candidates ∧ yearOf (candidate_valid_from c) = Some from ∧
    if truthy_str (candidate_valid_to c) then isValidInYear c (Some year) = true else year = from.
Proof.
  intros Hc. unfold candidateYears. rewrite elem_of_sort_by.
  assert (∀ s, year ∈ foldl (λ years c, foldl (λ s y, oset_add y s) years (candidate_years c)) s candidates ↔
    year ∈ s ∨ ∃ c, c ∈ candidates ∧ year ∈ candidate_years c) as H.
  { clear. induction candidates as [|c l IH]; intros s; cbn [foldl]; [rewrite exists_nil; tauto|].
    rewrite IH, elem_of_foldl_oset_add, exists_cons. tauto. }
  rewrite H, elem_of_nil. split.
  - intros [[]|(c & Hin & Hy)]. rewrite Forall_forall in Hc. destruct (Hc c Hin) as [[from Ef] Ht].
    exists c, from. split; [done|]. split; [done|]. unfold candidate_years in Hy. rewrite Ef in Hy.
    destruct (truthy_str (candidate_valid_to c)) eqn:Et.
    + destruct (Ht eq_refl) as [to Eto]. rewrite Eto in Hy. unfold years_between in Hy. apply elem_of_seqZ in Hy.
      unfold isValidInYear. rewrite Ef, Et, Eto. simpl.
      destruct (year <? from)%Z eqn:E; bool_facts; [lia|]. apply Z.leb_le. lia.
    + unfold years_between in Hy. apply elem_of_seqZ in Hy. lia.
  - intros (c & from & Hin & Ef & Hy). right. exists c. split; [done|]. unfold candidate_years. rewrite Ef.
    rewrite Forall_forall in Hc. destruct (Hc c Hin) as [_ Ht].
    destruct (truthy_str (candidate_valid_to c)) eqn:Et.
    + destruct (Ht eq_refl) as [to Eto]. unfold isValidInYear in Hy. rewrite Ef, Et, Eto in Hy. simpl in Hy.
      rewrite Eto. unfold years_between. apply elem_of_seqZ.
      destruct (year <? from)%Z eqn:E; bool_facts; [done|]. lia.
    + subst. unfold years_between. apply elem_of_seqZ. lia.
Qed.
