(* ===== verification/Feasibility.v ===== *)
(** The feasibility calculator's form, features/feasibility/useFeasibilityForm.ts: its
    schema, the values it resolves, the request it sends and the prefill from a community.

    The arithmetic is on doubles; [toFixed] is what makes the request exact decimals again,
    and the theorems say so for decimal inputs. The page's debounce is not modelled. *)

From Stdlib Require Import Floats.SpecFloat QArith Lqa.
From S2P Require Import Prelude JsString JsNumber JsFloat.
Local Open Scope string_scope.

(** ** Model *)

Inductive InternalEnergyPriceMode := AbsolutePrice | PercentageOfRetail.
Inductive AnnualProductionMode := AbsoluteProduction | FromKwp.
Inductive EnergyInputMode := Aggregate | ByParticipants.

Record ParticipantFormRow := { row_name : string; row_production : string; row_consumption : string }.

Definition emptyParticipantRow : ParticipantFormRow := {| row_name := ""; row_production := "0"; row_consumption := "0" |}.

Record FeasibilityFormValues := {
  energy_input_mode : EnergyInputMode; annual_production_mode : AnnualProductionMode; annual_production_kwh : string;
  pv_kwp : string; specific_yield_kwh_per_kwp : string; annual_consumption_kwh : string; participants : list ParticipantFormRow;
  self_consumption_rate_pct : string; retail_price_chf_per_kwh : string; feed_in_price_chf_per_kwh : string;
  internal_energy_price_mode : InternalEnergyPriceMode; internal_energy_price_chf_per_kwh : string;
  internal_energy_price_pct_of_retail : string; annual_opex_chf : string; capex_chf : string; horizon_years : string;
  discount_rate_pct : string;
}.

Definition isNonNegativeNumber (value : string) : bool :=
  if String.eqb (trim value) "" then false else negb (is_nan (to_number value)) && num_ge (to_number value) (of_Z 0).

Definition isPercentage (value : string) : bool :=
  if String.eqb (trim value) "" then false
  else negb (is_nan (to_number value)) && num_ge (to_number value) (of_Z 0) && num_le (to_number value) (of_Z 100).

Definition isHorizon (v : string) : bool :=
  let n := to_number v in is_integer n && num_ge n (of_Z 1) && num_le n (of_Z 50).

Definition participantRowSchema (r : ParticipantFormRow) : bool :=
  isNonNegativeNumber (row_production r) && isNonNegativeNumber (row_consumption r).

(** Whether the schema accepts the values; the modes are of their enumerations. *)
Definition feasibilityFormSchema (v : FeasibilityFormValues) : bool :=
  isNonNegativeNumber (annual_production_kwh v) && isNonNegativeNumber (pv_kwp v) && isNonNegativeNumber (specific_yield_kwh_per_kwp v) &&
  isNonNegativeNumber (annual_consumption_kwh v) && forallb participantRowSchema (participants v) && isPercentage (self_consumption_rate_pct v) &&
  isNonNegativeNumber (retail_price_chf_per_kwh v) && isNonNegativeNumber (feed_in_price_chf_per_kwh v) &&
  isNonNegativeNumber (internal_energy_price_chf_per_kwh v) && isNonNegativeNumber (internal_energy_price_pct_of_retail v) &&
  isNonNegativeNumber (annual_opex_chf v) && isNonNegativeNumber (capex_chf v) && isHorizon (horizon_years v) && isPercentage (discount_rate_pct v).

Definition defaultFeasibilityFormValues : FeasibilityFormValues :=
  {| energy_input_mode := Aggregate; annual_production_mode := AbsoluteProduction; annual_production_kwh := "10000"; pv_kwp := "10";
     specific_yield_kwh_per_kwp := "950"; annual_consumption_kwh := "8000"; participants := []; self_consumption_rate_pct := "50";
     retail_price_chf_per_kwh := "0.32"; feed_in_price_chf_per_kwh := "0.09"; internal_energy_price_mode := AbsolutePrice;
     internal_energy_price_chf_per_kwh := "0.20"; internal_energy_price_pct_of_retail := "62.5"; annual_opex_chf := "300"; capex_chf := "2000";
     horizon_years := "20"; discount_rate_pct := "3" |}.

Example default_values_accepted : feasibilityFormSchema defaultFeasibilityFormValues = true.
Proof. by vm_compute. Qed.

Definition toFixedString (value : num) (decimalPlaces : nat) : string := to_fixed decimalPlaces value.

Definition resolveAnnualProductionKwh (v : FeasibilityFormValues) : num :=
  match annual_production_mode v with
  | FromKwp => num_mul (to_number (pv_kwp v)) (to_number (specific_yield_kwh_per_kwp v))
  | AbsoluteProduction => to_number (annual_production_kwh v)
  end.

Definition resolveInternalEnergyPriceChf (v : FeasibilityFormValues) : num :=
  match internal_energy_price_mode v with
  | PercentageOfRetail =>
      num_div (num_mul (to_number (retail_price_chf_per_kwh v)) (to_number (internal_energy_price_pct_of_retail v))) (of_Z 100)
  | AbsolutePrice => to_number (internal_energy_price_chf_per_kwh v)
  end.

Definition trimNumber (value : num) (decimals : nat) : string := num_to_string (to_number (to_fixed decimals value)).

(** The field to set and its value. *)
Inductive ConvertedPrice := PriceChf (value : string) | PricePct (value : string).

Definition convertedInternalPriceForMode (v : FeasibilityFormValues) (newMode : InternalEnergyPriceMode) : option ConvertedPrice :=
  let retail := to_number (retail_price_chf_per_kwh v) in
  if negb (is_finite retail) || num_le retail (of_Z 0) then None
  else match newMode with
       | PercentageOfRetail =>
           let absolute := to_number (internal_energy_price_chf_per_kwh v) in
           if negb (is_finite absolute) then None else Some (PricePct (trimNumber (num_mul (num_div absolute retail) (of_Z 100)) 4))
       | AbsolutePrice =>
           let pct := to_number (internal_energy_price_pct_of_retail v) in
           if negb (is_finite pct) then None else Some (PriceChf (trimNumber (num_div (num_mul retail pct) (of_Z 100)) 5))
       end.

Definition namedParticipantRows (v : FeasibilityFormValues) : list ParticipantFormRow :=
  match energy_input_mode v with
  | ByParticipants => bfilter (λ r, negb (String.eqb (trim (row_name r)) "")) (participants v)
  | Aggregate => []
  end.

(** [value || '0']. *)
Definition or_zero (s : string) : string := if String.eqb s "" then "0" else s.

Record Totals := { production : num; consumption : num }.

Definition sum_rows (field : ParticipantFormRow → string) (rows : list ParticipantFormRow) : num :=
  foldl (λ sum r, num_add sum (to_number (or_zero (field r)))) (of_Z 0) rows.

Definition resolveParticipantTotals (v : FeasibilityFormValues) : Totals :=
  let rows := namedParticipantRows v in
  {| production := sum_rows row_production rows; consumption := sum_rows row_consumption rows |}.

Record FeasibilityInput := {
  sent_production : string; sent_consumption : string; sent_self_consumption_rate : string; sent_retail_price : string;
  sent_feed_in_price : string; sent_internal_price : string; sent_opex : string; sent_capex : string; sent_horizon : num;
  sent_discount_rate : string; sent_participants : list ParticipantFormRow;
}.

Definition sent_row (r : ParticipantFormRow) : ParticipantFormRow :=
  {| row_name := row_name r; row_production := toFixedString (to_number (or_zero (row_production r))) 4;
     row_consumption := toFixedString (to_number (or_zero (row_consumption r))) 4 |}.

Definition mapFormValuesToPayload (v : FeasibilityFormValues) : FeasibilityInput :=
  let rows := namedParticipantRows v in
  let useParticipants := match energy_input_mode v, rows with ByParticipants, _ :: _ => true | _, _ => false end in
  let totals := resolveParticipantTotals v in
  {| sent_production := toFixedString (if useParticipants then production totals else resolveAnnualProductionKwh v) 4;
     sent_consumption := if useParticipants then toFixedString (consumption totals) 4 else annual_consumption_kwh v;
     sent_self_consumption_rate := toFixedString (num_div (to_number (self_consumption_rate_pct v)) (of_Z 100)) 4;
     sent_retail_price := retail_price_chf_per_kwh v; sent_feed_in_price := feed_in_price_chf_per_kwh v;
     sent_internal_price := toFixedString (resolveInternalEnergyPriceChf v) 5; sent_opex := annual_opex_chf v; sent_capex := capex_chf v;
     sent_horizon := to_number (horizon_years v);
     sent_discount_rate := toFixedString (num_div (to_number (discount_rate_pct v)) (of_Z 100)) 4;
     sent_participants := if useParticipants then map sent_row rows else [] |}.

Record FeasibilityPrefill := {
  prefill_participants : list ParticipantFormRow; prefill_rate : option string; prefill_retail : option string;
  prefill_feed_in : option string; prefill_internal : option string;
}.

Definition applyPrefillToFormValues (p : FeasibilityPrefill) (c : FeasibilityFormValues) : FeasibilityFormValues :=
  {| energy_input_mode := ByParticipants; annual_production_mode := annual_production_mode c; annual_production_kwh := annual_production_kwh c;
     pv_kwp := pv_kwp c; specific_yield_kwh_per_kwp := specific_yield_kwh_per_kwp c; annual_consumption_kwh := annual_consumption_kwh c;
     participants := map (λ r, {| row_name := row_name r; row_production := row_production r; row_consumption := row_consumption r |}) (prefill_participants p);
     self_consumption_rate_pct := match prefill_rate p with
       | Some r => num_to_string (to_number (to_fixed 2 (num_mul (to_number r) (of_Z 100))))
       | None => self_consumption_rate_pct c end;
     retail_price_chf_per_kwh := default (retail_price_chf_per_kwh c) (prefill_retail p);
     feed_in_price_chf_per_kwh := default (feed_in_price_chf_per_kwh c) (prefill_feed_in p);
     internal_energy_price_mode := AbsolutePrice;
     internal_energy_price_chf_per_kwh := default (internal_energy_price_chf_per_kwh c) (prefill_internal p);
     internal_energy_price_pct_of_retail := internal_energy_price_pct_of_retail c; annual_opex_chf := annual_opex_chf c; capex_chf := capex_chf c;
     horizon_years := horizon_years c; discount_rate_pct := discount_rate_pct c |}.

(** ** The request is exact *)

Lemma percent_sent p f j :
  (f + 2 + j = 4)%nat → (0 <= p < 2 ^ 30)%Z → to_fixed 4 (num_div (to_number (fixed_text false p f)) (of_Z 100)) = fixed_text false (p * pow10 j) 4.
Proof.
  intros Hf Hp. rewrite <- Hf. assert (pow10 j <= 100)%Z as Hj by (destruct j as [|[|[|j]]]; [done..|lia]). pose proof (pow10_pos j).
  apply (near_fixed_dec 7); [|lia|lia|nia|lia]. rewrite <- dec_hundredth.
  apply (near_div 1 1); [lia..|apply near_text; lia|apply near_hundred|done|]. rewrite dec_hundredth. apply dec_range; lia.
Qed.

Lemma product_near a f b g :
  (0 <= a < 2 ^ 60)%Z → (0 <= b < 2 ^ 60)%Z → (f + g <= 10)%nat →
  near 5 (num_mul (to_number (fixed_text false a f)) (to_number (fixed_text false b g))) (dec (a * b) (f + g)).
Proof.
  intros Ha Hb Hfg. rewrite <- dec_mul. apply (near_mul 1 1); [lia..|apply near_text; lia|apply near_text; lia|].
  rewrite dec_mul. apply dec_range; [nia|lia].
Qed.

Lemma scale_le n j : (0 <= n)%Z → (n <= n * pow10 j)%Z.
Proof. intros Hn. pose proof (pow10_pos j). nia. Qed.

(** C14. What the form computes is sent as the exact decimal and not as the digits of
    a double: a percentage as its hundredth, capacity times specific yield as their
    product, a share of the retail price as that share, whenever the inputs are decimals
    short enough for the result to fit the places of the field. *)
Theorem decimals_sent_exactly v :
  (∀ p f j, (f + 2 + j = 4)%nat → (0 <= p <= 100 * pow10 f)%Z →
     (self_consumption_rate_pct v = fixed_text false p f → sent_self_consumption_rate (mapFormValuesToPayload v) = fixed_text false (p * pow10 j) 4) ∧
     (discount_rate_pct v = fixed_text false p f → sent_discount_rate (mapFormValuesToPayload v) = fixed_text false (p * pow10 j) 4)) ∧
  (∀ a f b g j, (f + g + j = 4)%nat → (0 <= a)%Z → (0 <= b)%Z → (a < 2 ^ 40)%Z → (b < 2 ^ 40)%Z → (a * b * pow10 j < 2 ^ 46)%Z →
     energy_input_mode v = Aggregate → annual_production_mode v = FromKwp →
     pv_kwp v = fixed_text false a f → specific_yield_kwh_per_kwp v = fixed_text false b g →
     sent_production (mapFormValuesToPayload v) = fixed_text false (a * b * pow10 j) 4) ∧
  (∀ r f q g j, (f + g + 2 + j = 5)%nat → (0 <= r)%Z → (0 <= q)%Z → (r < 2 ^ 40)%Z → (q < 2 ^ 40)%Z → (r * q * pow10 j < 2 ^ 46)%Z →
     internal_energy_price_mode v = PercentageOfRetail →
     retail_price_chf_per_kwh v = fixed_text false r f → internal_energy_price_pct_of_retail v = fixed_text false q g →
     sent_internal_price (mapFormValuesToPayload v) = fixed_text false (r * q * pow10 j) 5).
Proof.
  unfold mapFormValuesToPayload, toFixedString. cbn [sent_self_consumption_rate sent_discount_rate sent_production sent_internal_price]. split_and!.
  - intros p f j Hf Hp. assert (pow10 f <= 100)%Z by (destruct f as [|[|[|f]]]; [done..|lia]). split; intros ->; apply (percent_sent p f j); lia.
  - intros a f b g j Hf Ha Hb Ha2 Hb2 Hab -> Hm Ek Ey. unfold resolveAnnualProductionKwh. rewrite Hm, Ek, Ey, <- Hf.
    assert (0 <= a * b)%Z as H0 by by apply Z.mul_nonneg_nonneg. pose proof (scale_le (a * b) j H0).
    apply (near_fixed_dec 5); [apply product_near; lia|lia..].
  - intros r f q g j Hf Hr Hq Hr2 Hq2 Hrq Hm Er Eq. unfold resolveInternalEnergyPriceChf. rewrite Hm, Er, Eq, <- Hf.
    assert (0 <= r * q)%Z as H0 by by apply Z.mul_nonneg_nonneg. pose proof (scale_le (r * q) j H0).
    apply (near_fixed_dec 11); [|lia..]. rewrite <- dec_hundredth.
    apply (near_div 5 1); [lia..|apply product_near; lia|apply near_hundred|done|]. rewrite dec_hundredth. apply dec_range; lia.
Qed.

(** ** The totals of the rows *)

Section Rows.
Context (field : ParticipantFormRow → string).

(** Each row holds a decimal of four places. *)
Definition rows_hold (rows : list ParticipantFormRow) (ns : list Z) : Prop :=
  Forall2 (λ r n, field r = fixed_text false n 4 ∧ (0 <= n < 2 ^ 40)%Z) rows ns.

Definition total (ns : list Z) : Z := foldr Z.add 0%Z ns.

Lemma row_near r n : field r = fixed_text false n 4 → (0 <= n < 2 ^ 40)%Z → near 1 (to_number (or_zero (field r))) (dec n 4).
Proof.
  intros E Hn. unfold or_zero. destruct (fixed_text_trim n 4 ltac:(lia)) as [_ Hne]. rewrite E. rewrite (proj2 (String.eqb_neq _ _) Hne).
  apply near_text; lia.
Qed.

Lemma sum_near rows ns x s k :
  rows_hold rows ns → near k x (dec s 4) → (1 <= k)%Z → (k + 2 * Z.of_nat (length rows) <= 2 ^ 18)%Z → (0 <= s)%Z → (s + total ns < 2 ^ 60)%Z →
  near (k + 2 * Z.of_nat (length rows)) (foldl (λ sum r, num_add sum (to_number (or_zero (field r)))) x rows) (dec (s + total ns) 4).
Proof.
  intros H. revert x s k. induction H as [|r n rows ns [Er Hn] H IH]; intros x s k Hx Hk Hl Hs Ht.
  - cbn in *. by rewrite !Z.add_0_r.
  - cbn [foldl total foldr length] in *. fold (total ns) in *. assert (0 <= total ns)%Z as Hp.
    { clear -H. induction H as [|r n rows ns [_ ?]]; cbn; [done|]. fold (total ns). lia. }
    replace (k + 2 * Z.of_nat (S (length rows)))%Z with (k + 2 + 2 * Z.of_nat (length rows))%Z by lia.
    rewrite Z.add_assoc. apply IH; [|lia..]. replace (k + 2)%Z with (Z.max k 1 + 2)%Z by lia. rewrite <- dec_add.
    apply near_add; [lia..|done|by apply row_near|]. rewrite dec_add. apply dec_range; lia.
Qed.

Lemma sum_rows_near rows ns :
  rows_hold rows ns → (length rows <= 1000)%nat → (total ns < 2 ^ 39)%Z →
  to_fixed 4 (foldl (λ sum r, num_add sum (to_number (or_zero (field r)))) (of_Z 0) rows) = fixed_text false (total ns) 4.
Proof.
  intros H Hl Ht. assert (0 <= total ns)%Z as Hp. { clear -H. induction H as [|r n rows ns [_ ?]]; cbn; [done|]. fold (total ns). lia. }
  pose proof (sum_near rows ns (of_Z 0) 0 1 H) as Hs. rewrite Z.add_0_l in Hs.
  apply (near_fixed (1 + 2 * Z.of_nat (length rows))); [apply Hs; try lia; reflexivity|lia|lia| |].
  - apply Z.le_lt_trans with (2001 * total ns)%Z; [apply Z.mul_le_mono_nonneg_r; lia|lia].
  - pose proof (pow10_pos 4). nia.
Qed.

Lemma row_sent r n : field r = fixed_text false n 4 → (0 <= n < 2 ^ 40)%Z → to_fixed 4 (to_number (or_zero (field r))) = field r.
Proof. intros E Hn. rewrite E at 2. apply (near_fixed 1); [by apply row_near|lia..|]. pose proof (pow10_pos 4). nia. Qed.
End Rows.

(** With participants, the totals of the request are the exact sums of the rows
    it lists, and the rows are the named ones as they were typed, when each holds a decimal
    of four places: the server's aggregate never disagrees with its breakdown. *)
Theorem totals_sum_sent_rows v ps cs :
  let rows := namedParticipantRows v in let sent := mapFormValuesToPayload v in
  rows ≠ [] → (length rows <= 1000)%nat → rows_hold row_production rows ps → rows_hold row_consumption rows cs →
  (total ps < 2 ^ 39)%Z → (total cs < 2 ^ 39)%Z →
  sent_participants sent = rows ∧ sent_production sent = fixed_text false (total ps) 4 ∧ sent_consumption sent = fixed_text false (total cs) 4.
Proof.
  cbn zeta. unfold mapFormValuesToPayload. cbn [sent_participants sent_production sent_consumption]. intros Hne Hl Hp Hc Htp Htc.
  assert (energy_input_mode v = ByParticipants) as Em by (unfold namedParticipantRows in Hne; by destruct (energy_input_mode v)).
  unfold resolveParticipantTotals. cbn [production consumption]. rewrite Em. destruct (namedParticipantRows v) as [|r rows] eqn:Er; [done|].
  split_and!; [|by apply (sum_rows_near row_production)|by apply (sum_rows_near row_consumption)].
  clear Hne Hl Htp Htc Em Er. rewrite <- (list_fmap_id (r :: rows)) at 2. apply list_fmap_ext. intros i x Hx. unfold sent_row.
  destruct (Forall2_lookup_l _ _ _ _ _ Hp Hx) as (p & _ & Ep & Hp2). destruct (Forall2_lookup_l _ _ _ _ _ Hc Hx) as (c & _ & Ec & Hc2).
  unfold toFixedString. rewrite (row_sent row_production x p Ep Hp2), (row_sent row_consumption x c Ec Hc2). by destruct x.
Qed.

Lemma totals_sum_sent_rows_witness :
  let row n a b := {| row_name := n; row_production := a; row_consumption := b |} in
  let v := {| energy_input_mode := ByParticipants; annual_production_mode := AbsoluteProduction; annual_production_kwh := "1"; pv_kwp := "1";
    specific_yield_kwh_per_kwp := "1"; annual_consumption_kwh := "1";
    participants := [row "A" "0.1000" "10.0000"; row " " "5.0000" "5.0000"; row "B" "0.2000" "0.7000"]; self_consumption_rate_pct := "50";
    retail_price_chf_per_kwh := "0.32"; feed_in_price_chf_per_kwh := "0.09"; internal_energy_price_mode := AbsolutePrice;
    internal_energy_price_chf_per_kwh := "0.2"; internal_energy_price_pct_of_retail := "60"; annual_opex_chf := "0"; capex_chf := "0";
    horizon_years := "20"; discount_rate_pct := "3" |} in
  namedParticipantRows v ≠ [] ∧ sent_participants (mapFormValuesToPayload v) = namedParticipantRows v ∧
  sent_production (mapFormValuesToPayload v) = fixed_text false 3000 4.
Proof.
  intros row v. assert (namedParticipantRows v ≠ []) as H by done. split; [exact H|].
  assert (rows_hold row_production (namedParticipantRows v) [1000; 2000]%Z) as Hp by (repeat constructor; by vm_compute).
  assert (rows_hold row_consumption (namedParticipantRows v) [100000; 7000]%Z) as Hc by (repeat constructor; by vm_compute).
  pose proof (totals_sum_sent_rows v [1000; 2000]%Z [100000; 7000]%Z) as Ht. cbn zeta in Ht.
  assert (length (namedParticipantRows v) <= 1000)%nat as Hl by (by apply Nat.leb_le).
  assert (total [1000; 2000] < 2 ^ 39 ∧ total [100000; 7000] < 2 ^ 39)%Z as [H1 H2] by done.
  destruct (Ht H Hl Hp Hc H1 H2) as (E1 & E2 & _). split; [exact E1|exact E2].
Defined.
