(* ===== verification/ApiClient.v ===== *)
(** The HTTP client (lib/api/client.ts): the response interceptor that renews
    the access token once for all requests that fail with 401, as a transition
    system; and the walk over the pages of a listing (lib/api/pagination.ts).

    A step is one event of the event loop: the response of a request, or the end
    of the refresh request. The server is a parameter. *)

From stdpp Require Import relations.
From S2P Require Import Prelude JsString.
Local Open Scope string_scope.

(** ** The interceptor *)

(** An axios error: [status] is absent without a response. *)
Record AxiosError := { error_status : option Z; has_config : bool }.

(** A request is pending, waits for the refresh with the error it failed with,
    or is settled. *)
Inductive phase := Pending | Waiting (error : AxiosError) | Resolved | Rejected (error : AxiosError).

Record request := { url : option string; retry : bool; status_of : phase; sent : nat }.

Record client := { requests : list request; refreshing : bool; refresh_posts : nat }.

Definition with_phase (r : request) (p : phase) : request :=
  {| url := url r; retry := retry r; status_of := p; sent := sent r |}.

(** The guard of the interceptor: the error is passed on. *)
Definition gives_up (r : request) (e : AxiosError) : bool :=
  negb (bool_decide (error_status e = Some 401%Z)) || negb (has_config e) || retry r
  || match url r with Some u => includes "/auth/token/" u | None => false end.

(** A failed response: reject, or mark the request as retried and join the
    refresh in flight, starting it when there is none. *)
Definition on_error (s : client) (i : nat) (r : request) (e : AxiosError) : client :=
  if gives_up r e
  then {| requests := <[i := with_phase r (Rejected e)]> (requests s); refreshing := refreshing s;
          refresh_posts := refresh_posts s |}
  else {| requests := <[i := {| url := url r; retry := true; status_of := Waiting e; sent := sent r |}]> (requests s);
          refreshing := true;
          refresh_posts := (if refreshing s then refresh_posts s else S (refresh_posts s)) |}.

(** The response of a pending request; other requests do not receive one. *)
Definition respond (s : client) (i : nat) (outcome : option AxiosError) : option client :=
  r ← requests s !! i;
  match status_of r, outcome with
  | Pending, None =>
      Some {| requests := <[i := with_phase r Resolved]> (requests s); refreshing := refreshing s;
              refresh_posts := refresh_posts s |}
  | Pending, Some e => Some (on_error s i r e)
  | _, _ => None
  end.

(** What the end of the refresh does to one request: send it again, or throw its
    own error. *)
Definition after_refresh (ok : bool) (r : request) : request :=
  match status_of r with
  | Waiting e =>
      if ok then {| url := url r; retry := retry r; status_of := Pending; sent := S (sent r) |}
      else with_phase r (Rejected e)
  | _ => r
  end.

Definition refresh_done (s : client) (ok : bool) : option client :=
  if refreshing s
  then Some {| requests := after_refresh ok <$> requests s; refreshing := false; refresh_posts := refresh_posts s |}
  else None.

(** A new request is sent. *)
Definition send (s : client) (u : option string) : client :=
  {| requests := requests s ++ [{| url := u; retry := false; status_of := Pending; sent := 1 |}];
     refreshing := refreshing s; refresh_posts := refresh_posts s |}.

Inductive step : client → client → Prop :=
  | step_send s u : step s (send s u)
  | step_respond s s' i o : respond s i o = Some s' → step s s'
  | step_refresh s s' ok : refresh_done s ok = Some s' → step s s'.

(** The steps of requests already sent. *)
Inductive progress : client → client → Prop :=
  | progress_respond s s' i o : respond s i o = Some s' → progress s s'
  | progress_refresh s s' ok : refresh_done s ok = Some s' → progress s s'.

Definition initial : client := {| requests := []; refreshing := false; refresh_posts := 0 |}.

Inductive reachable : client → Prop :=
  | reach_init : reachable initial
  | reach_step s s' : reachable s → step s s' → reachable s'.

(** ** Pagination *)

Definition MAX_PAGES : nat := 200.

(** [baseUrl.replace(/\/+$/, '')]. *)
Fixpoint strip_slashes (s : string) : string :=
  match s with
  | "" => ""
  | String c rest =>
      let r := strip_slashes rest in
      if Ascii.eqb c "/" && String.eqb r "" then "" else String c r
  end.

Section Pages.
(** [new URL(text)]: the path and the query, or [None] when it throws. *)
Context (parse_url : string → option (string * string)).

Definition toPathPrefix (baseUrl : string) : string :=
  match parse_url baseUrl with
  | Some (pathname, _) => strip_slashes pathname
  | None => strip_slashes baseUrl
  end.

(** A relative link, cut at its first question mark. *)
Definition split_query (next : string) : string * string :=
  match String.index 0 "?" next with
  | Some i => (slice next 0 i, slice_from next i)
  | None => (next, "")
  end.

Definition nextToRelative (basePath next : string) : string :=
  let '(pathname, search) := match parse_url next with Some parts => parts | None => split_query next end in
  let pathname := if nonempty basePath && starts_with (basePath ++ "/") pathname
    then slice_from pathname (String.length basePath) else pathname in
  pathname ++ search.

(** What an endpoint answers: a page with its link, or a plain array. *)
Inductive page_data (T : Type) := Page (results : list T) (next : option string) | Plain (rows : list T).
Arguments Page {T}. Arguments Plain {T}.

Inductive fetch_result (T : Type) := Fetched (rows : list T) | TooManyPages | RequestFailed.
Arguments Fetched {T}. Arguments TooManyPages {T}. Arguments RequestFailed {T}.

(** The loop; [get n target] answers the [n]-th request, [None] when it fails.
    [fuel] is what the cap leaves. The result carries the number of requests. *)
Fixpoint fetch_loop {T} (basePath : string) (get : nat → string → option (page_data T)) (fuel count : nat)
    (target : string) (all : list T) : fetch_result T * nat :=
  match fuel with
  | O => (TooManyPages, count)
  | S fuel' =>
      match get count target with
      | None => (RequestFailed, S count)
      | Some (Plain rows) => (Fetched rows, S count)
      | Some (Page results next) =>
          if truthy_str next
          then fetch_loop basePath get fuel' (S count) (nextToRelative basePath (default "" next)) (all ++ results)
          else (Fetched (all ++ results), S count)
      end
  end.

Definition fetchAllPages {T} (basePath : string) (get : nat → string → option (page_data T)) (path : string) : fetch_result T * nat :=
  fetch_loop basePath get MAX_PAGES 0 path [].
End Pages.
Arguments Page {T}. Arguments Plain {T}.
Arguments Fetched {T}. Arguments TooManyPages {T}. Arguments RequestFailed {T}.

(** ** Invariants of the interceptor *)

Definition is_waiting (r : request) : Prop := ∃ e, status_of r = Waiting e.
Definition settled (r : request) : Prop := status_of r = Resolved ∨ ∃ e, status_of r = Rejected e.

(** A request is sent once, or twice when it was retried; it only waits after
    being marked, and never for a token endpoint. *)
Definition request_ok (r : request) : Prop :=
  match status_of r with
  | Pending => sent r = (if retry r then 2 else 1)%nat
  | Waiting e => sent r = 1%nat ∧ retry r = true ∧ error_status e = Some 401%Z ∧
      match url r with Some u => includes "/auth/token/" u = false | None => True end
  | _ => sent r = 1%nat ∨ (sent r = 2%nat ∧ retry r = true)
  end.

Definition client_inv (s : client) : Prop :=
  Forall request_ok (requests s) ∧
  (refreshing s = true ↔ ∃ r, r ∈ requests s ∧ is_waiting r) ∧
  (refresh_posts s <= length (bfilter retry (requests s)))%nat.

Lemma gives_up_false r e :
  gives_up r e = false →
  error_status e = Some 401%Z ∧ has_config e = true ∧ retry r = false ∧
  match url r with Some u => includes "/auth/token/" u = false | None => True end.
Proof.
  unfold gives_up. intros H. bool_facts. apply bool_decide_eq_true in H.
  repeat split; try done. by destruct (url r).
Qed.

(** Replacing a request, on its waiters and on the number of retried ones. *)
Lemma insert_split (l : list request) i r r' :
  l !! i = Some r → ∃ l1 l2, l = (l1 ++ r :: l2)%list ∧ <[i := r']> l = (l1 ++ r' :: l2)%list.
Proof.
  intros Hi. exists (take i l), (drop (S i) l). split; [by rewrite take_drop_middle|].
  apply insert_take_drop. by eapply lookup_lt_Some.
Qed.

Lemma exists_middle (P : request → Prop) l1 r l2 :
  (∃ x, x ∈ (l1 ++ r :: l2)%list ∧ P x) ↔ P r ∨ ∃ x, x ∈ (l1 ++ l2)%list ∧ P x.
Proof.
  setoid_rewrite elem_of_app. setoid_rewrite elem_of_cons. split.
  - intros (x & [?|[->|?]] & ?); [right; exists x; auto|by left|right; exists x; auto].
  - intros [?|(x & [?|?] & ?)]; [exists r|exists x|exists x]; auto.
Qed.

Lemma count_retry_middle l1 r l2 :
  length (bfilter retry (l1 ++ r :: l2)%list) = ((if retry r then 1 else 0) + length (bfilter retry (l1 ++ l2)%list))%nat.
Proof.
  unfold bfilter. rewrite !List.filter_app, !length_app. simpl. destruct (retry r); simpl; lia.
Qed.

Lemma Forall_middle (P : request → Prop) l1 r l2 : Forall P (l1 ++ r :: l2)%list ↔ P r ∧ Forall P (l1 ++ l2)%list.
Proof. rewrite !Forall_app, Forall_cons. tauto. Qed.

Lemma respond_inv s s' i o : client_inv s → respond s i o = Some s' → client_inv s'.
Proof.
  intros (Hok & Hw & Hp). unfold respond. destruct (requests s !! i) as [r|] eqn:Er; simpl; [|done].
  destruct (status_of r) eqn:Es; try done; [|by destruct o..].
  assert (¬ is_waiting r) as Hnw by (by intros [e He]; congruence).
  assert (∀ r', is_waiting r' ↔ ∃ e, status_of r' = Waiting e) as Hiw by done.
  destruct o as [e|]; intros [= <-].
  - unfold on_error. destruct (gives_up r e) eqn:Eg.
    + destruct (insert_split _ _ _ (with_phase r (Rejected e)) Er) as (l1 & l2 & E1 & E2).
      rewrite E1 in *. unfold client_inv. cbn [requests refreshing refresh_posts]. rewrite E2.
      rewrite Forall_middle, exists_middle, count_retry_middle in *. destruct Hok as [Hr Hok].
      split_and!; [|done| |done].
      * unfold request_ok in *. rewrite Es in Hr. cbn [status_of with_phase sent retry]. destruct (retry r); auto.
      * rewrite Hw. split; [intros [?|?]; [done|by right]|]. intros [[e' [=]]|?]; by right.
    + destruct (gives_up_false r e Eg) as (He & _ & Hr & Hu).
      destruct (insert_split _ _ _ {| url := url r; retry := true; status_of := Waiting e; sent := sent r |} Er) as (l1 & l2 & E1 & E2).
      rewrite E1 in *. unfold client_inv. cbn [requests refreshing refresh_posts]. rewrite E2.
      rewrite Forall_middle, exists_middle, count_retry_middle in *. destruct Hok as [Hr' Hok].
      cbn [retry]. rewrite Hr in Hp. split; [split; [|done]|split].
      * unfold request_ok in *. rewrite Es, Hr in Hr'. cbn. done.
      * split; [intros _; left; by exists e|done].
      * destruct (refreshing s); simpl in *; lia.
  - destruct (insert_split _ _ _ (with_phase r Resolved) Er) as (l1 & l2 & E1 & E2).
    rewrite E1 in *. unfold client_inv. cbn [requests refreshing refresh_posts]. rewrite E2.
    rewrite Forall_middle, exists_middle, count_retry_middle in *. destruct Hok as [Hr Hok].
    split_and!; [|done| |done].
    + unfold request_ok in *. rewrite Es in Hr. cbn [status_of with_phase sent retry]. destruct (retry r); auto.
    + rewrite Hw. split; [intros [?|?]; [done|by right]|]. intros [[e' [=]]|?]; by right.
Qed.

Lemma after_refresh_fields ok r :
  retry (after_refresh ok r) = retry r ∧ ¬ is_waiting (after_refresh ok r) ∧
  (request_ok r → request_ok (after_refresh ok r)).
Proof.
  unfold after_refresh, is_waiting, request_ok.
  destruct (status_of r) eqn:Es; [| | |].
  - rewrite Es. split_and!; [done|by intros [? [=]]|done].
  - destruct ok; cbn; (split_and!; [done|by intros [? [=]]|]).
    + intros (-> & -> & _). done.
    + intros (-> & _). by left.
  - rewrite Es. split_and!; [done|by intros [? [=]]|done].
  - rewrite Es. split_and!; [done|by intros [? [=]]|done].
Qed.

Lemma refresh_inv s s' ok : client_inv s → refresh_done s ok = Some s' → client_inv s'.
Proof.
  intros (Hok & _ & Hp). unfold refresh_done. destruct (refreshing s); [|done]. intros [= <-].
  unfold client_inv. cbn [requests refreshing refresh_posts]. split_and!.
  - apply Forall_fmap. eapply Forall_impl; [exact Hok|]. intros r. apply after_refresh_fields.
  - split; [done|]. intros (r & (r0 & -> & _)%list_elem_of_fmap & Hw).
    by destruct (after_refresh_fields ok r0) as (_ & ? & _).
  - assert (length (bfilter retry (after_refresh ok <$> requests s)) = length (bfilter retry (requests s))) as ->; [|done].
    unfold bfilter. clear. induction (requests s) as [|r l IH]; [done|]. rewrite fmap_cons. cbn [List.filter].
    destruct (after_refresh_fields ok r) as (-> & _). destruct (retry r); simpl; by rewrite IH.
Qed.

Lemma send_inv s u : client_inv s → client_inv (send s u).
Proof.
  intros (Hok & Hw & Hp). unfold client_inv, send. cbn [requests refreshing refresh_posts]. split_and!.
  - apply Forall_app. split; [done|]. by repeat constructor.
  - rewrite exists_snoc, Hw. split; [by left|]. intros [?|[e [=]]]. done.
  - unfold bfilter in *. rewrite List.filter_app, length_app. simpl. lia.
Qed.

Lemma reachable_inv s : reachable s → client_inv s.
Proof.
  induction 1 as [|s s' _ IH Hs].
  - split_and!; [constructor| |done]. cbn. rewrite exists_nil. split; done.
  - destruct Hs; [by apply send_inv|by eapply respond_inv|by eapply refresh_inv].
Qed.

(** C1. In every reachable state a request has been sent at most twice, a waiting
    request always has a refresh in flight to wake it, token requests never
    wait, and at most one refresh was started per retried request. *)
Theorem interceptor_safe s :
  reachable s →
  Forall (λ r, (sent r <= 2)%nat ∧ (retry r = false → (sent r <= 1)%nat)) (requests s) ∧
  (refreshing s = true ↔ ∃ r, r ∈ requests s ∧ is_waiting r) ∧
  (∀ r u, r ∈ requests s → is_waiting r → url r = Some u → includes "/auth/token/" u = false) ∧
  (refresh_posts s <= length (bfilter retry (requests s)))%nat.
Proof.
  intros (Hok & Hw & Hp)%reachable_inv. split; [|split; [exact Hw|split; [|done]]].
  - eapply Forall_impl; [exact Hok|]. intros r. unfold request_ok.
    destruct (status_of r); [intros ->; destruct (retry r); lia|intros (-> & -> & _); lia| |].
    all: intros [->|[-> ->]]; [lia|split; [lia|done]].
  - intros r u Hr [e He] Hu. rewrite Forall_forall in Hok. specialize (Hok r Hr). unfold request_ok in Hok.
    rewrite He, Hu in Hok. tauto.
Qed.

(** What a request still has to go through. *)
Definition weight (r : request) : nat :=
  match status_of r with Pending => if retry r then 1 else 3 | Waiting _ => 2 | _ => 0 end%nat.
Definition total (l : list request) : nat := foldr (λ r n, weight r + n)%nat 0%nat l.
Definition measure (s : client) : nat := total (requests s).

Lemma measure_middle l1 r l2 :
  total (l1 ++ r :: l2)%list = (weight r + total (l1 ++ l2)%list)%nat.
Proof. unfold total. induction l1 as [|x l1 IH]; simpl; [done|]. rewrite IH. lia. Qed.

Lemma total_le (f : request → request) l :
  (∀ x, x ∈ l → (weight (f x) <= weight x)%nat) → (total (f <$> l) <= total l)%nat.
Proof.
  induction l as [|x l IH]; intros H; [done|]. rewrite fmap_cons. unfold total in *. cbn [foldr].
  specialize (IH (λ y Hy, H y (list_elem_of_further _ _ _ Hy))). specialize (H x (list_elem_of_here _ _)). lia.
Qed.

Lemma total_lt (f : request → request) l r :
  (∀ x, x ∈ l → (weight (f x) <= weight x)%nat) → r ∈ l → (weight (f r) < weight r)%nat →
  (total (f <$> l) < total l)%nat.
Proof.
  intros H (l1 & l2 & ->)%list_elem_of_split Hr. rewrite fmap_app, fmap_cons, !measure_middle, <- fmap_app.
  pose proof (total_le f (l1 ++ l2)) as Ht. assert (∀ x, x ∈ (l1 ++ l2)%list → (weight (f x) <= weight x)%nat) as H'.
  { intros x Hx. apply H. rewrite elem_of_app in *. rewrite elem_of_cons. tauto. }
  specialize (Ht H'). lia.
Qed.

Lemma respond_measure s s' i o : client_inv s → respond s i o = Some s' → (measure s' < measure s)%nat.
Proof.
  intros (Hok & _ & _). unfold respond. destruct (requests s !! i) as [r|] eqn:Er; simpl; [|done].
  destruct (status_of r) eqn:Es; try done; [|by destruct o..].
  assert (∀ r', (weight r' < weight r)%nat → (total (<[i := r']> (requests s)) < measure s)%nat) as H.
  { intros r' Hlt. unfold measure. destruct (insert_split _ _ _ r' Er) as (l1 & l2 & -> & ->).
    rewrite !measure_middle. lia. }
  assert (1 <= weight r)%nat as Hr by (unfold weight; rewrite Es; destruct (retry r); lia).
  destruct o as [e|]; intros [= <-].
  - unfold on_error. destruct (gives_up r e) eqn:Eg; apply H; [exact Hr|].
    destruct (gives_up_false r e Eg) as (_ & _ & Hre & _). unfold weight. rewrite Es, Hre. cbn. lia.
  - apply H. exact Hr.
Qed.

Lemma refresh_measure s s' ok : client_inv s → refresh_done s ok = Some s' → (measure s' < measure s)%nat.
Proof.
  intros (Hok & Hw & _). unfold refresh_done. destruct (refreshing s); [|done]. intros [= <-].
  destruct (proj1 Hw eq_refl) as (r & Hr & Hwr). unfold measure. cbn [requests].
  assert (∀ x, x ∈ requests s → (weight (after_refresh ok x) <= weight x)%nat ∧
    (is_waiting x → (weight (after_refresh ok x) < weight x)%nat)) as Hle.
  { intros x Hx. rewrite Forall_forall in Hok. specialize (Hok x Hx). unfold request_ok in Hok.
    unfold after_refresh, weight, is_waiting. destruct (status_of x) eqn:Ex; try (rewrite Ex; split; [done|by intros [? [=]]]).
    destruct Hok as (_ & Hre & _). destruct ok; cbn; rewrite ?Hre; split; intros; lia. }
  apply (total_lt _ _ r); [intros x Hx; by apply Hle|done|by apply Hle].
Qed.

Lemma progress_inv s s' : progress s s' → client_inv s → client_inv s' ∧ (measure s' < measure s)%nat.
Proof.
  intros [s1 s2 i o H|s1 s2 ok H] Hi.
  - split; [by eapply respond_inv|by eapply respond_measure].
  - split; [by eapply refresh_inv|by eapply refresh_measure].
Qed.

(** As long as some request is not settled the client can make progress. *)
Lemma progress_or_settled s : client_inv s → Forall settled (requests s) ∨ ∃ s', progress s s'.
Proof.
  intros (Hok & Hw & _). destruct (decide (refreshing s = true)) as [Hr|Hr].
  { right. eexists. apply (progress_refresh s _ true). unfold refresh_done. by rewrite Hr. }
  destruct (existsb (λ r, match status_of r with Pending => true | _ => false end) (requests s)) eqn:E.
  - right. apply existsb_elem in E as (r & Hin & Hp). apply list_elem_of_lookup_1 in Hin as [i Hi].
    eexists. apply (progress_respond s _ i None). unfold respond. rewrite Hi. cbn.
    by destruct (status_of r).
  - left. apply Forall_forall. intros r Hin. unfold settled. destruct (status_of r) as [|e| |e] eqn:Es; [| |by left|right; eauto].
    + assert (existsb (λ r, match status_of r with Pending => true | _ => false end) (requests s) = true) as Hx; [|congruence].
      apply existsb_elem. exists r. by rewrite Es.
    + destruct Hr. apply Hw. exists r. split; [done|]. by exists e.
Qed.

(** C22. Every request is answered: from a reachable state each run of responses and
    refreshes is at most three steps per request long, and it can always be
    continued until all requests are settled. *)
Theorem interceptor_settles s :
  reachable s →
  (∀ n s', nsteps progress n s s' → (n <= 3 * length (requests s))%nat) ∧
  ∃ s', rtc progress s s' ∧ Forall settled (requests s').
Proof.
  intros Hi%reachable_inv. split.
  - assert (∀ n s s', client_inv s → nsteps progress n s s' → (n <= measure s)%nat) as H.
    { induction n as [|n IH]; intros x y Hx Hn; [lia|]. inversion Hn as [|? ? z ? Hp Hn']; subst.
      destruct (progress_inv _ _ Hp Hx) as [Hz Hm]. specialize (IH z y Hz Hn'). lia. }
    intros n s' Hn. transitivity (measure s); [by eapply H|].
    unfold measure, total. clear. induction (requests s) as [|r l IH]; [done|]. cbn [foldr length].
    assert (weight r <= 3)%nat by (unfold weight; destruct (status_of r), (retry r); lia). lia.
  - remember (measure s) as m eqn:Hm. revert s Hi Hm. induction m as [m IH] using lt_wf_ind. intros s Hi ->.
    destruct (progress_or_settled s Hi) as [Hs|[s' Hp]]; [exists s; split; [done|done]|].
    destruct (progress_inv _ _ Hp Hi) as [Hi' Hlt]. destruct (IH _ Hlt s' Hi' eq_refl) as (t & Ht & Hts).
    exists t. split; [by eapply rtc_l|done].
Qed.

(** Two requests fail with 401 while one refresh runs. *)
Definition two_waiting : client :=
  let s := send (send initial (Some "/invoices/")) (Some "/zevs/") in
  let e := {| error_status := Some 401%Z; has_config := true |} in
  default s (s1 ← respond s 0 (Some e); respond s1 1 (Some e)).

Lemma two_waiting_reachable : reachable two_waiting.
Proof.
  set (e := {| error_status := Some 401%Z; has_config := true |}).
  set (s := send (send initial (Some "/invoices/")) (Some "/zevs/")).
  assert (reachable s) as H.
  { eapply reach_step; [eapply reach_step; [apply reach_init|apply step_send]|apply step_send]. }
  destruct (respond s 0 (Some e)) as [s1|] eqn:E1; [|vm_compute in E1; discriminate].
  destruct (respond s1 1 (Some e)) as [s2|] eqn:E2; [|vm_compute in E1; injection E1 as <-; vm_compute in E2; discriminate].
  assert (two_waiting = s2) as ->.
  { unfold two_waiting. fold s e. rewrite E1. cbn. by rewrite E2. }
  eapply reach_step; [eapply reach_step; [exact H|by eapply step_respond]|by eapply step_respond].
Qed.

Lemma interceptor_safe_witness : refresh_posts two_waiting = 1%nat ∧ refreshing two_waiting = true ∧
  Forall (λ r, (sent r <= 2)%nat ∧ (retry r = false → (sent r <= 1)%nat)) (requests two_waiting).
Proof.
  split; [reflexivity|]. split; [reflexivity|].
  destruct (interceptor_safe two_waiting two_waiting_reachable) as [H _]. exact H.
Defined.

Lemma interceptor_settles_witness : ∃ s', rtc progress two_waiting s' ∧ Forall settled (requests s').
Proof. destruct (interceptor_settles two_waiting two_waiting_reachable) as [_ H]. exact H. Defined.

(** ** Pages *)

(** The chain of pages an endpoint serves, from its [count]-th request. *)
Fixpoint serves {T} (rel : string → string) (get : nat → string → option (page_data T)) (count : nat) (target : string)
    (pages : list (list T)) : Prop :=
  match pages with
  | [] => False
  | [last] => get count target = Some (Page last None) ∨ get count target = Some (Page last (Some ""))
  | p :: rest => ∃ next, next ≠ "" ∧ get count target = Some (Page p (Some next)) ∧ serves rel get (S count) (rel next) rest
  end.

(** C38. However the server answers, at most 200 requests are made; and an endpoint
    that serves at most 200 pages gives all their rows, in order, one request
    per page. *)
Theorem fetchAllPages_total {T} parse_url basePath (get : nat → string → option (page_data T)) path :
  (snd (fetchAllPages parse_url basePath get path) <= 200)%nat ∧
  ∀ pages, serves (nextToRelative parse_url basePath) get 0 path pages → (length pages <= 200)%nat →
    fetchAllPages parse_url basePath get path = (Fetched (mjoin pages), length pages).
Proof.
  unfold fetchAllPages. split.
  - assert (∀ fuel count target all, (count + fuel <= 200)%nat →
      (snd (fetch_loop parse_url basePath get fuel count target all) <= 200)%nat) as H.
    { induction fuel as [|fuel IH]; intros count target all Hc; cbn [fetch_loop]; [simpl; lia|].
      destruct (get count target) as [[results next|rows]|]; simpl; [|lia|lia].
      destruct (truthy_str next); [apply IH; lia|simpl; lia]. }
    apply H. unfold MAX_PAGES. lia.
  - intros pages Hs Hl.
    assert (∀ fuel count target all, serves (nextToRelative parse_url basePath) get count target pages →
      (length pages <= fuel)%nat →
      fetch_loop parse_url basePath get fuel count target all = (Fetched (all ++ mjoin pages)%list, count + length pages)%nat) as H.
    { clear. induction pages as [|p rest IH]; intros fuel count target all Hs Hf; [done|].
      destruct fuel as [|fuel]; [simpl in Hf; lia|]. cbn [fetch_loop]. destruct rest as [|q rest].
      - destruct Hs as [-> | ->]; simpl; rewrite app_nil_r, Nat.add_1_r; done.
      - destruct Hs as (next & Hne & -> & Hs). assert (truthy_str (Some next) = true) as ->.
        { simpl. by apply negb_true_iff, String.eqb_neq. }
        change (default "" (Some ?x)) with x. rewrite (IH fuel (S count)); [|done|simpl in *; lia].
        f_equal; [f_equal; simpl; by rewrite <- app_assoc|simpl; lia]. }
    rewrite (H MAX_PAGES 0%nat path []); [done|done|exact Hl].
Qed.

Lemma fetchAllPages_total_witness :
  let get (n : nat) (target : string) : option (page_data Z) :=
    if String.eqb target "/invoices/" then Some (Page [1; 2]%Z (Some "https://host/api/v1/invoices/?page=2"))
    else if String.eqb target "/invoices/?page=2" then Some (Page [3]%Z None) else None in
  let parse (u : string) := if starts_with "https://host" u then Some ("/api/v1/invoices/", "?page=2") else None in
  fetchAllPages parse "/api/v1" get "/invoices/" = (Fetched [1; 2; 3]%Z, 2%nat).
Proof.
  intros get parse. destruct (fetchAllPages_total parse "/api/v1" get "/invoices/") as [_ H].
  apply (H [[1; 2]%Z; [3]%Z]).
  - exists "https://host/api/v1/invoices/?page=2". split; [done|]. split; [reflexivity|]. left. reflexivity.
  - simpl. lia.
Defined.
