(* ===== verification/Json.v ===== *)
(** JSON values as the sources receive them ([unknown] data of a response),
    with the conversions of the language that they apply to them.

    An object is the list of its own properties in property order (what
    [Object.entries] lists); an absent property reads as [None]
    ([undefined]). *)

From S2P Require Import Prelude JsString JsNumber.
Local Open Scope string_scope.

#[local] Unset Elimination Schemes.

Inductive json :=
  | JNull
  | JBool (b : bool)
  | JNum (n : num)
  | JStr (s : string)
  | JArr (l : list json)
  | JObj (o : list (string * json)).

#[local] Set Elimination Schemes.

(** Induction with the hypothesis for every element and every property. *)
Definition json_ind (P : json → Prop) (fnull : P JNull) (fbool : ∀ b, P (JBool b)) (fnum : ∀ n, P (JNum n))
    (fstr : ∀ s, P (JStr s)) (farr : ∀ l, Forall P l → P (JArr l))
    (fobj : ∀ o, Forall (λ kv, P kv.2) o → P (JObj o)) : ∀ j, P j :=
  fix F j :=
    match j with
    | JNull => fnull | JBool b => fbool b | JNum n => fnum n | JStr s => fstr s
    | JArr l => farr l ((fix G l := match l return Forall P l with
                                   | [] => Forall_nil_2 _ | x :: l' => Forall_cons_2 _ _ _ (F x) (G l') end) l)
    | JObj o => fobj o ((fix G o := match o return Forall (λ kv, P kv.2) o with
                                   | [] => Forall_nil_2 _ | kv :: o' => Forall_cons_2 _ kv o' (F kv.2) (G o') end) o)
    end.

(** [data[key]], [undefined] when the property is absent. *)
Definition jget (key : string) (o : list (string * json)) : option json := omap_get key o.

(** [data[key]] on any object; the keys the sources read are not array indices. *)
Definition jprop (key : string) (j : json) : option json :=
  match j with JObj o => jget key o | _ => None end.

(** [Object.keys(data).length > 0]. *)
Definition has_keys (j : json) : bool :=
  match j with JObj (_ :: _) | JArr (_ :: _) => true | _ => false end.

Definition jbool_text (b : bool) : string := if b then "true" else "false".

(** [String(value)]; an array joins its elements with commas, [null] elements as nothing. *)
Fixpoint js_text (j : json) : string :=
  match j with
  | JNull => "null"
  | JBool b => jbool_text b
  | JNum n => num_to_string n
  | JStr s => s
  | JArr l => join "," (map (λ x, match x with JNull => "" | _ => js_text x end) l)
  | JObj _ => "[object Object]"
  end.

(** [typeof value === 'object' && value !== null]. *)
Definition is_object (j : json) : bool := match j with JArr _ | JObj _ => true | _ => false end.
Definition is_plain_object (j : json) : bool := match j with JObj _ => true | _ => false end.
Definition is_string (j : json) : bool := match j with JStr _ => true | _ => false end.

(** [!value] is [false]. *)
Definition jtruthy (j : json) : bool :=
  match j with
  | JNull => false
  | JBool b => b
  | JNum n => negb (is_nan n || num_eqb n (of_Z 0))
  | JStr s => nonempty s
  | _ => true
  end.

Definition undefined_or {A} (d : A) (f : json → A) (v : option json) : A :=
  match v with Some j => f j | None => d end.

Lemma jget_elem key o v : jget key o = Some v → (key, v) ∈ o.
Proof. apply omap_get_Some_elem. Qed.

Example js_text_ex :
  js_text (JArr [JStr "a"; JNull; JNum (of_Z 3); JObj []; JBool true]) = "a,,3,[object Object],true".
Proof. vm_compute. reflexivity. Qed.
