(* ===== verification/QueryKeys.v ===== *)
(** The keys of the query cache (lib/api/queryKeys.ts) and what the mutations of the app
    invalidate: invalidateReadingQueries, invalidateSourceQueries, invalidateTariffQueries
    and lists inside the handlers of two pages and of the charges.

    A key is the list of its parts. The query client keeps one entry per key and an
    invalidation reaches every entry whose key begins with the given parts. An optional
    argument that is not given is [None]; an object is its properties, those that are
    [undefined] left out. *)

From S2P Require Import Prelude JsString JsNumber JsFloat Json.
Local Open Scope string_scope.

Definition key := list json.

(** ** The queries of the app *)

Inductive auth_query :=
  | AuthMe | AuthAppSettings | AuthSystemHealth | AuthUsers | AuthFeatureFlags | AuthRegistrationEnabled | AuthVatRates | AuthOauthProviders
  | AuthSocialAccounts | AuthApiKeys | AuthMfa | AuthCredentials | AuthAllCredentials (user : option Z) (kind status : option string)
  | AuthAllApiKeys (user : option Z) (status : option string) | AuthOauthProviderConfigs.

Inductive zev_query :=
  | ZevList | ZevParticipants (zevId : option string) | ZevTransferSections | ZevGridOperators | ZevGridOperatorSuggestions (postalCode : string)
  | ZevParticipantGeocodingEnabled | ZevAccess (zevId : string) (includeEnded : bool) | ZevParties (zevId : string) | ZevBuildings (zevId : string)
  | ZevPvPlanes (meteringPointId : string) | ZevPartyRoles (zevId : string) (includeEnded : bool).

Inductive tariff_query :=
  | TariffSeries (zevId : option string) | TariffProgression (zevId energyType : string) (from to : option string)
  | TariffDynamicSources | TariffDynamicPrices (sourceId dateFrom dateTo : string).

Inductive charge_query := ChargeList (zevId periodStart periodEnd : option string) | ChargePreview (payload : json).

Inductive backup_query := BackupDestinations | BackupJobs | BackupStatus | BackupSchedule | BackupRestores | BackupRestore (id : string).

Inductive inbox_scope := InboxMine | InboxOutbox.

Inductive invoice_query :=
  | InvoiceList (zevId status : option string) | InvoicesMine | InvoiceCredits | InvoiceDetail (invoiceId : string) | InvoiceDashboard
  | InvoicePeriodOverview (zevId periodStart periodEnd : string) | InvoiceReadiness (zevId : option string)
  | InvoiceReadinessList (zevId : option string) | InvoiceAttention (zevId : option string) | InvoiceAnnualReport (zevId : string) (year : Z).

Inductive admin_query :=
  | AdminEmailTemplate (templateKey : string) | AdminInvoicePdfTemplate | AdminContractPdfTemplate | AdminAnnualStatementPdfTemplate
  | AdminCreditNotePdfTemplate | AdminAuditEvents (filters : option (list (string * json))) | AdminAuditEvent (eventId : string)
  | AdminAuditFilterOptions.

Inductive chart_bucket := BucketDay | BucketHour | BucketMonth.

Inductive metering_query :=
  | MeterPoints (zevId : option string) | MeterPointAssignments (meteringPointId : option string) | MeterImportLogs
  | MeterChartData (meteringPointId dateFrom dateTo : string) (bucket : chart_bucket) | MeterRawData (meteringPointId dateFrom dateTo : string)
  | MeterRawDay (meteringPointId date : string) | MeterHeldReadings (meteringPointId dateFrom dateTo importBatch : string) (page : Z)
  | MeterDashboardSummary (params : list (string * json)) | MeterQualityStatus (dateFrom dateTo : string) (zevId meteringPointId : option string)
  | MeterSupplementarySources | MeterSupplementaryEligible | MeterSupplementaryZevEligible (zevId : string)
  | MeterSupplementaryReconciliation (sourceId : string) | MeterHourlyProfile (dateFrom dateTo : string) (zevId participantId : option string).

Inductive live_query :=
  | LiveEnabled | LiveSnapshotOf (zevId : string) | LiveCurveOf (zevId date participantId : string) | LiveForecast (zevId : string)
  | LiveOwnSeries (zevId participantId from to bucket : string).

Inductive query :=
  | QUnreadCount | QNotifications | QAuth (q : auth_query) | QZev (q : zev_query) | QTariffs (q : tariff_query) | QCharges (q : charge_query)
  | QFeasibility | QBackups (q : backup_query) | QInbox (scope : inbox_scope) (filters : list (string * json)) | QInvoices (q : invoice_query)
  | QAdmin (q : admin_query) | QMetering (q : metering_query) | QLive (q : live_query).

(** ** Their keys *)

(** [value ?? fallback]. *)
Definition part_or (d : string) (v : option string) : json := JStr (default d v).
Definition part_or_null (v : option string) : json := match v with Some s => JStr s | None => JNull end.
Definition number (z : Z) : json := JNum (of_Z z).
(** [user ?? '']. *)
Definition user_part (u : option Z) : json := match u with Some z => number z | None => JStr "" end.
Definition strs (l : list string) : key := map JStr l.

Definition allCredentialsRoot : key := strs ["auth"; "all-credentials"].
Definition allApiKeysRoot : key := strs ["auth"; "all-api-keys"].

Definition auth_key (q : auth_query) : key :=
  match q with
  | AuthMe => strs ["auth"; "me"]
  | AuthAppSettings => strs ["auth"; "app-settings"]
  | AuthSystemHealth => strs ["auth"; "system-health"]
  | AuthUsers => strs ["auth"; "users"]
  | AuthFeatureFlags => strs ["auth"; "feature-flags"]
  | AuthRegistrationEnabled => strs ["auth"; "registration-enabled"]
  | AuthVatRates => strs ["auth"; "vat-rates"]
  | AuthOauthProviders => strs ["auth"; "oauth-providers"]
  | AuthSocialAccounts => strs ["auth"; "social-accounts"]
  | AuthApiKeys => strs ["auth"; "api-keys"]
  | AuthMfa => strs ["auth"; "mfa"]
  | AuthCredentials => strs ["auth"; "credentials"]
  | AuthAllCredentials user kind status => (allCredentialsRoot ++ [user_part user; part_or "" kind; part_or "" status])%list
  | AuthAllApiKeys user status => (allApiKeysRoot ++ [user_part user; part_or "" status])%list
  | AuthOauthProviderConfigs => strs ["auth"; "oauth-provider-configs"]
  end.

Definition zev_key (q : zev_query) : key :=
  match q with
  | ZevList => strs ["zev"; "list"]
  | ZevParticipants z => (strs ["zev"; "participants"] ++ [part_or "all" z])%list
  | ZevTransferSections => strs ["zev"; "transfer-sections"]
  | ZevGridOperators => strs ["zev"; "grid-operators"]
  | ZevGridOperatorSuggestions p => strs ["zev"; "grid-operators"; "suggest"; p]
  | ZevParticipantGeocodingEnabled => strs ["zev"; "participant-geocoding-enabled"]
  | ZevAccess z e => (strs ["zev"; "access"; z] ++ [JBool e])%list
  | ZevParties z => strs ["zev"; "parties"; z]
  | ZevBuildings z => strs ["zev"; "buildings"; z]
  | ZevPvPlanes m => strs ["zev"; "pv-planes"; m]
  | ZevPartyRoles z e => (strs ["zev"; "partyRoles"; z] ++ [JBool e])%list
  end.

Definition tariff_key (q : tariff_query) : key :=
  match q with
  | TariffSeries z => (strs ["tariffs"; "series"] ++ [part_or "all" z])%list
  | TariffProgression z e from to => (strs ["tariffs"; "progression"; z; e] ++ [part_or "" from; part_or "" to])%list
  | TariffDynamicSources => strs ["tariffs"; "dynamic-sources"]
  | TariffDynamicPrices s from to => strs ["tariffs"; "dynamic-sources"; s; "prices"; from; to]
  end.

Definition charge_lists : key := strs ["charges"; "list"].
Definition charge_key (q : charge_query) : key :=
  match q with
  | ChargeList z a b => (charge_lists ++ [part_or "all" z; part_or_null a; part_or_null b])%list
  | ChargePreview p => (strs ["charges"; "preview"] ++ [p])%list
  end.

Definition backup_key (q : backup_query) : key :=
  match q with
  | BackupDestinations => strs ["backups"; "destinations"]
  | BackupJobs => strs ["backups"; "jobs"]
  | BackupStatus => strs ["backups"; "status"]
  | BackupSchedule => strs ["backups"; "schedule"]
  | BackupRestores => strs ["backups"; "restores"]
  | BackupRestore id => strs ["backups"; "restores"; id]
  end.

Definition inbox_text (s : inbox_scope) : string := match s with InboxMine => "mine" | InboxOutbox => "outbox" end.

Definition invoice_lists : key := strs ["invoices"; "list"].
Definition invoice_key (q : invoice_query) : key :=
  match q with
  | InvoiceList z st => (invoice_lists ++ [part_or "all" z; part_or "all" st])%list
  | InvoicesMine => strs ["invoices"; "mine"]
  | InvoiceCredits => strs ["invoices"; "credits"]
  | InvoiceDetail i => strs ["invoices"; "detail"; i]
  | InvoiceDashboard => strs ["invoices"; "dashboard"]
  | InvoicePeriodOverview z a b => strs ["invoices"; "period-overview"; z; a; b]
  | InvoiceReadiness z => (strs ["invoices"; "readiness"] ++ [part_or "all" z])%list
  | InvoiceReadinessList z => (strs ["invoices"; "readiness-list"] ++ [part_or "all" z])%list
  | InvoiceAttention z => (strs ["invoices"; "attention"] ++ [part_or "all" z])%list
  | InvoiceAnnualReport z y => (strs ["invoices"; "annual-report"; z] ++ [number y])%list
  end.

Definition admin_key (q : admin_query) : key :=
  match q with
  | AdminEmailTemplate k => strs ["admin"; "email-template"; k]
  | AdminInvoicePdfTemplate => strs ["admin"; "pdf-template"; "invoice"]
  | AdminContractPdfTemplate => strs ["admin"; "pdf-template"; "contract"]
  | AdminAnnualStatementPdfTemplate => strs ["admin"; "pdf-template"; "annual-statement"]
  | AdminCreditNotePdfTemplate => strs ["admin"; "pdf-template"; "credit-note"]
  | AdminAuditEvents f => (strs ["admin"; "audit-events"] ++ [JObj (default [] f)])%list
  | AdminAuditEvent e => strs ["admin"; "audit-event"; e]
  | AdminAuditFilterOptions => strs ["admin"; "audit-events"; "filter-options"]
  end.

Definition bucket_text (b : chart_bucket) : string := match b with BucketDay => "day" | BucketHour => "hour" | BucketMonth => "month" end.

Definition supplementaryZevEligibleAll : key := strs ["metering"; "supplementary-zev-eligible"].
Definition metering_key (q : metering_query) : key :=
  match q with
  | MeterPoints z => (strs ["metering"; "points"] ++ [part_or "all" z])%list
  | MeterPointAssignments m => (strs ["metering"; "point-assignments"] ++ [part_or "all" m])%list
  | MeterImportLogs => strs ["metering"; "import-logs"]
  | MeterChartData m a b k => strs ["metering"; "chart-data"; m; a; b; bucket_text k]
  | MeterRawData m a b => strs ["metering"; "raw-data"; m; a; b]
  | MeterRawDay m d => strs ["metering"; "raw-day"; m; d]
  | MeterHeldReadings m a b i p => (strs ["metering"; "held-readings"; m; a; b; i] ++ [number p])%list
  | MeterDashboardSummary p => (strs ["metering"; "dashboard-summary"] ++ [JObj p])%list
  | MeterQualityStatus a b z m => (strs ["metering"; "quality-status"; a; b] ++ [part_or "all" z; part_or "all" m])%list
  | MeterSupplementarySources => strs ["metering"; "supplementary-sources"]
  | MeterSupplementaryEligible => strs ["metering"; "supplementary-eligible"]
  | MeterSupplementaryZevEligible z => (supplementaryZevEligibleAll ++ strs [z])%list
  | MeterSupplementaryReconciliation s => strs ["metering"; "supplementary-reconciliation"; s]
  | MeterHourlyProfile a b z p => (strs ["metering"; "hourly-profile"; a; b] ++ [part_or "all" z; part_or "all" p])%list
  end.

Definition live_all : key := strs ["live"].
Definition live_key (q : live_query) : key :=
  match q with
  | LiveEnabled => strs ["live"; "enabled"]
  | LiveSnapshotOf z => strs ["live"; "snapshot"; z]
  | LiveCurveOf z d p => strs ["live"; "curve"; z; d; p]
  | LiveForecast z => strs ["live"; "forecast"; z]
  | LiveOwnSeries z p a b k => strs ["live"; "own-series"; z; p; a; b; k]
  end.

Definition key_of (q : query) : key :=
  match q with
  | QUnreadCount => strs ["notifications"; "unread-count"]
  | QNotifications => strs ["notifications"; "list"]
  | QAuth q => auth_key q
  | QZev q => zev_key q
  | QTariffs q => tariff_key q
  | QCharges q => charge_key q
  | QFeasibility => strs ["feasibility"; "enabled"]
  | QBackups q => backup_key q
  | QInbox s f => (strs ["inbox"; "list"; inbox_text s] ++ [JObj f])%list
  | QInvoices q => invoice_key q
  | QAdmin q => admin_key q
  | QMetering q => metering_key q
  | QLive q => live_key q
  end.

(** ** Invalidations *)

(** The prefixes an operation invalidates, and the queries they reach. *)
Definition reaches (prefixes : list key) (q : query) : Prop := ∃ p, p ∈ prefixes ∧ p `prefix_of` key_of q.

Definition invalidateReadingQueries : list key := [strs ["metering"]; strs ["invoices"]].

Definition invalidateSourceQueries : list key :=
  [live_all; metering_key MeterSupplementarySources; metering_key MeterSupplementaryEligible; supplementaryZevEligibleAll;
   strs ["metering"; "dashboard-summary"]; strs ["metering"; "points"]].

Definition invalidateTariffQueries (selectedZevId : option string) : list key :=
  [tariff_key (TariffSeries (if truthy_str selectedZevId then selectedZevId else None)); tariff_key TariffDynamicSources;
   strs ["tariffs"; "progression"]].

(** [handleInvoiceChanged] of the invoice page, besides the entry it writes itself. *)
Definition handleInvoiceChanged : list key :=
  [invoice_lists; strs ["invoices"; "period-overview"]; invoice_key InvoicesMine; invoice_key InvoiceCredits;
   strs ["invoices"; "readiness"]; strs ["invoices"; "readiness-list"]; strs ["invoices"; "attention"]].

(** [afterChange] of the parties of a community. *)
Definition parties_afterChange (zevId : string) : list key :=
  [strs ["zev"; "parties"; zevId]; strs ["zev"; "partyRoles"; zevId]; strs ["zev"; "access"; zevId]; zev_key ZevList; strs ["zev"; "participants"]].

(** [invalidate] of the charges of a period. *)
Definition charges_invalidate : list key := [charge_lists; strs ["invoices"]].

(** ** No two queries share an entry *)

(** Two queries ask the same when their arguments agree once the defaults are filled in. *)
Definition given (d : string) (v : option string) : option string := Some (default d v).

Definition canon (q : query) : query :=
  match q with
  | QAuth (AuthAllCredentials u k s) => QAuth (AuthAllCredentials u (given "" k) (given "" s))
  | QAuth (AuthAllApiKeys u s) => QAuth (AuthAllApiKeys u (given "" s))
  | QZev (ZevParticipants z) => QZev (ZevParticipants (given "all" z))
  | QTariffs (TariffSeries z) => QTariffs (TariffSeries (given "all" z))
  | QTariffs (TariffProgression z e a b) => QTariffs (TariffProgression z e (given "" a) (given "" b))
  | QCharges (ChargeList z a b) => QCharges (ChargeList (given "all" z) a b)
  | QInvoices (InvoiceList z s) => QInvoices (InvoiceList (given "all" z) (given "all" s))
  | QInvoices (InvoiceReadiness z) => QInvoices (InvoiceReadiness (given "all" z))
  | QInvoices (InvoiceReadinessList z) => QInvoices (InvoiceReadinessList (given "all" z))
  | QInvoices (InvoiceAttention z) => QInvoices (InvoiceAttention (given "all" z))
  | QAdmin (AdminAuditEvents f) => QAdmin (AdminAuditEvents (Some (default [] f)))
  | QMetering (MeterPoints z) => QMetering (MeterPoints (given "all" z))
  | QMetering (MeterPointAssignments m) => QMetering (MeterPointAssignments (given "all" m))
  | QMetering (MeterQualityStatus a b z m) => QMetering (MeterQualityStatus a b (given "all" z) (given "all" m))
  | QMetering (MeterHourlyProfile a b z p) => QMetering (MeterHourlyProfile a b (given "all" z) (given "all" p))
  | _ => q
  end.

(** The numbers of a key are ids, pages and years. *)
Definition small (z : Z) : Prop := (0 <= z < 2 ^ 51)%Z.
Definition numbers_small (q : query) : Prop :=
  match q with
  | QAuth (AuthAllCredentials (Some u) _ _) | QAuth (AuthAllApiKeys (Some u) _) => small u
  | QInvoices (InvoiceAnnualReport _ y) => small y
  | QMetering (MeterHeldReadings _ _ _ _ p) => small p
  | _ => True
  end.

Lemma number_inj a b : small a → small b → number a = number b → a = b.
Proof. intros Ha Hb [= E]. by apply of_Z_inj. Qed.

Lemma user_part_inj a b :
  match a with Some z => small z | None => True end → match b with Some z => small z | None => True end → user_part a = user_part b → a = b.
Proof. destruct a, b; cbn [user_part]; intros Ha Hb E; [f_equal; by apply number_inj|done|done|done]. Qed.

Lemma part_or_null_inj a b : part_or_null a = part_or_null b → a = b.
Proof. by destruct a, b; intros [=]; subst. Qed.

(** Every case pairs two constructors: either a constant part differs, or the variable parts
    give the arguments. *)
Ltac key_cases :=
  cbn; intros E; try discriminate E; try reflexivity;
  injection E; intros; subst; unfold given; try congruence.

Lemma auth_keys_distinct a b : numbers_small (QAuth a) → numbers_small (QAuth b) → auth_key a = auth_key b → canon (QAuth a) = canon (QAuth b).
Proof.
  intros Ha Hb. destruct a, b; cbn; intros E; try discriminate E; try reflexivity.
  - injection E as E1 E2 E3. apply user_part_inj in E1 as ->; [|exact Ha|exact Hb]. unfold given. congruence.
  - injection E as E1 E2. apply user_part_inj in E1 as ->; [|exact Ha|exact Hb]. unfold given. congruence.
Qed.

Lemma zev_keys_distinct a b : zev_key a = zev_key b → canon (QZev a) = canon (QZev b).
Proof. destruct a, b; key_cases. Qed.

Lemma tariff_keys_distinct a b : tariff_key a = tariff_key b → canon (QTariffs a) = canon (QTariffs b).
Proof. destruct a, b; key_cases. Qed.

Lemma charge_keys_distinct a b : charge_key a = charge_key b → canon (QCharges a) = canon (QCharges b).
Proof.
  destruct a, b; cbn; intros E; try discriminate E; [|by injection E as ->].
  injection E as E1 E2%part_or_null_inj E3%part_or_null_inj. unfold given. congruence.
Qed.

Lemma backup_keys_distinct a b : backup_key a = backup_key b → canon (QBackups a) = canon (QBackups b).
Proof. destruct a, b; key_cases. Qed.

Lemma invoice_keys_distinct a b :
  numbers_small (QInvoices a) → numbers_small (QInvoices b) → invoice_key a = invoice_key b → canon (QInvoices a) = canon (QInvoices b).
Proof.
  intros Ha Hb. destruct a, b; try solve [key_cases]. cbn. intros E. injection E as -> E. do 2 f_equal. apply of_Z_inj; [exact Ha|exact Hb|exact E].
Qed.

Lemma admin_keys_distinct a b : admin_key a = admin_key b → canon (QAdmin a) = canon (QAdmin b).
Proof. destruct a, b; key_cases. Qed.

Lemma bucket_text_inj a b : bucket_text a = bucket_text b → a = b.
Proof. by destruct a, b. Qed.

Lemma metering_keys_distinct a b :
  numbers_small (QMetering a) → numbers_small (QMetering b) → metering_key a = metering_key b → canon (QMetering a) = canon (QMetering b).
Proof.
  intros Ha Hb. destruct a, b; try solve [key_cases].
  - cbn. intros E. injection E as -> -> -> E. by apply bucket_text_inj in E as ->.
  - cbn. intros E. injection E as -> -> -> -> E. do 2 f_equal. apply of_Z_inj; [exact Ha|exact Hb|exact E].
Qed.

Lemma live_keys_distinct a b : live_key a = live_key b → canon (QLive a) = canon (QLive b).
Proof. destruct a, b; key_cases. Qed.

(** The first part of a key names its section. *)
Definition section_of (q : query) : string :=
  match q with
  | QUnreadCount | QNotifications => "notifications" | QAuth _ => "auth" | QZev _ => "zev" | QTariffs _ => "tariffs" | QCharges _ => "charges"
  | QFeasibility => "feasibility" | QBackups _ => "backups" | QInbox _ _ => "inbox" | QInvoices _ => "invoices" | QAdmin _ => "admin"
  | QMetering _ => "metering" | QLive _ => "live"
  end.

Lemma key_section q : head (key_of q) = Some (JStr (section_of q)).
Proof. by destruct q as [| |q|q|q|q| |q| |q|q|q|q]; try done; destruct q. Qed.

(** C39. No two queries of the app share an entry of the cache, or, when one is asked as the
    other, differ only in defaults that are written out in one of them. *)
Theorem query_keys_distinct p q :
  numbers_small p → numbers_small q → (key_of p = key_of q → canon p = canon q) ∧ key_of (canon p) = key_of p.
Proof.
  intros Hp Hq. split.
  - intros E. pose proof (key_section p) as Sp. pose proof (key_section q) as Sq. rewrite E, Sq in Sp.
    destruct p as [| |a|a|a|a| |a|a f|a|a|a|a], q as [| |b|b|b|b| |b|b g|b|b|b|b]; try discriminate Sp; try discriminate E; try reflexivity.
    + by apply auth_keys_distinct.
    + by apply zev_keys_distinct.
    + by apply tariff_keys_distinct.
    + by apply charge_keys_distinct.
    + by apply backup_keys_distinct.
    + destruct a, b; cbn in E; try discriminate E; by injection E as ->.
    + by apply invoice_keys_distinct.
    + by apply admin_keys_distinct.
    + by apply metering_keys_distinct.
    + by apply live_keys_distinct.
  - by destruct p as [| |a|a|a|a| |a|a f|a|a|a|a]; try done; destruct a.
Qed.

Lemma query_keys_distinct_witness :
  let p := QAuth (AuthAllApiKeys (Some 7%Z) None) in let q := QAuth (AuthAllApiKeys (Some 7%Z) (Some "")) in
  key_of p = key_of q ∧ canon p = canon q.
Proof.
  intros p q. assert (key_of p = key_of q) as E by reflexivity. split; [exact E|].
  apply (proj1 (query_keys_distinct p q ltac:(unfold numbers_small, small; cbn; lia) ltac:(unfold numbers_small, small; cbn; lia)) E).
Defined.

(** ** What an invalidation reaches *)

Lemma reaches_section r q : strs [r] `prefix_of` key_of q ↔ section_of q = r.
Proof.
  pose proof (key_section q) as S. destruct (key_of q) as [|x l]; [done|]. injection S as ->. split.
  - intros H. apply prefix_cons_inv_1 in H. by injection H.
  - intros <-. exists l. done.
Qed.

Lemma reaches_cons p ps q : reaches (p :: ps) q ↔ p `prefix_of` key_of q ∨ reaches ps q.
Proof.
  unfold reaches. split.
  - intros (r & [-> |Hr]%elem_of_cons & H); [by left|right; by exists r].
  - intros [H|(r & Hr & H)]; [exists p|exists r]; (split; [|done]); [by left|by right].
Qed.

Lemma reaches_nil q : reaches [] q ↔ False.
Proof. split; [|done]. by intros (r & Hr%elem_of_nil & _). Qed.

(** A change of readings refreshes the metering and the billing queries and nothing else. *)
Lemma reading_queries_exact q : reaches invalidateReadingQueries q ↔ section_of q = "metering" ∨ section_of q = "invoices".
Proof. unfold invalidateReadingQueries. rewrite !reaches_cons, reaches_nil, !reaches_section. tauto. Qed.

Fixpoint starts (ps : list string) (k : key) : bool :=
  match ps, k with
  | [], _ => true
  | s :: ps, JStr x :: k => String.eqb s x && starts ps k
  | _, _ => false
  end.

Lemma starts_prefix ps : ∀ k, starts ps k = true ↔ strs ps `prefix_of` k.
Proof.
  induction ps as [|s ps IH]; intros k; [split; [intros _; apply prefix_nil|done]|].
  destruct k as [|x k]; [split; [done|by intros H%prefix_nil_inv]|]. assert (strs (s :: ps) = JStr s :: strs ps) as -> by done.
  split.
  - destruct x; try done. cbn. intros [->%String.eqb_eq H]%andb_true_iff. by apply prefix_cons, IH.
  - intros H. pose proof (prefix_cons_inv_1 _ _ _ _ H) as <-. apply prefix_cons_inv_2, IH in H. cbn. by rewrite String.eqb_refl, H.
Qed.

Lemma reaches_starts pss q : reaches (map strs pss) q ↔ existsb (λ ps, starts ps (key_of q)) pss = true.
Proof.
  induction pss as [|ps pss IH]; [by rewrite reaches_nil|]. cbn [map existsb]. by rewrite reaches_cons, IH, <- starts_prefix, orb_true_iff.
Qed.

(** An invalidation stays within the sections of what it is about. *)
Lemma invalidations_within q z zid :
  (reaches invalidateSourceQueries q → section_of q = "live" ∨ section_of q = "metering") ∧
  (reaches (invalidateTariffQueries z) q → section_of q = "tariffs") ∧
  (reaches handleInvoiceChanged q → section_of q = "invoices") ∧
  (reaches (parties_afterChange zid) q → section_of q = "zev") ∧
  (reaches charges_invalidate q → section_of q = "charges" ∨ section_of q = "invoices").
Proof.
  assert (∀ ps, reaches ps q → ∃ p, p ∈ ps ∧ (head p = head (key_of q) ∨ p = [])) as H.
  { intros ps (p & Hp & [k E]). exists p. split; [done|]. destruct p as [|x p]; [by right|left]. by rewrite E. }
  rewrite key_section in H. split_and!; intros (p & Hp & Hh)%H; unfold invalidateTariffQueries, tariff_key in Hp;
    repeat (apply elem_of_cons in Hp as [->|Hp]; [destruct Hh as [[= <-]|Hh]; [auto|done]|]); by apply elem_of_nil in Hp.
Qed.
