(* ===== verification/ApiErrors.v ===== *)
(** Error messages of API responses (frontend/src/lib/api/errors.ts).

    [flattenErrorMessages] is compared with a reference: the messages of the
    response in document order, each with the dotted path to it. *)

From S2P Require Import Prelude JsString JsNumber Json.
Local Open Scope string_scope.

(** A value caught by a client: an error of the HTTP client carries its own
    message and, when a response came, that response's data; its fields are
    those the source reads. *)
Inductive caught :=
  | AxiosError (message : string) (data : option json)
  | OtherError.

(** [prefix ? `${prefix}: ${data}` : data]. *)
Definition with_prefix (prefix text : string) : string :=
  if nonempty prefix then prefix ++ ": " ++ text else text.

(** [prefix ? `${prefix}.${key}` : key]. *)
Definition nextPrefix (prefix key : string) : string :=
  if nonempty prefix then prefix ++ "." ++ key else key.

Fixpoint flattenErrorMessages (data : json) (prefix : string) {struct data} : list string :=
  match data with
  | JNull => []
  | JStr s => [with_prefix prefix s]
  | JArr l => flat_map (λ entry, flattenErrorMessages entry prefix) l
  | JObj o => flat_map (λ kv, flattenErrorMessages kv.2 (nextPrefix prefix kv.1)) o
  | _ => [with_prefix prefix (js_text data)]
  end.

(** [text.replace(/^non_field_errors\.?/i, 'Validation')]. *)
Definition name_validation (text : string) : string :=
  let n := String.length "non_field_errors" in
  if String.eqb (to_lower (slice text 0 n)) "non_field_errors" then
    let rest := slice_from text n in
    "Validation" ++ (if starts_with "." rest then slice_from rest 1 else rest)
  else text.

(** [text.replace(/\./g, ' → ')]. *)
Definition arrow_dots (text : string) : string := join " → " (split_on "." text).

(** A string property that is not blank. *)
Definition own_message (key : string) (o : list (string * json)) : option string :=
  match jget key o with
  | Some (JStr s) => if nonempty (trim s) then Some s else None
  | _ => None
  end.

Definition formatResponseData (responseData : json) (fallbackMessage : string) : string :=
  let flattened := flattenErrorMessages responseData "" in
  let cleaned := join " | " (map arrow_dots (map name_validation flattened)) in
  let listed := match flattened with [] => fallbackMessage | _ => cleaned end in
  match responseData with
  | JStr s => s
  | JObj o =>
      match own_message "detail" o with
      | Some detail => detail
      | None => match own_message "error" o with Some message => message | None => listed end
      end
  | _ => listed
  end.

Definition formatApiError (error : caught) (fallbackMessage : string) : string :=
  match error with
  | OtherError => fallbackMessage
  | AxiosError message data =>
      match data with
      | Some responseData =>
          if jtruthy responseData then formatResponseData responseData fallbackMessage
          else if nonempty message then message else fallbackMessage
      | None => if nonempty message then message else fallbackMessage
      end
  end.

Definition apiErrorPayload (error : caught) : option json :=
  match error with
  | OtherError => None
  | AxiosError _ data =>
      match data with
      | Some j => if is_object j then Some j else None
      | None => None
      end
  end.

Definition ItemFieldErrors : Type := list (string * list string).

(** [(Array.isArray(messages) ? messages : [messages]).map(String)]. *)
Definition messages_of (messages : json) : list string :=
  map js_text (match messages with JArr l => l | _ => [messages] end).

(** [Object.entries(entry)] with its messages as texts. *)
Definition item_errors (entry : json) : ItemFieldErrors :=
  match entry with
  | JObj o => map (λ kv, (kv.1, messages_of kv.2)) o
  | _ => []
  end.

(** [{ [key]: indexed, ...rest } = payload]. *)
Definition without_key (key : string) (j : json) : json :=
  match j with JObj o => JObj (omap_delete key o) | _ => j end.

Definition splitIndexedErrors (error : caught) (key : string)
    : option (list ItemFieldErrors) * option json :=
  match apiErrorPayload error with
  | None => (None, None)
  | Some payload =>
      match jprop key payload with
      | Some (JArr indexed) =>
          if forallb is_plain_object indexed
          then (Some (map item_errors indexed), Some (without_key key payload))
          else (None, Some payload)
      | _ => (None, Some payload)
      end
  end.

Definition formatApiErrorRest (rest : option json) (fallbackMessage : string) : string :=
  match rest with
  | Some j => if has_keys j then formatResponseData j fallbackMessage else fallbackMessage
  | None => fallbackMessage
  end.

Record DynamicPriceGapPayload := { gap_tariff_name : string; gap_missing_at : string }.

Definition dynamicPriceGapPayload (error : caught) : option DynamicPriceGapPayload :=
  match apiErrorPayload error with
  | None => None
  | Some payload =>
      match jprop "code" payload, jprop "tariff_name" payload, jprop "missing_at" payload with
      | Some (JStr code), Some (JStr name), Some (JStr at_) =>
          if String.eqb code "dynamic_price_gap"
          then Some {| gap_tariff_name := name; gap_missing_at := at_ |} else None
      | _, _, _ => None
      end
  end.

(** ** The reference: every message with the path of property names to it *)

Fixpoint leaves (data : json) : list (list string * string) :=
  match data with
  | JNull => []
  | JArr l => flat_map leaves l
  | JObj o => flat_map (λ kv, map (λ leaf, (kv.1 :: leaf.1, leaf.2)) (leaves kv.2)) o
  | _ => [([], js_text data)]
  end.

Definition show_leaf (leaf : list string * string) : string := with_prefix (join "." leaf.1) leaf.2.

(** No property of the response has the empty name. *)
Fixpoint named (data : json) : bool :=
  match data with
  | JArr l => forallb named l
  | JObj o => forallb (λ kv, nonempty kv.1 && named kv.2) o
  | _ => true
  end.

Lemma nextPrefix_join path key :
  Forall (λ k, nonempty k = true) path → nextPrefix (join "." path) key = join "." (path ++ [key])%list.
Proof.
  intros Hp. destruct path as [|k path]; [done|]. inversion Hp as [|? ? Hk _]; subst.
  assert (nonempty (join "." (k :: path)) = true) as E.
  { destruct path; simpl; [done|]. by destruct k. }
  unfold nextPrefix. rewrite E. clear Hp Hk E. revert k.
  induction path as [|k' path IH]; intros k; [done|].
  change (join "." (k :: k' :: path)) with (k ++ "." ++ join "." (k' :: path)).
  change (join "." ((k :: k' :: path) ++ [key])%list) with (k ++ "." ++ join "." ((k' :: path) ++ [key])%list).
  rewrite <- IH, !str_app_assoc. done.
Qed.

Lemma flat_map_Forall {A B} (f g : A → list B) l : Forall (λ x, f x = g x) l → flat_map f l = flat_map g l.
Proof. induction 1 as [|x l Hx _ IH]; simpl; [done|]. by rewrite Hx, IH. Qed.

Lemma map_flat_map {A B C} (h : B → C) (f : A → list B) l : map h (flat_map f l) = flat_map (λ x, map h (f x)) l.
Proof. induction l; simpl; [done|]. by rewrite map_app, IHl. Qed.

Definition under (path : list string) (leaf : list string * string) : list string * string := ((path ++ leaf.1)%list, leaf.2).

Lemma flatten_under data path :
  named data = true → Forall (λ k, nonempty k = true) path →
  flattenErrorMessages data (join "." path) = map (show_leaf ∘ under path) (leaves data).
Proof.
  revert path. induction data as [| | | |l IH|o IH] using json_ind; intros path Hn Hp; simpl in Hn |- *; try done;
    try (unfold compose, show_leaf, under; simpl; by rewrite app_nil_r).
  - rewrite map_flat_map. apply flat_map_Forall. rewrite Forall_forall in IH |- *. intros x Hx.
    apply IH; [done| |done]. rewrite forallb_elem in Hn. auto.
  - rewrite map_flat_map. apply flat_map_Forall. rewrite Forall_forall in IH |- *. intros [key v] Hx. simpl.
    rewrite forallb_elem in Hn. apply Hn in Hx as Hk. simpl in Hk. bool_facts.
    rewrite nextPrefix_join by done. specialize (IH _ Hx). simpl in IH. rewrite IH; [|done|].
    + rewrite map_map. apply map_ext. intros [p t]. unfold compose, show_leaf, under. simpl. by rewrite <- app_assoc.
    + rewrite Forall_app. split; [done|]. by constructor.
Qed.

(** The flattened messages are the leaves of the response in document order,
    each after the dotted path of the property names above it; list positions
    leave no trace. *)
Theorem flattenErrorMessages_leaves data :
  named data = true → flattenErrorMessages data "" = map show_leaf (leaves data).
Proof.
  intros Hn. change "" with (join "." []). rewrite flatten_under by (done || constructor).
  apply map_ext. by intros [p t].
Qed.

Definition sample_errors : json :=
  JObj [("name", JArr [JStr "Required"]); ("periods", JArr [JObj []; JObj [("price", JArr [JNum (of_Z 4); JNull])]])].

Lemma flattenErrorMessages_leaves_witness :
  named sample_errors = true
  ∧ flattenErrorMessages sample_errors "" = map show_leaf (leaves sample_errors)
  ∧ map show_leaf (leaves sample_errors) = ["name: Required"; "periods.price: 4"].
Proof.
  refine (conj _ (conj (flattenErrorMessages_leaves sample_errors _) _)); vm_compute; reflexivity.
Defined.

(** The arrows that separate the names of a path also replace the full stops
    inside the messages of the server. *)
Lemma formatApiError_arrow_in_message :
  formatApiError (AxiosError "" (Some (JObj [("name", JArr [JStr "This field is required."])]))) "Failed"
  = "name: This field is required → ".
Proof. vm_compute. reflexivity. Qed.

(** Splitting keeps everything: the items are those of the list under the key
    and the rest is the payload without the key, unless the key holds no list
    of objects, in which case the rest is the whole payload. *)
Lemma splitIndexedErrors_cases error key items rest :
  splitIndexedErrors error key = (items, rest) →
  match items with
  | None => rest = apiErrorPayload error
  | Some its => ∃ payload l, apiErrorPayload error = Some payload ∧ jprop key payload = Some (JArr l)
      ∧ rest = Some (without_key key payload) ∧ its = map item_errors l
      ∧ ∀ k, k ≠ key → jprop k (without_key key payload) = jprop k payload
  end.
Proof.
  unfold splitIndexedErrors. destruct (apiErrorPayload error) as [payload|] eqn:E; [|by intros [= <- <-]].
  destruct (jprop key payload) as [[| | | |l|]|] eqn:Hg; try (by intros [= <- <-]).
  destruct (forallb is_plain_object l); intros [= <- <-]; [|done].
  exists payload, l. split_and!; [done..|]. intros k Hk. destruct payload as [| | | | |o]; try done. simpl.
  unfold jget, omap_delete. clear -Hk. induction o as [|[k' v] o IH]; [done|].
  rewrite filter_cons. cbn [fst]. destruct (decide (k' ≠ key)) as [Hne|Heq]; simpl.
  - by rewrite IH.
  - apply dec_stable in Heq as ->. by rewrite bool_decide_false.
Qed.
