(* ===== verification/DateFormats.v ===== *)
(** Display formats of dates (frontend/src/lib/appSettings.tsx).

    A bare [YYYY-MM-DD] is a civil date shown as written; any other text is an
    instant shown in the business zone.  Month names come from [Intl] and are
    the parameter [intl_month]. *)

From S2P Require Import Prelude JsString JsDate Dates.
Local Open Scope string_scope.

Record AppSettings := {
  date_format_short : string;
  date_format_long : string;
  date_time_format : string;
  mfa_required : option bool;
  mfa_grace_period_days : option Z;
  analytics_min_participants_for_aggregate : option Z;
  analytics_min_participants_default : option Z;
  analytics_min_participants_floor : option Z;
  settings_updated_at : string;
}.

Definition DEFAULT_APP_SETTINGS : AppSettings :=
  {| date_format_short := "dd.MM.yyyy"; date_format_long := "d MMMM yyyy";
     date_time_format := "dd.MM.yyyy HH:mm"; mfa_required := None; mfa_grace_period_days := None;
     analytics_min_participants_for_aggregate := None; analytics_min_participants_default := None;
     analytics_min_participants_floor := None; settings_updated_at := "" |}.

Definition SHORT_DATE_FORMAT_OPTIONS : list (string * string) :=
  [("dd.MM.yyyy", "DD.MM.YYYY"); ("dd/MM/yyyy", "DD/MM/YYYY"); ("MM/dd/yyyy", "MM/DD/YYYY"); ("yyyy-MM-dd", "YYYY-MM-DD")].
Definition LONG_DATE_FORMAT_OPTIONS : list (string * string) :=
  [("d MMMM yyyy", "D MMMM YYYY"); ("d. MMMM yyyy", "D. MMMM YYYY"); ("MMMM d, yyyy", "MMMM D, YYYY"); ("yyyy-MM-dd", "YYYY-MM-DD")].
Definition DATE_TIME_FORMAT_OPTIONS : list (string * string) :=
  [("dd.MM.yyyy HH:mm", "DD.MM.YYYY HH:mm"); ("dd/MM/yyyy HH:mm", "DD/MM/YYYY HH:mm");
   ("MM/dd/yyyy HH:mm", "MM/DD/YYYY HH:mm"); ("yyyy-MM-dd HH:mm", "YYYY-MM-DD HH:mm")].

(** [date] with [dateOnly]: a civil day (its day number) or an instant (milliseconds). *)
Inductive ParsedDateValue := CivilDate (day : option Z) | Instant (ms : Z).

Definition parseDateValue (value : string) : option ParsedDateValue :=
  if String.eqb value "" then None
  else match iso_fields value with
       | Some (y, m, d) => Some (CivilDate (new_date y (m - 1) d))
       | None => Instant <$> date_parse value
       end.

(** The display fields of the source; the short month name has no reader. *)
Record DateParts := {
  dp_day : string; dayPadded : string; hoursPadded : string; minutesPadded : string;
  monthPadded : string; monthLong : string; dp_year : string;
}.

Section Formats.
Context `{Zone}.

(** [Intl.DateTimeFormat(undefined, { month: 'long', timeZone })]: the name of
    a month (1 to 12) of the date in that zone, in the platform's language. *)
Variable intl_month : option Z → string.

Definition formatDateParts (p : ParsedDateValue) : DateParts :=
  let parts year month day hours minutes :=
    {| dp_day := show_field day; dayPadded := show_field2 day; hoursPadded := pad2 hours; minutesPadded := pad2 minutes;
       monthPadded := show_field2 month; monthLong := intl_month month; dp_year := show_field year |} in
  match p with
  | CivilDate date => parts (get_year date) (Z.add 1 <$> get_month date) (get_date date) 0%Z 0%Z
  | Instant ms =>
      let z := zonedParts ms in
      parts (Some (zp_year z)) (Some (zp_month z)) (Some (zp_day z)) (zp_hours z) (zp_minutes z)
  end.

(** The [switch] on the pattern. *)
Definition show_pattern (parts : DateParts) (value pattern : string) : string :=
  if String.eqb pattern "dd.MM.yyyy" then dayPadded parts ++ "." ++ monthPadded parts ++ "." ++ dp_year parts
  else if String.eqb pattern "dd/MM/yyyy" then dayPadded parts ++ "/" ++ monthPadded parts ++ "/" ++ dp_year parts
  else if String.eqb pattern "MM/dd/yyyy" then monthPadded parts ++ "/" ++ dayPadded parts ++ "/" ++ dp_year parts
  else if String.eqb pattern "yyyy-MM-dd" then dp_year parts ++ "-" ++ monthPadded parts ++ "-" ++ dayPadded parts
  else if String.eqb pattern "d MMMM yyyy" then dp_day parts ++ " " ++ monthLong parts ++ " " ++ dp_year parts
  else if String.eqb pattern "d. MMMM yyyy" then dp_day parts ++ ". " ++ monthLong parts ++ " " ++ dp_year parts
  else if String.eqb pattern "MMMM d, yyyy" then monthLong parts ++ " " ++ dp_day parts ++ ", " ++ dp_year parts
  else value.

Definition formatDateByPattern (value : option string) (pattern : string) : string :=
  match value with
  | None => "—"
  | Some value =>
      if String.eqb value "" then "—"
      else match parseDateValue value with
           | None => value
           | Some parsed => show_pattern (formatDateParts parsed) value pattern
           end
  end.

Definition formatShortDate (value : option string) (settings : AppSettings) : string :=
  formatDateByPattern value (date_format_short settings).

(** The [switch] on the date and time pattern. *)
Definition show_date_time (parts : DateParts) (value pattern : string) : string :=
  let clock := hoursPadded parts ++ ":" ++ minutesPadded parts in
  if String.eqb pattern "dd.MM.yyyy HH:mm" then dayPadded parts ++ "." ++ monthPadded parts ++ "." ++ dp_year parts ++ " " ++ clock
  else if String.eqb pattern "dd/MM/yyyy HH:mm" then dayPadded parts ++ "/" ++ monthPadded parts ++ "/" ++ dp_year parts ++ " " ++ clock
  else if String.eqb pattern "MM/dd/yyyy HH:mm" then monthPadded parts ++ "/" ++ dayPadded parts ++ "/" ++ dp_year parts ++ " " ++ clock
  else if String.eqb pattern "yyyy-MM-dd HH:mm" then dp_year parts ++ "-" ++ monthPadded parts ++ "-" ++ dayPadded parts ++ " " ++ clock
  else value.

(** [settings.date_time_format.split(' ')[0]]. *)
Definition date_pattern (settings : AppSettings) : string := default "" (head (split_on " " (date_time_format settings))).

Definition formatDateTime (value : option string) (settings : AppSettings) : string :=
  match value with
  | None => "—"
  | Some value =>
      if String.eqb value "" then "—"
      else match parseDateValue value with
           | None => value
           | Some parsed =>
               if negb (includes "T" value) && negb (includes " " value)
               then formatDateByPattern (Some value) (date_pattern settings)
               else show_date_time (formatDateParts parsed) value (date_time_format settings)
           end
  end.

Definition toDayJsDateFormat (pattern : string) : string :=
  if String.eqb pattern "dd.MM.yyyy" then "DD.MM.YYYY"
  else if String.eqb pattern "dd/MM/yyyy" then "DD/MM/YYYY"
  else if String.eqb pattern "MM/dd/yyyy" then "MM/DD/YYYY"
  else if String.eqb pattern "yyyy-MM-dd" then "YYYY-MM-DD"
  else "DD.MM.YYYY".
End Formats.

(** ** A civil date is shown as written *)

Lemma iso_fields_iso n :
  iso_range n → iso_fields (iso n) = Some (cyear (civil_of_day n), cmonth (civil_of_day n) + 1, cday (civil_of_day n))%Z.
Proof.
  intros H. pose proof (iso_day_of_range n H) as Hd. unfold iso. rewrite iso_of_civil_fix by done.
  destruct Hd as [[Hm Hd] Hy]. unfold year4 in Hy. pose proof (days_in_month_range (cyear (civil_of_day n)) _ Hm).
  apply iso_fields_fix; lia.
Qed.

Lemma parseDateValue_iso n : iso_range n → parseDateValue (iso n) = Some (CivilDate (Some n)).
Proof.
  intros H. unfold parseDateValue. rewrite iso_nonempty, iso_fields_iso by done. do 2 f_equal.
  replace (cmonth (civil_of_day n) + 1 - 1)%Z with (cmonth (civil_of_day n)) by lia.
  pose proof (iso_day_of_range n H) as [Hv Hy]. unfold year4 in Hy.
  unfold new_date. rewrite full_year_id by lia. rewrite <- (day_of_civil_of_day n) at 4.
  rewrite <- clip_day_year4; [reflexivity|done|lia].
Qed.

(** The texts of a date's fields. *)
Definition day_text (n : Z) : string := fix_digits 2 (cday (civil_of_day n)).
Definition month_text (n : Z) : string := fix_digits 2 (cmonth (civil_of_day n) + 1).
Definition year_text (n : Z) : string := fix_digits 4 (cyear (civil_of_day n)).

Lemma iso_texts n : iso_range n → iso n = (year_text n ++ "-" ++ month_text n ++ "-" ++ day_text n)%string.
Proof. intros H%iso_day_of_range. unfold iso. by apply iso_of_civil_fix. Qed.

Lemma field_texts n :
  iso_range n →
  Zstr (cyear (civil_of_day n)) = year_text n ∧ pad2 (cmonth (civil_of_day n) + 1) = month_text n
  ∧ pad2 (cday (civil_of_day n)) = day_text n.
Proof.
  intros [[Hm Hd] Hy]%iso_day_of_range. unfold year4 in Hy.
  pose proof (days_in_month_range (cyear (civil_of_day n)) _ Hm).
  rewrite Zstr_year, !pad2_fix by lia. done.
Qed.

(** Read a numeric pattern back to its ISO text. *)
Definition read_pattern (pattern shown : string) : string :=
  let at_ y m d := slice shown y (y + 4) ++ "-" ++ slice shown m (m + 2) ++ "-" ++ slice shown d (d + 2) in
  if String.eqb pattern "MM/dd/yyyy" then at_ 6 0 3
  else if String.eqb pattern "yyyy-MM-dd" then at_ 0 5 8
  else at_ 6 3 0.

Definition numeric_patterns : list string := map fst SHORT_DATE_FORMAT_OPTIONS.

Section FormatFacts.
Context `{Zone}.
Variable intl_month : option Z → string.

Lemma civil_parts n :
  iso_range n →
  let parts := formatDateParts intl_month (CivilDate (Some n)) in
  dayPadded parts = day_text n ∧ monthPadded parts = month_text n ∧ dp_year parts = year_text n.
Proof.
  intros (Hy & Hm & Hd)%field_texts. unfold formatDateParts. cbn [dayPadded monthPadded dp_year].
  date_fields. unfold show_field, show_field2. rewrite (Z.add_comm 1). auto.
Qed.

(** Every short format of the settings shows a day so that it can be read back:
    no two days look alike, and the ISO format is the text itself. *)
Theorem formatDateByPattern_roundtrip n pattern :
  iso_range n → pattern ∈ numeric_patterns →
  read_pattern pattern (formatDateByPattern intl_month (Some (iso n)) pattern) = iso n.
Proof.
  intros Hn Hp. unfold formatDateByPattern. rewrite iso_nonempty, parseDateValue_iso by done.
  destruct (civil_parts n Hn) as (Ed & Em & Ey). rewrite (iso_texts n Hn).
  unfold numeric_patterns, SHORT_DATE_FORMAT_OPTIONS in Hp. cbn [map fst] in Hp.
  repeat (apply elem_of_cons in Hp as [->|Hp]); [..|by apply elem_of_nil in Hp];
    unfold show_pattern; cbn -[formatDateParts day_text month_text year_text];
    rewrite Ed, Em, Ey; unfold day_text, month_text, year_text; cbn [fix_digits String.append]; reflexivity.
Qed.

Lemma parseDateValue_instant n k :
  iso_range n → (0 <= k < DAY_MS)%Z →
  let value := to_iso_string (n * DAY_MS + k) in
  String.eqb value "" = false ∧ includes "T" value = true
  ∧ parseDateValue value = Some (Instant (n * DAY_MS + k)).
Proof.
  intros Hn Hk value. pose proof (date_parse_to_iso n k Hn Hk) as Hp. fold value in Hp.
  assert (∃ a b c d e f g h i j tail, value = String a (String b (String c (String d (String e (String f
    (String g (String h (String i (String j (String "T" tail)))))))))) ∧ includes "T" value = true) as Hv.
  { unfold value, to_iso_string.
    assert (to_iso_slice (n * DAY_MS + k) = iso n) as ->
      by (rewrite <- (day_of_civil_of_day n) at 1; by apply to_iso_slice_civil, Hk; apply iso_day_of_range).
    rewrite iso_texts by done. unfold year_text, month_text, day_text. cbn [fix_digits String.append].
    do 11 eexists. split; [reflexivity|]. unfold includes.
    destruct (String.index 0 "T" _) eqn:E; [done|]. exfalso.
    apply (String.index_correct3 0 10 "T" _ E); [done|lia|reflexivity]. }
  destruct Hv as (a & b & c & d & e & f & g & h & i & j & tail & Ev & Hi).
  split_and!; [by rewrite Ev|done|]. unfold parseDateValue.
  assert (String.eqb value "" = false) as -> by by rewrite Ev.
  assert (iso_fields value = None) as -> by by rewrite Ev. by rewrite Hp.
Qed.

Lemma instant_parts t :
  iso_range (local_day t) →
  let parts := formatDateParts intl_month (Instant t) in
  dayPadded parts = day_text (local_day t) ∧ monthPadded parts = month_text (local_day t)
  ∧ dp_year parts = year_text (local_day t)
  ∧ hoursPadded parts = pad2 ((t + offset_ms t) mod DAY_MS / HOUR_MS)
  ∧ minutesPadded parts = pad2 ((t + offset_ms t) mod HOUR_MS / 60000).
Proof.
  intros (Hy & Hm & Hd)%field_texts. unfold local_day in *. rewrite <- Hy, <- Hm, <- Hd.
  split_and!; reflexivity.
Qed.

Lemma show_short pattern parts v w :
  pattern ∈ numeric_patterns →
  show_date_time parts v (pattern ++ " HH:mm")
  = (show_pattern parts w pattern ++ " " ++ hoursPadded parts ++ ":" ++ minutesPadded parts)%string.
Proof.
  intros Hp. unfold numeric_patterns, SHORT_DATE_FORMAT_OPTIONS in Hp. cbn [map fst] in Hp.
  repeat (apply elem_of_cons in Hp as [->|Hp]); [..|by apply elem_of_nil in Hp];
    unfold show_date_time, show_pattern; repeat (simpl; rewrite !str_app_assoc); reflexivity.
Qed.

Lemma show_pattern_parts pattern p q w :
  pattern ∈ numeric_patterns →
  dayPadded p = dayPadded q → monthPadded p = monthPadded q → dp_year p = dp_year q →
  show_pattern p w pattern = show_pattern q w pattern.
Proof.
  intros Hp Hd Hm Hy. unfold numeric_patterns, SHORT_DATE_FORMAT_OPTIONS in Hp. cbn [map fst] in Hp.
  repeat (apply elem_of_cons in Hp as [->|Hp]); [..|by apply elem_of_nil in Hp];
    unfold show_pattern; simpl; by rewrite Hd, Hm, Hy.
Qed.

(** An instant is shown as its civil day in the business zone, in the date
    format of the settings, followed by that zone's wall clock. *)
Theorem formatDateTime_business_day n k settings pattern :
  let t := (n * DAY_MS + k)%Z in
  iso_range n → (0 <= k < DAY_MS)%Z → iso_range (local_day t) →
  pattern ∈ numeric_patterns → date_time_format settings = (pattern ++ " HH:mm")%string →
  formatDateTime intl_month (Some (to_iso_string t)) settings
  = (formatDateByPattern intl_month (Some (formatBusinessIsoDate t)) pattern ++ " "
     ++ pad2 ((t + offset_ms t) mod DAY_MS / HOUR_MS) ++ ":" ++ pad2 ((t + offset_ms t) mod HOUR_MS / 60000))%string.
Proof.
  intros t Hn Hk Hl Hp Hs. destruct (parseDateValue_instant n k Hn Hk) as (E1 & E2 & E3). fold t in E1, E2, E3.
  unfold formatDateTime. rewrite E1, E3, E2, Hs. cbn [negb andb]. rewrite (show_short _ _ _ (iso (local_day t))) by done.
  rewrite formatBusinessIsoDate_iso. unfold formatDateByPattern. rewrite iso_nonempty, parseDateValue_iso by done.
  destruct (instant_parts t Hl) as (Ed & Em & Ey & Eh & Emin). destruct (civil_parts _ Hl) as (Fd & Fm & Fy).
  rewrite Eh, Emin. by rewrite (show_pattern_parts _ _ _ _ Hp (eq_trans Ed (eq_sym Fd)) (eq_trans Em (eq_sym Fm)) (eq_trans Ey (eq_sym Fy))).
Qed.
End FormatFacts.

Definition sample_month (m : option Z) : string := show_field m.

Lemma formatDateByPattern_roundtrip_witness :
  iso_range 20454
  ∧ read_pattern "MM/dd/yyyy" (formatDateByPattern (H := zurich) sample_month (Some (iso 20454)) "MM/dd/yyyy") = iso 20454
  ∧ formatDateByPattern (H := zurich) sample_month (Some (iso 20454)) "MM/dd/yyyy" = "01/01/2026".
Proof.
  assert (iso_range 20454) as Hr by (vm_compute; split; discriminate).
  refine (conj Hr (conj (formatDateByPattern_roundtrip (H := zurich) sample_month 20454 "MM/dd/yyyy" Hr _) _)).
  - unfold numeric_patterns. simpl. do 2 right. left.
  - vm_compute. reflexivity.
Defined.

(** New Year in Switzerland falls on the previous UTC day. *)
Lemma formatDateTime_business_day_witness :
  formatDateTime (H := zurich) sample_month (Some (to_iso_string (20453 * DAY_MS + 84600000))) DEFAULT_APP_SETTINGS
  = "01.01.2026 00:30"
  ∧ formatDateTime (H := zurich) sample_month (Some (to_iso_string (20453 * DAY_MS + 84600000))) DEFAULT_APP_SETTINGS
    = formatDateByPattern (H := zurich) sample_month
        (Some (formatBusinessIsoDate (H := zurich) (20453 * DAY_MS + 84600000))) "dd.MM.yyyy" ++ " 00:30".
Proof.
  refine (conj _ (formatDateTime_business_day (H := zurich) sample_month 20453 84600000 DEFAULT_APP_SETTINGS "dd.MM.yyyy"
    _ _ _ _ eq_refl)); try (vm_compute; reflexivity); try (vm_compute; split; congruence).
  unfold numeric_patterns. simpl. left.
Defined.
