(* ===== verification/TariffErrors.v ===== *)
(** Messages of tariff validation errors (frontend/src/features/tariffs/errors.ts).

    The backend sends coded errors beside the legacy messages.  A coded error
    becomes a translated text, prefixed with its field and its price band; an
    unknown code, or one with unusable parameters, keeps the server's message.
    [splitTariffBandErrors] moves the errors of a band's field next to that
    field and leaves the others in the response. *)

From S2P Require Import Prelude JsString JsNumber JsDate Dates Recurrence Json ApiErrors DateFormats.
Local Open Scope string_scope.

Definition tariffErrorKeys : list (string * string) :=
  [("band_time_pair", "bandTimePair"); ("name_required", "nameRequired"); ("use_new_version", "useNewVersion");
   ("date_range", "dateRange"); ("energy_type_required", "energyTypeRequired"); ("category", "category");
   ("remove_bands_for_mode", "removeBandsForMode"); ("dynamic_bands", "dynamicBands");
   ("minimum_dynamic", "minimumDynamic"); ("minimum_feed_in", "minimumFeedIn"); ("source_missing", "sourceMissing");
   ("storage_refund", "storageRefund"); ("bands_energy_only", "bandsEnergyOnly"); ("months_blank", "monthsBlank");
   ("price_required", "priceRequired"); ("percentage_mode_only", "percentageModeOnly");
   ("percentage_required", "percentageRequired"); ("percentage_not_price", "percentageNotPrice");
   ("remove_bands_for_source", "removeBandsForSource"); ("billed_source_change", "billedSourceChange");
   ("billed_delete", "billedDelete"); ("initial_bands", "initialBands"); ("edit_existing_bands", "editExistingBands");
   ("fixed_price_required", "fixedPriceRequired"); ("product_required", "productRequired");
   ("source_identity", "sourceIdentity"); ("source_range", "sourceRange"); ("admin_source", "adminSource");
   ("history_access", "historyAccess"); ("source_busy", "sourceBusy"); ("confirmation_mismatch", "confirmationMismatch");
   ("source_in_use", "sourceInUse"); ("source_protected", "sourceProtected"); ("prices_in_use", "pricesInUse");
   ("fetch_unavailable", "fetchUnavailable"); ("product_selection_required", "productSelectionRequired");
   ("permission", "permission"); ("invalid_url", "invalidUrl"); ("import_url", "importUrl");
   ("download_failed", "downloadFailed"); ("import_json", "importJson"); ("reference_missing", "referenceMissing");
   ("duplicate_date", "duplicateDate"); ("name_exists", "nameExists"); ("overlap", "overlap");
   ("series_identity", "seriesIdentity"); ("source_energy_only", "sourceEnergyOnly");
   ("source_type_mismatch", "sourceTypeMismatch"); ("invalid_weekdays", "weekdays"); ("invalid_months", "months");
   ("technology", "technology"); ("bfe_feed_in", "bfeFeedIn"); ("import_changed", "importChanged");
   ("public_url", "publicUrl"); ("host_unresolved", "hostUnresolved"); ("http_status", "httpStatus");
   ("document_size", "documentSize"); ("history_limit", "historyLimit"); ("invalid_date", "invalidDate");
   ("invalid_time", "invalidTime"); ("invalid_choice", "invalidChoice"); ("does_not_exist", "referenceMissing");
   ("not_found", "referenceMissing"); ("permission_denied", "permission"); ("min_value", "minValue");
   ("max_value", "maxValue"); ("max_digits", "maxDigits"); ("max_decimal_places", "maxDecimals");
   ("max_whole_digits", "maxWholeDigits"); ("max_length", "maxLength"); ("min_length", "minLength")].

Definition fieldKeys : list (string * string) :=
  [("name", "pages.tariffs.form.name"); ("label", "pages.dynamicSources.form.label");
   ("valid_from", "pages.tariffs.form.validFrom"); ("valid_to", "pages.tariffs.form.validTo");
   ("category", "pages.tariffs.form.category"); ("billing_mode", "pages.tariffs.form.billingMode");
   ("energy_type", "pages.tariffs.form.energyType"); ("dynamic_source", "pages.tariffs.form.dynamicSource");
   ("minimum_price_chf_per_kwh", "pages.tariffs.form.minimumPrice");
   ("price_chf_per_kwh", "pages.tariffs.form.pricePerKwh"); ("percentage", "pages.tariffs.form.percentage");
   ("initial_percentage", "pages.tariffs.form.initialPercentage"); ("fixed_price_chf", "pages.tariffs.form.fixedPrice");
   ("period_type", "pages.tariffs.form.periodType"); ("time_from", "pages.tariffs.form.timeFrom");
   ("time_to", "pages.tariffs.form.timeTo"); ("weekdays", "pages.tariffs.form.weekdays");
   ("months", "pages.tariffs.form.months"); ("url", "pages.dynamicSources.form.url");
   ("api_version", "pages.dynamicSources.form.apiVersion"); ("tariff_type", "pages.dynamicSources.form.tariffType");
   ("tariff_name", "pages.dynamicSources.form.tariffName"); ("dynamic_tariff_name", "pages.dynamicSources.form.tariffName");
   ("date_from", "pages.dynamicSources.history.dateFrom"); ("date_to", "pages.dynamicSources.history.dateTo");
   ("zev", "admin.fields.zev"); ("confirmation", "pages.tariffs.apiErrorFields.confirmation");
   ("document_digest", "pages.tariffs.apiErrorFields.documentDigest")].

Definition parameterKeys : list (string * list string) :=
  [("duplicate_date", ["name"; "date"]); ("name_exists", ["name"]); ("overlap", ["name"]); ("series_identity", ["name"]);
   ("source_in_use", ["tariff_count"; "community_count"]); ("confirmation_mismatch", ["name"]);
   ("host_unresolved", ["host"]); ("http_status", ["status"]); ("document_size", ["size"]); ("history_limit", ["count"]);
   ("max_digits", ["count"]); ("max_decimal_places", ["count"]); ("max_whole_digits", ["count"]);
   ("max_length", ["count"]); ("min_length", ["count"]); ("min_value", ["value"]); ("max_value", ["value"])].

Definition FIXED_PRICE_LABELS : list (string * string) :=
  [("monthly_fee", "pages.tariffs.form.monthlyFee"); ("yearly_fee", "pages.tariffs.form.yearlyFee");
   ("per_metering_point_monthly_fee", "pages.tariffs.form.mpMonthlyFee");
   ("per_metering_point_yearly_fee", "pages.tariffs.form.mpYearlyFee");
   ("shared_monthly_fee", "pages.tariffs.form.sharedMonthlyFee");
   ("shared_yearly_fee", "pages.tariffs.form.sharedYearlyFee")].

Definition one_of (s : string) (l : list string) : bool := existsb (String.eqb s) l.

(** [/^-?\d+(?:\.\d+)?$/]. *)
Definition all_digits (s : string) : bool := nonempty s && str_forall is_digit s.
Definition is_decimal (s : string) : bool :=
  match split_on "." (if starts_with "-" s then slice_from s 1 else s) with
  | [whole] => all_digits whole
  | [whole; fraction] => all_digits whole && all_digits fraction
  | _ => false
  end.

(** A calendar day: the text parses at UTC midnight and shows as itself. *)
Definition is_calendar_day (value : string) : bool :=
  match parse_utc_midnight value with
  | Some ms => String.eqb (to_iso_slice ms) value
  | None => false
  end.

(** A key of an error's path: a property name or a list position. *)
Inductive PathKey := KeyName (name : string) | KeyIndex (index : Z).
#[export] Instance PathKey_eq_dec : EqDecision PathKey.
Proof. solve_decision. Defined.

Record TariffValidationError := {
  err_code : string;
  err_field : option string;
  err_path : list PathKey;
  err_params : list (string * json);
  err_message : string;
}.

Definition path_key (key : json) : option PathKey :=
  match key with
  | JStr s => Some (KeyName s)
  | JNum n => match num_int n with Some i => if (0 <=? i)%Z then Some (KeyIndex i) else None | None => None end
  | _ => None
  end.

(** [isCodedError] together with the record it vouches for. *)
Definition coded_error (value : json) : option TariffValidationError :=
  match jprop "code" value, jprop "message" value, jprop "field" value, jprop "path" value, jprop "params" value with
  | Some (JStr code), Some (JStr message), Some field, Some (JArr path), Some (JObj params) =>
      match mapM path_key path, field with
      | Some keys, JNull => Some {| err_code := code; err_field := None; err_path := keys; err_params := params; err_message := message |}
      | Some keys, JStr f => Some {| err_code := code; err_field := Some f; err_path := keys; err_params := params; err_message := message |}
      | _, _ => None
      end
  | _, _, _, _, _ => None
  end.

Definition isCodedError (value : json) : bool := bool_decide (is_Some (coded_error value)).

(** [Array.isArray(value) && value.every(isCodedError)], each entry with its error. *)
Definition codedErrors (value : option json) : option (list (json * TariffValidationError)) :=
  match value with
  | Some (JArr l) => mapM (λ v, (λ e, (v, e)) <$> coded_error v) l
  | _ => None
  end.

Definition whole_number (n : num) : bool := is_integer n.

(** The value a required parameter contributes, [None] when it is unusable. *)
Section Options.
Variable formatShortDate : string → string.

Definition option_value (key : string) (value : option json) : option json :=
  if one_of key ["count"; "status"; "size"; "tariff_count"; "community_count"] then
    match value with
    | Some (JNum n) =>
        if negb (is_finite n) || num_lt n (of_Z 0) then None
        else if negb (String.eqb key "size") && negb (whole_number n) then None
        else if String.eqb key "status" && (num_lt n (of_Z 100) || num_gt n (of_Z 599)) then None
        else Some (JNum n)
    | _ => None
    end
  else if String.eqb key "value" then
    match value with
    | Some (JNum n) => if is_finite n then Some (JNum n) else None
    | Some (JStr s) => if is_decimal s then Some (JStr s) else None
    | _ => None
    end
  else
    match value with
    | Some (JStr s) =>
        if negb (nonempty (trim s)) then None
        else if String.eqb key "date"
             then if is_calendar_day s then Some (JStr (formatShortDate s)) else None
             else Some (JStr s)
    | _ => None
    end.

Fixpoint collect_options (keys : list string) (params : list (string * json)) : option (list (string * json)) :=
  match keys with
  | [] => Some []
  | key :: keys' =>
      v ← option_value key (jget key params);
      rest ← collect_options keys' params;
      Some ((key, v) :: rest)
  end.

Definition required_params (code : string) : list string := default [] (omap_get code parameterKeys).

Definition translationOptions (code : string) (params : list (string * json)) : option (list (string * json)) :=
  collect_options (required_params code) params.
End Options.

Section Messages.
Variable t : string → list (string * json) → string.
Variable formatShortDate : string → string.

(** A month number of an error's parameters. *)
Definition month_param (month : json) : option Z :=
  match month with
  | JNum n => match num_int n with Some m => if (1 <=? m)%Z && (m <=? 12)%Z then Some m else None | None => None end
  | _ => None
  end.

(** The months of a conflict error: a non-empty array of month numbers. *)
Definition months_param (params : list (string * json)) : option (list Z) :=
  match jget "months" params with
  | Some (JArr (m :: ms)) => mapM month_param (m :: ms)
  | _ => None
  end.

Definition month_name (month : Z) : string :=
  t ("pages.tariffs.monthsShort." ++ default "" (MONTH_KEYS !! Z.to_nat (month - 1))) [].

Definition shown_with_field : list string :=
  ["invalid_date"; "invalid_time"; "invalid_choice"; "does_not_exist"; "min_value"; "max_value"; "max_digits";
   "max_decimal_places"; "max_whole_digits"; "max_length"; "min_length"; "fixed_price_required"; "series_identity"].

(** The text of an error and whether its field goes before it. *)
Definition coded_text (error : TariffValidationError) : string * bool :=
  let code := err_code error in
  if one_of code ["flat_timed_conflict"; "catch_all_conflict"] then
    match months_param (err_params error) with
    | Some months =>
        (t (if String.eqb code "catch_all_conflict" then "pages.tariffs.apiErrors.catchAllConflict"
            else "pages.tariffs.form.errorFlatTimed")
           [("months", JStr (join ", " (map month_name months)))], false)
    | None => (err_message error, false)
    end
  else if String.eqb code "empty" then
    let key := if bool_decide (KeyName "initial_periods" ∈ err_path error) then "emptyBands"
               else if bool_decide (KeyName "selections" ∈ err_path error) then "emptySelections" else "emptyList" in
    (t ("pages.tariffs.apiErrors." ++ key) [], false)
  else if one_of code ["required"; "null"; "blank"] then (t "pages.tariffs.form.errorRequired" [], true)
  else if String.eqb code "invalid_number" then (t "pages.tariffs.form.errorNumber" [], true)
  else if String.eqb code "too_many_bands" then (t "pages.tariffs.progression.errors.tooManyBands" [], false)
  else match omap_get code tariffErrorKeys, translationOptions formatShortDate code (err_params error) with
       | Some key, Some options => (t ("pages.tariffs.apiErrors." ++ key) options, one_of code shown_with_field)
       | _, _ => (err_message error, true)
       end.

Definition field_label (field : string) (params : list (string * json)) : string :=
  let mode := match jget "billing_mode" params with Some (JStr m) => m | _ => "" end in
  let feeLabel := if String.eqb field "fixed_price_chf" then omap_get mode FIXED_PRICE_LABELS else None in
  match feeLabel with
  | Some key => t key []
  | None => match omap_get field fieldKeys with Some key => t key [] | None => field end
  end.

(** [t('pages.tariffs.bandEntry.band', { number: index + 1 })]. *)
Definition band_name (index : Z) : string := t "pages.tariffs.bandEntry.band" [("number", JNum (of_Z (index + 1)))].

(** The position that follows the first band list of the path. *)
Fixpoint band_index (path : list PathKey) : option Z :=
  match path with
  | [] => None
  | key :: path' =>
      if bool_decide (key = KeyName "initial_periods" ∨ key = KeyName "periods") then
        match path' with KeyIndex i :: _ => Some i | _ => None end
      else band_index path'
  end.

Definition formatCodedError (error : TariffValidationError) : string :=
  let '(text, withField) := coded_text error in
  let text :=
    match err_field error with
    | Some field => if withField && nonempty field then field_label field (err_params error) ++ ": " ++ text else text
    | None => text
    end in
  match band_index (err_path error) with
  | Some index => band_name index ++ ": " ++ text
  | None => text
  end.

(** [collect]: the readable messages of a response, in document order. *)
Fixpoint collect (root : bool) (value : json) (field context : string) {struct value} : list string :=
  match value with
  | JArr l =>
      (fix entries (index : Z) (l : list json) : list string :=
         match l with
         | [] => []
         | entry :: l' =>
             (collect false entry field
                (if one_of field ["periods"; "initial_periods"] && is_object entry then band_name index else context)
              ++ entries (index + 1)%Z l')%list
         end) 0%Z l
  | JObj o =>
      flat_map (λ kv, if String.eqb kv.1 "validation_errors" || (root && String.eqb kv.1 "code") then []
                      else collect false kv.2 (if one_of kv.1 ["detail"; "error"; "non_field_errors"; "__all__"] then "" else kv.1) context) o
  | JStr s =>
      if nonempty (trim s) then
        let label := match omap_get field fieldKeys with Some key => t key [] | None => field end in
        let text := if nonempty label then label ++ ": " ++ s else s in
        [if nonempty context then context ++ ": " ++ text else text]
      else []
  | _ => []
  end.

(** [[...new Set(texts)].join(' ') || fallback]. *)
Definition join_distinct (texts : list string) (fallback : string) : string :=
  let shown := join " " (oset_of texts) in if nonempty shown then shown else fallback.

Definition legacy_messages (data : json) (fallback : string) : string := join_distinct (collect true data "" "") fallback.

Definition formatTariffErrorData (data : json) (fallback : string) : string :=
  match jprop "validation_errors" data with
  | Some v =>
      match codedErrors (Some v) with
      | Some ((_ :: _) as entries) =>
          let shown := join " " (bfilter nonempty (oset_of (map (λ e, formatCodedError e.2) entries))) in
          if nonempty shown then shown else fallback
      | _ => legacy_messages data fallback
      end
  | None => legacy_messages data fallback
  end.

Definition formatTariffError (error : caught) (fallback : string) : string :=
  match error with
  | AxiosError _ (Some data) =>
      match data with JNull => formatApiError error fallback | _ => formatTariffErrorData data fallback end
  | _ => formatApiError error fallback
  end.

(** ** Band errors next to their fields *)

(** [entry.path.length === 3 && entry.path[1] === index && entry.path[2] === field]
    for an entry whose path starts at the bands. *)
Definition is_band_entry (e : json * TariffValidationError) : bool :=
  bool_decide (head (err_path e.2) = Some (KeyName "initial_periods")).
Definition entry_at (index : nat) (field : string) (e : json * TariffValidationError) : bool :=
  match err_path e.2 with
  | [_; k1; k2] => bool_decide (k1 = KeyIndex (Z.of_nat index)) && bool_decide (k2 = KeyName field)
  | _ => false
  end.

(** [formatCodedError({ ...entry, field: null, path: [] }, t, settings)]. *)
Definition bare_text (e : json * TariffValidationError) : string :=
  formatCodedError {| err_code := err_code e.2; err_field := None; err_path := [];
                      err_params := err_params e.2; err_message := err_message e.2 |}.

(** One field of an item: its texts, and the entries (by position) it consumes. *)
Definition field_errors (bandEntries : list (nat * (json * TariffValidationError))) (index : nat)
    (fm : string * list string) : (string * list string) * list nat :=
  let coded := bfilter (λ pe, entry_at index fm.1 pe.2) bandEntries in
  let texts := match coded with [] => fm.2 | _ => map (λ pe, bare_text pe.2) coded end in
  ((fm.1, oset_of texts), map fst coded).

Definition translate_item (bandEntries : list (nat * (json * TariffValidationError))) (index : nat)
    (item : ItemFieldErrors) : ItemFieldErrors * list nat :=
  let fields := map (field_errors bandEntries index) item in
  (map fst fields, flat_map snd fields).

Definition splitTariffBandErrors (error : caught) : option (list ItemFieldErrors) * option json :=
  let '(items, rest) := splitIndexedErrors error "initial_periods" in
  match items, rest with
  | Some its, Some (JObj o) =>
      match codedErrors (jget "validation_errors" o) with
      | None => (items, rest)
      | Some entries =>
          let numbered := imap (λ i e, (i, e)) entries in
          let bandEntries := bfilter (λ pe, is_band_entry pe.2) numbered in
          let translated := imap (λ index item, translate_item bandEntries index item) its in
          let consumedEntries := flat_map snd translated in
          let remainingEntries := bfilter (λ pe, negb (bool_decide (pe.1 ∈ consumedEntries))) numbered in
          (Some (map fst translated),
           Some (JObj (omap_set "validation_errors" (JArr (map (λ pe, pe.2.1) remainingEntries)) o)))
      end
  | _, _ => (items, rest)
  end.
End Messages.

(** ** Every coded error is shown exactly once *)

Lemma bfilter_numbered {A} (g : nat → nat) (p : nat * A → bool) (q : A → bool) l :
  (∀ i x, l !! i = Some x → p (g i, x) = q x) →
  map snd (bfilter p (imap (λ i x, (g i, x)) l)) = bfilter q l.
Proof.
  revert g. induction l as [|x l IH]; intros g H; [done|].
  rewrite imap_cons. unfold bfilter in *. simpl. rewrite (H 0%nat x) by done.
  specialize (IH (g ∘ S) (λ i, H (S i))). destruct (q x); simpl; by rewrite <- IH.
Qed.

(** The errors the field [field] of item [index] shows. *)
Definition belongs (index : nat) (field : string) (e : json * TariffValidationError) : bool :=
  is_band_entry e && entry_at index field e.

(** An error has a place beside a field of the items. *)
Definition has_place (its : list ItemFieldErrors) (e : json * TariffValidationError) : bool :=
  match err_path e.2 with
  | [k0; KeyIndex n; KeyName field] =>
      bool_decide (k0 = KeyName "initial_periods") && (0 <=? n)%Z && match its !! Z.to_nat n with Some item => bool_decide (field ∈ map fst item) | None => false end
  | _ => false
  end.

Lemma belongs_path index field e :
  belongs index field e = true ↔ err_path e.2 = [KeyName "initial_periods"; KeyIndex (Z.of_nat index); KeyName field].
Proof.
  unfold belongs, is_band_entry, entry_at. destruct (err_path e.2) as [|k0 [|k1 [|k2 [|]]]];
    rewrite ?andb_false_r; try (split; [done|discriminate]).
  rewrite !andb_true_iff, !bool_decide_eq_true. simpl. split.
  - by intros [[= ->] [-> ->]].
  - by intros [= -> -> ->].
Qed.

Lemma has_place_iff its e :
  has_place its e = true ↔ ∃ index item field, its !! index = Some item ∧ field ∈ map fst item ∧ belongs index field e = true.
Proof.
  setoid_rewrite belongs_path. unfold has_place. split.
  - destruct (err_path e.2) as [|k0 [|[|n] [|[field|] [|]]]]; try done. intros [[Hk Hn]%andb_prop H]%andb_prop.
    apply bool_decide_eq_true in Hk as ->. destruct (its !! Z.to_nat n) as [item|] eqn:Hi; [|done].
    apply bool_decide_eq_true in H. bool_facts. exists (Z.to_nat n), item, field. by rewrite Z2Nat.id by lia.
  - intros (index & item & field & Hi & Hf & ->). rewrite Nat2Z.id, Hi, !andb_true_iff, !bool_decide_eq_true.
    split_and!; [done|apply Z.leb_le; lia|done].
Qed.

Section Conservation.
Variable t : string → list (string * json) → string.
Variable formatShortDate : string → string.
Variable entries : list (json * TariffValidationError).
Let text := bare_text t formatShortDate.
Let numbered := imap (λ i e, (i, e)) entries.
Let band := bfilter (λ pe, is_band_entry pe.2) numbered.

Lemma elem_of_numbered i e : (i, e) ∈ numbered ↔ entries !! i = Some e.
Proof.
  unfold numbered. rewrite list_elem_of_lookup. setoid_rewrite list_lookup_imap_Some. split.
  - intros (k & x & Hx & [= -> ->]). done.
  - intros H. by exists i, e.
Qed.

Lemma coded_at index field :
  map snd (bfilter (λ pe, entry_at index field pe.2) band) = bfilter (belongs index field) entries.
Proof. unfold band. rewrite bfilter_bfilter. by apply (bfilter_numbered id). Qed.

Lemma field_errors_spec index fm :
  field_errors t formatShortDate band index fm =
  ((fm.1, oset_of (match bfilter (belongs index fm.1) entries with [] => fm.2 | es => map text es end)),
   map fst (bfilter (λ pe, entry_at index fm.1 pe.2) band)).
Proof.
  unfold field_errors. rewrite <- coded_at. do 3 f_equal.
  destruct (bfilter _ band) as [|pe l]; [done|]. simpl. f_equal. by rewrite map_map.
Qed.

Lemma consumed_iff its i e :
  entries !! i = Some e →
  i ∈ flat_map snd (imap (λ index item, translate_item t formatShortDate band index item) its) ↔ has_place its e = true.
Proof.
  intros He. rewrite elem_of_flat_map, has_place_iff. setoid_rewrite list_elem_of_lookup at 1.
  setoid_rewrite list_lookup_imap_Some. unfold translate_item. split.
  - intros (r & (index & item & Hi & ->) & Hin). simpl in Hin.
    apply elem_of_flat_map in Hin as (x & (fm & -> & Hfm)%list_elem_of_fmap & Hx).
    rewrite field_errors_spec in Hx. simpl in Hx. apply list_elem_of_fmap in Hx as ([i' e'] & -> & Hpe).
    apply elem_of_bfilter in Hpe as [[Hn Hb]%elem_of_bfilter Ha]. apply elem_of_numbered in Hn. simpl in *.
    exists index, item, fm.1. simplify_eq. unfold belongs. rewrite Hb, Ha. split_and!; [done| |done].
    apply list_elem_of_fmap. by exists fm.
  - intros (index & item & field & Hi & Hf & Hb). apply list_elem_of_fmap in Hf as (fm & -> & Hfm).
    apply andb_prop in Hb as [Hb Ha]. eexists. split; [by exists index, item|]. simpl.
    apply elem_of_flat_map. exists (field_errors t formatShortDate band index fm). split.
    + apply list_elem_of_fmap. by exists fm.
    + rewrite field_errors_spec. apply list_elem_of_fmap. exists (i, e). split; [done|].
      apply elem_of_bfilter. split; [|done]. apply elem_of_bfilter. split; [|done]. by apply elem_of_numbered.
Qed.

Lemma remaining_spec its :
  map snd (bfilter (λ pe, negb (bool_decide (pe.1 ∈ flat_map snd
      (imap (λ index item, translate_item t formatShortDate band index item) its)))) numbered)
  = bfilter (λ e, negb (has_place its e)) entries.
Proof.
  apply (bfilter_numbered id). intros i e He. f_equal. destruct (has_place its e) eqn:Hp.
  - apply bool_decide_eq_true. by apply (consumed_iff its i e).
  - apply bool_decide_eq_false. intros Hin. apply (consumed_iff its i e) in Hin; congruence.
Qed.
End Conservation.

(** [items] and [rest] after a split: each error of the response is either in
    the rest, in its old order, or shown beside the field its path names, and
    never both; no field appears or disappears. *)
Theorem splitTariffBandErrors_conserves t formatShortDate error its o entries :
  splitIndexedErrors error "initial_periods" = (Some its, Some (JObj o)) →
  codedErrors (jget "validation_errors" o) = Some entries →
  ∃ items remaining,
    splitTariffBandErrors t formatShortDate error
      = (Some items, Some (JObj (omap_set "validation_errors" (JArr (map fst remaining)) o)))
    ∧ remaining = bfilter (λ e, negb (has_place its e)) entries
    ∧ map (map fst) items = map (map fst) its
    ∧ (∀ e, e ∈ entries → has_place its e = true →
        ∃ index item field texts, err_path e.2 = [KeyName "initial_periods"; KeyIndex (Z.of_nat index); KeyName field]
          ∧ items !! index = Some item ∧ (field, texts) ∈ item ∧ bare_text t formatShortDate e ∈ texts).
Proof.
  intros Hs Hc. unfold splitTariffBandErrors. rewrite Hs, Hc.
  eexists. exists (bfilter (λ e, negb (has_place its e)) entries).
  rewrite <- (remaining_spec t formatShortDate). split; [rewrite (map_map snd); reflexivity|].
  split_and!; [done| |].
  - rewrite map_map. apply list_eq. intros index. rewrite !list_lookup_fmap, list_lookup_imap.
    unfold ItemFieldErrors in *. destruct (its !! index) as [item|]; [|done]. simpl. f_equal. rewrite !map_map. by apply map_ext.
  - intros e He Hp. unfold ItemFieldErrors in *. apply has_place_iff in Hp as (index & item & field & Hi & Hf & Hb).
    apply list_elem_of_fmap in Hf as (fm & -> & Hfm).
    exists index. do 3 eexists. split; [by apply belongs_path|]. split.
    { rewrite list_lookup_fmap, list_lookup_imap. unfold ItemFieldErrors in *. rewrite Hi. reflexivity. }
    split.
    { unfold translate_item. apply list_elem_of_fmap. eexists. split; [|apply list_elem_of_fmap; by exists fm].
      by rewrite field_errors_spec. }
    apply elem_of_oset_of. assert (e ∈ bfilter (belongs index fm.1) entries) as Hin by by apply elem_of_bfilter.
    destruct (bfilter _ entries) as [|e' es]; [by apply elem_of_nil in Hin|]. by apply list_elem_of_fmap_2.
Qed.

(** A response with one band error that has a field and one that has none. *)
Definition sample_coded (path : list json) : json :=
  JObj [("code", JStr "bands_energy_only"); ("field", JNull); ("path", JArr path); ("params", JObj []); ("message", JStr "No.")].
Definition sample_entries : list json :=
  [sample_coded [JStr "initial_periods"; JNum (of_Z 0); JStr "label"];
   sample_coded [JStr "initial_periods"; JNum (of_Z 4); JStr "label"]].
Definition sample_band_error : caught :=
  AxiosError "" (Some (JObj [("initial_periods", JArr [JObj [("label", JArr [JStr "Server text."])]]);
                             ("validation_errors", JArr sample_entries)])).

Lemma splitTariffBandErrors_conserves_witness :
  let t := λ key (_ : list (string * json)), key in
  splitTariffBandErrors t id sample_band_error
    = (Some [[("label", ["pages.tariffs.apiErrors.bandsEnergyOnly"])]],
       Some (JObj [("validation_errors", JArr (drop 1 sample_entries))]))
  ∧ ∃ items (remaining : list (json * TariffValidationError)), splitTariffBandErrors t id sample_band_error
      = (Some items, Some (JObj (omap_set "validation_errors" (JArr (map fst remaining)) [("validation_errors", JArr sample_entries)]))).
Proof.
  intros t. split; [vm_compute; reflexivity|].
  destruct (splitTariffBandErrors_conserves t id sample_band_error [[("label", ["Server text."])]]
    [("validation_errors", JArr sample_entries)]
    (default [] (codedErrors (Some (JArr sample_entries))))) as (items & remaining & E & _).
  - vm_compute. reflexivity.
  - vm_compute. reflexivity.
  - exists items, remaining. exact E.
Defined.
