(* ===== verification/Iban.v ===== *)
(** IBAN validation (frontend/src/lib/iban.ts), compared with the ISO 13616
    check on the whole number.  Texts are ASCII: letters outside A-Z and white
    space outside ASCII are not recognised. *)

From S2P Require Import Prelude JsString.
Local Open Scope string_scope.

(** [value.replace(/\s/g, '').toUpperCase()]. *)
Definition normalizeIban (value : string) : string := to_upper (str_filter (λ c, negb (is_space c)) value).

Definition is_upper (c : ascii) : bool :=
  let n := N_of_ascii c in (65 <=? n)%N && (n <=? 90)%N.
Definition is_alnum (c : ascii) : bool := is_upper c || is_digit c.

(** [/^[A-Z]{2}[0-9]{2}[A-Z0-9]{11,30}$/]. *)
Definition iban_shape (iban : string) : bool :=
  str_forall is_upper (slice iban 0 2) && str_forall is_digit (slice iban 2 4) && str_forall is_alnum (slice_from iban 4)
  && (15 <=? String.length iban)%nat && (String.length iban <=? 34)%nat.

(** [String(char.charCodeAt(0) - 55)] for a letter, the character itself otherwise. *)
Definition char_digits (c : ascii) : string :=
  if is_upper c then Zstr (Z.of_N (N_of_ascii c) - 55) else String c "".

Fixpoint to_numeric (s : string) : string :=
  match s with "" => "" | String c s' => char_digits c ++ to_numeric s' end.

Definition rearranged (iban : string) : string := slice_from iban 4 ++ slice iban 0 4.

(** [numeric.match(/.{1,7}/g) ?? []]: there are at most as many chunks as characters. *)
Fixpoint chunks (fuel : nat) (s : string) : list string :=
  match fuel, s with
  | S fuel', String _ _ => slice s 0 7 :: chunks fuel' (slice_from s 7)
  | _, _ => []
  end.

(** [Number(`${remainder}${chunk}`) % 97]: at most nine digits, so the double is exact. *)
Definition remainder_step (remainder : Z) (chunk : string) : Z :=
  default 0%Z (parse_digits (Zstr remainder ++ chunk)) mod 97.

Definition isValidIban (value : string) : bool :=
  let iban := normalizeIban value in
  if String.eqb iban "" || negb (iban_shape iban) then false
  else
    let numeric := to_numeric (rearranged iban) in
    Z.eqb (foldl remainder_step 0%Z (chunks (String.length numeric) numeric)) 1.

(** ** The reference: one number, one remainder *)

(** The number an IBAN stands for, letters counting 10 to 35. *)
Fixpoint iban_number (acc : Z) (s : string) : Z :=
  match s with
  | "" => acc
  | String c s' =>
      iban_number (if is_upper c then acc * 100 + (Z.of_N (N_of_ascii c) - 55)
                   else acc * 10 + default 0 (digit_val c))%Z s'
  end.

Lemma slice_split n s : slice s 0 n ++ slice_from s n = s.
Proof.
  unfold slice, slice_from. rewrite Nat.sub_0_r. revert n. induction s as [|c s IH]; intros [|n]; simpl; try done.
  - f_equal. apply substring_full.
  - f_equal. apply IH.
Qed.

Lemma length_slice_from n s : String.length (slice_from s n) = (String.length s - n)%nat.
Proof.
  pose proof (slice_split n s) as E. apply (f_equal String.length) in E. rewrite str_length_app in E.
  assert (String.length (slice s 0 n) = Nat.min n (String.length s)); [|lia].
  unfold slice. rewrite Nat.sub_0_r. clear E. revert n. induction s as [|c s IH]; intros [|n]; simpl; auto.
Qed.

Lemma digits_val_app acc a b :
  digits_val_from acc (a ++ b) = digits_val_from acc a ≫= λ v, digits_val_from v b.
Proof. revert acc. induction a as [|c a IH]; intros acc; simpl; [done|]. by destruct (digit_val c). Qed.

Lemma digits_val_some s acc : str_forall is_digit s = true → is_Some (digits_val_from acc s).
Proof.
  revert acc. induction s as [|c s IH]; intros acc; simpl; [by eexists|]. intros [Hc Hs]%andb_prop.
  unfold is_digit in Hc. apply bool_decide_eq_true in Hc as [d ->]. by apply IH.
Qed.

Lemma digits_val_mod s acc v :
  digits_val_from acc s = Some v → ∃ v', digits_val_from (acc mod 97)%Z s = Some v' ∧ (v' mod 97 = v mod 97)%Z.
Proof.
  assert (∀ s a b v, (a mod 97 = b mod 97)%Z → digits_val_from b s = Some v →
    ∃ v', digits_val_from a s = Some v' ∧ (v' mod 97 = v mod 97)%Z) as H.
  { clear. induction s as [|c s IH]; intros a b v Hab; simpl; [intros [= <-]; by eexists|].
    destruct (digit_val c) as [d|]; [|done]. apply IH.
    rewrite Z.add_mod, (Z.add_mod (10 * b)) by lia. rewrite (Z.mul_mod 10 a), (Z.mul_mod 10 b) by lia. by rewrite Hab. }
  apply H. by rewrite Z.mod_mod.
Qed.

Lemma digits_val_Zstr r : (0 <= r < 100)%Z → digits_val_from 0 (Zstr r) = Some r.
Proof.
  intros Hr. destruct (decide (r = 0)%Z) as [->|]; [done|]. destruct (decide (r < 10)%Z).
  - rewrite (Zstr_fix 0) by (change (10 ^ Z.of_nat 0)%Z with 1%Z; change (10 ^ Z.of_nat 1)%Z with 10%Z; lia). rewrite digits_val_from_fix, Z.mod_small by (change (10 ^ Z.of_nat 1)%Z with 10%Z; change (10 ^ Z.of_nat 2)%Z with 100%Z; lia). f_equal; lia.
  - rewrite (Zstr_fix 1) by (change (10 ^ Z.of_nat 1)%Z with 10%Z; change (10 ^ Z.of_nat 2)%Z with 100%Z; lia). rewrite digits_val_from_fix, Z.mod_small by (change (10 ^ Z.of_nat 1)%Z with 10%Z; change (10 ^ Z.of_nat 2)%Z with 100%Z; lia). f_equal; lia.
Qed.

Lemma str_forall_app p a b : str_forall p (a ++ b) = str_forall p a && str_forall p b.
Proof. induction a as [|c a IH]; simpl; [done|]. by rewrite IH, andb_assoc. Qed.

(** The chunked remainder is the remainder of the whole number. *)
Lemma chunks_remainder s fuel r v :
  (String.length s <= fuel)%nat → (0 <= r < 97)%Z → str_forall is_digit s = true → digits_val_from r s = Some v →
  foldl remainder_step r (chunks fuel s) = (v mod 97)%Z.
Proof.
  revert s r v. induction fuel as [|fuel IH]; intros s r v Hl Hr Hs Hv.
  - destruct s; simpl in *; [|lia]. simplify_eq. by rewrite Z.mod_small.
  - destruct s as [|c s']; [simpl in *; simplify_eq; by rewrite Z.mod_small|].
    remember (String c s') as s eqn:Es. assert (chunks (S fuel) s = slice s 0 7 :: chunks fuel (slice_from s 7)) as -> by by subst.
    assert (Hlen : (String.length (slice_from s 7) <= fuel)%nat) by (rewrite length_slice_from; subst; simpl in *; lia).
    simpl. rewrite <- (slice_split 7 s) in Hv, Hs. clear Es Hl.
    rewrite str_forall_app in Hs. apply andb_prop in Hs as [H1 H2].
    rewrite digits_val_app in Hv. destruct (digits_val_from r (slice s 0 7)) as [w|] eqn:Hw; [|done]. simpl in Hv.
    assert (remainder_step r (slice s 0 7) = (w mod 97)%Z) as ->.
    { unfold remainder_step, parse_digits.
      assert (Zstr r ≠ "") as Hne by (apply Zstr_nonempty; lia).
      destruct (Zstr r ++ slice s 0 7) eqn:E; [by destruct (Zstr r)|]. rewrite <- E.
      rewrite digits_val_app, digits_val_Zstr by lia. simpl. by rewrite Hw. }
    destruct (digits_val_mod _ _ _ Hv) as (v' & Hv' & <-). apply IH; [done| |done|done].
    apply Z.mod_pos_bound. lia.
Qed.

Lemma upper_value c : is_upper c = true → (10 <= Z.of_N (N_of_ascii c) - 55 <= 35)%Z.
Proof. unfold is_upper. intros [H1%N.leb_le H2%N.leb_le]%andb_prop. lia. Qed.

Lemma numeric_digits s : str_forall is_alnum s = true → str_forall is_digit (to_numeric s) = true.
Proof.
  induction s as [|c s IH]; simpl; [done|]. intros [Hc Hs]%andb_prop.
  rewrite str_forall_app. apply andb_true_intro. split; [|by apply IH]. unfold char_digits, is_alnum in *. destruct (is_upper c) eqn:E.
  - apply Zstr_digits. apply upper_value in E. lia.
  - simpl in *. by rewrite Hc.
Qed.

Lemma numeric_value s acc :
  str_forall is_alnum s = true → digits_val_from acc (to_numeric s) = Some (iban_number acc s).
Proof.
  revert acc. induction s as [|c s IH]; intros acc; simpl; [done|]. intros [Hc Hs]%andb_prop.
  rewrite digits_val_app. unfold char_digits, is_alnum in *. destruct (is_upper c) eqn:E.
  - apply upper_value in E. rewrite (Zstr_fix 1) by (change (10 ^ Z.of_nat 1)%Z with 10%Z; change (10 ^ Z.of_nat 2)%Z with 100%Z; lia).
    rewrite digits_val_from_fix, Z.mod_small by (change (10 ^ Z.of_nat 2)%Z with 100%Z; lia). simpl. by apply IH.
  - simpl in Hc. unfold is_digit in Hc. apply bool_decide_eq_true in Hc as [d Hd]. simpl. rewrite Hd.
    simpl. rewrite IH by done. f_equal. f_equal. lia.
Qed.

Lemma shape_alnum iban : iban_shape iban = true → str_forall is_alnum (rearranged iban) = true.
Proof.
  unfold iban_shape, rearranged. intros H. rewrite !andb_true_iff in H. destruct H as [[[[Hu Hd] Ha] _] _].
  rewrite str_forall_app, Ha. simpl.
  assert (slice iban 0 4 = slice iban 0 2 ++ slice iban 2 4) as ->.
  { unfold slice. simpl. destruct iban as [|a [|b [|c [|d s]]]]; simpl; try done; by destruct s. }
  rewrite str_forall_app. apply andb_true_intro.
  split; eapply str_forall_impl; [|exact Hu| |exact Hd]; intros c Hc; unfold is_alnum; rewrite Hc; [done|by rewrite orb_true_r].
Qed.

(** A text is accepted exactly when, without white space and in capitals, it
    has the shape of an IBAN and its number leaves remainder 1 modulo 97;
    cutting the number into chunks of seven digits changes nothing. *)
Theorem isValidIban_iff value :
  isValidIban value = true ↔
  iban_shape (normalizeIban value) = true ∧ (iban_number 0 (rearranged (normalizeIban value)) mod 97 = 1)%Z.
Proof.
  unfold isValidIban. set (iban := normalizeIban value).
  destruct (iban_shape iban) eqn:Hs; [|rewrite orb_true_r; naive_solver].
  assert (String.eqb iban "" = false) as ->.
  { apply String.eqb_neq. intros E. rewrite E in Hs. discriminate. }
  simpl. apply shape_alnum in Hs.
  rewrite (chunks_remainder _ _ 0 (iban_number 0 (rearranged iban))); [|done|lia|by apply numeric_digits|by apply numeric_value].
  rewrite Z.eqb_eq. naive_solver.
Qed.

Example isValidIban_ex :
  isValidIban "CH93 0076 2011 6238 5295 7" = true ∧ isValidIban "ch93 0076 2011 6238 5295 8" = false
  ∧ isValidIban "" = false ∧ isValidIban "CH93" = false.
Proof. vm_compute. auto. Qed.
