(* ===== verification/ZevForm.v ===== *)
(** The community settings form (frontend/src/lib/zevForm.ts): defaults, the
    draft of a saved community, changed fields and their tabs, validation and
    the server's field errors.

    A key of a JavaScript object may be absent, or present with the value
    [undefined] (an emptied number field); the difference matters to
    [Object.keys] and is kept ([opt]). *)

From S2P Require Import Prelude JsString JsNumber Json Iban.
Local Open Scope string_scope.

Inductive opt (A : Type) := Missing | Undefined | Val (a : A).
Arguments Missing {A}.
Arguments Undefined {A}.
Arguments Val {A} a.

(** [value ?? d] on a field without [null]. *)
Definition opt_or {A} (d : A) (o : opt A) : A := match o with Val a => a | _ => d end.

(** A community as the API returns it; [None] is an absent (or [null]) field. *)
Record Zev := {
  zev_id : string; zev_updated_at : string; zev_name : string; zev_start_date : string; zev_issuer : option (string * string);
  zev_zev_type : string; zev_postal_code : option string; zev_grid_operator : string; zev_grid_operator_elcom_id : option num;
  zev_tariff_source_url : option string; zev_grid_connection_point : option string; zev_billing_interval : string;
  zev_invoice_prefix : option string; zev_credit_note_prefix : option string; zev_invoice_language : option string;
  zev_payment_term_days : option num; zev_bank_iban : option string; zev_bank_name : option string;
  zev_vat_mode : option string; zev_vat_number : option string; zev_invoice_rounding : option string;
  zev_itemize_tariff_bands : option bool; zev_participant_invoice_access : option bool; zev_notes : option string;
  zev_email_subject_template : option string; zev_email_body_template : option string;
  zev_local_tariff_notes : option string; zev_additional_contract_notes : option string;
  zev_disabled_at : option string; zev_disabled_by : option Z; zev_disabled_reason : option string;
}.

Record ZevInput := {
  name : string; start_date : string; zev_type : string; postal_code : opt string; grid_operator : opt string;
  grid_operator_elcom_id : opt (option num); tariff_source_url : opt string; grid_connection_point : opt string;
  billing_interval : string; invoice_prefix : opt string; credit_note_prefix : opt string;
  invoice_language : opt string; payment_term_days : opt num; bank_iban : opt string; bank_name : opt string;
  vat_mode : opt string; vat_number : opt string; invoice_rounding : opt string; itemize_tariff_bands : opt bool;
  participant_invoice_access : opt bool; notes : opt string; email_subject_template : opt string;
  email_body_template : opt string; local_tariff_notes : opt string; additional_contract_notes : opt string;
}.

(** [today] is [todayBusinessIso()]. *)
Definition getDefaultZevForm (today : string) : ZevInput :=
  {| name := ""; start_date := today; zev_type := "vzev"; postal_code := Val ""; grid_operator := Val "";
     grid_operator_elcom_id := Val None; tariff_source_url := Val ""; grid_connection_point := Val "";
     billing_interval := "monthly"; invoice_prefix := Val ""; credit_note_prefix := Val "CN";
     invoice_language := Val "de"; payment_term_days := Val (of_Z 30); bank_iban := Val ""; bank_name := Val "";
     vat_mode := Val "not_registered"; vat_number := Val ""; invoice_rounding := Val "none";
     itemize_tariff_bands := Val false; participant_invoice_access := Val false; notes := Val "";
     email_subject_template := Val ""; email_body_template := Val ""; local_tariff_notes := Val "";
     additional_contract_notes := Val "" |}.

Definition mapZevToForm (zev : Zev) : ZevInput :=
  {| name := zev_name zev; start_date := zev_start_date zev; zev_type := zev_zev_type zev;
     postal_code := Val (or_str (zev_postal_code zev) ""); grid_operator := Val (or_str (Some (zev_grid_operator zev)) "");
     grid_operator_elcom_id := Val (zev_grid_operator_elcom_id zev);
     tariff_source_url := Val (or_str (zev_tariff_source_url zev) "");
     grid_connection_point := Val (or_str (zev_grid_connection_point zev) "");
     billing_interval := zev_billing_interval zev;
     invoice_prefix := Val (or_str (zev_invoice_prefix zev) "");
     credit_note_prefix := Val (or_str (zev_credit_note_prefix zev) "CN");
     invoice_language := Val (default "de" (zev_invoice_language zev));
     payment_term_days := Val (default (of_Z 30) (zev_payment_term_days zev));
     bank_iban := Val (or_str (zev_bank_iban zev) ""); bank_name := Val (or_str (zev_bank_name zev) "");
     vat_mode := Val (default "not_registered" (zev_vat_mode zev));
     vat_number := Val (or_str (zev_vat_number zev) "");
     invoice_rounding := Val (default "none" (zev_invoice_rounding zev));
     itemize_tariff_bands := Val (default false (zev_itemize_tariff_bands zev));
     participant_invoice_access := Val (default false (zev_participant_invoice_access zev));
     notes := Val (or_str (zev_notes zev) "");
     email_subject_template := Val (default "" (zev_email_subject_template zev));
     email_body_template := Val (default "" (zev_email_body_template zev));
     local_tariff_notes := Val (default "" (zev_local_tariff_notes zev));
     additional_contract_notes := Val (default "" (zev_additional_contract_notes zev)) |}.

Inductive ZevFormField :=
  | Fname | Fstart_date | Fzev_type | Fpostal_code | Fgrid_operator | Fgrid_operator_elcom_id | Ftariff_source_url
  | Fgrid_connection_point | Fbilling_interval | Finvoice_language | Fpayment_term_days | Finvoice_prefix
  | Fcredit_note_prefix | Fbank_name | Fbank_iban | Fvat_mode | Fvat_number | Finvoice_rounding
  | Fitemize_tariff_bands | Fparticipant_invoice_access | Fnotes | Femail_subject_template | Femail_body_template
  | Flocal_tariff_notes | Fadditional_contract_notes.
#[export] Instance ZevFormField_eq_dec : EqDecision ZevFormField.
Proof. solve_decision. Defined.

Inductive ZevSettingsTab := TabGeneral | TabPeople | TabBilling | TabDocuments | TabEnergy | TabAudit | TabExport.
#[export] Instance ZevSettingsTab_eq_dec : EqDecision ZevSettingsTab.
Proof. solve_decision. Defined.

Definition ZEV_FIELD_TABS : list (ZevFormField * ZevSettingsTab) :=
  [(Fname, TabGeneral); (Fstart_date, TabGeneral); (Fzev_type, TabGeneral); (Fpostal_code, TabGeneral);
   (Fgrid_operator, TabGeneral); (Fgrid_operator_elcom_id, TabGeneral); (Ftariff_source_url, TabGeneral);
   (Fgrid_connection_point, TabGeneral);
   (Fbilling_interval, TabBilling); (Finvoice_language, TabBilling); (Fpayment_term_days, TabBilling);
   (Finvoice_prefix, TabBilling); (Fcredit_note_prefix, TabBilling); (Fbank_name, TabBilling); (Fbank_iban, TabBilling);
   (Fvat_mode, TabBilling); (Fvat_number, TabBilling); (Finvoice_rounding, TabBilling);
   (Fitemize_tariff_bands, TabBilling); (Fparticipant_invoice_access, TabBilling);
   (Fnotes, TabDocuments); (Femail_subject_template, TabDocuments); (Femail_body_template, TabDocuments);
   (Flocal_tariff_notes, TabDocuments); (Fadditional_contract_notes, TabDocuments)].

(** The property name of a field, its key in the table and in a payload. *)
Definition field_key (f : ZevFormField) : string :=
  match f with
  | Fname => "name" | Fstart_date => "start_date" | Fzev_type => "zev_type" | Fpostal_code => "postal_code"
  | Fgrid_operator => "grid_operator" | Fgrid_operator_elcom_id => "grid_operator_elcom_id"
  | Ftariff_source_url => "tariff_source_url" | Fgrid_connection_point => "grid_connection_point"
  | Fbilling_interval => "billing_interval" | Finvoice_language => "invoice_language"
  | Fpayment_term_days => "payment_term_days" | Finvoice_prefix => "invoice_prefix"
  | Fcredit_note_prefix => "credit_note_prefix" | Fbank_name => "bank_name" | Fbank_iban => "bank_iban"
  | Fvat_mode => "vat_mode" | Fvat_number => "vat_number" | Finvoice_rounding => "invoice_rounding"
  | Fitemize_tariff_bands => "itemize_tariff_bands" | Fparticipant_invoice_access => "participant_invoice_access"
  | Fnotes => "notes" | Femail_subject_template => "email_subject_template"
  | Femail_body_template => "email_body_template" | Flocal_tariff_notes => "local_tariff_notes"
  | Fadditional_contract_notes => "additional_contract_notes"
  end.

(** The value of a key, [None] when the key is absent. *)
Inductive FieldValue := VUndefined | VNull | VStr (s : string) | VNum (n : num) | VBool (b : bool).

Definition opt_value {A} (f : A → FieldValue) (o : opt A) : option FieldValue :=
  match o with Missing => None | Undefined => Some VUndefined | Val a => Some (f a) end.

Definition null_or {A} (f : A → FieldValue) (o : option A) : FieldValue := match o with Some a => f a | None => VNull end.

Definition own_value (form : ZevInput) (f : ZevFormField) : option FieldValue :=
  match f with
  | Fname => Some (VStr (name form)) | Fstart_date => Some (VStr (start_date form))
  | Fzev_type => Some (VStr (zev_type form)) | Fpostal_code => opt_value VStr (postal_code form)
  | Fgrid_operator => opt_value VStr (grid_operator form)
  | Fgrid_operator_elcom_id => opt_value (null_or VNum) (grid_operator_elcom_id form)
  | Ftariff_source_url => opt_value VStr (tariff_source_url form)
  | Fgrid_connection_point => opt_value VStr (grid_connection_point form)
  | Fbilling_interval => Some (VStr (billing_interval form)) | Finvoice_language => opt_value VStr (invoice_language form)
  | Fpayment_term_days => opt_value VNum (payment_term_days form) | Finvoice_prefix => opt_value VStr (invoice_prefix form)
  | Fcredit_note_prefix => opt_value VStr (credit_note_prefix form) | Fbank_name => opt_value VStr (bank_name form)
  | Fbank_iban => opt_value VStr (bank_iban form) | Fvat_mode => opt_value VStr (vat_mode form)
  | Fvat_number => opt_value VStr (vat_number form) | Finvoice_rounding => opt_value VStr (invoice_rounding form)
  | Fitemize_tariff_bands => opt_value VBool (itemize_tariff_bands form)
  | Fparticipant_invoice_access => opt_value VBool (participant_invoice_access form)
  | Fnotes => opt_value VStr (notes form) | Femail_subject_template => opt_value VStr (email_subject_template form)
  | Femail_body_template => opt_value VStr (email_body_template form)
  | Flocal_tariff_notes => opt_value VStr (local_tariff_notes form)
  | Fadditional_contract_notes => opt_value VStr (additional_contract_notes form)
  end.

(** [form[key]]. *)
Definition field_value (form : ZevInput) (f : ZevFormField) : FieldValue := default VUndefined (own_value form f).

(** [===] on field values. *)
Definition strict_eqb (a b : FieldValue) : bool :=
  match a, b with
  | VUndefined, VUndefined | VNull, VNull => true
  | VStr x, VStr y => String.eqb x y
  | VNum x, VNum y => num_eqb x y
  | VBool x, VBool y => Bool.eqb x y
  | _, _ => false
  end.

(** [Object.keys(draft)]. *)
Definition own_keys (form : ZevInput) : list ZevFormField :=
  bfilter (λ f, bool_decide (is_Some (own_value form f))) (map fst ZEV_FIELD_TABS).

Definition isZevFormDirty (draft baseline : ZevInput) : bool :=
  existsb (λ key, negb (strict_eqb (field_value draft key) (field_value baseline key))) (own_keys draft).

(** The [for] loop of [dirtyZevTabs]. *)
Definition changed_tabs (draft baseline : ZevInput) : list ZevSettingsTab :=
  foldl (λ tabs ft, if strict_eqb (field_value draft ft.1) (field_value baseline ft.1) then tabs else oset_add ft.2 tabs)
    [] ZEV_FIELD_TABS.

Definition dirtyZevTabs (draft baseline : ZevInput) : list ZevSettingsTab :=
  bfilter (λ tab, oset_has tab (changed_tabs draft baseline)) [TabGeneral; TabBilling; TabDocuments].

Record ZevFormViolation := { violation_field : ZevFormField; messageKey : string }.

(** [violations.push({ field, messageKey })] under a condition. *)
Definition violation (when : bool) (field : ZevFormField) (key : string) : list ZevFormViolation :=
  if when then [{| violation_field := field; messageKey := key |}] else [].

Definition bad_term (term : opt num) : bool :=
  match term with
  | Val n => negb (is_integer n) || num_lt n (of_Z 1) || num_gt n (of_Z 365)
  | _ => true
  end.

Definition blank (s : string) : bool := negb (nonempty (trim s)).

Definition validateZevForm (form : ZevInput) : list ZevFormViolation :=
  violation (blank (name form)) Fname "requiredName"
  ++ violation (blank (start_date form)) Fstart_date "requiredStartDate"
  ++ violation (bad_term (payment_term_days form)) Fpayment_term_days "paymentTermRange"
  ++ violation (negb (blank (opt_or "" (bank_iban form))) && negb (isValidIban (opt_or "" (bank_iban form)))) Fbank_iban "invalidIban"
  ++ violation (String.eqb (opt_or "" (vat_mode form)) "registered" && blank (opt_or "" (vat_number form))) Fvat_number "vatNumberRequired".

(** The first string with visible text, in document order. *)
Fixpoint firstErrorMessage (value : json) : option string :=
  match value with
  | JStr s => if nonempty (trim s) then Some s else None
  | JArr l =>
      (fix first (l : list json) : option string :=
         match l with
         | [] => None
         | entry :: l' => match firstErrorMessage entry with Some m => Some m | None => first l' end
         end) l
  | _ => None
  end.

Definition parseZevFieldErrors (payload : option (list (string * json))) : list (ZevFormField * string) :=
  match payload with
  | None => []
  | Some o =>
      omap (λ f, match jget (field_key f) o ≫= firstErrorMessage with Some message => Some (f, message) | None => None end)
        (map fst ZEV_FIELD_TABS)
  end.

(** ** Changed fields and their tabs *)

(** Every key of the draft is present, as in the forms the page builds. *)
Definition complete (form : ZevInput) : Prop := ∀ f, is_Some (own_value form f).

Definition field_changed (draft baseline : ZevInput) (f : ZevFormField) : Prop :=
  strict_eqb (field_value draft f) (field_value baseline f) = false.

Lemma all_fields f : f ∈ map fst ZEV_FIELD_TABS.
Proof. apply list_elem_of_In. destruct f; simpl; tauto. Qed.

Lemma mapZevToForm_complete zev : complete (mapZevToForm zev).
Proof. intros []; eexists; reflexivity. Qed.

Lemma default_complete today : complete (getDefaultZevForm today).
Proof. intros []; eexists; reflexivity. Qed.

Lemma elem_of_own_keys form f : f ∈ own_keys form ↔ is_Some (own_value form f).
Proof. unfold own_keys. rewrite elem_of_bfilter, bool_decide_eq_true. pose proof (all_fields f). tauto. Qed.

Lemma isZevFormDirty_iff draft baseline :
  isZevFormDirty draft baseline = true ↔ ∃ f, is_Some (own_value draft f) ∧ field_changed draft baseline f.
Proof.
  unfold isZevFormDirty. rewrite existsb_elem. setoid_rewrite elem_of_own_keys.
  unfold field_changed. by setoid_rewrite negb_true_iff.
Qed.

Lemma elem_of_changed_tabs draft baseline tab :
  tab ∈ changed_tabs draft baseline ↔ ∃ f, (f, tab) ∈ ZEV_FIELD_TABS ∧ field_changed draft baseline f.
Proof.
  unfold changed_tabs, field_changed.
  assert (∀ l acc, tab ∈ foldl (λ tabs (ft : ZevFormField * ZevSettingsTab),
      if strict_eqb (field_value draft ft.1) (field_value baseline ft.1) then tabs else oset_add ft.2 tabs) acc l
    ↔ tab ∈ acc ∨ ∃ f, (f, tab) ∈ l ∧ strict_eqb (field_value draft f) (field_value baseline f) = false) as H.
  { induction l as [|[f t] l IH]; intros acc; simpl.
    - setoid_rewrite elem_of_nil. naive_solver.
    - rewrite IH. setoid_rewrite elem_of_cons. destruct (strict_eqb _ _) eqn:E.
      + naive_solver congruence.
      + rewrite elem_of_oset_add. naive_solver. }
  rewrite H, elem_of_nil. naive_solver.
Qed.

Lemma shown_tab f tab : (f, tab) ∈ ZEV_FIELD_TABS → tab ∈ [TabGeneral; TabBilling; TabDocuments].
Proof.
  intros H. assert (forallb (λ ft, bool_decide (ft.2 ∈ [TabGeneral; TabBilling; TabDocuments])) ZEV_FIELD_TABS = true) as A by done.
  rewrite forallb_elem in A. apply A in H. by apply bool_decide_eq_true in H.
Qed.

(** A tab is marked exactly when one of its fields differs from the saved form,
    and a draft holding every key is dirty exactly when some tab is marked. *)
Theorem dirtyZevTabs_spec draft baseline :
  complete draft →
  (∀ tab, tab ∈ dirtyZevTabs draft baseline ↔ ∃ f, (f, tab) ∈ ZEV_FIELD_TABS ∧ field_changed draft baseline f)
  ∧ (isZevFormDirty draft baseline = false ↔ dirtyZevTabs draft baseline = []).
Proof.
  intros Hc.
  assert (∀ tab, tab ∈ dirtyZevTabs draft baseline ↔ ∃ f, (f, tab) ∈ ZEV_FIELD_TABS ∧ field_changed draft baseline f) as Ht.
  { intros tab. unfold dirtyZevTabs. rewrite elem_of_bfilter, oset_has_true, elem_of_changed_tabs.
    split; [tauto|]. intros (f & Hf & Hd). split; [by eapply shown_tab|by exists f]. }
  split; [done|]. rewrite <- not_true_iff_false, isZevFormDirty_iff. split.
  - intros Hn. destruct (dirtyZevTabs draft baseline) as [|tab l] eqn:E; [done|]. exfalso. apply Hn.
    destruct (Ht tab) as [(f & _ & Hf) _]; [by left|]. by exists f.
  - intros E (f & _ & Hf). pose proof (all_fields f) as ((f', tab) & -> & Hin)%list_elem_of_fmap.
    assert (tab ∈ dirtyZevTabs draft baseline) as Hi by (apply Ht; by exists f'). rewrite E in Hi. by apply elem_of_nil in Hi.
Qed.

Definition sample_zev : Zev :=
  {| zev_id := "z1"; zev_updated_at := ""; zev_name := "Sonne"; zev_start_date := "2026-01-01"; zev_issuer := None; zev_zev_type := "vzev";
     zev_postal_code := None; zev_grid_operator := ""; zev_grid_operator_elcom_id := None; zev_tariff_source_url := None;
     zev_grid_connection_point := None; zev_billing_interval := "quarterly"; zev_invoice_prefix := None;
     zev_credit_note_prefix := None; zev_invoice_language := None; zev_payment_term_days := None; zev_bank_iban := None;
     zev_bank_name := None; zev_vat_mode := None; zev_vat_number := None; zev_invoice_rounding := None;
     zev_itemize_tariff_bands := None; zev_participant_invoice_access := None; zev_notes := None;
     zev_email_subject_template := None; zev_email_body_template := None; zev_local_tariff_notes := None;
     zev_additional_contract_notes := None; zev_disabled_at := None; zev_disabled_by := None; zev_disabled_reason := None |}.

Lemma dirtyZevTabs_spec_witness :
  dirtyZevTabs (mapZevToForm sample_zev) (getDefaultZevForm "2026-01-01") = [TabGeneral; TabBilling]
  ∧ (isZevFormDirty (mapZevToForm sample_zev) (mapZevToForm sample_zev) = false
     ↔ dirtyZevTabs (mapZevToForm sample_zev) (mapZevToForm sample_zev) = []).
Proof.
  split; [vm_compute; reflexivity|].
  exact (proj2 (dirtyZevTabs_spec _ _ (mapZevToForm_complete sample_zev))).
Defined.

(** A valid form has visible names, a payment term, an IBAN that checks (or
    none) and a VAT number where one is due. *)
Lemma validateZevForm_nil form :
  validateZevForm form = [] ↔
  blank (name form) = false ∧ blank (start_date form) = false ∧ bad_term (payment_term_days form) = false
  ∧ (blank (opt_or "" (bank_iban form)) = false → isValidIban (opt_or "" (bank_iban form)) = true)
  ∧ (opt_or "" (vat_mode form) = "registered" → blank (opt_or "" (vat_number form)) = false).
Proof.
  unfold validateZevForm, violation.
  destruct (blank (name form)), (blank (start_date form)), (bad_term (payment_term_days form)),
    (blank (opt_or "" (bank_iban form))), (isValidIban (opt_or "" (bank_iban form))),
    (String.eqb_spec (opt_or "" (vat_mode form)) "registered"), (blank (opt_or "" (vat_number form)));
    simpl; naive_solver.
Qed.

(** Field errors come in the order of the form, at most one per field, and
    each is a message of the payload's own entry for that field. *)
Lemma parseZevFieldErrors_spec o f message :
  (f, message) ∈ parseZevFieldErrors (Some o) ↔ jget (field_key f) o ≫= firstErrorMessage = Some message.
Proof.
  unfold parseZevFieldErrors. rewrite list_elem_of_omap. split.
  - intros (f' & _ & E). destruct (jget (field_key f') o ≫= firstErrorMessage) eqn:Hg; naive_solver.
  - intros E. exists f. split; [apply all_fields|]. by rewrite E.
Qed.
