(* ===== verification/Access.v ===== *)
(** Who may see and change which community: frontend/src/lib/membership.ts,
    lib/communityAccess.ts and lib/managedZev.tsx.

    The provider's state is the in-session pick and the account it belongs to;
    [community_view] is what it offers the pages for the signed-in account and
    the communities loaded so far ([None] before the list arrives). *)

From S2P Require Import Prelude JsString ZevForm.
Local Open Scope string_scope.

Inductive UserRole := RoleAdmin | RoleUser.
#[export] Instance UserRole_eq_dec : EqDecision UserRole.
Proof. solve_decision. Defined.

Inductive ZevAccessRole := AccessManager | AccessViewer.
Inductive PartyRole := PartyIssuer | PartyRepresentative.

Record MembershipParticipant := { row_id : string; row_valid_from : string; row_valid_to : option string; live : bool }.

Record Membership := {
  member_zev : string;
  member_zev_name : string;
  zev_disabled : bool;
  zev_billing_interval : string;
  access : option ZevAccessRole;
  roles : option (list PartyRole);
  participants : list MembershipParticipant;
}.

Inductive User := {
  user_id : Z;
  username : string;
  email : string;
  first_name : string;
  last_name : string;
  role : UserRole;
  must_change_password : bool;
  preferred_zev : option string;
  has_usable_password : option bool;
  can_change_email : option bool;
  password_recovery_expires_at : option string;
  impersonated_by : option User;
  memberships : option (list Membership);
  may_create_zev : option bool;
}.

Definition is_admin (user : User) : bool := match role user with RoleAdmin => true | RoleUser => false end.

(** [user?.memberships ?? []]. *)
Definition memberships_of (user : option User) : list Membership := default [] (user ≫= memberships).

(** ** [lib/membership.ts] *)

Inductive CommunityRelation := RelAdmin | RelManager | RelViewer | RelParticipant | RelFormer.
#[export] Instance CommunityRelation_eq_dec : EqDecision CommunityRelation.
Proof. solve_decision. Defined.

Definition relationOf (membership : Membership) : CommunityRelation :=
  match access membership with
  | Some AccessManager => RelManager
  | Some AccessViewer => RelViewer
  | None => if existsb live (participants membership) then RelParticipant else RelFormer
  end.

Definition ownParticipantIds (user : option User) : list string :=
  foldl (λ ids m, foldl (λ ids row, oset_add (row_id row) ids) ids (participants m)) [] (memberships_of user).

Definition soleCommunityName (user : option User) : option string :=
  match memberships_of user with [m] => Some (member_zev_name m) | _ => None end.

Definition selectedCommunityName (selectedZev : option Zev) (entries : list (string * string)) (selectedZevId : option string)
    : option string :=
  match selectedZev with
  | Some z => Some (zev_name z)
  | None => snd <$> find_first (λ entry, bool_decide (Some entry.1 = selectedZevId)) entries
  end.

(** ** [lib/communityAccess.ts] *)

(** A relation, or [None] for ['none']. *)
Definition ShellRole : Type := option CommunityRelation.

Definition shellRoleFor (user : option User) (relation : option CommunityRelation) : ShellRole :=
  match user with
  | None => None
  | Some u => if is_admin u then Some RelAdmin else relation
  end.

Record CommunityAccess := {
  shellRole : ShellRole;
  isZevScope : bool;
  canManage : bool;
  canWriteSelectedCommunity : bool;
  isParticipantScope : bool;
  isAdmin : bool;
}.

Definition role_in (r : ShellRole) (l : list CommunityRelation) : bool :=
  existsb (λ x, bool_decide (r = Some x)) l.

Definition accessFor (r : ShellRole) : CommunityAccess :=
  let canManage := role_in r [RelAdmin; RelManager] in
  {| shellRole := r; isZevScope := role_in r [RelAdmin; RelManager; RelViewer]; canManage := canManage;
     canWriteSelectedCommunity := canManage; isParticipantScope := role_in r [RelParticipant; RelFormer];
     isAdmin := role_in r [RelAdmin] |}.

Definition canWriteInSelectedCommunity (a : CommunityAccess) (selectedZev : option Zev) : bool :=
  canManage a && (isAdmin a || match selectedZev with Some z => negb (truthy_str (zev_disabled_at z)) | None => false end).

Definition relationToZev (user : option User) (zevId : option string) : option CommunityRelation :=
  match user with
  | None => None
  | Some u =>
      if is_admin u then Some RelAdmin
      else if truthy_str zevId
           then relationOf <$> find_first (λ entry, bool_decide (Some (member_zev entry) = zevId)) (memberships_of user)
           else None
  end.

Definition hasCommunityWideAccess (user : option User) : bool :=
  match user with
  | None => false
  | Some u =>
      is_admin u
      || existsb (λ m, bool_decide (is_Some (access m)) || match roles m with Some (_ :: _) => true | _ => false end)
           (memberships_of user)
  end.

Definition shellRoleForZev (user : option User) (zevId : option string) : ShellRole :=
  shellRoleFor user (relationToZev user zevId).

Definition scopeNoteKey (r : ShellRole) : option string :=
  if bool_decide (r = Some RelViewer) then Some "nav.relation.viewer" else None.

(** ** [lib/managedZev.tsx] *)

Record CommunityEntry := { entry_id : string; entry_name : string; relation : CommunityRelation }.

Record ManagedSelection := { isSelectable : bool; selection : string; isAllowedId : string → bool }.

Definition resolveCommunitySelection (admin : bool) (entryIds : list string) (currentId : string)
    (preferredZevId : option string) : ManagedSelection :=
  let allowedIds := oset_of entryIds in
  let preferredId := default "" preferredZevId in
  {| isSelectable := admin || (1 <? length entryIds)%nat;
     selection :=
       match entryIds with
       | [] => ""
       | first :: _ =>
           if oset_has currentId allowedIds then currentId
           else if oset_has preferredId allowedIds then preferredId else first
       end;
     isAllowedId := λ zevId, oset_has zevId allowedIds |}.

Definition communityEntries (user : option User) (zevs : list Zev) : list CommunityEntry :=
  match user with
  | None => []
  | Some u =>
      if is_admin u
      then map (λ zev, {| entry_id := zev_id zev; entry_name := zev_name zev; relation := RelAdmin |}) zevs
      else map (λ m, {| entry_id := member_zev m; entry_name := member_zev_name m; relation := relationOf m |})
             (memberships_of user)
  end.

(** [zevsQuery.enabled]. *)
Definition mayReadZevs (user : option User) : bool :=
  match user with Some u => is_admin u | None => false end
  || existsb (λ m, bool_decide (is_Some (access m))) (memberships_of user).

(** [data] is the loaded list, [None] before it arrives. *)
Definition provider_entries (user : option User) (data : option (list Zev)) : list CommunityEntry :=
  let memberships := communityEntries user (default [] data) in
  match data with
  | None => memberships
  | Some zevs =>
      let readableIds := oset_of (map zev_id zevs) in
      bfilter (λ entry, bool_decide (relation entry = RelParticipant) || bool_decide (relation entry = RelFormer)
                        || oset_has (entry_id entry) readableIds) memberships
  end.

Definition provider_managed (user : option User) (entries : list CommunityEntry) (data : option (list Zev)) : list Zev :=
  let zevs := default [] data in
  if match user with Some u => is_admin u | None => false end then zevs
  else
    let managedIds := oset_of (map entry_id
      (bfilter (λ entry, bool_decide (relation entry = RelManager) || bool_decide (relation entry = RelViewer)) entries)) in
    bfilter (λ zev, oset_has (zev_id zev) managedIds) zevs.

(** [explicitPick] and [lastAccountId]. *)
Record PickState := { explicitPick : option string; lastAccountId : option Z }.

(** The part of a render that resets the pick when the account changes. *)
Definition track_account (user : option User) (st : PickState) : PickState :=
  let accountId := user_id <$> user in
  if bool_decide (lastAccountId st = accountId) then st else {| explicitPick := None; lastAccountId := accountId |}.

Record CommunityView := {
  managedZevs : list Zev;
  view_entries : list CommunityEntry;
  selectedZevId : string;
  selectedZev : option Zev;
  view_relation : option CommunityRelation;
  view_selectable : bool;
}.

Definition provider_resolution (user : option User) (entries : list CommunityEntry) (st : PickState) : ManagedSelection :=
  resolveCommunitySelection (match user with Some u => is_admin u | None => false end)
    (map entry_id entries) (default "" (explicitPick st)) (user ≫= preferred_zev).

(** A render of the provider: the tracked state and the context value. *)
Definition community_view (user : option User) (data : option (list Zev)) (st : PickState) : CommunityView :=
  let entries := provider_entries user data in
  let managed := provider_managed user entries data in
  let resolution := provider_resolution user entries (track_account user st) in
  {| managedZevs := managed; view_entries := entries; selectedZevId := selection resolution;
     selectedZev := find_first (λ zev, String.eqb (zev_id zev) (selection resolution)) managed;
     view_relation := relation <$> find_first (λ entry, String.eqb (entry_id entry) (selection resolution)) entries;
     view_selectable := isSelectable resolution |}.

(** [setSelectedZevId]: the new state and the preference to save, if any. *)
Definition setSelectedZevId (user : option User) (data : option (list Zev)) (zevId : string) (st : PickState)
    : PickState * option string :=
  let st := track_account user st in
  if isAllowedId (provider_resolution user (provider_entries user data) st) zevId
  then ({| explicitPick := Some zevId; lastAccountId := lastAccountId st |}, Some zevId)
  else (st, None).

(** [useCommunityAccess]: [view] is [None] outside the provider. *)
Definition useCommunityAccess (user : option User) (view : option CommunityView) : CommunityAccess :=
  let base := accessFor (shellRoleFor user (view ≫= view_relation)) in
  {| shellRole := shellRole base; isZevScope := isZevScope base; canManage := canManage base;
     canWriteSelectedCommunity := canWriteInSelectedCommunity base (view ≫= selectedZev);
     isParticipantScope := isParticipantScope base; isAdmin := isAdmin base |}.

(** ** The selection *)

Lemma resolve_listed admin ids current preferred :
  let sel := selection (resolveCommunitySelection admin ids current preferred) in
  (ids = [] → sel = "") ∧ (ids ≠ [] → sel ∈ ids) ∧ (current ∈ ids → sel = current)
  ∧ (∀ p, current ∉ ids → preferred = Some p → p ∈ ids → sel = p).
Proof.
  unfold resolveCommunitySelection. cbn [selection]. destruct ids as [|i ids]; simpl.
  - split_and!; try done; intros; by match goal with H : _ ∈ [] |- _ => apply elem_of_nil in H end.
  - assert (∀ x, oset_has x (oset_of (i :: ids)) = true ↔ x ∈ i :: ids) as Hh
      by (intros x; rewrite oset_has_true; apply elem_of_oset_of).
    assert (∀ x, oset_has x (oset_of (i :: ids)) = false → x ∉ i :: ids) as Hn
      by (intros x E Hx; apply Hh in Hx; congruence).
    assert (i ∈ i :: ids) as Hi by left. remember (i :: ids) as l eqn:El. clear El.
    destruct (oset_has current (oset_of l)) eqn:E1.
    { apply Hh in E1. split_and!; [by intros ->; apply elem_of_nil in Hi|done|done|]. intros p Hp. by destruct Hp. }
    apply Hn in E1. destruct (oset_has (default "" preferred) (oset_of l)) eqn:E2.
    { apply Hh in E2. split_and!; [by intros ->; apply elem_of_nil in Hi|done|by intros Hc; destruct E1|].
      intros p _ -> _. done. }
    apply Hn in E2. split_and!; [by intros ->; apply elem_of_nil in Hi|done|by intros Hc; destruct E1|].
    intros p _ -> Hp. by destruct E2.
Qed.

(** C27. The selected community is always one of the listed ones.  Picking a listed
    community selects it and saves it as the account's preference; picking any
    other changes nothing.  A pick made by another account has no effect. *)
Theorem selection_safe user data st zevId :
  let ids st := map entry_id (view_entries (community_view user data st)) in
  let '(st', saved) := setSelectedZevId user data zevId st in
  (ids st = [] ∨ selectedZevId (community_view user data st) ∈ ids st)
  ∧ (if decide (zevId ∈ ids st) then selectedZevId (community_view user data st') = zevId ∧ saved = Some zevId
     else community_view user data st' = community_view user data st ∧ saved = None)
  ∧ (lastAccountId st ≠ user_id <$> user →
      community_view user data st = community_view user data {| explicitPick := None; lastAccountId := user_id <$> user |}).
Proof.
  intros ids. unfold setSelectedZevId. set (tr := track_account user st).
  assert (lastAccountId tr = user_id <$> user) as Hacc.
  { unfold tr, track_account. destruct (bool_decide _) eqn:E; [by apply bool_decide_eq_true in E|done]. }
  assert (track_account user tr = tr) as Htr by (unfold track_account at 1; by rewrite bool_decide_true).
  assert (isAllowedId (provider_resolution user (provider_entries user data) tr) zevId = true ↔ zevId ∈ ids st) as Hal.
  { simpl. rewrite oset_has_true. apply elem_of_oset_of. }
  assert (ids st = [] ∨ selectedZevId (community_view user data st) ∈ ids st) as Hsel.
  { pose proof (resolve_listed (match user with Some u => is_admin u | None => false end) (ids st)
      (default "" (explicitPick tr)) (user ≫= preferred_zev)) as (_ & H & _).
    destruct (decide (ids st = [])) as [|Hne]; [by left|right; by apply H]. }
  assert (lastAccountId st ≠ user_id <$> user →
      community_view user data st = community_view user data {| explicitPick := None; lastAccountId := user_id <$> user |}) as Hleak.
  { intros Hne. unfold community_view, track_account. rewrite bool_decide_false by done.
    cbn [lastAccountId]. by rewrite bool_decide_true. }
  destruct (isAllowedId _ zevId) eqn:E.
  - split; [done|]. split; [|done]. rewrite decide_True by tauto. split; [|done].
    unfold community_view, track_account. cbn [lastAccountId selectedZevId]. rewrite Hacc, bool_decide_true by done.
    assert (zevId ∈ ids st) as Hin by tauto. cbn [explicitPick default].
    exact (proj1 (proj2 (proj2 (resolve_listed _ (ids st) zevId _))) Hin).
  - split; [done|]. split; [|done]. rewrite decide_False by naive_solver. split; [|done].
    unfold community_view. by rewrite Htr.
Qed.

(** ** Write access *)

Lemma relationOf_not_admin m : relationOf m ≠ RelAdmin.
Proof. unfold relationOf. destruct (access m) as [[]|]; [done..|]. by destruct (existsb _ _). Qed.

Lemma relationOf_manager m : relationOf m = RelManager ↔ access m = Some AccessManager.
Proof. unfold relationOf. destruct (access m) as [[]|]; [done..|]. by destruct (existsb _ _). Qed.

Section WriteAccess.
Variables (u : User) (zevs : list Zev) (st : PickState).
Context (not_admin : is_admin u = false).
Context (distinct_memberships : NoDup (map member_zev (memberships_of (Some u)))).
Context (distinct_zevs : NoDup (map zev_id zevs)).
Let view := community_view (Some u) (Some zevs) st.

Lemma elem_of_entries e :
  e ∈ view_entries view ↔ ∃ m, m ∈ memberships_of (Some u)
    ∧ e = {| entry_id := member_zev m; entry_name := member_zev_name m; relation := relationOf m |}
    ∧ (relationOf m = RelParticipant ∨ relationOf m = RelFormer ∨ ∃ z, z ∈ zevs ∧ zev_id z = member_zev m).
Proof.
  unfold view, community_view, provider_entries, communityEntries. cbn [view_entries default]. rewrite not_admin.
  rewrite elem_of_bfilter, list_elem_of_fmap, !orb_true_iff, !bool_decide_eq_true, oset_has_true, elem_of_oset_of.
  split.
  - intros [(m & -> & Hm) H]. exists m. split_and!; [done..|]. simpl in H.
    destruct H as [[H|H]|(z & Hz & Hin)%list_elem_of_fmap]; [by left|by right; left|right; right; by exists z].
  - intros (m & Hm & -> & H). split; [by exists m|]. simpl.
    destruct H as [H|[H|(z & Hin & Hz)]]; [by left; left|by left; right|right].
    apply list_elem_of_fmap. by exists z.
Qed.

Lemma selected_relation r :
  view_relation view = Some r →
  ∃ m, m ∈ memberships_of (Some u) ∧ member_zev m = selectedZevId view ∧ relationOf m = r.
Proof.
  intros H. change (view_relation view) with
    (relation <$> find_first (λ e, String.eqb (entry_id e) (selectedZevId view)) (view_entries view)) in H.
  apply fmap_Some in H as (e & He & ->). apply find_first_Some in He as [He Hid].
  apply elem_of_entries in He as (m & Hm & -> & _). apply String.eqb_eq in Hid. by exists m.
Qed.

Lemma manager_selected m :
  m ∈ memberships_of (Some u) → member_zev m = selectedZevId view → (∃ z, z ∈ zevs ∧ zev_id z = member_zev m) →
  view_relation view = Some (relationOf m).
Proof.
  intros Hm Hid Hz. destruct (find_first_exists (λ e, String.eqb (entry_id e) (selectedZevId view)) (view_entries view)
    {| entry_id := member_zev m; entry_name := member_zev_name m; relation := relationOf m |}) as (e & He).
  - apply elem_of_entries. exists m. split_and!; [done..|]. by right; right.
  - by apply String.eqb_eq.
  - change (view_relation view) with
      (relation <$> find_first (λ e, String.eqb (entry_id e) (selectedZevId view)) (view_entries view)).
    rewrite He. simpl. apply find_first_Some in He as [He Hid']. apply elem_of_entries in He as (m' & Hm' & -> & _).
    apply String.eqb_eq in Hid'. simpl in *. assert (m' = m) as -> by (eapply NoDup_map_inj; eauto; congruence). done.
Qed.

Lemma selected_record z :
  selectedZev view = Some z → z ∈ zevs ∧ zev_id z = selectedZevId view.
Proof.
  unfold view at 1, community_view, provider_managed. cbn [selectedZev]. rewrite not_admin.
  intros [Hz Hid]%find_first_Some. apply elem_of_bfilter in Hz as [Hz _]. apply String.eqb_eq in Hid. done.
Qed.

Lemma record_selected z :
  z ∈ zevs → zev_id z = selectedZevId view → view_relation view = Some RelManager → selectedZev view = Some z.
Proof.
  intros Hz Hid Hr.
  assert (z ∈ managedZevs view) as Hman.
  { unfold view, community_view, provider_managed. cbn [managedZevs]. rewrite not_admin. apply elem_of_bfilter.
    split; [done|]. rewrite oset_has_true, elem_of_oset_of. apply list_elem_of_fmap.
    change (view_relation view) with
      (relation <$> find_first (λ e, String.eqb (entry_id e) (selectedZevId view)) (view_entries view)) in Hr.
    apply fmap_Some in Hr as (e & He & Hm). apply find_first_Some in He as [He Hide]. apply String.eqb_eq in Hide.
    exists e. split; [congruence|]. apply elem_of_bfilter. split; [done|]. by rewrite <- Hm. }
  destruct (find_first_exists (λ zev, String.eqb (zev_id zev) (selectedZevId view)) (managedZevs view) z Hman) as (z' & E);
    [by apply String.eqb_eq|].
  change (selectedZev view) with (find_first (λ zev, String.eqb (zev_id zev) (selectedZevId view)) (managedZevs view)).
  rewrite E. f_equal. assert (selectedZev view = Some z') as Es by exact E.
  apply selected_record in Es as [Hz' Hid']. eapply NoDup_map_inj; eauto. congruence.
Qed.
End WriteAccess.

(** Writes in the selected community are offered to an administrator, and to
    anyone else exactly when its membership there is a manager's and the
    community's record is loaded and not disabled. *)
Theorem canWriteSelectedCommunity_iff u zevs st :
  NoDup (map member_zev (memberships_of (Some u))) → NoDup (map zev_id zevs) →
  let view := community_view (Some u) (Some zevs) st in
  canWriteSelectedCommunity (useCommunityAccess (Some u) (Some view)) = true ↔
  role u = RoleAdmin
  ∨ ∃ m z, m ∈ memberships_of (Some u) ∧ member_zev m = selectedZevId view ∧ access m = Some AccessManager
      ∧ z ∈ zevs ∧ zev_id z = selectedZevId view ∧ truthy_str (zev_disabled_at z) = false.
Proof.
  intros Hnm Hnz view. unfold useCommunityAccess. cbn [canWriteSelectedCommunity mbind option_bind].
  destruct (is_admin u) eqn:Ha.
  { unfold shellRoleFor. rewrite Ha. unfold is_admin in Ha. destruct (role u); [|done]. split; [by left|done]. }
  unfold shellRoleFor, canWriteInSelectedCommunity. rewrite Ha. cbn [accessFor canManage isAdmin].
  assert (role u ≠ RoleAdmin) as Hnr by (intros E; unfold is_admin in Ha; by rewrite E in Ha).
  unfold role_in. cbn [existsb]. rewrite !orb_false_r. split.
  - intros [Hm Hw]%andb_prop. right.
    assert (view_relation view ≠ Some RelAdmin) as Hne.
    { intros (m & _ & _ & E)%selected_relation; [|done]. by apply relationOf_not_admin in E. }
    rewrite (bool_decide_false _ Hne) in Hm. rewrite (bool_decide_false _ Hne) in Hw. rewrite orb_false_l in Hm, Hw. apply bool_decide_eq_true in Hm.
    apply selected_relation in Hm as (m & Hm & Hid & Hr%relationOf_manager); [|done].
    destruct (selectedZev view) as [z|] eqn:Ez; [|done]. apply selected_record in Ez as [Hz Hzid]; [|done].
    exists m, z. split_and!; [done..|]. by apply negb_true_iff.
  - intros [?|(m & z & Hm & Hid & Hac & Hz & Hzid & Hdis)]; [done|].
    assert (view_relation view = Some RelManager) as Hr.
    { apply relationOf_manager in Hac. rewrite <- Hac. apply manager_selected; [done..|]. exists z. split; congruence. }
    pose proof (record_selected u zevs st Ha Hnz z Hz Hzid Hr) as Hs. fold view in Hs. rewrite Hs, Hr, Hdis. reflexivity.
Qed.

(** A manager of one community and participant of another. *)
Definition sample_user : User :=
  {| user_id := 7; username := "mia"; email := "mia@example.ch"; first_name := "Mia"; last_name := "Muster"; role := RoleUser;
     must_change_password := false; preferred_zev := Some "z1"; has_usable_password := None; can_change_email := None;
     password_recovery_expires_at := None; impersonated_by := None;
     memberships := Some
       [{| member_zev := "z0"; member_zev_name := "Alt"; zev_disabled := false; zev_billing_interval := "monthly"; access := None;
           roles := None; participants := [{| row_id := "p1"; row_valid_from := "2025-01-01"; row_valid_to := None; live := true |}] |};
        {| member_zev := "z1"; member_zev_name := "Sonne"; zev_disabled := false; zev_billing_interval := "quarterly";
           access := Some AccessManager; roles := None; participants := [] |}];
     may_create_zev := None |}.
Definition fresh_pick : PickState := {| explicitPick := None; lastAccountId := Some 7%Z |}.

Lemma canWriteSelectedCommunity_iff_witness :
  let view := community_view (Some sample_user) (Some [sample_zev]) fresh_pick in
  selectedZevId view = "z1" ∧ canWriteSelectedCommunity (useCommunityAccess (Some sample_user) (Some view)) = true
  ∧ (canWriteSelectedCommunity (useCommunityAccess (Some sample_user) (Some view)) = true ↔
     role sample_user = RoleAdmin
     ∨ ∃ m z, m ∈ memberships_of (Some sample_user) ∧ member_zev m = selectedZevId view ∧ access m = Some AccessManager
         ∧ z ∈ [sample_zev] ∧ zev_id z = selectedZevId view ∧ truthy_str (zev_disabled_at z) = false).
Proof.
  intros view. split; [reflexivity|]. split; [reflexivity|].
  apply (canWriteSelectedCommunity_iff sample_user [sample_zev] fresh_pick).
  - apply (bool_decide_eq_true_1 (NoDup _)). vm_compute. reflexivity.
  - apply (bool_decide_eq_true_1 (NoDup _)). vm_compute. reflexivity.
Defined.

(** The relation shown for a listed community is the one the account holds there. *)
Lemma relationToZev_selected u zevs st :
  is_admin u = false → NoDup (map member_zev (memberships_of (Some u))) →
  let view := community_view (Some u) (Some zevs) st in
  selectedZevId view ≠ "" → is_Some (view_relation view) →
  relationToZev (Some u) (Some (selectedZevId view)) = view_relation view.
Proof.
  intros Ha Hnd view Hne [r Hr]. destruct (selected_relation u zevs st Ha r Hr) as (m & Hm & Hid & Hrel).
  fold view in Hid. unfold relationToZev. rewrite Ha, Hr.
  assert (truthy_str (Some (selectedZevId view)) = true) as -> by (apply truthy_str_Some; eauto).
  destruct (find_first_exists (λ e, bool_decide (Some (member_zev e) = Some (selectedZevId view))) _ m Hm) as (m' & E);
    [by apply bool_decide_eq_true; f_equal|].
  rewrite E. simpl. apply find_first_Some in E as [Hm' E]. apply bool_decide_eq_true in E. apply (inj Some) in E.
  f_equal. rewrite <- Hrel. f_equal. eapply NoDup_map_inj; eauto. congruence.
Qed.
