(* ===== verification/Session.v ===== *)
(** The session of the signed-in account (frontend/src/lib/auth.tsx) as a
    transition system over interleaved requests.

    Identity loads carry the session version they started in.  Preference saves
    are chained per slot: [prefSaveRef.current] is the last slot of [slots], and
    every session boundary puts a fresh one there.  A save is queued, in flight,
    settled (its promise has a result) and finished (the code after [await run]
    has run).  The events are the calls of the context's functions, the answers
    of the server and the continuations of the promises, in any order the event
    loop may pick; an event that is not enabled gives [None]. *)

From stdpp Require Import relations.
From S2P Require Import Prelude JsString Access.

(** What a save's promise holds: [Resolved None] is a skipped dispatch. *)
Inductive save_result := Resolved (me : option User) | Rejected.

Inductive run_status := Queued | InFlight | Settled (r : save_result) | Finished (r : save_result).

Record save_run := {
  run_slot : nat;             (* index of the slot captured by the call *)
  run_caller : option Z;      (* [callerId] *)
  run_seq : nat;              (* [mySeq] *)
  run_zev : option string;
  run_status_of : run_status;
}.

Record pref_slot := { slot_user : option Z; slot_seq : nat }.

(** Who started a load decides what its end does to the loading flag. *)
Inductive load_kind := LoadInitial | LoadSession | LoadAfterStop.
Record identity_load := { load_kind_of : load_kind; load_version : nat; load_open : bool }.

Record auth := {
  user : option User;
  isLoading : bool;
  sessionVersion : nat;
  slots : list pref_slot;
  saves : list save_run;
  loads : list identity_load;
}.

Definition fresh_slot : pref_slot := {| slot_user := None; slot_seq := 0 |}.

(** The state after the first render, whose effect loads the account. *)
Definition auth_init : auth :=
  {| user := None; isLoading := true; sessionVersion := 0; slots := [fresh_slot]; saves := [];
     loads := [{| load_kind_of := LoadInitial; load_version := 0; load_open := true |}] |}.

Definition current_slot (s : auth) : nat := length (slots s) - 1.

Definition set_user (u : option User) (s : auth) : auth :=
  {| user := u; isLoading := isLoading s; sessionVersion := sessionVersion s; slots := slots s; saves := saves s; loads := loads s |}.
Definition set_loading (b : bool) (s : auth) : auth :=
  {| user := user s; isLoading := b; sessionVersion := sessionVersion s; slots := slots s; saves := saves s; loads := loads s |}.
Definition set_saves (l : list save_run) (s : auth) : auth :=
  {| user := user s; isLoading := isLoading s; sessionVersion := sessionVersion s; slots := slots s; saves := l; loads := loads s |}.
Definition set_status (i : nat) (st : run_status) (s : auth) : auth :=
  set_saves (alter (λ r, {| run_slot := run_slot r; run_caller := run_caller r; run_seq := run_seq r; run_zev := run_zev r;
                            run_status_of := st |}) i (saves s)) s.

Definition invalidateSessionRequests (s : auth) : auth :=
  {| user := user s; isLoading := isLoading s; sessionVersion := S (sessionVersion s); slots := slots s ++ [fresh_slot];
     saves := saves s; loads := loads s |}.

(** [loadCurrentUser] up to its request. *)
Definition start_load (k : load_kind) (s : auth) : auth :=
  {| user := user s; isLoading := isLoading s; sessionVersion := sessionVersion s; slots := slots s; saves := saves s;
     loads := loads s ++ [{| load_kind_of := k; load_version := sessionVersion s; load_open := true |}] |}.

Definition close_load (i : nat) (s : auth) : auth :=
  {| user := user s; isLoading := isLoading s; sessionVersion := sessionVersion s; slots := slots s; saves := saves s;
     loads := alter (λ l, {| load_kind_of := load_kind_of l; load_version := load_version l; load_open := false |}) i (loads s) |}.

(** The answer to a load, [None] when it failed, with the code that follows it. *)
Definition load_reply (i : nat) (answer : option User) (s : auth) : option auth :=
  match loads s !! i with
  | Some l =>
      if load_open l then
        let current := (load_version l =? sessionVersion s)%nat in
        let s := close_load i s in
        let s := match answer with
                 | Some me => if current then set_user (Some me) s else s
                 | None => match load_kind_of l with
                           | LoadInitial => if current then set_user None s else s
                           | _ => s
                           end
                 end in
        Some (match load_kind_of l with LoadSession => s | _ => set_loading false s end)
      else None
  | None => None
  end.

(** [updatePreferredZev] up to its first [await]; [callerId] is the account of
    the render the function belongs to. *)
Definition updatePreferredZev (callerId : option Z) (zevId : option string) (s : auth) : auth :=
  let slot := default fresh_slot (slots s !! current_slot s) in
  let mySeq := S (if bool_decide (slot_user slot = callerId) then slot_seq slot else 0%nat) in
  {| user := user s; isLoading := isLoading s; sessionVersion := sessionVersion s;
     slots := <[current_slot s := {| slot_user := callerId; slot_seq := mySeq |}]> (slots s);
     saves := saves s ++ [{| run_slot := current_slot s; run_caller := callerId; run_seq := mySeq; run_zev := zevId;
                             run_status_of := Queued |}];
     loads := loads s |}.

Definition is_done (r : save_run) : bool :=
  match run_status_of r with Settled _ | Finished _ => true | _ => false end.

(** The slot's tail before save [i] has settled: every earlier save of the slot has. *)
Definition tail_settled (i : nat) (slot : nat) (s : auth) : bool :=
  forallb (λ r, negb (run_slot r =? slot)%nat || is_done r) (take i (saves s)).

(** The [.then] of a save: the dispatch guard. *)
Definition dispatch (i : nat) (s : auth) : option auth :=
  match saves s !! i with
  | Some r =>
      match run_status_of r with
      | Queued =>
          if tail_settled i (run_slot r) s
          then Some (set_status i (if (run_slot r =? current_slot s)%nat then InFlight else Settled (Resolved None)) s)
          else None
      | _ => None
      end
  | None => None
  end.

(** The server's answer to a save. *)
Definition settle (i : nat) (answer : option User) (s : auth) : option auth :=
  match saves s !! i with
  | Some r =>
      match run_status_of r with
      | InFlight => Some (set_status i (Settled (match answer with Some me => Resolved (Some me) | None => Rejected end)) s)
      | _ => None
      end
  | None => None
  end.

Definition with_preference (u : User) (zev : option string) : User :=
  {| user_id := user_id u; username := username u; email := email u; first_name := first_name u; last_name := last_name u;
     role := role u; must_change_password := must_change_password u; preferred_zev := zev;
     has_usable_password := has_usable_password u; can_change_email := can_change_email u;
     password_recovery_expires_at := password_recovery_expires_at u; impersonated_by := impersonated_by u; memberships := memberships u; may_create_zev := may_create_zev u |}.

(** The updater passed to [setUser]. *)
Definition merge_preference (me : option User) (current : option User) : option User :=
  match current, me with
  | Some c, Some m => if (user_id c =? user_id m)%Z then Some (with_preference c (preferred_zev m)) else current
  | _, _ => current
  end.

(** The rest of [updatePreferredZev] after [await run]. *)
Definition resume (i : nat) (s : auth) : option auth :=
  match saves s !! i with
  | Some r =>
      match run_status_of r with
      | Settled res =>
          let s' := set_status i (Finished res) s in
          match res with
          | Rejected => Some s'
          | Resolved me =>
              let latest := default fresh_slot (slots s !! current_slot s) in
              if negb (bool_decide (slot_user latest = run_caller r)) || negb (slot_seq latest =? run_seq r)%nat then Some s'
              else Some (set_user (merge_preference me (user s)) s')
          end
      | _ => None
      end
  | None => None
  end.

Definition logout (s : auth) : auth := set_user None (invalidateSessionRequests s).

(** [stopImpersonation] after its request: [expired] is the error code that ends the session. *)
Definition stopped_impersonation (s : auth) : auth := start_load LoadAfterStop (set_user None (set_loading true s)).
Definition stop_failed (expired : bool) (s : auth) : auth := if expired then set_user None s else s.

Definition may_impersonate (s : auth) : bool :=
  match user s with Some u => match role u with RoleAdmin => true | RoleUser => false end | None => false end.

Inductive auth_event :=
  | EBoundary                      (* login, MFA challenge, passkey login, stopImpersonation: their first line *)
  | EImpersonate                   (* startImpersonation *)
  | ELoad                          (* the load after a session request, or refreshUser *)
  | ELoadReply (i : nat) (answer : option User)
  | EStopped | EStopFailed (expired : bool)
  | ELogout
  | ESave (callerId : option Z) (zevId : option string)
  | EDispatch (i : nat) | ESettle (i : nat) (answer : option User) | EResume (i : nat).

Definition auth_step (s : auth) (e : auth_event) : option auth :=
  match e with
  | EBoundary => Some (invalidateSessionRequests s)
  | EImpersonate => if may_impersonate s then Some (invalidateSessionRequests s) else None
  | ELoad => Some (start_load LoadSession s)
  | ELoadReply i answer => load_reply i answer s
  | EStopped => Some (stopped_impersonation s)
  | EStopFailed expired => Some (stop_failed expired s)
  | ELogout => Some (logout s)
  | ESave callerId zevId => Some (updatePreferredZev callerId zevId s)
  | EDispatch i => dispatch i s
  | ESettle i answer => settle i answer s
  | EResume i => resume i s
  end.

Fixpoint auth_run (s : auth) (es : list auth_event) : option auth :=
  match es with
  | [] => Some s
  | e :: es' => match auth_step s e with Some s' => auth_run s' es' | None => None end
  end.

(** ** How a step changes the saves *)

Definition with_status (st : run_status) (r : save_run) : save_run :=
  {| run_slot := run_slot r; run_caller := run_caller r; run_seq := run_seq r; run_zev := run_zev r; run_status_of := st |}.

Lemma saves_set_status i st s : saves (set_status i st s) = alter (with_status st) i (saves s).
Proof. reflexivity. Qed.

(** The moves of one save's status. *)
Inductive status_move (s : auth) (i : nat) (r : save_run) : run_status → Prop :=
  | move_send : run_status_of r = Queued → tail_settled i (run_slot r) s = true → run_slot r = current_slot s →
      status_move s i r InFlight
  | move_skip : run_status_of r = Queued → tail_settled i (run_slot r) s = true → run_slot r ≠ current_slot s →
      status_move s i r (Settled (Resolved None))
  | move_answer me : run_status_of r = InFlight → status_move s i r (Settled (Resolved (Some me)))
  | move_fail : run_status_of r = InFlight → status_move s i r (Settled Rejected)
  | move_finish res : run_status_of r = Settled res → status_move s i r (Finished res).

Inductive saves_change (s s' : auth) : Prop :=
  | saves_same : saves s' = saves s → saves_change s s'
  | saves_added r : run_status_of r = Queued → saves s' = (saves s ++ [r])%list → saves_change s s'
  | saves_moved i r st : saves s !! i = Some r → status_move s i r st →
      saves s' = alter (with_status st) i (saves s) → saves_change s s'.

Lemma saves_load_reply i answer s s' : load_reply i answer s = Some s' → saves s' = saves s ∧ slots s' = slots s.
Proof. unfold load_reply. cases; intros [= <-]; done. Qed.

Lemma dispatch_move i s s' :
  dispatch i s = Some s' → user s' = user s ∧ slots s' = slots s ∧
  ∃ r st, saves s !! i = Some r ∧ run_status_of r = Queued ∧ status_move s i r st
    ∧ saves s' = alter (with_status st) i (saves s).
Proof.
  unfold dispatch. destruct (saves s !! i) as [r|] eqn:Hi; [|done]. destruct (run_status_of r) eqn:Hst; try done.
  destruct (tail_settled i (run_slot r) s) eqn:Ht; [|done]. destruct (run_slot r =? current_slot s)%nat eqn:E; bool_facts;
    intros [= <-]; split_and!; try done; exists r; eexists; (split; [done|]); (split; [done|]); (split; [|reflexivity]); by constructor.
Qed.

Lemma settle_move i answer s s' :
  settle i answer s = Some s' → user s' = user s ∧ slots s' = slots s ∧
  ∃ r, saves s !! i = Some r ∧ run_status_of r = InFlight
    ∧ saves s' = alter (with_status (Settled (match answer with Some me => Resolved (Some me) | None => Rejected end))) i (saves s).
Proof.
  unfold settle. destruct (saves s !! i) as [r|] eqn:Hi; [|done]. destruct (run_status_of r) eqn:Hst; try done.
  intros [= <-]. split_and!; [done|done|]. by exists r.
Qed.

Lemma resume_move i s s' :
  resume i s = Some s' → slots s' = slots s ∧
  ∃ r res, saves s !! i = Some r ∧ run_status_of r = Settled res ∧ saves s' = alter (with_status (Finished res)) i (saves s)
    ∧ user s' = match res with
                | Resolved me =>
                    let latest := default fresh_slot (slots s !! current_slot s) in
                    if bool_decide (slot_user latest = run_caller r) && (slot_seq latest =? run_seq r)%nat
                    then merge_preference me (user s) else user s
                | Rejected => user s
                end.
Proof.
  unfold resume. destruct (saves s !! i) as [r|] eqn:Hi; [|done]. destruct (run_status_of r) as [| |res|] eqn:Hst; try done.
  intros H. destruct res as [me|]; simpl in H.
  - destruct (bool_decide (slot_user _ = _)) eqn:B, (slot_seq _ =? run_seq r)%nat eqn:E; simpl in H; simplify_eq;
      (split; [done|]); exists r, (Resolved me); cbn zeta; rewrite B, E; done.
  - simplify_eq. split; [done|]. by exists r, Rejected.
Qed.

Lemma auth_step_saves s e s' : auth_step s e = Some s' → saves_change s s'.
Proof.
  destruct e; simpl; intros H; try (simplify_eq; by apply saves_same).
  - destruct (may_impersonate s); simplify_eq. by apply saves_same.
  - apply saves_load_reply in H as [H _]. by apply saves_same.
  - destruct expired; simplify_eq; by apply saves_same.
  - simplify_eq. eapply saves_added; [|reflexivity]. done.
  - apply dispatch_move in H as (_ & _ & r & st & Hi & _ & Hm & E). by eapply saves_moved.
  - apply settle_move in H as (_ & _ & r & Hi & Hr & E). eapply saves_moved; [done| |done].
    destruct answer; by constructor.
  - apply resume_move in H as (_ & r & res & Hi & Hr & E & _). eapply saves_moved; [done| |done]. by constructor.
Qed.

(** ** Saves are sent one at a time *)

Definition serialized (s : auth) : Prop :=
  ∀ i j ri rj, (i < j)%nat → saves s !! i = Some ri → saves s !! j = Some rj → run_slot ri = run_slot rj →
    run_status_of rj ≠ Queued → is_done ri = true.

Lemma moved_lookup s i j r st x :
  saves s !! i = Some r → alter (with_status st) i (saves s) !! j = Some x →
  (j = i ∧ x = with_status st r) ∨ (j ≠ i ∧ saves s !! j = Some x).
Proof.
  intros Hi H. destruct (decide (j = i)) as [->|Hne].
  - left. rewrite list_lookup_alter_eq, Hi in H. simpl in H. by simplify_eq.
  - right. by rewrite list_lookup_alter_ne in H.
Qed.

Lemma tail_settled_spec i slot s :
  tail_settled i slot s = true → ∀ k r, (k < i)%nat → saves s !! k = Some r → run_slot r = slot → is_done r = true.
Proof.
  unfold tail_settled. rewrite forallb_elem. intros H k r Hk Hr Hs.
  assert (r ∈ take i (saves s)) as Hin by (apply list_elem_of_lookup; exists k; by rewrite lookup_take_lt).
  apply H in Hin. apply orb_prop in Hin as [Hin|Hin]; [|done]. bool_facts. congruence.
Qed.

Lemma status_move_done s i r st : status_move s i r st → is_done r = true → is_done (with_status st r) = true.
Proof. unfold is_done. destruct 1 as [E|E|me E|E|res E]; by rewrite E. Qed.

Lemma step_serialized s e s' : serialized s → auth_step s e = Some s' → serialized s'.
Proof.
  intros Hs Hstep. destruct (auth_step_saves _ _ _ Hstep) as [E|r Hq E|k r st Hk Hm E]; unfold serialized; rewrite E.
  - exact Hs.
  - intros i j ri rj Hij Hi Hj. assert (i < length (saves s))%nat as Hl.
    { apply lookup_lt_Some in Hj. rewrite length_app in Hj. simpl in Hj. lia. }
    rewrite lookup_app_l in Hi by done. destruct (decide (j < length (saves s))%nat).
    + rewrite lookup_app_l in Hj by done. by apply (Hs i j ri rj).
    + intros _ Hnq. rewrite lookup_app_r in Hj by lia.
      destruct (j - length (saves s))%nat as [|m] eqn:Em; simpl in Hj; [|by rewrite lookup_nil in Hj].
      injection Hj as <-. by destruct Hnq.
  - intros i j ri rj Hij Hi Hj Hslot Hnq.
    apply (moved_lookup _ _ _ _ _ _ Hk) in Hi as [[-> ->]|[Hni Hi]];
      apply (moved_lookup _ _ _ _ _ _ Hk) in Hj as [[-> ->]|[Hnj Hj]].
    + lia.
    + eapply status_move_done; [done|]. by apply (Hs k j r rj).
    + simpl in *. assert (tail_settled k (run_slot r) s = true ∨ run_status_of r ≠ Queued) as [Ht|Hnq'].
      { destruct Hm as [? ?|? ?|? E'|E'|? E']; [by left|by left|right; congruence..]. }
      * by apply (tail_settled_spec _ _ _ Ht i).
      * by apply (Hs i k ri r).
    + by apply (Hs i j ri rj).
Qed.

Lemma run_serialized es s s' : serialized s → auth_run s es = Some s' → serialized s'.
Proof.
  revert s. induction es as [|e es IH]; intros s Hs; simpl; [by intros [= <-]|].
  destruct (auth_step s e) as [s1|] eqn:E; [|done]. apply IH. by eapply step_serialized.
Qed.

(** C3. In every reachable state a slot has at most one save in flight; a save is
    sent only while its slot is still the session's and after every earlier one
    of the slot has an answer; and finishing a save changes nothing but the
    preference of the account the answer names. *)
Theorem saves_serialized es s :
  auth_run auth_init es = Some s →
  (∀ i j ri rj, saves s !! i = Some ri → saves s !! j = Some rj → run_slot ri = run_slot rj →
     run_status_of ri = InFlight → run_status_of rj = InFlight → i = j)
  ∧ (∀ e s' i r r', auth_step s e = Some s' → saves s !! i = Some r → saves s' !! i = Some r' →
       run_status_of r ≠ InFlight → run_status_of r' = InFlight →
       run_slot r = current_slot s
       ∧ ∀ k rk, (k < i)%nat → saves s !! k = Some rk → run_slot rk = run_slot r → is_done rk = true)
  ∧ (∀ i s', auth_step s (EResume i) = Some s' →
       user s' = user s ∨ ∃ u me, user s = Some u ∧ user_id u = user_id me ∧ user s' = Some (with_preference u (preferred_zev me))).
Proof.
  intros Hrun. assert (serialized s) as Hs.
  { eapply run_serialized; [|done]. intros i j ri rj _ Hi. change (saves auth_init) with (@nil save_run) in Hi.
    by rewrite lookup_nil in Hi. }
  split_and!.
  - assert (∀ i j ri rj, (i < j)%nat → saves s !! i = Some ri → saves s !! j = Some rj → run_slot ri = run_slot rj →
      run_status_of ri = InFlight → run_status_of rj = InFlight → False) as Hlt.
    { intros i j ri rj Hij Hi Hj Hslot Ei Ej. assert (is_done ri = true) as Hd by (apply (Hs i j ri rj); congruence).
      unfold is_done in Hd. by rewrite Ei in Hd. }
    intros i j ri rj Hi Hj Hslot Ei Ej. destruct (Nat.lt_trichotomy i j) as [L|[L|L]]; [|done|]; exfalso; eauto.
  - intros e s' i r r' Hstep Hi Hi' Hn Hf.
    destruct (auth_step_saves _ _ _ Hstep) as [E|q Hq E|k q st Hk Hm E]; rewrite E in Hi'.
    + congruence.
    + rewrite lookup_app_l in Hi' by by apply lookup_lt_Some in Hi. congruence.
    + apply (moved_lookup _ _ _ _ _ _ Hk) in Hi' as [[-> ->]|[_ Hi']]; [|congruence].
      simplify_eq. simpl in Hf. destruct Hm; try done. split; [done|]. by apply tail_settled_spec.
  - intros i s' Hstep. simpl in Hstep. apply resume_move in Hstep as (_ & r & res & _ & _ & _ & ->).
    destruct res as [me|]; [|by left]. cbn zeta. destruct (_ && _); [|by left].
    unfold merge_preference. destruct (user s) as [u|]; [|by left]. destruct me as [m|]; [|by left].
    destruct (user_id u =? user_id m)%Z eqn:E; [|by left]. bool_facts. right. by exists u, m.
Qed.

(** ** Within one session the last save wins *)

(** Events of an undisturbed session of account [id]: its saves, and a server
    that answers a save with the account and the preference it stored. *)
Definition quiet_event (id : Z) (s : auth) (e : auth_event) : Prop :=
  match e with
  | ESave callerId _ => callerId = Some id
  | EDispatch _ | EResume _ => True
  | ESettle i answer => ∀ me r, answer = Some me → saves s !! i = Some r → user_id me = id ∧ preferred_zev me = run_zev r
  | _ => False
  end.

Definition quiet (id : Z) (s s' : auth) : Prop := ∃ e, quiet_event id s e ∧ auth_step s e = Some s'.

Definition unfinished (r : save_run) : bool := match run_status_of r with Finished _ => false | _ => true end.

Definition answer_of (r : save_run) : option save_result :=
  match run_status_of r with Settled res | Finished res => Some res | _ => None end.

(** The invariant of such a session; the saves from position [n] on are its own. *)
Record quiet_inv (id : Z) (n : nat) (s : auth) : Prop := {
  qi_user : ∃ u, user s = Some u ∧ user_id u = id;
  qi_slots : slots s ≠ [];
  qi_length : (n <= length (saves s))%nat;
  qi_old : ∀ i r, (i < n)%nat → saves s !! i = Some r → unfinished r = false;
  qi_own : ∀ i r, (n <= i)%nat → saves s !! i = Some r → run_slot r = current_slot s ∧ run_caller r = Some id;
  qi_seq : ∀ i r, (n <= i)%nat → saves s !! i = Some r →
    ∃ slot, slots s !! current_slot s = Some slot ∧ slot_user slot = Some id
      ∧ (run_seq r + (length (saves s) - S i) = slot_seq slot)%nat;
  qi_answer : ∀ i r me, (n <= i)%nat → saves s !! i = Some r → answer_of r = Some (Resolved me) →
    ∃ m, me = Some m ∧ user_id m = id ∧ preferred_zev m = run_zev r;
  qi_last : ∀ r me, (n < length (saves s))%nat → saves s !! (length (saves s) - 1)%nat = Some r →
    run_status_of r = Finished (Resolved me) → preferred_zev <$> user s = Some (run_zev r);
}.

(** A move of one save's status that leaves the account as it is. *)
Lemma quiet_inv_move id n s s' i r st :
  quiet_inv id n s → saves s !! i = Some r → unfinished r = true → status_move s i r st →
  saves s' = alter (with_status st) i (saves s) → slots s' = slots s →
  (∃ u, user s' = Some u ∧ user_id u = id) →
  (∀ me, st = Settled (Resolved (Some me)) → user_id me = id ∧ preferred_zev me = run_zev r) →
  (if decide (i = (length (saves s) - 1)%nat)
   then ∀ me, st = Finished (Resolved me) → preferred_zev <$> user s' = Some (run_zev r)
   else user s' = user s) →
  quiet_inv id n s'.
Proof.
  intros [Hu Hsl Hlen Hold Hown Hseq Hans Hlast] Hi Hun Hm Es Esl Hu' Hst Hl.
  assert (Hni : (n <= i)%nat).
  { destruct (decide (n <= i)%nat); [done|]. rewrite (Hold i r) in Hun; [done|lia|done]. }
  assert (current_slot s' = current_slot s) as Ecur by (unfold current_slot; by rewrite Esl).
  assert (length (saves s') = length (saves s)) as El by (rewrite Es; by rewrite length_alter).
  split; [done|by rewrite Esl|by rewrite El|..].
  - intros j x Hj Hx. rewrite Es in Hx. apply (moved_lookup _ _ _ _ _ _ Hi) in Hx as [[-> ->]|[_ Hx]]; [lia|eauto].
  - intros j x Hj Hx. rewrite Ecur. rewrite Es in Hx.
    apply (moved_lookup _ _ _ _ _ _ Hi) in Hx as [[-> ->]|[_ Hx]]; [by apply (Hown i r)|eauto].
  - intros j x Hj Hx. rewrite Ecur, Esl, El. rewrite Es in Hx.
    apply (moved_lookup _ _ _ _ _ _ Hi) in Hx as [[-> ->]|[_ Hx]]; [by apply (Hseq i r)|eauto].
  - intros j x me Hj Hx Ha. rewrite Es in Hx. apply (moved_lookup _ _ _ _ _ _ Hi) in Hx as [[-> ->]|[_ Hx]]; [|eauto].
    simpl. destruct Hm as [| ? ? Hne | m ? | | res Hr]; unfold answer_of in Ha; simpl in Ha; simplify_eq.
    + destruct Hne. by apply (Hown i r).
    + exists m. split; [done|]. by apply Hst.
    + apply (Hans i r); [done..|]. unfold answer_of. by rewrite Hr.
  - intros x me Hlt Hx Hf. rewrite El in Hlt, Hx. rewrite Es in Hx.
    apply (moved_lookup _ _ _ _ _ _ Hi) in Hx as [[Ei ->]|[Hne Hx]].
    + rewrite decide_True in Hl by done. simpl in Hf |- *. by eapply Hl.
    + rewrite decide_False in Hl by done. rewrite Hl. by eapply Hlast.
Qed.

Lemma quiet_inv_save id n s zev : quiet_inv id n s → quiet_inv id n (updatePreferredZev (Some id) zev s).
Proof.
  intros [Hu Hsl Hlen Hold Hown Hseq Hans Hlast].
  assert (current_slot s < length (slots s))%nat as Hc by (unfold current_slot; destruct (slots s); [done|simpl; lia]).
  set (s' := updatePreferredZev (Some id) zev s).
  assert (current_slot s' = current_slot s) as Ecur by (unfold current_slot, s'; simpl; by rewrite length_insert).
  assert (length (saves s') = S (length (saves s))) as El by (unfold s'; simpl; rewrite length_app; simpl; lia).
  assert (∀ j x, saves s' !! j = Some x → (j = length (saves s) ∧ run_status_of x = Queued ∧ run_slot x = current_slot s
      ∧ run_caller x = Some id ∧ run_seq x = S (if bool_decide (slot_user (default fresh_slot (slots s !! current_slot s)) = Some id)
          then slot_seq (default fresh_slot (slots s !! current_slot s)) else 0%nat)) ∨ saves s !! j = Some x) as Hlook.
  { intros j x Hx. unfold s' in Hx. simpl in Hx. apply lookup_app_Some in Hx as [Hx|[Hge Hx]]; [by right|left].
    destruct (j - length (saves s))%nat as [|m] eqn:Em; simpl in Hx; [|by rewrite lookup_nil in Hx].
    injection Hx as <-. split_and!; try done. lia. }
  split.
  - exact Hu.
  - unfold s'. simpl. intros E. apply (f_equal length) in E. rewrite length_insert in E. simpl in E. lia.
  - lia.
  - intros j x Hj Hx. apply Hlook in Hx as [(-> & _)|Hx]; [lia|eauto].
  - intros j x Hj Hx. rewrite Ecur. apply Hlook in Hx as [(_ & _ & ? & ? & _)|Hx]; [done|eauto].
  - intros j x Hj Hx. rewrite Ecur, El. unfold s'. simpl. eexists. split; [by apply list_lookup_insert_eq|]. simpl. split; [done|].
    apply Hlook in Hx as [(-> & _ & _ & _ & ->)|Hx]; [lia|].
    destruct (Hseq j x Hj Hx) as (slot & -> & Hsu & Hsq). simpl. rewrite Hsu, bool_decide_true by done.
    apply lookup_lt_Some in Hx. lia.
  - intros j x me Hj Hx Ha. apply Hlook in Hx as [(_ & Hq & _)|Hx]; [|eauto]. unfold answer_of in Ha. by rewrite Hq in Ha.
  - intros x me _ Hx Hf. rewrite El in Hx. apply Hlook in Hx as [(_ & Hq & _)|Hx]; [congruence|].
    apply lookup_lt_Some in Hx. lia.
Qed.

Lemma quiet_inv_step id n s s' : quiet_inv id n s → quiet id s s' → quiet_inv id n s'.
Proof.
  intros Hinv ([]& Hq & Hstep); simpl in Hq; try done.
  - simplify_eq. simpl in Hstep. simplify_eq. by apply quiet_inv_save.
  - simpl in Hstep. apply dispatch_move in Hstep as (Eu & Es & r & st & Hi & Hr & Hm & E).
    eapply (quiet_inv_move _ _ _ _ _ _ _ Hinv Hi); [by unfold unfinished; rewrite Hr|done|done|done|by rewrite Eu; apply Hinv| |].
    + intros me ->. inversion Hm; congruence.
    + destruct (decide _); [|done]. intros me ->. inversion Hm; congruence.
  - simpl in Hstep. apply settle_move in Hstep as (Eu & Es & r & Hi & Hr & E).
    eapply (quiet_inv_move _ _ _ _ _ _ _ Hinv Hi); [by unfold unfinished; rewrite Hr| |done|done|by rewrite Eu; apply Hinv| |].
    + destruct answer; by constructor.
    + intros me Em. destruct answer as [m|]; [|done]. injection Em as ->. by apply Hq.
    + destruct (decide _); [|done]. by intros me Em.
  - simpl in Hstep. apply resume_move in Hstep as (Es & r & res & Hi & Hr & E & Eu).
    assert (unfinished r = true) as Hun by (unfold unfinished; by rewrite Hr).
    assert (n <= i)%nat as Hni.
    { destruct (decide (n <= i)%nat); [done|]. rewrite (qi_old _ _ _ Hinv i r) in Hun; [done|lia|done]. }
    destruct (qi_seq _ _ _ Hinv i r Hni Hi) as (slot & Hslot & Hsu & Hsq).
    destruct (qi_own _ _ _ Hinv i r Hni Hi) as [_ Hcaller]. destruct (qi_user _ _ _ Hinv) as (u & Hu & Hid).
    rewrite Hslot in Eu. simpl in Eu. rewrite Hsu, Hcaller, bool_decide_true in Eu by done. simpl in Eu.
    apply lookup_lt_Some in Hi as Hlt.
    assert (slot_seq slot =? run_seq r = bool_decide (i = length (saves s) - 1))%nat as Eseq.
    { destruct (bool_decide_reflect (i = (length (saves s) - 1)%nat)); [apply Nat.eqb_eq|apply Nat.eqb_neq]; lia. }
    rewrite Eseq in Eu.
    assert (∀ me, res = Resolved me → ∃ m, me = Some m ∧ user_id m = id ∧ preferred_zev m = run_zev r) as Hres.
    { intros me ->. apply (qi_answer _ _ _ Hinv i r); [done..|]. unfold answer_of. by rewrite Hr. }
    eapply (quiet_inv_move _ _ _ _ _ _ _ Hinv Hi Hun); [by constructor|done|done| |done|].
    + destruct res as [me|]; [|by rewrite Eu; exists u]. destruct (bool_decide _); [|by rewrite Eu; exists u].
      destruct (Hres me eq_refl) as (m & -> & Hmid & _). rewrite Hu in Eu. simpl in Eu.
      rewrite Hid, Hmid, Z.eqb_refl in Eu. rewrite Eu. by eexists.
    + destruct (decide _) as [Ei|Ei].
      * intros me [= ->]. destruct (Hres me eq_refl) as (m & -> & Hmid & Hmz). rewrite bool_decide_true, Hu in Eu by done.
        simpl in Eu. rewrite Hid, Hmid, Z.eqb_refl in Eu. rewrite Eu. simpl. by rewrite Hmz.
      * rewrite bool_decide_false in Eu by done. by destruct res.
Qed.

Lemma quiet_inv_run id n s s' : quiet_inv id n s → rtc (quiet id) s s' → quiet_inv id n s'.
Proof. intros H Hr. revert H. induction Hr as [|s s1 s' Hs _ IH]; [done|]. intros H. by apply IH, (quiet_inv_step _ _ s). Qed.

Lemma quiet_init id s u :
  slots s ≠ [] → (∀ r, r ∈ saves s → unfinished r = false) → user s = Some u → user_id u = id →
  quiet_inv id (length (saves s)) s.
Proof.
  intros Hs Hold Hu Hid. split; [by exists u|done|lia|..].
  - intros i r _ Hr. apply Hold. by eapply list_elem_of_lookup_2.
  - intros i r Hi Hr%lookup_lt_Some. lia.
  - intros i r Hi Hr%lookup_lt_Some. lia.
  - intros i r me Hi Hr%lookup_lt_Some. lia.
  - intros. lia.
Qed.

(** Some save that is not finished can always take its next step. *)
Lemma quiet_progress id n s :
  quiet_inv id n s → (∃ r, r ∈ saves s ∧ unfinished r = true) → ∃ s', quiet id s s'.
Proof.
  intros Hinv (r0 & Hr0 & Hun0).
  assert (∃ i r, saves s !! i = Some r ∧ unfinished r = true ∧ ∀ k rk, (k < i)%nat → saves s !! k = Some rk → unfinished rk = false)
    as (i & r & Hi & Hun & Hmin).
  { clear Hinv. revert Hr0. generalize (saves s) as l. induction l as [|x l IH]; intros H; [by apply elem_of_nil in H|].
    destruct (unfinished x) eqn:Ex.
    - exists 0%nat, x. split_and!; [done|done|]. intros k rk Hk. lia.
    - apply elem_of_cons in H as [->|H]; [congruence|]. destruct (IH H) as (i & r & Hi & Hu & Hm).
      exists (S i), r. split_and!; [done|done|]. intros [|k] rk Hk Hl; [by injection Hl as <-|]. apply (Hm k); [lia|done]. }
  unfold unfinished in Hun. destruct (run_status_of r) as [| |res|] eqn:Hst; [| | |done].
  - assert (tail_settled i (run_slot r) s = true) as Ht.
    { unfold tail_settled. apply forallb_elem. intros x (k & Hk)%list_elem_of_lookup.
      apply lookup_take_Some in Hk as [Hk Hlt]. apply orb_true_intro. right.
      specialize (Hmin k x Hlt Hk). unfold unfinished in Hmin. unfold is_done.
      destruct (run_status_of x); done. }
    eexists. exists (EDispatch i). split; [done|]. simpl. unfold dispatch. by rewrite Hi, Hst, Ht.
  - eexists. exists (ESettle i None). split; [by intros ? ? [=]|]. simpl. unfold settle. by rewrite Hi, Hst.
  - assert (∃ s', resume i s = Some s') as (s' & Hs').
    { unfold resume. rewrite Hi, Hst. cbn zeta. destruct res; [destruct (_ || _)|]; by eexists. }
    exists s'. by exists (EResume i).
Qed.

(** C2. An account saves its default community any number of times within one
    session, the saves and the answers interleaving freely: once the last save
    has its answer the account shows the last community asked for, and while a
    save is open some step is always possible. *)
Theorem last_save_wins id s s' u :
  slots s ≠ [] → (∀ r, r ∈ saves s → unfinished r = false) → user s = Some u → user_id u = id →
  rtc (quiet id) s s' →
  (∀ r me, last (drop (length (saves s)) (saves s')) = Some r → run_status_of r = Finished (Resolved me) →
     preferred_zev <$> user s' = Some (run_zev r))
  ∧ ((∃ r, r ∈ saves s' ∧ unfinished r = true) → ∃ s'', quiet id s' s'').
Proof.
  intros Hs Hold Hu Hid Hr. pose proof (quiet_inv_run _ _ _ _ (quiet_init id s u Hs Hold Hu Hid) Hr) as Hinv.
  split; [|by apply (quiet_progress id (length (saves s)))]. intros r me Hl Hf.
  rewrite last_lookup, lookup_drop, length_drop in Hl. apply lookup_lt_Some in Hl as Hlt.
  apply (qi_last _ _ _ Hinv r me); [lia| |done]. rewrite <- Hl. f_equal. lia.
Qed.

(** ** Concrete sessions *)

Definition prefers (zev : option string) : User := with_preference sample_user zev.

(** Two saves of one session, the second asked for before the first is sent. *)
Definition two_saves : list auth_event :=
  [ELoadReply 0 (Some sample_user); ESave (Some 7%Z) (Some "z1"); ESave (Some 7%Z) (Some "z0");
   EDispatch 0; ESettle 0 (Some (prefers (Some "z1"))); EDispatch 1; EResume 0; ESettle 1 (Some (prefers (Some "z0"))); EResume 1].

Lemma saves_serialized_witness :
  ∃ s, auth_run auth_init two_saves = Some s ∧ preferred_zev <$> user s = Some (Some "z0")
    ∧ (∀ i j ri rj, saves s !! i = Some ri → saves s !! j = Some rj → run_slot ri = run_slot rj →
         run_status_of ri = InFlight → run_status_of rj = InFlight → i = j).
Proof.
  eexists. split; [vm_compute; reflexivity|]. split; [reflexivity|].
  exact (proj1 (saves_serialized two_saves _ eq_refl)).
Defined.

Definition signed_in : auth := default auth_init (auth_run auth_init [ELoadReply 0 (Some sample_user)]).
Definition after_two_saves : auth := default auth_init (auth_run auth_init two_saves).

Lemma last_save_wins_witness :
  rtc (quiet 7) signed_in after_two_saves ∧ length (saves after_two_saves) = 2
  ∧ ∀ r me, last (drop (length (saves signed_in)) (saves after_two_saves)) = Some r →
      run_status_of r = Finished (Resolved me) → preferred_zev <$> user after_two_saves = Some (run_zev r).
Proof.
  assert (rtc (quiet 7) signed_in after_two_saves) as Hr.
  { eapply rtc_l; [exists (ESave (Some 7%Z) (Some "z1")); split; [reflexivity|vm_compute; reflexivity]|].
    eapply rtc_l; [exists (ESave (Some 7%Z) (Some "z0")); split; [reflexivity|vm_compute; reflexivity]|].
    eapply rtc_l; [exists (EDispatch 0); split; [exact I|vm_compute; reflexivity]|].
    eapply rtc_l; [exists (ESettle 0 (Some (prefers (Some "z1")))); split; [|vm_compute; reflexivity]|].
    { intros me r [= <-] [= <-]. split; reflexivity. }
    eapply rtc_l; [exists (EDispatch 1); split; [exact I|vm_compute; reflexivity]|].
    eapply rtc_l; [exists (EResume 0); split; [exact I|vm_compute; reflexivity]|].
    eapply rtc_l; [exists (ESettle 1 (Some (prefers (Some "z0")))); split; [|vm_compute; reflexivity]|].
    { intros me r [= <-] [= <-]. split; reflexivity. }
    eapply rtc_l; [exists (EResume 1); split; [exact I|vm_compute; reflexivity]|].
    vm_compute. apply rtc_refl. }
  split; [exact Hr|]. split; [reflexivity|].
  assert (∀ r, r ∈ saves signed_in → unfinished r = false) as Hold
    by (intros r Hin; change (saves signed_in) with (@nil save_run) in Hin; by apply elem_of_nil in Hin).
  exact (proj1 (last_save_wins 7 signed_in after_two_saves sample_user ltac:(discriminate) Hold eq_refl eq_refl Hr)).
Defined.

(** Across a session boundary the guard of [resume] is not enough: it compares
    the account and the sequence number with those of the current slot, and a
    new session of the same account counts from one again.  A save in flight at
    logout, answered after the account signed in again and saved once, is
    merged: the account shows the old session's community while its own save of
    another one is still on its way. *)
Definition stale_save : list auth_event :=
  [ELoadReply 0 (Some sample_user); ESave (Some 7%Z) (Some "z0"); EDispatch 0;
   ELogout; EBoundary; ELoad; ELoadReply 1 (Some sample_user); ESave (Some 7%Z) (Some "z1"); EDispatch 1;
   ESettle 0 (Some (prefers (Some "z0"))); EResume 0].

Lemma stale_save_is_merged :
  ∃ s, auth_run auth_init stale_save = Some s
    ∧ run_slot <$> saves s !! 0 = Some 0 ∧ current_slot s = 2
    ∧ preferred_zev <$> user s = Some (Some "z0")
    ∧ preferred_zev <$> (auth_run auth_init (take 9 stale_save) ≫= user) = Some (Some "z1").
Proof. eexists. split; [vm_compute; reflexivity|]. vm_compute. auto. Qed.
