(* ===== verification/InvoiceTypes.v ===== *)
(** The invoice records of the API (frontend/src/types/api.ts): amounts are the
    decimal texts the server sends, an optional field is absent or [null]. *)

From S2P Require Import Prelude Json.
Local Open Scope string_scope.

Inductive InvoicePdfStatus := PdfNone | PdfPending | PdfReady | PdfFailed.
Inductive EmailStatus := EmailPending | EmailSent | EmailFailed.
Inductive InvoiceItemCategory := CatEnergy | CatGridFees | CatLevies | CatMetering | CatOther.
Inductive PartyKind := KindPerson | KindOrganisation.
#[export] Instance InvoicePdfStatus_eq_dec : EqDecision InvoicePdfStatus.
Proof. solve_decision. Defined.
#[export] Instance EmailStatus_eq_dec : EqDecision EmailStatus.
Proof. solve_decision. Defined.
#[export] Instance InvoiceItemCategory_eq_dec : EqDecision InvoiceItemCategory.
Proof. solve_decision. Defined.

Record InvoiceReadingImpact := {
  impact_id : string; import_log : option string; evidence : list (string * json); impact_created_at : string;
  resolution : string; resolved_at : option string;
}.

Record InvoiceRef := { ref_id : string; ref_number : string }.

(** A credit note's part set against an invoice, seen from the invoice. *)
Record InvoiceCreditApplication := {
  application_id : string; application_credit : string; application_credit_number : string;
  credit_source_invoice : option string; credit_source_invoice_number : option string;
  application_amount_chf : string; application_released_at : option string;
}.

(** The same part, seen from the credit. *)
Record CreditApplication := {
  use_id : string; use_invoice : string; use_invoice_number : string; use_amount_chf : string; use_released_at : option string;
}.

Inductive CreditKind := CreditReversal | CreditAdjustment.
Inductive CreditStatus := CreditOpen | CreditUsed | CreditRefunded.
#[export] Instance CreditStatus_eq_dec : EqDecision CreditStatus.
Proof. solve_decision. Defined.

Record Credit := {
  credit_id : string; credit_number : string; credit_zev : string; credit_participant : string;
  credit_participant_name : string; credit_kind : CreditKind; source_invoice : option string;
  source_invoice_number : option string; credit_reason : string; credit_amount_chf : string; credit_vat_mode : string;
  credit_vat_rate : string; credit_vat_chf : string; embedded_vat_chf : option string; credit_rounding_chf : string;
  remaining_chf : string; refunded_chf : string; refunded_on : option string; refund_note : string;
  credit_status : CreditStatus; applications : list CreditApplication; credit_pdf_url : option string;
  credit_pdf_status : InvoicePdfStatus; credit_created_by_name : option string; credit_created_at : string;
}.

Record Payment := {
  payment_id : string; payment_invoice : string; payment_amount_chf : string; paid_on : string; payment_note : string;
  payment_source : string; payment_created_by_name : option string; payment_created_at : string;
}.

Record InvoiceAccessLink := { link_prefix : string; link_created_at : string; link_last_used_at : option string }.

Record InvoiceItem := {
  item_id : string; item_type : string; tariff_category : InvoiceItemCategory; item_description : string;
  quantity_kwh : string; item_unit : string; unit_price_chf : string; item_total_chf : string; sort_order : Z;
}.

Record EmailLog := {
  log_id : string; log_invoice : string; recipient : string; log_subject : string; log_status : EmailStatus;
  log_error_message : option string; log_sent_at : option string; log_created_at : string;
}.

Record Invoice := {
  invoice_id : string; invoice_number : string; invoice_zev : string; invoice_zev_name : string;
  invoice_participant : string; invoice_participant_name : string; invoice_period_start : string; invoice_period_end : string;
  due_date : option string; subtotal_chf : option string; vat_rate : option string; vat_base_chf : option string;
  vat_chf : option string; rounding_chf : option string; total_chf : string; credit_applied_chf : option string;
  due_rounding_chf : option string; amount_due_chf : option string; total_local_kwh : option string;
  total_grid_kwh : option string; total_feed_in_kwh : option string; total_local_sold_kwh : option string;
  local_sale_chf : option string; local_sale_feed_in_chf : option string; status : string; sent_at : option string;
  approved_at : option string; paid_chf : option string; outstanding_chf : option string; payments : option (list Payment);
  credits : option (list Credit); credit_applications : option (list InvoiceCreditApplication);
  replaces : option (list InvoiceRef); replaced_by : option InvoiceRef; pdf_url : option string;
  pdf_status : option InvoicePdfStatus; last_email_status : option EmailStatus; items : option (list InvoiceItem);
  email_logs : option (list EmailLog); access_link : option InvoiceAccessLink; last_email_log_id : option string;
  needs_data_review : option bool; open_data_impact_count : option Z; data_impacts : option (list InvoiceReadingImpact);
}.

Inductive EligibilityState := Eligible | Covered | Blocked.
#[export] Instance EligibilityState_eq_dec : EqDecision EligibilityState.
Proof. solve_decision. Defined.

Record GenerationEligibility := {
  eligibility_state : EligibilityState; eligibility_invoice_id : option string; eligibility_invoice_number : option string;
}.

Record InvoicePeriodParticipantRow := {
  participant_id : string; participant_name : string; participant_email : option string; participant_kind : PartyKind;
  participant_name_addition : string; participant_valid_from : string; participant_valid_to : option string;
  party_id : string; metering_point_labels : list string; invoice : option Invoice;
  generation_eligibility : option GenerationEligibility; metering_data_complete : bool; metering_points_total : Z;
  metering_points_with_data : Z; missing_meter_ids : list string; missing_meter_details : option (list (string * Z));
}.

(** A draft with nothing recorded on it, and a row that has none yet. *)
Definition draft_invoice : Invoice :=
  {| invoice_id := "i1"; invoice_number := "R-1"; invoice_zev := "z1"; invoice_zev_name := "Sonne"; invoice_participant := "p1";
     invoice_participant_name := "Mia"; invoice_period_start := "2026-01-01"; invoice_period_end := "2026-03-31";
     due_date := None; subtotal_chf := None; vat_rate := None; vat_base_chf := None; vat_chf := None; rounding_chf := None;
     total_chf := "120.00"; credit_applied_chf := None; due_rounding_chf := None; amount_due_chf := None; total_local_kwh := None;
     total_grid_kwh := None; total_feed_in_kwh := None; total_local_sold_kwh := None; local_sale_chf := None;
     local_sale_feed_in_chf := None; status := "draft"; sent_at := None; approved_at := None; paid_chf := None;
     outstanding_chf := None; payments := None; credits := None; credit_applications := None; replaces := None;
     replaced_by := None; pdf_url := None; pdf_status := None; last_email_status := None; items := None; email_logs := None;
     access_link := None; last_email_log_id := None; needs_data_review := None; open_data_impact_count := None; data_impacts := None |}.

Definition sample_row : InvoicePeriodParticipantRow :=
  {| participant_id := "p1"; participant_name := "Mia"; participant_email := Some "mia@example.ch"; participant_kind := KindPerson;
     participant_name_addition := ""; participant_valid_from := "2025-01-01"; participant_valid_to := None; party_id := "y1";
     metering_point_labels := ["Flat 1"]; invoice := Some draft_invoice; generation_eligibility := None;
     metering_data_complete := false; metering_points_total := 2; metering_points_with_data := 1; missing_meter_ids := ["m2"];
     missing_meter_details := None |}.
