(* ===== verification/Invoices.v ===== *)
(** Invoice workflow: credits and payments (features/invoices/invoiceCredits.ts,
    invoiceStatus.ts), the state of a period's rows (invoiceRowState.ts,
    invoiceRowFilters.ts, invoiceRowText.ts, emailLogs.ts), the watch over
    pending PDFs (pdfWatch.ts) and the grouping of a public invoice
    (features/publicInvoice/grouping.ts), all under frontend/src/. *)

From S2P Require Import Prelude JsString JsNumber JsDate InvoiceTypes.
Local Open Scope string_scope.

(** ** Amounts *)

(** [Number(value ?? 0)]. *)
Definition number_or_zero (value : option string) : num :=
  match value with Some s => to_number s | None => of_Z 0 end.

Definition sum_amounts {A} (amount : A → string) (l : list A) : num :=
  foldl (λ sum x, num_add sum (to_number (amount x))) (of_Z 0) l.

(** [Math.round(x * 100) / 100]. *)
Definition round_rappen (x : num) : num := num_div (math_round (num_mul x (of_Z 100))) (of_Z 100).

Definition creditableChf (invoice : Invoice) : num :=
  let credited := sum_amounts credit_amount_chf (default [] (credits invoice)) in
  math_max (of_Z 0) (round_rappen (num_sub (number_or_zero (paid_chf invoice)) credited)).

Definition appliedCreditChf (invoice : Invoice) : num :=
  round_rappen (sum_amounts application_amount_chf
    (bfilter (λ a, bool_decide (application_released_at a = None)) (default [] (credit_applications invoice)))).

Definition isCorrectable (invoice : Invoice) : bool :=
  let received := number_or_zero (paid_chf invoice) in
  let eligible := String.eqb (status invoice) "paid" || (String.eqb (status invoice) "sent" && num_gt received (of_Z 0)) in
  eligible && num_gt (to_number (total_chf invoice)) (of_Z 0).

Definition canCorrectInvoice (invoice : Invoice) (canManage : bool) : bool :=
  if negb canManage || negb (isCorrectable invoice) then false
  else num_gt (creditableChf invoice) (of_Z 0) || num_gt (appliedCreditChf invoice) (of_Z 0).

Definition canAdjustInvoice (invoice : Invoice) (canManage : bool) : bool :=
  canManage && isCorrectable invoice && num_gt (creditableChf invoice) (of_Z 0).

Definition amountDueChf (invoice : Invoice) : num :=
  to_number (default (total_chf invoice) (amount_due_chf invoice)).

Definition canRecordPayment (invoice : Invoice) : bool :=
  String.eqb (status invoice) "sent" && num_gt (number_or_zero (outstanding_chf invoice)) (of_Z 0)
  && num_gt (amountDueChf invoice) (of_Z 0).

Definition hasCreditApplied (invoice : Invoice) : bool :=
  negb (String.eqb (status invoice) "cancelled") && num_gt (number_or_zero (credit_applied_chf invoice)) (of_Z 0)
  && negb (num_eqb (amountDueChf invoice) (to_number (total_chf invoice))).

Definition canRefundCredit (credit : Credit) (canManage : bool) : bool :=
  canManage && bool_decide (credit_status credit = CreditOpen).

Definition CREDIT_STATUS_BADGE (s : CreditStatus) : string :=
  match s with CreditOpen => "badge badge-info" | CreditUsed => "badge badge-neutral" | CreditRefunded => "badge badge-success" end.

(** ** Payment state *)

Definition OPEN_INVOICE_STATUSES : list string := ["approved"; "sent"].
Definition isOpenInvoiceStatus (s : string) : bool := existsb (String.eqb s) OPEN_INVOICE_STATUSES.

Definition isPartlyPaid (invoice : option Invoice) : bool :=
  match invoice with
  | Some i => String.eqb (status i) "sent" && negb (num_eqb (number_or_zero (paid_chf i)) (of_Z 0))
  | None => false
  end.

Inductive PaymentState := Due | Overdue | Paid.

(** The fields [paymentState] takes: each may be absent, a total too. *)
Definition paymentState (st : string) (due : option string) (outstanding total amount_due : option string) (today : string)
    : option PaymentState :=
  if String.eqb st "paid" then Some Paid
  else if negb (isOpenInvoiceStatus st) then None
  else
    let amountDue := number_or_zero (match amount_due with Some a => Some a | None => total end) in
    if negb (num_gt amountDue (of_Z 0)) then None
    else if match outstanding with Some o => num_le (to_number o) (of_Z 0) | None => false end then Some Paid
    else Some (match due with
               | Some d => if nonempty d && str_lt d today then Overdue else Due
               | None => Due
               end).

(** ** The state of a row *)

(** Newest first; both dates parse. *)
Definition newer_first (a b : EmailLog) : bool :=
  match date_parse (log_created_at a), date_parse (log_created_at b) with
  | Some x, Some y => (y - x <=? 0)%Z
  | _, _ => true
  end.

Definition getLatestEmailLog (invoice : option Invoice) : option EmailLog :=
  match invoice ≫= email_logs with
  | Some ((_ :: _) as logs) => head (sort_by newer_first logs)
  | _ => None
  end.

Definition liveInvoice (row : InvoicePeriodParticipantRow) : option Invoice :=
  match invoice row with
  | Some i => if String.eqb (status i) "cancelled" then None else Some i
  | None => None
  end.

Definition latestDeliveryStatus (invoice : option Invoice) : option EmailStatus :=
  match invoice ≫= last_email_status with
  | Some s => Some s
  | None => log_status <$> getLatestEmailLog invoice
  end.

Definition DELIVERING : list string := ["approved"; "sent"].
Definition is_delivering (i : Invoice) : bool := existsb (String.eqb (status i)) DELIVERING.

Inductive InvoiceRowIssue := IssueCorrection | IssueMetering | IssueConflict | IssuePdf | IssueDelivery | IssueNoEmail.
#[export] Instance InvoiceRowIssue_eq_dec : EqDecision InvoiceRowIssue.
Proof. solve_decision. Defined.

(** An absent flag is false. *)
Record InvoiceRowWork := { generating : bool; pdfPending : bool; sending : bool }.
Definition no_work : InvoiceRowWork := {| generating := false; pdfPending := false; sending := false |}.

Definition settledWithoutMeters (row : InvoicePeriodParticipantRow) (invoice : option Invoice) : bool :=
  (metering_points_total row =? 0)%Z
  && match invoice with Some i => existsb (String.eqb (status i)) ["sent"; "paid"] | None => false end.

Definition isPdfPending (i : Invoice) (work : InvoiceRowWork) : bool :=
  pdfPending work || bool_decide (pdf_status i = Some PdfPending).

Definition eligibility_of (row : InvoicePeriodParticipantRow) : option EligibilityState :=
  eligibility_state <$> generation_eligibility row.

Definition issue_if (b : bool) (x : InvoiceRowIssue) : list InvoiceRowIssue := if b then [x] else [].

Definition invoiceRowIssues (row : InvoicePeriodParticipantRow) (work : InvoiceRowWork) : list InvoiceRowIssue :=
  let invoice := liveInvoice row in
  let on_invoice f := match invoice with Some i => f i | None => false end in
  issue_if (on_invoice (λ i, default false (needs_data_review i))) IssueCorrection
  ++ issue_if (negb (metering_data_complete row) && negb (settledWithoutMeters row invoice)) IssueMetering
  ++ issue_if (negb (on_invoice (λ _, true)) && bool_decide (eligibility_of row = Some Blocked)) IssueConflict
  ++ issue_if (on_invoice (λ i, bool_decide (pdf_status i = Some PdfFailed) && negb (truthy_str (pdf_url i)) && negb (isPdfPending i work))) IssuePdf
  ++ issue_if (on_invoice is_delivering && bool_decide (latestDeliveryStatus invoice = Some EmailFailed) && negb (sending work)) IssueDelivery
  ++ issue_if (on_invoice (λ i, String.eqb (status i) "approved") && negb (truthy_str (participant_email row))) IssueNoEmail.

Inductive InvoiceProgressStep := StepMetering | StepInvoice | StepApproved | StepSent | StepPaid.
#[export] Instance InvoiceProgressStep_eq_dec : EqDecision InvoiceProgressStep.
Proof. solve_decision. Defined.
Definition INVOICE_PROGRESS_STEPS : list InvoiceProgressStep := [StepMetering; StepInvoice; StepApproved; StepSent; StepPaid].

Inductive InvoiceStepState := StateDone | StateOpen | StateActive | StateIssue.
#[export] Instance InvoiceStepState_eq_dec : EqDecision InvoiceStepState.
Proof. solve_decision. Defined.

Inductive InvoiceStepReason :=
  | ReasonIssue (issue : InvoiceRowIssue) | ReasonGenerating | ReasonPdfPending | ReasonSending | ReasonNoMeters | ReasonPartlyPaid.
#[export] Instance InvoiceStepReason_eq_dec : EqDecision InvoiceStepReason.
Proof. solve_decision. Defined.

Record InvoiceRowStep := { step : InvoiceProgressStep; state : InvoiceStepState; reason : option InvoiceStepReason }.

Definition STATUS_ORDER : list string := ["draft"; "approved"; "sent"; "paid"].

(** [STATUS_ORDER.indexOf(status)], -1 when it is not there. *)
Definition status_index (s : string) : Z :=
  match find_index (String.eqb s) STATUS_ORDER with Some n => Z.of_nat n | None => -1 end.

Definition has_issue (x : InvoiceRowIssue) (issues : list InvoiceRowIssue) : bool := bool_decide (x ∈ issues).

(** [{ state, reason }] of one step. *)
Definition shows_issue (x : InvoiceRowIssue) : InvoiceStepState * option InvoiceStepReason := (StateIssue, Some (ReasonIssue x)).
Definition done_or_open (b : bool) : InvoiceStepState * option InvoiceStepReason := (if b then StateDone else StateOpen, None).

(** [steps[s]]. *)
Definition row_step (row : InvoicePeriodParticipantRow) (work : InvoiceRowWork) (s : InvoiceProgressStep)
    : InvoiceStepState * option InvoiceStepReason :=
  let invoice := liveInvoice row in
  let reached s := match invoice with Some i => (status_index s <=? status_index (status i))%Z | None => false end in
  let delivery := latestDeliveryStatus invoice in
  let delivering := match invoice with Some i => is_delivering i | None => false end in
  let issues := invoiceRowIssues row work in
  match s with
  | StepMetering =>
      if has_issue IssueMetering issues then shows_issue IssueMetering
      else if negb (metering_data_complete row) && settledWithoutMeters row invoice then (StateDone, Some ReasonNoMeters)
      else (StateDone, None)
  | StepInvoice =>
      match invoice with
      | None =>
          if generating work then (StateActive, Some ReasonGenerating)
          else if has_issue IssueConflict issues then shows_issue IssueConflict else (StateOpen, None)
      | Some i =>
          if isPdfPending i work then (StateActive, Some ReasonPdfPending)
          else if has_issue IssuePdf issues then shows_issue IssuePdf else (StateDone, None)
      end
  | StepApproved => done_or_open (reached "approved")
  | StepSent =>
      if has_issue IssueDelivery issues then shows_issue IssueDelivery
      else if sending work || (delivering && bool_decide (delivery = Some EmailPending)) then (StateActive, Some ReasonSending)
      else if has_issue IssueNoEmail issues then shows_issue IssueNoEmail
      else done_or_open (reached "sent")
  | StepPaid => if isPartlyPaid invoice then (StateActive, Some ReasonPartlyPaid) else done_or_open (reached "paid")
  end.

Definition invoiceRowProgress (row : InvoicePeriodParticipantRow) (work : InvoiceRowWork) : option (list InvoiceRowStep) :=
  if negb (bool_decide (is_Some (liveInvoice row))) && bool_decide (eligibility_of row = Some Covered) then None
  else Some (map (λ s, {| step := s; state := (row_step row work s).1; reason := (row_step row work s).2 |}) INVOICE_PROGRESS_STEPS).

Definition repeated_step (st : list string * list string) (row : InvoicePeriodParticipantRow) : list string * list string :=
  let '(seen, repeated) := st in
  (oset_add (party_id row) seen, if oset_has (party_id row) seen then oset_add (party_id row) repeated else repeated).

Definition repeatedParties (rows : list InvoicePeriodParticipantRow) : list string := (foldl repeated_step ([], []) rows).2.

(** ** Filters *)

Inductive InvoiceRowFilter := FilterDrafts | FilterApproved | FilterSent | FilterIssues.

Record InvoiceRowCounts := {
  count_all : nat; count_invoices : nat; count_drafts : nat; count_approved : nat; count_sent : nat; count_issues : nat; count_pdfs : nat;
}.

Definition has_status (row : InvoicePeriodParticipantRow) (s : string) : bool :=
  match invoice row with Some i => String.eqb (status i) s | None => false end.

Definition matches (row : InvoicePeriodParticipantRow) (filter : InvoiceRowFilter) (work : InvoiceRowWork) : bool :=
  match filter with
  | FilterDrafts => has_status row "draft"
  | FilterApproved => has_status row "approved"
  | FilterSent => has_status row "sent"
  | FilterIssues => (0 <? length (invoiceRowIssues row work))%nat
  end.

Definition filterInvoiceRows (rows : list InvoicePeriodParticipantRow) (filter : option InvoiceRowFilter)
    (getWork : InvoicePeriodParticipantRow → InvoiceRowWork) : list InvoicePeriodParticipantRow :=
  match filter with
  | Some f => bfilter (λ row, matches row f (getWork row)) rows
  | None => rows
  end.

Definition invoiceRowCounts (rows : list InvoicePeriodParticipantRow) (getWork : InvoicePeriodParticipantRow → InvoiceRowWork)
    : InvoiceRowCounts :=
  {| count_all := length rows;
     count_invoices := length (bfilter (λ row, bool_decide (is_Some (invoice row))) rows);
     count_drafts := length (filterInvoiceRows rows (Some FilterDrafts) getWork);
     count_approved := length (filterInvoiceRows rows (Some FilterApproved) getWork);
     count_sent := length (filterInvoiceRows rows (Some FilterSent) getWork);
     count_issues := length (filterInvoiceRows rows (Some FilterIssues) getWork);
     count_pdfs := length (bfilter (λ row, truthy_str (invoice row ≫= pdf_url)) rows) |}.

Definition reason_key (r : InvoiceStepReason) : string :=
  match r with
  | ReasonIssue IssueCorrection => "correction" | ReasonIssue IssueMetering => "metering" | ReasonIssue IssueConflict => "conflict"
  | ReasonIssue IssuePdf => "pdf" | ReasonIssue IssueDelivery => "delivery" | ReasonIssue IssueNoEmail => "noEmail"
  | ReasonGenerating => "generating" | ReasonPdfPending => "pdfPending" | ReasonSending => "sending"
  | ReasonNoMeters => "noMeters" | ReasonPartlyPaid => "partlyPaid"
  end.

(** [t] is the translation function: a key and its numeric and text options. *)
Definition invoiceStepReasonText (t : string → list (string * string) → string) (r : InvoiceStepReason) (row : InvoicePeriodParticipantRow) : string :=
  match r with
  | ReasonIssue IssueCorrection => t "pages.invoices.dataReview.badge" []
  | ReasonIssue IssueMetering =>
      if (metering_points_total row =? 0)%Z then t "pages.invoices.issues.meteringNoPoints" []
      else t "pages.invoices.issues.metering"
             [("missing", Zstr (metering_points_total row - metering_points_with_data row)); ("total", Zstr (metering_points_total row))]
  | ReasonIssue IssueConflict =>
      t "pages.invoices.issues.conflict" [("number", default "" (generation_eligibility row ≫= eligibility_invoice_number))]
  | ReasonIssue _ => t ("pages.invoices.issues." ++ reason_key r) []
  | _ => t ("pages.invoices.progress.reasons." ++ reason_key r) []
  end.

(** ** The watch over pending PDFs *)

Definition PDF_WATCH_MS : Z := 90000.
Definition PDF_POLL_MS : Z := 2500.

Record PdfWatch := { startedAt : Z; until : Z; generationParticipantIds : option (list string) }.

Definition countPendingPdfs (rows : list InvoicePeriodParticipantRow) : nat :=
  length (bfilter (λ row, match invoice row with Some i => bool_decide (pdf_status i = Some PdfPending) | None => false end) rows).

Definition countPendingInvoiceWork (rows : list InvoicePeriodParticipantRow) (watch : option PdfWatch) : nat :=
  let awaitingGeneration := oset_of (default [] (watch ≫= generationParticipantIds)) in
  let left := foldl (λ ids row, if bool_decide (is_Some (liveInvoice row)) then oset_delete (participant_id row) ids else ids)
                awaitingGeneration rows in
  length left + countPendingPdfs rows.

(** The hook's two states and its three callbacks; [now] is [Date.now()]. *)
Record PdfWatchState := { pdfWatch : option PdfWatch; pdfWatchExpired : bool }.

Definition startPdfWatch (ids : list string) (now : Z) (s : PdfWatchState) : PdfWatchState :=
  {| pdfWatch := Some {| startedAt := now; until := now + PDF_WATCH_MS;
       generationParticipantIds := Some (oset_of (default [] (pdfWatch s ≫= generationParticipantIds) ++ ids)) |};
     pdfWatchExpired := false |}.
Definition stopPdfWatch : PdfWatchState := {| pdfWatch := None; pdfWatchExpired := false |}.
Definition expirePdfWatch : PdfWatchState := {| pdfWatch := None; pdfWatchExpired := true |}.

Definition pdfWatchIsFinished (watch : PdfWatch) (pendingCount : nat) (now : Z) : bool :=
  if (until watch <=? now)%Z then true
  else (pendingCount =? 0)%nat && (PDF_POLL_MS <? now - startedAt watch)%Z.

Definition pdfWatchRefetchInterval (watch : option PdfWatch) (rows : list InvoicePeriodParticipantRow) (now : Z) : option Z :=
  match watch with
  | Some w => if pdfWatchIsFinished w (countPendingInvoiceWork rows watch) now then None else Some PDF_POLL_MS
  | None => None
  end.

(** ** Public invoice *)

Record PublicInvoiceItem := {
  public_category : InvoiceItemCategory; public_description : string; public_quantity : string; public_unit : string; public_total_chf : string;
}.

Definition CATEGORY_ORDER : list InvoiceItemCategory := [CatEnergy; CatGridFees; CatLevies; CatMetering; CatOther].

Record PublicInvoiceGroup := { group_category : InvoiceItemCategory; group_items : list PublicInvoiceItem }.

Definition groupItemsByCategory (items : list PublicInvoiceItem) : list PublicInvoiceGroup :=
  bfilter (λ g, (0 <? length (group_items g))%nat)
    (map (λ c, {| group_category := c; group_items := bfilter (λ i, bool_decide (public_category i = c)) items |}) CATEGORY_ORDER).

(** ** No problem of a row is hidden *)

Lemma elem_of_issue_if b x y : y ∈ issue_if b x ↔ b = true ∧ y = x.
Proof. destruct b; simpl; [rewrite list_elem_of_singleton|rewrite elem_of_nil]; naive_solver. Qed.

(** The step that shows a problem; a data correction is shown beside the row. *)
Definition home (x : InvoiceRowIssue) : option InvoiceProgressStep :=
  match x with
  | IssueCorrection => None
  | IssueMetering => Some StepMetering
  | IssueConflict | IssuePdf => Some StepInvoice
  | IssueDelivery | IssueNoEmail => Some StepSent
  end.

Lemma has_issue_iff x l : has_issue x l = true ↔ x ∈ l.
Proof. apply bool_decide_eq_true. Qed.

Lemma conflict_no_invoice row work : IssueConflict ∈ invoiceRowIssues row work → liveInvoice row = None.
Proof. unfold invoiceRowIssues. rewrite !elem_of_app, !elem_of_issue_if. destruct (liveInvoice row); naive_solver. Qed.

Lemma pdf_invoice row work :
  IssuePdf ∈ invoiceRowIssues row work → ∃ i, liveInvoice row = Some i ∧ isPdfPending i work = false.
Proof.
  unfold invoiceRowIssues. rewrite !elem_of_app, !elem_of_issue_if.
  intros [[_ ?]|[[_ ?]|[[_ ?]|[[H _]|[[_ ?]|[_ ?]]]]]]; try done.
  destruct (liveInvoice row) as [i|]; [|done]. exists i. bool_facts. done.
Qed.

(** What a step shows: a problem exactly with its name, and only one the row has. *)
Lemma row_step_issue row work s :
  match (row_step row work s) with
  | (StateIssue, r) => ∃ x, r = Some (ReasonIssue x) ∧ x ∈ invoiceRowIssues row work ∧ home x = Some s
  | (_, r) => ∀ x, r ≠ Some (ReasonIssue x)
  end.
Proof.
  destruct s; unfold row_step, shows_issue, done_or_open; cbn zeta.
  - destruct (has_issue IssueMetering _) eqn:E; [apply has_issue_iff in E; by exists IssueMetering|].
    by destruct (_ && _).
  - destruct (liveInvoice row) as [i|].
    + destruct (isPdfPending i work); [done|]. destruct (has_issue IssuePdf _) eqn:E; [apply has_issue_iff in E; by exists IssuePdf|done].
    + destruct (generating work); [done|].
      destruct (has_issue IssueConflict _) eqn:E; [apply has_issue_iff in E; by exists IssueConflict|done].
  - by destruct (match liveInvoice row with Some _ => _ | None => _ end).
  - destruct (has_issue IssueDelivery _) eqn:E; [apply has_issue_iff in E; by exists IssueDelivery|].
    destruct (_ || _); [done|]. destruct (has_issue IssueNoEmail _) eqn:E2; [apply has_issue_iff in E2; by exists IssueNoEmail|].
    by destruct (match liveInvoice row with Some _ => _ | None => _ end).
  - destruct (isPartlyPaid _); [done|]. by destruct (match liveInvoice row with Some _ => _ | None => _ end).
Qed.

(** The home step of a problem shows it, unless work under way may settle it or
    a failed delivery comes first. *)
Lemma row_step_home row work x s :
  x ∈ invoiceRowIssues row work → home x = Some s →
  row_step row work s = shows_issue x ∨ (row_step row work s).1 = StateActive
  ∨ (x = IssueNoEmail ∧ row_step row work s = shows_issue IssueDelivery).
Proof.
  intros Hx Hs. pose proof (proj2 (has_issue_iff _ _) Hx) as Hb.
  destruct x; simpl in Hs; simplify_eq; unfold row_step; cbn zeta.
  - rewrite Hb. by left.
  - rewrite (conflict_no_invoice _ _ Hx), Hb. destruct (generating work); [by right; left|by left].
  - destruct (pdf_invoice _ _ Hx) as (i & -> & ->). rewrite Hb. by left.
  - rewrite Hb. by left.
  - destruct (has_issue IssueDelivery _); [by right; right|]. destruct (_ || _); [by right; left|]. rewrite Hb. by left.
Qed.

(** A row shows its five steps in order, or nothing when other invoices cover
    its period; a step is in trouble exactly when it names a problem the row
    has, and every problem but a data correction is shown at its step, unless
    that step has work under way or already names a failed delivery. *)
Theorem invoiceRowProgress_issues row work :
  match invoiceRowProgress row work with
  | None => liveInvoice row = None ∧ eligibility_of row = Some Covered
  | Some steps =>
      map step steps = INVOICE_PROGRESS_STEPS
      ∧ (∀ x, x ∈ steps → (state x = StateIssue ↔ ∃ i, reason x = Some (ReasonIssue i))
           ∧ ∀ i, reason x = Some (ReasonIssue i) → i ∈ invoiceRowIssues row work ∧ home i = Some (step x))
      ∧ (∀ i s, i ∈ invoiceRowIssues row work → home i = Some s →
           ∃ x, x ∈ steps ∧ step x = s ∧
             (reason x = Some (ReasonIssue i) ∨ state x = StateActive
              ∨ i = IssueNoEmail ∧ reason x = Some (ReasonIssue IssueDelivery)))
  end.
Proof.
  unfold invoiceRowProgress. destruct (negb _ && _) eqn:E.
  { bool_facts. apply bool_decide_eq_false in H. apply bool_decide_eq_true in H0.
    destruct (liveInvoice row); [|done]. destruct H. by eexists. }
  split_and!; [by rewrite map_map| |].
  - intros x (s & -> & _)%list_elem_of_fmap. cbn [state reason step]. pose proof (row_step_issue row work s) as H.
    destruct (row_step row work s) as [[] r]; cbn [fst snd]; split; try naive_solver.
  - intros i s Hi Hs. exists {| step := s; state := (row_step row work s).1; reason := (row_step row work s).2 |}. split.
    { apply list_elem_of_fmap. exists s. split; [done|]. destruct s; unfold INVOICE_PROGRESS_STEPS; apply list_elem_of_In; simpl; tauto. }
    split; [done|]. cbn [state reason]. destruct (row_step_home row work i s Hi Hs) as [->|[->|[-> ->]]]; simpl; auto.
Qed.

Example progress_ex :
  (λ steps, map (λ x, (step x, state x)) steps) <$> invoiceRowProgress sample_row no_work
  = Some [(StepMetering, StateIssue); (StepInvoice, StateDone); (StepApproved, StateOpen); (StepSent, StateOpen); (StepPaid, StateOpen)].
Proof. vm_compute. reflexivity. Qed.

(** ** The watch ends *)

(** A watch that is never renewed polls at most 36 times: after the deadline no
    poll is scheduled, whatever is still pending. *)
Lemma pdfWatch_bounded ids now0 s rows k :
  let st := startPdfWatch ids now0 s in
  (36 <= k)%Z → pdfWatchRefetchInterval (pdfWatch st) rows (now0 + k * PDF_POLL_MS) = None.
Proof.
  intros st Hk. simpl. unfold pdfWatchIsFinished. cbn [until].
  assert (now0 + PDF_WATCH_MS <=? now0 + k * PDF_POLL_MS = true)%Z as ->; [|done].
  apply Z.leb_le. unfold PDF_WATCH_MS, PDF_POLL_MS. lia.
Qed.

(** A finished generation stops the watch only after a first refresh. *)
Lemma pdfWatch_not_before_refresh w n now :
  (now < until w)%Z → (now - startedAt w <= PDF_POLL_MS)%Z → pdfWatchIsFinished w n now = false.
Proof.
  intros H1 H2. unfold pdfWatchIsFinished. destruct (until w <=? now)%Z eqn:E; bool_facts; [lia|].
  apply andb_false_iff. right. apply Z.ltb_ge. lia.
Qed.

(** ** Filters and groups *)

Lemma counts_bounded rows getWork :
  let c := invoiceRowCounts rows getWork in
  (count_drafts c + count_approved c + count_sent c <= count_invoices c <= count_all c)%nat.
Proof.
  simpl. split; [|apply length_bfilter]. induction rows as [|row rows IH]; [done|].
  unfold bfilter in *. simpl.
  assert (∀ s, has_status row s = match invoice row with Some i => String.eqb (status i) s | None => false end) as Hh by done.
  rewrite !Hh. destruct (invoice row) as [i|]; simpl; [|exact IH].
  destruct (String.eqb_spec (status i) "draft") as [E|]; rewrite ?E; simpl; [lia|].
  destruct (String.eqb_spec (status i) "approved") as [E|]; rewrite ?E; simpl; [lia|].
  destruct (String.eqb_spec (status i) "sent") as [E|]; rewrite ?E; simpl; lia.
Qed.

(** The groups hold every line once, in the canonical order of the categories. *)
Lemma groupItemsByCategory_complete items :
  Permutation (flat_map group_items (groupItemsByCategory items)) items
  ∧ (∀ g, g ∈ groupItemsByCategory items → group_items g ≠ [] ∧ ∀ i, i ∈ group_items g → public_category i = group_category g).
Proof.
  split.
  - assert (flat_map group_items (groupItemsByCategory items)
      = flat_map (λ c, bfilter (λ i, bool_decide (public_category i = c)) items) CATEGORY_ORDER) as ->.
    { unfold groupItemsByCategory. induction CATEGORY_ORDER as [|c l IH]; [done|]. unfold bfilter in *. simpl.
      destruct (List.filter _ items); simpl; by rewrite <- IH. }
    unfold CATEGORY_ORDER. simpl. rewrite app_nil_r. induction items as [|i items IH]; [done|].
    unfold bfilter in *. simpl.
    destruct (public_category i); simpl; repeat rewrite <- Permutation_middle; by apply perm_skip.
  - intros g (Hg & Hn)%elem_of_bfilter. apply list_elem_of_fmap in Hg as (c & -> & _). simpl in *.
    split; [intros E; by rewrite E in Hn|]. intros i [_ Hi]%elem_of_bfilter. by apply bool_decide_eq_true in Hi.
Qed.
