(* ===== verification/Backups.v ===== *)
(** Backup destinations, schedules, archives and restores: the rules of
    frontend/src/features/backups/backupHelpers.ts over the records of
    frontend/src/types/api.ts. *)

From S2P Require Import Prelude JsString JsNumber.
Local Open Scope string_scope.

Inductive BackupDestinationKind := KindLocal | KindS3.
Inductive BackupCredentialMode := CredEnvironment | CredStored | CredInstanceRole.
Inductive BackupJobScope := ScopeInstance | ScopeZev.
Inductive BackupJobTrigger := TriggerManual | TriggerScheduled | TriggerPreRestore.
Inductive BackupJobStatus := JobQueued | JobRunning | JobCompleted | JobFailed.
#[export] Instance BackupJobStatus_eq_dec : EqDecision BackupJobStatus.
Proof. solve_decision. Defined.
#[export] Instance BackupDestinationKind_eq_dec : EqDecision BackupDestinationKind.
Proof. solve_decision. Defined.

Record BackupDestination := {
  bd_id : string; bd_name : string; bd_kind : BackupDestinationKind; bd_enabled : bool; bd_path : string; bd_bucket : string;
  bd_prefix : string; bd_region : string; bd_endpoint_url : string; bd_access_key_id : string;
  bd_server_side_encryption : string; bd_retention_count : num; credential_mode : BackupCredentialMode;
  has_secret_access_key : bool; bd_created_at : string; bd_updated_at : string;
}.

(** [secret_access_key] absent leaves a stored secret, [Some ""] clears it. *)
Record BackupDestinationInput := {
  bi_name : string; bi_kind : BackupDestinationKind; bi_enabled : bool; bi_path : string; bi_bucket : string; bi_prefix : string;
  bi_region : string; bi_endpoint_url : string; bi_access_key_id : string; bi_server_side_encryption : string;
  bi_retention_count : num; bi_secret_access_key : option string;
}.

Record BackupManifestMedia := { media_files : Z; media_bytes : Z; media_missing : list string; media_unsafe : list string }.
Record BackupManifestZev := { mz_id : string; mz_name : string; mz_counts : list (string * Z); mz_media : BackupManifestMedia }.
Record BackupManifest := {
  manifest_kind : string; format_version : Z; manifest_created_at : string; instance_name : string; openzev_version : string;
  manifest_scope : BackupJobScope; manifest_zev_id : option string; manifest_counts : list (string * Z);
  manifest_zevs : list BackupManifestZev; manifest_encryption : option (string * string);
}.

(** [manifest_json] is [None] for the empty object of an unfinished job. *)
Record BackupJob := {
  job_id : string; job_scope : BackupJobScope; job_zev_id : option string; job_zev_name : string; job_trigger : BackupJobTrigger;
  destination_id : option string; destination_name : string; job_status : BackupJobStatus; job_created_at : string;
  job_started_at : option string; job_completed_at : option string; archive_name : string; archive_location : string;
  archive_bytes : option Z; archive_sha256 : string; job_encrypted : bool; encryption_key_fingerprint : string;
  manifest_json : option BackupManifest; job_error_message : string; file_expires_at : option string;
  artifact_deleted_at : option string; artifact_deleted_reason : string; artifact_available : bool; verifying : bool;
  verified_at : option string; verification_ok : option bool; verification_message : string;
}.

Record BackupStatus := {
  encrypted : bool; encryption_required : bool; status_key_fingerprint : string; encryption_key_problem : string;
  environment_credentials : bool; destinations_enabled : Z; last_successful : option BackupJob; last_failed : option BackupJob;
  age_hours : option num; stale : bool; schedule_enabled : bool; schedule_interval_hours : option num;
}.

Inductive BackupScheduleFrequency := Daily | Weekly.
#[export] Instance BackupScheduleFrequency_eq_dec : EqDecision BackupScheduleFrequency.
Proof. solve_decision. Defined.

Record BackupSchedule := {
  bs_enabled : bool; bs_frequency : BackupScheduleFrequency; bs_hour : Z; bs_minute : Z; bs_day_of_week : Z; bs_timezone : string;
  interval_hours : Z; last_run_at : option string;
}.

Record BackupScheduleInput := {
  si_enabled : bool; si_frequency : BackupScheduleFrequency; si_hour : Z; si_minute : Z; si_day_of_week : Z;
}.

Inductive RestoreConflictKind :=
  | SentInvoiceDeleted | SentInvoiceReverted | ContractIssueDeleted | DeliveredDocumentDeleted | MeterIdOwnedByOtherZev
  | ReferencedRowMissing | ExportInProgress | RestoreInProgress | LoginSetupRequired.
Record RestoreConflict := { conflict_kind : RestoreConflictKind; conflict_detail : string; overridable : bool }.
Record RestorePlanSection := { section_backup : Z; section_current : Z; section_kept : bool }.
Record RestorePlanZev := { plan_zev_id : string; plan_zev_name : string; exists_now : bool; current_name : string }.
Record RestorePlan := {
  plan_zev : RestorePlanZev; plan_backup : string * BackupJobScope * string * string; sections : list (string * RestorePlanSection);
  accounts : Z * list string; plan_media : Z * Z; conflicts : list RestoreConflict; blocked : bool;
  plan_safety_backup_id : option string; restored : option (list (string * Z));
}.

(** What [plan_json] may hold. *)
Inductive PlanJson := ThePlan (p : RestorePlan) | VerificationFailures (l : list string) | NoPlan.
Record RestoreJob := {
  restore_id : string; target_zev_id : string; target_zev_name : string; source_backup_id : option string;
  source_archive_name : string; source_created_at : option string; source_description : string; dry_run : bool; force : bool;
  restore_status : BackupJobStatus; plan_json : PlanJson; safety_backup_id : option string; restore_created_at : string;
  restore_started_at : option string; restore_completed_at : option string; restore_error_message : string;
}.

Definition is_pending (s : BackupJobStatus) : bool := match s with JobQueued | JobRunning => true | _ => false end.

Definition hasActiveJob (jobs : option (list BackupJob)) : bool :=
  existsb (λ job, is_pending (job_status job) || verifying job) (default [] jobs).

(** ** Destinations *)

Record DestinationFormState := {
  df_name : string; df_kind : BackupDestinationKind; df_enabled : bool; df_path : string; df_bucket : string; df_prefix : string;
  df_region : string; df_endpoint_url : string; df_access_key_id : string; df_server_side_encryption : string;
  df_retention_count : string; df_secret_access_key : string; remove_secret : bool;
}.

Definition EMPTY_DESTINATION_FORM : DestinationFormState :=
  {| df_name := ""; df_kind := KindLocal; df_enabled := true; df_path := ""; df_bucket := ""; df_prefix := ""; df_region := "";
     df_endpoint_url := ""; df_access_key_id := ""; df_server_side_encryption := "AES256"; df_retention_count := "0";
     df_secret_access_key := ""; remove_secret := false |}.

Definition destinationToForm (d : BackupDestination) : DestinationFormState :=
  {| df_name := bd_name d; df_kind := bd_kind d; df_enabled := bd_enabled d; df_path := bd_path d; df_bucket := bd_bucket d;
     df_prefix := bd_prefix d; df_region := bd_region d; df_endpoint_url := bd_endpoint_url d;
     df_access_key_id := bd_access_key_id d; df_server_side_encryption := bd_server_side_encryption d;
     df_retention_count := num_to_string (bd_retention_count d); df_secret_access_key := ""; remove_secret := false |}.

(** [Number.parseInt(text, 10)]: white space, a sign, then the digits up to the first other character. *)
Definition parse_int (text : string) : num :=
  let s := ltrim text in
  let '(neg, s) := match s with
                   | String "-" r => (true, r)
                   | String "+" r => (false, r)
                   | _ => (false, s)
                   end in
  match take_digits s with ("", _) => nan | (digits, _) => unsigned_decimal neg digits end.

Definition parseRetention (text : string) : num :=
  let n := parse_int (trim text) in if is_finite n && num_gt n (of_Z 0) then n else of_Z 0.

(** [.replace(/^\/+/, '')]. *)
Fixpoint strip_leading_slashes (s : string) : string :=
  match s with String "/" s' => strip_leading_slashes s' | _ => s end.

Definition buildDestinationPayload (form : DestinationFormState) (existing : option BackupDestination) : BackupDestinationInput :=
  match df_kind form with
  | KindLocal =>
      {| bi_name := trim (df_name form); bi_kind := KindLocal; bi_enabled := df_enabled form;
         bi_path := trim (df_path form); bi_bucket := ""; bi_prefix := ""; bi_region := ""; bi_endpoint_url := ""; bi_access_key_id := "";
         bi_server_side_encryption := df_server_side_encryption form; bi_retention_count := parseRetention (df_retention_count form);
         bi_secret_access_key :=
           match existing with Some d => if has_secret_access_key d then Some "" else None | None => None end |}
  | KindS3 =>
      {| bi_name := trim (df_name form); bi_kind := KindS3; bi_enabled := df_enabled form;
         bi_path := ""; bi_bucket := trim (df_bucket form); bi_prefix := strip_leading_slashes (trim (df_prefix form));
         bi_region := trim (df_region form); bi_endpoint_url := trim (df_endpoint_url form);
         bi_access_key_id := trim (df_access_key_id form); bi_server_side_encryption := df_server_side_encryption form;
         bi_retention_count := parseRetention (df_retention_count form);
         bi_secret_access_key :=
           if nonempty (df_secret_access_key form) then Some (df_secret_access_key form)
           else if remove_secret form then Some "" else None |}
  end.

(** [.replace(/^\/+|\/+$/g, '')]. *)
Fixpoint strip_trailing_slashes (s : string) : string :=
  match s with
  | "" => ""
  | String c s' =>
      let r := strip_trailing_slashes s' in
      if Ascii.eqb c "/" && String.eqb r "" then "" else String c r
  end.

Definition destinationTarget (d : BackupDestination) : string :=
  match bd_kind d with
  | KindLocal => bd_path d
  | KindS3 =>
      let key := join "/" (bfilter nonempty [bd_bucket d; strip_trailing_slashes (strip_leading_slashes (bd_prefix d))]) in
      if nonempty (bd_endpoint_url d) then key ++ " @ " ++ bd_endpoint_url d else key
  end.

(** ** Archives *)

Definition readManifest (job : BackupJob) : option BackupManifest :=
  match manifest_json job with
  | Some m => if String.eqb (manifest_kind m) "backup" then Some m else None
  | None => None
  end.

Definition countMissingMedia (manifest : option BackupManifest) : Z :=
  foldl (λ sum zev, sum + Z.of_nat (length (media_missing (mz_media zev))))%Z 0%Z (default [] (manifest_zevs <$> manifest)).

Definition totalRecords (manifest : option BackupManifest) : Z :=
  foldl (λ sum n, sum + n)%Z 0%Z (map snd (default [] (manifest_counts <$> manifest))).

Definition isDownloadable (job : BackupJob) : bool :=
  artifact_available job && nonempty (archive_location job) && negb (starts_with "s3://" (archive_location job)).

Inductive VerificationState := Checking | VerifiedOk | VerificationFailed | NeverVerified.

Definition verificationState (job : BackupJob) : VerificationState :=
  if verifying job then Checking
  else match verification_ok job with Some true => VerifiedOk | Some false => VerificationFailed | None => NeverVerified end.

Definition hasFile (job : BackupJob) : bool := artifact_available job.

Definition fileGone (job : BackupJob) : bool :=
  bool_decide (job_status job = JobCompleted) && negb (artifact_available job).

Definition isBackupCreationBlocked (status : option BackupStatus) : bool :=
  match status with
  | None => false
  | Some s => if nonempty (encryption_key_problem s) then true else negb (encrypted s) && encryption_required s
  end.

(** ** Restoring *)

Definition restorableBackups (jobs : option (list BackupJob)) : list BackupJob :=
  bfilter (λ job, artifact_available job && (0 <? length (default [] (manifest_zevs <$> readManifest job)))%nat) (default [] jobs).

Definition communitiesIn (job : option BackupJob) : list (string * string) :=
  map (λ zev, (mz_id zev, mz_name zev)) (default [] (manifest_zevs <$> (job ≫= readManifest))).

Definition readPlan (job : option RestoreJob) : option RestorePlan :=
  match job with
  | Some j => match plan_json j with ThePlan p => Some p | _ => None end
  | None => None
  end.

Definition hasActiveRestore (jobs : option (list RestoreJob)) : bool :=
  existsb (λ job, is_pending (restore_status job)) (default [] jobs).

Definition hardConflicts (plan : RestorePlan) : list RestoreConflict := bfilter (λ c, negb (overridable c)) (conflicts plan).
Definition forceableConflicts (plan : RestorePlan) : list RestoreConflict := bfilter overridable (conflicts plan).

Definition canStartRestore (plan : RestorePlan) (force : bool) : bool :=
  if (0 <? length (hardConflicts plan))%nat then false
  else (length (forceableConflicts plan) =? 0)%nat || force.

Definition confirmationName (plan : RestorePlan) : string :=
  if exists_now (plan_zev plan) && nonempty (current_name (plan_zev plan)) then current_name (plan_zev plan)
  else plan_zev_name (plan_zev plan).

Definition RESTORE_SECTION_ORDER : list string :=
  ["zev"; "participants"; "metering_points"; "tariffs"; "readings"; "import_logs"; "invoices"; "contract_issues"; "audit_events"].

(** ** The schedule *)

Record ScheduleFormState := { sf_enabled : bool; sf_frequency : BackupScheduleFrequency; sf_time : string; sf_day_of_week : Z }.

Definition scheduleToForm (s : BackupSchedule) : ScheduleFormState :=
  {| sf_enabled := bs_enabled s; sf_frequency := bs_frequency s; sf_time := pad2 (bs_hour s) ++ ":" ++ pad2 (bs_minute s);
     sf_day_of_week := bs_day_of_week s |}.

(** [/^(\d{1,2}):(\d{2})$/] with its two numbers. *)
Definition clock_fields (time : string) : option (Z * Z) :=
  match split_on ":" time with
  | [h; m] =>
      if ((1 <=? String.length h) && (String.length h <=? 2) && (String.length m =? 2))%nat
      then match parse_digits h, parse_digits m with Some h, Some m => Some (h, m) | _, _ => None end
      else None
  | _ => None
  end.

Definition buildSchedulePayload (form : ScheduleFormState) : option BackupScheduleInput :=
  match clock_fields (sf_time form) with
  | None => None
  | Some (hour, minute) =>
      if (23 <? hour)%Z || (59 <? minute)%Z then None
      else Some {| si_enabled := sf_enabled form; si_frequency := sf_frequency form; si_hour := hour; si_minute := minute;
                   si_day_of_week := if bool_decide (sf_frequency form = Weekly) then sf_day_of_week form else 0 |}
  end.

Definition WEEKDAYS : list Z := [0; 1; 2; 3; 4; 5; 6]%Z.

Definition scheduleChanged (form : ScheduleFormState) (saved : BackupSchedule) : bool :=
  let now := scheduleToForm saved in
  negb (Bool.eqb (sf_enabled form) (sf_enabled now)) || negb (bool_decide (sf_frequency form = sf_frequency now))
  || negb (String.eqb (sf_time form) (sf_time now))
  || (bool_decide (sf_frequency form = Weekly) && negb (sf_day_of_week form =? sf_day_of_week now)%Z).

(** ** Facts *)

(** A restore starts only over conflicts that may be forced, and over those
    only when forced. *)
Lemma canStartRestore_iff plan force :
  canStartRestore plan force = true ↔
  (∀ c, c ∈ conflicts plan → overridable c = true) ∧ (force = true ∨ conflicts plan = []).
Proof.
  unfold canStartRestore. destruct (hardConflicts plan) as [|c l] eqn:E; simpl.
  - pose proof (proj1 (bfilter_nil _ _) E) as Ho. cbn beta in Ho.
    assert (∀ c, c ∈ conflicts plan → overridable c = true) as Hall
      by (intros c Hc; specialize (Ho c Hc); by apply negb_false_iff in Ho).
    unfold forceableConflicts. rewrite bfilter_all by done. destruct (conflicts plan); destruct force; simpl; naive_solver.
  - split; [done|]. intros [H _]. assert (c ∈ hardConflicts plan) as Hc by (rewrite E; by left).
    apply elem_of_bfilter in Hc as [Hc Hn]. apply H in Hc. by rewrite Hc in Hn.
Qed.

Lemma clock_fields_pad h m :
  (0 <= h < 24)%Z → (0 <= m < 60)%Z → clock_fields (pad2 h ++ ":" ++ pad2 m) = Some (h, m).
Proof.
  intros Hh Hm.
  assert (forallb (λ h, forallb (λ m, bool_decide (clock_fields (pad2 h ++ ":" ++ pad2 m) = Some (h, m))) (seqZ 0 60)) (seqZ 0 24) = true)
    as Hall by (vm_compute; reflexivity).
  rewrite forallb_elem in Hall. specialize (Hall h ltac:(apply elem_of_seqZ; lia)). cbv beta in Hall.
  rewrite forallb_elem in Hall. specialize (Hall m ltac:(apply elem_of_seqZ; lia)). by apply bool_decide_eq_true in Hall.
Qed.

(** A saved schedule opened in the form and sent unchanged is the same
    schedule (a daily one forgets its weekday), and the form does not count as
    changed. *)
Theorem schedule_roundtrip s :
  (0 <= bs_hour s <= 23)%Z → (0 <= bs_minute s <= 59)%Z →
  buildSchedulePayload (scheduleToForm s) = Some
    {| si_enabled := bs_enabled s; si_frequency := bs_frequency s; si_hour := bs_hour s; si_minute := bs_minute s;
       si_day_of_week := match bs_frequency s with Weekly => bs_day_of_week s | Daily => 0 end |}
  ∧ scheduleChanged (scheduleToForm s) s = false.
Proof.
  intros Hh Hm. split.
  - unfold buildSchedulePayload, scheduleToForm. cbn [sf_time sf_enabled sf_frequency sf_day_of_week].
    rewrite clock_fields_pad by lia. destruct (23 <? bs_hour s)%Z eqn:E1, (59 <? bs_minute s)%Z eqn:E2; bool_facts; try lia.
    simpl. by destruct (bs_frequency s).
  - unfold scheduleChanged, scheduleToForm. cbn [sf_time sf_enabled sf_frequency sf_day_of_week].
    rewrite eqb_reflx, String.eqb_refl, Z.eqb_refl, bool_decide_true by done. simpl. by rewrite andb_false_r.
Qed.

Lemma schedule_roundtrip_witness :
  let s := {| bs_enabled := true; bs_frequency := Weekly; bs_hour := 3; bs_minute := 5; bs_day_of_week := 2;
              bs_timezone := "Europe/Zurich"; interval_hours := 168; last_run_at := None |} in
  sf_time (scheduleToForm s) = "03:05" ∧ buildSchedulePayload (scheduleToForm s) = Some
    {| si_enabled := true; si_frequency := Weekly; si_hour := 3; si_minute := 5; si_day_of_week := 2 |}.
Proof.
  intros s. split; [vm_compute; reflexivity|]. exact (proj1 (schedule_roundtrip s ltac:(simpl; lia) ltac:(simpl; lia))).
Defined.

(** A destination saved without touching its secret keeps the stored one; only
    turning it into a local directory removes it. *)
Lemma destination_secret_kept d kind :
  let form := destinationToForm d in
  let form := {| df_name := df_name form; df_kind := kind; df_enabled := df_enabled form; df_path := df_path form;
                 df_bucket := df_bucket form; df_prefix := df_prefix form; df_region := df_region form;
                 df_endpoint_url := df_endpoint_url form; df_access_key_id := df_access_key_id form;
                 df_server_side_encryption := df_server_side_encryption form; df_retention_count := df_retention_count form;
                 df_secret_access_key := df_secret_access_key form; remove_secret := remove_secret form |} in
  bi_secret_access_key (buildDestinationPayload form (Some d))
  = match kind with KindLocal => if has_secret_access_key d then Some "" else None | KindS3 => None end.
Proof. by destruct kind. Qed.

Example parseRetention_ex :
  parseRetention " 14 days" = of_Z 14 ∧ parseRetention "-3" = of_Z 0 ∧ parseRetention "" = of_Z 0.
Proof. vm_compute. auto. Qed.
