(* ===== verification/Imports.v ===== *)
(** Meter data imports: CSV settings and preview stamps
    (frontend/src/features/imports/importUtils.ts) and the outcome of an
    SDAT-CH file (features/imports/sdatOutcome.ts). *)

From S2P Require Import Prelude JsString JsNumber Json.
Local Open Scope string_scope.

Inductive ImportTimestampTimezone := ZoneZurich | ZoneUtc.
#[export] Instance ImportTimestampTimezone_eq_dec : EqDecision ImportTimestampTimezone.
Proof. solve_decision. Defined.

(** ** CSV settings *)

Record CsvColumnMap := { map_meter_id : string; map_timestamp : string; map_energy_kwh : string; map_direction : string; map_energy_start : string }.
#[export] Instance CsvColumnMap_eq_dec : EqDecision CsvColumnMap.
Proof. solve_decision. Defined.

Definition defaultColumnMap : CsvColumnMap :=
  {| map_meter_id := "meter_id"; map_timestamp := "timestamp"; map_energy_kwh := "energy_kwh"; map_direction := "direction"; map_energy_start := "4" |}.
Definition standardHeaderlessColumnMap : CsvColumnMap :=
  {| map_meter_id := "0"; map_timestamp := "1"; map_energy_kwh := "2"; map_direction := ""; map_energy_start := "" |}.
Definition dailyHeadedColumnMap : CsvColumnMap :=
  {| map_meter_id := "meter_id"; map_timestamp := "date"; map_energy_kwh := ""; map_direction := ""; map_energy_start := "00:00" |}.
Definition dailyHeaderlessColumnMap : CsvColumnMap :=
  {| map_meter_id := "0"; map_timestamp := "1"; map_energy_kwh := ""; map_direction := ""; map_energy_start := "2" |}.

Inductive CsvFormatProfile := Standard | Daily15min.
#[export] Instance CsvFormatProfile_eq_dec : EqDecision CsvFormatProfile.
Proof. solve_decision. Defined.

Definition csvConfigFor (hasHeader : bool) (profile : CsvFormatProfile) : string * CsvColumnMap :=
  match profile with
  | Daily15min => if hasHeader then (",", dailyHeadedColumnMap) else (";", dailyHeaderlessColumnMap)
  | Standard => if hasHeader then (",", defaultColumnMap) else (";", standardHeaderlessColumnMap)
  end.

Record DetectedColumns := {
  det_meter_id : option string; det_timestamp : option string; det_energy_kwh : option string; det_direction : option string; det_energy_start : option string;
}.
Record DetectedSettings := {
  det_has_header : bool; det_delimiter : string; det_format_profile : CsvFormatProfile; det_timestamp_format : string;
  det_timestamp_timezone : ImportTimestampTimezone; det_interval_minutes : num; det_values_count : num; det_column_map : DetectedColumns;
}.
Record CsvDetectResult := { detected : bool; undetected : list string; det_settings : DetectedSettings }.

(** The wizard state a detection gives. *)
Record WizardSettings := {
  w_hasHeader : bool; w_delimiter : string; w_formatProfile : CsvFormatProfile; w_timestampFormat : string;
  w_timestampTimezone : ImportTimestampTimezone; w_intervalMinutes : string; w_valuesCount : string; w_columnMap : CsvColumnMap;
}.

(** A literal tab and the two-character escape the field shows for it. *)
Definition TAB : string := String (ascii_of_N 9) "".
Definition TAB_ESCAPE : string := "\t".

Definition settingsFromDetection (result : CsvDetectResult) : WizardSettings :=
  let settings := det_settings result in
  let fallback := (csvConfigFor (det_has_header settings) (det_format_profile settings)).2 in
  let mapped := det_column_map settings in
  let standard := bool_decide (det_format_profile settings = Standard) in
  {| w_hasHeader := det_has_header settings;
     w_delimiter := if String.eqb (det_delimiter settings) TAB then TAB_ESCAPE else det_delimiter settings;
     w_formatProfile := det_format_profile settings; w_timestampFormat := det_timestamp_format settings;
     w_timestampTimezone := det_timestamp_timezone settings; w_intervalMinutes := num_to_string (det_interval_minutes settings);
     w_valuesCount := num_to_string (det_values_count settings);
     w_columnMap :=
       {| map_meter_id := default (map_meter_id fallback) (det_meter_id mapped);
          map_timestamp := default (map_timestamp fallback) (det_timestamp mapped);
          map_energy_kwh := if standard then default (map_energy_kwh fallback) (det_energy_kwh mapped) else "";
          map_direction := default "" (det_direction mapped);
          map_energy_start := if standard then "" else default (map_energy_start fallback) (det_energy_start mapped) |} |}.

Inductive DetectionState :=
  | DetectIdle
  | DetectLoading (fileName : string) (fileCount : nat)
  | DetectDone (fileName : string) (fileCount : nat) (undetected : list string)
  | DetectFailed.

(** ** Previews *)

Record StampFile := { file_name : string; file_size : Z; file_lastModified : Z }.
#[export] Instance StampFile_eq_dec : EqDecision StampFile.
Proof. solve_decision. Defined.

Record PreviewStamp := {
  stamp_files : list StampFile; stamp_source : string; stamp_zevId : string; stamp_hasHeader : bool; stamp_delimiter : string;
  stamp_formatProfile : string; stamp_timestampFormat : string; stamp_timestampTimezone : ImportTimestampTimezone;
  stamp_intervalMinutes : string; stamp_valuesCount : string; stamp_overwriteExisting : bool; stamp_columnMap : CsvColumnMap;
}.
#[export] Instance PreviewStamp_eq_dec : EqDecision PreviewStamp.
Proof. solve_decision. Defined.

Record ImportPreviewSummary := {
  existing_metering_points : Z; missing_metering_points : Z; rows_previewed : Z; rows_skipped_existing : Z; readings_existing : Z;
}.
Record ImportPreviewRow := {
  preview_row : Z; preview_meter_id : option string; metering_point_exists : bool; preview_meter_type : option string;
  preview_timestamp : option string; preview_energy : option string; existing_data : option bool; preview_directions : option (list string);
  preview_interval_minutes : option Z; preview_values_count : option Z;
}.
Record ImportPreviewResult := {
  preview_rows_total : Z; preview_rows : list ImportPreviewRow; summary : ImportPreviewSummary; missing_meter_ids : list string;
  preview_errors : list (option Z * string); preview_timezone : ImportTimestampTimezone; rows_skipped_dst_gap : Z;
}.
Record FilePreview := { preview_fileName : string; preview : option ImportPreviewResult; preview_error : option string }.

(** One file of the [for] loop: the ids so far and the meters beyond the listed ones. *)
Definition missing_step (st : list string * Z) (p : FilePreview) : list string * Z :=
  match preview p with
  | None => st
  | Some r =>
      (foldl (λ ids id, oset_add id ids) st.1 (missing_meter_ids r),
       st.2 + Z.max 0 (missing_metering_points (summary r) - Z.of_nat (length (missing_meter_ids r))))%Z
  end.

Definition aggregateMissingMeters (previews : list FilePreview) : Z * list string :=
  let '(ids, overflow) := foldl missing_step ([], 0%Z) previews in (Z.of_nat (length ids) + overflow, ids)%Z.

(** [/^\d+$/] on the trimmed text, then a safe integer. *)
Definition parsePositiveInt (raw : string) : option Z :=
  match parse_digits (trim raw) with
  | Some value => if (value <=? 2 ^ 53 - 1)%Z then Some value else None
  | None => None
  end.

Definition normalizePositiveInt (raw : string) : string :=
  match parsePositiveInt raw with Some n => Zstr n | None => "invalid:" ++ raw end.

Definition isValidDelimiter (delimiter : string) : bool :=
  if String.eqb delimiter TAB_ESCAPE || String.eqb delimiter TAB then true else (String.length delimiter =? 1)%nat.

Definition normalizeDelimiter (delimiter : string) : string := if String.eqb delimiter TAB_ESCAPE then TAB else delimiter.

Definition normalize_stamp (s : PreviewStamp) : PreviewStamp :=
  {| stamp_files := stamp_files s; stamp_source := stamp_source s; stamp_zevId := stamp_zevId s; stamp_hasHeader := stamp_hasHeader s;
     stamp_delimiter := normalizeDelimiter (stamp_delimiter s); stamp_formatProfile := stamp_formatProfile s;
     stamp_timestampFormat := stamp_timestampFormat s; stamp_timestampTimezone := stamp_timestampTimezone s;
     stamp_intervalMinutes := normalizePositiveInt (stamp_intervalMinutes s); stamp_valuesCount := normalizePositiveInt (stamp_valuesCount s);
     stamp_overwriteExisting := stamp_overwriteExisting s; stamp_columnMap := stamp_columnMap s |}.

(** Two stamps have the same JSON text exactly when they are equal. *)
Definition previewStampsEqual (a b : option PreviewStamp) : bool :=
  match a, b with
  | Some x, Some y => bool_decide (normalize_stamp x = normalize_stamp y)
  | _, _ => false
  end.

(** ** Timestamp formats *)

(** [format.replace(/%%/g, '')]. *)
Fixpoint drop_escaped (s : string) : string :=
  match s with
  | String "%" (String "%" s') => drop_escaped s'
  | String c s' => String c (drop_escaped s')
  | "" => ""
  end.

(** [/%[cs]/.test(s)]. *)
Fixpoint has_directive (cs : list ascii) (s : string) : bool :=
  match s with
  | String "%" ((String c _) as s') => existsb (Ascii.eqb c) cs || has_directive cs s'
  | String _ s' => has_directive cs s'
  | "" => false
  end.

Definition isValidTimestampFormat (format : string) : bool :=
  if String.eqb format "" then true
  else if negb (includes "%" format) then false
  else
    let directives := drop_escaped format in
    let has cs := has_directive cs directives in
    let hasCalendarYear := has ["Y"; "y"]%char in
    let hasMonthAndDay := has ["m"; "B"; "b"]%char && has ["d"]%char in
    let hasDayOfYear := has ["j"]%char in
    let hasWeekday := has ["a"; "u"; "w"; "A"]%char in
    let hasCalendarWeek := has ["U"; "W"]%char && hasWeekday in
    let hasIsoWeek := has ["G"]%char && has ["V"]%char && hasWeekday in
    (hasCalendarYear && (hasMonthAndDay || hasDayOfYear || hasCalendarWeek)) || hasIsoWeek.

Definition MAX_UPLOAD_BYTES : Z := (50 * 1024 * 1024)%Z.

Definition isLegacyExcel (name : string) : bool := ends_with ".xls" (to_lower name) && negb (ends_with ".xlsx" (to_lower name)).

(** ** SDAT-CH outcomes *)

Definition SDAT_UPLOAD_ACCEPT : string := ".xml,.xml.gz,.gz".

Inductive DeletionProtection := OverwriteImportProtected | QuarantineReplaceProtected.
Inductive SdatResultStatus := SdatAccepted | SdatHeld | SdatUnchanged | SdatRejected.
#[export] Instance SdatResultStatus_eq_dec : EqDecision SdatResultStatus.
Proof. solve_decision. Defined.

(** The counts the outcome reads; an older log may lack one. *)
Record SdatResultCounts := { created : option Z; overwritten : option Z; other_counts : list (string * json) }.

(** The structured part of an import log; a blank status is [None]. *)
Record SdatLog := {
  result_status : option SdatResultStatus; result_counts : option SdatResultCounts; deletable : option bool;
  deletion_protection_code : option DeletionProtection;
}.

Definition importLogProtectionCode (log : SdatLog) : option DeletionProtection := deletion_protection_code log.
Definition isImportLogDeletable (log : SdatLog) : bool := default true (deletable log).
Definition isSdatLog (log : SdatLog) : bool := bool_decide (is_Some (result_status log)).

Inductive SdatOutcomeKind := OutRejected | OutHeld | OutUnchanged | OutCorrectionOnly | OutAccepted | OutLegacy.

Definition sdatOutcomeKind (log : SdatLog) : SdatOutcomeKind :=
  match result_status log with
  | None => OutLegacy
  | Some SdatHeld => OutHeld
  | Some SdatUnchanged => OutUnchanged
  | Some SdatRejected => OutRejected
  | Some SdatAccepted =>
      match result_counts log with
      | Some counts =>
          if (default 0 (created counts) =? 0)%Z && (0 <? default 0 (overwritten counts))%Z then OutCorrectionOnly else OutAccepted
      | None => OutAccepted
      end
  end.

(** The outcome of one file of a batch: its log, or none when the request failed. *)
Definition isFailedBatchOutcome (value : option SdatLog) : bool :=
  match value with None => true | Some log => bool_decide (result_status log = Some SdatRejected) end.

Definition SDAT_COUNT_ORDER : list string :=
  ["created"; "overwritten"; "held"; "promoted"; "duplicate"; "original_existing"; "stale"; "excluded"; "rejected"; "quarantine_overwritten"].

Definition SDAT_ISSUE_PARAM_ORDER : list string :=
  ["meter_id"; "block_id"; "position"; "missing"; "position_timestamp"; "direction"; "incoming_document_id"; "stored_document_id";
   "incoming_delivery_id"; "stored_delivery_id"; "product"; "unit"; "feature"; "import_log_id"; "reason"; "stale"; "duplicate"; "original_existing"].

(** The text of one parameter, [None] when it is left out. *)
Definition param_text (raw : option json) : option string :=
  match raw with
  | None | Some JNull | Some (JStr "") | Some (JArr []) | Some (JObj _) => None
  | Some (JArr l) =>
      let shown := join ", " (map js_text (take 10 l)) in
      Some (if (10 <? length l)%nat then shown ++ " (+" ++ Zstr (Z.of_nat (length l - 10)) ++ ")" else shown)
  | Some j => Some (js_text j)
  end.

Definition sdatIssueParams (issue : list (string * json)) : list (string * string) :=
  omap (λ key, (λ v, (key, v)) <$> param_text (jget key issue)) SDAT_ISSUE_PARAM_ORDER.

(** ** Facts *)

(** A detection never empties a column the chosen layout needs. *)
Lemma settingsFromDetection_filled result :
  let s := settingsFromDetection result in
  let mapped := det_column_map (det_settings result) in
  det_meter_id mapped ≠ Some "" → det_timestamp mapped ≠ Some "" → det_energy_kwh mapped ≠ Some "" → det_energy_start mapped ≠ Some "" →
  map_meter_id (w_columnMap s) ≠ "" ∧ map_timestamp (w_columnMap s) ≠ ""
  ∧ match w_formatProfile s with Standard => map_energy_kwh (w_columnMap s) ≠ "" | Daily15min => map_energy_start (w_columnMap s) ≠ "" end.
Proof.
  simpl. intros H1 H2 H3 H4. destruct (det_column_map _) as [[m|] [t|] [e|] d [st|]], (det_format_profile _), (det_has_header _);
    simpl in *; split_and!; congruence.
Qed.

Lemma foldl_missing previews ids n :
  (∀ p r, p ∈ previews → preview p = Some r → (missing_metering_points (summary r) <= Z.of_nat (length (missing_meter_ids r)))%Z) →
  (foldl missing_step (ids, n) previews).2 = n
  ∧ (NoDup ids → NoDup (foldl missing_step (ids, n) previews).1)
  ∧ (∀ x, x ∈ (foldl missing_step (ids, n) previews).1 ↔ x ∈ ids ∨ ∃ p r, p ∈ previews ∧ preview p = Some r ∧ x ∈ missing_meter_ids r).
Proof.
  revert ids n. induction previews as [|p previews IH]; intros ids n H; simpl.
  - split_and!; [done|done|]. intros x. split; [by left|]. intros [?|(p & r & Hp & _)]; [done|by apply elem_of_nil in Hp].
  - assert (∀ ids' n', missing_step (ids, n) p = (ids', n') → n' = n ∧ (NoDup ids → NoDup ids')
      ∧ (∀ x, x ∈ ids' ↔ x ∈ ids ∨ ∃ r, preview p = Some r ∧ x ∈ missing_meter_ids r)) as Hstep.
    { intros ids' n'. unfold missing_step. destruct (preview p) as [r|] eqn:E.
      - intros [= <- <-]. specialize (H p r (list_elem_of_here _ _) E). split_and!; [lia| |].
        + clear. revert ids. induction (missing_meter_ids r) as [|i l IHl]; simpl; [done|]. intros ids Hn. by apply IHl, NoDup_oset_add.
        + intros x. rewrite elem_of_foldl_oset_add. naive_solver.
      - intros [= <- <-]. split_and!; [done|done|]. naive_solver. }
    destruct (missing_step (ids, n) p) as [ids' n'] eqn:Es. destruct (Hstep _ _ eq_refl) as (-> & Hnd & Hin).
    destruct (IH ids' n) as (E & Hn & Hx); [intros q r Hq; apply H; by right|]. split_and!; [done|auto|].
    intros x. rewrite Hx, Hin. setoid_rewrite elem_of_cons. split.
    + intros [[?|(r & Hr & Hxr)]|(q & r & Hq & Hr & Hxr)]; [by left|right; exists p, r; auto|right; exists q, r; auto].
    + intros [?|(q & r & [->|Hq] & Hr & Hxr)]; [by left; left|left; right; by exists r|right; by exists q, r].
Qed.

(** When no file's list of missing meters is cut short, the count is the number
    of distinct meters missing anywhere. *)
Lemma aggregateMissingMeters_exact previews :
  (∀ p r, p ∈ previews → preview p = Some r → (missing_metering_points (summary r) <= Z.of_nat (length (missing_meter_ids r)))%Z) →
  let '(count, ids) := aggregateMissingMeters previews in
  count = Z.of_nat (length ids) ∧ NoDup ids
  ∧ ∀ x, x ∈ ids ↔ ∃ p r, p ∈ previews ∧ preview p = Some r ∧ x ∈ missing_meter_ids r.
Proof.
  intros H. unfold aggregateMissingMeters. destruct (foldl_missing previews [] 0 H) as (E & Hn & Hx).
  destruct (foldl missing_step _ _) as [ids n]. simpl in *. subst n. split_and!; [lia|apply Hn, NoDup_nil_2|].
  intros x. rewrite Hx, elem_of_nil. tauto.
Qed.

(** A preview stays valid while the configuration means the same to the server. *)
Lemma previewStampsEqual_equiv a b c :
  previewStampsEqual a b = previewStampsEqual b a
  ∧ (previewStampsEqual a b = true → previewStampsEqual b c = true → previewStampsEqual a c = true).
Proof.
  destruct a as [a|], b as [b|], c as [c|]; simpl; try (split; [done|done || by intros]).
  - split; [by apply bool_decide_ext|]. rewrite !bool_decide_eq_true. congruence.
  - split; [by apply bool_decide_ext|done].
Qed.

Example timestampFormat_ex :
  isValidTimestampFormat "%d.%m.%Y %H:%M" = true ∧ isValidTimestampFormat "%d.%m" = false ∧ isValidTimestampFormat "%%Y-%m-%d" = false
  ∧ isValidTimestampFormat "%G-W%V-%u" = true ∧ isValidTimestampFormat "%Y-%j" = true.
Proof. vm_compute. auto. Qed.
