(* ===== verification/Outbox.v ===== *)
(** Delivered documents: the rules of
    frontend/src/features/inbox/documentPresentation.ts over the records of
    frontend/src/types/api.ts. [groupOutbox] shares each batch's entry between the
    list it returns and a map; here the map holds the entry's position. *)

From S2P Require Import Prelude JsString JsNumber InvoiceTypes.
Local Open Scope string_scope.

Inductive DocumentKind :=
  KindInvoice | KindContract | KindAnnualStatement | KindFinancialSummary | KindTariffOverview | KindCreditNote | KindOperator.
#[export] Instance DocumentKind_eq_dec : EqDecision DocumentKind.
Proof. solve_decision. Defined.

Record InvoiceFigures := {
  fig_status : string; fig_due_date : option string; fig_total_chf : string; fig_credit_applied_chf : string;
  fig_amount_due_chf : string; fig_paid_chf : string; fig_outstanding_chf : string; open_data_impact_count : Z;
}.
Record CreditFigures := {
  fig_amount_chf : string; fig_remaining_chf : string; fig_credit_status : CreditStatus;
  fig_source_invoice_number : option string; fig_applied_to : list (string * string);
}.

Record DeliveredDocument := {
  doc_id : string; doc_zev : option string; doc_zev_name : string; doc_participant : option string;
  doc_participant_name : option string; doc_kind : DocumentKind; doc_title : string; document_number : string;
  doc_period_start : option string; doc_period_end : option string; doc_file_name : string; size_bytes : option num;
  doc_sha256 : string; delivered_at : string; delivered_by_name : option string; superseded_at : option string;
  superseded_by : option string; withdrawn_at : option string; batch_id : option string; doc_invoice : option string;
  doc_invoice_status : option string; invoice_figures : option InvoiceFigures; credit_figures : option CreditFigures;
  contract_issue : option string;
}.

(** ** Presentation *)

Definition DOCUMENT_KINDS : list DocumentKind :=
  [KindInvoice; KindCreditNote; KindAnnualStatement; KindFinancialSummary; KindTariffOverview; KindContract; KindOperator].

Definition kind_text (k : DocumentKind) : string :=
  match k with
  | KindInvoice => "invoice" | KindContract => "contract" | KindAnnualStatement => "annual_statement"
  | KindFinancialSummary => "financial_summary" | KindTariffOverview => "tariff_overview"
  | KindCreditNote => "credit_note" | KindOperator => "operator"
  end.

Inductive DocumentStanding := Withdrawn | CancelledDocument | Superseded.

Definition documentStanding (d : DeliveredDocument) : option DocumentStanding :=
  if truthy_str (withdrawn_at d) then Some Withdrawn
  else if bool_decide (doc_invoice_status d = Some "cancelled") then Some CancelledDocument
  else if truthy_str (superseded_at d) then Some Superseded
  else None.

Definition documentYear (d : DeliveredDocument) : num :=
  to_number (slice (default (delivered_at d) (doc_period_start d)) 0 4).

(** ** The outbox *)

Definition BROADCAST_KINDS : list DocumentKind := [KindOperator; KindTariffOverview].

Record OutboxEntry := { entry_key : string; documents : list DeliveredDocument }.

(** [document.batch_id && BROADCAST_KINDS.includes(document.kind)]. *)
Definition is_broadcast (d : DeliveredDocument) : bool :=
  truthy_str (batch_id d) && bool_decide (doc_kind d ∈ BROADCAST_KINDS).

Definition batch_key (d : DeliveredDocument) : string := kind_text (doc_kind d) ++ ":" ++ default "" (batch_id d).

Definition push_document (d : DeliveredDocument) (e : OutboxEntry) : OutboxEntry :=
  {| entry_key := entry_key e; documents := (documents e ++ [d])%list |}.

(** The state of the loop: the entries, and the position of each batch's entry. *)
Definition outbox_step (st : list OutboxEntry * list (string * nat)) (d : DeliveredDocument)
    : list OutboxEntry * list (string * nat) :=
  let '(entries, batches) := st in
  if is_broadcast d then
    match omap_get (batch_key d) batches with
    | Some i => (alter (push_document d) i entries, batches)
    | None => ((entries ++ [{| entry_key := batch_key d; documents := [d] |}])%list,
               omap_set (batch_key d) (length entries) batches)
    end
  else ((entries ++ [{| entry_key := doc_id d; documents := [d] |}])%list, batches).

Definition groupOutbox (docs : list DeliveredDocument) : list OutboxEntry := (foldl outbox_step ([], []) docs).1.

Definition countByKind (docs : list DeliveredDocument) : list (DocumentKind * Z) :=
  foldl (λ counts d, omap_set (doc_kind d) (default 0%Z (omap_get (doc_kind d) counts) + 1)%Z counts)
    (map (λ k, (k, 0%Z)) DOCUMENT_KINDS) docs.

Definition KIB : num := of_Z 1024.
Definition MIB : num := of_Z (1024 * 1024).

Definition formatFileSize (bytes : option num) : string :=
  match bytes with
  | None => ""
  | Some b =>
      if num_lt b KIB then num_to_string b ++ " B"
      else if num_lt b MIB then num_to_string (math_round (num_div b KIB)) ++ " KB"
      else to_fixed 1 (num_div b MIB) ++ " MB"
  end.

Definition MAX_UPLOAD_BYTES : Z := (10 * 1024 * 1024)%Z.

(** The fields of a browser [File] the check reads. *)
Record UploadFile := { file_name : string; file_size : Z; file_type : string }.
Inductive UploadFileProblem := FileEmpty | FileTooLarge | FileNotPdf.

Definition uploadFileProblem (file : UploadFile) : option UploadFileProblem :=
  if (file_size file =? 0)%Z then Some FileEmpty
  else if (MAX_UPLOAD_BYTES <? file_size file)%Z then Some FileTooLarge
  else if negb (String.eqb (file_type file) "application/pdf") && negb (ends_with ".pdf" (to_lower (file_name file)))
  then Some FileNotPdf
  else None.

(** ** The reference: who leads an entry, and what belongs to it *)

(** The same broadcast: a notice or overview of one kind, sent in one batch. *)
Definition same_delivery (d e : DeliveredDocument) : bool :=
  is_broadcast d && is_broadcast e && bool_decide (doc_kind d = doc_kind e) && bool_decide (batch_id d = batch_id e).

(** A document leads an entry unless an earlier one of its broadcast does. *)
Definition leads (before : list DeliveredDocument) (d : DeliveredDocument) : bool := negb (existsb (same_delivery d) before).

Fixpoint leaders (before docs : list DeliveredDocument) : list DeliveredDocument :=
  match docs with
  | [] => []
  | d :: rest => (if leads before d then [d] else []) ++ leaders (before ++ [d]) rest
  end%list.

Definition entry_for (docs : list DeliveredDocument) (d : DeliveredDocument) : OutboxEntry :=
  if is_broadcast d then {| entry_key := batch_key d; documents := bfilter (same_delivery d) docs |}
  else {| entry_key := doc_id d; documents := [d] |}.

Lemma same_delivery_broadcast d e : same_delivery d e = true → is_broadcast d = true ∧ is_broadcast e = true.
Proof. unfold same_delivery. rewrite !andb_true_iff. tauto. Qed.

Lemma batch_key_inj d e : is_broadcast d = true → is_broadcast e = true → batch_key d = batch_key e → same_delivery d e = true.
Proof.
  intros Hd He Hk. unfold same_delivery. rewrite Hd, He. unfold is_broadcast in Hd, He.
  apply andb_true_iff in Hd as [Hb Hd], He as [Hc He]. apply bool_decide_eq_true in Hd, He.
  apply truthy_str_Some in Hb as (b & Hb & _), Hc as (c & Hc & _).
  unfold batch_key in Hk. rewrite Hb, Hc in *. unfold BROADCAST_KINDS in Hd, He.
  repeat rewrite elem_of_cons in Hd, He.
  destruct Hd as [Hd|[Hd|Hd]]; [| |by apply elem_of_nil in Hd];
    (destruct He as [He|[He|He]]; [| |by apply elem_of_nil in He]); rewrite Hd, He in *; cbn in Hk; try discriminate;
    injection Hk as ->; by rewrite !bool_decide_eq_true_2.
Qed.

Lemma same_delivery_key d e : same_delivery d e = true → batch_key d = batch_key e.
Proof.
  unfold same_delivery, batch_key. rewrite !andb_true_iff, !bool_decide_eq_true. by intros [[_ ->] ->].
Qed.

(** The same broadcast exactly when both are broadcasts of one key. *)
Lemma same_delivery_iff d e :
  same_delivery d e = true ↔ is_broadcast d = true ∧ is_broadcast e = true ∧ batch_key d = batch_key e.
Proof.
  split; [intros H; split_and!; [by destruct (same_delivery_broadcast _ _ H).. |by apply same_delivery_key]|].
  intros (? & ? & ?). by apply batch_key_inj.
Qed.

Lemma leaders_snoc before docs d :
  leaders before (docs ++ [d])%list = (leaders before docs ++ (if leads (before ++ docs) d then [d] else []))%list.
Proof.
  induction docs as [|e docs IH] in before |- *; simpl; [by rewrite !app_nil_r|].
  by rewrite IH, <- !app_assoc.
Qed.

Lemma leader_elem before docs d : d ∈ leaders before docs → d ∈ docs.
Proof.
  induction docs as [|e docs IH] in before |- *; simpl; [done|]. rewrite elem_of_app, elem_of_cons.
  intros [H|H]; [|right; by eapply IH]. destruct (leads before e); [|by apply elem_of_nil in H].
  apply list_elem_of_singleton in H as ->. by left.
Qed.

(** Every broadcast has a leader of its key. *)
Lemma leader_exists docs d :
  d ∈ docs → is_broadcast d = true → ∃ l, l ∈ leaders [] docs ∧ is_broadcast l = true ∧ batch_key l = batch_key d.
Proof.
  induction docs as [|e docs IH] using rev_ind in d |- *; [by intros ?%elem_of_nil|].
  rewrite elem_of_app, list_elem_of_singleton, leaders_snoc. simpl. intros Hd Hb.
  assert (∀ f, f ∈ docs → is_broadcast f = true → batch_key f = batch_key d →
    ∃ l, l ∈ (leaders [] docs ++ (if leads docs e then [e] else []))%list ∧ is_broadcast l = true ∧ batch_key l = batch_key d) as Hold.
  { intros f Hf Hbf Hk. destruct (IH f Hf Hbf) as (l & Hl & Hbl & Hkl). exists l.
    rewrite elem_of_app, Hkl. auto. }
  destruct Hd as [Hd| ->]; [by apply (Hold d)|]. destruct (leads docs e) eqn:Hf.
  - exists e. by rewrite elem_of_app, list_elem_of_singleton; auto.
  - apply negb_false_iff, existsb_elem in Hf as (f & Hf & Hs). apply same_delivery_iff in Hs as (_ & Hbf & Hk).
    by apply (Hold f).
Qed.

Lemma entry_for_other docs d l : same_delivery l d = false → entry_for (docs ++ [d]) l = entry_for docs l.
Proof.
  intros Hs. unfold entry_for, bfilter. rewrite List.filter_app. simpl. by rewrite Hs, app_nil_r.
Qed.

Lemma same_delivery_sym d e : same_delivery d e = same_delivery e d.
Proof. apply eq_true_iff_eq. rewrite !same_delivery_iff. intuition congruence. Qed.

Lemma leads_true docs d : leads docs d = true ↔ ∀ e, e ∈ docs → same_delivery d e = false.
Proof.
  unfold leads. rewrite negb_true_iff, <- not_true_iff_false, existsb_elem. split.
  - intros H e He. apply not_true_iff_false. intros Hs. apply H. by exists e.
  - intros H (e & He & Hs). by rewrite H in Hs.
Qed.

Lemma entry_for_same docs d l :
  is_broadcast l = true → is_broadcast d = true → batch_key l = batch_key d →
  entry_for (docs ++ [d]) l = push_document d (entry_for docs l).
Proof.
  intros Hl Hd Hk. unfold entry_for, push_document, bfilter. rewrite Hl, List.filter_app. simpl.
  by rewrite (batch_key_inj l d Hl Hd Hk).
Qed.

(** The loop's invariant: the entries are the leaders' entries, and the map knows
    the position of every broadcast leader by its key. *)
Definition outbox_inv (docs : list DeliveredDocument) (st : list OutboxEntry * list (string * nat)) : Prop :=
  st.1 = map (entry_for docs) (leaders [] docs)
  ∧ ∀ k i, omap_get k st.2 = Some i ↔ ∃ l, leaders [] docs !! i = Some l ∧ is_broadcast l = true ∧ batch_key l = k.

(** A broadcast is known to the map unless it leads. *)
Lemma outbox_inv_known docs st d :
  outbox_inv docs st → is_broadcast d = true → omap_get (batch_key d) st.2 = None ↔ leads docs d = true.
Proof.
  intros [_ Hm] Hb. rewrite leads_true, eq_None_not_Some. split.
  - intros Hn e He. apply not_true_iff_false. intros Hs. apply same_delivery_iff in Hs as (_ & Hbe & Hk).
    destruct (leader_exists docs e He Hbe) as (l & Hl & Hbl & Hkl). apply list_elem_of_lookup in Hl as [i Hi].
    apply Hn. exists i. apply Hm. exists l. split_and!; congruence.
  - intros Hn [i Hi]. apply Hm in Hi as (l & Hl & Hbl & Hkl). 
    assert (same_delivery d l = true) as Hs by (by apply same_delivery_iff). rewrite Hn in Hs; [done|].
    by eapply leader_elem, list_elem_of_lookup_2.
Qed.

(** A new leader adds its entry and changes no other. *)
Lemma entries_leader docs d :
  leads docs d = true →
  map (entry_for (docs ++ [d])) (leaders [] (docs ++ [d]))
  = (map (entry_for docs) (leaders [] docs)
     ++ [{| entry_key := if is_broadcast d then batch_key d else doc_id d; documents := [d] |}])%list.
Proof.
  intros Hl. rewrite leaders_snoc. simpl. rewrite Hl, map_app. rewrite leads_true in Hl. f_equal.
  - apply map_ext_in. intros l Hin. apply entry_for_other. rewrite same_delivery_sym.
    by apply Hl, (leader_elem []), list_elem_of_In.
  - simpl. f_equal. unfold entry_for, bfilter. destruct (is_broadcast d) eqn:Hb; [|done].
    rewrite List.filter_app. simpl. rewrite (proj2 (same_delivery_iff d d)) by done.
    f_equal. change (bfilter (same_delivery d) docs ++ [d] = [d])%list. by rewrite (proj2 (bfilter_nil _ _)).
Qed.

(** A broadcast that does not lead joins its leader's entry. *)
Lemma entries_joined docs d i l :
  leaders [] docs !! i = Some l → same_delivery l d = true →
  (∀ j l', leaders [] docs !! j = Some l' → same_delivery l' d = true → j = i) →
  map (entry_for (docs ++ [d])) (leaders [] docs) = alter (push_document d) i (map (entry_for docs) (leaders [] docs)).
Proof.
  intros Hi Hs Hu. apply list_eq. intros j. rewrite list_lookup_alter, !list_lookup_fmap.
  destruct (decide (i = j)) as [<-|Hne].
  - rewrite Hi. simpl. apply same_delivery_iff in Hs as (? & ? & ?). by rewrite entry_for_same.
  - destruct (leaders [] docs !! j) as [l'|] eqn:Hj; [|done]. simpl. f_equal. apply entry_for_other.
    apply not_true_iff_false. intros Hs'. by apply Hne, eq_sym, (Hu j l').
Qed.

(** The map's positions after an entry was appended for the leader [d]. *)
Lemma positions_leader docs d batches :
  leads docs d = true →
  (∀ k i, omap_get k batches = Some i ↔ ∃ l, leaders [] docs !! i = Some l ∧ is_broadcast l = true ∧ batch_key l = k) →
  ∀ k i, omap_get k (if is_broadcast d then omap_set (batch_key d) (length (leaders [] docs)) batches else batches) = Some i ↔
    ∃ l, leaders [] (docs ++ [d]) !! i = Some l ∧ is_broadcast l = true ∧ batch_key l = k.
Proof.
  intros Hl Hm k i. rewrite leaders_snoc. simpl. rewrite Hl.
  assert ((∃ l, (leaders [] docs ++ [d])%list !! i = Some l ∧ is_broadcast l = true ∧ batch_key l = k) ↔
    omap_get k batches = Some i ∨ i = length (leaders [] docs) ∧ is_broadcast d = true ∧ batch_key d = k) as ->.
  { rewrite Hm. setoid_rewrite lookup_app_Some. setoid_rewrite list_lookup_singleton_Some. split.
    - intros (l & [Hi|[Hge [Hz <-]]] & Hb & Hk); [by left; exists l|]. right. split_and!; [lia|done..].
    - intros [(l & ?)|(-> & ?)]; [exists l; tauto|]. exists d. split; [right; split; [lia|split; [lia|done]]|tauto]. }
  destruct (is_broadcast d) eqn:Hb; [|intuition discriminate].
  destruct (decide (k = batch_key d)) as [->|Hne].
  - rewrite omap_get_set_eq. assert (omap_get (batch_key d) batches = None) as ->; [|naive_solver].
    apply eq_None_not_Some. intros [j Hj]. apply Hm in Hj as (l & Hlj & Hbl & Hkl). rewrite leads_true in Hl.
    assert (same_delivery d l = true) as Hs by (by apply same_delivery_iff). rewrite Hl in Hs; [done|].
    by eapply leader_elem, list_elem_of_lookup_2.
  - rewrite omap_get_set_ne by done. naive_solver.
Qed.

Lemma outbox_inv_step docs st d : outbox_inv docs st → outbox_inv (docs ++ [d]) (outbox_step st d).
Proof.
  intros Hinv. pose proof (outbox_inv_known docs st d Hinv) as Hk. destruct st as [entries batches], Hinv as [He Hm].
  cbn [fst snd] in *. destruct (leads docs d) eqn:Hl.
  - unfold outbox_inv. rewrite entries_leader by done. rewrite <- He.
    pose proof (positions_leader docs d batches Hl Hm) as Hp.
    assert (length entries = length (leaders [] docs)) as Hlen by (by rewrite He, length_map).
    unfold outbox_step. destruct (is_broadcast d); cbn [fst snd]; [|done].
    rewrite (proj2 (Hk eq_refl)) by done. cbn [fst snd]. by rewrite Hlen.
  - destruct (is_broadcast d) eqn:Hb.
    2: { apply not_true_iff_false in Hl as []. apply leads_true. intros e _. unfold same_delivery. by rewrite Hb. }
    specialize (Hk eq_refl). unfold outbox_step. rewrite Hb.
    destruct (omap_get (batch_key d) batches) as [i|] eqn:Hg; [|by destruct Hk as [?%(λ f, f eq_refl) _]].
    unfold outbox_inv. rewrite leaders_snoc. simpl. rewrite Hl, app_nil_r. split; [|done].
    destruct (proj1 (Hm _ _) Hg) as (l & Hi & Hbl & Hkl). rewrite He. symmetry. apply (entries_joined _ _ _ l); [done| |].
    + by apply same_delivery_iff.
    + intros j l' Hj Hs. apply same_delivery_iff in Hs as (Hbl' & _ & Hkl').
      assert (omap_get (batch_key d) batches = Some j) by (apply Hm; by exists l'). congruence.
Qed.

Lemma outbox_inv_all docs : outbox_inv docs (foldl outbox_step ([], []) docs).
Proof.
  induction docs as [|d docs IH] using rev_ind.
  - split; [done|]. intros k i. simpl. split; [done|]. intros (l & Hl & _). by rewrite lookup_nil in Hl.
  - rewrite foldl_app. by apply outbox_inv_step.
Qed.

(** ** Theorems *)

Lemma flat_map_push d i entries :
  is_Some (entries !! i) →
  Permutation (flat_map documents (alter (push_document d) i entries)) (d :: flat_map documents entries).
Proof.
  intros [e He]. revert i He. induction entries as [|e' entries IH]; intros [|i] He; try done; simpl.
  - rewrite <- app_assoc. symmetry. apply Permutation_middle.
  - rewrite (IH i He). symmetry. apply Permutation_middle.
Qed.

(** C30. The outbox holds one entry per leader, in the order of the documents: a single
    document, or a broadcast with every row it produced, in order; and every
    document is in exactly one entry. *)
Theorem groupOutbox_deliveries docs :
  groupOutbox docs = map (entry_for docs) (leaders [] docs) ∧
  Permutation (flat_map documents (groupOutbox docs)) docs ∧
  Forall (λ e, documents e ≠ []) (groupOutbox docs).
Proof.
  split_and!.
  - apply outbox_inv_all.
  - unfold groupOutbox. induction docs as [|d docs IH] using rev_ind; [done|].
    rewrite foldl_app. simpl. pose proof (outbox_inv_all docs) as Hi.
    destruct (foldl outbox_step ([], []) docs) as [entries batches]. destruct Hi as [He Hm]. cbn [fst snd] in *.
    rewrite <- Permutation_cons_append, <- IH.
    assert (∀ e, documents e = [d] → Permutation (flat_map documents (entries ++ [e])) (d :: flat_map documents entries)) as Happ.
    { intros e Hd. rewrite flat_map_app. simpl. rewrite Hd. symmetry. apply Permutation_cons_append. }
    unfold outbox_step. destruct (is_broadcast d); [|by apply Happ].
    destruct (omap_get (batch_key d) batches) as [i|] eqn:Hg; [|by apply Happ]. apply flat_map_push.
    apply Hm in Hg as (l & Hl & _). rewrite He, list_lookup_fmap, Hl. by eexists.
  - unfold groupOutbox. rewrite (proj1 (outbox_inv_all docs)). apply Forall_forall. intros e (l & -> & Hl)%list_elem_of_fmap. unfold entry_for.
    destruct (is_broadcast l) eqn:Hb; [|done]. cbn [documents]. intros Hn.
    assert (same_delivery l l = true) as Hs by (by apply same_delivery_iff).
    by rewrite (proj1 (bfilter_nil _ _) Hn l (leader_elem [] docs l Hl)) in Hs.
Qed.

(** The counts are the numbers of documents of each kind. *)
Lemma countByKind_spec docs k :
  omap_get k (countByKind docs) = Some (Z.of_nat (length (bfilter (λ d, bool_decide (doc_kind d = k)) docs))).
Proof.
  induction docs as [|d docs IH] using rev_ind; [by destruct k|].
  unfold countByKind in *. rewrite foldl_app. unfold bfilter in *. rewrite List.filter_app, length_app. cbn [foldl List.filter].
  destruct (decide (doc_kind d = k)) as [E|E].
  - rewrite bool_decide_eq_true_2 by done. rewrite E, omap_get_set_eq, IH. simpl. f_equal. lia.
  - rewrite bool_decide_eq_false_2 by done. rewrite omap_get_set_ne by done. rewrite IH. simpl. f_equal. lia.
Qed.

(** A file is accepted exactly when it has content, is at most 10 MiB, and is a
    PDF by its type or its name. *)
Lemma uploadFileProblem_None file :
  uploadFileProblem file = None ↔
  file_size file ≠ 0%Z ∧ (file_size file <= MAX_UPLOAD_BYTES)%Z ∧
  (file_type file = "application/pdf" ∨ ends_with ".pdf" (to_lower (file_name file)) = true).
Proof.
  unfold uploadFileProblem. destruct (Z.eqb_spec (file_size file) 0); [by split; [|intros []]|].
  destruct (Z.ltb_spec MAX_UPLOAD_BYTES (file_size file)); [split; [done|lia]|].
  destruct (String.eqb_spec (file_type file) "application/pdf") as [->|Hne]; simpl; [by repeat split; try lia; left|].
  destruct (ends_with _ _); simpl; [by repeat split; try lia; right|].
  split; [done|]. by intros (_ & _ & [?|?]).
Qed.
