(* ===== verification/Overview.v ===== *)
(** The overview's period cards and readiness texts: the rules of
    frontend/src/features/overview/periodCards.ts and readinessPresentation.ts over
    the records of frontend/src/types/api.ts. The card entries of the map are shared
    objects; here the map holds them by value and a push updates it. Translations
    and [localeCompare] are parameters. *)

From S2P Require Import Prelude JsString.
Local Open Scope string_scope.

Inductive ReadinessStepKey :=
  StepKeyMetering | StepKeyAssignments | StepKeyTariffs | StepKeyDataCorrections | StepKeyGenerated
  | StepKeyGenerationConflicts | StepKeyCharges | StepKeyApproved | StepKeySent | StepKeyPaid.
#[export] Instance ReadinessStepKey_eq_dec : EqDecision ReadinessStepKey.
Proof. solve_decision. Defined.

Inductive ReadinessStepStatus := ReadyOk | ReadyWarn | ReadyTodo | ReadyDone.
#[export] Instance ReadinessStepStatus_eq_dec : EqDecision ReadinessStepStatus.
Proof. solve_decision. Defined.

Inductive ReadinessNextAction :=
  FixMetering | FixAssignments | FixTariffs | ReviewDataCorrections | Generate | ReviewGenerationConflicts
  | Approve | Send | TrackPayments | NoAction.

Record ReadinessStepMeterGap := { gap_meter_id : string; gap_missing_days : Z; meter_gap_from : string; meter_gap_to : string }.

Record ReadinessConflictInvoice := {
  ci_id : string; ci_number : string; ci_status : string; ci_start : string; ci_end : string;
}.
Record ReadinessConflict := {
  conflict_participant_id : string; conflict_participant_name : string; conflict_invoices : list ReadinessConflictInvoice;
}.
Record ReadinessDataCorrection := {
  dc_invoice_id : string; dc_invoice_number : string; dc_participant_name : string; dc_status : string;
  dc_delivery_id : string; dc_flagged_at : string; dc_correction_count : Z;
}.

Record ReadinessStepDetailData := {
  missing_days : option Z; meters : option (list ReadinessStepMeterGap); more_meters : option Z;
  unassigned_readings : option Z; unassigned_days : option Z; detail_ranges : option (list (string * string));
  more_ranges : option Z; missing : option Z; missing_participants : option (list string); more_missing : option Z;
  conflict_count : option Z; conflicts : option (list ReadinessConflict); more_conflicts : option Z;
  detail_correction_count : option Z; corrections : option (list ReadinessDataCorrection); more_corrections : option Z;
  unpaid : option Z; stale_drafts : option Z; unbilled_charges : option (list string); more_unbilled : option Z;
}.

Record ReadinessStep := {
  step_key : ReadinessStepKey; step_status : ReadinessStepStatus; step_count : Z; step_total : option Z;
  step_failed : option Z; step_detail : option string; detail_data : option ReadinessStepDetailData; step_link : option string;
}.

Record ReadinessSetupBlock := {
  setup_participants : Z; setup_metering_points : Z; setup_tariffs : Z; settings_complete : bool; setup_complete : bool;
  setup_reason : option string; assignment_link : option string; billing_settings_complete : bool;
  billing_settings_link : option string; issuer_complete : bool; issuer_missing : option string; issuer_link : option string;
}.

Inductive PeriodSource := SourceCalendar | SourceInvoice.

(** [ReadinessPeriod['period']]. *)
Record CardPeriod := {
  start_of : string; end_of : string; interval_of : option string; source_of : PeriodSource; ended : bool;
}.
Record ReadinessPeriod := {
  readiness_period : CardPeriod; readiness_steps : list ReadinessStep; next_action : ReadinessNextAction;
  caught_up : option bool; readiness_setup : option ReadinessSetupBlock;
}.

Inductive AttentionItemType := EmailFailed | InvoiceOverdue | ParticipantValidity.
#[export] Instance AttentionItemType_eq_dec : EqDecision AttentionItemType.
Proof. solve_decision. Defined.

Record AlertPeriod := { alert_start : string; alert_end : string; alert_interval : option string }.

Record AttentionItem := {
  alert_id : string; alert_type : AttentionItemType; alert_label : string; alert_period : option AlertPeriod;
  alert_invoice_id : option string; alert_link : string; alert_invoice_number : option string; recipient : option string;
  alert_due_date : option string; alert_participant_id : option string; alert_participant_name : option string;
  alert_valid_to : option string; expired : option bool;
}.

(** ** Period cards *)

Record PeriodCardEntry := { card_period : CardPeriod; card_readiness : option ReadinessPeriod; card_alerts : list AttentionItem }.

Definition period_key (start stop : string) : string := start ++ "/" ++ stop.
Definition periodKey (p : CardPeriod) : string := period_key (start_of p) (end_of p).

Definition isOpenStep (s : ReadinessStep) : bool :=
  bool_decide (step_status s = ReadyWarn) || bool_decide (step_status s = ReadyTodo).

Definition add_readiness (entries : list (string * PeriodCardEntry)) (r : ReadinessPeriod) : list (string * PeriodCardEntry) :=
  omap_set (periodKey (readiness_period r))
    {| card_period := readiness_period r; card_readiness := Some r; card_alerts := [] |} entries.

Definition push_alert (a : AttentionItem) (e : PeriodCardEntry) : PeriodCardEntry :=
  {| card_period := card_period e; card_readiness := card_readiness e; card_alerts := (card_alerts e ++ [a])%list |}.

Definition invoice_card (p : AlertPeriod) : PeriodCardEntry :=
  {| card_period := {| start_of := alert_start p; end_of := alert_end p; interval_of := None;
                       source_of := SourceInvoice; ended := true |};
     card_readiness := None; card_alerts := [] |}.

(** The period an alert is filed under; the rest are community notices. *)
Definition filed_under (a : AttentionItem) : option AlertPeriod :=
  if bool_decide (alert_type a = ParticipantValidity) then None else alert_period a.

Definition add_alert (st : list (string * PeriodCardEntry) * list AttentionItem) (a : AttentionItem)
    : list (string * PeriodCardEntry) * list AttentionItem :=
  let '(entries, community) := st in
  match filed_under a with
  | None => (entries, (community ++ [a])%list)
  | Some p =>
      let key := period_key (alert_start p) (alert_end p) in
      let entry := default (invoice_card p) (omap_get key entries) in
      (omap_set key (push_alert a entry) entries, community)
  end.

Record PeriodCards := {
  cards_open : list PeriodCardEntry; cards_current : list PeriodCardEntry; cards_completed : list PeriodCardEntry;
  cards_community : list AttentionItem;
}.

Definition has_open_step (e : PeriodCardEntry) : bool :=
  match card_readiness e with Some r => existsb isOpenStep (readiness_steps r) | None => false end.

Definition is_open_card (e : PeriodCardEntry) : bool :=
  (0 <? length (card_alerts e))%nat || (ended (card_period e) && has_open_step e).
Definition is_current_card (e : PeriodCardEntry) : bool :=
  negb (ended (card_period e)) && (length (card_alerts e) =? 0)%nat.
Definition is_completed_card (e : PeriodCardEntry) : bool :=
  ended (card_period e) && (length (card_alerts e) =? 0)%nat && bool_decide (is_Some (card_readiness e)) && negb (has_open_step e).

Section Cards.
Context (localeCompare : string → string → Z).

Definition card_le (a b : PeriodCardEntry) : bool :=
  let c := localeCompare (start_of (card_period a)) (start_of (card_period b)) in
  ((if c =? 0 then localeCompare (end_of (card_period a)) (end_of (card_period b)) else c) <=? 0)%Z.

Definition groupPeriodCards (periods : list ReadinessPeriod) (alerts : list AttentionItem) : PeriodCards :=
  let '(entries, community) := foldl add_alert (foldl add_readiness [] periods, []) alerts in
  let ordered := sort_by card_le entries.*2 in
  {| cards_open := bfilter is_open_card ordered; cards_current := bfilter is_current_card ordered;
     cards_completed := bfilter is_completed_card ordered; cards_community := community |}.
End Cards.

Definition NEXT_ACTION_STEP_KEYS (a : ReadinessNextAction) : list ReadinessStepKey :=
  match a with
  | FixMetering => [StepKeyMetering]
  | FixAssignments => [StepKeyAssignments]
  | FixTariffs => [StepKeyTariffs]
  | ReviewDataCorrections => [StepKeyDataCorrections]
  | Generate => [StepKeyGenerated; StepKeyCharges]
  | ReviewGenerationConflicts => [StepKeyGenerationConflicts]
  | Approve => [StepKeyApproved]
  | Send => [StepKeySent]
  | TrackPayments => [StepKeyPaid]
  | NoAction => []
  end.

Definition primaryPeriodStep (e : PeriodCardEntry) : option ReadinessStep :=
  if negb (ended (card_period e)) then None
  else r ← card_readiness e;
       find_first (λ s, bool_decide (step_key s ∈ NEXT_ACTION_STEP_KEYS (next_action r)) && isOpenStep s) (readiness_steps r).

Definition invoice_key (a : AttentionItem) : string := or_str (alert_invoice_id a) (alert_id a).

Definition groupInvoiceAlerts (alerts : list AttentionItem) : list (list AttentionItem) :=
  (foldl (λ groups a, omap_set (invoice_key a) (default [] (omap_get (invoice_key a) groups) ++ [a])%list groups) [] alerts).*2.

(** ** Texts *)

(** An option of a translation: a number, or a text that may be [undefined]. *)
Inductive TextVar := VarNum (n : Z) | VarText (s : option string).

Section Texts.
Context (t : string → list (string * TextVar) → string).

Definition step_text (key : string) (vars : list (string * TextVar)) : string :=
  t ("pages.dashboard.cockpit.stepDetails." ++ key) vars.

Definition stepDetailText (step : ReadinessStep) : option string :=
  let data {A} (f : ReadinessStepDetailData → option A) : option A := detail_data step ≫= f in
  let total := default 0%Z (step_total step) in
  let warned := bool_decide (step_status step = ReadyWarn) in
  let todo := bool_decide (step_status step = ReadyTodo) in
  match step_key step with
  | StepKeyMetering =>
      if negb warned then None
      else Some (step_text "meteringWarn" [("count", VarNum (step_count step)); ("days", VarNum (default 0%Z (data missing_days)))])
  | StepKeyAssignments =>
      if negb warned then None else Some (step_text "assignmentsWarn" [("readings", VarNum (step_count step))])
  | StepKeyTariffs =>
      if todo then Some (step_text "tariffsTodo" [])
      else if warned then Some (step_text "tariffsWarn" [("days", VarNum (step_count step)); ("total", VarNum total)])
      else None
  | StepKeyGenerated =>
      if negb todo then None
      else Some (step_text "generatedTodo"
             [("missing", VarNum (default (Z.max 0 (total - step_count step)) (data missing))); ("total", VarNum total)])
  | StepKeyGenerationConflicts =>
      if negb warned then None
      else Some (step_text "conflictsWarn"
             [("count", VarNum (default (step_count step) (data conflict_count)));
              ("names", VarText (Some (join ", " (map conflict_participant_name (take 3 (default [] (data conflicts)))))))])
  | StepKeyCharges =>
      if todo then Some (step_text "chargesTodo" [("count", VarNum (default 0%Z (data stale_drafts)))])
      else if negb warned then None
      else let unbilled := default [] (data unbilled_charges) in
           Some (step_text "chargesWarn"
             [("count", VarNum (Z.of_nat (length unbilled) + default 0%Z (data more_unbilled)));
              ("names", VarText (Some (join ", " unbilled)))])
  | StepKeyDataCorrections =>
      if negb warned then None
      else Some (step_text "correctionsWarn"
             [("count", VarNum (step_count step));
              ("invoices", VarText (Some (join ", " (map dc_invoice_number (take 3 (default [] (data corrections)))))))])
  | StepKeyApproved => if negb todo then None else Some (step_text "approvedTodo" [("count", VarNum (step_count step))])
  | StepKeySent =>
      if negb todo then None
      else let parts := ((if (0 <? step_count step)%Z then [step_text "sentTodo" [("count", VarNum (step_count step))]] else [])
             ++ match step_failed step with
                | Some f => if (f =? 0)%Z then [] else [step_text "emailFailedTodo" [("failed", VarNum f)]]
                | None => []
                end)%list in
           match parts with [] => None | _ => Some (join " · " parts) end
  | StepKeyPaid =>
      if negb todo then None
      else Some (step_text "paidTodo" [("unpaid", VarNum (default (total - step_count step)%Z (data unpaid))); ("total", VarNum total)])
  end.

Definition attentionText (format : string → string) (item : AttentionItem) : string :=
  match alert_type item with
  | EmailFailed =>
      t "pages.dashboard.attention.text.emailFailed"
        [("number", VarText (alert_invoice_number item)); ("recipient", VarText (recipient item))]
  | InvoiceOverdue =>
      t "pages.dashboard.attention.text.invoiceOverdue"
        [("number", VarText (alert_invoice_number item)); ("due", VarText (Some (format (default "" (alert_due_date item)))))]
  | ParticipantValidity =>
      t (if default false (expired item) then "pages.dashboard.attention.text.participantExpired"
         else "pages.dashboard.attention.text.participantExpiring")
        [("name", VarText (alert_participant_name item)); ("validTo", VarText (Some (format (default "" (alert_valid_to item)))))]
  end.

(** The steps and statuses a text exists for. *)
Definition has_text (step : ReadinessStep) : bool :=
  match step_key step with
  | StepKeyTariffs | StepKeyCharges => isOpenStep step
  | StepKeyMetering | StepKeyAssignments | StepKeyGenerationConflicts | StepKeyDataCorrections =>
      bool_decide (step_status step = ReadyWarn)
  | StepKeySent =>
      bool_decide (step_status step = ReadyTodo)
      && ((0 <? step_count step)%Z || negb (default 0%Z (step_failed step) =? 0)%Z)
  | StepKeyGenerated | StepKeyApproved | StepKeyPaid => bool_decide (step_status step = ReadyTodo)
  end.

Lemma stepDetailText_shown step : is_Some (stepDetailText step) ↔ has_text step = true.
Proof.
  assert (∀ s : string, is_Some (Some s) ↔ true = true) as Ht by (intros; split; [done|by eexists]).
  assert (is_Some (@None string) ↔ false = true) as Hf by (split; [by intros []|done]).
  unfold stepDetailText, has_text, isOpenStep. destruct (step_key step), (step_status step); cbn [bool_decide negb orb andb];
    rewrite ?bool_decide_eq_true_2, ?bool_decide_eq_false_2 by done; simpl; try done.
  destruct (0 <? step_count step)%Z, (step_failed step) as [f|]; simpl; try done; destruct (f =? 0)%Z; done.
Qed.
End Texts.

(** ** The cards *)

Definition cards_of (g : PeriodCards) : list PeriodCardEntry := (cards_open g ++ cards_current g ++ cards_completed g)%list.
Definition card_key (e : PeriodCardEntry) : string := periodKey (card_period e).
Definition alert_key (a : AttentionItem) : option string :=
  (λ p, period_key (alert_start p) (alert_end p)) <$> filed_under a.

(** Every entry is stored under the key of its period, with the alerts of that key
    so far, and has readiness or an alert. *)
Definition entry_ok (alerts : list AttentionItem) (k : string) (e : PeriodCardEntry) : Prop :=
  card_key e = k ∧ card_alerts e = bfilter (λ a, bool_decide (alert_key a = Some k)) alerts
  ∧ (card_readiness e = None → card_alerts e ≠ [] ∧ ended (card_period e) = true).

Definition entries_ok (periods : list ReadinessPeriod) (alerts : list AttentionItem) (entries : list (string * PeriodCardEntry)) : Prop :=
  NoDup entries.*1
  ∧ (∀ k e, omap_get k entries = Some e → entry_ok alerts k e)
  ∧ (∀ k, k ∈ entries.*1 ↔ (∃ r, r ∈ periods ∧ periodKey (readiness_period r) = k) ∨ (∃ a, a ∈ alerts ∧ alert_key a = Some k)).

Lemma readiness_entries periods : entries_ok periods [] (foldl add_readiness [] periods).
Proof.
  induction periods as [|r periods IH] using rev_ind.
  - split_and!; [constructor|done|]. intros k. split; [by intros ?%elem_of_nil|].
    by intros [(r & ?%elem_of_nil & _)|(a & ?%elem_of_nil & _)].
  - rewrite foldl_app. simpl. destruct IH as (Hnd & He & Hk). unfold add_readiness at 1. split_and!.
    + by apply NoDup_omap_set.
    + intros k e. destruct (decide (k = periodKey (readiness_period r))) as [->|Hne].
      * rewrite omap_get_set_eq. by intros [= <-].
      * rewrite omap_get_set_ne by done. apply He.
    + intros k. rewrite omap_set_keys, elem_of_oset_add, Hk, exists_snoc. naive_solver.
Qed.

Lemma add_alert_entries periods alerts entries community a :
  entries_ok periods alerts entries → entries_ok periods (alerts ++ [a]) (add_alert (entries, community) a).1.
Proof.
  intros (Hnd & He & Hk). unfold add_alert. destruct (filed_under a) as [p|] eqn:Hf; cbn [fst].
  - assert (alert_key a = Some (period_key (alert_start p) (alert_end p))) as Ha by (unfold alert_key; by rewrite Hf).
    set (key := period_key (alert_start p) (alert_end p)) in *. split_and!.
    + by apply NoDup_omap_set.
    + intros k e. destruct (decide (k = key)) as [->|Hne].
      * rewrite omap_get_set_eq. intros [= <-]. unfold entry_ok, push_alert, card_key. cbn [card_period card_alerts card_readiness].
        rewrite bfilter_snoc, bool_decide_eq_true_2 by done.
        destruct (omap_get key entries) as [e|] eqn:Hg; simpl.
        -- destruct (He _ _ Hg) as (Hck & <- & Hr). split_and!; [done..|]. intros Hn. split; [|by apply Hr].
           by destruct (card_alerts e).
        -- split_and!; [done| |by split]. assert (key ∉ entries.*1) as Hni by by apply omap_get_None.
           rewrite (proj2 (bfilter_nil _ _)); [done|]. intros b Hb. apply bool_decide_eq_false. intros Hkb.
           apply Hni, Hk. right. by exists b.
      * rewrite omap_get_set_ne by done. intros Hg. destruct (He _ _ Hg) as (? & Hal & ?). split_and!; try done.
        rewrite bfilter_snoc, bool_decide_eq_false_2 by congruence. by rewrite app_nil_r.
    + intros k. rewrite omap_set_keys, elem_of_oset_add, Hk, exists_snoc. naive_solver.
  - assert (alert_key a = None) as Ha by (unfold alert_key; by rewrite Hf). split_and!; [done| |].
    + intros k e Hg. destruct (He _ _ Hg) as (? & Hal & ?). split_and!; try done.
      rewrite bfilter_snoc, bool_decide_eq_false_2 by congruence. by rewrite app_nil_r.
    + intros k. rewrite Hk, exists_snoc. naive_solver.
Qed.

Lemma alert_entries periods alerts :
  let st := foldl add_alert (foldl add_readiness [] periods, []) alerts in
  entries_ok periods alerts st.1 ∧ st.2 = bfilter (λ a, bool_decide (alert_key a = None)) alerts.
Proof.
  induction alerts as [|a alerts IH] using rev_ind; [by split; [apply readiness_entries|]|].
  cbn zeta in *. rewrite foldl_app. simpl.
  destruct (foldl add_alert _ alerts) as [entries community]. cbn [fst snd] in IH. destruct IH as [He ->]. split.
  - by apply add_alert_entries.
  - rewrite bfilter_snoc. unfold add_alert, alert_key. destruct (filed_under a); simpl.
    + by rewrite app_nil_r.
    + done.
Qed.

(** A card with readiness or an alert is shown in exactly one of the three lists. *)
Lemma card_shown_once e :
  (card_readiness e = None → card_alerts e ≠ [] ∧ ended (card_period e) = true) →
  (is_open_card e, is_current_card e, is_completed_card e) ∈ [(true, false, false); (false, true, false); (false, false, true)].
Proof.
  intros He. apply list_elem_of_In. unfold is_open_card, is_current_card, is_completed_card.
  destruct (card_alerts e), (ended (card_period e)), (has_open_step e); simpl; rewrite ?andb_false_r; auto;
    (destruct (card_readiness e); simpl; [auto|]; by destruct He).
Qed.

Lemma cards_partition l :
  Forall (λ e, card_readiness e = None → card_alerts e ≠ [] ∧ ended (card_period e) = true) l →
  Permutation (bfilter is_open_card l ++ bfilter is_current_card l ++ bfilter is_completed_card l) l.
Proof.
  induction 1 as [|e l He _ IH]; [done|]. apply card_shown_once in He. rewrite <- IH at 4. unfold bfilter. simpl.
  repeat rewrite elem_of_cons in He. rewrite elem_of_nil in He. destruct He as [He|[He|[He|[]]]]; injection He as -> -> ->.
  - done.
  - symmetry. apply Permutation_middle.
  - rewrite !app_assoc. symmetry. apply Permutation_middle.
Qed.

(** Every card is in exactly one of the three lists, one card per period of the
    readiness history or of an alert; it holds exactly the alerts of its period, in
    order, and the rest are community notices. *)
Theorem groupPeriodCards_partition localeCompare periods alerts :
  let g := groupPeriodCards localeCompare periods alerts in
  NoDup (map card_key (cards_of g)) ∧
  (∀ k, k ∈ map card_key (cards_of g) ↔
    (∃ r, r ∈ periods ∧ periodKey (readiness_period r) = k) ∨ (∃ a, a ∈ alerts ∧ alert_key a = Some k)) ∧
  (∀ e, e ∈ cards_of g → card_alerts e = bfilter (λ a, bool_decide (alert_key a = Some (card_key e))) alerts) ∧
  cards_community g = bfilter (λ a, bool_decide (alert_key a = None)) alerts.
Proof.
  cbn zeta. unfold groupPeriodCards. pose proof (alert_entries periods alerts) as Ha. cbn zeta in Ha.
  destruct (foldl add_alert _ alerts) as [entries community]. cbn [fst snd] in Ha.
  destruct Ha as ((Hnd & He & Hk) & ->). unfold cards_of. cbn [cards_open cards_current cards_completed cards_community].
  assert (∀ e, e ∈ entries.*2 → ∃ k, omap_get k entries = Some e ∧ entry_ok alerts k e) as Hok.
  { intros e ([k e'] & -> & Hin)%list_elem_of_fmap. exists k. pose proof (omap_elem_get _ _ _ Hnd Hin) as Hg. auto. }
  assert (Permutation (bfilter is_open_card (sort_by (card_le localeCompare) entries.*2) ++
    bfilter is_current_card (sort_by (card_le localeCompare) entries.*2) ++
    bfilter is_completed_card (sort_by (card_le localeCompare) entries.*2)) entries.*2) as Hp.
  { etrans; [|apply sort_by_perm]. apply cards_partition, Forall_forall. intros e Hin%elem_of_sort_by.
    by destruct (Hok e Hin) as (k & _ & _ & _ & ?). }
  assert (map card_key entries.*2 = entries.*1) as Hkeys.
  { rewrite map_map. apply map_ext_in. intros [k e] Hin%list_elem_of_In. simpl.
    by destruct (He k e (omap_elem_get _ _ _ Hnd Hin)) as (? & _). }
  split_and!.
  - by rewrite Hp, Hkeys.
  - intros k. by rewrite Hp, Hkeys.
  - intros e. rewrite Hp. intros Hin. destruct (Hok e Hin) as (k & _ & <- & ? & _). done.
  - done.
Qed.

(** The grouped rows hold every alert once, one group per invoice, and no group is
    empty. *)
Lemma groupInvoiceAlerts_groups alerts :
  ∃ keys, NoDup keys ∧ (∀ k, k ∈ keys ↔ ∃ a, a ∈ alerts ∧ invoice_key a = k) ∧
    groupInvoiceAlerts alerts = map (λ k, bfilter (λ a, bool_decide (invoice_key a = k)) alerts) keys.
Proof.
  unfold groupInvoiceAlerts.
  set (step := λ groups a, omap_set (invoice_key a) (default [] (omap_get (invoice_key a) groups) ++ [a])%list groups).
  assert (let m := foldl step [] alerts in NoDup m.*1 ∧ (∀ k, k ∈ m.*1 ↔ ∃ a, a ∈ alerts ∧ invoice_key a = k) ∧
    ∀ k, default [] (omap_get k m) = bfilter (λ a, bool_decide (invoice_key a = k)) alerts) as (Hnd & Hk & Hg).
  { induction alerts as [|a alerts IH] using rev_ind.
    - split_and!; [constructor|intros k; split; [by intros ?%elem_of_nil|by intros (? & ?%elem_of_nil & _)]|done].
    - rewrite foldl_app. simpl. destruct IH as (Hnd & Hk & Hg). unfold step at 1 3 5. split_and!.
      + by apply NoDup_omap_set.
      + intros k. rewrite omap_set_keys, elem_of_oset_add, Hk, exists_snoc. naive_solver.
      + intros k. rewrite bfilter_snoc, <- Hg. destruct (decide (k = invoice_key a)) as [->|Hne].
        * by rewrite omap_get_set_eq, bool_decide_eq_true_2.
        * rewrite omap_get_set_ne by done. rewrite bool_decide_eq_false_2 by done. by rewrite app_nil_r. }
  set (m := foldl step [] alerts) in *. exists m.*1. split_and!; [done..|]. rewrite map_map. apply map_ext_in.
  intros [k v] Hin%list_elem_of_In. simpl. by rewrite <- Hg, (omap_elem_get _ _ _ Hnd Hin).
Qed.
