(* ===== verification/LiveEnergy.v ===== *)
(** Live and forecast energy: the rules of frontend/src/lib/live.ts, lib/myEnergy.ts,
    lib/forecast.ts and the number formats of lib/numbers.ts, over the records of
    frontend/src/types/api.ts. Rows of the merged chart live in a map by timestamp
    that the source mutates; here each phase writes the map. A timestamp [None] is
    NaN, a [None] power is null. [Intl.NumberFormat] is a parameter. *)

From S2P Require Import Prelude JsString JsNumber JsDate Dates.
Local Open Scope string_scope.
Local Open Scope Z_scope.

Inductive SourceTarget := TargetMeteringPoint | TargetConnectionPoint.
#[export] Instance SourceTarget_eq_dec : EqDecision SourceTarget.
Proof. solve_decision. Defined.
Inductive SourceHolder := HeldByParticipant | HeldByZev.
Inductive LiveState := Fresh | Stale | Never.
#[export] Instance LiveState_eq_dec : EqDecision LiveState.
Proof. solve_decision. Defined.
Inductive LiveTier := TierNone | TierProduction | TierExact.
#[export] Instance LiveTier_eq_dec : EqDecision LiveTier.
Proof. solve_decision. Defined.
Inductive MeterType := MeterConsumption | MeterProduction | MeterBidirectional.
#[export] Instance MeterType_eq_dec : EqDecision MeterType.
Proof. solve_decision. Defined.

Record LiveOwn := {
  lo_consumption_w : option num; local_w : option num; grid_w : option num; lo_production_w : option num;
  to_zev_w : option num; to_grid_w : option num; own_gross : option num * option num; own_complete : bool;
  own_points : Z; own_points_fresh : Z; split_inconsistent : bool;
}.
Record LivePoint := {
  lp_metering_point_id : option string; lp_target : SourceTarget; lp_meter_id : option string; lp_meter_type : option MeterType;
  lp_participant_name : option string; lp_held_by : option SourceHolder; lp_live_state : LiveState;
  meter_power_w : option num; age_s : option num; lp_source_id : option string;
}.
Record LiveCoverage := {
  producing_points : Z; producing_fresh : Z; consuming_points : Z; consuming_fresh : Z;
  coverage_connection_point : option LiveState; live_sources : Z; coverage_points : Z; coverage_points_fresh : Z;
}.
Record LiveSnapshot := {
  snap_zev_id : string; as_of : option string; snap_tier : LiveTier; consumption_basis : option string;
  snap_production_w : option num; snap_consumption_w : option num; snap_surplus_w : option num; grid_import_w : option num;
  local_share_pct : option num; coverage : LiveCoverage; own : option LiveOwn; points : option (list LivePoint); max_age_s : num;
}.
Record LiveCurveBucket := {
  bucket_start : string; bucket_tier : LiveTier; bucket_production_w : option num; bucket_consumption_w : option num;
  bucket_surplus_w : option num; own_consumption_w : option num; own_local_w : option num; own_production_w : option num;
  bucket_points : option (list (option string * SourceTarget * option num));
}.
Record OwnHistoryRow := { hist_start : string; hist_consumption_w : num; hist_production_w : num }.
Record LiveCurve := {
  curve_date : string; bucket_s : Z; buckets : list LiveCurveBucket; own_history : list OwnHistoryRow;
  own_history_through : option string;
}.
Record GrossTimelineItem := {
  tl_bucket : string; tl_production_kwh : num; tl_consumption_kwh : num; tl_import_kwh : num; tl_export_kwh : num;
  tl_self_consumption_kwh : num;
}.
Inductive WithheldReason := LowCoverage | NoData.
Record GrossEnergy := {
  source_provider : option string; covered_from : string; covered_to : string; coverage_pct : num; gross_production_kwh : num;
  gross_consumption_kwh : num; gross_import_kwh : num; gross_export_kwh : num; gross_self_consumption_kwh : num;
  self_consumption_rate : option num; self_sufficiency_rate : option num; rates_withheld_reason : option WithheldReason;
  gross_timeline : option (list GrossTimelineItem);
}.
Inductive SeriesBucket := BucketQuarter | BucketHour | BucketDay.
Record OwnSeries := {
  os_participant_id : option string; date_from : string; date_to : string; series_bucket : SeriesBucket;
  history_through : option string; series_gross : option GrossEnergy;
}.
Record ForecastHour := { hour_start : string; power_w : num; min_w : option num; max_w : option num }.
Record ForecastPeakWindow := { window_date : string; window_from : string; window_to : string; peak_w : num }.
Record ForecastPlant := { plant_metering_point_id : string; plant_meter_id : string; plant_hours : list ForecastHour }.
Record ProductionForecast := {
  fc_zev_id : string; horizon_h : num; fc_complete : bool; plants : Z; plants_with_forecast : Z; fetched_at : option string;
  hours : list ForecastHour; peak_windows : list ForecastPeakWindow; per_plant : option (list ForecastPlant);
}.

Definition KILO : num := of_Z 1000.
Definition kw (watts : num) : num := num_div watts KILO.
Definition toKw (watts : option num) : option num := kw <$> watts.

(** ** Model of numbers.ts *)

Section Numbers.
(** [new Intl.NumberFormat('de-CH', { minimumFractionDigits, maximumFractionDigits, useGrouping: false }).format]. *)
Variable intl : Z → Z → num → string.
(** U+2013 and U+2212, and the no-break space, of the source. *)
Variables dash minus nbsp : string.

Definition formatNumber (value : num) (maxDecimals minDecimals : option Z) : string :=
  let lo := default 0 minDecimals in intl lo (Z.max (default 2 maxDecimals) lo) value.

Definition formatKwh (value : num) (maxDecimals : option Z) : string :=
  if negb (is_finite value) then dash else formatNumber value (Some (default 1 maxDecimals)) (Some 0).

Definition formatPercentFigure (value : num) (maxDecimals : option Z) : string :=
  if negb (is_finite value) then dash else formatNumber value (Some (default 1 maxDecimals)) None.

Definition formatPercent (value : num) (maxDecimals : option Z) : string :=
  if negb (is_finite value) then dash else formatPercentFigure value maxDecimals ++ nbsp ++ "%".

Definition HALF_CENT : num := of_ratio false 5 1000.

Definition formatChfAmount (value : num) : string :=
  if negb (is_finite value) || num_lt (num_abs value) HALF_CENT then "0.00"
  else let absFormatted := formatNumber (num_abs value) (Some 2) (Some 2) in
       if num_lt value (of_Z 0) then minus ++ absFormatted else absFormatted.

Definition formatChf (value : num) : string := "CHF " ++ formatChfAmount value.

Definition UNITS : list string := ["KiB"; "MiB"; "GiB"; "TiB"].

(** [do { ... } while (scaled >= 1024 && unitIndex < units.length - 1)]; [left] units remain. *)
Fixpoint scale_bytes (left : nat) (scaled : num) (unitIndex : nat) : num * nat :=
  let scaled := num_div scaled (of_Z 1024) in
  match left with
  | O => (scaled, unitIndex)
  | S left' => if num_ge scaled (of_Z 1024) then scale_bytes left' scaled (S unitIndex) else (scaled, unitIndex)
  end.

Definition formatBytes (value : num) : string :=
  if negb (is_finite value) || num_lt value (of_Z 0) then dash
  else if num_lt value (of_Z 1024) then num_to_string (math_round value) ++ " B"
  else let '(scaled, unitIndex) := scale_bytes (length UNITS - 1) value 0 in
       formatNumber scaled (Some 1) (Some 1) ++ " " ++ default "" (UNITS !! unitIndex).

(** ** Model of live.ts *)

Definition LIVE_SNAPSHOT_INTERVAL_MS : Z := 15000.

(** [None] is [false]: the query's data is null, so the polling stops. *)
Definition liveSnapshotRefetchInterval (data_is_null : bool) : option Z :=
  if data_is_null then None else Some LIVE_SNAPSHOT_INTERVAL_MS.

Definition kwFigure (watts : num) : string :=
  let k := kw watts in
  formatNumber (if num_eqb (math_round (num_mul k (of_Z 10))) (of_Z 0) then of_Z 0 else k) (Some 1) (Some 1).

Definition formatKw (watts : num) : string :=
  if is_finite watts then kwFigure watts ++ nbsp ++ "kW" else dash.
End Numbers.

Inductive LivePointFlow := Produced | Consumed | Fed | FromGrid | ToGrid.

Definition livePointFlow (point : LivePoint) : option (LivePointFlow * num) :=
  power ← meter_power_w point;
  if num_eqb (math_round (num_div power (of_Z 100))) (of_Z 0) then None
  else let drawing := num_gt power (of_Z 0) in
       let flow :=
         if bool_decide (lp_target point = TargetConnectionPoint) then (if drawing then FromGrid else ToGrid)
         else if drawing then Consumed
         else if bool_decide (lp_meter_type point = Some MeterProduction) then Produced else Fed in
       Some (flow, num_abs power).

Definition showLiveCard (snapshot : option LiveSnapshot) : bool :=
  match snapshot with Some s => 0 <? live_sources (coverage s) | None => false end.

Inductive OwnSplit := SplitShown | SplitInconsistent | SplitNone.
Record LiveCardState := {
  card_tier : LiveTier; detailed : bool; showProduction : bool; showExact : bool; ownConsumption : bool; ownProduction : bool;
  ownSplit : OwnSplit; ownProductionSplit : bool;
}.

Definition present {A} (o : option A) : bool := match o with Some _ => true | None => false end.

Definition liveCardState (snapshot : option LiveSnapshot) : option LiveCardState :=
  s ← snapshot;
  if negb (showLiveCard snapshot) then None
  else
    let exact := bool_decide (snap_tier s = TierExact) in
    let ownReady := match own s with Some o => own_complete o | None => false end in
    let own_has (f : LiveOwn → option num) := match own s with Some o => present (f o) | None => false end in
    let ownConsumption := ownReady && own_has lo_consumption_w in
    let ownProduction := ownReady && own_has lo_production_w in
    let split :=
      if exact && ownReady then
        if match own s with Some o => split_inconsistent o | None => false end then SplitInconsistent
        else if ownConsumption && own_has local_w && own_has grid_w then SplitShown else SplitNone
      else SplitNone in
    Some {| card_tier := snap_tier s; detailed := present (points s);
            showProduction := negb (bool_decide (snap_tier s = TierNone)) && present (snap_production_w s);
            showExact := exact; ownConsumption := ownConsumption; ownProduction := ownProduction; ownSplit := split;
            ownProductionSplit := exact && ownProduction && own_has to_zev_w && own_has to_grid_w |}.

Record LiveCurveRow := {
  lr_ts : option Z; lr_production : option num; lr_consumption : option num; lr_own : option num; lr_ownProduction : option num;
}.

Definition curve_row (bucket : LiveCurveBucket) : LiveCurveRow :=
  let known := negb (bool_decide (bucket_tier bucket = TierNone)) in
  {| lr_ts := date_parse (bucket_start bucket);
     lr_production := if known then toKw (bucket_production_w bucket) else None;
     lr_consumption := if bool_decide (bucket_tier bucket = TierExact) then toKw (bucket_consumption_w bucket) else None;
     lr_own := if known then toKw (own_consumption_w bucket) else None;
     lr_ownProduction := if known then toKw (own_production_w bucket) else None |}.

Definition liveCurveRows (bs : list LiveCurveBucket) : list LiveCurveRow := map curve_row bs.

(** [for (let ts = first; more(ts); ts += step)], at most [fuel] rounds. *)
Fixpoint for_steps (fuel : nat) (more : Z → bool) (step ts : Z) : list Z :=
  match fuel with
  | O => []
  | S fuel' => if more ts then ts :: for_steps fuel' more step (ts + step) else []
  end.

Record DayAxis := { axis_start : option Z; axis_end : option Z; ticks : list Z }.
Definition TICK_MS : Z := 3 * HOUR_MS.

Definition liveDayAxis `{Zone} (isoDate : string) : DayAxis :=
  let start := businessDayStartMs isoDate in
  let stop := businessDayStartMs (nextIsoDate isoDate) in
  {| axis_start := start; axis_end := stop;
     ticks := match start, stop with
              | Some s, Some e => for_steps (Z.to_nat ((e - s) / TICK_MS + 1)) (λ tick, tick <=? e) TICK_MS s
              | _, _ => []
              end |}.

(** [clockFormatter] and [clockMinuteFormatter]; [None] is the RangeError of an invalid date. *)
Definition formatClock `{Zone} (value : option Z) : option string :=
  (λ ms, let p := zonedParts ms in
    pad2 (zp_hours p) ++ ":" ++ pad2 (zp_minutes p) ++ ":" ++ pad2 (ms / 1000 mod 60))%string <$> value.

Definition formatClockMinutes `{Zone} (value : option Z) : option string :=
  (λ ms, let p := zonedParts ms in pad2 (zp_hours p) ++ ":" ++ pad2 (zp_minutes p))%string <$> value.

(** ** Model of forecast.ts *)

Record ForecastRow := { fr_ts : option Z; fr_power : num; fr_band : option (num * num) }.

Definition band_of (hour : ForecastHour) : option (num * num) :=
  lo ← min_w hour; hi ← max_w hour; Some (kw lo, kw hi).

Definition forecastRows (hs : list ForecastHour) : list ForecastRow :=
  map (λ hour, {| fr_ts := date_parse (hour_start hour); fr_power := kw (power_w hour); fr_band := band_of hour |}) hs.

Definition hasForecast (forecast : option ProductionForecast) : bool :=
  match forecast with
  | Some f => (0 <? plants_with_forecast f) && (0 <? length (hours f))%nat
  | None => false
  end.

Definition nextPeakWindow (windows : list ForecastPeakWindow) (now : Z) : option ForecastPeakWindow :=
  find_first (λ w, match date_parse (window_to w) with Some stop => now <? stop | None => false end) windows.

Inductive PeakDay := PeakToday | PeakTomorrow | PeakDate.

Section Forecast.
Context `{Zone}.

Definition peakDayKind (window : ForecastPeakWindow) (now : Z) : PeakDay :=
  if String.eqb (window_date window) (formatBusinessIsoDate now) then PeakToday
  else if String.eqb (window_date window) (formatBusinessIsoDate (now + 24 * HOUR_MS)) then PeakTomorrow else PeakDate.

Definition peakRange (dash : string) (window : ForecastPeakWindow) : option string :=
  from ← formatClockMinutes (date_parse (window_from window));
  to ← formatClockMinutes (date_parse (window_to window));
  Some (from ++ dash ++ to)%string.

Definition tomorrowBusinessIso (now : Z) : option string := shiftIsoDate (todayBusinessIso now) 1.

(** [None]: formatting an hour with an invalid start throws. *)
Definition hoursOfDay (hs : list ForecastHour) (isoDate : string) : option (list ForecastHour) :=
  dated ← mapM (λ hour, (λ ms, (formatBusinessIsoDate ms, hour)) <$> date_parse (hour_start hour)) hs;
  Some (bfilter (λ dh, String.eqb dh.1 isoDate) dated).*2.

Definition forecastForDay (f : ProductionForecast) (isoDate : string) : option ProductionForecast :=
  hs ← hoursOfDay (hours f) isoDate;
  Some {| fc_zev_id := fc_zev_id f; horizon_h := horizon_h f; fc_complete := fc_complete f; plants := plants f;
          plants_with_forecast := plants_with_forecast f; fetched_at := fetched_at f; hours := hs;
          peak_windows := bfilter (λ w, String.eqb (window_date w) isoDate) (peak_windows f); per_plant := None |}.

Definition hasExpectedProduction (forecast : option ProductionForecast) (isoDate : string) : option bool :=
  if negb (hasForecast forecast) then Some false
  else existsb (λ hour, num_gt (power_w hour) (of_Z 0)) <$> hoursOfDay (default [] (hours <$> forecast)) isoDate.
End Forecast.

(** ** Model of myEnergy.ts *)

Inductive MyEnergyRange := RangeToday | RangeTomorrow | RangeWeek | RangePeriod.
Definition range_text (r : MyEnergyRange) : string :=
  match r with RangeToday => "today" | RangeTomorrow => "tomorrow" | RangeWeek => "week" | RangePeriod => "period" end.
Definition MY_ENERGY_RANGES : list MyEnergyRange := [RangeToday; RangeTomorrow; RangeWeek; RangePeriod].
Definition MY_ENERGY_DEFAULT_RANGE : MyEnergyRange := RangeToday.

Definition parseMyEnergyRange (value : option string) : MyEnergyRange :=
  default MY_ENERGY_DEFAULT_RANGE (find_first (λ r, bool_decide (Some (range_text r) = value)) MY_ENERGY_RANGES).

Definition showMyEnergyEntry (liveEnabled energyDataOn isZevScope holdsHistoryMeter : bool) : bool :=
  liveEnabled || (energyDataOn && (isZevScope || holdsHistoryMeter)).

Definition ownHistoryFromSeries (series : option OwnSeries) : list OwnHistoryRow * option string :=
  let timeline := default [] (s ← series; g ← series_gross s; gross_timeline g) in
  (map (λ item, {| hist_start := tl_bucket item; hist_consumption_w := num_mul (tl_consumption_kwh item) (of_Z 4000);
                   hist_production_w := num_mul (tl_production_kwh item) (of_Z 4000) |}) timeline,
   s ← series; history_through s).

Record TodayRow := {
  row_ts : option Z; row_production : option num; row_consumption : option num; ownHistory : option num;
  ownHistoryProduction : option num; ownLive : option num; ownLiveProduction : option num; row_forecast : option num;
  forecastBand : option (num * num);
}.

Definition HISTORY_INTERVAL_MS : Z := 900000.
Definition LIVE_STEP_MS : Z := 300000.

Definition blankRow (ts : option Z) : TodayRow :=
  {| row_ts := ts; row_production := None; row_consumption := None; ownHistory := None; ownHistoryProduction := None;
     ownLive := None; ownLiveProduction := None; row_forecast := None; forecastBand := None |}.

(** [row(ts)] and the assignments to it. *)
Definition write (ts : option Z) (f : TodayRow → TodayRow) (byTs : list (option Z * TodayRow)) : list (option Z * TodayRow) :=
  omap_set ts (f (default (blankRow ts) (omap_get ts byTs))) byTs.

(** [through ? Date.parse(through) : null]: absent, or an instant that may be NaN. *)
Definition through_ms (through : option string) : option (option Z) :=
  if truthy_str through then Some (date_parse (default "" through)) else None.

(** [throughMs === null || ts >= throughMs] and [throughMs !== null && ts >= throughMs]; NaN compares false. *)
Definition reached (throughMs : option (option Z)) (ts : option Z) : bool :=
  match throughMs, ts with Some (Some T), Some t => T <=? t | _, _ => false end.
Definition from_live (throughMs : option (option Z)) (ts : option Z) : bool :=
  match throughMs with None => true | Some _ => reached throughMs ts end.
Definition before_through (throughMs : option (option Z)) (ts : Z) : bool :=
  match throughMs with None => true | Some (Some T) => ts <? T | Some None => false end.

Definition set_live (throughMs : option (option Z)) (live : LiveCurveRow) (r : TodayRow) : TodayRow :=
  let own_on := from_live throughMs (lr_ts live) in
  {| row_ts := row_ts r; row_production := lr_production live; row_consumption := lr_consumption live;
     ownHistory := ownHistory r; ownHistoryProduction := ownHistoryProduction r;
     ownLive := if own_on then lr_own live else ownLive r;
     ownLiveProduction := if own_on then lr_ownProduction live else ownLiveProduction r;
     row_forecast := row_forecast r; forecastBand := forecastBand r |}.

Definition set_history (item : OwnHistoryRow) (r : TodayRow) : TodayRow :=
  {| row_ts := row_ts r; row_production := row_production r; row_consumption := row_consumption r;
     ownHistory := Some (kw (hist_consumption_w item)); ownHistoryProduction := Some (kw (hist_production_w item));
     ownLive := ownLive r; ownLiveProduction := ownLiveProduction r; row_forecast := row_forecast r;
     forecastBand := forecastBand r |}.

Definition set_forecast (hour : ForecastHour) (r : TodayRow) : TodayRow :=
  {| row_ts := row_ts r; row_production := row_production r; row_consumption := row_consumption r; ownHistory := ownHistory r;
     ownHistoryProduction := ownHistoryProduction r; ownLive := ownLive r; ownLiveProduction := ownLiveProduction r;
     row_forecast := Some (kw (power_w hour)); forecastBand := band_of hour |}.

(** The steps a history interval is drawn at: its 5-minute steps before [through]. *)
Definition history_steps (throughMs : option (option Z)) (item : OwnHistoryRow) : list Z :=
  match date_parse (hist_start item) with
  | None => []
  | Some start => for_steps 4 (λ ts, (ts <? start + HISTORY_INTERVAL_MS) && before_through throughMs ts) LIVE_STEP_MS start
  end.

(** [!last || start > Date.parse(last.start)]. *)
Definition later (item last : OwnHistoryRow) : bool :=
  match date_parse (hist_start item), date_parse (hist_start last) with Some a, Some b => b <? a | _, _ => false end.

Definition add_history (throughMs : option (option Z)) (st : list (option Z * TodayRow) * option OwnHistoryRow) (item : OwnHistoryRow)
    : list (option Z * TodayRow) * option OwnHistoryRow :=
  let '(byTs, last) := st in
  if reached throughMs (date_parse (hist_start item)) then (byTs, last)
  else (foldl (λ m ts, write (Some ts) (set_history item) m) byTs (history_steps throughMs item),
        match last with Some l => if later item l then Some item else last | None => Some item end).

(** The steps of an hour that lie in the day. *)
Definition hour_steps (dayStart dayEnd : option Z) (hour : ForecastHour) : list Z :=
  match date_parse (hour_start hour) with
  | None => []
  | Some start =>
      bfilter (λ ts, negb (match dayStart with Some d => ts <? d | None => false end
                           || match dayEnd with Some d => d <=? ts | None => false end))
        (for_steps 13 (λ ts, ts <? start + HOUR_MS) LIVE_STEP_MS start)
  end.

Definition add_hour (dayStart dayEnd : option Z) (byTs : list (option Z * TodayRow)) (hour : ForecastHour) : list (option Z * TodayRow) :=
  foldl (λ m ts, write (Some ts) (set_forecast hour) m) byTs (hour_steps dayStart dayEnd hour).

(** [a.ts - b.ts]; NaN counts as equal. *)
Definition today_row_le (a b : TodayRow) : bool :=
  match row_ts a, row_ts b with Some x, Some y => x <=? y | _, _ => true end.

Definition todayRows `{Zone} (curve : option LiveCurve) (history : list OwnHistoryRow) (through : option string)
    (forecast : option (string * list ForecastHour)) : list TodayRow :=
  let throughMs := through_ms through in
  let byTs := foldl (λ m live, write (lr_ts live) (set_live throughMs live) m) [] (liveCurveRows (default [] (buckets <$> curve))) in
  let '(byTs, last) := foldl (add_history throughMs) (byTs, None) history in
  let byTs := match forecast with
    | Some (date, hs) => foldl (add_hour (businessDayStartMs date) (businessDayStartMs (nextIsoDate date))) byTs hs
    | None => byTs
    end in
  let byTs := match throughMs, last with Some T, Some item => write T (set_history item) byTs | _, _ => byTs end in
  sort_by today_row_le byTs.*2.

(** ** Loops *)

Lemma elem_of_for_steps fuel more step ts x :
  0 < step → x ∈ for_steps fuel more step ts ↔
    ∃ k, 0 <= k < Z.of_nat fuel ∧ x = ts + k * step ∧ ∀ j, 0 <= j <= k → more (ts + j * step) = true.
Proof.
  intros Hs. induction fuel as [|fuel IH] in ts |- *; simpl.
  { split; [by intros ?%elem_of_nil|]. intros (k & ? & _). lia. }
  destruct (more ts) eqn:Hm.
  - rewrite elem_of_cons, IH. split.
    + intros [->|(k & Hk & -> & Hall)].
      * exists 0. split_and!; [lia..|lia|]. intros j Hj. by replace (ts + j * step) with ts by lia.
      * exists (k + 1). split_and!; [lia..|lia|]. intros j Hj. destruct (decide (j = 0)) as [->|Hne].
        -- by replace (ts + 0 * step) with ts by lia.
        -- replace (ts + j * step) with (ts + step + (j - 1) * step) by lia. apply Hall. lia.
    + intros (k & Hk & -> & Hall). destruct (decide (k = 0)) as [->|Hne]; [left; lia|]. right. exists (k - 1).
      split_and!; [lia..|lia|]. intros j Hj. replace (ts + step + j * step) with (ts + (j + 1) * step) by lia. apply Hall. lia.
  - split; [by intros ?%elem_of_nil|]. intros (k & Hk & _ & Hall). specialize (Hall 0).
    replace (ts + 0 * step) with ts in Hall by lia. rewrite Hall in Hm; [done|lia].
Qed.

(** A loop that runs while [ts < stop] finishes within the fuel that covers the distance. *)
Lemma elem_of_steps_below fuel stop step ts x :
  0 < step → stop - ts <= Z.of_nat fuel * step →
  x ∈ for_steps fuel (λ t, t <? stop) step ts ↔ ∃ k, 0 <= k ∧ x = ts + k * step ∧ x < stop.
Proof.
  intros Hs Hf. rewrite elem_of_for_steps by done. split.
  - intros (k & Hk & -> & Hall). exists k. specialize (Hall k). rewrite Z.ltb_lt in Hall. split_and!; [lia|done|]. apply Hall. lia.
  - intros (k & Hk & -> & Hlt). exists k. split_and!; [lia|nia|done|]. intros j Hj. apply Z.ltb_lt. nia.
Qed.

(** ** The day axis *)

(** On every day of the calendar the axis runs from the start of the day to its end,
    22 to 26 hours later, with a tick at every third elapsed hour from the start and
    no other. *)
Theorem liveDayAxis_spec `{ZoneLaws} n :
  iso_range n → iso_range (n + 1) →
  let axis := liveDayAxis (iso n) in
  ∃ s e, axis_start axis = Some s ∧ axis_end axis = Some e ∧ 22 * HOUR_MS <= e - s <= 26 * HOUR_MS ∧
    (∀ t, s <= t < e ↔ local_day t = n) ∧
    (∀ x, x ∈ ticks axis ↔ ∃ k, 0 <= k ∧ x = s + k * TICK_MS ∧ x <= e).
Proof.
  intros Hn Hn'. cbn zeta. exists (day_start n), (day_start (n + 1)). unfold liveDayAxis.
  rewrite nextIsoDate_iso, !businessDayStartMs_iso by done. cbn [axis_start axis_end ticks].
  split_and!; try done; [apply day_start_length..|intros t; symmetry; apply local_day_iff|].
  pose proof (day_start_length n) as Hl. intros x.
  set (s := day_start n) in *. set (e := day_start (n + 1)) in *. unfold TICK_MS, HOUR_MS in *.
  rewrite elem_of_for_steps by lia. split.
  - intros (k & Hk & -> & Hall). exists k. specialize (Hall k). rewrite Z.leb_le in Hall. split_and!; [lia|done|]. apply Hall. lia.
  - intros (k & Hk & -> & Hle). exists k. split_and!; [done|..|done|].
    + rewrite Z2Nat.id; Z.div_mod_to_equations; lia.
    + intros j Hj. apply Z.leb_le. lia.
Qed.

Lemma liveDayAxis_spec_witness :
  ∃ s e, axis_start (@liveDayAxis zurich (iso 20541)) = Some s ∧ axis_end (@liveDayAxis zurich (iso 20541)) = Some e ∧
    e - s = 23 * HOUR_MS ∧ length (ticks (@liveDayAxis zurich (iso 20541))) = 8%nat ∧
    (∀ t, s <= t < e ↔ @local_day zurich t = 20541).
Proof.
  destruct (@liveDayAxis_spec zurich zurich_laws 20541) as (s & e & Hs & He & _ & Hd & _).
  - apply iso_range_iff. lia.
  - apply iso_range_iff. lia.
  - exists s, e. split; [exact Hs|]. split; [exact He|]. vm_compute in Hs, He. injection Hs as <-. injection He as <-.
    split; [reflexivity|]. split; [vm_compute; reflexivity|exact Hd].
Defined.

(** ** The Today chart *)

(** The row of a timestamp, before it exists a blank one. *)
Definition row_at (m : list (option Z * TodayRow)) (k : option Z) : TodayRow := default (blankRow k) (omap_get k m).

Lemma row_at_write ts f m k : row_at (write ts f m) k = if bool_decide (ts = k) then f (row_at m k) else row_at m k.
Proof.
  unfold row_at, write. case_bool_decide as E.
  - subst. by rewrite omap_get_set_eq.
  - by rewrite omap_get_set_ne.
Qed.

Lemma row_at_writes {X} (key : X → option Z) (f : X → TodayRow → TodayRow) xs m k :
  row_at (foldl (λ m x, write (key x) (f x) m) m xs) k
  = foldl (λ r x, if bool_decide (key x = k) then f x r else r) (row_at m k) xs.
Proof. induction xs as [|x xs IH] in m |- *; simpl; [done|]. by rewrite IH, row_at_write. Qed.

(** A timestamp is one of the steps. *)
Definition at_step (k : option Z) (steps : list Z) : bool := match k with Some t => bool_decide (t ∈ steps) | None => false end.

(** Writing the same values at several timestamps. *)
Lemma row_at_steps f steps m k :
  (∀ r, f (f r) = f r) →
  row_at (foldl (λ m ts, write (Some ts) f m) m steps) k = if at_step k steps then f (row_at m k) else row_at m k.
Proof.
  intros Hf. induction steps as [|t steps IH] in m |- *; simpl; [by destruct k|].
  rewrite IH, row_at_write. destruct k as [x|]; simpl; [|done]. destruct (decide (t = x)) as [->|E].
  - rewrite (bool_decide_eq_true_2 (Some x = Some x)) by done. rewrite (bool_decide_eq_true_2 (x ∈ x :: steps)) by by left.
    case_bool_decide; by rewrite ?Hf.
  - rewrite (bool_decide_eq_false_2 (Some t = Some x)) by congruence.
    rewrite (bool_decide_ext (x ∈ t :: steps) (x ∈ steps)); [done|]. rewrite elem_of_cons. intuition congruence.
Qed.

Definition live_at (lives : list LiveCurveRow) (k : option Z) : option LiveCurveRow :=
  last (bfilter (λ l, bool_decide (lr_ts l = k)) lives).

(** A history interval is drawn at its steps when it starts before [through]. *)
Definition drawn (throughMs : option (option Z)) (k : option Z) (item : OwnHistoryRow) : bool :=
  negb (reached throughMs (date_parse (hist_start item))) && at_step k (history_steps throughMs item).

Definition history_at (throughMs : option (option Z)) (history : list OwnHistoryRow) (k : option Z) : option OwnHistoryRow :=
  last (bfilter (drawn throughMs k) history).

(** The interval carried to [through]: the first of the latest ones that start before it. *)
Definition newest (throughMs : option (option Z)) (history : list OwnHistoryRow) : option OwnHistoryRow :=
  foldl (λ newest item,
    if reached throughMs (date_parse (hist_start item)) then newest
    else match newest with Some l => if later item l then Some item else newest | None => Some item end) None history.

Definition own_history_at (throughMs : option (option Z)) (history : list OwnHistoryRow) (k : option Z) : option OwnHistoryRow :=
  match throughMs, newest throughMs history with
  | Some T, Some item => if bool_decide (T = k) then Some item else history_at throughMs history k
  | _, _ => history_at throughMs history k
  end.

Definition hour_at (dayStart dayEnd : option Z) (hs : list ForecastHour) (k : option Z) : option ForecastHour :=
  last (bfilter (λ hour, at_step k (hour_steps dayStart dayEnd hour)) hs).

Definition forecast_at `{Zone} (forecast : option (string * list ForecastHour)) (k : option Z) : option ForecastHour :=
  match forecast with
  | Some (date, hs) => hour_at (businessDayStartMs date) (businessDayStartMs (nextIsoDate date)) hs k
  | None => None
  end.

(** The row of a timestamp, value by value: the totals of the live bucket there; the
    own values from history before [through] and from the live bucket from it on; the
    expected power of the hour. *)
Definition chart_row (throughMs : option (option Z)) (k : option Z) (live : option LiveCurveRow) (hist : option OwnHistoryRow)
    (hour : option ForecastHour) : TodayRow :=
  let own := if from_live throughMs k then live else None in
  {| row_ts := k; row_production := live ≫= lr_production; row_consumption := live ≫= lr_consumption;
     ownHistory := (λ i, kw (hist_consumption_w i)) <$> hist; ownHistoryProduction := (λ i, kw (hist_production_w i)) <$> hist;
     ownLive := own ≫= lr_own; ownLiveProduction := own ≫= lr_ownProduction;
     row_forecast := (λ h, kw (power_w h)) <$> hour; forecastBand := hour ≫= band_of |}.

Definition reference_row `{Zone} (lives : list LiveCurveRow) (history : list OwnHistoryRow) (throughMs : option (option Z))
    (forecast : option (string * list ForecastHour)) (k : option Z) : TodayRow :=
  chart_row throughMs k (live_at lives k) (own_history_at throughMs history k) (forecast_at forecast k).

(** A timestamp of the chart: of a bucket, of a drawn step, or [through] after history. *)
Definition on_chart `{Zone} (lives : list LiveCurveRow) (history : list OwnHistoryRow) (throughMs : option (option Z))
    (forecast : option (string * list ForecastHour)) (k : option Z) : Prop :=
  (∃ l, l ∈ lives ∧ lr_ts l = k) ∨ (∃ i, i ∈ history ∧ drawn throughMs k i = true) ∨
  is_Some (forecast_at forecast k) ∨ (throughMs = Some k ∧ is_Some (newest throughMs history)).

Lemma last_bfilter_snoc {A} (p : A → bool) l x : last (bfilter p (l ++ [x])) = if p x then Some x else last (bfilter p l).
Proof. rewrite bfilter_snoc. destruct (p x); [by rewrite last_snoc|by rewrite app_nil_r]. Qed.

Lemma last_bfilter_is_Some {A} (p : A → bool) l : is_Some (last (bfilter p l)) ↔ ∃ x, x ∈ l ∧ p x = true.
Proof.
  rewrite last_is_Some. setoid_rewrite <- elem_of_bfilter. split.
  - destruct (bfilter p l) as [|x l']; [done|]. intros _. exists x. by left.
  - intros (x & Hx) E. rewrite E in Hx. by apply elem_of_nil in Hx.
Qed.

Lemma live_row throughMs lives k :
  row_at (foldl (λ m live, write (lr_ts live) (set_live throughMs live) m) [] lives) k
  = chart_row throughMs k (live_at lives k) None None.
Proof.
  rewrite (row_at_writes lr_ts (set_live throughMs)). unfold row_at. cbn [omap_get default].
  induction lives as [|l lives IH] using rev_ind.
  - unfold chart_row, live_at. simpl. by destruct (from_live throughMs k).
  - rewrite foldl_app. cbn [foldl]. rewrite IH. assert (live_at (lives ++ [l]) k = if bool_decide (lr_ts l = k) then Some l else live_at lives k)
      as -> by exact (last_bfilter_snoc (λ l, bool_decide (lr_ts l = k)) lives l). case_bool_decide as E; [|done]. unfold set_live, chart_row. cbn -[from_live]. rewrite E. by destruct (from_live throughMs k).
Qed.

Lemma history_row throughMs history k live m last :
  row_at m k = chart_row throughMs k live None None →
  row_at (foldl (add_history throughMs) (m, last) history).1 k = chart_row throughMs k live (history_at throughMs history k) None.
Proof.
  intros Hm. induction history as [|item history IH] using rev_ind; [done|]. rewrite foldl_app. simpl.
  destruct (foldl (add_history throughMs) (m, last) history) as [m' last']. cbn [fst] in IH. unfold history_at.
  rewrite last_bfilter_snoc. unfold drawn at 1, add_history. destruct (reached throughMs _); simpl; [done|].
  rewrite row_at_steps by done. rewrite IH. by destruct (at_step k _).
Qed.

Lemma history_newest throughMs history m :
  (foldl (add_history throughMs) (m, None) history).2 = newest throughMs history.
Proof.
  unfold newest. induction history as [|item history IH] using rev_ind; [done|]. rewrite !foldl_app. simpl.
  rewrite <- IH. destruct (foldl (add_history throughMs) (m, None) history) as [m' last']. simpl.
  by destruct (reached throughMs _).
Qed.

Lemma hour_row throughMs dayStart dayEnd hs k live hist m :
  row_at m k = chart_row throughMs k live hist None →
  row_at (foldl (add_hour dayStart dayEnd) m hs) k = chart_row throughMs k live hist (hour_at dayStart dayEnd hs k).
Proof.
  intros Hm. induction hs as [|hour hs IH] using rev_ind; [done|]. rewrite foldl_app. simpl. unfold add_hour at 1, hour_at.
  rewrite last_bfilter_snoc, row_at_steps by done. rewrite IH. by destruct (at_step k _).
Qed.

(** The timestamps the map holds. *)
Definition keys_are (m : list (option Z * TodayRow)) (P : option Z → Prop) : Prop := NoDup m.*1 ∧ ∀ k, k ∈ m.*1 ↔ P k.

Lemma keys_ext m P Q : (∀ k, P k ↔ Q k) → keys_are m P → keys_are m Q.
Proof. intros E [Hnd Hk]. split; [done|]. intros k. by rewrite Hk. Qed.

Lemma keys_write m P ts f : keys_are m P → keys_are (write ts f m) (λ k, P k ∨ k = ts).
Proof.
  intros [Hnd Hk]. split; [by apply NoDup_omap_set|]. intros k. unfold write. rewrite omap_set_keys, elem_of_oset_add, Hk. tauto.
Qed.

Lemma keys_writes {X} (key : X → option Z) (f : X → TodayRow → TodayRow) xs m P :
  keys_are m P → keys_are (foldl (λ m x, write (key x) (f x) m) m xs) (λ k, P k ∨ ∃ x, x ∈ xs ∧ key x = k).
Proof.
  induction xs as [|x xs IH] in m, P |- *; intros Hm; simpl.
  - destruct Hm as [Hnd Hk]. split; [done|]. intros k. rewrite Hk. split; [tauto|]. by intros [?|(? & ?%elem_of_nil & _)].
  - destruct (IH _ _ (keys_write _ _ (key x) (f x) Hm)) as [Hnd Hk]. split; [done|]. intros k. rewrite Hk, exists_cons.
    intuition congruence.
Qed.

Lemma at_step_iff k steps : at_step k steps = true ↔ ∃ t, t ∈ steps ∧ Some t = k.
Proof.
  destruct k as [t|]; simpl; [rewrite bool_decide_eq_true|]; [split; [by exists t|]|split; [done|]].
  - by intros (x & Hx & [= ->]).
  - by intros (x & _ & ?).
Qed.

Lemma keys_history throughMs history m P last :
  keys_are m P → keys_are (foldl (add_history throughMs) (m, last) history).1 (λ k, P k ∨ ∃ i, i ∈ history ∧ drawn throughMs k i = true).
Proof.
  intros Hm. induction history as [|item history IH] using rev_ind.
  - revert Hm. apply keys_ext. intros k. split; [tauto|]. by intros [?|(? & ?%elem_of_nil & _)].
  - rewrite foldl_app. simpl. destruct (foldl (add_history throughMs) (m, last) history) as [m' last']. cbn [fst] in IH.
    assert (∀ k, drawn throughMs k item = negb (reached throughMs (date_parse (hist_start item))) && at_step k (history_steps throughMs item))
      as Hd by done.
    unfold add_history. destruct (reached throughMs (date_parse (hist_start item))); cbn [fst].
    + revert IH. apply keys_ext. intros k. rewrite exists_snoc, Hd. simpl. intuition congruence.
    + eapply keys_ext, (keys_writes Some (λ _, set_history item)), IH. intros k. cbn beta.
      rewrite exists_snoc, Hd. simpl. rewrite at_step_iff. tauto.
Qed.

Lemma keys_hours dayStart dayEnd hs m P :
  keys_are m P → keys_are (foldl (add_hour dayStart dayEnd) m hs) (λ k, P k ∨ is_Some (hour_at dayStart dayEnd hs k)).
Proof.
  intros Hm. apply (keys_ext _ (λ k, P k ∨ ∃ h, h ∈ hs ∧ at_step k (hour_steps dayStart dayEnd h) = true)).
  { intros k. unfold hour_at. by rewrite last_bfilter_is_Some. }
  induction hs as [|hour hs IH] using rev_ind.
  - revert Hm. apply keys_ext. intros k. split; [tauto|]. by intros [?|(? & ?%elem_of_nil & _)].
  - rewrite foldl_app. simpl. eapply keys_ext, (keys_writes Some (λ _, set_forecast hour)), IH.
    intros k. cbn beta. rewrite exists_snoc, at_step_iff. tauto.
Qed.

(** The rows of a map, sorted. *)
Lemma sorted_rows m P (row : option Z → TodayRow) :
  keys_are m P → (∀ k, row_at m k = row k) → (∀ k, row_ts (row k) = k) →
  let rows := sort_by today_row_le m.*2 in
  NoDup (map row_ts rows) ∧ (∀ k, k ∈ map row_ts rows ↔ P k) ∧ (∀ r, r ∈ rows → r = row (row_ts r)).
Proof.
  intros [Hnd Hk] Hrow Hts. cbn zeta.
  assert (∀ k r, (k, r) ∈ m → r = row k) as Hr.
  { intros k r Hin. rewrite <- Hrow. unfold row_at. by rewrite (omap_elem_get _ _ _ Hnd Hin). }
  assert (map row_ts m.*2 = m.*1) as Hkeys.
  { rewrite map_map. apply map_ext_in. intros [k r] Hin%list_elem_of_In. simpl. rewrite (Hr k r Hin). apply Hts. }
  split_and!.
  - by rewrite sort_by_perm, Hkeys.
  - intros k. by rewrite sort_by_perm, Hkeys.
  - intros r. rewrite elem_of_sort_by. intros ([k r'] & -> & Hin)%list_elem_of_fmap. simpl. rewrite (Hr k r' Hin) at 1.
    by rewrite (Hr k r' Hin), Hts.
Qed.

(** The chart has one row per timestamp that a bucket, an interval, an hour or the
    hand-over puts on it, and each row holds exactly the reference values. *)
Theorem todayRows_rows `{Zone} curve history through forecast :
  let lives := liveCurveRows (default [] (buckets <$> curve)) in
  let T := through_ms through in
  let rows := todayRows curve history through forecast in
  NoDup (map row_ts rows) ∧
  (∀ k, k ∈ map row_ts rows ↔ on_chart lives history T forecast k) ∧
  (∀ r, r ∈ rows → r = reference_row lives history T forecast (row_ts r)).
Proof.
  cbn zeta. unfold todayRows. set (T := through_ms through). set (lives := liveCurveRows _).
  set (m1 := foldl _ [] lives).
  assert (keys_are m1 (λ k, ∃ l, l ∈ lives ∧ lr_ts l = k)) as K1.
  { eapply keys_ext, (keys_writes lr_ts (set_live T) lives [] (λ _, False)); [intros k; cbn beta; tauto|].
    split; [constructor|]. intros k. split; [by intros ?%elem_of_nil|done]. }
  pose proof (keys_history T history m1 _ None K1) as K2. pose proof (history_newest T history m1) as Hn.
  assert (∀ k, row_at (foldl (add_history T) (m1, None) history).1 k = chart_row T k (live_at lives k) (history_at T history k) None) as R2
    by (intros k; apply history_row, live_row).
  destruct (foldl (add_history T) (m1, None) history) as [m2 last]. cbn [fst snd] in *. subst last.
  set (m3 := match forecast with Some _ => _ | None => m2 end).
  assert (keys_are m3 (λ k, ((∃ l, l ∈ lives ∧ lr_ts l = k) ∨ ∃ i, i ∈ history ∧ drawn T k i = true) ∨ is_Some (forecast_at forecast k))) as K3.
  { subst m3. destruct forecast as [[date hs]|]; [by apply keys_hours|]. revert K2. apply keys_ext.
    intros k. simpl. split; [tauto|]. by intros [?|[? ?]]. }
  assert (∀ k, row_at m3 k = chart_row T k (live_at lives k) (history_at T history k) (forecast_at forecast k)) as R3.
  { intros k. subst m3. destruct forecast as [[date hs]|]; [apply hour_row|]; apply R2. }
  apply sorted_rows; [| |done].
  - destruct T as [T|]; [destruct (newest _ history) as [item|] eqn:Hnew|].
    + eapply keys_ext, keys_write, K3. intros k. cbn beta. unfold on_chart. rewrite Hnew.
      assert ((Some T = Some k ∧ is_Some (Some item)) ↔ k = T) as -> by (split; [naive_solver|intros ->; naive_solver]). tauto.
    + revert K3. apply keys_ext. intros k. unfold on_chart. rewrite Hnew.
      assert ((Some T = Some k ∧ is_Some (@None OwnHistoryRow)) ↔ False) as -> by naive_solver. tauto.
    + revert K3. apply keys_ext. intros k. unfold on_chart.
      assert ((None = Some k ∧ is_Some (newest None history)) ↔ False) as -> by naive_solver. tauto.
  - intros k. unfold reference_row, own_history_at. destruct T as [T|]; [|apply R3].
    destruct (newest _ history) as [item|]; [|apply R3]. rewrite row_at_write, R3. by case_bool_decide.
Qed.

Lemma at_step_is_Some k steps : at_step k steps = true → is_Some k.
Proof. destruct k; [by eexists|done]. Qed.

Lemma on_chart_is_Some `{Zone} lives history throughMs forecast k :
  (∀ l, l ∈ lives → is_Some (lr_ts l)) → throughMs ≠ Some None → on_chart lives history throughMs forecast k → is_Some k.
Proof.
  intros Hl HT [(l & Hin & <-)|[(i & _ & Hd)|[Hf|[-> _]]]].
  - by apply Hl.
  - unfold drawn in Hd. apply andb_true_iff in Hd as [_ Hd]. by eapply at_step_is_Some.
  - unfold forecast_at, hour_at in Hf. destruct forecast as [[date hs]|]; [|by destruct Hf].
    apply last_bfilter_is_Some in Hf as (h & _ & Hh). by eapply at_step_is_Some.
  - destruct k; [by eexists|done].
Qed.

(** Own values of a row are history up to the hand-over and live from it on. *)
Lemma history_at_before T history t item : history_at (Some (Some T)) history (Some t) = Some item → t < T.
Proof.
  intros Hi. assert (is_Some (history_at (Some (Some T)) history (Some t))) as (i & _ & Hd)%last_bfilter_is_Some by by eexists.
  unfold drawn, history_steps in Hd. apply andb_true_iff in Hd as [_ Hd]. destruct (date_parse _) as [s|]; [|done].
  cbn [at_step] in Hd. apply bool_decide_eq_true in Hd. apply elem_of_for_steps in Hd as (k & Hk & -> & Hall); [|done].
  specialize (Hall k). cbn beta in Hall. rewrite andb_true_iff in Hall. apply Z.ltb_lt, Hall. lia.
Qed.

Lemma handover_row `{Zone} lives history T forecast t r :
  r = reference_row lives history (Some (Some T)) forecast (Some t) →
  (ownLive r ≠ None → T <= t) ∧ (ownHistory r ≠ None → t <= T).
Proof.
  intros ->. unfold reference_row, chart_row. cbn [ownLive ownHistory from_live reached]. split.
  - destruct (Z.leb_spec T t); [done|]. by intros [].
  - unfold own_history_at. destruct (newest _ history) as [item|]; [case_bool_decide as E|].
    + injection E as <-. lia.
    + destruct (history_at _ history _) eqn:Hh; [|done]. apply history_at_before in Hh. lia.
    + destruct (history_at _ history _) eqn:Hh; [|done]. apply history_at_before in Hh. lia.
Qed.

(** Rows at distinct instants, sorted. *)
Definition row_before (a b : TodayRow) : Prop := ∃ x y, row_ts a = Some x ∧ row_ts b = Some y ∧ x < y.

Lemma rows_ordered l :
  Forall (λ r, is_Some (row_ts r)) l → NoDup (map row_ts l) → StronglySorted row_before (sort_by today_row_le l).
Proof.
  intros Hl Hnd. assert (StronglySorted (λ a b, today_row_le a b = true) (sort_by today_row_le l)) as Hs.
  { apply (sort_by_strong_on _ (λ r, is_Some (row_ts r))); [..|done]; unfold today_row_le.
    - intros a b [x ->] [y ->]. rewrite !Z.leb_le. lia.
    - intros a b c [x ->] [y ->] [z ->]. rewrite !Z.leb_le. lia. }
  rewrite <- (sort_by_perm today_row_le l) in Hl, Hnd. induction Hs as [|a l' _ IH Ha]; [constructor|].
  inversion Hl as [|? ? [x Hx] Hl']; subst. simpl in Hnd. apply NoDup_cons in Hnd as [Hni Hnd].
  constructor; [by apply IH|]. rewrite Forall_forall in *. intros b Hb. destruct (Hl' b Hb) as [y Hy].
  exists x, y. split_and!; [done..|]. specialize (Ha b Hb). unfold today_row_le in Ha. rewrite Hx, Hy, Z.leb_le in Ha.
  assert (x ≠ y); [|lia]. intros ->. apply Hni. rewrite Hx, <- Hy. by apply list_elem_of_fmap_2.
Qed.

Lemma todayRows_sorted `{Zone} curve history through forecast :
  ∃ l, todayRows curve history through forecast = sort_by today_row_le l.
Proof. unfold todayRows. destruct (foldl (add_history _) _ _) as [m last]. by eexists. Qed.

(** C20. The Today chart has one row per timestamp, in order: for every timestamp a bucket,
    a history interval before the hand-over, a forecast hour of the day or the
    hand-over itself puts on it, with exactly the reference values there. Own history
    is only drawn up to the hand-over and live values only from it on. *)
Theorem todayRows_handover `{Zone} curve history through forecast T :
  through_ms through = Some (Some T) →
  (∀ l, l ∈ liveCurveRows (default [] (buckets <$> curve)) → is_Some (lr_ts l)) →
  let lives := liveCurveRows (default [] (buckets <$> curve)) in
  let rows := todayRows curve history through forecast in
  StronglySorted row_before rows ∧
  (∀ k, k ∈ map row_ts rows ↔ on_chart lives history (Some (Some T)) forecast k) ∧
  (∀ r, r ∈ rows → r = reference_row lives history (Some (Some T)) forecast (row_ts r)) ∧
  (∀ r t, r ∈ rows → row_ts r = Some t → (ownLive r ≠ None → T <= t) ∧ (ownHistory r ≠ None → t <= T)).
Proof.
  intros HT Hl. cbn zeta. destruct (todayRows_rows curve history through forecast) as (Hnd & Hk & Hr). rewrite HT in *.
  split_and!; [|done..|].
  - destruct (todayRows_sorted curve history through forecast) as [l E]. rewrite E in *. apply rows_ordered.
    + apply Forall_forall. intros r Hin. apply (on_chart_is_Some _ history (Some (Some T)) forecast _ Hl); [done|].
      apply Hk. rewrite sort_by_perm. by apply list_elem_of_fmap_2.
    + by rewrite sort_by_perm in Hnd.
  - intros r t Hin Ht. pose proof (Hr r Hin) as Hr'. rewrite Ht in Hr'. by eapply handover_row.
Qed.

Definition sample_bucket (start : string) (own : Z) : LiveCurveBucket :=
  {| bucket_start := start; bucket_tier := TierExact; bucket_production_w := Some (of_Z 4000);
     bucket_consumption_w := Some (of_Z 3000); bucket_surplus_w := None; own_consumption_w := Some (of_Z own);
     own_local_w := None; own_production_w := None; bucket_points := None |}.
Definition sample_curve : LiveCurve :=
  {| curve_date := "2026-06-01"; bucket_s := 300;
     buckets := [sample_bucket "2026-06-01T10:10:00Z" 1000; sample_bucket "2026-06-01T10:15:00Z" 2000];
     own_history := []; own_history_through := None |}.
Definition sample_history : list OwnHistoryRow :=
  [{| hist_start := "2026-06-01T10:00:00Z"; hist_consumption_w := of_Z 500; hist_production_w := of_Z 0 |};
   {| hist_start := "2026-06-01T10:15:00Z"; hist_consumption_w := of_Z 700; hist_production_w := of_Z 0 |}].

(** The interval from 10:15 on is not drawn: the hand-over is at 10:15, where the last
    history value is carried and the live line begins. *)
Lemma todayRows_handover_witness :
  let rows := @todayRows zurich (Some sample_curve) sample_history (Some "2026-06-01T10:15:00Z") None in
  StronglySorted row_before rows ∧
  map (λ r, (row_ts r, ownHistory r, ownLive r)) rows =
    [(Some 1780308000000, Some (kw (of_Z 500)), None); (Some 1780308300000, Some (kw (of_Z 500)), None);
     (Some 1780308600000, Some (kw (of_Z 500)), None); (Some 1780308900000, Some (kw (of_Z 500)), Some (kw (of_Z 2000)))] ∧
  (∀ r t, r ∈ rows → row_ts r = Some t → (ownLive r ≠ None → 1780308900000 <= t) ∧ (ownHistory r ≠ None → t <= 1780308900000)).
Proof.
  destruct (@todayRows_handover zurich (Some sample_curve) sample_history (Some "2026-06-01T10:15:00Z") None 1780308900000)
    as (H1 & _ & _ & H2).
  - vm_compute. reflexivity.
  - intros l Hl. apply list_elem_of_In in Hl. destruct Hl as [<-|[<-|[]]]; vm_compute; by eexists.
  - split; [exact H1|]. split; [vm_compute; reflexivity|exact H2].
Defined.

(** ** The card, byte units and the hours of a day *)

(** The loop never runs past the last unit, so every size has one. *)
Lemma scale_bytes_unit left scaled unitIndex :
  (unitIndex <= (scale_bytes left scaled unitIndex).2 <= unitIndex + left)%nat.
Proof.
  induction left as [|left IH] in scaled, unitIndex |- *; simpl; [lia|].
  destruct (num_ge _ _); simpl; [|lia]. specialize (IH (num_div scaled (of_Z 1024)) (S unitIndex)). lia.
Qed.

(** The viewer's split is only spoken of at tier exact with complete own meters, and
    only shown when all its figures are known and consistent. *)
Lemma liveCardState_split s st :
  liveCardState (Some s) = Some st →
  (ownSplit st ≠ SplitNone → snap_tier s = TierExact ∧ ∃ o, own s = Some o ∧ own_complete o = true) ∧
  (ownSplit st = SplitShown → ∃ o, own s = Some o ∧ split_inconsistent o = false ∧
     is_Some (lo_consumption_w o) ∧ is_Some (local_w o) ∧ is_Some (grid_w o)).
Proof.
  unfold liveCardState. cbn [mbind option_bind]. destruct (negb (showLiveCard (Some s))); [done|]. intros [= <-]. cbn [ownSplit].
  destruct (bool_decide (snap_tier s = TierExact)) eqn:Ht; [apply bool_decide_eq_true in Ht|by split].
  destruct (own s) as [o|]; simpl; [|by split]. destruct (own_complete o) eqn:Hc; simpl; [|by split].
  split; [intros _; split; [done|by exists o]|]. destruct (split_inconsistent o) eqn:Hi; [done|].
  destruct (lo_consumption_w o) eqn:?, (local_w o) eqn:?, (grid_w o) eqn:?; simpl; try done. intros _. exists o.
  split_and!; [done|done|by eexists..].
Qed.

(** The hours of a day are exactly those whose start falls on it, in order. *)
Lemma hoursOfDay_spec `{Zone} hs isoDate out :
  hoursOfDay hs isoDate = Some out →
  out = bfilter (λ h, match date_parse (hour_start h) with Some ms => String.eqb (formatBusinessIsoDate ms) isoDate | None => false end) hs.
Proof.
  unfold hoursOfDay. destruct (mapM _ hs) as [dated|] eqn:Hm; [|done]. cbn [mbind option_bind]. intros [= <-].
  apply mapM_Some in Hm. unfold bfilter. induction Hm as [|h [d h'] hs dated Hh _ IH]; [done|]. simpl in *.
  destruct (date_parse (hour_start h)) as [ms|]; [|done]. simpl in Hh. injection Hh as <- <-. simpl.
  rewrite <- IH. by destruct (String.eqb (formatBusinessIsoDate ms) isoDate).
Qed.

(** The window shown next is the first that has not ended. *)
Lemma nextPeakWindow_spec windows now w :
  nextPeakWindow windows now = Some w → w ∈ windows ∧ ∃ stop, date_parse (window_to w) = Some stop ∧ now < stop.
Proof.
  unfold nextPeakWindow. intros (Hw & Hp)%find_first_Some. split; [done|].
  destruct (date_parse (window_to w)) as [stop|]; [|done]. exists stop. split; [done|lia].
Qed.
