(* ===== verification/BillingParams.v ===== *)
(** The billing period of a page: frontend/src/lib/useBillingPeriodParams.ts. The URL
    is authoritative; on a scope change the hook keeps showing the target period until
    the URL carries it. A render reads the committed URL and the resolved context; the
    effect after it navigates, resolves the context, or does nothing. The query
    parameters are the four the hook reads and writes; [now] is the viewer's day. *)

From S2P Require Import Prelude JsString JsDate Dates BillingPeriod.
Local Open Scope string_scope.

Record UrlParams := {
  p_period_start : option string; p_period_end : option string; p_from : option string; p_to : option string;
}.

Inductive FallbackKind := FallbackCurrent | FallbackPreviousComplete.
Inductive ScopeChange := PreserveUrl | ResetPeriod | AlignPeriod.
#[export] Instance ScopeChange_eq_dec : EqDecision ScopeChange.
Proof. solve_decision. Defined.

Record BillingPeriodParamsPolicy := {
  interval : option BillingInterval; scope_ready : bool; scopeId : string; fallback : FallbackKind;
  minimumRangeStart : option string; minimumFallback : option range; legacyParams : bool; scopeChange : ScopeChange;
}.

Definition has_param (p : option string) : bool := match p with Some _ => true | None => false end.

Definition readBillingPeriodParams (params : UrlParams) (legacy : bool) : option range :=
  if has_param (p_period_start params) || has_param (p_period_end params)
  then billingRangeFromParams (p_period_start params) (p_period_end params)
  else if legacy then billingRangeFromParams (p_from params) (p_to params) else None.

Definition UNRESOLVED_RANGE : range := Range "" "".

Definition invoice_range (r : option range) (minimum : option string) : option range :=
  invoiceRangeFromParams (from <$> r) (to <$> r) minimum.

(** [minimumFallback && r.from < minimumFallback.from]. *)
Definition below_minimum (r : range) (minimum : option range) : bool :=
  match minimum with Some m => str_lt (from r) (from m) | None => false end.

Definition resolveBillingPeriodTarget (scopeChanged : bool) (change : ScopeChange) (i : BillingInterval)
    (validRange : option range) (hasRangeParams : bool) (fallbackRange : range) (minimumRangeStart : option string)
    (minimumFallback : option range) : option range :=
  if scopeChanged && bool_decide (change = ResetPeriod) then Some fallbackRange
  else if negb (bool_decide (change = AlignPeriod)) then None
  else if hasRangeParams && negb (bool_decide (is_Some validRange)) then Some fallbackRange
  else match validRange with
       | None => None
       | Some valid =>
           if negb scopeChanged || isBillingAlignedPeriod (from valid) (to valid) i then None
           else let aligned := alignedPeriodEndingWith valid i in
                if negb (bool_decide (is_Some (invoice_range (Some aligned) minimumRangeStart))) || below_minimum aligned minimumFallback
                then Some fallbackRange else Some aligned
       end.

Definition interval_text (i : option BillingInterval) : string :=
  match i with
  | Some monthly => "monthly" | Some quarterly => "quarterly" | Some semi_annual => "semi_annual" | Some annual => "annual"
  | None => "undefined"
  end.

(** One render of the hook for a policy, the viewer's day, the resolved context and
    the committed URL. *)
Section Render.
Context (policy : BillingPeriodParamsPolicy) (now : Z) (resolvedContext : option string) (url : UrlParams).

Definition ready : bool := scope_ready policy && bool_decide (is_Some (interval policy)).
Definition context : string := scopeId policy ++ "|" ++ interval_text (interval policy).
Definition scopeChanged : bool :=
  ready && match resolvedContext with Some c => negb (String.eqb c context) | None => false end.

Definition defaultRange : range :=
  match interval policy with
  | None => UNRESOLVED_RANGE
  | Some i => match fallback policy with
              | FallbackPreviousComplete => getPreviousBillingPeriod i now
              | FallbackCurrent => getCurrentBillingPeriod i now
              end
  end.

Definition fallbackRange : range :=
  match minimumFallback policy with
  | Some m => if str_lt (from defaultRange) (from m) then m else defaultRange
  | None => defaultRange
  end.

Definition requested : option range := readBillingPeriodParams url (legacyParams policy).
Definition validRange : option range := invoice_range requested (minimumRangeStart policy).
Definition hasRangeParams : bool :=
  has_param (p_period_start url) || has_param (p_period_end url)
  || (legacyParams policy && (has_param (p_from url) || has_param (p_to url))).
Definition rejected : bool :=
  ready && bool_decide (scopeChange policy = AlignPeriod) && hasRangeParams && negb (bool_decide (is_Some validRange)).

Definition target : option range :=
  if ready then
    i ← interval policy;
    resolveBillingPeriodTarget scopeChanged (scopeChange policy) i validRange hasRangeParams fallbackRange
      (minimumRangeStart policy) (minimumFallback policy)
  else None.

Definition period : range :=
  if negb ready then UNRESOLVED_RANGE else default (default fallbackRange validRange) target.

(** [setPeriod]: the URL to navigate to, or [None] when the range is ignored. *)
Definition setPeriod (next : range) : option UrlParams :=
  if negb ready || negb (bool_decide (is_Some (invoice_range (Some next) (minimumRangeStart policy)))) then None
  else Some {| p_period_start := Some (from next); p_period_end := Some (to next);
               p_from := if legacyParams policy then None else p_from url;
               p_to := if legacyParams policy then None else p_to url |}.

(** What the effect of the render does. *)
Inductive EffectAction := DoNothing | Navigate (next : UrlParams) | ResolveContext (c : string).

Definition hook_effect : EffectAction :=
  if negb ready || (bool_decide (resolvedContext = Some context) && negb rejected) then DoNothing
  else match target with
       | Some t =>
           if nonempty (from t) && nonempty (to t)
              && negb (bool_decide (from <$> requested = Some (from t)) && bool_decide (to <$> requested = Some (to t)))
           then match setPeriod t with Some next => Navigate next | None => DoNothing end
           else ResolveContext context
       | None => ResolveContext context
       end.
End Render.

(** The state of the hook: the resolved context and the committed URL. *)
Definition hook_state : Type := option string * UrlParams.

(** The effect, with its navigation committed. *)
Definition after_effect (policy : BillingPeriodParamsPolicy) (now : Z) (st : hook_state) : hook_state :=
  match hook_effect policy now st.1 st.2 with
  | DoNothing => st
  | Navigate next => (st.1, next)
  | ResolveContext c => (Some c, st.2)
  end.

Definition period_of_state (policy : BillingPeriodParamsPolicy) (now : Z) (st : hook_state) : range := period policy now st.1 st.2.

(** ** Ranges *)

Lemma billing_range_id r v : billingRangeFromParams (Some (from r)) (Some (to r)) = Some v → v = r.
Proof.
  unfold billingRangeFromParams. destruct (_ || _ || _ || _); [done|]. destruct (str_lt _ _); [done|]. intros [= <-]. by destruct r.
Qed.

Lemma invoice_range_billing r m v :
  invoice_range (Some r) m = Some v → v = r ∧ billingRangeFromParams (Some (from r)) (Some (to r)) = Some r.
Proof.
  unfold invoice_range, invoiceRangeFromParams. cbn [fmap option_fmap option_map].
  destruct (billingRangeFromParams (Some (from r)) (Some (to r))) as [r'|] eqn:E; [|done].
  apply billing_range_id in E as ->. intros Hv. split; [|done].
  destruct m as [m|]; [destruct (_ && _); [done|]|]; by injection Hv.
Qed.

Lemma invoice_range_id r m v : invoice_range r m = Some v → r = Some v.
Proof. destruct r as [r|]; [|done]. by intros [-> _]%invoice_range_billing. Qed.

Lemma invoice_range_nonempty r m : is_Some (invoice_range (Some r) m) → nonempty (from r) = true ∧ nonempty (to r) = true.
Proof.
  intros [v Hv]. apply invoice_range_billing in Hv as [_ Hv]. unfold billingRangeFromParams in Hv. unfold nonempty.
  destruct (String.eqb (from r) ""), (String.eqb (to r) ""); done.
Qed.

(** A navigation of the hook is read back as the range it was made for. *)
Lemma setPeriod_reads policy url next url' :
  setPeriod policy url next = Some url' →
  requested policy url' = Some next ∧ validRange policy url' = Some next ∧ hasRangeParams policy url' = true.
Proof.
  unfold setPeriod. destruct (negb (ready policy)); [done|]. simpl. case_bool_decide as Hv; [|done]. intros [= <-].
  destruct Hv as [v Hv]. pose proof (invoice_range_id _ _ _ Hv) as [= <-].
  assert (requested policy {| p_period_start := Some (from next); p_period_end := Some (to next);
    p_from := if legacyParams policy then None else p_from url; p_to := if legacyParams policy then None else p_to url |} = Some next) as Hr
    by by apply invoice_range_billing in Hv as [_ ?].
  unfold validRange. rewrite Hr. split_and!; [done|done|]. unfold hasRangeParams. done.
Qed.

(** The shown period is the unresolved one before the hook is ready, and then always
    the fallback or a range valid for the community. *)
Lemma period_shown policy now rc url :
  (ready policy = false → period policy now rc url = UNRESOLVED_RANGE) ∧
  (ready policy = true → period policy now rc url = fallbackRange policy now
    ∨ invoice_range (Some (period policy now rc url)) (minimumRangeStart policy) = Some (period policy now rc url)).
Proof.
  unfold period, target. destruct (ready policy) eqn:Hr; simpl; [|by split]. split; [done|intros _].
  assert (∀ v, validRange policy url = Some v → invoice_range (Some v) (minimumRangeStart policy) = Some v) as Hv.
  { unfold validRange. intros v Hv. pose proof (invoice_range_id _ _ _ Hv) as E. by rewrite E in Hv. }
  assert (default (fallbackRange policy now) (validRange policy url) = fallbackRange policy now ∨
    invoice_range (Some (default (fallbackRange policy now) (validRange policy url))) (minimumRangeStart policy)
    = Some (default (fallbackRange policy now) (validRange policy url))) as Hdef.
  { destruct (validRange policy url) eqn:E; [right; by apply Hv|by left]. }
  destruct (interval policy) as [i|]; simpl; [|done]. unfold resolveBillingPeriodTarget.
  destruct (scopeChanged policy rc && _); [by left|]. destruct (negb (bool_decide (scopeChange policy = AlignPeriod))); [done|].
  destruct (hasRangeParams policy url && _); [by left|]. destruct (validRange policy url) as [v|]; simpl; [|by left].
  destruct (negb (scopeChanged policy rc) || _); [done|]. case_bool_decide as Ha; simpl; [|by left].
  destruct (below_minimum _ _); simpl; [by left|right]. destruct Ha as [a Ha]. rewrite Ha.
  by pose proof (invoice_range_id _ _ _ Ha) as [= <-].
Qed.

(** ** The URL settles *)

Lemma resolve_unchanged change i v has fb m mf :
  resolveBillingPeriodTarget false change i v has fb m mf
  = if bool_decide (change = AlignPeriod) && has && negb (bool_decide (is_Some v)) then Some fb else None.
Proof.
  unfold resolveBillingPeriodTarget. simpl. destruct (bool_decide (change = AlignPeriod)); simpl; [|done].
  destruct (has && _); [done|]. by destruct v.
Qed.

(** Where a target comes from. *)
Lemma resolve_target sc change i v has fb m mf t :
  resolveBillingPeriodTarget sc change i v has fb m mf = Some t →
  t = fb ∨ (change = AlignPeriod ∧ ∃ w, v = Some w ∧ t = alignedPeriodEndingWith w i ∧ is_Some (invoice_range (Some t) m)).
Proof.
  unfold resolveBillingPeriodTarget. destruct (sc && _); [intros [= <-]; by left|].
  case_bool_decide as Hc; simpl; [|done]. destruct (has && _); [intros [= <-]; by left|]. destruct v as [w|]; [|done].
  destruct (negb sc || _); [done|]. case_bool_decide as Hv; simpl; [|intros [= <-]; by left].
  destruct (below_minimum _ _); intros [= <-]; [by left|right]. split; [done|]. by exists w.
Qed.

Section Settle.
Context (policy : BillingPeriodParamsPolicy) (now : Z) (i : BillingInterval).
Context (Hready : scope_ready policy = true) (Hi : interval policy = Some i).
(** The fallback is valid for the community, as the source requires of its callers,
    and a whole billing period. *)
Context (Hfb : is_Some (invoice_range (Some (fallbackRange policy now)) (minimumRangeStart policy))).
Context (Hal : isBillingAlignedPeriod (from (fallbackRange policy now)) (to (fallbackRange policy now)) i = true).

Lemma ready_true : ready policy = true.
Proof. unfold ready. by rewrite Hready, Hi. Qed.

Lemma target_resolve rc url :
  target policy now rc url = resolveBillingPeriodTarget (scopeChanged policy rc) (scopeChange policy) i (validRange policy url)
    (hasRangeParams policy url) (fallbackRange policy now) (minimumRangeStart policy) (minimumFallback policy).
Proof. unfold target. by rewrite ready_true, Hi. Qed.

Lemma scope_resolved : scopeChanged policy (Some (context policy)) = false.
Proof. unfold scopeChanged. by rewrite String.eqb_refl, andb_false_r. Qed.

Lemma rejected_eq url :
  rejected policy url = bool_decide (scopeChange policy = AlignPeriod) && hasRangeParams policy url && negb (bool_decide (is_Some (validRange policy url))).
Proof. unfold rejected. by rewrite ready_true. Qed.

(** With the context resolved and an acceptable URL the hook rests. *)
Lemma hook_rests url : rejected policy url = false → hook_effect policy now (Some (context policy)) url = DoNothing.
Proof. intros Hr. unfold hook_effect. by rewrite ready_true, bool_decide_eq_true_2, Hr. Qed.

Lemma resolved_target url : rejected policy url = false → target policy now (Some (context policy)) url = None.
Proof. intros Hr. rewrite target_resolve, scope_resolved, resolve_unchanged. rewrite rejected_eq in Hr. by rewrite Hr. Qed.

(** Without a target the context is resolved (again) and nothing else happens. *)
Lemma no_target rc url :
  target policy now rc url = None →
  rejected policy url = false ∧ hook_effect policy now rc url = (if bool_decide (rc = Some (context policy)) then DoNothing else ResolveContext (context policy)).
Proof.
  intros Ht. assert (rejected policy url = false) as Hr.
  { rewrite rejected_eq. rewrite target_resolve in Ht. revert Ht. unfold resolveBillingPeriodTarget.
    destruct (scopeChanged policy rc && _); [done|]. destruct (bool_decide (scopeChange policy = AlignPeriod)); [simpl|done].
    by destruct (hasRangeParams policy url && _). }
  split; [done|]. unfold hook_effect. rewrite ready_true, Ht, Hr. simpl. by rewrite andb_true_r.
Qed.

(** A target's effect runs, whatever was resolved before. *)
Lemma target_runs rc url t :
  target policy now rc url = Some t → bool_decide (rc = Some (context policy)) && negb (rejected policy url) = false.
Proof.
  intros Ht. apply not_true_iff_false. intros [->%bool_decide_eq_true Hr%negb_true_iff]%andb_true_iff.
  by rewrite resolved_target in Ht.
Qed.

(** Once the URL carries the target, its context is resolved. *)
Lemma arrived_effect rc url t :
  target policy now rc url = Some t → requested policy url = Some t → hook_effect policy now rc url = ResolveContext (context policy).
Proof.
  intros Ht Hr. unfold hook_effect. rewrite ready_true, (target_runs _ _ _ Ht), Ht, Hr. simpl.
  by rewrite !bool_decide_eq_true_2, andb_false_r.
Qed.

(** Until then the effect navigates to it. *)
Lemma depart_effect rc url t :
  target policy now rc url = Some t → requested policy url ≠ Some t → is_Some (invoice_range (Some t) (minimumRangeStart policy)) →
  ∃ next, setPeriod policy url t = Some next ∧ hook_effect policy now rc url = Navigate next.
Proof.
  intros Ht Hne Hv. destruct (invoice_range_nonempty _ _ Hv) as [Hn1 Hn2].
  assert (∃ next, setPeriod policy url t = Some next) as [next Hs].
  { unfold setPeriod. rewrite ready_true, bool_decide_eq_true_2 by done. by eexists. }
  exists next. split; [done|]. unfold hook_effect. rewrite ready_true, (target_runs _ _ _ Ht), Ht, Hn1, Hn2, Hs. simpl.
  destruct (bool_decide (from <$> requested policy url = Some (from t)) && bool_decide (to <$> requested policy url = Some (to t))) eqn:E; [|done].
  apply andb_true_iff in E as [E1%bool_decide_eq_true E2%bool_decide_eq_true].
  destruct (requested policy url) as [r|]; [|done]. simpl in *. injection E1 as E1. injection E2 as E2.
  destruct Hne. f_equal. destruct r, t; simpl in *; congruence.
Qed.

(** A URL that carries the shown period keeps it shown and settles with one effect. *)
Lemma settled_url rc url t :
  validRange policy url = Some t → (target policy now rc url = None ∨ target policy now rc url = Some t) →
  period policy now rc url = t ∧ after_effect policy now (rc, url) = (Some (context policy), url) ∧
  hook_effect policy now (Some (context policy)) url = DoNothing ∧ period policy now (Some (context policy)) url = t.
Proof.
  intros Hv Ht. assert (requested policy url = Some t) as Hreq by by eapply invoice_range_id.
  assert (rejected policy url = false) as Hr.
  { rewrite rejected_eq, Hv. rewrite (bool_decide_eq_true_2 (is_Some _)) by by eexists. by rewrite andb_false_r. }
  assert (∀ rc', (target policy now rc' url = None ∨ target policy now rc' url = Some t) → period policy now rc' url = t) as Hp.
  { intros rc' Ht'. unfold period. rewrite ready_true. simpl. by destruct Ht' as [-> | ->]; [rewrite Hv|]. }
  split_and!; [by apply Hp| |by apply hook_rests|apply Hp; left; by apply resolved_target].
  unfold after_effect. cbn [fst snd]. destruct Ht as [Ht|Ht].
  - destruct (no_target rc url Ht) as [_ ->]. by case_bool_decide as E; [rewrite E|].
  - by rewrite (arrived_effect rc url t).
Qed.

(** A URL without a target keeps its period, and settles with one effect. *)
Lemma settled_plain rc url :
  target policy now rc url = None →
  after_effect policy now (rc, url) = (Some (context policy), url) ∧
  hook_effect policy now (Some (context policy)) url = DoNothing ∧
  period policy now (Some (context policy)) url = period policy now rc url.
Proof.
  intros Ht. destruct (no_target rc url Ht) as [Hr He]. split_and!; [|by apply hook_rests|].
  - unfold after_effect. cbn [fst snd]. rewrite He. by case_bool_decide as E; [rewrite E|].
  - unfold period. by rewrite Ht, resolved_target.
Qed.

(** Where the navigation lands: the URL carries the target, which is still shown. *)
Lemma landed rc url t next :
  target policy now rc url = Some t → setPeriod policy url t = Some next →
  isBillingAlignedPeriod (from t) (to t) i = true →
  validRange policy next = Some t ∧ (target policy now rc next = None ∨ target policy now rc next = Some t).
Proof.
  intros Ht Hs Ha. destruct (setPeriod_reads _ _ _ _ Hs) as (_ & Hv & Hh). split; [done|]. rewrite !target_resolve in *.
  unfold resolveBillingPeriodTarget in *. rewrite Hv, Hh, Ha.
  destruct (scopeChanged policy rc && bool_decide (scopeChange policy = ResetPeriod)); [by right|].
  rewrite (bool_decide_eq_true_2 (is_Some (Some t))) by by eexists. rewrite orb_true_r. simpl. left. by destruct (negb _).
Qed.

(** C18. From any URL and resolved context, after at most two effects the hook rests with
    the context resolved, and the period shown never changes on the way: the old URL's
    range is never paired with the new community. *)
Theorem period_settles rc url :
  (∀ v, validRange policy url = Some v → ∃ n, to v = iso n ∧ iso_range n) →
  let st1 := after_effect policy now (rc, url) in
  let st2 := after_effect policy now st1 in
  hook_effect policy now st2.1 st2.2 = DoNothing ∧ st2.1 = Some (context policy) ∧
  period policy now st1.1 st1.2 = period policy now rc url ∧
  period policy now st2.1 st2.2 = period policy now rc url.
Proof.
  intros Hn. cbn zeta.
  assert (∀ u, hook_effect policy now (Some (context policy)) u = DoNothing →
    after_effect policy now (Some (context policy), u) = (Some (context policy), u)) as Hrest
    by (intros u Hu; unfold after_effect; cbn [fst snd]; by rewrite Hu).
  destruct (target policy now rc url) as [t|] eqn:Ht.
  - assert (is_Some (invoice_range (Some t) (minimumRangeStart policy)) ∧ isBillingAlignedPeriod (from t) (to t) i = true) as [Hv Ha].
    { pose proof Ht as Ht'. rewrite target_resolve in Ht'. apply resolve_target in Ht' as [->|(_ & w & Hw & -> & Hv)]; [done|].
      split; [done|]. destruct (Hn w Hw) as (n & Hto & Hr).
      assert (alignedPeriodEndingWith w i = billing_period i (period_of i n)) as ->
        by (rewrite <- (aligned_period i n Hr (period_ok_of i n Hr)); unfold alignedPeriodEndingWith; by rewrite Hto).
      by apply billing_period_aligned, period_ok_of. }
    assert (period policy now rc url = t) as Hp by (unfold period; by rewrite ready_true, Ht).
    rewrite Hp. destruct (decide (requested policy url = Some t)) as [Hr|Hr].
    + assert (validRange policy url = Some t) as Hvt.
      { unfold validRange. rewrite Hr. destruct Hv as [v Hv]. by pose proof (invoice_range_id _ _ _ Hv) as [= <-]. }
      destruct (settled_url rc url t Hvt) as (_ & -> & Hd & Hp'); [by right|]. cbn [fst snd]. by rewrite Hrest.
    + destruct (depart_effect rc url t Ht Hr Hv) as (next & Hs & He). destruct (landed rc url t next Ht Hs Ha) as [Hvn Htn].
      assert (after_effect policy now (rc, url) = (rc, next)) as -> by (unfold after_effect; cbn [fst snd]; by rewrite He).
      destruct (settled_url rc next t Hvn Htn) as (Hp1 & -> & Hd & Hp2). by cbn [fst snd].
  - destruct (settled_plain rc url Ht) as (-> & Hd & Hp). cbn [fst snd]. by rewrite Hrest.
Qed.
End Settle.

(** A month of one community carried over to a quarterly one: its quarter. *)
Definition sample_policy : BillingPeriodParamsPolicy :=
  {| interval := Some quarterly; scope_ready := true; scopeId := "b"; fallback := FallbackPreviousComplete;
     minimumRangeStart := Some "2025-02-01"; minimumFallback := None; legacyParams := false; scopeChange := AlignPeriod |}.
Definition sample_url : UrlParams :=
  {| p_period_start := Some "2025-05-01"; p_period_end := Some "2025-05-31"; p_from := None; p_to := None |}.

Lemma period_settles_witness :
  period sample_policy 20541 (Some "a|monthly") sample_url = Range "2025-04-01" "2025-06-30" ∧
  (let st1 := after_effect sample_policy 20541 (Some "a|monthly", sample_url) in
   let st2 := after_effect sample_policy 20541 st1 in
   hook_effect sample_policy 20541 st2.1 st2.2 = DoNothing ∧ st2.1 = Some "b|quarterly" ∧
   period sample_policy 20541 st1.1 st1.2 = Range "2025-04-01" "2025-06-30" ∧
   period sample_policy 20541 st2.1 st2.2 = Range "2025-04-01" "2025-06-30").
Proof.
  assert (period sample_policy 20541 (Some "a|monthly") sample_url = Range "2025-04-01" "2025-06-30") as Hp by (vm_compute; reflexivity).
  split; [exact Hp|]. rewrite <- Hp.
  apply (period_settles sample_policy 20541 quarterly).
  - reflexivity.
  - reflexivity.
  - vm_compute. by eexists.
  - vm_compute. reflexivity.
  - intros v Hv. exists 20239%Z. split; [|apply iso_range_iff; lia]. vm_compute in Hv. injection Hv as <-. vm_compute. reflexivity.
Defined.

(** Without the requirement on the fallback the reset never settles: the effect gives
    up while the old context stays. *)
Lemma reset_needs_valid_fallback policy now rc url :
  scopeChanged policy (Some rc) = true → scopeChange policy = ResetPeriod →
  invoice_range (Some (fallbackRange policy now)) (minimumRangeStart policy) = None →
  requested policy url ≠ Some (fallbackRange policy now) →
  nonempty (from (fallbackRange policy now)) = true → nonempty (to (fallbackRange policy now)) = true →
  hook_effect policy now (Some rc) url = DoNothing ∧ rc ≠ context policy.
Proof.
  intros Hsc Hch Hinv Hreq Hn1 Hn2. pose proof Hsc as Hsc'. unfold scopeChanged in Hsc'. apply andb_true_iff in Hsc' as [Hr Hc].
  apply negb_true_iff, String.eqb_neq in Hc. split; [|done]. unfold hook_effect. rewrite Hr.
  rewrite bool_decide_eq_false_2 by congruence. simpl. unfold target. rewrite Hr. destruct (interval policy) as [i|] eqn:Hi.
  2: { unfold ready in Hr. by rewrite Hi, andb_false_r in Hr. }
  cbn [mbind option_bind]. unfold resolveBillingPeriodTarget. rewrite Hsc, Hch, bool_decide_eq_true_2 by done.
  cbn [andb]. rewrite Hn1, Hn2. cbn [andb].
  destruct (bool_decide (from <$> requested policy url = Some (from (fallbackRange policy now)))
    && bool_decide (to <$> requested policy url = Some (to (fallbackRange policy now)))) eqn:E; simpl.
  - apply andb_true_iff in E as [E1%bool_decide_eq_true E2%bool_decide_eq_true].
    destruct (requested policy url) as [r|]; [|done]. simpl in *. injection E1 as E1. injection E2 as E2.
    destruct Hreq. f_equal. destruct r, (fallbackRange policy now); simpl in *; congruence.
  - unfold setPeriod. by rewrite Hr, Hinv.
Qed.
