(* ===== verification/ObjectUrl.v ===== *)
(** The object URL of a fetched PDF: frontend/src/lib/usePdfObjectUrl.ts, as a
    transition system. A fetcher is its identity; React renders the hook, runs the
    effect when its dependency changed (cleanup first), and unmounts; the fetches'
    answers arrive in any order. Object URLs are numbered as they are created. *)

From S2P Require Import Prelude JsString.
Local Open Scope string_scope.

(** A fetched body; its type is empty when the response declared none. *)
Record Blob := { blob_id : nat; blob_type : string }.

Record PdfObjectUrlState := {
  st_request : option nat; st_url : option nat; st_blob : option Blob; st_loading : bool; st_error : bool;
}.

Definition IDLE_STATE : PdfObjectUrlState :=
  {| st_request := None; st_url := None; st_blob := None; st_loading := false; st_error := false |}.

Definition loading_state (request : nat) : PdfObjectUrlState :=
  {| st_request := Some request; st_url := None; st_blob := None; st_loading := true; st_error := false |}.
Definition error_state (request : nat) : PdfObjectUrlState :=
  {| st_request := Some request; st_url := None; st_blob := None; st_loading := false; st_error := true |}.
Definition loaded_state (request url : nat) (blob : Blob) : PdfObjectUrlState :=
  {| st_request := Some request; st_url := Some url; st_blob := Some blob; st_loading := false; st_error := false |}.

(** One run of the effect for a request: its closure variables, and whether its fetch
    was answered. The abort signal is raised exactly when the run is cancelled. *)
Record run := { run_request : nat; cancelled : bool; objectUrl : option nat; answered : bool }.

Record hook := {
  state : PdfObjectUrlState;
  rendered : option nat;            (** [enabled ? fetcher : null] of the last render *)
  deps : option (option nat);       (** the dependency of the last effect, absent before the first *)
  current_run : option nat;         (** the run whose cleanup is pending *)
  runs : list run;
  created : nat;                    (** URLs 0, 1, ... were created *)
  revoked : list nat;
  mounted : bool;
}.

Definition cancel (r : run) : run :=
  {| run_request := run_request r; cancelled := true; objectUrl := objectUrl r; answered := answered r |}.

(** The function the effect returned. *)
Definition cleanup (s : hook) : hook :=
  match current_run s with
  | None => s
  | Some i =>
      {| state := state s; rendered := rendered s; deps := deps s; current_run := None; runs := alter cancel i (runs s);
         created := created s;
         revoked := (revoked s ++ match runs s !! i ≫= objectUrl with Some u => [u] | None => [] end)%list;
         mounted := mounted s |}
  end.

Definition render (request : option nat) (s : hook) : hook :=
  {| state := state s; rendered := request; deps := deps s; current_run := current_run s; runs := runs s;
     created := created s; revoked := revoked s; mounted := mounted s |}.

(** The effect after a commit whose dependency changed. *)
Definition run_effect (s : hook) : hook :=
  let s := cleanup s in
  match rendered s with
  | None =>
      {| state := IDLE_STATE; rendered := None; deps := Some None; current_run := None; runs := runs s;
         created := created s; revoked := revoked s; mounted := mounted s |}
  | Some request =>
      {| state := loading_state request; rendered := Some request; deps := Some (Some request);
         current_run := Some (length (runs s));
         runs := (runs s ++ [{| run_request := request; cancelled := false; objectUrl := None; answered := false |}])%list;
         created := created s; revoked := revoked s; mounted := mounted s |}
  end.

Definition unmount (s : hook) : hook :=
  let s := cleanup s in
  {| state := state s; rendered := rendered s; deps := deps s; current_run := current_run s; runs := runs s;
     created := created s; revoked := revoked s; mounted := false |}.

Definition is_pdf (blob : Blob) : bool := negb (nonempty (blob_type blob)) || starts_with "application/pdf" (blob_type blob).

Definition set_run (i : nat) (r : run) (st : PdfObjectUrlState) (new_url : bool) (s : hook) : hook :=
  {| state := st; rendered := rendered s; deps := deps s; current_run := current_run s; runs := <[i := r]> (runs s);
     created := if new_url then S (created s) else created s; revoked := revoked s; mounted := mounted s |}.

(** The answer to a run's fetch, [None] when it failed or was aborted: the [then] and [catch] handlers. *)
Definition answer (i : nat) (outcome : option Blob) (s : hook) : option hook :=
  r ← runs s !! i;
  if answered r then None
  else
    let done url := {| run_request := run_request r; cancelled := cancelled r; objectUrl := url; answered := true |} in
    Some (if cancelled r then set_run i (done None) (state s) false s
          else match outcome with
               | Some blob =>
                   if is_pdf blob then set_run i (done (Some (created s))) (loaded_state (run_request r) (created s) blob) true s
                   else set_run i (done None) (error_state (run_request r)) false s
               | None => set_run i (done None) (error_state (run_request r)) false s
               end).

Inductive step : hook → hook → Prop :=
  | step_render s request : mounted s = true → step s (render request s)
  | step_effect s : mounted s = true → deps s ≠ Some (rendered s) → step s (run_effect s)
  | step_answer s s' i outcome : answer i outcome s = Some s' → step s s'
  | step_unmount s : mounted s = true → step s (unmount s).

Definition initial (request : option nat) : hook :=
  {| state := IDLE_STATE; rendered := request; deps := None; current_run := None; runs := []; created := 0; revoked := []; mounted := true |}.

Inductive reachable : hook → Prop :=
  | reach_init request : reachable (initial request)
  | reach_step s s' : reachable s → step s s' → reachable s'.

(** What the hook returns: URL, blob, loading, error. *)
Record view := { view_url : option nat; view_blob : option Blob; view_loading : bool; view_error : bool }.

Definition usePdfObjectUrl (s : hook) : view :=
  if bool_decide (st_request (state s) = rendered s)
  then {| view_url := st_url (state s); view_blob := st_blob (state s); view_loading := st_loading (state s); view_error := st_error (state s) |}
  else match rendered s with
       | Some _ => {| view_url := None; view_blob := None; view_loading := true; view_error := false |}
       | None => {| view_url := None; view_blob := None; view_loading := false; view_error := false |}
       end.

(** ** The invariant *)

(** The state shows the run whose cleanup is pending, and nothing without one. *)
Definition state_ok (s : hook) : Prop :=
  match current_run s with
  | Some i => ∃ r, runs s !! i = Some r ∧ cancelled r = false ∧ mounted s = true ∧
      st_request (state s) = Some (run_request r) ∧ st_url (state s) = objectUrl r ∧
      (answered r = false → objectUrl r = None)
  | None => mounted s = true → st_url (state s) = None
  end.

(** A run's URL is one that was created, is no other run's, and is revoked exactly
    when the run was cancelled. *)
Definition urls_ok (s : hook) : Prop :=
  (∀ i r, runs s !! i = Some r → cancelled r = false → current_run s = Some i) ∧
  (∀ i r u, runs s !! i = Some r → objectUrl r = Some u → answered r = true ∧ (u < created s)%nat ∧ (u ∈ revoked s ↔ cancelled r = true)) ∧
  (∀ u, (u < created s)%nat → ∃ i r, runs s !! i = Some r ∧ objectUrl r = Some u) ∧
  (∀ i j r r' u, runs s !! i = Some r → runs s !! j = Some r' → objectUrl r = Some u → objectUrl r' = Some u → i = j) ∧
  (∀ u, u ∈ revoked s → (u < created s)%nat) ∧ NoDup (revoked s).

Definition hook_inv (s : hook) : Prop := state_ok s ∧ urls_ok s ∧ (mounted s = false → current_run s = None).

(** After the cleanup no run is left, and every URL created so far is revoked. *)
Lemma cleanup_urls s : state_ok s → urls_ok s → urls_ok (cleanup s) ∧ current_run (cleanup s) = None.
Proof.
  intros Hst (Hc & Hu & Hex & Hinj & Hlt & Hnd). unfold cleanup. destruct (current_run s) as [i|] eqn:Hi; [|split; [split_and!; try done; by rewrite Hi|done]].
  unfold state_ok in Hst. rewrite Hi in Hst. destruct Hst as (r & Hr & Hcr & _). split; [|done].
  assert (∀ j r', alter cancel i (runs s) !! j = Some r' →
    ∃ r0, runs s !! j = Some r0 ∧ objectUrl r' = objectUrl r0 ∧ answered r' = answered r0 ∧ cancelled r' = bool_decide (j = i) || cancelled r0) as Hal.
  { intros j r'. rewrite list_lookup_alter. destruct (decide (i = j)) as [<-|Hne].
    - rewrite Hr. intros [= <-]. exists r. by rewrite bool_decide_eq_true_2.
    - intros Hj. exists r'. by rewrite bool_decide_eq_false_2 by congruence. }
  assert (∀ j r0, runs s !! j = Some r0 → ∃ r', alter cancel i (runs s) !! j = Some r' ∧ objectUrl r' = objectUrl r0) as Hback.
  { intros j r0 Hj. rewrite list_lookup_alter. destruct (decide (i = j)) as [<-|]; rewrite Hj; by eexists. }
  rewrite Hr. cbn [mbind option_bind]. unfold urls_ok. cbn [runs current_run created revoked]. split_and!.
  - intros j r' Hj Hcj. destruct (Hal j r' Hj) as (r0 & Hr0 & _ & _ & E). rewrite Hcj in E. symmetry in E.
    apply orb_false_iff in E as [Hne%bool_decide_eq_false E]. pose proof (Hc j r0 Hr0 E) as Hij. congruence.
  - intros j r' u Hj Hju. destruct (Hal j r' Hj) as (r0 & Hr0 & Eu & Ea & Ec). rewrite Eu in Hju. rewrite Ea, Ec.
    destruct (Hu j r0 u Hr0 Hju) as (? & ? & Hrev). split_and!; [done..|]. rewrite elem_of_app, Hrev, orb_true_iff, bool_decide_eq_true.
    split.
    + intros [?|Hin]; [by right|left]. destruct (objectUrl r) as [u'|] eqn:Hu'; [|by apply elem_of_nil in Hin].
      apply list_elem_of_singleton in Hin as ->. by eapply Hinj.
    + intros [->|?]; [right|by left]. rewrite Hr in Hr0. injection Hr0 as <-. rewrite Hju. by apply list_elem_of_singleton.
  - intros u Hul. destruct (Hex u Hul) as (j & r0 & Hj & Hju). destruct (Hback j r0 Hj) as (r' & ? & E). exists j, r'. by rewrite E.
  - intros j k r' r'' u Hj Hk Hju Hku. destruct (Hal j r' Hj) as (r0 & Hr0 & E & _). destruct (Hal k r'' Hk) as (r1 & Hr1 & E' & _).
    rewrite E in Hju. rewrite E' in Hku. by eapply Hinj.
  - intros u. rewrite elem_of_app. intros [?|Hin]; [by apply Hlt|]. destruct (objectUrl r) as [u'|] eqn:Hu'; [|by apply elem_of_nil in Hin].
    apply list_elem_of_singleton in Hin as ->. by destruct (Hu i r u' Hr Hu') as (_ & ? & _).
  - apply NoDup_app. split_and!; [done| |].
    + intros u Hin Hin'. destruct (objectUrl r) as [u'|] eqn:Hu'; [|by apply elem_of_nil in Hin'].
      apply list_elem_of_singleton in Hin' as ->. destruct (Hu i r u' Hr Hu') as (_ & _ & Hrev). apply Hrev in Hin. congruence.
    + destruct (objectUrl r); [apply NoDup_singleton|constructor].
Qed.

(** A new run has no URL yet. *)
Lemma urls_new_run s request :
  urls_ok s → current_run s = None →
  urls_ok {| state := loading_state request; rendered := rendered s; deps := Some (Some request); current_run := Some (length (runs s));
             runs := (runs s ++ [{| run_request := request; cancelled := false; objectUrl := None; answered := false |}])%list;
             created := created s; revoked := revoked s; mounted := mounted s |}.
Proof.
  intros (Hc & Hu & Hex & Hinj & Hlt & Hnd) Hn. unfold urls_ok. cbn [runs current_run created revoked].
  assert (∀ i r, (runs s ++ [{| run_request := request; cancelled := false; objectUrl := None; answered := false |}])%list !! i = Some r →
    runs s !! i = Some r ∨ i = length (runs s) ∧ objectUrl r = None) as Hcase.
  { intros i r [Hi|[Hge Hi]]%lookup_app_Some; [by left|right]. apply list_lookup_singleton_Some in Hi as [? <-]. split; [lia|done]. }
  split_and!; [| | | |done|done].
  - intros i r Hi Hcr. destruct (Hcase i r Hi) as [Hi'|[-> _]]; [|done]. pose proof (Hc i r Hi' Hcr). congruence.
  - intros i r u Hi Hiu. destruct (Hcase i r Hi) as [Hi'|[_ ?]]; [by eapply Hu|congruence].
  - intros u Hul. destruct (Hex u Hul) as (i & r & Hi & ?). exists i, r. split; [by apply lookup_app_l_Some|done].
  - intros i j r r' u Hi Hj Hiu Hju. destruct (Hcase i r Hi) as [Hi'|[_ ?]]; [|congruence].
    destruct (Hcase j r' Hj) as [Hj'|[_ ?]]; [|congruence]. by eapply Hinj.
Qed.

(** An answered run that got no URL changes no URL. *)
Lemma urls_answered s i r c st :
  urls_ok s → runs s !! i = Some r → answered r = false → cancelled r = c →
  urls_ok (set_run i {| run_request := run_request r; cancelled := c; objectUrl := None; answered := true |} st false s).
Proof.
  intros (Hc & Hu & Hex & Hinj & Hlt & Hnd) Hi Ha <-. unfold urls_ok, set_run. cbn [runs current_run created revoked].
  set (r' := {| run_request := run_request r; cancelled := cancelled r; objectUrl := None; answered := true |}).
  assert (∀ j x u, <[i := r']> (runs s) !! j = Some x → objectUrl x = Some u → runs s !! j = Some x) as Hcase.
  { intros j x u [[<- [<- _]]|[_ ?]]%list_lookup_insert_Some Hx; done. }
  split_and!; [| | | |done|done].
  - intros j x Hj Hcx. apply list_lookup_insert_Some in Hj as [[<- [<- _]]|[_ Hj]]; [by eapply Hc|by eapply Hc].
  - intros j x u Hj Hx. eapply Hu; [by eapply Hcase|done].
  - intros u Hul. destruct (Hex u Hul) as (j & x & Hj & Hx). exists j, x. split; [|done].
    rewrite list_lookup_insert_ne; [done|]. intros <-. rewrite Hi in Hj. injection Hj as <-.
    destruct (Hu i r u Hi Hx) as (? & _). congruence.
  - intros j k x y u Hj Hk Hx Hy. eapply Hinj; [by eapply Hcase|by eapply Hcase|done|done].
Qed.

(** The live run's PDF gets the next URL. *)
Lemma urls_loaded s i r st :
  urls_ok s → runs s !! i = Some r → answered r = false → cancelled r = false →
  urls_ok (set_run i {| run_request := run_request r; cancelled := false; objectUrl := Some (created s); answered := true |} st true s).
Proof.
  intros (Hc & Hu & Hex & Hinj & Hlt & Hnd) Hi Ha Hcr. unfold urls_ok, set_run. cbn [runs current_run created revoked].
  set (r' := {| run_request := run_request r; cancelled := false; objectUrl := Some (created s); answered := true |}).
  assert (∀ j x u, <[i := r']> (runs s) !! j = Some x → objectUrl x = Some u →
    (j = i ∧ x = r' ∧ u = created s) ∨ (runs s !! j = Some x ∧ (u < created s)%nat)) as Hcase.
  { intros j x u [[<- [<- _]]|[_ Hj]]%list_lookup_insert_Some Hx; [left; by injection Hx|right].
    split; [done|]. by destruct (Hu j x u Hj Hx) as (_ & ? & _). }
  split_and!; [| | | | |done].
  - intros j x Hj Hcx. apply list_lookup_insert_Some in Hj as [[<- [<- _]]|[_ Hj]]; by eapply Hc.
  - intros j x u Hj Hx. destruct (Hcase j x u Hj Hx) as [(-> & -> & ->)|[Hj' Hul]].
    + split_and!; [done|lia|]. simpl. split; [|done]. intros Hin. specialize (Hlt _ Hin). lia.
    + destruct (Hu j x u Hj' Hx) as (? & _ & ?). split_and!; [done|lia|done].
  - intros u Hul. destruct (decide (u = created s)) as [->|Hne].
    + exists i, r'. split; [|done]. apply list_lookup_insert_eq. by eapply lookup_lt_Some.
    + destruct (Hex u) as (j & x & Hj & Hx); [lia|]. exists j, x. split; [|done]. rewrite list_lookup_insert_ne; [done|].
      intros <-. rewrite Hi in Hj. injection Hj as <-. destruct (Hu i r u Hi Hx) as (? & _). congruence.
  - intros j k x y u Hj Hk Hx Hy.
    destruct (Hcase j x u Hj Hx) as [(-> & _ & ->)|[Hj' Hul]], (Hcase k y _ Hk Hy) as [(-> & _ & ?)|[Hk' ?]]; try done; try lia.
    by eapply Hinj.
  - intros u Hin. specialize (Hlt u Hin). lia.
Qed.

Lemma answer_inv i outcome s s' : hook_inv s → answer i outcome s = Some s' → hook_inv s'.
Proof.
  intros (Hst & Hu & Hm) Ha. unfold answer in Ha. destruct (runs s !! i) as [r|] eqn:Hi; [|done]. cbn [mbind option_bind] in Ha.
  destruct (answered r) eqn:Han; [done|]. injection Ha as <-.
  assert (i < length (runs s))%nat as Hlen by by eapply lookup_lt_Some.
  destruct (cancelled r) eqn:Hcr.
  - split_and!; [|by apply urls_answered|done]. unfold state_ok, set_run in *. cbn [current_run runs state mounted].
    destruct (current_run s) as [k|] eqn:Hk; [|done]. destruct Hst as (r0 & Hr0 & Hc0 & ?). exists r0.
    rewrite list_lookup_insert_ne; [done|]. intros <-. rewrite Hi in Hr0. injection Hr0 as <-. congruence.
  - pose proof (proj1 Hu i r Hi Hcr) as Hk. unfold state_ok in Hst. rewrite Hk in Hst.
    destruct Hst as (r0 & Hr0 & _ & Hmt & _). rewrite Hi in Hr0. injection Hr0 as <-.
    assert (∀ st url new, st_request st = Some (run_request r) → st_url st = url →
      state_ok (set_run i {| run_request := run_request r; cancelled := false; objectUrl := url; answered := true |} st new s)) as Hok.
    { intros st url new E1 E2. unfold state_ok, set_run. cbn [current_run runs state mounted]. rewrite Hk. eexists.
      rewrite list_lookup_insert_eq by done. split_and!; done. }
    destruct outcome as [blob|]; [destruct (is_pdf blob)|];
      (split_and!; [by apply Hok|first [by apply urls_loaded|by apply urls_answered]|unfold set_run; cbn; congruence]).
Qed.

Lemma hook_step_inv s s' : hook_inv s → step s s' → hook_inv s'.
Proof.
  intros Hinv Hs. destruct Hs as [s request Hm|s Hm _|s s' i outcome Ha|s Hm]; [done| |by eapply answer_inv|].
  - destruct Hinv as (Hst & Hu & _). destruct (cleanup_urls s Hst Hu) as [Hu' Hc].
    assert (mounted (cleanup s) = true) as Hm' by (unfold cleanup; by destruct (current_run s)).
    unfold run_effect. destruct (rendered (cleanup s)) as [request|] eqn:Hr; split_and!; try done.
    + unfold state_ok. cbn [current_run runs state mounted]. eexists. rewrite list_lookup_middle by done. split_and!; done.
    + destruct (urls_new_run (cleanup s) request Hu' Hc) as (? & ?). rewrite <- Hr. by split.
    + cbn. congruence.
    + destruct Hu' as (H1 & H2). split; [|done]. intros i r Hi Hci. specialize (H1 i r Hi Hci). congruence.
  - destruct Hinv as (Hst & Hu & _). destruct (cleanup_urls s Hst Hu) as [Hu' Hc]. unfold unmount. split_and!.
    + unfold state_ok. cbn [current_run mounted]. by rewrite Hc.
    + done.
    + done.
Qed.

Lemma hook_reachable_inv s : reachable s → hook_inv s.
Proof.
  induction 1 as [request|s s' _ IH Hs]; [|by eapply hook_step_inv]. split_and!; [done| |done].
  unfold urls_ok. cbn [initial runs current_run created revoked]. split_and!; try (intros *; by rewrite lookup_nil).
  - lia.
  - by intros u ?%elem_of_nil.
  - constructor.
Qed.

(** C12. However renders, effects, answers and the unmount interleave: a URL the hook
    returns is one of the rendered request, created and not yet revoked; at most one
    URL is alive, the one of the run whose cleanup is pending; no URL is revoked twice;
    and after the unmount none is left. *)
Theorem object_urls_safe s :
  reachable s →
  (∀ u, mounted s = true → view_url (usePdfObjectUrl s) = Some u →
     (u < created s)%nat ∧ u ∉ revoked s ∧ ∃ r, r ∈ runs s ∧ objectUrl r = Some u ∧ rendered s = Some (run_request r)) ∧
  (∀ u, (u < created s)%nat → u ∉ revoked s →
     ∃ i r, current_run s = Some i ∧ runs s !! i = Some r ∧ objectUrl r = Some u) ∧
  NoDup (revoked s) ∧
  (mounted s = false → ∀ u, (u < created s)%nat → u ∈ revoked s).
Proof.
  intros (Hst & (Hc & Hu & Hex & Hinj & Hlt & Hnd) & Hm)%hook_reachable_inv.
  assert (∀ u, (u < created s)%nat → u ∉ revoked s → ∃ i r, current_run s = Some i ∧ runs s !! i = Some r ∧ objectUrl r = Some u) as Hlive.
  { intros u Hul Hnr. destruct (Hex u Hul) as (i & r & Hi & Hiu). exists i, r. split_and!; [|done..]. apply (Hc i r Hi).
    apply not_true_iff_false. intros Hcr. apply Hnr. by apply (Hu i r u Hi Hiu). }
  split_and!; [|done|done|].
  - intros u Hmt. unfold usePdfObjectUrl. case_bool_decide as Hreq; [|by destruct (rendered s)]. cbn [view_url]. intros Hv.
    unfold state_ok in Hst. destruct (current_run s) as [i|]; [|by rewrite Hst in Hv].
    destruct Hst as (r & Hi & Hcr & _ & Hrq & Hru & _). rewrite Hv in Hru. symmetry in Hru.
    destruct (Hu i r u Hi Hru) as (_ & ? & Hrev). split_and!; [done| |].
    + intros Hin. apply Hrev in Hin. congruence.
    + exists r. split_and!; [by eapply list_elem_of_lookup_2|done|congruence].
  - intros Hmt u Hul. destruct (decide (u ∈ revoked s)) as [|Hnr]; [done|].
    destruct (Hlive u Hul Hnr) as (i & _ & Hi & _). rewrite Hm in Hi by done. done.
Qed.

(** A second request while the first is loading: the first answer is dropped. *)
Definition pdf_blob (n : nat) : Blob := {| blob_id := n; blob_type := "application/pdf" |}.

Lemma object_urls_safe_witness :
  ∃ s, reachable s ∧ view_url (usePdfObjectUrl s) = Some 0%nat ∧ rendered s = Some 7%nat ∧ (0 < created s)%nat ∧ (0 : nat) ∉ revoked s.
Proof.
  set (s0 := initial (Some 5%nat)). set (s1 := run_effect s0). set (s2 := render (Some 7%nat) s1). set (s3 := run_effect s2).
  set (s4 := default s3 (answer 0 (Some (pdf_blob 1)) s3)). set (s5 := default s4 (answer 1 (Some (pdf_blob 2)) s4)).
  assert (reachable s5) as Hr.
  { apply (reach_step s4); [|by apply (step_answer s4 s5 1%nat (Some (pdf_blob 2)))].
    apply (reach_step s3); [|by apply (step_answer s3 s4 0%nat (Some (pdf_blob 1)))].
    apply (reach_step s2); [|by apply step_effect]. apply (reach_step s1); [|by apply step_render].
    apply (reach_step s0); [|by apply step_effect]. apply reach_init. }
  exists s5. split; [exact Hr|]. split; [reflexivity|]. split; [reflexivity|].
  destruct (object_urls_safe s5 Hr) as [Hv _]. destruct (Hv 0%nat) as (? & ? & _); [reflexivity|reflexivity|]. by split.
Defined.
