(* ===== verification/TariffForms.v ===== *)
(** The tariff and band forms: frontend/src/features/tariffs/useTariffForms.ts. The
    refinements of the form schemas as lists of issues (field and message), the form
    values of a saved record, and the request built from form values. The base shape
    the schema library checks (enumerations, trimmed required texts) is the type of
    the values. *)

From S2P Require Import Prelude JsString JsNumber TariffTypes.
Local Open Scope string_scope.

Record TariffPeriodFormValues := {
  pf_tariff : string; pf_billing_mode : TariffBillingMode; pf_period_type : TariffPeriodType; pf_label : string;
  pf_price_chf_per_kwh : string; pf_percentage : string; pf_time_from : string; pf_time_to : string; pf_weekdays : string;
  pf_months : string;
}.

Record TariffFormValues := {
  tf_name : string; tf_category : TariffCategory; tf_billing_mode : TariffBillingMode; tf_energy_type : EnergyType;
  tf_fixed_price_chf : string; tf_initial_percentage : string; tf_initial_periods : list TariffPeriodFormValues;
  tf_split_key : SplitKey; tf_valid_from : string; tf_valid_to : string; tf_notes : string; tf_dynamic_source : string;
  tf_minimum_price_chf_per_kwh : string; is_new : bool;
}.

(** [undefined] members of a request are absent from it: the outer option. *)
Record InitialTariffPeriodInput := {
  pi_period_type : TariffPeriodType; pi_label : string; pi_price_chf_per_kwh : option string; pi_percentage : option string;
  pi_time_from : option string; pi_time_to : option string; pi_weekdays : string; pi_months : string;
}.
Record TariffPeriodInput := { pi_tariff : string; pi_band : InitialTariffPeriodInput }.

Record TariffInput := {
  ti_zev : string; ti_name : string; ti_category : TariffCategory; ti_billing_mode : TariffBillingMode;
  ti_energy_type : option EnergyType; ti_fixed_price_chf : option string; ti_initial_percentage : option (option string);
  ti_initial_periods : option (list InitialTariffPeriodInput); ti_split_key : SplitKey; ti_valid_from : string;
  ti_valid_to : option string; ti_notes : string; ti_dynamic_source : option string;
  ti_minimum_price_chf_per_kwh : option string;
}.

(** ** Schemas *)

Definition is_energy_based (m : TariffBillingMode) : bool := bool_decide (m = Energy) || bool_decide (m = PercentageOfEnergy).
Definition is_shared (m : TariffBillingMode) : bool := bool_decide (m = SharedMonthlyFee) || bool_decide (m = SharedYearlyFee).
Definition not_a_number (s : string) : bool := is_nan (to_number s).

Definition issue_when (b : bool) (path message : string) : list (string * string) := if b then [(path, message)] else [].

(** [superRefine] of [tariffFormSchema]; the energy type of the values is never empty. *)
Definition tariffFormSchema (v : TariffFormValues) : list (string * string) :=
  let initial := bool_decide (tf_billing_mode v = PercentageOfEnergy) && is_new v in
  let fee := negb (is_energy_based (tf_billing_mode v)) in
  (issue_when (nonempty (tf_minimum_price_chf_per_kwh v) && not_a_number (tf_minimum_price_chf_per_kwh v))
     "minimum_price_chf_per_kwh" "Minimum price must be a number."
   ++ issue_when (initial && negb (nonempty (tf_initial_percentage v))) "initial_percentage" "Percentage is required."
   ++ issue_when (initial && nonempty (tf_initial_percentage v) && not_a_number (tf_initial_percentage v))
        "initial_percentage" "Percentage must be a number."
   ++ issue_when (fee && negb (nonempty (tf_fixed_price_chf v))) "fixed_price_chf" "Fixed price is required."
   ++ issue_when (fee && nonempty (tf_fixed_price_chf v) && not_a_number (tf_fixed_price_chf v))
        "fixed_price_chf" "Fixed price must be a number.")%list.

Definition refineBand (v : TariffPeriodFormValues) : list (string * string) :=
  ((if bool_decide (pf_billing_mode v = PercentageOfEnergy)
    then issue_when (negb (nonempty (trim (pf_percentage v)))) "percentage" "Percentage is required."
    else issue_when (negb (nonempty (trim (pf_price_chf_per_kwh v)))) "price_chf_per_kwh" "Price is required.")
   ++ issue_when (negb (bool_decide (pf_period_type v = Flat)) && negb (Bool.eqb (nonempty (pf_time_from v)) (nonempty (pf_time_to v))))
        (if nonempty (pf_time_from v) then "time_to" else "time_from") "Enter both times, or neither.")%list.

(** ** Default values; [today] is [todayBusinessIso()] when the module is loaded *)

Definition defaultTariffFormValues (today : string) : TariffFormValues :=
  {| tf_name := ""; tf_category := CatEnergy; tf_billing_mode := Energy; tf_energy_type := LocalEnergy; tf_fixed_price_chf := "";
     tf_initial_percentage := ""; tf_initial_periods := []; tf_split_key := SplitEqual; tf_valid_from := today; tf_valid_to := "";
     tf_notes := ""; tf_dynamic_source := ""; tf_minimum_price_chf_per_kwh := ""; is_new := true |}.

Definition defaultTariffPeriodFormValues : TariffPeriodFormValues :=
  {| pf_tariff := ""; pf_billing_mode := Energy; pf_period_type := Flat; pf_label := ""; pf_price_chf_per_kwh := "";
     pf_percentage := ""; pf_time_from := ""; pf_time_to := ""; pf_weekdays := ""; pf_months := "" |}.

(** ** From a record to the form and from the form to the request *)

(** [value || null]. *)
Definition or_null (s : string) : option string := if nonempty s then Some s else None.

Definition mapTariffToFormValues (t : Tariff) : TariffFormValues :=
  {| tf_name := name t; tf_category := category t; tf_billing_mode := billing_mode t;
     tf_energy_type := default LocalEnergy (energy_type t); tf_fixed_price_chf := or_str (fixed_price_chf t) "";
     tf_initial_percentage := ""; tf_initial_periods := []; tf_split_key := split_key t; tf_valid_from := valid_from t;
     tf_valid_to := or_str (valid_to t) ""; tf_notes := or_str (notes t) ""; tf_dynamic_source := or_str (dynamic_source t) "";
     tf_minimum_price_chf_per_kwh := or_str (minimum_price_chf_per_kwh t) ""; is_new := false |}.

Definition mapBandDraftToInput (v : TariffPeriodFormValues) : InitialTariffPeriodInput :=
  let isPercentage := bool_decide (pf_billing_mode v = PercentageOfEnergy) in
  {| pi_period_type := pf_period_type v; pi_label := if bool_decide (pf_period_type v = Band) then pf_label v else "";
     pi_price_chf_per_kwh := if isPercentage then None else Some (pf_price_chf_per_kwh v);
     pi_percentage := if isPercentage then Some (pf_percentage v) else None;
     pi_time_from := or_null (pf_time_from v); pi_time_to := or_null (pf_time_to v); pi_weekdays := pf_weekdays v;
     pi_months := pf_months v |}.

Definition mapTariffFormValuesToInput (v : TariffFormValues) (zevId : string) : TariffInput :=
  let isEnergyBased := is_energy_based (tf_billing_mode v) in
  let isEnergy := bool_decide (tf_billing_mode v = Energy) in
  {| ti_zev := zevId; ti_name := trim (tf_name v); ti_category := tf_category v; ti_billing_mode := tf_billing_mode v;
     ti_energy_type := if isEnergyBased then Some (tf_energy_type v) else None;
     ti_fixed_price_chf := if isEnergyBased then None else or_null (tf_fixed_price_chf v);
     ti_initial_percentage :=
       if is_new v && bool_decide (tf_billing_mode v = PercentageOfEnergy) then Some (or_null (tf_initial_percentage v)) else None;
     ti_initial_periods :=
       if is_new v && isEnergy && negb (nonempty (tf_dynamic_source v)) && (0 <? length (tf_initial_periods v))%nat
       then Some (map mapBandDraftToInput (tf_initial_periods v)) else None;
     ti_split_key := if is_shared (tf_billing_mode v) then tf_split_key v else SplitEqual;
     ti_valid_from := tf_valid_from v; ti_valid_to := or_null (tf_valid_to v); ti_notes := tf_notes v;
     ti_dynamic_source := if isEnergy then or_null (tf_dynamic_source v) else None;
     ti_minimum_price_chf_per_kwh :=
       if isEnergy && bool_decide (tf_energy_type v = FeedIn) && nonempty (tf_dynamic_source v)
       then or_null (tf_minimum_price_chf_per_kwh v) else None |}.

Definition mapTariffPeriodToFormValues (p : TariffPeriod) (billingMode : TariffBillingMode) : TariffPeriodFormValues :=
  {| pf_tariff := period_tariff p; pf_billing_mode := billingMode; pf_period_type := period_type p; pf_label := default "" (label p);
     pf_price_chf_per_kwh := default "" (price_chf_per_kwh p); pf_percentage := default "" (percentage p);
     pf_time_from := or_str (time_from p) ""; pf_time_to := or_str (time_to p) ""; pf_weekdays := or_str (weekdays p) "";
     pf_months := or_str (months p) "" |}.

Definition mapTariffPeriodFormValuesToInput (v : TariffPeriodFormValues) : TariffPeriodInput :=
  {| pi_tariff := pf_tariff v; pi_band := mapBandDraftToInput v |}.

(** ** What a saved tariff holds, as a request *)

(** The tariffs the form can show in full: a price per energy or a fee by its mode, a fetched
    series only on an energy tariff, a minimum price only on a fetched feed-in one. The server
    enforces these except [wf_split]: it keeps a split key of a mode that shares nothing,
    where it has no effect, and the form would send the default for it. *)
Record tariff_wf (t : Tariff) : Prop := {
  wf_name : trim (name t) = name t;
  wf_energy : is_energy_based (billing_mode t) = true → is_Some (energy_type t) ∧ fixed_price_chf t = None;
  wf_fee : is_energy_based (billing_mode t) = false → energy_type t = None ∧ fixed_price_chf t ≠ Some "";
  wf_split : is_shared (billing_mode t) = false → split_key t = SplitEqual;
  wf_valid_to : valid_to t ≠ Some "";
  wf_dynamic : dynamic_source t ≠ Some "" ∧ (is_Some (dynamic_source t) → billing_mode t = Energy);
  wf_minimum : minimum_price_chf_per_kwh t ≠ Some "" ∧
    (is_Some (minimum_price_chf_per_kwh t) → energy_type t = Some FeedIn ∧ is_Some (dynamic_source t));
}.

Definition input_of (t : Tariff) : TariffInput :=
  {| ti_zev := zev t; ti_name := name t; ti_category := category t; ti_billing_mode := billing_mode t;
     ti_energy_type := energy_type t; ti_fixed_price_chf := fixed_price_chf t; ti_initial_percentage := None;
     ti_initial_periods := None; ti_split_key := split_key t; ti_valid_from := valid_from t; ti_valid_to := valid_to t;
     ti_notes := default "" (notes t); ti_dynamic_source := dynamic_source t;
     ti_minimum_price_chf_per_kwh := minimum_price_chf_per_kwh t |}.

Lemma or_null_or_str o : o ≠ Some "" → or_null (or_str o "") = o.
Proof. destruct o as [s|]; [|done]. intros H. unfold or_null, nonempty. simpl. destruct (String.eqb_spec s "") as [->|Hne]; [done|]. by apply String.eqb_neq in Hne as ->. Qed.

Lemma nonempty_or_str o : o ≠ Some "" → nonempty (or_str o "") = bool_decide (is_Some o).
Proof.
  destruct o as [s|]; intros H; [|done]. simpl. destruct (String.eqb_spec s "") as [->|Hne]; [done|].
  unfold nonempty. by apply String.eqb_neq in Hne as ->.
Qed.

(** C37. Opening a saved tariff in the form and saving it unchanged sends the tariff as it
    is, when the form can show it in full ([tariff_wf]; in particular a tariff that is not
    shared has the default split key). *)
Theorem tariff_form_roundtrip t : tariff_wf t → mapTariffFormValuesToInput (mapTariffToFormValues t) (zev t) = input_of t.
Proof.
  intros [Hn He Hf Hs Hv [Hd Hdm] [Hm Hmm]]. unfold mapTariffFormValuesToInput, mapTariffToFormValues, input_of.
  cbn [tf_billing_mode tf_name tf_category tf_energy_type tf_fixed_price_chf tf_initial_percentage tf_initial_periods tf_split_key
       tf_valid_from tf_valid_to tf_notes tf_dynamic_source tf_minimum_price_chf_per_kwh is_new andb].
  assert (or_str (notes t) "" = default "" (notes t)) as ->.
  { destruct (notes t) as [s|]; [simpl|done]. by destruct (String.eqb_spec s "") as [->|]. }
  assert (fixed_price_chf t ≠ Some "") as Hfp.
  { destruct (is_energy_based (billing_mode t)); [by destruct He as [_ ->]|by destruct Hf]. }
  rewrite Hn, (nonempty_or_str _ Hd), (or_null_or_str _ Hv), (or_null_or_str _ Hd), (or_null_or_str _ Hm), (or_null_or_str _ Hfp).
  f_equal.
  - destruct (is_energy_based (billing_mode t)); [by destruct He as [[e ->] _]|by destruct Hf as [-> _]].
  - destruct (is_energy_based (billing_mode t)); [by destruct He as [_ ->]|done].
  - destruct (is_shared (billing_mode t)); [done|by rewrite Hs].
  - case_bool_decide as Hb; [done|]. destruct (dynamic_source t); [|done]. destruct Hb. by apply Hdm.
  - destruct (minimum_price_chf_per_kwh t) as [m|]; [|by destruct (_ && _)]. destruct Hmm as [-> Hds]; [done|].
    specialize (Hdm Hds). by rewrite !bool_decide_eq_true_2.
Qed.

(** A saved band matches its tariff's mode, and has both times or neither. *)
Record period_wf (p : TariffPeriod) (m : TariffBillingMode) : Prop := {
  pwf_price : m = PercentageOfEnergy → price_chf_per_kwh p = None ∧ is_Some (percentage p);
  pwf_percentage : m ≠ PercentageOfEnergy → is_Some (price_chf_per_kwh p) ∧ percentage p = None;
  pwf_from : time_from p ≠ Some "";
  pwf_to : time_to p ≠ Some "";
  pwf_label : period_type p ≠ Band → default "" (label p) = "";
}.

Lemma or_str_default o : or_str o "" = default "" o.
Proof. destruct o as [s|]; [simpl|done]. by destruct (String.eqb_spec s "") as [->|]. Qed.

(** Opening a saved band in the form and saving it unchanged sends the band as it is. *)
Lemma period_form_roundtrip p m :
  period_wf p m →
  mapTariffPeriodFormValuesToInput (mapTariffPeriodToFormValues p m) =
    {| pi_tariff := period_tariff p;
       pi_band := {| pi_period_type := period_type p; pi_label := default "" (label p); pi_price_chf_per_kwh := price_chf_per_kwh p;
                     pi_percentage := percentage p; pi_time_from := time_from p; pi_time_to := time_to p;
                     pi_weekdays := default "" (weekdays p); pi_months := default "" (months p) |} |}.
Proof.
  intros [Hp Hq Hf Ht Hl]. unfold mapTariffPeriodFormValuesToInput, mapTariffPeriodToFormValues, mapBandDraftToInput.
  cbn [pf_tariff pf_billing_mode pf_period_type pf_label pf_price_chf_per_kwh pf_percentage pf_time_from pf_time_to pf_weekdays pf_months].
  rewrite (or_null_or_str _ Hf), (or_null_or_str _ Ht), !or_str_default. do 2 f_equal.
  - case_bool_decide as E; [done|]. by rewrite Hl.
  - case_bool_decide as E; [by destruct (Hp E) as [-> _]|]. by destruct (Hq E) as [[s ->] _].
  - case_bool_decide as E; [by destruct (Hp E) as [_ [s ->]]|]. by destruct (Hq E) as [_ ->].
Qed.

(** ** What may be sent *)

Lemma issue_when_nil b path message : issue_when b path message = [] ↔ b = false.
Proof. by destruct b. Qed.

(** The form accepts a tariff exactly when its prices are numbers and the one its mode
    needs is there. *)
Lemma tariffFormSchema_nil v :
  tariffFormSchema v = [] ↔
  (tf_minimum_price_chf_per_kwh v ≠ "" → not_a_number (tf_minimum_price_chf_per_kwh v) = false) ∧
  (tf_billing_mode v = PercentageOfEnergy → is_new v = true →
     tf_initial_percentage v ≠ "" ∧ not_a_number (tf_initial_percentage v) = false) ∧
  (is_energy_based (tf_billing_mode v) = false → tf_fixed_price_chf v ≠ "" ∧ not_a_number (tf_fixed_price_chf v) = false).
Proof.
  assert (∀ s, nonempty s = true ↔ s ≠ "") as Hne by (intros s; unfold nonempty; by rewrite negb_true_iff, String.eqb_neq).
  unfold tariffFormSchema. rewrite !app_nil, !issue_when_nil, !andb_false_iff, !negb_false_iff. setoid_rewrite <- Hne.
  destruct (nonempty (tf_minimum_price_chf_per_kwh v)), (bool_decide (tf_billing_mode v = PercentageOfEnergy)) eqn:Hp, (is_new v),
    (is_energy_based (tf_billing_mode v)), (nonempty (tf_initial_percentage v)), (nonempty (tf_fixed_price_chf v)); simpl;
    (apply bool_decide_eq_true in Hp || apply bool_decide_eq_false in Hp); intuition congruence.
Qed.

(** Whatever was typed, the request obeys the rules of the server: a fee or a price per
    energy by the mode; first bands only with a new tariff priced by its own bands, each
    with a price and no percentage when it was drafted for one; a fetched series only on
    an energy tariff; a minimum price only on a fetched feed-in tariff; a split key only
    on a shared fee. *)
Theorem sent_tariff_consistent v zevId :
  let i := mapTariffFormValuesToInput v zevId in
  (is_Some (ti_energy_type i) ↔ is_energy_based (ti_billing_mode i) = true) ∧
  (is_Some (ti_fixed_price_chf i) → is_energy_based (ti_billing_mode i) = false) ∧
  (is_Some (ti_initial_percentage i) ↔ is_new v = true ∧ ti_billing_mode i = PercentageOfEnergy) ∧
  (∀ bands, ti_initial_periods i = Some bands →
     is_new v = true ∧ ti_billing_mode i = Energy ∧ ti_dynamic_source i = None ∧ bands ≠ [] ∧
     Forall (λ b, is_Some (pi_price_chf_per_kwh b) ↔ pi_percentage b = None) bands) ∧
  (is_Some (ti_dynamic_source i) → ti_billing_mode i = Energy) ∧
  (is_Some (ti_minimum_price_chf_per_kwh i) → ti_energy_type i = Some FeedIn ∧ is_Some (ti_dynamic_source i)) ∧
  (ti_split_key i ≠ SplitEqual → is_shared (ti_billing_mode i) = true) ∧
  ti_fixed_price_chf i ≠ Some "" ∧ ti_valid_to i ≠ Some "" ∧ ti_dynamic_source i ≠ Some "".
Proof.
  assert (∀ s, or_null s ≠ Some "") as Hnull.
  { intros s. unfold or_null, nonempty. destruct (String.eqb_spec s ""); [done|]. by intros [= ->]. }
  cbn zeta. unfold mapTariffFormValuesToInput.
  cbn [ti_energy_type ti_billing_mode ti_fixed_price_chf ti_initial_percentage ti_initial_periods ti_dynamic_source
       ti_minimum_price_chf_per_kwh ti_split_key ti_valid_to].
  unfold is_energy_based, is_shared.
  split; [|split; [|split; [|split; [|split; [|split; [|split; [|split; [|split]]]]]]]].
  - case_bool_decide; simpl; [done|]. case_bool_decide; simpl; [done|]. split; [by intros []|done].
  - do 2 (case_bool_decide; simpl; try by intros []).
  - destruct (is_new v); simpl; [case_bool_decide|]; split; try done; try by intros [].
  - intros bands. destruct (is_new v); simpl; [|done]. case_bool_decide; simpl; [|done].
    unfold or_null. destruct (nonempty (tf_dynamic_source v)); simpl; [done|].
    destruct (tf_initial_periods v) as [|b bs] eqn:E; simpl; [done|]. intros [= <-]. split_and!; try done.
    change (mapBandDraftToInput b :: map mapBandDraftToInput bs) with (mapBandDraftToInput <$> b :: bs).
    apply Forall_forall. intros x (d & -> & _)%list_elem_of_fmap. simpl. case_bool_decide; split; try done; by intros [].
  - case_bool_decide; [done|]. by intros [].
  - case_bool_decide as E1; simpl; [|by intros []]. case_bool_decide as E2; simpl; [|by intros []].
    unfold or_null. destruct (nonempty (tf_dynamic_source v)); [|by intros []]. intros _. rewrite E2. split; [|done].
    done.
  - do 2 (case_bool_decide; simpl; try done).
  - case_bool_decide; simpl; [done|]. case_bool_decide; [done|apply Hnull].
  - apply Hnull.
  - case_bool_decide; [apply Hnull|done].
Qed.

Lemma tariff_form_roundtrip_witness :
  let t := {| tariff_id := "t"; zev := "z"; name := "Solar"; category := CatEnergy; billing_mode := Energy; energy_type := Some FeedIn;
              fixed_price_chf := None; split_key := SplitEqual; valid_from := "2026-01-01"; valid_to := Some "2026-12-31";
              notes := None; source_component := None; source_series_name := None; dynamic_source := Some "s";
              minimum_price_chf_per_kwh := Some "0.05"; dynamic_price_summary := None; percentage_base_summary := None |} in
  tariff_wf t ∧ mapTariffFormValuesToInput (mapTariffToFormValues t) "z" = input_of t
  ∧ ti_minimum_price_chf_per_kwh (input_of t) = Some "0.05".
Proof.
  intros t. assert (tariff_wf t) as Hwf.
  { split; simpl; try done; by repeat split; try (intros; by eexists). }
  split; [exact Hwf|]. split; [exact (tariff_form_roundtrip t Hwf)|reflexivity].
Defined.
