(* ===== verification/Editors.v ===== *)
(** Tariff editing: the write scope of frontend/src/lib/useWriteScope.ts and the
    editor of frontend/src/features/tariffs/useTariffCrud.ts, as a transition system
    (TariffVersions has the tasks of useTariffVersions.ts). A scope object is its identity; a
    handler captures the scope and editing ids of the render that made it, so it may
    run with those of an earlier one. A request is submitted, sent (or refused by
    [assertWritable]), answered, and on success completed after the queries were
    invalidated. [req_form] is the form at submission, kept only for the proofs. *)

From S2P Require Import Prelude JsString.
Local Open Scope string_scope.

(** ** Model of useWriteScope.ts *)

Record WriteScope := {
  scope_id : nat; selectedZevId : option string; canWrite : bool; accountId : option Z; scopeKey : option string;
}.

(** [currentScope] holds the identity of the mounted scope, none after the unmount. *)
Definition isCurrent (currentScope : option nat) (submittedScope : WriteScope) : bool :=
  bool_decide (currentScope = Some (scope_id submittedScope)).

(** [false]: it throws. *)
Definition assertWritable (currentScope : option nat) (submittedScope : WriteScope) (requireCommunity : bool) : bool :=
  negb (negb (isCurrent currentScope submittedScope) || negb (canWrite submittedScope)
        || (requireCommunity && negb (truthy_str (selectedZevId submittedScope)))).

Inductive request_status := Submitted | Sent | Saved | Finished.
#[export] Instance request_status_eq_dec : EqDecision request_status.
Proof. solve_decision. Defined.

Inductive tone := ToneSuccess | ToneError.

(** ** Model of useTariffCrud.ts *)

Module Crud.

Inductive request_kind := SaveTariff | SavePeriod | DeleteTariff | DeletePeriod.
#[export] Instance request_kind_eq_dec : EqDecision request_kind.
Proof. solve_decision. Defined.

Record forms := {
  editingTariffId : option string; editingPeriodId : option string; periodTariffId : option string;
  tariffFormOpen : bool; periodFormOpen : bool;
}.

Definition no_forms : forms :=
  {| editingTariffId := None; editingPeriodId := None; periodTariffId := None; tariffFormOpen := false; periodFormOpen := false |}.

(** A request; [req_id] is the edited record, none for a new one, and [req_zev] the
    community of a tariff's payload. *)
Record request := {
  req_kind : request_kind; req_id : option string; req_zev : option string; req_scope : WriteScope; req_session : nat;
  req_form : forms; req_status : request_status;
}.

(** What the page is told: toasts, and [onTariffSaved] and [onPeriodSaved]. *)
Inductive notice := Toast (key : string) (t : tone) | TariffSaved (created : bool) | PeriodSaved.

Record crud := {
  currentScope : option nat; scopes : list WriteScope; session : nat; form : forms; saveError : option string;
  saveBandErrors : bool; requests : list request; notices : list notice;
}.

Definition upd (s : crud) (bump : bool) (f : forms) (err : option string) (bands : bool) (rs : list request) (ns : list notice) : crud :=
  {| currentScope := currentScope s; scopes := scopes s; session := if bump then S (session s) else session s; form := f;
     saveError := err; saveBandErrors := bands; requests := rs; notices := (notices s ++ ns)%list |}.

(** [startSession] followed by the given form. *)
Definition startSession (s : crud) (f : forms) : crud := upd s true f None false (requests s) [].

Definition say (s : crud) (n : notice) : crud := upd s false (form s) (saveError s) (saveBandErrors s) (requests s) [n].

(** A commit whose scope changed: the effects set the new scope and reset the editor. *)
Definition commit_scope (zev : option string) (write : bool) (account : option Z) (s : crud) : crud :=
  let sc := {| scope_id := length (scopes s); selectedZevId := zev; canWrite := write; accountId := account; scopeKey := None |} in
  let s := {| currentScope := Some (scope_id sc); scopes := (scopes s ++ [sc])%list; session := session s; form := form s;
              saveError := saveError s; saveBandErrors := saveBandErrors s; requests := requests s; notices := notices s |} in
  startSession s no_forms.

Definition unmount (s : crud) : crud :=
  {| currentScope := None; scopes := scopes s; session := session s; form := form s; saveError := saveError s;
     saveBandErrors := saveBandErrors s; requests := requests s; notices := notices s |}.

Definition with_tariff (f : forms) (id : option string) (open : bool) : forms :=
  {| editingTariffId := id; editingPeriodId := editingPeriodId f; periodTariffId := periodTariffId f; tariffFormOpen := open;
     periodFormOpen := periodFormOpen f |}.
Definition with_period (f : forms) (id tariff : option string) (open : bool) : forms :=
  {| editingTariffId := editingTariffId f; editingPeriodId := id; periodTariffId := tariff; tariffFormOpen := tariffFormOpen f;
     periodFormOpen := open |}.

Definition startTariffEdit (id : string) (s : crud) : crud := startSession s (with_tariff (form s) (Some id) true).
Definition startPeriodEdit (id tariff : string) (s : crud) : crud := startSession s (with_period (form s) (Some id) (Some tariff) true).

Definition openCreateTariff (sc : WriteScope) (s : crud) : crud :=
  if negb (truthy_str (selectedZevId sc)) then say s (Toast "pages.tariffs.messages.selectZevBeforeCreate" ToneError)
  else startSession s (with_tariff (form s) None true).

Definition closeTariffForm (s : crud) : crud := startSession s (with_tariff (form s) None false).

Definition resolvePeriodTariffId (bandable : list string) (tariffId : option string) : option string :=
  match tariffId with Some t => Some t | None => head bandable end.

Definition openCreatePeriod (bandable : list string) (tariffId : option string) (s : crud) : crud :=
  if negb (truthy_str (resolvePeriodTariffId bandable tariffId)) then say s (Toast "pages.tariffs.messages.createEnergyTariffFirst" ToneError)
  else startSession s (with_period (form s) None (resolvePeriodTariffId bandable tariffId) true).

Definition closePeriodForm (s : crud) : crud := startSession s (with_period (form s) None None false).

Definition push_request (s : crud) (k : request_kind) (id zev : option string) (sc : WriteScope) : list request :=
  (requests s ++ [{| req_kind := k; req_id := id; req_zev := zev; req_scope := sc;
                     req_session := session s; req_form := form s; req_status := Submitted |}])%list.

(** [id || undefined]. *)
Definition or_absent (id : option string) : option string := if truthy_str id then id else None.

(** The handlers of a render with scope [sc] and editing id [id]. *)
Definition submitTariff (sc : WriteScope) (id : option string) (s : crud) : crud :=
  if negb (isCurrent (currentScope s) sc) then s
  else if negb (truthy_str (selectedZevId sc)) || negb (canWrite sc)
       then say s (Toast "pages.tariffs.messages.selectZevBeforeSave" ToneError)
       else upd s false (form s) None false (push_request s SaveTariff (or_absent id) (selectedZevId sc) sc) [].

Definition submitPeriod (sc : WriteScope) (id : option string) (s : crud) : crud :=
  if negb (isCurrent (currentScope s) sc) then s
  else if negb (truthy_str (selectedZevId sc)) || negb (canWrite sc)
       then say s (Toast "pages.tariffs.messages.periodSaveFailed" ToneError)
       else upd s false (form s) None (saveBandErrors s) (push_request s SavePeriod (or_absent id) None sc) [].

(** [onConfirm] of the two delete questions. *)
Definition confirmDelete (k : request_kind) (sc : WriteScope) (id : string) (s : crud) : crud :=
  if canWrite sc && isCurrent (currentScope s) sc
  then upd s false (form s) (saveError s) (saveBandErrors s) (push_request s k (Some id) None sc) []
  else s.

Definition set_status (i : nat) (st : request_status) (s : crud) : crud :=
  upd s false (form s) (saveError s) (saveBandErrors s)
    (alter (λ r, {| req_kind := req_kind r; req_id := req_id r; req_zev := req_zev r; req_scope := req_scope r;
                    req_session := req_session r; req_form := req_form r; req_status := st |}) i (requests s)) [].

Definition is_save (k : request_kind) : bool := match k with SaveTariff | SavePeriod => true | _ => false end.

(** The form a save concerns: the editing session that asked, in the scope that asked. *)
Definition still_asked (s : crud) (r : request) : bool :=
  isCurrent (currentScope s) (req_scope r) && bool_decide (req_session r = session s).

(** [onError]: [text] is the formatted error, [bands] whether bands were refused. *)
Definition failed (r : request) (text : string) (bands : bool) (s : crud) : crud :=
  match req_kind r with
  | SaveTariff => if still_asked s r then upd s false (form s) (Some text) (saveBandErrors s || bands) (requests s) [] else s
  | SavePeriod => if still_asked s r then upd s false (form s) (Some text) (saveBandErrors s) (requests s) [] else s
  | _ => if isCurrent (currentScope s) (req_scope r) then say s (Toast text ToneError) else s
  end.

(** [mutationFn]: send the request, or fail without sending. *)
Definition send (i : nat) (text : string) (s : crud) : option crud :=
  r ← requests s !! i;
  if negb (bool_decide (req_status r = Submitted)) then None
  else if assertWritable (currentScope s) (req_scope r) true then Some (set_status i Sent s)
       else Some (failed r text false (set_status i Finished s)).

Definition success_key (r : request) : string :=
  match req_kind r, req_id r with
  | SaveTariff, Some _ => "pages.tariffs.messages.updated"
  | SaveTariff, None => "pages.tariffs.messages.created"
  | SavePeriod, Some _ => "pages.tariffs.messages.periodUpdated"
  | SavePeriod, None => "pages.tariffs.messages.periodCreated"
  | DeleteTariff, _ => "pages.tariffs.messages.deleted"
  | DeletePeriod, _ => "pages.tariffs.messages.periodDeleted"
  end.

(** [onSuccess] after the invalidation of the saves, at once for the deletions;
    [editing] are the ids of the render whose callback runs. *)
Definition completed (r : request) (editing : forms) (s : crud) : crud :=
  if negb (isCurrent (currentScope s) (req_scope r)) then s
  else let s := say s (Toast (success_key r) ToneSuccess) in
       match req_kind r with
       | SaveTariff =>
           if negb (bool_decide (req_session r = session s)) then s
           else say (startSession s (with_tariff (form s) None false)) (TariffSaved (bool_decide (req_id r = None)))
       | SavePeriod =>
           if negb (bool_decide (req_session r = session s)) then s
           else say (startSession s (with_period (form s) None None false)) PeriodSaved
       | DeleteTariff => if bool_decide (req_id r = editingTariffId editing) then closeTariffForm s else s
       | DeletePeriod => if bool_decide (req_id r = editingPeriodId editing) then closePeriodForm s else s
       end.

(** The server's answer: a failure, a success of a deletion, or a success that awaits the invalidation. *)
Definition answer (i : nat) (ok : bool) (text : string) (bands : bool) (editing : forms) (s : crud) : option crud :=
  r ← requests s !! i;
  if negb (bool_decide (req_status r = Sent)) then None
  else if negb ok then Some (failed r text bands (set_status i Finished s))
  else if is_save (req_kind r) then Some (set_status i Saved s)
  else Some (completed r editing (set_status i Finished s)).

Definition invalidated (i : nat) (s : crud) : option crud :=
  r ← requests s !! i;
  if negb (bool_decide (req_status r = Saved)) then None
  else Some (completed r no_forms (set_status i Finished s)).

Inductive step : crud → crud → Prop :=
  | step_scope s zev write account : step s (commit_scope zev write account s)
  | step_unmount s : step s (unmount s)
  | step_tariff_edit s id : step s (startTariffEdit id s)
  | step_period_edit s id tariff : step s (startPeriodEdit id tariff s)
  | step_create_tariff s sc : step s (openCreateTariff sc s)
  | step_close_tariff s : step s (closeTariffForm s)
  | step_create_period s bandable id : step s (openCreatePeriod bandable id s)
  | step_close_period s : step s (closePeriodForm s)
  | step_submit_tariff s sc id : sc ∈ scopes s → step s (submitTariff sc id s)
  | step_submit_period s sc id : sc ∈ scopes s → step s (submitPeriod sc id s)
  | step_delete s k sc id : sc ∈ scopes s → is_save k = false → step s (confirmDelete k sc id s)
  | step_send s s' i text : send i text s = Some s' → step s s'
  | step_answer s s' i ok text bands editing : answer i ok text bands editing s = Some s' → step s s'
  | step_invalidated s s' i : invalidated i s = Some s' → step s s'.

Definition initial : crud :=
  {| currentScope := None; scopes := []; session := 0; form := no_forms; saveError := None; saveBandErrors := false;
     requests := []; notices := [] |}.

Inductive reachable : crud → Prop :=
  | reach_init : reachable initial
  | reach_step s s' : reachable s → step s s' → reachable s'.

(** ** Invariant *)

(** A request of the running session was made from the form that is open now, and its
    scope is the mounted one unless the page is gone. *)
Definition request_ok (s : crud) (r : request) : Prop :=
  req_scope r ∈ scopes s ∧ (req_session r <= session s)%nat ∧
  (req_session r = session s → req_form r = form s ∧ (currentScope s = Some (scope_id (req_scope r)) ∨ currentScope s = None)) ∧
  (req_kind r = SaveTariff → req_zev r = selectedZevId (req_scope r)) ∧
  (req_status r = Saved → is_save (req_kind r) = true) ∧
  (req_status r ∈ [Sent; Saved] → canWrite (req_scope r) = true ∧ truthy_str (selectedZevId (req_scope r)) = true).

Definition crud_inv (s : crud) : Prop :=
  (∀ i sc, scopes s !! i = Some sc → scope_id sc = i) ∧
  (∀ k, currentScope s = Some k → (k < length (scopes s))%nat) ∧
  ∀ r, r ∈ requests s → request_ok s r.

(** A new session leaves no request of the running one. *)
Lemma request_bump s s' r :
  request_ok s r → session s' = S (session s) → (∀ sc, sc ∈ scopes s → sc ∈ scopes s') → request_ok s' r.
Proof.
  intros (? & ? & _ & ? & ? & ?) Hs Hsc. unfold request_ok. rewrite Hs. split_and!; [by apply Hsc|lia|intros; lia|done|done|done].
Qed.

Lemma inv_bump s f err bands ns : crud_inv s → crud_inv (upd s true f err bands (requests s) ns).
Proof. intros (Hi & Hc & Hr). split_and!; [done|done|]. intros r Hin. by apply (request_bump s _ r (Hr r Hin)). Qed.

Lemma inv_keep s err bands ns : crud_inv s → crud_inv (upd s false (form s) err bands (requests s) ns).
Proof. done. Qed.

Lemma not_on_way st : st = Submitted ∨ st = Finished → st ∉ [Sent; Saved].
Proof. rewrite !elem_of_cons, elem_of_nil. intros [->| ->] [?|[?|[]]]; done. Qed.

Lemma inv_push s k id zev sc err bands :
  crud_inv s → sc ∈ scopes s → isCurrent (currentScope s) sc = true → (k = SaveTariff → zev = selectedZevId sc) →
  crud_inv (upd s false (form s) err bands (push_request s k id zev sc) []).
Proof.
  intros (Hi & Hc & Hr) Hsc Hcur Hz. split_and!; [done|done|]. intros r. unfold push_request, upd. cbn [requests].
  rewrite elem_of_app, list_elem_of_singleton. intros [Hin| ->]; [by apply Hr|]. unfold request_ok.
  cbn [req_scope req_session req_form req_status req_kind req_zev session upd currentScope form scopes].
  apply bool_decide_eq_true in Hcur. split_and!; [done|lia|by split; [|left]|done|done|].
  intros Hin. destruct (not_on_way Submitted); auto.
Qed.

(** The request a status change concerns may take the new status. *)
Lemma inv_status s i st r :
  crud_inv s → requests s !! i = Some r →
  (st = Saved → is_save (req_kind r) = true) →
  (st ∈ [Sent; Saved] → canWrite (req_scope r) = true ∧ truthy_str (selectedZevId (req_scope r)) = true) →
  crud_inv (set_status i st s).
Proof.
  intros (Hi & Hc & Hr) Hir Hs1 Hs2. split_and!; [done|done|]. intros r' Hin. unfold set_status, upd in Hin. cbn [requests] in Hin.
  apply list_elem_of_lookup in Hin as [j Hj]. rewrite list_lookup_alter in Hj. destruct (decide (i = j)) as [<-|Hne].
  - rewrite Hir in Hj. injection Hj as <-. destruct (Hr r) as (? & ? & Hf & ? & _); [by eapply list_elem_of_lookup_2|].
    unfold request_ok, set_status, upd. cbn. by split_and!.
  - by apply (Hr r'), (list_elem_of_lookup_2 _ j).
Qed.

Lemma inv_failed s r text bands : crud_inv s → crud_inv (failed r text bands s).
Proof.
  intros Hs. unfold failed. destruct (req_kind r); try (destruct (still_asked s r); [by apply inv_keep|done]);
    (destruct (isCurrent _ _); [by apply inv_keep|done]).
Qed.

Lemma inv_completed s r editing : crud_inv s → crud_inv (completed r editing s).
Proof.
  intros Hs. unfold completed. destruct (isCurrent _ _); simpl; [|done].
  assert (crud_inv (say s (Toast (success_key r) ToneSuccess))) as Hs' by by apply inv_keep.
  set (s1 := say s _) in *. destruct (req_kind r).
  - case_bool_decide; simpl; [|done]. by apply inv_keep, (inv_bump s1).
  - case_bool_decide; simpl; [|done]. by apply inv_keep, (inv_bump s1).
  - case_bool_decide; [by apply inv_bump|done].
  - case_bool_decide; [by apply inv_bump|done].
Qed.

Lemma assertWritable_true cur sc :
  assertWritable cur sc true = true → cur = Some (scope_id sc) ∧ canWrite sc = true ∧ truthy_str (selectedZevId sc) = true.
Proof.
  unfold assertWritable, isCurrent. rewrite negb_true_iff, !orb_false_iff, !negb_false_iff, bool_decide_eq_true. simpl.
  rewrite negb_false_iff. tauto.
Qed.

Lemma inv_commit s zev write account : crud_inv s → crud_inv (commit_scope zev write account s).
Proof.
  intros (Hi & Hc & Hr). unfold commit_scope. split_and!; unfold startSession, upd; cbn [scopes currentScope requests].
  - intros i sc [Hsc|[Hge Hsc]]%lookup_app_Some; [by apply Hi|]. apply list_lookup_singleton_Some in Hsc as [? <-]. simpl. lia.
  - intros k [= <-]. rewrite length_app. simpl. lia.
  - intros r Hin. apply (request_bump s _ r (Hr r Hin)); [done|]. intros sc Hsc. cbn [scopes]. rewrite elem_of_app. by left.
Qed.

Lemma inv_unmount s : crud_inv s → crud_inv (unmount s).
Proof.
  intros (Hi & Hc & Hr). split_and!; [done|done|]. intros r Hin. destruct (Hr r Hin) as (? & ? & Hf & ? & ? & ?).
  split_and!; [done|done| |done|done|done]. intros E. split; [by apply Hf|by right].
Qed.

Lemma inv_send s s' i text : crud_inv s → send i text s = Some s' → crud_inv s'.
Proof.
  intros Hinv Hs. unfold send in Hs. destruct (requests s !! i) as [r|] eqn:Hr; [|done]. cbn [mbind option_bind] in Hs.
  case_bool_decide as Hst; [|done]. destruct (assertWritable (currentScope s) (req_scope r) true) eqn:Hw; injection Hs as <-.
  - apply assertWritable_true in Hw as (_ & ? & ?). by apply (inv_status s i Sent r).
  - apply inv_failed, (inv_status s i Finished r); [done|done|done|]. intros Hin. destruct (not_on_way Finished); auto.
Qed.

Lemma inv_answer s s' i ok text bands editing : crud_inv s → answer i ok text bands editing s = Some s' → crud_inv s'.
Proof.
  intros Hinv Hs. unfold answer in Hs. destruct (requests s !! i) as [r|] eqn:Hr; [|done]. cbn [mbind option_bind] in Hs.
  case_bool_decide as Hst; [|done]. assert (crud_inv (set_status i Finished s)) as Hfin.
  { apply (inv_status s i Finished r); [done|done|done|]. intros Hin. destruct (not_on_way Finished); auto. }
  destruct ok; simpl in Hs; [|injection Hs as <-; by apply inv_failed].
  destruct (is_save (req_kind r)) eqn:Hk; injection Hs as <-; [|by apply inv_completed].
  apply (inv_status s i Saved r); try done. intros _. destruct Hinv as (_ & _ & Hall).
  destruct (Hall r) as (_ & _ & _ & _ & _ & Hw); [by eapply list_elem_of_lookup_2|]. apply Hw. rewrite Hst. by left.
Qed.

Lemma inv_invalidated s s' i : crud_inv s → invalidated i s = Some s' → crud_inv s'.
Proof.
  intros Hinv Hs. unfold invalidated in Hs. destruct (requests s !! i) as [r|] eqn:Hr; [|done]. cbn [mbind option_bind] in Hs.
  case_bool_decide as Hst; [|done]. injection Hs as <-. apply inv_completed, (inv_status s i Finished r); [done|done|done|].
  intros Hin. destruct (not_on_way Finished); auto.
Qed.

Lemma inv_submit s sc k id zev err bands key :
  crud_inv s → sc ∈ scopes s → (k = SaveTariff → zev = selectedZevId sc) →
  crud_inv (if negb (isCurrent (currentScope s) sc) then s
            else if negb (truthy_str (selectedZevId sc)) || negb (canWrite sc) then say s (Toast key ToneError)
                 else upd s false (form s) err bands (push_request s k id zev sc) []).
Proof.
  intros Hinv Hsc Hz. destruct (isCurrent (currentScope s) sc) eqn:Hc; simpl; [|done].
  destruct (_ || _); [by apply inv_keep|by apply inv_push].
Qed.

Lemma crud_step_inv s s' : crud_inv s → step s s' → crud_inv s'.
Proof.
  intros Hinv Hs. destruct Hs as [| |s id|s id tariff|s sc|s|s bandable id|s|s sc id Hsc|s sc id Hsc|s k sc id Hsc Hk|s s' i text Hs|s s' i ok text bands ed Hs|s s' i Hs].
  - by apply inv_commit.
  - by apply inv_unmount.
  - by apply inv_bump.
  - by apply inv_bump.
  - unfold openCreateTariff. destruct (negb _); [by apply inv_keep|by apply inv_bump].
  - by apply inv_bump.
  - unfold openCreatePeriod. destruct (negb _); [by apply inv_keep|by apply inv_bump].
  - by apply inv_bump.
  - by apply inv_submit.
  - by apply inv_submit.
  - unfold confirmDelete. destruct (canWrite sc); simpl; [|done]. destruct (isCurrent (currentScope s) sc) eqn:Hc; [|done].
    apply inv_push; try done. by intros ->.
  - by eapply inv_send.
  - by eapply inv_answer.
  - by eapply inv_invalidated.
Qed.

Lemma crud_reachable_inv s : reachable s → crud_inv s.
Proof.
  induction 1 as [|s s' _ IH Hs]; [|by eapply crud_step_inv]. split_and!; cbn [initial scopes currentScope requests].
  - intros i sc. by rewrite lookup_nil.
  - done.
  - by intros r ?%elem_of_nil.
Qed.

(** What a save closes. *)
Definition closed_form (k : request_kind) (f : forms) : forms :=
  match k with SaveTariff => with_tariff f None false | SavePeriod => with_period f None None false | _ => f end.

(** C5. However edits, scope changes, stale handlers and answers interleave: a request is
    only ever on its way for a writable community, with that community in a tariff's
    payload, and it is sent only while its scope is the mounted one; a completed save
    closes a form exactly when that form is the one it was submitted from, in the
    scope that asked, and otherwise touches neither form, session nor error; the same
    holds for the error of a failed save. *)
Theorem crud_sessions_safe s :
  reachable s →
  (∀ r, r ∈ requests s → req_status r ∈ [Sent; Saved] →
     canWrite (req_scope r) = true ∧ truthy_str (selectedZevId (req_scope r)) = true ∧
     (req_kind r = SaveTariff → req_zev r = selectedZevId (req_scope r))) ∧
  (∀ i text s' r', send i text s = Some s' → requests s' !! i = Some r' → req_status r' = Sent →
     currentScope s = Some (scope_id (req_scope r'))) ∧
  (∀ i s', invalidated i s = Some s' → ∃ r, requests s !! i = Some r ∧
     if still_asked s r
     then form s = req_form r ∧ form s' = closed_form (req_kind r) (form s) ∧ session s' = S (session s)
     else form s' = form s ∧ session s' = session s ∧ saveError s' = saveError s) ∧
  (∀ i text bands editing s' r, requests s !! i = Some r → is_save (req_kind r) = true → answer i false text bands editing s = Some s' →
     form s' = form s ∧ session s' = session s ∧
     if still_asked s r then form s = req_form r ∧ saveError s' = Some text else saveError s' = saveError s).
Proof.
  intros (Hsid & Hcur & Hreq)%crud_reachable_inv.
  assert (∀ r, r ∈ requests s → still_asked s r = true → form s = req_form r) as Hform.
  { intros r Hin Ha. unfold still_asked in Ha. apply andb_true_iff in Ha as [_ Ha%bool_decide_eq_true].
    destruct (Hreq r Hin) as (_ & _ & Hf & _). by destruct (Hf Ha). }
  split_and!.
  - intros r Hin Hst. destruct (Hreq r Hin) as (_ & _ & _ & Hz & _ & Hw). destruct (Hw Hst). by split_and!.
  - intros i text s' r' Hs Hr' Hst. unfold send in Hs. destruct (requests s !! i) as [r|] eqn:Hr; [|done]. cbn [mbind option_bind] in Hs.
    case_bool_decide as Hsub; [|done]. destruct (assertWritable (currentScope s) (req_scope r) true) eqn:Hw; injection Hs as <-.
    + apply assertWritable_true in Hw as (Hc & _). unfold set_status, upd in Hr'. cbn [requests] in Hr'.
      rewrite list_lookup_alter_eq, Hr in Hr'. by injection Hr' as <-.
    + exfalso. assert (requests (failed r text false (set_status i Finished s)) = requests (set_status i Finished s)) as E.
      { unfold failed. destruct (req_kind r); try (by destruct (still_asked _ r)); by destruct (isCurrent _ _). }
      rewrite E in Hr'. unfold set_status, upd in Hr'. cbn [requests] in Hr'. rewrite list_lookup_alter_eq, Hr in Hr'. by injection Hr' as <-.
  - intros i s' Hs. unfold invalidated in Hs. destruct (requests s !! i) as [r|] eqn:Hr; [|done]. cbn [mbind option_bind] in Hs.
    case_bool_decide as Hst; [|done]. injection Hs as <-. exists r. split; [done|]. simpl in Hst.
    destruct (Hreq r) as (_ & _ & _ & _ & Hk & _); [by eapply list_elem_of_lookup_2|]. specialize (Hk Hst).
    pose proof (Hform r (list_elem_of_lookup_2 _ _ _ Hr)) as Hf. unfold still_asked in *. unfold completed. cbn [currentScope set_status upd].
    destruct (isCurrent (currentScope s) (req_scope r)); simpl; [|done].
    destruct (req_kind r); try done; cbn [session say set_status upd]; case_bool_decide; simpl; try done; by split_and!; [apply Hf|..].
  - intros i text bands editing s' r Hr Hk Hs. unfold answer in Hs. rewrite Hr in Hs. cbn [mbind option_bind] in Hs.
    case_bool_decide; [|done]. simpl in Hs. injection Hs as <-. pose proof (Hform r (list_elem_of_lookup_2 _ _ _ Hr)) as Hf.
    assert (still_asked (set_status i Finished s) r = still_asked s r) as Hsa by done.
    unfold failed. destruct (req_kind r); try done; rewrite Hsa; destruct (still_asked s r) eqn:E; try done; split_and!; try done; by apply Hf.
Qed.

(** A save answered after another form was opened: only the toast is shown. *)
Definition sample_scope : WriteScope := {| scope_id := 0; selectedZevId := Some "z"; canWrite := true; accountId := Some 1%Z; scopeKey := None |}.

Lemma crud_sessions_safe_witness :
  ∃ s s', reachable s ∧ invalidated 0 s = Some s' ∧ editingTariffId (form s) = Some "b" ∧ tariffFormOpen (form s) = true ∧
    form s' = form s ∧ session s' = session s ∧ notices s' = [Toast "pages.tariffs.messages.updated" ToneSuccess].
Proof.
  set (s1 := startTariffEdit "a" (commit_scope (Some "z") true (Some 1%Z) initial)).
  set (s2 := submitTariff sample_scope (Some "a") s1). set (s3 := default s2 (send 0 "" s2)).
  set (s4 := default s3 (answer 0 true "" false no_forms s3)). set (s5 := startTariffEdit "b" s4).
  assert (reachable s5) as Hr.
  { apply (reach_step s4); [|apply step_tariff_edit]. apply (reach_step s3); [|by apply (step_answer s3 s4 0 true "" false no_forms)].
    apply (reach_step s2); [|by apply (step_send s2 s3 0 "")].
    apply (reach_step s1); [|apply step_submit_tariff; apply list_elem_of_In; by left].
    apply (reach_step (commit_scope (Some "z") true (Some 1%Z) initial)); [|apply step_tariff_edit].
    apply (reach_step initial); [apply reach_init|apply step_scope]. }
  destruct (crud_sessions_safe s5 Hr) as (_ & _ & Hinv & _).
  destruct (invalidated 0 s5) as [s6|] eqn:E; [|discriminate].
  exists s5, s6. split; [exact Hr|]. split; [done|]. split; [reflexivity|]. split; [reflexivity|].
  destruct (Hinv 0 s6 E) as (r & Hr0 & Hres). vm_compute in Hr0. injection Hr0 as <-. vm_compute in E. injection E as <-.
  destruct Hres as (Hf & Hs & _). split; [exact Hf|]. split; [exact Hs|reflexivity].
Defined.
End Crud.
