(* ===== verification/ImportWizard.v ===== *)
(** The import page, pages/ImportsPage.tsx: the wizard with its detection, previews and
    uploads, and the scope of a bulk deletion; runPerFile of lib/api/metering.ts.

    The wizard is a transition system: one step is a handler of the page on the state of its
    last render, an answer, or a change of the write scope (Editors). A file is an object of
    the browser: its identity is [f_id], what the page reads of it [f_stamp]. At most one
    preview, one detection and one upload are waited for, since the buttons are disabled or
    the query client drops the callbacks of the older call. [l_file], [l_stamp] and
    [up_checked] say which file and settings a preview was made from, and which previews an
    upload was started on; they are kept only for the proofs. Texts are [t] of a key; the
    clipboard, the download of missing ids and the table's columns are not modelled. *)

From S2P Require Import Prelude JsString JsNumber JsDate Dates Json Imports Editors.
Local Open Scope string_scope.

(** ** Batches of files *)

Record wfile := { f_id : nat; f_stamp : StampFile }.
#[export] Instance wfile_eq_dec : EqDecision wfile.
Proof. solve_decision. Defined.

(** What a failed request holds: the status and the texts of its body. *)
Record upload_error := { err_status : option Z; err_error : string; err_detail : string }.

Record BatchFileOutcome (T : Type) := { o_file : wfile; o_value : option T; o_error : option upload_error }.
Arguments o_file {T}. Arguments o_value {T}. Arguments o_error {T}.

(** One request per file, in order; a failing one never stops the rest. *)
Definition runPerFile {T} (files : list wfile) (run : nat → T + upload_error) : list (BatchFileOutcome T) :=
  imap (λ i f, match run i with
               | inl v => {| o_file := f; o_value := Some v; o_error := None |}
               | inr e => {| o_file := f; o_value := None; o_error := Some e |}
               end) files.

(** ** Import logs *)

(** The fields the page reads: of the errors, the warnings and the issues of severity
    [error] it reads only how many there are. *)
Record ImportLog := {
  log_id : string; log_zev : option string; log_filename : string; log_created_at : string; rows_imported : Z; rows_overwritten : option Z;
  log_rows_skipped : Z; log_errors : nat; log_warnings : nat; error_issues : nat; log_sdat : SdatLog;
}.

Definition held_count (l : ImportLog) : Z :=
  match result_counts (log_sdat l) with
  | Some c => match omap_get "held" (other_counts c) with Some (JNum n) => default 0%Z (num_int n) | _ => 0%Z end
  | None => 0%Z
  end.

Definition excluded_count (l : ImportLog) : Z :=
  match result_counts (log_sdat l) with
  | Some c => match omap_get "excluded" (other_counts c) with Some (JNum n) => default 0%Z (num_int n) | _ => 0%Z end
  | None => 0%Z
  end.

Record Totals := { t_imported : Z; t_skipped : Z; t_created : Z; t_held : Z; t_overwritten : Z; t_issues : nat }.

Definition created_rows (l : ImportLog) : Z :=
  if isSdatLog (log_sdat l) then default (rows_imported l) (result_counts (log_sdat l) ≫= Imports.created)
  else (rows_imported l - default 0 (rows_overwritten l))%Z.

Definition sum_of {A} (f : A → Z) (l : list A) : Z := foldl (λ s x, (s + f x)%Z) 0%Z l.

Definition totals_of (logs : list ImportLog) : Totals :=
  {| t_imported := sum_of rows_imported logs; t_skipped := sum_of log_rows_skipped logs; t_created := sum_of created_rows logs;
     t_held := sum_of held_count logs; t_overwritten := sum_of (λ l, default 0%Z (rows_overwritten l)) logs;
     t_issues := foldl (λ s l, (s + log_errors l + error_issues l)%nat) 0%nat logs |}.

(** ** State of the page *)

Inductive ImportSource := SourceCsv | SourceSdatch.
#[export] Instance ImportSource_eq_dec : EqDecision ImportSource.
Proof. solve_decision. Defined.

Definition source_text (s : ImportSource) : string := match s with SourceCsv => "csv" | SourceSdatch => "sdatch" end.
Definition profile_text (p : CsvFormatProfile) : string := match p with Standard => "standard" | Daily15min => "daily_15min" end.

Record wizard_form := { source : ImportSource; files : list wfile; settings : WizardSettings; overwriteExisting : bool }.

Record loaded := { l_preview : FilePreview; l_file : wfile; l_stamp : PreviewStamp }.

Record preview_request := { pr_req : nat; pr_files : list wfile; pr_stamp : PreviewStamp }.
Record detect_request := { dr_req : nat; dr_fileName : string; dr_fileCount : nat }.

Record upload_request := {
  up_scope : WriteScope; up_generation : nat; up_source : ImportSource; up_zevId : string; up_files : list wfile;
  up_settings : WizardSettings; up_overwrite : bool; up_checked : list loaded;
}.

Inductive message_tone := MsgSuccess | MsgError.
Record message := { msg_text : string; msg_tone : message_tone }.

Record wizard := {
  wizardOpen : bool; wizardStep : nat; form : wizard_form; previews : list loaded; previewStamp : option PreviewStamp; previewReqId : nat;
  detection : DetectionState; detectReqId : nat; detectedFor : option (list StampFile); selectedLog : option ImportLog;
  wizardGeneration : nat; scope : WriteScope; question : option upload_request; preview_flight : option preview_request;
  detect_flight : option detect_request; uploads : list upload_request; messages : list message;
}.

Definition stampFilesOf (fs : list wfile) : list StampFile := map f_stamp fs.

Definition initial_settings : WizardSettings :=
  let cfg := csvConfigFor true Daily15min in
  {| w_hasHeader := true; w_delimiter := cfg.1; w_formatProfile := Daily15min; w_timestampFormat := "%d.%m.%Y"; w_timestampTimezone := ZoneZurich;
     w_intervalMinutes := "15"; w_valuesCount := "96"; w_columnMap := cfg.2 |}.

Definition initial_form : wizard_form := {| source := SourceCsv; files := []; settings := initial_settings; overwriteExisting := false |}.

(** The settings a stamp holds besides the files. *)
Definition stamp_of (src : ImportSource) (zevId : string) (w : WizardSettings) (ow : bool) (fs : list wfile) : PreviewStamp :=
  {| stamp_files := stampFilesOf fs; stamp_source := source_text src; stamp_zevId := zevId; stamp_hasHeader := w_hasHeader w;
     stamp_delimiter := w_delimiter w; stamp_formatProfile := profile_text (w_formatProfile w); stamp_timestampFormat := w_timestampFormat w;
     stamp_timestampTimezone := w_timestampTimezone w; stamp_intervalMinutes := w_intervalMinutes w; stamp_valuesCount := w_valuesCount w;
     stamp_overwriteExisting := ow; stamp_columnMap := w_columnMap w |}.

Definition scopedZevId (s : wizard) : option string := selectedZevId (scope s).

Definition form_stamp (zevId : string) (f : wizard_form) (fs : list wfile) : PreviewStamp :=
  stamp_of (source f) zevId (settings f) (overwriteExisting f) fs.

Definition currentStamp (s : wizard) : option PreviewStamp :=
  match files (form s) with [] => None | fs => Some (form_stamp (default "" (scopedZevId s)) (form s) fs) end.

Definition previewStampMatches (s : wizard) : bool := previewStampsEqual (previewStamp s) (currentStamp s).

Definition file_error (f : wfile) : bool := isLegacyExcel (file_name (f_stamp f)) || (MAX_UPLOAD_BYTES <? file_size (f_stamp f))%Z.
Definition hasFileError (s : wizard) : bool := existsb file_error (files (form s)).

Definition intervalMinutesError (w : WizardSettings) : bool :=
  match parsePositiveInt (w_intervalMinutes w) with None => true | Some n => (n <? 1)%Z end.
Definition valuesCountError (w : WizardSettings) : bool :=
  match parsePositiveInt (w_valuesCount w) with None => true | Some n => (n <? 1)%Z || (1440 <? n)%Z end.

Definition csvConfigValid (w : WizardSettings) : bool :=
  negb (intervalMinutesError w) && negb (valuesCountError w) && isValidDelimiter (w_delimiter w) && isValidTimestampFormat (w_timestampFormat w).

Definition entry_issues (p : FilePreview) : nat :=
  match preview_error p with Some _ => 1%nat | None => match preview p with Some r => length (preview_errors r) | None => 0%nat end end.
Definition entry_bad (p : FilePreview) : bool :=
  bool_decide (is_Some (preview_error p)) || match preview p with Some r => (0 <? length (preview_errors r))%nat | None => false end.

Definition shown (s : wizard) : list FilePreview := map l_preview (previews s).
Definition hasPreview (s : wizard) : bool := (0 <? length (previews s))%nat.
Definition hasPreviewErrors (s : wizard) : bool := existsb entry_bad (shown s).
Definition previewIssueCount (s : wizard) : nat := foldl (λ n p, (n + entry_issues p)%nat) 0%nat (shown s).
Definition missingMeteringPoints (s : wizard) : Z := (aggregateMissingMeters (shown s)).1.

Definition hasFiles (s : wizard) : bool := (0 <? length (files (form s)))%nat.
Definition canGoStep2 (s : wizard) : bool := hasFiles s && negb (hasFileError s) && truthy_str (scopedZevId s).

Definition canStartImport (s : wizard) : bool :=
  match source (form s) with
  | SourceCsv => hasFiles s && negb (hasFileError s) && hasPreview s && previewStampMatches s && csvConfigValid (settings (form s)) &&
                 negb (hasPreviewErrors s) && (missingMeteringPoints s =? 0)%Z && truthy_str (scopedZevId s)
  | SourceSdatch => hasFiles s && negb (hasFileError s) && truthy_str (scopedZevId s)
  end.

(** ** Updates *)

Definition set_form (f : wizard_form) (s : wizard) : wizard :=
  {| wizardOpen := wizardOpen s; wizardStep := wizardStep s; form := f; previews := previews s; previewStamp := previewStamp s;
     previewReqId := previewReqId s; detection := detection s; detectReqId := detectReqId s; detectedFor := detectedFor s;
     selectedLog := selectedLog s; wizardGeneration := wizardGeneration s; scope := scope s; question := question s;
     preview_flight := preview_flight s; detect_flight := detect_flight s; uploads := uploads s; messages := messages s |}.

Definition set_previews (ps : list loaded) (st : option PreviewStamp) (req : nat) (fl : option preview_request) (s : wizard) : wizard :=
  {| wizardOpen := wizardOpen s; wizardStep := wizardStep s; form := form s; previews := ps; previewStamp := st;
     previewReqId := req; detection := detection s; detectReqId := detectReqId s; detectedFor := detectedFor s;
     selectedLog := selectedLog s; wizardGeneration := wizardGeneration s; scope := scope s; question := question s;
     preview_flight := fl; detect_flight := detect_flight s; uploads := uploads s; messages := messages s |}.

Definition set_detection (d : DetectionState) (req : nat) (for_ : option (list StampFile)) (fl : option detect_request) (s : wizard) : wizard :=
  {| wizardOpen := wizardOpen s; wizardStep := wizardStep s; form := form s; previews := previews s; previewStamp := previewStamp s;
     previewReqId := previewReqId s; detection := d; detectReqId := req; detectedFor := for_;
     selectedLog := selectedLog s; wizardGeneration := wizardGeneration s; scope := scope s; question := question s;
     preview_flight := preview_flight s; detect_flight := fl; uploads := uploads s; messages := messages s |}.

Definition set_step (open : bool) (step : nat) (gen : nat) (s : wizard) : wizard :=
  {| wizardOpen := open; wizardStep := step; form := form s; previews := previews s; previewStamp := previewStamp s;
     previewReqId := previewReqId s; detection := detection s; detectReqId := detectReqId s; detectedFor := detectedFor s;
     selectedLog := selectedLog s; wizardGeneration := gen; scope := scope s; question := question s;
     preview_flight := preview_flight s; detect_flight := detect_flight s; uploads := uploads s; messages := messages s |}.

Definition set_uploads (q : option upload_request) (us : list upload_request) (s : wizard) : wizard :=
  {| wizardOpen := wizardOpen s; wizardStep := wizardStep s; form := form s; previews := previews s; previewStamp := previewStamp s;
     previewReqId := previewReqId s; detection := detection s; detectReqId := detectReqId s; detectedFor := detectedFor s;
     selectedLog := selectedLog s; wizardGeneration := wizardGeneration s; scope := scope s; question := q;
     preview_flight := preview_flight s; detect_flight := detect_flight s; uploads := us; messages := messages s |}.

Definition set_log (l : option ImportLog) (s : wizard) : wizard :=
  {| wizardOpen := wizardOpen s; wizardStep := wizardStep s; form := form s; previews := previews s; previewStamp := previewStamp s;
     previewReqId := previewReqId s; detection := detection s; detectReqId := detectReqId s; detectedFor := detectedFor s;
     selectedLog := l; wizardGeneration := wizardGeneration s; scope := scope s; question := question s;
     preview_flight := preview_flight s; detect_flight := detect_flight s; uploads := uploads s; messages := messages s |}.

Definition set_scope (sc : WriteScope) (s : wizard) : wizard :=
  {| wizardOpen := wizardOpen s; wizardStep := wizardStep s; form := form s; previews := previews s; previewStamp := previewStamp s;
     previewReqId := previewReqId s; detection := detection s; detectReqId := detectReqId s; detectedFor := detectedFor s;
     selectedLog := selectedLog s; wizardGeneration := wizardGeneration s; scope := sc; question := question s;
     preview_flight := preview_flight s; detect_flight := detect_flight s; uploads := uploads s; messages := messages s |}.

Definition say (text : string) (tn : message_tone) (s : wizard) : wizard :=
  {| wizardOpen := wizardOpen s; wizardStep := wizardStep s; form := form s; previews := previews s; previewStamp := previewStamp s;
     previewReqId := previewReqId s; detection := detection s; detectReqId := detectReqId s; detectedFor := detectedFor s;
     selectedLog := selectedLog s; wizardGeneration := wizardGeneration s; scope := scope s; question := question s;
     preview_flight := preview_flight s; detect_flight := detect_flight s; uploads := uploads s;
     messages := (messages s ++ [{| msg_text := text; msg_tone := tn |}])%list |}.

Section Page.
Context (t : string → list (string * json) → string) (formatBytes : Z → string).

Definition zj (z : Z) : json := JNum (of_Z z).
Definition formatCount (n : nat) : json := zj (Z.of_nat n).

(** ** Resets *)

Definition clear_previews (s : wizard) : wizard := set_previews [] None (previewReqId s) (preview_flight s) s.

Definition clearDetection (s : wizard) : wizard := set_detection DetectIdle (S (detectReqId s)) None (detect_flight s) s.

Definition resetWizard (s : wizard) : wizard :=
  let s := clearDetection (set_step false 1 (S (wizardGeneration s)) s) in
  set_form initial_form (set_previews [] None (S (previewReqId s)) (preview_flight s) s).

(** The effect on [scope]: [resetWriteDialogs]. *)
Definition rescope (sc : WriteScope) (s : wizard) : wizard :=
  set_uploads None (uploads s) (set_log None (resetWizard (set_scope sc s))).

(** ** The selection and the settings *)

Definition with_form (src : ImportSource) (fs : list wfile) (w : WizardSettings) (ow : bool) : wizard_form :=
  {| source := src; files := fs; settings := w; overwriteExisting := ow |}.

Definition handleSourceChange (next : ImportSource) (s : wizard) : wizard :=
  let s := clear_previews (clearDetection s) in
  set_step (wizardOpen s) 1 (wizardGeneration s) (set_form (with_form next [] (settings (form s)) (overwriteExisting (form s))) s).

(** A new selection: [previewReqId] is raised first, so no older preview can arrive. *)
Definition new_selection (fs : list wfile) (s : wizard) : wizard :=
  let s := clearDetection s in
  set_form (with_form (source (form s)) fs (settings (form s)) (overwriteExisting (form s))) (set_previews [] None (S (previewReqId s)) (preview_flight s) s).

Definition handleFileChange (picked : list wfile) (s : wizard) : wizard :=
  let accepted := bfilter (λ f, negb (isLegacyExcel (file_name (f_stamp f)))) picked in
  let s := if (length accepted <? length picked)%nat then say (t "pages.imports.wizard.xlsRejected" []) MsgError s else s in
  new_selection accepted s.

Definition handleRemoveFile (index : nat) (s : wizard) : wizard := new_selection (delete index (files (form s))) s.

Definition set_settings (w : WizardSettings) (s : wizard) : wizard :=
  set_form (with_form (source (form s)) (files (form s)) w (overwriteExisting (form s))) s.

Definition with_config (hasHeader : bool) (p : CsvFormatProfile) (w : WizardSettings) : WizardSettings :=
  let cfg := csvConfigFor hasHeader p in
  {| w_hasHeader := hasHeader; w_delimiter := cfg.1; w_formatProfile := p; w_timestampFormat := w_timestampFormat w;
     w_timestampTimezone := w_timestampTimezone w; w_intervalMinutes := w_intervalMinutes w; w_valuesCount := w_valuesCount w; w_columnMap := cfg.2 |}.

Definition handleFormatProfileChange (p : CsvFormatProfile) (s : wizard) : wizard :=
  let w := settings (form s) in clear_previews (set_settings (with_config (w_hasHeader w) p w) s).

Definition handleHasHeaderChange (h : bool) (s : wizard) : wizard :=
  let w := settings (form s) in set_settings (with_config h (w_formatProfile w) w) s.

(** The other fields are set as they are typed. *)
Definition edit_settings (f : WizardSettings → WizardSettings) (s : wizard) : wizard := set_settings (f (settings (form s))) s.

Definition set_overwrite (b : bool) (s : wizard) : wizard := set_form (with_form (source (form s)) (files (form s)) (settings (form s)) b) s.

(** ** Detection *)

Definition runDetection (force : bool) (s : wizard) : wizard :=
  match source (form s), files (form s) with
  | SourceCsv, f :: _ =>
      let signature := stampFilesOf (files (form s)) in
      if negb force && bool_decide (detectedFor s = Some signature) then s
      else let req := S (detectReqId s) in
           set_detection (DetectLoading (file_name (f_stamp f)) (length (files (form s)))) req (Some signature)
             (Some {| dr_req := req; dr_fileName := file_name (f_stamp f); dr_fileCount := length (files (form s)) |}) s
  | _, _ => s
  end.

(** [None]: the request failed. *)
Definition detected_answer (answer : option CsvDetectResult) (s : wizard) : wizard :=
  match detect_flight s with
  | None => s
  | Some r =>
      let s := set_detection (detection s) (detectReqId s) (detectedFor s) None s in
      if negb (dr_req r =? detectReqId s)%nat then s
      else match answer with
           | None => set_detection DetectFailed (detectReqId s) (detectedFor s) None s
           | Some result =>
               let s' := if detected result then clear_previews (set_settings (settingsFromDetection result) s) else s in
               set_detection (DetectDone (dr_fileName r) (dr_fileCount r) (undetected result)) (detectReqId s') (detectedFor s') None s'
           end
  end.

(** ** Steps and previews *)

Definition handleNextStep (s : wizard) : wizard :=
  if negb (hasFiles s) || hasFileError s then say (t "pages.imports.messages.chooseFileFirst" []) MsgError s
  else if negb (truthy_str (scopedZevId s)) then say (t "pages.imports.messages.selectZevFirst" []) MsgError s
  else runDetection false (set_step (wizardOpen s) 2 (wizardGeneration s) s).

Definition describeUploadError (e : option upload_error) (fallback : string) : string :=
  match e with
  | Some e =>
      if bool_decide (err_status e = Some 413%Z) then t "pages.imports.messages.importTooLarge" [("limit", JStr (formatBytes MAX_UPLOAD_BYTES))]
      else if bool_decide (err_status e = Some 429%Z) then t "pages.imports.messages.importThrottled" []
      else if nonempty (err_error e) then err_error e else if nonempty (err_detail e) then err_detail e
      else if nonempty fallback then fallback else t "pages.imports.messages.importFailed" []
  | None => if nonempty fallback then fallback else t "pages.imports.messages.importFailed" []
  end.

(** The button is disabled while a preview or a detection loads. *)
Definition preview_disabled (s : wizard) : bool :=
  bool_decide (is_Some (preview_flight s)) || match detection s with DetectLoading _ _ => true | _ => false end
  || negb (hasFiles s) || hasFileError s || negb (truthy_str (scopedZevId s)) || negb (csvConfigValid (settings (form s))).

Definition loadPreview (s : wizard) : wizard :=
  if negb (hasFiles s) || hasFileError s then say (t "pages.imports.messages.chooseFileFirst" []) MsgError s
  else if negb (truthy_str (scopedZevId s)) then say (t "pages.imports.messages.selectZevForCsv" []) MsgError s
  else if negb (csvConfigValid (settings (form s))) then say (t "pages.imports.messages.fixConfigFirst" []) MsgError s
  else let req := S (previewReqId s) in
       set_previews (previews s) (previewStamp s) req
         (Some {| pr_req := req; pr_files := files (form s); pr_stamp := form_stamp (default "" (scopedZevId s)) (form s) (files (form s)) |}) s.

Definition click_preview (s : wizard) : wizard := if preview_disabled s then s else loadPreview s.

Definition load_one (st : PreviewStamp) (o : BatchFileOutcome ImportPreviewResult) : loaded :=
  {| l_preview := {| preview_fileName := file_name (f_stamp (o_file o)); preview := o_value o;
       preview_error := match o_value o with
         | Some _ => None
         | None => Some (describeUploadError (o_error o) (t "pages.imports.messages.previewFailed" [])) end |};
     l_file := o_file o; l_stamp := st |}.

Definition preview_answer (run : nat → ImportPreviewResult + upload_error) (s : wizard) : wizard :=
  match preview_flight s with
  | None => s
  | Some r =>
      if negb (pr_req r =? previewReqId s)%nat then set_previews (previews s) (previewStamp s) (previewReqId s) None s
      else let ls := map (load_one (pr_stamp r)) (runPerFile (pr_files r) run) in
           let s := set_previews ls (Some (pr_stamp r)) (previewReqId s) None s in
           let issues := previewIssueCount s in
           if (0 <? issues)%nat then say (t "pages.imports.messages.previewLoadedWithIssues" [("count", formatCount issues)]) MsgError s
           else say (t "pages.imports.messages.previewLoaded" []) MsgSuccess s
  end.

(** ** Uploads *)

(** [uploadMutation.mutate]: [mutationFn] throws without sending when the scope may not be written. *)
Definition mutate (r : upload_request) (s : wizard) : wizard :=
  if assertWritable (Some (scope_id (scope s))) (up_scope r) true then set_uploads (question s) (uploads s ++ [r])%list s else s.

(** [doUpload] runs with the values of its render and the generation of now. *)
Definition doUpload (r : upload_request) (s : wizard) : wizard :=
  if negb (canWrite (up_scope r)) || negb (isCurrent (Some (scope_id (scope s))) (up_scope r)) then s
  else mutate {| up_scope := up_scope r; up_generation := wizardGeneration s; up_source := up_source r; up_zevId := up_zevId r;
                 up_files := up_files r; up_settings := up_settings r; up_overwrite := up_overwrite r; up_checked := up_checked r |} s.

Definition request_of (s : wizard) : upload_request :=
  {| up_scope := scope s; up_generation := wizardGeneration s; up_source := source (form s); up_zevId := default "" (scopedZevId s);
     up_files := files (form s); up_settings := settings (form s); up_overwrite := overwriteExisting (form s); up_checked := previews s |}.

Definition startImport (s : wizard) : wizard :=
  if negb (canWrite (scope s)) then say (t "common.error" []) MsgError s
  else if negb (hasFiles s) || hasFileError s then say (t "pages.imports.messages.chooseFileFirst" []) MsgError s
  else if negb (truthy_str (scopedZevId s)) then
    say (t (match source (form s) with SourceCsv => "pages.imports.messages.selectZevForCsv" | _ => "pages.imports.messages.selectZevForSdatch" end) []) MsgError s
  else match source (form s) with
  | SourceCsv =>
      if negb (hasPreview s) || negb (previewStampMatches s) then say (t "pages.imports.messages.loadPreviewFirst" []) MsgError s
      else if hasPreviewErrors s then
        say (t "pages.imports.messages.previewLoadedWithIssues" [("count", formatCount (previewIssueCount s))]) MsgError s
      else if (0 <? missingMeteringPoints s)%Z then say (t "pages.imports.messages.createMissingMetersFirst" []) MsgError s
      else if negb (csvConfigValid (settings (form s))) then say (t "pages.imports.messages.fixConfigFirst" []) MsgError s
      else if overwriteExisting (form s) then set_uploads (Some (request_of s)) (uploads s) s
      else doUpload (request_of s) s
  | SourceSdatch => mutate (request_of s) s
  end.

(** The button of the wizard; a question on top of it is modal. *)
Definition click_start (s : wizard) : wizard :=
  if bool_decide (is_Some (question s)) || (0 <? length (uploads s))%nat || negb (canStartImport s) then s else startImport s.

Definition confirm_import (s : wizard) : wizard :=
  match question s with Some r => doUpload r (set_uploads None (uploads s) s) | None => s end.
Definition cancel_import (s : wizard) : wizard := set_uploads None (uploads s) s.

Definition failed_outcome (o : BatchFileOutcome ImportLog) : bool := isFailedBatchOutcome (log_sdat <$> o_value o).

(** The entries whose outcome at the same position failed. *)
Fixpoint keep_failed {A} (outcomes : list (BatchFileOutcome ImportLog)) (l : list A) : list A :=
  match outcomes, l with
  | o :: os, x :: xs => if failed_outcome o then x :: keep_failed os xs else keep_failed os xs
  | _, _ => []
  end.

Definition first_rejected (failed : list (BatchFileOutcome ImportLog)) : option ImportLog :=
  find_first (λ o, match o_value o with Some l => bool_decide (result_status (log_sdat l) = Some SdatRejected) | None => false end) failed ≫= o_value.

Definition has_issues (l : ImportLog) : bool := (0 <? log_errors l)%nat || (0 <? error_issues l)%nat.

(** [a ?? b ?? c]. *)
Definition log_to_open (rejected : option ImportLog) (logs : list ImportLog) : option ImportLog :=
  match rejected, find_first has_issues logs, find_first (λ l, 0 <? log_warnings l)%nat logs with
  | Some l, _, _ => Some l
  | None, Some l, _ => Some l
  | None, None, Some l => Some l
  | None, None, None => find_first (λ l, isSdatLog (log_sdat l)) logs
  end.

Definition sdat_success_key (k : SdatOutcomeKind) : string :=
  match k with
  | OutAccepted => "pages.imports.messages.importSdat_accepted" | OutCorrectionOnly => "pages.imports.messages.importSdat_correctionOnly"
  | OutHeld => "pages.imports.messages.importSdat_held" | OutUnchanged => "pages.imports.messages.importSdat_unchanged"
  | OutRejected => "pages.imports.messages.importSdatRejected" | OutLegacy => "pages.imports.messages.importSuccess"
  end.

Definition show_log (l : option ImportLog) (s : wizard) : wizard := match l with Some _ => set_log l s | None => s end.

Definition success_message (outcomes : list (BatchFileOutcome ImportLog)) (logs : list ImportLog) (s : wizard) : wizard :=
  let tt := totals_of logs in let sums := [("imported", zj (t_imported tt)); ("skipped", zj (t_skipped tt))] in
  if (1 <? length outcomes)%nat then
    say (t (if (0 <? t_issues tt)%nat then "pages.imports.messages.importBatchSuccessWithIssues" else "pages.imports.messages.importBatchSuccess")
           [("files", formatCount (length outcomes)); ("imported", zj (t_created tt)); ("skipped", zj (t_skipped tt));
            ("overwritten", zj (t_overwritten tt)); ("held", zj (t_held tt)); ("count", formatCount (t_issues tt))])
        (if (0 <? t_issues tt)%nat then MsgError else MsgSuccess) s
  else match logs with
  | l :: _ =>
      if isSdatLog (log_sdat l) then
        say (t (sdat_success_key (sdatOutcomeKind (log_sdat l)))
               [("created", zj (t_created tt)); ("overwritten", zj (t_overwritten tt)); ("held", zj (t_held tt)); ("skipped", zj (t_skipped tt));
                ("excluded", zj (excluded_count l))]) MsgSuccess s
      else if (0 <? t_issues tt)%nat then
        say (t "pages.imports.messages.importSuccessWithIssues" (sums ++ [("count", formatCount (t_issues tt))])) MsgError s
      else if (0 <? t_overwritten tt)%Z then
        say (t "pages.imports.messages.importSuccessWithOverwrites" (sums ++ [("overwritten", zj (t_overwritten tt))])) MsgSuccess s
      else say (t "pages.imports.messages.importSuccess" sums) MsgSuccess s
  | [] => s
  end.

Definition handleUploadOutcomes (outcomes : list (BatchFileOutcome ImportLog)) (r : upload_request) (s : wizard) : wizard :=
  let imported := bfilter (λ o, negb (failed_outcome o)) outcomes in
  let failed := bfilter failed_outcome outcomes in
  let rejected := first_rejected failed in
  if negb (isCurrent (Some (scope_id (scope s))) (up_scope r)) || negb (wizardGeneration s =? up_generation r)%nat then s
  else match imported with
  | [] =>
      let s := show_log rejected s in
      let detail := if bool_decide (is_Some rejected) then t "pages.imports.messages.importSdatRejected" []
                    else describeUploadError (hd_error failed ≫= o_error) "" in
      say (if (1 <? length outcomes)%nat
           then t "pages.imports.messages.importBatchAllFailed" [("count", formatCount (length outcomes))] ++ " " ++ detail else detail) MsgError s
  | _ =>
      let logs := omap o_value imported in let tt := totals_of logs in let open_log := log_to_open rejected logs in
      match failed with
      | _ :: _ =>
          let failedFiles := map o_file failed in
          let f := form s in
          let s := set_form (with_form (source f) failedFiles (settings f) (overwriteExisting f)) s in
          let st := match previewStamp s with
            | Some p => Some {| stamp_files := stampFilesOf failedFiles; stamp_source := stamp_source p; stamp_zevId := stamp_zevId p;
                stamp_hasHeader := stamp_hasHeader p; stamp_delimiter := stamp_delimiter p; stamp_formatProfile := stamp_formatProfile p;
                stamp_timestampFormat := stamp_timestampFormat p; stamp_timestampTimezone := stamp_timestampTimezone p;
                stamp_intervalMinutes := stamp_intervalMinutes p; stamp_valuesCount := stamp_valuesCount p;
                stamp_overwriteExisting := stamp_overwriteExisting p; stamp_columnMap := stamp_columnMap p |}
            | None => None end in
          let s := set_previews (keep_failed outcomes (previews s)) st (previewReqId s) (preview_flight s) s in
          say (t "pages.imports.messages.importBatchPartial"
                 [("done", formatCount (length imported)); ("total", formatCount (length outcomes)); ("failed", formatCount (length failed));
                  ("names", JStr (join ", " (map (λ f, file_name (f_stamp f)) failedFiles))); ("imported", zj (t_created tt));
                  ("overwritten", zj (t_overwritten tt)); ("held", zj (t_held tt))]) MsgError (show_log open_log s)
      | [] => success_message outcomes logs (show_log open_log (resetWizard s))
      end
  end.

Definition upload_answer (i : nat) (run : nat → ImportLog + upload_error) (s : wizard) : wizard :=
  match uploads s !! i with
  | None => s
  | Some r => handleUploadOutcomes (runPerFile (up_files r) run) r (set_uploads (question s) (delete i (uploads s)) s)
  end.

(** ** Steps *)

Inductive wizard_event :=
  | OpenWizard | CloseWizard | ChangeSource (src : ImportSource) | PickFiles (picked : list wfile) | RemoveFile (index : nat)
  | NextStep | BackToStep1 | ChangeHasHeader (h : bool) | ChangeProfile (p : CsvFormatProfile) | EditSettings (f : WizardSettings → WizardSettings)
  | ChangeOverwrite (b : bool) | Redetect | DetectAnswered (answer : option CsvDetectResult) | LoadPreview
  | PreviewAnswered (run : nat → ImportPreviewResult + upload_error) | StartImport | ConfirmImport | CancelImport
  | UploadAnswered (i : nat) (run : nat → ImportLog + upload_error) | ShowLog (l : option ImportLog) | Rescope (sc : WriteScope).

Definition wizard_step (s : wizard) (e : wizard_event) : wizard :=
  match e with
  | OpenWizard => set_step true (wizardStep s) (wizardGeneration s) s
  | CloseWizard => resetWizard s
  | ChangeSource src => handleSourceChange src s
  | PickFiles picked => handleFileChange picked s
  | RemoveFile i => handleRemoveFile i s
  | NextStep => handleNextStep s
  | BackToStep1 => set_step (wizardOpen s) 1 (wizardGeneration s) s
  | ChangeHasHeader h => handleHasHeaderChange h s
  | ChangeProfile p => handleFormatProfileChange p s
  | EditSettings f => edit_settings f s
  | ChangeOverwrite b => set_overwrite b s
  | Redetect => runDetection true s
  | DetectAnswered a => detected_answer a s
  | LoadPreview => click_preview s
  | PreviewAnswered run => preview_answer run s
  | StartImport => click_start s
  | ConfirmImport => confirm_import s
  | CancelImport => cancel_import s
  | UploadAnswered i run => upload_answer i run s
  | ShowLog l => set_log l s
  | Rescope sc => rescope sc s
  end.

Definition wizard_init (sc : WriteScope) : wizard :=
  {| wizardOpen := false; wizardStep := 1; form := initial_form; previews := []; previewStamp := None; previewReqId := 0;
     detection := DetectIdle; detectReqId := 0; detectedFor := None; selectedLog := None; wizardGeneration := 0; scope := sc;
     question := None; preview_flight := None; detect_flight := None; uploads := []; messages := [] |}.

Definition wizard_run (sc : WriteScope) (es : list wizard_event) : wizard := foldl wizard_step (wizard_init sc) es.

(** ** What a preview vouches for *)

Definition no_files (st : PreviewStamp) : PreviewStamp :=
  {| stamp_files := []; stamp_source := stamp_source st; stamp_zevId := stamp_zevId st; stamp_hasHeader := stamp_hasHeader st;
     stamp_delimiter := stamp_delimiter st; stamp_formatProfile := stamp_formatProfile st; stamp_timestampFormat := stamp_timestampFormat st;
     stamp_timestampTimezone := stamp_timestampTimezone st; stamp_intervalMinutes := stamp_intervalMinutes st;
     stamp_valuesCount := stamp_valuesCount st; stamp_overwriteExisting := stamp_overwriteExisting st; stamp_columnMap := stamp_columnMap st |}.

Definition same_settings (a b : PreviewStamp) : Prop := normalize_stamp (no_files a) = normalize_stamp (no_files b).

(** An upload has files the server takes, and every file of a CSV upload has a preview of its
    own, loaded from that very file with the settings of the upload, without an error and
    without an unknown meter. *)
Definition checked (r : upload_request) : Prop :=
  up_files r ≠ [] ∧ existsb file_error (up_files r) = false ∧
  (up_source r = SourceCsv →
  Forall2 (λ f l, l_file l = f ∧ is_Some (preview (l_preview l)) ∧ entry_bad (l_preview l) = false ∧
                  same_settings (l_stamp l) (stamp_of (up_source r) (up_zevId r) (up_settings r) (up_overwrite r) []))
    (up_files r) (up_checked r) ∧
  (aggregateMissingMeters (map l_preview (up_checked r))).1 = 0%Z).

(** Steps of a user who waits: with a question open only it is answered, while an upload of
    this wizard runs the selection stays and no preview is loaded, and an import is not
    started while a preview loads. *)
Definition changes_selection (e : wizard_event) : bool :=
  match e with ChangeSource _ | PickFiles _ | RemoveFile _ | LoadPreview => true | _ => false end.

Definition answers_question (e : wizard_event) : bool :=
  match e with ConfirmImport | CancelImport | DetectAnswered _ | PreviewAnswered _ | UploadAnswered _ _ | Rescope _ => true | _ => false end.

Definition waits (s : wizard) (e : wizard_event) : Prop :=
  (question s ≠ None → answers_question e = true) ∧
  (∀ r, r ∈ uploads s → up_generation r = wizardGeneration s → changes_selection e = false) ∧
  (e = StartImport → preview_flight s = None).

Fixpoint patient (s : wizard) (es : list wizard_event) : Prop :=
  match es with [] => True | e :: es => waits s e ∧ patient (wizard_step s e) es end.

Definition vouched (fs : list wfile) (ps : list loaded) (st : option PreviewStamp) : Prop :=
  ps = [] ∨ ∃ p, st = Some p ∧ stamp_files p = stampFilesOf (map l_file ps) ∧ (map l_file ps = fs ∨ fs = []) ∧
    Forall (λ l, same_settings (l_stamp l) p ∧ (preview_error (l_preview l) = None → is_Some (preview (l_preview l)))) ps.

Record page_inv (fs : list wfile) (ps : list loaded) (st : option PreviewStamp) (req : nat) (fl : option preview_request) (gen : nat)
    (q : option upload_request) (us : list upload_request) : Prop := {
  inv_vouched : vouched fs ps st;
  inv_flight : ∀ p, fl = Some p → (pr_req p <= req)%nat ∧
    (pr_req p = req → (pr_files p = fs ∨ fs = []) ∧ stamp_files (pr_stamp p) = stampFilesOf (pr_files p));
  inv_running : ∀ r, r ∈ us → (up_generation r <= gen)%nat ∧
    (up_generation r = gen → up_files r = fs ∧ ∀ p, fl = Some p → pr_req p ≠ req);
  inv_question : ∀ r, q = Some r → up_files r = fs ∧ checked r ∧ us = [] ∧ ∀ p, fl = Some p → pr_req p ≠ req;
  inv_single : (length us <= 1)%nat;
}.

Definition wizard_inv (s : wizard) : Prop :=
  page_inv (files (form s)) (previews s) (previewStamp s) (previewReqId s) (preview_flight s) (wizardGeneration s) (question s) (uploads s).

Lemma inv_clear fs ps st req fl gen q us : page_inv fs ps st req fl gen q us → page_inv fs [] None req fl gen q us.
Proof. intros []. split; [by left|done..]. Qed.

(** A new selection is made with no question open and no upload of this wizard running. *)
Lemma inv_select fs fs' ps st req fl gen us :
  page_inv fs ps st req fl gen None us → (∀ r, r ∈ us → up_generation r ≠ gen) → page_inv fs' [] None (S req) fl gen None us.
Proof.
  intros [_ Hf Hr _ Hs] Hg. split; [by left| | |done|done].
  - intros p Hp. destruct (Hf p Hp). split; [lia|lia].
  - intros r Hin. destruct (Hr r Hin). split; [done|]. intros E. by destruct (Hg r Hin).
Qed.

(** Switching the source empties the selection and leaves a preview in flight. *)
Lemma inv_empty fs ps st req fl gen us :
  page_inv fs ps st req fl gen None us → (∀ r, r ∈ us → up_generation r ≠ gen) → page_inv [] [] None req fl gen None us.
Proof.
  intros [_ Hf Hr _ Hs] Hg. split; [by left| | |done|done].
  - intros p Hp. destruct (Hf p Hp) as [? H]. split; [done|]. intros E. destruct (H E). split; [by right|done].
  - intros r Hin. destruct (Hr r Hin). split; [done|]. intros E. by destruct (Hg r Hin).
Qed.

Lemma inv_reset fs ps st req fl gen q us : page_inv fs ps st req fl gen q us → page_inv [] [] None (S req) fl (S gen) None us.
Proof.
  intros [_ Hf Hr _ Hs]. split; [by left| | |done|done].
  - intros p Hp. destruct (Hf p Hp). split; [lia|lia].
  - intros r Hin. destruct (Hr r Hin). split; lia.
Qed.

Lemma inv_drop_upload fs ps st req fl gen q us i : page_inv fs ps st req fl gen q us → page_inv fs ps st req fl gen q (delete i us).
Proof.
  intros [Hv Hf Hr Hq Hs]. split; [done|done| | |].
  - intros r Hin. apply Hr. eapply elem_of_submseteq; [exact Hin|apply sublist_submseteq, sublist_delete].
  - intros r E. destruct (Hq r E) as (? & ? & -> & ?). by split_and!.
  - etrans; [apply sublist_length, sublist_delete|done].
Qed.

Lemma inv_no_flight fs ps st req fl gen q us : page_inv fs ps st req fl gen q us → page_inv fs ps st req None gen q us.
Proof.
  intros [Hv _ Hr Hq Hs]. split; [done|done| | |done].
  - intros r Hin. destruct (Hr r Hin) as [? H]. split; [done|]. intros E. by destruct (H E).
  - intros r E. destruct (Hq r E) as (? & ? & ? & _). by split_and!.
Qed.

Lemma inv_add_upload fs ps st req fl gen r :
  page_inv fs ps st req fl gen None [] → up_files r = fs → up_generation r = gen → (∀ p, fl = Some p → pr_req p ≠ req) →
  page_inv fs ps st req fl gen None [r].
Proof.
  intros [Hv Hf _ _ _] Ef Eg Hp. split; [done|done| |done|done].
  intros r' Hin. apply list_elem_of_singleton in Hin as ->. split; [lia|]. by intros _.
Qed.

Lemma inv_loaded fs ps st req p gen q us run :
  page_inv fs ps st req (Some p) gen q us → pr_req p = req →
  page_inv fs (map (load_one (pr_stamp p)) (runPerFile (pr_files p) run)) (Some (pr_stamp p)) req None gen q us.
Proof.
  intros Hi E. destruct (inv_flight _ _ _ _ _ _ _ _ Hi p eq_refl) as [_ Hf]. destruct (Hf E) as [Hfs Hst]. apply inv_no_flight in Hi. destruct Hi as [_ Hfl Hr Hq Hs].
  split; [|done|done|done|done]. right. exists (pr_stamp p).
  assert (map l_file (map (load_one (pr_stamp p)) (runPerFile (pr_files p) run)) = pr_files p) as Ef.
  { rewrite map_map. unfold runPerFile. change (map (λ x, l_file (load_one (pr_stamp p) x))) with (fmap (M:=list) (λ x, l_file (load_one (pr_stamp p) x))).
    rewrite fmap_imap. apply list_eq. intros i. rewrite list_lookup_imap.
    destruct (pr_files p !! i) as [f|]; [|done]. cbn. by destruct (run i). }
  rewrite Ef. split_and!; [done|done|done|]. apply Forall_forall. intros l Hl. apply list_elem_of_In, in_map_iff in Hl as (o & <- & Ho). split; [done|].
  cbn. by destruct (o_value o).
Qed.

Lemma runDetection_inv force s : wizard_inv s → wizard_inv (runDetection force s).
Proof. unfold runDetection. intros H. repeat case_match; exact H. Qed.

Lemma detected_inv a s : wizard_inv s → wizard_inv (detected_answer a s).
Proof.
  unfold detected_answer. intros H. case_match; [|exact H]. case_match; [exact H|]. case_match; [|exact H]. case_match; [|exact H].
  unfold wizard_inv in *. cbn. by eapply inv_clear.
Qed.

Lemma preview_answer_inv run s : wizard_inv s → wizard_inv (preview_answer run s).
Proof.
  unfold preview_answer. intros H. destruct (preview_flight s) as [p|] eqn:Ep; [|exact H]. case_match eqn:E.
  - unfold wizard_inv in *. cbn. rewrite Ep in H. by eapply inv_no_flight.
  - apply negb_false_iff, Nat.eqb_eq in E. unfold wizard_inv in H. rewrite Ep in H. pose proof (inv_loaded _ _ _ _ _ _ _ _ run H E) as Hi.
    case_match; exact Hi.
Qed.

Lemma can_start_facts s :
  canStartImport s = true → hasFiles s = true ∧ hasFileError s = false ∧ truthy_str (scopedZevId s) = true.
Proof. unfold canStartImport. destruct (source (form s)); intros H; by bool_facts. Qed.

Lemma files_nonempty s : hasFiles s = true → files (form s) ≠ [].
Proof. unfold hasFiles. by destruct (files (form s)). Qed.

(** An import that can start is vouched for by the previews on screen. *)
Lemma checked_request s : wizard_inv s → canStartImport s = true → checked (request_of s).
Proof.
  intros Hi Hc. unfold checked. cbn [request_of up_source up_files up_checked up_zevId up_settings up_overwrite].
  pose proof (inv_vouched _ _ _ _ _ _ _ _ Hi) as Hv. destruct (can_start_facts s Hc) as (Hf & Hfe & _). apply files_nonempty in Hf.
  split; [done|]. split; [exact Hfe|]. intros Hsrc.
  unfold canStartImport in Hc. rewrite Hsrc in Hc. bool_facts. destruct Hv as [E|(p & Est & _ & Hfs & Hall)].
  { unfold hasPreview in *. rewrite E in *. done. }
  destruct Hfs as [Hfs|?]; [|done].
  assert (same_settings p (stamp_of (source (form s)) (default "" (scopedZevId s)) (settings (form s)) (overwriteExisting (form s)) [])) as Hsame.
  { unfold previewStampMatches, currentStamp in *. rewrite Est in *. destruct (files (form s)) as [|f fs]; [done|]. cbn [previewStampsEqual] in *.
    match goal with H : bool_decide _ = true |- _ => apply bool_decide_eq_true in H; apply (f_equal no_files) in H; exact H end. }
  split; [|done]. rewrite <- Hfs. change (map l_file (previews s)) with (l_file <$> previews s). apply Forall2_fmap_l, Forall_Forall2_diag.
  rewrite Forall_forall in Hall |- *. intros l Hl. destruct (Hall l Hl) as [Hs Hp].
  assert (entry_bad (l_preview l) = false) as Hb.
  { destruct (entry_bad (l_preview l)) eqn:E; [|done]. match goal with H : hasPreviewErrors s = false |- _ => rewrite <- H end. unfold hasPreviewErrors, shown.
    symmetry. apply existsb_exists. exists (l_preview l). split; [|done]. apply in_map. by apply list_elem_of_In. }
  split_and!; [done| |done|].
  - apply Hp. unfold entry_bad in Hb. bool_facts. destruct (preview_error (l_preview l)); [by rewrite bool_decide_true in *|done].
  - unfold same_settings in *. congruence.
Qed.

Lemma doUpload_inv r s :
  wizard_inv s → question s = None → uploads s = [] → up_files r = files (form s) → (∀ p, preview_flight s = Some p → pr_req p ≠ previewReqId s) →
  wizard_inv (doUpload r s).
Proof.
  intros H Hq Hu Ef Hp. unfold doUpload, mutate. case_match; [exact H|]. case_match; [|exact H].
  unfold wizard_inv in *. cbn. rewrite Hq, Hu in *. by apply inv_add_upload.
Qed.

Lemma start_inv s : wizard_inv s → preview_flight s = None → wizard_inv (click_start s).
Proof.
  intros H Hp. unfold click_start. destruct (bool_decide (is_Some (question s)) || (0 <? length (uploads s))%nat || negb (canStartImport s)) eqn:E; [exact H|].
  bool_facts. assert (question s = None) as Hq by (destruct (question s); [by rewrite bool_decide_true in *|done]).
  assert (uploads s = []) as Hu by (destruct (uploads s); [done|by match goal with H : (0 <? _)%nat = false |- _ => cbn in H end]).
  assert (∀ p, preview_flight s = Some p → pr_req p ≠ previewReqId s) as Hp' by (rewrite Hp; by intros).
  unfold startImport. repeat (case_match; try exact H).
  - unfold wizard_inv. cbn. pose proof (checked_request s H) as Hc. unfold wizard_inv in H. rewrite Hu, Hp in *. destruct H as [Hv Hf Hr _ Hs].
    split; [done|done|done| |done]. intros r [= <-]. split_and!; [done|by apply Hc|done|by intros].
  - by apply doUpload_inv.
  - unfold mutate. case_match; [|exact H]. unfold wizard_inv in *. cbn. rewrite Hq, Hu in *. by apply inv_add_upload.
Qed.

Lemma confirm_import_inv s : wizard_inv s → wizard_inv (confirm_import s).
Proof.
  intros H. unfold confirm_import. destruct (question s) as [r|] eqn:Eq; [|exact H]. pose proof H as H2. unfold wizard_inv in H2. rewrite Eq in H2.
  destruct (inv_question _ _ _ _ _ _ _ _ H2 r eq_refl) as (Ef & _ & Eu & Hp).
  apply doUpload_inv; [|done|done|exact Ef|exact Hp]. unfold wizard_inv. cbn. by destruct H2 as [Hv Hf Hr _ Hs].
Qed.

Lemma cancel_inv s : wizard_inv s → wizard_inv (cancel_import s).
Proof. intros H. unfold cancel_import, wizard_inv in *. cbn. destruct H as [Hv Hf Hr _ Hs]. by split. Qed.

(** ** The outcome of a batch *)

Lemma keep_failed_map {A B} (f : A → B) (g : BatchFileOutcome ImportLog → B) os : ∀ l,
  map f l = map g os → map f (keep_failed os l) = map g (bfilter failed_outcome os).
Proof.
  induction os as [|o os IH]; intros [|x l]; try done. cbn. intros [= E1 E2]. case_match; cbn; [|by apply IH]. by rewrite E1, (IH l).
Qed.

Lemma keep_failed_Forall {A} (P : A → Prop) os : ∀ l, Forall P l → Forall P (keep_failed os l).
Proof.
  induction os as [|o os IH]; intros [|x l] H; cbn; try constructor. apply Forall_cons in H as [? ?]. case_match; [constructor|]; auto.
Qed.

Lemma runPerFile_files {T} fs (run : nat → T + upload_error) : map o_file (runPerFile fs run) = fs.
Proof.
  unfold runPerFile. change (map o_file) with (fmap (M:=list) (o_file (T:=T))). rewrite fmap_imap. apply list_eq. intros i. rewrite list_lookup_imap.
  destruct (fs !! i) as [f|]; [|done]. cbn. by destruct (run i).
Qed.

Lemma show_log_inv l s : wizard_inv s → wizard_inv (show_log l s).
Proof. by destruct l. Qed.

Lemma success_message_inv os logs s : wizard_inv s → wizard_inv (success_message os logs s).
Proof. intros H. unfold success_message. repeat case_match; exact H. Qed.

Lemma outcomes_inv os r s :
  wizard_inv s → uploads s = [] → map o_file os = up_files r → (up_generation r = wizardGeneration s → up_files r = files (form s)) →
  question s = None → (up_generation r = wizardGeneration s → ∀ p, preview_flight s = Some p → pr_req p ≠ previewReqId s) →
  wizard_inv (handleUploadOutcomes os r s).
Proof.
  intros H Hu Eo Ef Hq Hp. unfold handleUploadOutcomes. case_match eqn:Ec; [exact H|]. bool_facts.
  assert (wizardGeneration s = up_generation r) as Eg by done. specialize (Ef (eq_sym Eg)). specialize (Hp (eq_sym Eg)).
  destruct (bfilter (λ o, negb (failed_outcome o)) os) as [|o1 imp] eqn:Ei.
  { apply (show_log_inv (first_rejected (bfilter failed_outcome os))) in H. exact H. }
  destruct (bfilter failed_outcome os) as [|o2 fl] eqn:Efl.
  - apply success_message_inv, show_log_inv. unfold wizard_inv in *. cbn. rewrite Hu, Hq in *. by eapply inv_reset.
  - rewrite <- Efl. cbn zeta. match goal with |- wizard_inv (say _ _ (show_log ?l ?x)) => cut (wizard_inv x); [intros Hx; exact (show_log_inv l x Hx)|] end.
    unfold wizard_inv in *. cbn. rewrite Hu, Hq in *. destruct H as [Hv Hf _ _ Hs]. split; [| |by intros r' ?%elem_of_nil|done|done].
    + destruct Hv as [->|(p & -> & Est & Hfs & Hall)]; [left; by destruct os|]. right. eexists. split; [reflexivity|]. cbn [stamp_files].
      assert (map l_file (keep_failed os (previews s)) = map o_file (bfilter failed_outcome os)) as Ek.
      { apply keep_failed_map. rewrite Eo, Ef. destruct Hfs as [?|E]; [done|]. exfalso. rewrite Ef, E in Eo. by destruct os. }
      split_and!; [by rewrite Ek|by left|]. apply keep_failed_Forall. apply (Forall_impl _ _ _ Hall). by intros l [? ?].
    + intros p Ep. destruct (Hf p Ep) as [? _]. split; [done|]. intros E. by destruct (Hp p Ep).
Qed.

Lemma upload_answer_inv i run s : wizard_inv s → wizard_inv (upload_answer i run s).
Proof.
  intros H. unfold upload_answer. destruct (uploads s !! i) as [r|] eqn:Er; [|exact H]. pose proof H as Hi. unfold wizard_inv in Hi.
  pose proof (inv_single _ _ _ _ _ _ _ _ Hi) as Hl. destruct (uploads s) as [|r0 [|]] eqn:Eu; [done| |cbn in Hl; lia].
  destruct i as [|i]; [|done]. injection Er as ->. cbn [delete list_delete].
  assert (question s = None) as Hq.
  { destruct (question s) eqn:Eq; [|done]. by destruct (inv_question _ _ _ _ _ _ _ _ Hi _ eq_refl) as (_ & _ & ? & _). }
  destruct (inv_running _ _ _ _ _ _ _ _ Hi r ltac:(by left)) as [_ Hr].
  apply outcomes_inv; [|done|apply runPerFile_files|cbn; intros E; by destruct (Hr E)|done|cbn; intros E; by destruct (Hr E)].
  unfold wizard_inv. cbn. apply (inv_drop_upload _ _ _ _ _ _ _ _ 0) in Hi. exact Hi.
Qed.

Lemma waits_selection s e :
  waits s e → changes_selection e = true → question s = None ∧ ∀ r, r ∈ uploads s → up_generation r ≠ wizardGeneration s.
Proof.
  intros (Hq & Hr & _) He. split.
  - destruct (question s); [|done]. assert (answers_question e = true) as Ha by by apply Hq. by destruct e.
  - intros r Hin E. rewrite (Hr r Hin E) in He. done.
Qed.

Lemma selection_inv fs s :
  wizard_inv s → question s = None → (∀ r, r ∈ uploads s → up_generation r ≠ wizardGeneration s) → wizard_inv (new_selection fs s).
Proof. intros H Hq Hr. unfold wizard_inv in *. cbn. rewrite Hq in *. by eapply inv_select. Qed.

Lemma wizard_step_inv s e : wizard_inv s → waits s e → wizard_inv (wizard_step s e).
Proof.
  intros H Hw. pose proof (waits_selection s e Hw) as Hsel. destruct e; cbn [wizard_step]; try exact H.
  - unfold wizard_inv in *. cbn. destruct (question s) eqn:Eq; [|by eapply inv_reset]. destruct Hw as [Hw _]. by rewrite Eq in Hw; specialize (Hw ltac:(done)).
  - destruct (Hsel eq_refl) as [Hq Hr]. unfold wizard_inv in *. cbn. rewrite Hq in *. by eapply inv_empty.
  - destruct (Hsel eq_refl) as [Hq Hr]. unfold handleFileChange. apply selection_inv; by case_match.
  - destruct (Hsel eq_refl) as [Hq Hr]. by apply selection_inv.
  - unfold handleNextStep. case_match; [exact H|]. case_match; [exact H|]. apply runDetection_inv. exact H.
  - unfold wizard_inv in *. cbn. by eapply inv_clear.
  - by apply runDetection_inv.
  - by apply detected_inv.
  - destruct (Hsel eq_refl) as [Hq Hr]. unfold click_preview, loadPreview. repeat (case_match; [exact H|]). unfold wizard_inv in *. cbn. rewrite Hq in *.
    destruct H as [Hv Hf Hu _ Hs]. split; [done| | |done|done].
    + intros p [= <-]. cbn [pr_req pr_files pr_stamp]. split; [lia|]. intros _. split; [by left|done].
    + intros r Hin. destruct (Hu r Hin). split; [done|]. intros E. by destruct (Hr r Hin).
  - by apply preview_answer_inv.
  - apply start_inv; [done|]. destruct Hw as (_ & _ & Hw). by apply Hw.
  - by apply confirm_import_inv.
  - by apply cancel_inv.
  - by apply upload_answer_inv.
  - unfold rescope, wizard_inv in *. cbn. by eapply inv_reset.
Qed.

Lemma wizard_init_inv sc : wizard_inv (wizard_init sc).
Proof. split; cbn; [by left|done|by intros r ?%elem_of_nil|done|lia]. Qed.

Lemma patient_inv es : ∀ s, wizard_inv s → patient s es → wizard_inv (foldl wizard_step s es).
Proof.
  induction es as [|e es IH]; intros s H Hp; [done|]. destruct Hp as [Hw Hp]. cbn. apply IH; [by apply wizard_step_inv|done].
Qed.

(** What a step adds to the uploads. *)
Definition sends (s s' : wizard) (r : upload_request) : Prop := r ∈ uploads s' ∧ r ∉ uploads s.

Lemma mutate_sends r0 s r : sends s (mutate r0 s) r → r = r0 ∧ assertWritable (Some (scope_id (scope s))) (up_scope r0) true = true.
Proof.
  unfold sends, mutate. case_match eqn:E; [|by intros []]. cbn. intros [Hin Hn]. apply elem_of_app in Hin as [?|Hin]; [done|].
  by apply list_elem_of_singleton in Hin as ->.
Qed.

Lemma doUpload_sends r0 s r :
  sends s (doUpload r0 s) r →
  up_scope r = up_scope r0 ∧ up_source r = up_source r0 ∧ up_zevId r = up_zevId r0 ∧ up_files r = up_files r0 ∧ up_settings r = up_settings r0 ∧
  up_overwrite r = up_overwrite r0 ∧ up_checked r = up_checked r0 ∧ assertWritable (Some (scope_id (scope s))) (up_scope r) true = true.
Proof.
  unfold doUpload. case_match; [by intros []|]. intros Hs. apply mutate_sends in Hs as [-> Ha]. done.
Qed.

Lemma checked_ext r r0 :
  up_source r = up_source r0 → up_zevId r = up_zevId r0 → up_files r = up_files r0 → up_settings r = up_settings r0 →
  up_overwrite r = up_overwrite r0 → up_checked r = up_checked r0 → checked r0 → checked r.
Proof. unfold checked. by intros -> -> -> -> -> ->. Qed.

Lemma other_steps_send s e r : wizard_inv s → e ≠ StartImport → e ≠ ConfirmImport → ¬ sends s (wizard_step s e) r.
Proof.
  intros Hi H1 H2 [Hin Hn]. destruct e; cbn [wizard_step] in Hin; try done.
  - unfold handleFileChange in Hin. by case_match.
  - unfold handleNextStep, runDetection in Hin. by repeat case_match.
  - unfold runDetection in Hin. by repeat case_match.
  - unfold detected_answer in Hin. by repeat case_match.
  - unfold click_preview, loadPreview in Hin. by repeat case_match.
  - unfold preview_answer in Hin. by repeat case_match.
  - unfold upload_answer in Hin. destruct (uploads s !! i) as [r0|] eqn:E; [|done]. pose proof (inv_single _ _ _ _ _ _ _ _ Hi) as Hl.
    assert (∀ x, uploads (handleUploadOutcomes x r0 (set_uploads (question s) (delete i (uploads s)) s)) = delete i (uploads s)) as Eu.
    { intros x. unfold handleUploadOutcomes, success_message, show_log. by repeat case_match. }
    rewrite Eu in Hin. apply Hn. eapply elem_of_submseteq; [exact Hin|apply sublist_submseteq, sublist_delete].
Qed.

(** C8. An import sends exactly what was checked: for a user who waits for answers,
    whatever else is clicked, typed and answered in any order, every upload goes out while
    its write scope is current and writable and no other upload runs, with files the server
    takes, and a CSV upload only with an error-free preview for each of its very files,
    loaded with the settings it is sent with. *)
Theorem imports_previewed sc es e r :
  patient (wizard_init sc) es →
  let s := wizard_run sc es in
  sends s (wizard_step s e) r →
  checked r ∧ uploads s = [] ∧ assertWritable (Some (scope_id (scope s))) (up_scope r) true = true.
Proof.
  intros Hp s Hs. pose proof (patient_inv es (wizard_init sc) (wizard_init_inv sc) Hp) as Hi. change (wizard_inv s) in Hi.
  assert (e = StartImport ∨ e = ConfirmImport ∨ (e ≠ StartImport ∧ e ≠ ConfirmImport)) as [-> |[-> |[H1 H2]]] by (destruct e; auto).
  - cbn [wizard_step] in Hs. unfold click_start in Hs.
    destruct (bool_decide (is_Some (question s)) || (0 <? length (uploads s))%nat || negb (canStartImport s)) eqn:E; [by destruct Hs|].
    bool_facts. assert (uploads s = []) as Hu by (destruct (uploads s); [done|by match goal with H : (0 <? _)%nat = false |- _ => cbn in H end]).
    pose proof (checked_request s Hi ltac:(done)) as Hc. unfold startImport in Hs. repeat (case_match; try by destruct Hs).
    + apply doUpload_sends in Hs as (? & ? & ? & ? & ? & ? & ? & ?). split_and!; [|done|done]. by eapply (checked_ext r (request_of s)).
    + apply mutate_sends in Hs as [-> ?]. by split_and!.
  - cbn [wizard_step] in Hs. unfold confirm_import in Hs. destruct (question s) as [r0|] eqn:Eq; [|by destruct Hs]. unfold wizard_inv in Hi. rewrite Eq in Hi.
    destruct (inv_question _ _ _ _ _ _ _ _ Hi r0 eq_refl) as (_ & Hc & Hu & _).
    assert (sends (set_uploads None (uploads s) s) (doUpload r0 (set_uploads None (uploads s) s)) r) as Hs' by exact Hs.
    apply doUpload_sends in Hs' as (? & ? & ? & ? & ? & ? & ? & ?). split_and!; [|done|done]. by eapply (checked_ext r r0).
  - by destruct (other_steps_send s e r Hi H1 H2).
Qed.

(** ** Retrying a batch *)

Definition fails (run : nat → ImportLog + upload_error) (i : nat) : bool :=
  match run i with inl l => bool_decide (result_status (log_sdat l) = Some SdatRejected) | inr _ => true end.

(** The files whose upload failed, in the order of the selection. *)
Definition failed_files (run : nat → ImportLog + upload_error) (fs : list wfile) : list wfile :=
  map snd (bfilter (λ x, fails run x.1) (imap pair fs)).

Lemma failed_outcomes_files fs : ∀ run, map o_file (bfilter failed_outcome (runPerFile fs run)) = failed_files run fs.
Proof.
  unfold failed_files, runPerFile. induction fs as [|f fs IH]; intros run; [done|]. rewrite !imap_cons.
  specialize (IH (λ i, run (S i))). cbn [bfilter List.filter]. unfold bfilter in *. cbn [List.filter fst].
  assert (failed_outcome match run 0%nat with inl v => {| o_file := f; o_value := Some v; o_error := None |}
     | inr e => {| o_file := f; o_value := None; o_error := Some e |} end = fails run 0) as -> by (unfold failed_outcome, fails; by destruct (run 0%nat)).
  assert (map snd (List.filter (λ x, fails run x.1) (imap (pair ∘ S) fs)) = map snd (List.filter (λ x, fails (λ i, run (S i)) x.1) (imap pair fs))) as E.
  { clear. assert (∀ k, map snd (List.filter (λ x, fails run x.1) (imap (λ i, pair (S (k + i))) fs)) =
      map snd (List.filter (λ x, fails (λ i, run (S i)) x.1) (imap (λ i, pair (k + i)%nat) fs))) as H; [|exact (H 0%nat)].
    induction fs as [|f fs IH]; intros k; [done|]. rewrite !imap_cons. cbn [List.filter fst].
    change (fails (λ i, run (S i)) (k + 0)) with (fails run (S (k + 0))).
    assert (∀ A (g : nat → wfile → A), imap ((λ i, g (k + i)%nat) ∘ S) fs = imap (λ i, g (S k + i)%nat) fs) as Eg.
    { intros A g. apply imap_ext. intros i x _. cbn. by rewrite Nat.add_succ_r. }
    specialize (IH (S k)). rewrite <- (Eg _ (λ n, pair n)) in IH. rewrite <- (Eg _ (λ n, pair (S n))) in IH.
    destruct (fails run (S (k + 0))); cbn [map]; [f_equal|]; exact IH. }
  destruct (fails run 0); cbn [map]; rewrite E, <- IH; [|done]. f_equal. by destruct (run 0%nat).
Qed.

Lemma failed_files_length fs run : length (failed_files run fs) = length (bfilter failed_outcome (runPerFile fs run)).
Proof. by rewrite <- failed_outcomes_files, length_map. Qed.

Lemma runPerFile_length {T} fs (run : nat → T + upload_error) : length (runPerFile fs run) = length fs.
Proof. by rewrite <- (runPerFile_files fs run) at 2; rewrite length_map. Qed.

(** The answers of a batch reach only the wizard that sent it, under its scope. When every
    file failed the wizard stays as it was; when some failed it keeps exactly those, in
    order, and of the previews exactly theirs; when none failed it is reset and closed. A
    rejected file fails like one whose request failed. *)
Theorem upload_outcomes r run s :
  let s' := handleUploadOutcomes (runPerFile (up_files r) run) r s in
  let bad := failed_files run (up_files r) in
  uploads s' = uploads s ∧
  (if negb (isCurrent (Some (scope_id (scope s))) (up_scope r)) || negb (wizardGeneration s =? up_generation r)%nat then s' = s
   else if (length bad =? length (up_files r))%nat then
     form s' = form s ∧ previews s' = previews s ∧ previewStamp s' = previewStamp s ∧ wizardOpen s' = wizardOpen s ∧ wizardStep s' = wizardStep s
   else if (length bad =? 0)%nat then form s' = initial_form ∧ previews s' = [] ∧ wizardOpen s' = false ∧ wizardGeneration s' = S (wizardGeneration s)
   else files (form s') = bad ∧ source (form s') = source (form s) ∧ settings (form s') = settings (form s) ∧
     overwriteExisting (form s') = overwriteExisting (form s) ∧ wizardOpen s' = wizardOpen s ∧
     (map l_file (previews s) = up_files r → map l_file (previews s') = bad)).
Proof.
  cbn zeta. rewrite failed_files_length. pose proof (length_bfilter_negb failed_outcome (runPerFile (up_files r) run)) as Hn.
  pose proof (length_bfilter failed_outcome (runPerFile (up_files r) run)) as Hle. rewrite runPerFile_length in Hn, Hle.
  pose proof (runPerFile_files (up_files r) run) as Eo.
  unfold handleUploadOutcomes. case_match; [done|]. rewrite <- failed_outcomes_files.
  destruct (bfilter (λ o, negb (failed_outcome o)) (runPerFile (up_files r) run)) as [|o1 imp] eqn:Ei.
  - cbn [length] in Hn. rewrite (proj2 (Nat.eqb_eq _ _)) by lia. by destruct (first_rejected _).
  - cbn [length] in Hn. rewrite (proj2 (Nat.eqb_neq _ _)) by lia.
    destruct (bfilter failed_outcome (runPerFile (up_files r) run)) as [|o2 fl] eqn:Efl.
    + cbn [length Nat.eqb]. unfold success_message, show_log. by repeat case_match.
    + cbn [length Nat.eqb]. rewrite <- Efl. unfold show_log.
      assert (map l_file (previews s) = up_files r → map l_file (keep_failed (runPerFile (up_files r) run) (previews s)) =
        map o_file (bfilter failed_outcome (runPerFile (up_files r) run))) as Hk.
      { intros E. apply keep_failed_map. by rewrite Eo, E. }
      by case_match.
Qed.
End Page.

(** ** Runs *)

Definition plain_t (key : string) (_ : list (string * json)) : string := key.
Definition no_bytes (_ : Z) : string := "".

Definition csv_file (i : nat) (name : string) : wfile :=
  {| f_id := i; f_stamp := {| file_name := name; file_size := 10; file_lastModified := 0 |} |}.

Definition clean_preview : ImportPreviewResult :=
  {| preview_rows_total := 1; preview_rows := [];
     summary := {| existing_metering_points := 1; missing_metering_points := 0; rows_previewed := 1; rows_skipped_existing := 0; readings_existing := 0 |};
     missing_meter_ids := []; preview_errors := []; preview_timezone := ZoneZurich; rows_skipped_dst_gap := 0 |}.

Definition clean_log : ImportLog :=
  {| log_id := "1"; log_zev := Some "z"; log_filename := "a.csv"; log_created_at := ""; rows_imported := 96; rows_overwritten := None;
     log_rows_skipped := 0; log_errors := 0; log_warnings := 0; error_issues := 0;
     log_sdat := {| result_status := None; result_counts := None; deletable := None; deletion_protection_code := None |} |}.

Definition manager_scope : WriteScope := {| scope_id := 1; selectedZevId := Some "z"; canWrite := true; accountId := Some 1%Z; scopeKey := Some "z" |}.

(** Picking files, waiting for the detection and loading an error-free preview. *)
Definition select_and_preview (fs : list wfile) : list wizard_event :=
  [PickFiles fs; NextStep; DetectAnswered None; LoadPreview; PreviewAnswered (λ _, inl clean_preview)].

Definition first_batch : list wfile := [csv_file 1 "a.csv"; csv_file 2 "b.csv"].
Definition second_batch : list wfile := [csv_file 3 "c.csv"; csv_file 4 "d.csv"].

Definition upload_of (fs : list wfile) (ps : list loaded) : upload_request :=
  {| up_scope := manager_scope; up_generation := 0; up_source := SourceCsv; up_zevId := "z"; up_files := fs; up_settings := initial_settings;
     up_overwrite := false; up_checked := ps |}.

Lemma imports_previewed_witness :
  let es := OpenWizard :: select_and_preview first_batch in
  let s := wizard_run plain_t no_bytes manager_scope es in
  sends s (wizard_step plain_t no_bytes s StartImport) (upload_of first_batch (previews s)) ∧ checked (upload_of first_batch (previews s)).
Proof.
  cbn zeta. set (es := OpenWizard :: select_and_preview first_batch). set (s := wizard_run plain_t no_bytes manager_scope es).
  assert (sends s (wizard_step plain_t no_bytes s StartImport) (upload_of first_batch (previews s))) as Hs.
  { split; [|by apply not_elem_of_nil]. apply list_elem_of_singleton. by vm_compute. }
  split; [exact Hs|]. apply (imports_previewed plain_t no_bytes manager_scope es StartImport _); [|exact Hs].
  repeat split; try done; by intros ? ?%not_elem_of_nil.
Defined.

(** While an upload runs, only its button is disabled: after a step back another selection
    can be made and previewed. The failed file of the first batch then replaces it, next to
    a preview of a file of the second, and the import that may start then was not vouched
    for by a preview of its own file. *)
Lemma late_outcome_misplaces_preview :
  let es := (OpenWizard :: select_and_preview first_batch ++ [StartImport; BackToStep1] ++ select_and_preview second_batch ++
             [UploadAnswered 0 (λ i, if (i =? 0)%nat then inl clean_log else inr {| err_status := Some 429%Z; err_error := ""; err_detail := "" |})])%list in
  let s := wizard_run plain_t no_bytes manager_scope es in
  let s' := wizard_step plain_t no_bytes s StartImport in
  canStartImport s = true ∧ map up_files (uploads s') = [[csv_file 2 "b.csv"]] ∧
  map (map l_file) (map up_checked (uploads s')) = [[csv_file 4 "d.csv"]].
Proof. by vm_compute. Qed.
