(* ===== verification/BulkDelete.v ===== *)
(** The deletion of imports: deleteImportMutation, bulkDeleteScopeLogs, submitBulkDelete and
    confirmBulkDelete of pages/ImportsPage.tsx, the buttons of
    features/imports/BulkDeleteModal.tsx.

    The page is a transition system on the state of its last render; an event of a control
    that is not rendered or is disabled changes nothing. The logs are those of the query at
    the step. [bulk_sent] and [deletes] are the requests waited for. *)

From S2P Require Import Prelude JsString JsNumber JsDate Dates Json Imports Editors ImportWizard.
Local Open Scope string_scope.

Inductive BulkDeleteMode := ModePeriod | ModeAll.
#[export] Instance BulkDeleteMode_eq_dec : EqDecision BulkDeleteMode.
Proof. solve_decision. Defined.

Record bulk_request := {
  bulk_scope : WriteScope; bulk_mode : BulkDeleteMode; bulk_from : option string; bulk_to : option string; bulk_zevId : string;
}.

Record delete_request := { del_id : string; del_scope : WriteScope }.


Record deletion_page := {
  data : list ImportLog; page_scope : WriteScope; open_log : option string; showBulkDeleteModal : bool; bulkDeleteMode : BulkDeleteMode;
  bulkDeleteFrom : string; bulkDeleteTo : string; bulkDeleteArmed : bool; delete_question : option delete_request;
  bulk_sent : list bulk_request; deletes : list delete_request; toasts : list message;
}.

Section Deletion.
Context `{Zone} (t : string → list (string * json) → string).

(** ** What is in scope *)

Definition importLogs (s : deletion_page) : list ImportLog :=
  bfilter (λ l, negb (truthy_str (selectedZevId (page_scope s))) || bool_decide (log_zev l = selectedZevId (page_scope s))) (data s).

(** Dates that are not set leave nothing; an instant that is not a number is in no range. *)
Definition in_period (from to : string) (l : ImportLog) : bool :=
  match date_parse (log_created_at l), businessDayStartMs from, businessDayStartMs (nextIsoDate to) with
  | Some createdAt, Some start, Some stop => (start <=? createdAt)%Z && (createdAt <? stop)%Z
  | _, _, _ => false
  end.

Definition bulkDeleteScopeLogs (s : deletion_page) : list ImportLog :=
  match bulkDeleteMode s with
  | ModeAll => importLogs s
  | ModePeriod =>
      if negb (nonempty (bulkDeleteFrom s)) || negb (nonempty (bulkDeleteTo s)) then []
      else bfilter (in_period (bulkDeleteFrom s) (bulkDeleteTo s)) (importLogs s)
  end.

Definition bulkDeleteVisibleCount (s : deletion_page) : nat := length (bulkDeleteScopeLogs s).

Definition bulkDeleteProtectedLogs (s : deletion_page) : list ImportLog :=
  bfilter (λ l, negb (isImportLogDeletable (log_sdat l))) (bulkDeleteScopeLogs s).

Definition bulkDeleteProtectedExamples (formatDateTime : string → string) (s : deletion_page) : list string :=
  map (λ l, (if nonempty (log_filename l) then log_filename l else "-") ++ " — " ++ formatDateTime (log_created_at l))
      (take 5 (bulkDeleteProtectedLogs s)).

(** ** Updates *)







(** ** Handlers *)


















(** ** What is sent *)














(** ** The period is whole days *)

Lemma in_period_days `{!ZoneLaws} m n l :
  iso_range m → iso_range n → iso_range (n + 1) →
  in_period (iso m) (iso n) l = true ↔ ∃ c, date_parse (log_created_at l) = Some c ∧ (m <= local_day c <= n)%Z.
Proof.
  intros Hm Hn Hn1. unfold in_period. rewrite nextIsoDate_iso, !businessDayStartMs_iso by done.
  destruct (date_parse (log_created_at l)) as [c|]; [|split; [done|by intros (? & ? & _)]].
  pose proof (proj1 (local_day_iff c _) eq_refl) as [Hlo Hhi]. rewrite andb_true_iff, Z.leb_le, Z.ltb_lt.
  assert (∀ k, (k <= local_day c)%Z ↔ (day_start k <= c)%Z) as Hle.
  { intros k. split; intros Hk.
    - destruct (decide (k = local_day c)) as [->|]; [done|]. pose proof (day_start_mono k (local_day c)). lia.
    - destruct (decide (k <= local_day c)%Z); [done|]. destruct (decide (k = local_day c + 1)%Z) as [->|]; [lia|].
      pose proof (day_start_mono (local_day c + 1) k). lia. }
  pose proof (Hle m). pose proof (Hle (n + 1)%Z). split; [intros []; exists c; split; [done|lia]|intros (? & [= <-] & ?); lia].
Qed.

(** The bulk deletion of a period names exactly the logs of the selected community whose
    creation falls on a civil day of the business zone from the first date to the last, both
    included, whatever the lengths of these days; a log without a readable instant is in no
    period. Its protected logs are those the server refuses. *)
Theorem bulk_scope_exact `{!ZoneLaws} s m n :
  bulkDeleteMode s = ModePeriod → iso_range m → iso_range n → iso_range (n + 1) → bulkDeleteFrom s = iso m → bulkDeleteTo s = iso n →
  ∀ l, (l ∈ bulkDeleteScopeLogs s ↔ l ∈ importLogs s ∧ ∃ c, date_parse (log_created_at l) = Some c ∧ (m <= local_day c <= n)%Z) ∧
       (l ∈ bulkDeleteProtectedLogs s ↔ l ∈ bulkDeleteScopeLogs s ∧ isImportLogDeletable (log_sdat l) = false).
Proof.
  intros Hmode Hm Hn Hn1 Ef Et l. split.
  - unfold bulkDeleteScopeLogs. rewrite Hmode, Ef, Et. assert (∀ k, iso_range k → nonempty (iso k) = true) as Hne.
    { intros k Hk. unfold nonempty. destruct (iso k) eqn:E; [|done]. apply (f_equal date_of_iso) in E. by rewrite date_of_iso_iso in E. }
    rewrite !Hne by done. cbn [negb orb]. by rewrite elem_of_bfilter, in_period_days.
  - unfold bulkDeleteProtectedLogs. by rewrite elem_of_bfilter, negb_true_iff.
Qed.
End Deletion.

(** A page on the day summer time starts: the first and the last instant of the day are in
    scope, the instants around them are not. *)
Definition log_at (id created : string) (ok : bool) : ImportLog :=
  {| log_id := id; log_zev := Some "z"; log_filename := "a.csv"; log_created_at := created; rows_imported := 96; rows_overwritten := None;
     log_rows_skipped := 0; log_errors := 0; log_warnings := 0; error_issues := 0;
     log_sdat := {| result_status := None; result_counts := None; deletable := Some ok; deletion_protection_code := None |} |}.

Definition spring_page : deletion_page :=
  {| data := [log_at "1" "2026-03-28T22:59:59Z" true; log_at "2" "2026-03-28T23:00:00Z" true; log_at "3" "2026-03-29T21:59:59Z" false;
              log_at "4" "2026-03-29T22:00:00Z" true];
     page_scope := manager_scope; open_log := None; showBulkDeleteModal := true; bulkDeleteMode := ModePeriod; bulkDeleteFrom := "2026-03-29";
     bulkDeleteTo := "2026-03-29"; bulkDeleteArmed := false; delete_question := None; bulk_sent := []; deletes := []; toasts := [] |}.

Lemma bulk_scope_exact_witness :
  map log_id (@bulkDeleteScopeLogs zurich spring_page) = ["2"; "3"] ∧
  ∀ l, (l ∈ @bulkDeleteScopeLogs zurich spring_page ↔
          l ∈ importLogs spring_page ∧ ∃ c, date_parse (log_created_at l) = Some c ∧ (20541 <= @local_day zurich c <= 20541)%Z) ∧
       (l ∈ @bulkDeleteProtectedLogs zurich spring_page ↔ l ∈ @bulkDeleteScopeLogs zurich spring_page ∧ isImportLogDeletable (log_sdat l) = false).
Proof.
  split; [by vm_compute|]. apply (@bulk_scope_exact zurich _ spring_page 20541 20541); first [reflexivity|unfold iso_range, year4; vm_compute; by split|by vm_compute].
Defined.


