(* ===== verification/MeteringPoints.v ===== *)
(** Metering points of a community: the rules of
    frontend/src/features/meteringPoints/useMeteringPointForms.ts and the lists, maps
    and counts of useMeteringPointActions.tsx beside it. The maps the hook builds with
    [useMemo] are functions of the loaded records. [localeCompare] is a parameter, with
    and without its [numeric] option. *)

From S2P Require Import Prelude JsString JsNumber JsDate Dates Json LiveEnergy.
Local Open Scope string_scope.

Inductive SupplementaryStatus := SupplementaryPending | SupplementaryOk | SupplementaryError | ReconnectRequired | SupplementaryDisabled.
#[export] Instance SupplementaryStatus_eq_dec : EqDecision SupplementaryStatus.
Proof. solve_decision. Defined.

Record MeteringPoint := {
  mp_id : string; mp_zev : string; meter_id : string; secondary_meter_id : option string; meter_type : MeterType;
  is_active : bool; location_description : option string; building : string; building_name : string;
  has_behind_meter_generation : bool; history_protected : option bool; reading_count : Z; assignment_count : Z;
  first_reading_at : option string; last_reading_at : option string;
  supplementary_source_status : option SupplementaryStatus; point_live_state : option LiveState;
}.

Record MeteringPointInput := {
  in_zev : string; in_meter_id : string; in_secondary_meter_id : option string; in_meter_type : MeterType;
  in_is_active : bool; in_location_description : option string; in_building : option string;
  in_has_behind_meter_generation : option bool;
}.

Inductive AllocationMode := PersonalAllocation | CommunityAllocation.

Record MeteringPointAssignment := {
  as_id : string; metering_point : string; participant : string; as_valid_from : string; as_valid_to : option string;
  as_created_at : string; as_updated_at : string; allocation_mode : AllocationMode;
}.

Record MeteringPointAssignmentInput := {
  ai_metering_point : string; ai_participant : string; ai_valid_from : string; ai_valid_to : option string;
  ai_allocation_mode : AllocationMode;
}.

Record BuildingFootprint := { multi_polygon : bool; coordinates : json }.

Record Building := {
  building_id : string; building_zev : string; building_label : string; address_line1 : string; address_line2 : string;
  postal_code : string; city : string; egid : option Z; building_notes : string; latitude : option string;
  longitude : option string; metering_point_count : Z; building_footprint : option BuildingFootprint;
  current_participants : list (string * string); building_created_at : string; building_updated_at : string;
}.

Inductive DataQualitySeverity := Green | Yellow | Red.

Record MeteringPointGap := { gap_start_date : string; gap_end_date : string; duration_days : Z }.

Record MeteringPointDataQuality := {
  dq_id : string; dq_meter_id : string; dq_participant_name : string; severity : DataQualitySeverity; data_completeness : num;
  days_with_data : Z; total_days : Z; dq_gaps : list MeteringPointGap; dq_unassigned_days : Z; dq_unassigned_readings : Z;
  assignment_overlap : bool;
}.

(** ** Forms *)

Definition defaultMeteringPointForm : MeteringPointInput :=
  {| in_zev := ""; in_meter_id := ""; in_secondary_meter_id := Some ""; in_meter_type := MeterConsumption; in_is_active := true;
     in_location_description := Some ""; in_building := None; in_has_behind_meter_generation := Some false |}.

Definition normalizeSecondaryMeterId (value : option string) : option string :=
  v ← value; let trimmed := trim v in if String.eqb trimmed "" then None else Some trimmed.

Definition toMeteringPointPayload (form : MeteringPointInput) : MeteringPointInput :=
  {| in_zev := in_zev form; in_meter_id := in_meter_id form;
     in_secondary_meter_id := normalizeSecondaryMeterId (in_secondary_meter_id form); in_meter_type := in_meter_type form;
     in_is_active := in_is_active form; in_location_description := in_location_description form;
     in_building := in_building form; in_has_behind_meter_generation := in_has_behind_meter_generation form |}.

Definition METERING_POINT_FIELD_ERROR_KEYS : list string := ["meter_id"; "secondary_meter_id"; "meter_type"].

Definition not_blank (j : json) : option string :=
  match j with JStr s => if nonempty (trim s) then Some s else None | _ => None end.

Definition field_message (value : option json) : option string :=
  match value with
  | Some (JStr s) => not_blank (JStr s)
  | Some (JArr l) => head (omap not_blank l)
  | _ => None
  end.

(** [data] is the response's data, absent when there is no response. *)
Definition meteringPointFieldErrors (data : option json) : list (string * string) :=
  match data with
  | Some (JObj record) =>
      omap (λ key, (λ s, (key, s)) <$> field_message (jget key record)) METERING_POINT_FIELD_ERROR_KEYS
  | _ => []
  end.

Definition defaultAssignmentForm (todayIso meteringPointId : string) : MeteringPointAssignmentInput :=
  {| ai_metering_point := meteringPointId; ai_participant := ""; ai_valid_from := todayIso; ai_valid_to := None;
     ai_allocation_mode := PersonalAllocation |}.

(** [openEditMpModal]'s form. *)
Definition mpFormOf (point : MeteringPoint) : MeteringPointInput :=
  {| in_zev := mp_zev point; in_meter_id := meter_id point;
     in_secondary_meter_id := Some (default "" (secondary_meter_id point)); in_meter_type := meter_type point;
     in_is_active := is_active point; in_location_description := Some (default "" (location_description point));
     in_building := Some (building point); in_has_behind_meter_generation := Some (has_behind_meter_generation point) |}.

(** [openEditAssignModal]'s form, and the payload of [submitAssignForm]. *)
Definition assignFormOf (a : MeteringPointAssignment) : MeteringPointAssignmentInput :=
  {| ai_metering_point := metering_point a; ai_participant := participant a; ai_valid_from := as_valid_from a;
     ai_valid_to := as_valid_to a; ai_allocation_mode := allocation_mode a |}.

Definition assignPayload (f : MeteringPointAssignmentInput) : MeteringPointAssignmentInput :=
  {| ai_metering_point := ai_metering_point f; ai_participant := ai_participant f; ai_valid_from := ai_valid_from f;
     ai_valid_to := if truthy_str (ai_valid_to f) then ai_valid_to f else None; ai_allocation_mode := ai_allocation_mode f |}.

(** ** Assignments *)

Inductive AssignmentState := AssignmentCurrent | AssignmentUpcoming | AssignmentEnded.
#[export] Instance AssignmentState_eq_dec : EqDecision AssignmentState.
Proof. solve_decision. Defined.

Definition getAssignmentState (assignment : MeteringPointAssignment) (todayIso : string) : AssignmentState :=
  if str_lt todayIso (as_valid_from assignment) then AssignmentUpcoming
  else if truthy_str (as_valid_to assignment) && str_lt (default "" (as_valid_to assignment)) todayIso then AssignmentEnded
  else AssignmentCurrent.

Definition isAssignmentCurrent (assignment : MeteringPointAssignment) (todayIso : string) : bool :=
  bool_decide (getAssignmentState assignment todayIso = AssignmentCurrent).

Definition assignmentStateBadgeClass (state : AssignmentState) : string :=
  match state with
  | AssignmentCurrent => "badge badge-success" | AssignmentUpcoming => "badge badge-info" | AssignmentEnded => "badge badge-neutral"
  end.

Definition assignmentStateSortOrder (state : AssignmentState) : Z :=
  match state with AssignmentCurrent => 0 | AssignmentUpcoming => 1 | AssignmentEnded => 2 end.

(** The three numbers of [iso.split('-').map(Number)]; a text whose fields are not
    integers has no date here. *)
Definition dash_field (iso : string) (k : nat) : option Z := s ← split_on "-" iso !! k; num_int (to_number s).

Definition addDaysIso (iso : string) (days : Z) : string :=
  formatIsoDate (year ← dash_field iso 0; month ← dash_field iso 1; day ← dash_field iso 2;
                 new_date year (month - 1) (day + days)).

Record NextAssignmentGuidance := { suggestedValidFrom : string; hasOpenEndedAssignment : bool }.

(** The ends that are set ([!!value]). *)
Definition closed_ends (assignments : list MeteringPointAssignment) : list string :=
  bfilter nonempty (omap as_valid_to assignments).

Definition getNextAssignmentGuidance (assignments : list MeteringPointAssignment) (todayIso : string) : NextAssignmentGuidance :=
  {| suggestedValidFrom :=
       match last (sort_by str_le (closed_ends assignments)) with
       | Some latestValidTo => addDaysIso latestValidTo 1
       | None => todayIso
       end;
     hasOpenEndedAssignment := existsb (λ a, negb (truthy_str (as_valid_to a))) assignments |}.

(** ** Data health *)

Definition HEALTH_WINDOW_DAYS : Z := 30.

Definition getMeteringPointHealthWindow (todayIso : string) (days : Z) : string * string :=
  (addDaysIso todayIso (- days), addDaysIso todayIso (-1)).

Inductive MeteringPointHealth := HealthOf (s : DataQualitySeverity) | NoData | UnknownHealth.

Definition getMeteringPointHealth (readings : Z) (quality : option MeteringPointDataQuality) : MeteringPointHealth :=
  if (readings =? 0)%Z then NoData
  else match quality with Some q => HealthOf (severity q) | None => UnknownHealth end.

Definition isMeteringPointHolderLess (point : MeteringPoint) (assignments : list MeteringPointAssignment) (todayIso : string) : bool :=
  if negb (is_active point) || (reading_count point =? 0)%Z then false
  else negb (existsb (λ a, isAssignmentCurrent a todayIso) assignments).

Definition meteringPointNeedsAttention (point : MeteringPoint) (health : MeteringPointHealth) (holderLess : bool) : bool :=
  is_active point && (match health with HealthOf Yellow | HealthOf Red | NoData => true | _ => false end || holderLess).

(** ** Sort and filters *)

Inductive MeteringPointSort := SortMeterId | SortLocation | SortLastReading.

Definition readMeteringPointSort (value : option string) : MeteringPointSort :=
  match value with
  | Some "location" => SortLocation | Some "last_reading" => SortLastReading | _ => SortMeterId
  end.

Definition readMeteringPointBuildingFilter (value : option string) : string := or_str value "all".

(** [None] is ['all']. *)
Definition readMeteringPointTypeFilter (value : option string) : option MeterType :=
  match value with
  | Some "consumption" => Some MeterConsumption | Some "production" => Some MeterProduction
  | Some "bidirectional" => Some MeterBidirectional | _ => None
  end.

Inductive MeteringPointView := ViewAll | ViewActive | ViewInactive | ViewUnassigned | ViewAttention.

Definition readMeteringPointView (value : option string) : MeteringPointView :=
  match value with
  | Some "active" => ViewActive | Some "inactive" => ViewInactive | Some "unassigned" => ViewUnassigned
  | Some "attention" => ViewAttention | _ => ViewAll
  end.

Definition or_else (c d : Z) : Z := if (c =? 0)%Z then d else c.

Section Ordering.
Context (localeCompare numericCompare : string → string → Z).

Record BuildingGroup := { group_building : Building; group_points : list MeteringPoint }.

Definition building_le (l r : Building) : bool :=
  (or_else (localeCompare (building_label l) (building_label r)) (localeCompare (building_id l) (building_id r)) <=? 0)%Z.

Definition groupMeteringPointsByBuilding (buildings : list Building) (points : list MeteringPoint) (filtersActive : bool)
    : list BuildingGroup :=
  bfilter (λ g, (0 <? length (group_points g))%nat
                || (negb filtersActive && (metering_point_count (group_building g) =? 0)%Z))
    ((λ b, {| group_building := b; group_points := bfilter (λ p, String.eqb (building p) (building_id b)) points |})
       <$> sort_by building_le buildings).

Definition byMeterId (l r : MeteringPoint) : Z := numericCompare (meter_id l) (meter_id r).

Definition place (p : MeteringPoint) : string := default "" (trim <$> location_description p).

Definition point_compare (sort : MeteringPointSort) (l r : MeteringPoint) : Z :=
  match sort with
  | SortLocation =>
      if xorb (nonempty (place l)) (nonempty (place r)) then (if nonempty (place l) then -1 else 1)
      else or_else (numericCompare (place l) (place r)) (byMeterId l r)
  | SortLastReading =>
      or_else (localeCompare (default "" (last_reading_at l)) (default "" (last_reading_at r))) (byMeterId l r)
  | SortMeterId => byMeterId l r
  end.

Definition sortMeteringPoints (points : list MeteringPoint) (sort : MeteringPointSort) : list MeteringPoint :=
  sort_by (λ l r, point_compare sort l r <=? 0)%Z points.
End Ordering.

(** ** The hook's maps, lists and counts *)

Record PointFilters := {
  selected_zev : option string; isManagedScope : bool; searchTerm : string; view : MeteringPointView;
  needsAttentionByMeteringPoint : list (string * bool); typeFilter : option MeterType; buildingFilter : string;
  isAssignedByMeteringPoint : option (list (string * bool)); participantNamesByMeteringPoint : option (list (string * string));
}.

Definition in_scope (f : PointFilters) (point : MeteringPoint) : bool :=
  negb (isManagedScope f) || bool_decide (selected_zev f = Some (mp_zev point)).

Definition matches_view (f : PointFilters) (point : MeteringPoint) : bool :=
  match view f with
  | ViewAll => true
  | ViewActive => is_active point
  | ViewInactive => negb (is_active point)
  | ViewUnassigned => bool_decide ((m ← isAssignedByMeteringPoint f; omap_get (mp_id point) m) = Some false)
  | ViewAttention => default false (omap_get (mp_id point) (needsAttentionByMeteringPoint f))
  end.

Definition matches_type (f : PointFilters) (point : MeteringPoint) : bool :=
  match typeFilter f with None => true | Some t => bool_decide (meter_type point = t) end.

Definition searched_texts (f : PointFilters) (point : MeteringPoint) : list string :=
  [meter_id point; default "" (secondary_meter_id point); default "" (location_description point); building_name point;
   default "" (m ← participantNamesByMeteringPoint f; omap_get (mp_id point) m)].

Definition matches_search (f : PointFilters) (point : MeteringPoint) : bool :=
  let normalizedSearch := to_lower (trim (searchTerm f)) in
  negb (nonempty normalizedSearch) || existsb (λ s, includes normalizedSearch (to_lower s)) (searched_texts f point).

Definition matches_building (f : PointFilters) (point : MeteringPoint) : bool :=
  String.eqb (buildingFilter f) "all" || String.eqb (building point) (buildingFilter f).

Definition scopedMeteringPoints (f : PointFilters) (points : list MeteringPoint) : list MeteringPoint :=
  bfilter (in_scope f) points.

Definition filteredMeteringPoints (f : PointFilters) (points : list MeteringPoint) : list MeteringPoint :=
  bfilter (λ p, matches_view f p && matches_type f p && matches_search f p && matches_building f p) (scopedMeteringPoints f points).

Definition getScopedAndFilteredMeteringPoints (points : list MeteringPoint) (f : PointFilters)
    : list MeteringPoint * list MeteringPoint :=
  (scopedMeteringPoints f points, filteredMeteringPoints f points).

Record MeteringPointCounts := {
  activeCount : nat; inactiveCount : nat; assignedCount : nat; unassignedCount : nat; needsAttentionCount : nat;
}.

Definition has_holder (assignments : list MeteringPointAssignment) (todayIso : string) : bool :=
  existsb (λ a, isAssignmentCurrent a todayIso) assignments.

(** [needsAttentionByMeteringPoint.get(point.id)] as a condition. *)
Definition flagged (m : list (string * bool)) (p : MeteringPoint) : bool := default false (omap_get (mp_id p) m).

Definition getMeteringPointCounts (scoped : list MeteringPoint) (byPoint : option (list (string * list MeteringPointAssignment)))
    (todayIso : string) (attention : list (string * bool)) : MeteringPointCounts :=
  let active := length (bfilter is_active scoped) in
  let assigned := length (bfilter (λ p, has_holder (default [] (m ← byPoint; omap_get (mp_id p) m)) todayIso) scoped) in
  {| activeCount := active; inactiveCount := length scoped - active; assignedCount := assigned;
     unassignedCount := match byPoint with None => 0 | Some _ => length scoped - assigned end;
     needsAttentionCount := length (bfilter (flagged attention) scoped) |}.

(** [list.push(a); map.set(a.metering_point, list)]. *)
Definition add_assignment (m : list (string * list MeteringPointAssignment)) (a : MeteringPointAssignment) :=
  omap_set (metering_point a) (default [] (omap_get (metering_point a) m) ++ [a])%list m.

Definition assignmentsByMeteringPoint (assignments : list MeteringPointAssignment) : list (string * list MeteringPointAssignment) :=
  foldl add_assignment [] assignments.

(** What the page has loaded: points, assignments and quality results. *)
Record loaded := {
  points_data : list MeteringPoint; assignments_data : option (list MeteringPointAssignment);
  quality_data : list MeteringPointDataQuality; names_data : list (string * string);
}.

Definition byPoint (l : loaded) := assignmentsByMeteringPoint (default [] (assignments_data l)).

Definition qualityByMeteringPoint (l : loaded) : list (string * MeteringPointDataQuality) :=
  omap_of ((λ dq, (dq_id dq, dq)) <$> quality_data l).

Definition meteringPointHealthById (l : loaded) : list (string * MeteringPointHealth) :=
  omap_of ((λ p, (mp_id p, getMeteringPointHealth (reading_count p) (omap_get (mp_id p) (qualityByMeteringPoint l)))) <$> points_data l).

Definition of_points {V} (managed : bool) (l : loaded) (f : MeteringPoint → list MeteringPointAssignment → V) : list (string * V) :=
  if managed && bool_decide (is_Some (assignments_data l))
  then omap_of ((λ p, (mp_id p, f p (default [] (omap_get (mp_id p) (byPoint l))))) <$> points_data l)
  else [].

Definition meteringPointHolderLessById (managed : bool) (l : loaded) (todayIso : string) : list (string * bool) :=
  of_points managed l (λ p assignments, isMeteringPointHolderLess p assignments todayIso).

Definition assignedById (managed : bool) (l : loaded) (todayIso : string) : list (string * bool) :=
  of_points managed l (λ p assignments, has_holder assignments todayIso).

Definition attentionById (managed : bool) (l : loaded) (todayIso : string) : list (string * bool) :=
  omap_of ((λ p, (mp_id p, meteringPointNeedsAttention p (default UnknownHealth (omap_get (mp_id p) (meteringPointHealthById l)))
                             (default false (omap_get (mp_id p) (meteringPointHolderLessById managed l todayIso))))) <$> points_data l).

Definition participantNames (l : loaded) : list (string * string) :=
  (λ '(id, assignments), (id, join " " (bfilter nonempty (omap (λ a, omap_get (participant a) (omap_of (names_data l))) assignments))))
    <$> byPoint l.

(** The filters the hook passes, from the URL's values and the loaded records. *)
Definition hook_filters (zev : option string) (managed : bool) (search : string) (v : MeteringPointView) (type : option MeterType)
    (in_building : string) (l : loaded) (todayIso : string) : PointFilters :=
  {| selected_zev := zev; isManagedScope := managed; searchTerm := search; view := v;
     needsAttentionByMeteringPoint := attentionById managed l todayIso; typeFilter := type; buildingFilter := in_building;
     isAssignedByMeteringPoint := Some (assignedById managed l todayIso);
     participantNamesByMeteringPoint := Some (participantNames l) |}.

Definition filteredAssignmentsByMeteringPoint (f : PointFilters) (l : loaded) : list (string * list MeteringPointAssignment) :=
  List.filter (λ kv, existsb (λ p, String.eqb (mp_id p) kv.1) (scopedMeteringPoints f (points_data l))) (byPoint l).

Definition hook_counts (f : PointFilters) (l : loaded) (todayIso : string) : MeteringPointCounts :=
  getMeteringPointCounts (scopedMeteringPoints f (points_data l))
    ((λ _, filteredAssignmentsByMeteringPoint f l) <$> assignments_data l) todayIso (needsAttentionByMeteringPoint f).

Definition hasFilters (f : PointFilters) : bool :=
  nonempty (trim (searchTerm f)) || negb (match view f with ViewAll => true | _ => false end)
  || bool_decide (is_Some (typeFilter f)) || negb (String.eqb (buildingFilter f) "all").

(** ** Date arithmetic *)

Lemma fix_digits_free w n : free_of "-" (fix_digits w n) = true.
Proof.
  revert n. induction w as [|w IH]; intros n; [done|]. cbn [fix_digits]. unfold free_of. cbn [str_forall].
  fold (free_of "-" (fix_digits w n)). rewrite IH, andb_true_r. apply negb_true_iff, Ascii.eqb_neq. intros E.
  assert (is_digit (digit (n / 10 ^ Z.of_nat w mod 10)) = true) as Hd.
  { unfold is_digit. rewrite bool_decide_eq_true, digit_val_digit; [by eexists|]. pose proof (Z.mod_pos_bound (n / 10 ^ Z.of_nat w) 10). lia. }
  rewrite E in Hd. done.
Qed.

Lemma dash_fields n :
  iso_range n →
  split_on "-" (iso n) = [fix_digits 4 (cyear (civil_of_day n)); fix_digits 2 (cmonth (civil_of_day n) + 1); fix_digits 2 (cday (civil_of_day n))].
Proof.
  intros H. unfold iso. rewrite iso_of_civil_fix by by apply iso_day_of_range.
  repeat match goal with |- context [("-" ++ ?s)%string] => change ("-" ++ s)%string with (String "-" s) end.
  rewrite (split_on_app "-" (fix_digits 4 _)), (split_on_app "-" (fix_digits 2 _)), split_on_free by apply fix_digits_free. done.
Qed.

Lemma addDaysIso_iso n k : iso_range n → iso_range (n + k) → addDaysIso (iso n) k = iso (n + k).
Proof.
  intros H Hk. unfold addDaysIso, dash_field. rewrite dash_fields by done.
  pose proof (civil_of_day_valid n) as [Hm Hd]. pose proof (days_in_month_range (cyear (civil_of_day n)) _ Hm).
  unfold iso_range, year4 in H. cbn [list_lookup lookup mbind option_bind].
  rewrite num_int_fix4, !num_int_fix2 by lia. cbn [mbind option_bind].
  unfold new_date. rewrite full_year_id by lia. rewrite make_day_add.
  replace (cmonth (civil_of_day n) + 1 - 1)%Z with (cmonth (civil_of_day n)) by lia.
  fold (day_of (civil_of_day n)). rewrite day_of_civil_of_day, clip_day_range by done. apply formatIsoDate_Some.
Qed.

(** ** Assignments *)

Lemma truthy_iso n : truthy_str (Some (iso n)) = true.
Proof. unfold truthy_str. by rewrite iso_nonempty. Qed.

(** An assignment whose ends are days, in order. *)
Definition valid_assignment (a : MeteringPointAssignment) : Prop :=
  ∃ f, iso_range f ∧ as_valid_from a = iso f ∧
    (as_valid_to a = None ∨ ∃ n, as_valid_to a = Some (iso n) ∧ (f <= n)%Z ∧ iso_range n ∧ iso_range (n + 1)).

Lemma assignment_state_days a f n t :
  as_valid_from a = iso f → as_valid_to a = Some (iso n) → iso_range f → iso_range n → iso_range t →
  getAssignmentState a (iso t) = if (t <? f)%Z then AssignmentUpcoming else if (n <? t)%Z then AssignmentEnded else AssignmentCurrent.
Proof.
  intros Hf Hn Rf Rn Rt. unfold getAssignmentState. rewrite Hf, Hn, truthy_iso. cbn [from_option id andb].
  rewrite !iso_lt_days by done. done.
Qed.

Lemma elem_of_closed_ends d assignments :
  d ∈ closed_ends assignments ↔ d ≠ "" ∧ ∃ a, a ∈ assignments ∧ as_valid_to a = Some d.
Proof.
  unfold closed_ends. rewrite elem_of_bfilter, list_elem_of_omap. unfold nonempty.
  rewrite negb_true_iff, String.eqb_neq. split; intros [? ?]; done.
Qed.

Lemma latest_end assignments d :
  last (sort_by str_le (closed_ends assignments)) = Some d →
  d ∈ closed_ends assignments ∧ ∀ e, e ∈ closed_ends assignments → str_le e d = true.
Proof.
  intros H. split.
  { rewrite <- elem_of_sort_by with (leb := str_le). apply last_Some in H as [l ->]. set_solver. }
  intros e He. apply (StronglySorted_last (λ x y, str_le x y = true) (sort_by str_le (closed_ends assignments)) d);
    [apply str_le_refl| |done|by apply elem_of_sort_by].
  apply Sorted_StronglySorted; [intros x y z; apply str_le_trans|]. apply sort_by_sorted, str_le_total.
Qed.

(** The suggested start of the next assignment is the first day after every closed
    assignment of the meter: on it each of them has ended, and the day before one was
    still in force. Without a closed one it is today, and an assignment without an end is
    reported. *)
Theorem next_assignment_guidance assignments today :
  Forall valid_assignment assignments →
  let g := getNextAssignmentGuidance assignments today in
  (hasOpenEndedAssignment g = true ↔ ∃ a, a ∈ assignments ∧ as_valid_to a = None) ∧
  (∀ a, a ∈ assignments → as_valid_to a ≠ None → getAssignmentState a (suggestedValidFrom g) = AssignmentEnded) ∧
  ((∀ a, a ∈ assignments → as_valid_to a = None) ∧ suggestedValidFrom g = today ∨
   ∃ a n, a ∈ assignments ∧ suggestedValidFrom g = iso (n + 1) ∧ isAssignmentCurrent a (iso n) = true).
Proof.
  intros Hall. rewrite Forall_forall in Hall. cbn zeta. unfold getNextAssignmentGuidance. cbn [hasOpenEndedAssignment suggestedValidFrom].
  assert (∀ a, a ∈ assignments → as_valid_to a ≠ None → ∃ d, as_valid_to a = Some d ∧ d ∈ closed_ends assignments) as Hclosed.
  { intros a Ha Hn. destruct (Hall a Ha) as (f & _ & _ & [?|(n & E & _)]); [done|]. exists (iso n). split; [done|].
    apply elem_of_closed_ends. split; [apply String.eqb_neq, iso_nonempty|by exists a]. }
  split.
  { rewrite existsb_elem. split; intros (a & Ha & E); exists a; (split; [done|]); [|by rewrite E].
    destruct (Hall a Ha) as (f & _ & _ & [?|(n & E' & _)]); [done|]. by rewrite E', truthy_iso in E. }
  destruct (last (sort_by str_le (closed_ends assignments))) as [d|] eqn:Hlast.
  - apply latest_end in Hlast as [Hd Hmax]. apply elem_of_closed_ends in Hd as (_ & a0 & Ha0 & E0).
    destruct (Hall a0 Ha0) as (f0 & R0 & F0 & [?|(n0 & E & Hle & Rn & Rn1)]); [congruence|].
    assert (d = iso n0) as -> by congruence. rewrite addDaysIso_iso by done. split.
    + intros a Ha Hn. destruct (Hclosed a Ha Hn) as (e & Ee & He).
      destruct (Hall a Ha) as (f & Rf & Ef & [?|(n & En & Hfn & Rnn & _)]); [congruence|].
      apply Hmax in He. assert (e = iso n) as -> by congruence. rewrite iso_le_days in He by done.
      rewrite (assignment_state_days a f n) by done. bool_facts.
      destruct (n0 + 1 <? f)%Z eqn:?, (n <? n0 + 1)%Z eqn:?; bool_facts; try done; lia.
    + right. exists a0, n0. split_and!; [done|done|]. unfold isAssignmentCurrent.
      rewrite (assignment_state_days a0 f0 n0) by done.
      destruct (n0 <? f0)%Z eqn:?, (n0 <? n0)%Z eqn:?; bool_facts; try lia. done.
  - assert (∀ a, a ∈ assignments → as_valid_to a = None) as Hopen.
    { intros a Ha. destruct (decide (as_valid_to a = None)) as [|Hn]; [done|].
      destruct (Hclosed a Ha Hn) as (d & _ & Hd). apply last_None in Hlast.
      apply (elem_of_sort_by str_le) in Hd. rewrite Hlast in Hd. by apply elem_of_nil in Hd. }
    split; [intros a Ha Hn; by destruct Hn; apply Hopen|by left].
Qed.

Definition sample_assignment (id from : string) (to : option string) : MeteringPointAssignment :=
  {| as_id := id; metering_point := "m1"; participant := "p"; as_valid_from := from; as_valid_to := to; as_created_at := "";
     as_updated_at := ""; allocation_mode := PersonalAllocation |}.

Lemma next_assignment_guidance_witness :
  let l := [sample_assignment "a" (iso 20000) (Some (iso 20058)); sample_assignment "b" (iso 19000) (Some (iso 19999))] in
  Forall valid_assignment l ∧
  (∀ a, a ∈ l → as_valid_to a ≠ None → getAssignmentState a (suggestedValidFrom (getNextAssignmentGuidance l "2026-01-01")) = AssignmentEnded) ∧
  suggestedValidFrom (getNextAssignmentGuidance l "2026-01-01") = "2024-12-02".
Proof.
  intros l. assert (Forall valid_assignment l) as H.
  { constructor; [exists 20000%Z|constructor; [exists 19000%Z|done]]; (split; [apply iso_range_iff; lia|]); (split; [done|]); right;
      [exists 20058%Z|exists 19999%Z]; (split; [done|]); rewrite !iso_range_iff; lia. }
  split; [done|]. split; [|by vm_compute]. apply (next_assignment_guidance l "2026-01-01" H).
Defined.

(** ** Counts and views *)

Lemma assignments_of_point id l :
  default [] (omap_get id (assignmentsByMeteringPoint l)) = bfilter (λ a, String.eqb (metering_point a) id) l.
Proof.
  unfold assignmentsByMeteringPoint. induction l as [|a l IH] using rev_ind; [done|].
  rewrite foldl_snoc, bfilter_snoc. unfold add_assignment at 1.
  destruct (String.eqb_spec (metering_point a) id) as [<-|Hne].
  - rewrite omap_get_set_eq. cbn [from_option id]. by rewrite IH.
  - rewrite omap_get_set_ne by done. by rewrite app_nil_r.
Qed.

Lemma of_point {V} (f : MeteringPoint → V) l p :
  NoDup (mp_id <$> l) → p ∈ l → omap_get (mp_id p) (omap_of ((λ p, (mp_id p, f p)) <$> l)) = Some (f p).
Proof.
  intros Hnd Hp.
  assert (((λ p, (mp_id p, f p)) <$> l).*1 = mp_id <$> l) as E by (rewrite <- list_fmap_compose; done).
  rewrite omap_get_of by by rewrite E. apply omap_elem_get; [by rewrite E|].
  rewrite list_elem_of_fmap. by exists p.
Qed.

Lemma filtered_assignments f l p :
  p ∈ scopedMeteringPoints f (points_data l) →
  omap_get (mp_id p) (filteredAssignmentsByMeteringPoint f l) = omap_get (mp_id p) (byPoint l).
Proof.
  intros Hp. unfold filteredAssignmentsByMeteringPoint.
  rewrite (omap_get_filter (λ k, existsb (λ p, String.eqb (mp_id p) k) (scopedMeteringPoints f (points_data l)))).
  assert (existsb (λ q, String.eqb (mp_id q) (mp_id p)) (scopedMeteringPoints f (points_data l)) = true) as ->; [|done].
  apply existsb_elem. exists p. by rewrite String.eqb_refl.
Qed.

Lemma elem_of_scoped f l p : p ∈ scopedMeteringPoints f l ↔ p ∈ l ∧ in_scope f p = true.
Proof. apply elem_of_bfilter. Qed.

Section Counts.
Context (zev : option string) (managed : bool) (l : loaded) (todayIso : string).
Context (ids_unique : NoDup (mp_id <$> points_data l)).
(** The assignments are only requested for a managed community. *)
Context (assignments_of_managed : managed = false → assignments_data l = None).

(** The page with the view [v] and no other filter. *)
Definition only_view (v : MeteringPointView) : PointFilters := hook_filters zev managed "" v None "all" l todayIso.

Lemma listed_by_view v : filteredMeteringPoints (only_view v) (points_data l) =
  bfilter (matches_view (only_view v)) (scopedMeteringPoints (only_view ViewAll) (points_data l)).
Proof.
  unfold filteredMeteringPoints. apply bfilter_ext. intros p _. cbn. by rewrite !andb_true_r.
Qed.

Lemma holder_known p :
  p ∈ points_data l → is_Some (assignments_data l) →
  omap_get (mp_id p) (assignedById managed l todayIso) = Some (has_holder (default [] (omap_get (mp_id p) (byPoint l))) todayIso).
Proof.
  intros Hp [a Ha]. unfold assignedById, of_points.
  assert (managed = true) as -> by (destruct managed; [done|]; by rewrite assignments_of_managed in Ha).
  rewrite Ha. cbn [andb bool_decide]. rewrite bool_decide_true by by eexists.
  apply (of_point (λ p, has_holder (default [] (omap_get (mp_id p) (byPoint l))) todayIso)); done.
Qed.

Lemma holders_unknown p : assignments_data l = None → omap_get (mp_id p) (assignedById managed l todayIso) = None.
Proof.
  intros Ha. unfold assignedById, of_points.
  rewrite Ha, bool_decide_false by (intros [? ?]; done). by rewrite andb_false_r.
Qed.

Definition count_of (v : MeteringPointView) (c : MeteringPointCounts) : nat :=
  match v with
  | ViewAll => activeCount c + inactiveCount c | ViewActive => activeCount c | ViewInactive => inactiveCount c
  | ViewUnassigned => unassignedCount c | ViewAttention => needsAttentionCount c
  end.

(** The number on each of the page's tabs is the number of points its view lists, as
    long as no search or filter narrows the list; this holds before the assignments are
    loaded too, when no point is called unassigned. *)
Theorem tab_counts_listed v :
  count_of v (hook_counts (only_view v) l todayIso) = length (filteredMeteringPoints (only_view v) (points_data l)).
Proof.
  rewrite listed_by_view. unfold hook_counts, getMeteringPointCounts.
  change (scopedMeteringPoints (only_view v) (points_data l)) with (scopedMeteringPoints (only_view ViewAll) (points_data l)).
  set (scoped := scopedMeteringPoints (only_view ViewAll) (points_data l)).
  destruct v; cbn [count_of activeCount inactiveCount unassignedCount needsAttentionCount matches_view view only_view hook_filters].
  - rewrite (bfilter_all (λ _, true)) by done. pose proof (length_bfilter is_active scoped). lia.
  - done.
  - by rewrite <- (length_bfilter_negb is_active scoped).
  - pose proof holder_known as Hk. pose proof holders_unknown as Hu.
    destruct (assignments_data l) as [a|] eqn:Ha; cbn [fmap option_fmap option_map].
    + rewrite <- length_bfilter_negb. f_equal. apply bfilter_ext. intros p Hp.
      unfold matches_view. cbn [mbind option_bind]. fold (only_view ViewUnassigned). rewrite (filtered_assignments (only_view ViewUnassigned)) by done.
      apply elem_of_scoped in Hp as [Hp _]. cbn [only_view hook_filters view isAssignedByMeteringPoint mbind option_bind].
      rewrite Hk by (by try eexists).
      destruct (has_holder _ todayIso); cbn [negb]; [by rewrite bool_decide_false|by rewrite bool_decide_true].
    + rewrite (proj2 (bfilter_nil _ scoped)); [done|]. intros p _.
      unfold matches_view. cbn [only_view view hook_filters isAssignedByMeteringPoint mbind option_bind]. rewrite Hu by done. by rewrite bool_decide_false.
  - done.
Qed.
End Counts.

Definition sample_point (id zev : string) (active : bool) (readings : Z) : MeteringPoint :=
  {| mp_id := id; mp_zev := zev; meter_id := id; secondary_meter_id := None; meter_type := MeterConsumption; is_active := active;
     location_description := None; building := "b"; building_name := "House"; has_behind_meter_generation := false;
     history_protected := None; reading_count := readings; assignment_count := 1; first_reading_at := None;
     last_reading_at := None; supplementary_source_status := None; point_live_state := None |}.

Definition sample_loaded : loaded :=
  {| points_data := [sample_point "m1" "z" true 5; sample_point "m2" "z" true 0; sample_point "m3" "y" true 5; sample_point "m4" "z" false 0];
     assignments_data := Some [sample_assignment "a" "2024-01-01" None]; quality_data := []; names_data := [] |}.

Lemma tab_counts_listed_witness :
  NoDup (mp_id <$> points_data sample_loaded) ∧ (true = false → assignments_data sample_loaded = None) ∧
  count_of ViewUnassigned (hook_counts (only_view (Some "z") true sample_loaded "2026-01-01" ViewUnassigned) sample_loaded "2026-01-01") = 2%nat ∧
  length (filteredMeteringPoints (only_view (Some "z") true sample_loaded "2026-01-01" ViewUnassigned) (points_data sample_loaded)) = 2%nat.
Proof.
  assert (NoDup (mp_id <$> points_data sample_loaded)) as H by (apply (bool_decide_unpack _); by vm_compute).
  assert (true = false → assignments_data sample_loaded = None) as H2 by done.
  split; [done|]. split; [done|]. split; [by vm_compute|].
  rewrite <- (tab_counts_listed (Some "z") true sample_loaded "2026-01-01" H H2 ViewUnassigned). by vm_compute.
Defined.

(** ** Groups, order and forms *)

(** Splitting a list by a key that each element has exactly one of. *)
Lemma split_by_key {A} (key : A → string) (keys : list string) (l : list A) :
  NoDup keys → (∀ x, x ∈ l → key x ∈ keys) →
  Permutation (concat ((λ k, bfilter (λ x, String.eqb (key x) k) l) <$> keys)) l.
Proof.
  intros Hnd. induction l as [|x l IH]; intros Hin.
  - assert (concat ((λ _ : string, @nil A) <$> keys) = []) as E by (clear; induction keys; done).
    unfold bfilter. cbn [List.filter]. by rewrite E.
  - transitivity (x :: concat ((λ k, bfilter (λ x, String.eqb (key x) k) l) <$> keys)); [|constructor; apply IH; set_solver].
    clear IH. specialize (Hin x ltac:(set_solver)).
    apply list_elem_of_split in Hin as (k1 & k2 & ->). rewrite !fmap_app, !fmap_cons, !concat_app.
    apply NoDup_app in Hnd as (_ & Hk1 & [Hk2 _]%NoDup_cons).
    assert (∀ ks, key x ∉ ks → ((λ k, bfilter (λ y, String.eqb (key y) k) (x :: l)) <$> ks) = ((λ k, bfilter (λ y, String.eqb (key y) k) l) <$> ks :> list _)) as Hrest.
    { intros ks Hks. apply list_fmap_ext. intros i k Hk. unfold bfilter. cbn [List.filter].
      destruct (String.eqb_spec (key x) k) as [<-|]; [|done]. by apply list_elem_of_lookup_2 in Hk. }
    rewrite !Hrest by (try done; intros ?; apply (Hk1 (key x)); set_solver).
    unfold bfilter at 2. cbn [concat List.filter]. rewrite String.eqb_refl. cbn [app].
    by rewrite <- Permutation_middle.
Qed.

(** Grouping by building loses and repeats no point, a group holds the points of its
    building in list order, and a building without points appears only unfiltered and
    when it has none at all. *)
Theorem building_groups_partition localeCompare buildings points filtersActive :
  NoDup (building_id <$> buildings) → (∀ p, p ∈ points → building p ∈ building_id <$> buildings) →
  let groups := groupMeteringPointsByBuilding localeCompare buildings points filtersActive in
  Permutation (concat (group_points <$> groups)) points ∧
  NoDup (building_id ∘ group_building <$> groups) ∧
  ∀ g, g ∈ groups → group_building g ∈ buildings ∧
    group_points g = bfilter (λ p, String.eqb (building p) (building_id (group_building g))) points ∧
    (group_points g = [] → filtersActive = false ∧ metering_point_count (group_building g) = 0%Z).
Proof.
  intros Hnd Hin groups. unfold groups, groupMeteringPointsByBuilding.
  set (mk := λ b, {| group_building := b; group_points := bfilter (λ p, String.eqb (building p) (building_id b)) points |}).
  set (sorted := sort_by (building_le localeCompare) buildings).
  set (shown := λ g, (0 <? length (group_points g))%nat || (negb filtersActive && (metering_point_count (group_building g) =? 0)%Z)).
  assert (Permutation sorted buildings) as Hs by apply sort_by_perm.
  split_and!.
  - assert (∀ gs, concat (group_points <$> bfilter shown gs) = concat (group_points <$> gs)) as ->.
    { induction gs as [|g gs IH]; [done|]. unfold bfilter in *. cbn [List.filter].
      destruct (shown g) eqn:E; rewrite !fmap_cons || rewrite fmap_cons; cbn [concat]; rewrite IH; [done|].
      unfold shown in E. bool_facts. destruct (group_points g); [done|]. cbn [length] in *. apply Nat.ltb_ge in H. lia. }
    rewrite <- list_fmap_compose.
    change (group_points ∘ mk) with ((λ k, bfilter (λ p, String.eqb (building p) k) points) ∘ building_id).
    rewrite list_fmap_compose. apply split_by_key; [by rewrite Hs|]. intros p Hp. rewrite Hs. by apply Hin.
  - assert (∀ gs, NoDup (building_id ∘ group_building <$> gs) → NoDup (building_id ∘ group_building <$> bfilter shown gs)) as Hf.
    { induction gs as [|g gs IH]; intros H; [done|]. unfold bfilter in *. cbn [List.filter]. rewrite fmap_cons in H.
      apply NoDup_cons in H as [Hg H]. destruct (shown g); [|by apply IH]. rewrite fmap_cons. apply NoDup_cons.
      split; [|by apply IH]. intros Hx. apply Hg. apply list_elem_of_fmap in Hx as (y & Hy & Hx).
      apply list_elem_of_fmap. exists y. split; [done|]. by apply elem_of_bfilter in Hx as [? _]. }
    apply Hf. rewrite <- list_fmap_compose. change (building_id ∘ group_building ∘ mk) with building_id. by rewrite Hs.
  - intros g [(b & -> & Hb)%list_elem_of_fmap Hsh]%elem_of_bfilter. cbn [group_building group_points mk].
    split_and!; [by rewrite <- Hs|done|]. intros E. unfold shown in Hsh. cbn [mk group_points group_building] in Hsh.
    rewrite E in Hsh. cbn [length Nat.ltb Nat.leb orb] in Hsh. bool_facts. done.
Qed.

Definition sample_building (id : string) (count : Z) : Building :=
  {| building_id := id; building_zev := "z"; building_label := "House " ++ id; address_line1 := ""; address_line2 := "";
     postal_code := ""; city := ""; egid := None; building_notes := ""; latitude := None; longitude := None;
     metering_point_count := count; building_footprint := None; current_participants := []; building_created_at := "";
     building_updated_at := "" |}.

Definition by_code_point (a b : string) : Z := if str_lt a b then -1 else if String.eqb a b then 0 else 1.

Lemma building_groups_partition_witness :
  let bs := [sample_building "b" 2; sample_building "a" 0] in
  let ps := [sample_point "m1" "z" true 5; sample_point "m2" "z" true 0] in
  let groups := groupMeteringPointsByBuilding by_code_point bs ps false in
  (building_id ∘ group_building <$> groups) = ["a"; "b"] ∧ Permutation (concat (group_points <$> groups)) ps.
Proof.
  intros bs ps groups. split; [by vm_compute|].
  assert (NoDup (building_id <$> bs)) as H by (apply (bool_decide_unpack _); by vm_compute).
  assert (∀ p, p ∈ ps → building p ∈ building_id <$> bs) as H2.
  { intros p. unfold ps. rewrite !elem_of_cons, elem_of_nil. intros [->|[->|[]]]; apply elem_of_cons; by left. }
  apply (building_groups_partition by_code_point bs ps false H H2).
Defined.

(** By location, points without one come last. *)
Lemma unlocated_last localeCompare numericCompare points :
  (∀ a b, (numericCompare a b <= 0 ∨ numericCompare b a <= 0)%Z) →
  (∀ a b, numericCompare a b = 0%Z → numericCompare b a = 0%Z) →
  ∃ named unnamed, sortMeteringPoints localeCompare numericCompare points SortLocation = (named ++ unnamed)%list ∧
    Permutation (named ++ unnamed)%list points ∧
    Forall (λ p, nonempty (place p) = true) named ∧ Forall (λ p, nonempty (place p) = false) unnamed.
Proof.
  intros Htot Hsym.
  set (le := λ l r, (point_compare localeCompare numericCompare SortLocation l r <=? 0)%Z).
  assert (∀ x y, le x y = true ∨ le y x = true) as Ht.
  { intros x y. unfold le, point_compare, byMeterId, or_else. rewrite !Z.leb_le.
    destruct (nonempty (place x)), (nonempty (place y)); cbn [xorb]; try (left; lia); try (right; lia);
      pose proof (Htot (place x) (place y)); pose proof (Htot (meter_id x) (meter_id y)); pose proof (Hsym (place x) (place y));
      pose proof (Hsym (place y) (place x)); cases; bool_facts; lia. }
  pose proof (sort_by_sorted le Ht points) as Hs. pose proof (sort_by_perm le points) as Hp.
  change (sortMeteringPoints localeCompare numericCompare points SortLocation) with (sort_by le points).
  revert Hs Hp. generalize (sort_by le points) as s. intros s Hs Hp.
  assert (∃ named unnamed, s = (named ++ unnamed)%list ∧ Forall (λ p, nonempty (place p) = true) named ∧
    Forall (λ p, nonempty (place p) = false) unnamed) as (named & unnamed & -> & ? & ?); [|by exists named, unnamed].
  clear Hp. induction Hs as [|x s Hs IH Hx]; [by exists [], []|].
  destruct IH as (named & unnamed & -> & Hn & Hu). destruct (nonempty (place x)) eqn:Ex.
  - exists (x :: named), unnamed. split_and!; [done|by constructor|done].
  - destruct named as [|y named]; [exists [], (x :: unnamed); split_and!; [done|done|by constructor]|].
    inversion Hx as [|? ? Hxy]; subst. inversion Hn as [|? ? Hy _]; subst. unfold le, point_compare in Hxy.
    rewrite Ex, Hy in Hxy. done.
Qed.

(** A saved point whose texts are trimmed, opened in the form and saved, is sent as it is. *)
Lemma point_form_roundtrip p :
  (∀ s, secondary_meter_id p = Some s → s ≠ "" ∧ no_space s = true) →
  let sent := toMeteringPointPayload (mpFormOf p) in
  in_zev sent = mp_zev p ∧ in_meter_id sent = meter_id p ∧ in_secondary_meter_id sent = secondary_meter_id p ∧
  in_meter_type sent = meter_type p ∧ in_is_active sent = is_active p ∧ in_building sent = Some (building p).
Proof.
  intros H. unfold toMeteringPointPayload, mpFormOf. cbn. split_and!; try done.
  unfold normalizeSecondaryMeterId. destruct (secondary_meter_id p) as [s|]; [|done]. cbn [mbind option_bind from_option id].
  destruct (H s eq_refl) as [Hs Hns]. rewrite trim_no_space by done. by destruct (String.eqb_spec s "").
Qed.
