(* ===== verification/MeteringActions.v ===== *)
(** The forms and writes of the metering points page: useMeteringPointActions of
    features/meteringPoints/useMeteringPointActions.tsx, as MeteringPointsPage.tsx mounts it.

    One step is a handler of the mounted page on its last render, an answer of the server, an
    end of the session, or a change that mounts the page anew with fresh forms. The page is
    keyed by the account, the community and the rights, so a mounted page has one write
    scope. A flight is a write waited for: the scope and the form it was sent from, and
    whether the session that sent it still lasts (its entry is in the mutation cache). The
    buttons are also disabled while a write of their own runs; the steps do not rely on it. *)

From S2P Require Import Prelude JsString JsNumber Json QueryKeys ApiErrors LiveEnergy Editors ImportWizard MeteringPoints.
Local Open Scope string_scope.

Record BuildingInput := {
  bi_zev : string; bi_name : string; bi_address_line1 : string; bi_address_line2 : string; bi_postal_code : string; bi_city : string;
  bi_egid : option Z; bi_notes : string; bi_latitude : option string; bi_longitude : option string;
}.

Inductive DeleteDataMode := DeleteRange | DeleteAll.

Record deletion_payload := { delete_all : bool; date_from : option string; date_to : option string }.

Inductive point_write :=
  | SavePoint (id : option string) (payload : MeteringPointInput)
  | DeletePoint (id : string)
  | SaveAssignment (id : option string) (payload : MeteringPointAssignmentInput)
  | DeleteAssignment (id : string)
  | SaveBuilding (id : option string) (input : BuildingInput)
  | DeleteBuilding (id : string)
  | DeleteReadings (meteringPointId : string) (payload : deletion_payload).

Record flight := { fl_write : point_write; fl_scope : WriteScope; fl_generation : nat; fl_owned : bool }.

Record mp_dialog := {
  mpForm : MeteringPointInput; editingMpId : option string; showMpModal : bool; mpFormGeneration : nat; mpFieldErrors : list (string * string);
}.
Record assign_dialog := {
  assignForm : MeteringPointAssignmentInput; editingAssignId : option string; showAssignModal : bool; selectedMpId : option string;
  assignHasOpenEndedWarning : bool;
}.
Record data_dialog := {
  showDeleteDataModal : bool; deleteDataTarget : option MeteringPoint; deleteDataMode : DeleteDataMode; deleteDataFrom : string; deleteDataTo : string;
}.
Record building_dialog := { editingBuilding : option Building; showBuildingModal : bool }.

Record points_page := {
  page_scope : WriteScope; mounted : bool; mp : mp_dialog; assign : assign_dialog; data : data_dialog; bld : building_dialog;
  question : option (point_write * WriteScope); flights : list flight; stale : list key; toasts : list message;
}.

Section Hook.
Context (t : string → list (string * json) → string) (isManagedScope canDeleteData : bool) (todayIso : string)
  (assignments : string → list MeteringPointAssignment).

(** ** Updates *)

Definition with_mp (m : mp_dialog) (s : points_page) : points_page :=
  {| page_scope := page_scope s; mounted := mounted s; mp := m; assign := assign s; data := data s; bld := bld s; question := question s;
     flights := flights s; stale := stale s; toasts := toasts s |}.
Definition with_assign (a : assign_dialog) (s : points_page) : points_page :=
  {| page_scope := page_scope s; mounted := mounted s; mp := mp s; assign := a; data := data s; bld := bld s; question := question s;
     flights := flights s; stale := stale s; toasts := toasts s |}.
Definition with_data (d : data_dialog) (s : points_page) : points_page :=
  {| page_scope := page_scope s; mounted := mounted s; mp := mp s; assign := assign s; data := d; bld := bld s; question := question s;
     flights := flights s; stale := stale s; toasts := toasts s |}.
Definition with_building (b : building_dialog) (s : points_page) : points_page :=
  {| page_scope := page_scope s; mounted := mounted s; mp := mp s; assign := assign s; data := data s; bld := b; question := question s;
     flights := flights s; stale := stale s; toasts := toasts s |}.
Definition with_flights (q : option (point_write * WriteScope)) (fs : list flight) (s : points_page) : points_page :=
  {| page_scope := page_scope s; mounted := mounted s; mp := mp s; assign := assign s; data := data s; bld := bld s; question := q;
     flights := fs; stale := stale s; toasts := toasts s |}.
Definition invalidate (ks : list key) (s : points_page) : points_page :=
  {| page_scope := page_scope s; mounted := mounted s; mp := mp s; assign := assign s; data := data s; bld := bld s; question := question s;
     flights := flights s; stale := (stale s ++ ks)%list; toasts := toasts s |}.
Definition pushToast (text : string) (tn : message_tone) (s : points_page) : points_page :=
  {| page_scope := page_scope s; mounted := mounted s; mp := mp s; assign := assign s; data := data s; bld := bld s; question := question s;
     flights := flights s; stale := stale s; toasts := (toasts s ++ [{| msg_text := text; msg_tone := tn |}])%list |}.

Definition currentScope (s : points_page) : option nat := if mounted s then Some (scope_id (page_scope s)) else None.
(** [isCurrent(scope) && canWrite] of the handlers. *)
Definition may_write (s : points_page) : bool := isCurrent (currentScope s) (page_scope s) && canWrite (page_scope s).
Definition ownsCurrentSession (f : flight) : bool := fl_owned f.

(** ** The metering point form *)

Definition setMpForm (f : MeteringPointInput → MeteringPointInput) (m : mp_dialog) : mp_dialog :=
  {| mpForm := f (mpForm m); editingMpId := editingMpId m; showMpModal := showMpModal m; mpFormGeneration := S (mpFormGeneration m);
     mpFieldErrors := [] |}.

Definition form_in (zev : string) (b : option string) : MeteringPointInput :=
  let d := defaultMeteringPointForm in
  {| in_zev := zev; in_meter_id := in_meter_id d; in_secondary_meter_id := in_secondary_meter_id d; in_meter_type := in_meter_type d;
     in_is_active := in_is_active d; in_location_description := in_location_description d; in_building := b;
     in_has_behind_meter_generation := in_has_behind_meter_generation d |}.

Definition show_mp (id : option string) (m : mp_dialog) : mp_dialog :=
  {| mpForm := mpForm m; editingMpId := id; showMpModal := true; mpFormGeneration := mpFormGeneration m; mpFieldErrors := mpFieldErrors m |}.

Definition openCreateMpModal (s : points_page) : points_page :=
  if negb (may_write s) then s
  else with_mp (show_mp None (setMpForm (λ previous,
         form_in (if isManagedScope then default "" (selectedZevId (page_scope s)) else in_zev previous) None) (mp s))) s.

Definition openCreateMpModalInBuilding (buildingId : string) (s : points_page) : points_page :=
  if negb (may_write s) then s
  else with_mp (show_mp None (setMpForm (λ _, form_in (default "" (selectedZevId (page_scope s))) (Some buildingId)) (mp s))) s.

Definition openEditMpModal (point : MeteringPoint) (s : points_page) : points_page :=
  if negb (may_write s) then s
  else with_mp {| mpForm := mpFormOf point; editingMpId := Some (mp_id point); showMpModal := true; mpFormGeneration := S (mpFormGeneration (mp s));
                  mpFieldErrors := [] |} s.

Definition closeMpModal (s : points_page) : points_page :=
  with_mp {| mpForm := defaultMeteringPointForm; editingMpId := None; showMpModal := false; mpFormGeneration := S (mpFormGeneration (mp s));
             mpFieldErrors := [] |} s.

(** ** Sending *)

Definition save_failed_key (w : point_write) : string :=
  match w with
  | SavePoint _ _ => "pages.meteringPoints.messages.saveFailed"
  | DeletePoint _ => "pages.meteringPoints.messages.deleteFailed"
  | SaveAssignment _ _ => "pages.meteringPoints.messages.assignmentSaveFailed"
  | DeleteAssignment _ => "pages.meteringPoints.messages.assignmentRemoveFailed"
  | SaveBuilding _ _ | DeleteBuilding _ => "pages.meteringPoints.buildings.saveFailed"
  | DeleteReadings _ _ => "pages.meteringPoints.deleteData.failed"
  end.

Definition response_data (e : caught) : option json := match e with AxiosError _ d => d | OtherError => None end.

(** [onError] of the mutation. *)
Definition on_error (f : flight) (e : caught) (s : points_page) : points_page :=
  if negb (isCurrent (currentScope s) (fl_scope f)) || negb (canWrite (fl_scope f)) then s
  else let failed := pushToast (formatApiError e (t (save_failed_key (fl_write f)) [])) MsgError s in
  match fl_write f with
  | SavePoint _ _ =>
      if negb (fl_generation f =? mpFormGeneration (mp s))%nat then s
      else let fields := meteringPointFieldErrors (response_data e) in let m := mp s in
           let shown := with_mp {| mpForm := mpForm m; editingMpId := editingMpId m; showMpModal := showMpModal m; mpFormGeneration := mpFormGeneration m;
                                   mpFieldErrors := fields |} in
           match fields with [] => shown failed | _ => shown s end
  | _ => failed
  end.

(** [mutationFn] throws before it sends. *)
Definition writable (sc : WriteScope) (w : point_write) (s : points_page) : bool :=
  assertWritable (currentScope s) sc isManagedScope && match w with DeleteReadings _ _ => canDeleteData | _ => true end.

Definition mutate (w : point_write) (sc : WriteScope) (s : points_page) : points_page :=
  let f := {| fl_write := w; fl_scope := sc; fl_generation := mpFormGeneration (mp s); fl_owned := true |} in
  if writable sc w s then with_flights (question s) (flights s ++ [f])%list s else on_error f OtherError s.

Definition submitMpForm (s : points_page) : points_page :=
  if negb (may_write s) then s
  else let zevForSubmit := in_zev (mpForm (mp s)) in
       if negb (nonempty zevForSubmit) || (isManagedScope && negb (bool_decide (selectedZevId (page_scope s) = Some zevForSubmit)))
       then pushToast (t "pages.meteringPoints.messages.selectZev" []) MsgError s
       else mutate (SavePoint (editingMpId (mp s)) (toMeteringPointPayload (mpForm (mp s)))) (page_scope s) s.

(** ** Assignments *)

Definition openCreateAssignModal (meteringPointId : string) (s : points_page) : points_page :=
  if negb (may_write s) then s
  else let g := getNextAssignmentGuidance (assignments meteringPointId) todayIso in
       let d := defaultAssignmentForm todayIso meteringPointId in
       with_assign {| assignForm := {| ai_metering_point := ai_metering_point d; ai_participant := ai_participant d; ai_valid_from := suggestedValidFrom g;
                                       ai_valid_to := ai_valid_to d; ai_allocation_mode := ai_allocation_mode d |};
                      editingAssignId := None; showAssignModal := true; selectedMpId := Some meteringPointId;
                      assignHasOpenEndedWarning := hasOpenEndedAssignment g |} s.

Definition openEditAssignModal (a : MeteringPointAssignment) (s : points_page) : points_page :=
  if negb (may_write s) then s
  else with_assign {| assignForm := assignFormOf a; editingAssignId := Some (as_id a); showAssignModal := true; selectedMpId := Some (metering_point a);
                      assignHasOpenEndedWarning := false |} s.

Definition closed_assign : assign_dialog :=
  {| assignForm := defaultAssignmentForm todayIso ""; editingAssignId := None; showAssignModal := false; selectedMpId := None;
     assignHasOpenEndedWarning := false |}.
Definition closeAssignModal (s : points_page) : points_page := with_assign closed_assign s.

Definition setAssignForm (f : MeteringPointAssignmentInput → MeteringPointAssignmentInput) (s : points_page) : points_page :=
  let a := assign s in
  with_assign {| assignForm := f (assignForm a); editingAssignId := editingAssignId a; showAssignModal := showAssignModal a; selectedMpId := selectedMpId a;
                 assignHasOpenEndedWarning := assignHasOpenEndedWarning a |} s.

Definition submitAssignForm (s : points_page) : points_page :=
  if negb (may_write s) then s
  else let f := assignForm (assign s) in
       if negb (nonempty (ai_participant f)) then pushToast (t "pages.meteringPoints.messages.selectParticipant" []) MsgError s
       else if negb (nonempty (ai_valid_from f)) then pushToast (t "pages.meteringPoints.messages.missingValidFrom" []) MsgError s
       else mutate (SaveAssignment (editingAssignId (assign s)) (assignPayload f)) (page_scope s) s.

(** ** Readings of a point *)

Definition closed_data : data_dialog :=
  {| showDeleteDataModal := false; deleteDataTarget := None; deleteDataMode := DeleteAll; deleteDataFrom := ""; deleteDataTo := "" |}.
Definition closeDeleteDataModal (s : points_page) : points_page := with_data closed_data s.

Definition openDeleteDataModal (point : MeteringPoint) (s : points_page) : points_page :=
  if negb (may_write s) || negb canDeleteData then s
  else with_data {| showDeleteDataModal := true; deleteDataTarget := Some point; deleteDataMode := DeleteAll; deleteDataFrom := ""; deleteDataTo := "" |} s.

Definition editDeleteData (m : DeleteDataMode) (from to : string) (s : points_page) : points_page :=
  let d := data s in
  with_data {| showDeleteDataModal := showDeleteDataModal d; deleteDataTarget := deleteDataTarget d; deleteDataMode := m; deleteDataFrom := from;
               deleteDataTo := to |} s.

Definition submitDeleteData (s : points_page) : points_page :=
  let d := data s in
  match deleteDataTarget d with
  | Some target =>
      if negb (may_write s) || negb canDeleteData then s
      else let ask p := with_flights (Some (DeleteReadings (mp_id target) p, page_scope s)) (flights s) s in
      match deleteDataMode d with
      | DeleteRange =>
          if negb (nonempty (deleteDataFrom d)) || negb (nonempty (deleteDataTo d))
          then pushToast (t "pages.meteringPoints.deleteData.validationDatesRequired" []) MsgError s
          else if str_lt (deleteDataTo d) (deleteDataFrom d) then pushToast (t "pages.meteringPoints.deleteData.validationDateOrder" []) MsgError s
          else ask {| delete_all := false; date_from := Some (deleteDataFrom d); date_to := Some (deleteDataTo d) |}
      | DeleteAll => ask {| delete_all := true; date_from := None; date_to := None |}
      end
  | None => s
  end.

(** ** Buildings *)

Definition openBuildingModal (b : option Building) (s : points_page) : points_page :=
  if negb (may_write s) then s else with_building {| editingBuilding := b; showBuildingModal := true |} s.
Definition closeBuildingModal (s : points_page) : points_page := with_building {| editingBuilding := None; showBuildingModal := false |} s.

(** The request puts a new building into the community of its scope. *)
Definition building_request (id : option string) (input : BuildingInput) (sc : WriteScope) : BuildingInput :=
  match id with
  | Some _ => input
  | None => {| bi_zev := default "" (selectedZevId sc); bi_name := bi_name input; bi_address_line1 := bi_address_line1 input;
               bi_address_line2 := bi_address_line2 input; bi_postal_code := bi_postal_code input; bi_city := bi_city input; bi_egid := bi_egid input;
               bi_notes := bi_notes input; bi_latitude := bi_latitude input; bi_longitude := bi_longitude input |}
  end.

Definition submitBuilding (input : BuildingInput) (s : points_page) : points_page :=
  let id := building_id <$> editingBuilding (bld s) in
  mutate (SaveBuilding id (building_request id input (page_scope s))) (page_scope s) s.

(** ** Questions *)

(** The deletion of a point, an assignment or a building is asked about first. *)
Definition ask (w : point_write) (s : points_page) : points_page := with_flights (Some (w, page_scope s)) (flights s) s.

Definition answer_question (yes : bool) (s : points_page) : points_page :=
  match question s with
  | Some (w, sc) => let s := with_flights None (flights s) s in if yes then mutate w sc s else s
  | None => s
  end.

(** ** Answers *)

(** What a write makes stale, by the community it was sent for. *)
Definition or_undefined (z : option string) : option string := if truthy_str z then z else None.
Definition stale_after (w : point_write) (z : option string) : list key :=
  let points := metering_key (MeterPoints (or_undefined z)) in
  let buildings := zev_key (ZevBuildings (default "" z)) in
  match w with
  | SavePoint _ _ => [points; buildings]
  | DeletePoint _ => [strs ["metering"]; buildings]
  | SaveAssignment _ _ | DeleteAssignment _ =>
      [metering_key (MeterPointAssignments None); points; zev_key (ZevParticipants (or_undefined z)); buildings]
  | SaveBuilding _ _ | DeleteBuilding _ => [buildings; strs ["zev"; "partyRoles"]; points]
  | DeleteReadings _ _ => invalidateReadingQueries
  end.

Definition success_text (w : point_write) (counts : list (string * json)) : string :=
  match w with
  | SavePoint (Some _) _ => t "pages.meteringPoints.messages.updated" []
  | SavePoint None _ => t "pages.meteringPoints.messages.created" []
  | DeletePoint _ => t "pages.meteringPoints.messages.deleted" []
  | SaveAssignment (Some _) _ => t "pages.meteringPoints.messages.assignmentUpdated" []
  | SaveAssignment None _ => t "pages.meteringPoints.messages.assignmentCreated" []
  | DeleteAssignment _ => t "pages.meteringPoints.messages.assignmentRemoved" []
  | SaveBuilding _ _ => t "pages.meteringPoints.buildings.saved" []
  | DeleteBuilding _ => t "pages.meteringPoints.buildings.deleted" []
  | DeleteReadings _ _ => t "pages.meteringPoints.deleteData.success" counts
  end.

Definition closes (w : point_write) (s : points_page) : points_page :=
  match w with
  | SavePoint _ _ => closeMpModal s
  | SaveAssignment _ _ => closeAssignModal s
  | SaveBuilding _ _ => closeBuildingModal s
  | DeleteReadings _ _ => closeDeleteDataModal s
  | _ => s
  end.

Definition on_success (f : flight) (counts : list (string * json)) (s : points_page) : points_page :=
  if negb (ownsCurrentSession f) then s
  else let s := invalidate (stale_after (fl_write f) (selectedZevId (fl_scope f))) s in
       let other := match fl_write f with SavePoint _ _ => negb (fl_generation f =? mpFormGeneration (mp s))%nat | _ => false end in
       if negb (isCurrent (currentScope s) (fl_scope f)) || other then s
       else pushToast (success_text (fl_write f) counts) MsgSuccess (closes (fl_write f) s).

(** An answer: the counts a deletion of readings reports, or the error. *)
Definition answered (i : nat) (a : list (string * json) + caught) (s : points_page) : points_page :=
  match flights s !! i with
  | None => s
  | Some f =>
      let s := with_flights (question s) (delete i (flights s)) s in
      match a with inl counts => on_success f counts s | inr e => on_error f e s end
  end.

(** ** Steps *)

Inductive points_event :=
  | OpenCreatePoint | OpenCreatePointIn (buildingId : string) | OpenEditPoint (p : MeteringPoint) | EditPoint (f : MeteringPointInput → MeteringPointInput)
  | ClosePoint | SubmitPoint | OpenCreateAssign (meteringPointId : string) | OpenEditAssign (a : MeteringPointAssignment)
  | EditAssign (f : MeteringPointAssignmentInput → MeteringPointAssignmentInput) | CloseAssign | SubmitAssign | OpenDeleteData (p : MeteringPoint)
  | EditDeleteData (m : DeleteDataMode) (from to : string) | CloseDeleteData | SubmitDeleteData | OpenBuilding (b : option Building)
  | CloseBuilding | SubmitBuilding (input : BuildingInput) | AskDeletePoint (id : string) | AskDeleteAssignment (id : string)
  | AskDeleteBuilding (id : string) | AnswerQuestion (yes : bool) | Answered (i : nat) (a : list (string * json) + caught)
  | Unmounted | SessionEnded | Mounted (z : option string) (w : bool) (account : option Z).

Definition fresh_page (sc : WriteScope) (fs : list flight) (st : list key) (ms : list message) : points_page :=
  {| page_scope := sc; mounted := true;
     mp := {| mpForm := defaultMeteringPointForm; editingMpId := None; showMpModal := false; mpFormGeneration := 0; mpFieldErrors := [] |};
     assign := closed_assign; data := closed_data; bld := {| editingBuilding := None; showBuildingModal := false |}; question := None;
     flights := fs; stale := st; toasts := ms |}.

Definition unmounted (s : points_page) : points_page :=
  {| page_scope := page_scope s; mounted := false; mp := mp s; assign := assign s; data := data s; bld := bld s; question := None;
     flights := flights s; stale := stale s; toasts := toasts s |}.

Definition end_session (f : flight) : flight :=
  {| fl_write := fl_write f; fl_scope := fl_scope f; fl_generation := fl_generation f; fl_owned := false |}.

(** A scope object is one of its own: its identity is the next one. *)
Definition next_scope (z : option string) (w : bool) (account : option Z) (s : points_page) : WriteScope :=
  {| scope_id := S (scope_id (page_scope s)); selectedZevId := z; canWrite := w; accountId := account; scopeKey := None |}.

Definition points_step (s : points_page) (e : points_event) : points_page :=
  match e with
  | Answered i a => answered i a s
  | Unmounted => unmounted s
  | SessionEnded => with_flights (question s) (map end_session (flights s)) s
  | Mounted z w account => fresh_page (next_scope z w account s) (flights s) (stale s) (toasts s)
  | _ =>
      if negb (mounted s) then s
      else match e with
      | OpenCreatePoint => openCreateMpModal s
      | OpenCreatePointIn b => openCreateMpModalInBuilding b s
      | OpenEditPoint p => openEditMpModal p s
      | EditPoint f => with_mp (setMpForm f (mp s)) s
      | ClosePoint => closeMpModal s
      | SubmitPoint => submitMpForm s
      | OpenCreateAssign m => openCreateAssignModal m s
      | OpenEditAssign a => openEditAssignModal a s
      | EditAssign f => setAssignForm f s
      | CloseAssign => closeAssignModal s
      | SubmitAssign => submitAssignForm s
      | OpenDeleteData p => openDeleteDataModal p s
      | EditDeleteData m a b => editDeleteData m a b s
      | CloseDeleteData => closeDeleteDataModal s
      | SubmitDeleteData => submitDeleteData s
      | OpenBuilding b => openBuildingModal b s
      | CloseBuilding => closeBuildingModal s
      | SubmitBuilding input => submitBuilding input s
      | AskDeletePoint id => ask (DeletePoint id) s
      | AskDeleteAssignment id => ask (DeleteAssignment id) s
      | AskDeleteBuilding id => ask (DeleteBuilding id) s
      | AnswerQuestion yes => answer_question yes s
      | _ => s
      end
  end.

Definition points_run (sc : WriteScope) (es : list points_event) : points_page := foldl points_step (fresh_page sc [] [] []) es.

(** ** The form on screen and the form that was sent *)

Definition same_form (a b : mp_dialog) : Prop :=
  mpForm a = mpForm b ∧ editingMpId a = editingMpId b ∧ mpFormGeneration a = mpFormGeneration b.

(** A dialog that is another one has a later generation. *)
Definition kept_or_later (a b : mp_dialog) : Prop := same_form a b ∨ (mpFormGeneration a < mpFormGeneration b)%nat.

Lemma same_form_refl a : same_form a a.
Proof. done. Qed.

(** A flight of the mounted page's scope carries that scope, a generation that was, and, for
    a point whose form was not touched since, just the values on screen. *)
Record page_inv (s : points_page) : Prop := {
  inv_scopes : ∀ f, f ∈ flights s → (scope_id (fl_scope f) <= scope_id (page_scope s))%nat;
  inv_flights : ∀ f, f ∈ flights s → scope_id (fl_scope f) = scope_id (page_scope s) →
    fl_scope f = page_scope s ∧ (fl_generation f <= mpFormGeneration (mp s))%nat ∧
    ∀ id p, fl_write f = SavePoint id p → fl_generation f = mpFormGeneration (mp s) →
      id = editingMpId (mp s) ∧ p = toMeteringPointPayload (mpForm (mp s));
  inv_question : ∀ w sc, question s = Some (w, sc) → sc = page_scope s ∧ (∀ id p, w ≠ SavePoint id p) ∧ (∀ id p, w ≠ SaveAssignment id p) ∧
    (∀ b, w ≠ SaveBuilding None b) ∧
    ∀ m p, w = DeleteReadings m p → canDeleteData = true ∧
      if delete_all p then date_from p = None ∧ date_to p = None
      else ∃ a b, date_from p = Some a ∧ date_to p = Some b ∧ nonempty a = true ∧ nonempty b = true ∧ str_le a b = true;
}.

(** A step that keeps the scope, the flights and the question. *)
Lemma inv_dialog s s' :
  page_inv s → page_scope s' = page_scope s → flights s' = flights s → question s' = question s → kept_or_later (mp s) (mp s') → page_inv s'.
Proof.
  intros [Hs Hf Hq] Es Ef Eq Hk. split; rewrite ?Es, ?Ef, ?Eq; [done| |done]. intros f Hin E. destruct (Hf f Hin E) as (? & Hle & Hp).
  destruct Hk as [(E1 & E2 & E3)|Hlt]; [|split_and!; [done|lia|intros; lia]]. rewrite <- E3. split_and!; [done|done|].
  intros id p Hw Hg. rewrite <- E1, <- E2. by apply Hp.
Qed.

Lemma inv_same s s' :
  page_inv s → page_scope s' = page_scope s → flights s' = flights s → question s' = question s → mp s' = mp s → page_inv s'.
Proof. intros H Es Ef Eq Em. apply (inv_dialog s); [done..|]. rewrite Em. by left. Qed.

Lemma on_error_keeps f e s :
  page_scope (on_error f e s) = page_scope s ∧ flights (on_error f e s) = flights s ∧ question (on_error f e s) = question s ∧
  mounted (on_error f e s) = mounted s ∧ same_form (mp s) (mp (on_error f e s)) ∧ showMpModal (mp (on_error f e s)) = showMpModal (mp s).
Proof. unfold on_error. repeat case_match; by split_and!. Qed.

Lemma on_error_inv f e s : page_inv s → page_inv (on_error f e s).
Proof. intros H. destruct (on_error_keeps f e s) as (? & ? & ? & ? & ? & ?). apply (inv_dialog s); [done..|by left]. Qed.

Lemma mutate_inv w s :
  page_inv s → (∀ id p, w = SavePoint id p → id = editingMpId (mp s) ∧ p = toMeteringPointPayload (mpForm (mp s))) →
  page_inv (mutate w (page_scope s) s).
Proof.
  intros H Hw. unfold mutate. case_match; [|by apply on_error_inv]. destruct H as [Hs Hf Hq]. split; cbn.
  - intros f [Hin| ->%list_elem_of_singleton]%elem_of_app; [by apply Hs|done].
  - intros f [Hin| ->%list_elem_of_singleton]%elem_of_app; [by apply Hf|]. intros _. split_and!; [done|done|]. intros id p E _. by apply Hw.
  - done.
Qed.

Lemma question_inv w s :
  page_inv s → (∀ id p, w ≠ SavePoint id p) → (∀ id p, w ≠ SaveAssignment id p) → (∀ b, w ≠ SaveBuilding None b) →
  (∀ m p, w = DeleteReadings m p → canDeleteData = true ∧
     if delete_all p then date_from p = None ∧ date_to p = None
     else ∃ a b, date_from p = Some a ∧ date_to p = Some b ∧ nonempty a = true ∧ nonempty b = true ∧ str_le a b = true) →
  page_inv (ask w s).
Proof. intros [Hs Hf Hq] H1 H2 H3 H4. split; [exact Hs|exact Hf|]. intros w' sc [= <- <-]. by split_and!. Qed.

Lemma submitDeleteData_inv s : page_inv s → page_inv (submitDeleteData s).
Proof.
  intros H. unfold submitDeleteData. destruct (deleteDataTarget (data s)) as [target|]; [|done]. case_match eqn:E; [done|]. bool_facts.
  destruct (deleteDataMode (data s)).
  - case_match eqn:En; [by apply (inv_same s)|]. case_match eqn:Eo; [by apply (inv_same s)|]. bool_facts. apply question_inv; try done.
    intros m p [= <- <-]. split; [done|]. cbn. do 2 eexists. split_and!; [done..|]. unfold str_le. by rewrite Eo.
  - apply question_inv; try done. by intros m p [= <- <-].
Qed.

Lemma answer_question_inv yes s : page_inv s → page_inv (answer_question yes s).
Proof.
  intros H. unfold answer_question. destruct (question s) as [[w sc]|] eqn:Eq; [|done]. destruct (inv_question _ H w sc Eq) as (-> & Hw & _).
  assert (page_inv (with_flights None (flights s) s)) as H' by (destruct H as [Hs Hf Hq]; by split).
  destruct yes; [|done]. apply (mutate_inv w (with_flights None (flights s) s) H'). intros id p ->. by destruct (Hw id p).
Qed.

Lemma drop_flight_inv i s : page_inv s → page_inv (with_flights (question s) (delete i (flights s)) s).
Proof.
  intros [Hs Hf Hq]. assert (∀ f, f ∈ delete i (flights s) → f ∈ flights s) as Hd.
  { intros f Hf'. eapply elem_of_submseteq; [exact Hf'|apply sublist_submseteq, sublist_delete]. }
  split; cbn; [| |done].
  - intros f Hin. by apply Hs, Hd.
  - intros f Hin E. apply Hf; [by apply Hd|done].
Qed.

Lemma on_success_inv f counts s : page_inv s → page_inv (on_success f counts s).
Proof.
  intros H. unfold on_success. case_match; [done|]. case_match; [by apply (inv_same s)|]. destruct (fl_write f); cbn [closes]; try by apply (inv_same s).
  apply (inv_dialog s); [done..|]. right. cbn. lia.
Qed.

Lemma answered_inv i a s : page_inv s → page_inv (answered i a s).
Proof.
  intros H. unfold answered. case_match; [|done]. apply (drop_flight_inv i) in H. destruct a; [by apply on_success_inv|by apply on_error_inv].
Qed.

Lemma later_inv s m : page_inv s → mpFormGeneration m = S (mpFormGeneration (mp s)) → page_inv (with_mp m s).
Proof. intros H E. apply (inv_dialog s); [done..|]. right. cbn. lia. Qed.

Lemma fresh_inv sc fs st ms : (∀ f, f ∈ fs → (scope_id (fl_scope f) < scope_id sc)%nat) → page_inv (fresh_page sc fs st ms).
Proof. intros Hf. split; cbn; [|intros f Hin E|done]; [intros f Hin|]; specialize (Hf f Hin); lia. Qed.

Lemma points_step_inv s e : page_inv s → page_inv (points_step s e).
Proof.
  intros H. destruct e; cbn [points_step]; try (case_match; [done|]).
  - unfold openCreateMpModal. case_match; [done|]. by apply later_inv.
  - unfold openCreateMpModalInBuilding. case_match; [done|]. by apply later_inv.
  - unfold openEditMpModal. case_match; [done|]. by apply later_inv.
  - by apply later_inv.
  - by apply later_inv.
  - unfold submitMpForm. case_match; [done|]. case_match; [by apply (inv_same s)|]. apply mutate_inv; [done|]. by intros id p [= <- <-].
  - unfold openCreateAssignModal. case_match; [done|]. by apply (inv_same s).
  - unfold openEditAssignModal. case_match; [done|]. by apply (inv_same s).
  - by apply (inv_same s).
  - by apply (inv_same s).
  - unfold submitAssignForm. repeat (case_match; [try done; by apply (inv_same s)|]). by apply mutate_inv.
  - unfold openDeleteDataModal. case_match; [done|]. by apply (inv_same s).
  - by apply (inv_same s).
  - by apply (inv_same s).
  - by apply submitDeleteData_inv.
  - unfold openBuildingModal. case_match; [done|]. by apply (inv_same s).
  - by apply (inv_same s).
  - by apply mutate_inv.
  - by apply question_inv.
  - by apply question_inv.
  - by apply question_inv.
  - by apply answer_question_inv.
  - by apply answered_inv.
  - destruct H as [Hs Hf Hq]. by split.
  - destruct H as [Hs Hf Hq]. split; [| |exact Hq]; cbn; intros f (g & -> & Hg)%list_elem_of_fmap; [exact (Hs g Hg)|]. intros E. by apply (Hf g Hg).
  - apply fresh_inv. intros f Hin. pose proof (inv_scopes _ H f Hin). cbn. lia.
Qed.

Lemma points_run_inv sc es : page_inv (points_run sc es).
Proof.
  unfold points_run. assert (page_inv (fresh_page sc [] [] [])) as Hi by (apply fresh_inv; by intros f ?%elem_of_nil). revert Hi.
  generalize (fresh_page sc [] [] []). induction es as [|e es IH]; intros s Hs; [done|]. apply IH. by apply points_step_inv.
Qed.

(** C10. An answer touches the point's dialog only where its own form is still on screen, exactly
    as it was sent: a success closes it, an error only marks its fields. The dialog a later
    click opened or a later keystroke changed, and one of another community, stays. A
    success of the form on screen does close it. *)
Theorem point_form_kept sc es i a :
  let s := points_run sc es in
  let s' := points_step s (Answered i a) in
  (mp s' = mp s ∨
   ∃ f id p, flights s !! i = Some f ∧ fl_write f = SavePoint id p ∧ mounted s = true ∧ fl_scope f = page_scope s ∧
     id = editingMpId (mp s) ∧ p = toMeteringPointPayload (mpForm (mp s)) ∧
     match a with
     | inl _ => showMpModal (mp s') = false
     | inr _ => same_form (mp s) (mp s') ∧ showMpModal (mp s') = showMpModal (mp s)
     end) ∧
  (∀ f id p counts, flights s !! i = Some f → fl_write f = SavePoint id p → a = inl counts → fl_owned f = true →
     mounted s = true → fl_scope f = page_scope s → fl_generation f = mpFormGeneration (mp s) → showMpModal (mp s') = false).
Proof.
  cbn zeta. set (s := points_run sc es). pose proof (points_run_inv sc es : page_inv s) as H. cbn [points_step]. unfold answered. split.
  - destruct (flights s !! i) as [f|] eqn:Ef; [|by left]. pose proof (list_elem_of_lookup_2 _ _ _ Ef) as Hin.
    assert (isCurrent (currentScope s) (fl_scope f) = true → mounted s = true ∧ fl_scope f = page_scope s ∧
      ∀ id p, fl_write f = SavePoint id p → fl_generation f = mpFormGeneration (mp s) →
        id = editingMpId (mp s) ∧ p = toMeteringPointPayload (mpForm (mp s))) as Hc.
    { unfold isCurrent, currentScope. intros E%bool_decide_eq_true. destruct (mounted s); [|done]. injection E as E. split; [done|].
      destruct (inv_flights _ H f Hin ltac:(done)) as (? & _ & ?). done. }
    destruct a as [counts|e].
    + unfold on_success. case_match; [by left|]. cbn [page_scope mounted mp]. case_match eqn:E; [by left|]. bool_facts.
      destruct (fl_write f) as [id p| | | | | |] eqn:Ew; try by left. right. bool_facts. destruct Hc as (? & ? & Hp); [done|].
      destruct (Hp id p) as [-> ->]; [done|done|]. by exists f, (editingMpId (mp s)), (toMeteringPointPayload (mpForm (mp s))).
    + unfold on_error. case_match eqn:E; [by left|]. destruct (fl_write f) as [id p| | | | | |] eqn:Ew; try by left. case_match eqn:Eg; [by left|].
      bool_facts. right. destruct Hc as (? & ? & Hp); [done|]. destruct (Hp id p) as [-> ->]; [done|done|].
      exists f, (editingMpId (mp s)), (toMeteringPointPayload (mpForm (mp s))). split_and!; try done; by case_match.
  - intros f id p counts -> Hw -> Ho Hm Hs Hg. unfold on_success, ownsCurrentSession, isCurrent, currentScope. rewrite Ho, Hw. cbn. rewrite Hm, Hs, Hg.
    rewrite bool_decide_true, Nat.eqb_refl by done. done.
Qed.

(** ** What is sent *)

Definition sent (s s' : points_page) (f : flight) : Prop := flights s' = (flights s ++ [f])%list.

Lemma app_one_neq {A} (l : list A) x : l ≠ (l ++ [x])%list.
Proof. intros E. apply (f_equal length) in E. rewrite length_app in E. cbn in E. lia. Qed.

Lemma mutate_sent w s f :
  sent s (mutate w (page_scope s) s) f →
  fl_write f = w ∧ fl_scope f = page_scope s ∧ mounted s = true ∧ canWrite (page_scope s) = true ∧
  (isManagedScope = true → truthy_str (selectedZevId (page_scope s)) = true) ∧
  match w with DeleteReadings _ _ => canDeleteData = true | _ => True end.
Proof.
  unfold sent, mutate. case_match eqn:E.
  - cbn. intros E'%app_inv_head. injection E' as <-. unfold writable, assertWritable, isCurrent, currentScope in E. bool_facts.
    destruct (mounted s); [|by rewrite bool_decide_false in *]. split_and!; try done.
    + intros ->. by destruct (truthy_str _).
    + by destruct w.
  - intros E'. destruct (on_error_keeps {| fl_write := w; fl_scope := page_scope s; fl_generation := mpFormGeneration (mp s); fl_owned := true |} OtherError s)
      as (_ & Ef & _). rewrite Ef in E'. by apply app_one_neq in E'.
Qed.

(** What a write may carry: a point of the selected community, an assignment with its
    participant and first day, a new building of the community, readings only for those who
    may delete them and with dates in order. *)
Definition well_formed (sc : WriteScope) (w : point_write) : Prop :=
  match w with
  | SavePoint _ p => in_zev p ≠ "" ∧ (isManagedScope = true → selectedZevId sc = Some (in_zev p))
  | SaveAssignment _ p => ai_participant p ≠ "" ∧ ai_valid_from p ≠ "" ∧ ai_valid_to p ≠ Some ""
  | SaveBuilding None b => bi_zev b = default "" (selectedZevId sc)
  | DeleteReadings _ p =>
      canDeleteData = true ∧
      if delete_all p then date_from p = None ∧ date_to p = None
      else ∃ a b, date_from p = Some a ∧ date_to p = Some b ∧ nonempty a = true ∧ nonempty b = true ∧ str_le a b = true
  | _ => True
  end.

Lemma length_delete_S {A} (fs : list A) g i : fs !! i = Some g → length fs = S (length (delete i fs)).
Proof. revert i. induction fs as [|x fs IH]; intros [|i] Ei; try done. cbn. f_equal. by apply (IH i). Qed.

Lemma answered_not_sent i a s f : ¬ sent s (answered i a s) f.
Proof.
  unfold sent, answered. destruct (flights s !! i) as [g|] eqn:Eg; [|apply app_one_neq].
  assert (flights (match a with inl c => on_success g c | inr e => on_error g e end (with_flights (question s) (delete i (flights s)) s)) = delete i (flights s)) as E.
  { destruct a; [|by destruct (on_error_keeps g c (with_flights (question s) (delete i (flights s)) s)) as (_ & -> & _)].
    unfold on_success. repeat case_match; try done. }
  pose proof (length_delete_S _ _ _ Eg) as El.
  intros E'. destruct a; rewrite E in E'; apply (f_equal length) in E'; rewrite length_app in E'; lia.
Qed.

(** Whatever is clicked, typed and answered, whoever signs out and whichever community is
    switched to, a write goes out only from the mounted page under its own scope, with the
    right to write and, for a manager, a community selected, and it is well formed. *)
Theorem point_writes_allowed sc es e f :
  let s := points_run sc es in
  sent s (points_step s e) f →
  mounted s = true ∧ fl_scope f = page_scope s ∧ canWrite (page_scope s) = true ∧
  (isManagedScope = true → truthy_str (selectedZevId (page_scope s)) = true) ∧ well_formed (page_scope s) (fl_write f).
Proof.
  intros s. pose proof (points_run_inv sc es : page_inv s) as Hi. clearbody s. destruct e; cbn [points_step]; try (case_match; [by intros ?%app_one_neq|]);
    try (by intros ?%app_one_neq).
  - unfold openCreateMpModal. case_match; by intros ?%app_one_neq.
  - unfold openCreateMpModalInBuilding. case_match; by intros ?%app_one_neq.
  - unfold openEditMpModal. case_match; by intros ?%app_one_neq.
  - unfold submitMpForm. case_match; [by intros ?%app_one_neq|]. case_match eqn:Ez; [by intros ?%app_one_neq|].
    intros (-> & ? & ? & ? & ? & _)%mutate_sent. split_and!; try done. cbn. bool_facts. split; [by apply nonempty_true|]. intros Hm.
    match goal with H : isManagedScope && _ = false |- _ => rewrite Hm in H; by apply negb_false_iff, bool_decide_eq_true in H end.
  - unfold openCreateAssignModal. case_match; by intros ?%app_one_neq.
  - unfold openEditAssignModal. case_match; by intros ?%app_one_neq.
  - unfold submitAssignForm. case_match; [by intros ?%app_one_neq|]. do 2 (case_match; [by intros ?%app_one_neq|]). bool_facts.
    intros (-> & ? & ? & ? & ? & _)%mutate_sent. do 4 (split; [done|]). cbn. split_and!; [by apply nonempty_true..|].
    by destruct (ai_valid_to _) as [[|? ?]|].
  - unfold openDeleteDataModal. case_match; by intros ?%app_one_neq.
  - unfold submitDeleteData. repeat case_match; by intros ?%app_one_neq.
  - unfold openBuildingModal. case_match; by intros ?%app_one_neq.
  - intros (-> & ? & ? & ? & ? & _)%mutate_sent. split_and!; try done. cbn. by destruct (editingBuilding _).
  - unfold answer_question. destruct (question s) as [[w sc']|] eqn:Eq; [|by intros ?%app_one_neq].
    destruct (inv_question _ Hi w sc' Eq) as (-> & H1 & H2 & H3 & H4). destruct yes; [|by intros ?%app_one_neq].
    intros Hs. apply (mutate_sent w (with_flights None (flights s) s)) in Hs as (-> & ? & ? & ? & ? & _). split_and!; try done.
    destruct w as [id p|id|id p|id|[id|] b|id|m p]; try done; [by destruct (H1 id p)|by destruct (H2 id p)|by destruct (H3 b)|by apply (H4 m p)].
  - by intros ?%answered_not_sent.
  - cbn. unfold sent. cbn. intros E. apply (f_equal length) in E. rewrite length_map, length_app in E. cbn in E. lia.
Qed.

(** ** What is refreshed *)

(** Whether a query shows what a write of a community changes. *)
Definition shows_write (w : point_write) (z : option string) (q : query) : bool :=
  let here z' := String.eqb (if truthy_str z then default "" z else "all") (default "all" z') in
  match w, q with
  | SavePoint _ _, QMetering (MeterPoints z') => here z'
  | (SaveAssignment _ _ | DeleteAssignment _), QMetering (MeterPoints z') => here z'
  | (SaveAssignment _ _ | DeleteAssignment _), QMetering (MeterPointAssignments m) => String.eqb "all" (default "all" m)
  | (SaveAssignment _ _ | DeleteAssignment _), QZev (ZevParticipants z') => here z'
  | (SaveBuilding _ _ | DeleteBuilding _), QMetering (MeterPoints z') => here z'
  | (SaveBuilding _ _ | DeleteBuilding _), QZev (ZevPartyRoles _ _) => true
  | (DeletePoint _ | DeleteReadings _ _), QMetering _ => true
  | DeleteReadings _ _, QInvoices _ => true
  | DeleteReadings _ _, _ => false
  | _, QZev (ZevBuildings b) => String.eqb (default "" z) b
  | _, _ => false
  end.

Definition stale_texts (w : point_write) (z : option string) : list (list string) :=
  let points := ["metering"; "points"; if truthy_str z then default "" z else "all"] in let buildings := ["zev"; "buildings"; default "" z] in
  match w with
  | SavePoint _ _ => [points; buildings]
  | DeletePoint _ => [["metering"]; buildings]
  | SaveAssignment _ _ | DeleteAssignment _ =>
      [["metering"; "point-assignments"; "all"]; points; ["zev"; "participants"; if truthy_str z then default "" z else "all"]; buildings]
  | SaveBuilding _ _ | DeleteBuilding _ => [buildings; ["zev"; "partyRoles"]; points]
  | DeleteReadings _ _ => [["metering"]; ["invoices"]]
  end.

Lemma stale_after_texts w z : stale_after w z = map strs (stale_texts w z).
Proof. unfold stale_after, or_undefined. destruct z as [[|]|], w; reflexivity. Qed.

Lemma stale_exact w z q : reaches (stale_after w z) q ↔ shows_write w z q = true.
Proof.
  rewrite stale_after_texts, reaches_starts. destruct w, q as [| |a|a|a|a| |a|? ?|a|a|a|a]; try done; destruct a; try done; cbn -[String.eqb];
    by rewrite ?andb_true_r, ?andb_false_r, ?orb_false_r, ?orb_false_l.
Qed.

(** A write that succeeds refreshes the queries that show what it changed, those of the
    community it was sent for, also when its page is gone by then; a write of an earlier
    session leaves everything as it is. An error refreshes nothing. *)
Theorem writes_refresh f counts e s :
  (if fl_owned f
   then (∃ ks, stale (on_success f counts s) = (stale s ++ ks)%list ∧ ∀ q, reaches ks q ↔ shows_write (fl_write f) (selectedZevId (fl_scope f)) q = true)
   else on_success f counts s = s) ∧
  stale (on_error f e s) = stale s.
Proof.
  split.
  - unfold on_success, ownsCurrentSession. destruct (fl_owned f); [|done]. exists (stale_after (fl_write f) (selectedZevId (fl_scope f))).
    split; [|apply stale_exact]. cbn [negb]. case_match; [done|]. by destruct (fl_write f).
  - unfold on_error. by repeat case_match.
Qed.
End Hook.

(** ** Runs *)

Definition page_of (es : list points_event) : points_page := points_run plain_t true true "2026-05-01" (λ _, []) manager_scope es.

Definition new_point : MeteringPointInput := form_in "z" None.

Lemma point_writes_allowed_witness :
  let f := {| fl_write := SavePoint None (toMeteringPointPayload new_point); fl_scope := manager_scope; fl_generation := 1; fl_owned := true |} in
  sent (page_of [OpenCreatePoint]) (points_step plain_t true true "2026-05-01" (λ _, []) (page_of [OpenCreatePoint]) SubmitPoint) f ∧
  well_formed true true manager_scope (fl_write f).
Proof.
  set (f := {| fl_write := SavePoint None (toMeteringPointPayload new_point); fl_scope := manager_scope; fl_generation := 1; fl_owned := true |}).
  assert (sent (page_of [OpenCreatePoint]) (points_step plain_t true true "2026-05-01" (λ _, []) (page_of [OpenCreatePoint]) SubmitPoint) f) as Hs
    by (by vm_compute).
  split; [exact Hs|]. by destruct (point_writes_allowed plain_t true true "2026-05-01" (λ _, []) manager_scope [OpenCreatePoint] SubmitPoint f Hs) as (_ & _ & _ & _ & Hw).
Defined.

Definition assignment_of (id : string) : MeteringPointAssignment :=
  {| as_id := id; metering_point := "m"; participant := "p"; as_valid_from := "2026-01-01"; as_valid_to := None; as_created_at := ""; as_updated_at := "";
     allocation_mode := PersonalAllocation |}.

(** Only the point's form knows which form an answer belongs to: an assignment opened while
    another one is saved is closed by that save, with what was typed. *)
Lemma late_assignment_save_closes_other :
  let s := page_of [OpenEditAssign (assignment_of "a"); SubmitAssign; CloseAssign; OpenEditAssign (assignment_of "b")] in
  let s' := points_step plain_t true true "2026-05-01" (λ _, []) s (Answered 0 (inl [])) in
  editingAssignId (assign s) = Some "b" ∧ showAssignModal (assign s) = true ∧ showAssignModal (assign s') = false.
Proof. by vm_compute. Qed.

(** The same with the deletion of readings: its success closes the dialog of another point. *)
Lemma late_deletion_closes_other :
  let p id := sample_point id "z" true 5 in
  let s := page_of [OpenDeleteData (p "m1"); SubmitDeleteData; AnswerQuestion true; CloseDeleteData; OpenDeleteData (p "m2")] in
  let s' := points_step plain_t true true "2026-05-01" (λ _, []) s (Answered 0 (inl [])) in
  (mp_id <$> deleteDataTarget (data s)) = Some "m2" ∧ deleteDataTarget (data s') = None.
Proof. by vm_compute. Qed.
