(* ===== verification/PvPlanes.v ===== *)
(** Roof planes of a producing metering point: lib/pvPlanes.ts and the saves of
    features/meteringPoints/PvPlanesDialog.tsx.

    The dialog is a transition system over the form that is open, its draft and the save in
    flight; a save button is disabled while one is. The list's own query, the delete button
    and the markup are not modelled. *)

From Stdlib Require Import Floats.SpecFloat QArith Lqa.
From S2P Require Import Prelude JsString JsNumber JsFloat.
Local Open Scope string_scope.

(** ** Model of pvPlanes.ts *)

Record PvPlane := { plane_id : string; plane_label : string; peak_power_kwp : string; tilt_deg : num; azimuth_deg : num }.
Record PvPlaneInput := { input_label : string; input_kwp : string; input_tilt : num; input_azimuth : num }.

Definition maxPerPoint : nat := 4.
Definition maxKwp : num := of_Z 10000.

Record PlaneDraft := { draft_label : string; kwp : string; tilt : string; azimuth : string }.

Record PlaneProblems := { kwp_problem : bool; tilt_problem : bool; azimuth_problem : bool }.

Definition blank_text (s : string) : bool := String.eqb (trim s) "".

Definition planeFieldProblems (d : PlaneDraft) : PlaneProblems :=
  let k := to_number (kwp d) in let t := to_number (tilt d) in let a := to_number (azimuth d) in
  {| kwp_problem := blank_text (kwp d) || negb (is_finite k) || num_lt k (to_number "0.01") || num_gt k maxKwp;
     tilt_problem := blank_text (tilt d) || negb (is_integer t) || num_lt t (of_Z 0) || num_gt t (of_Z 90);
     azimuth_problem := blank_text (azimuth d) || negb (is_integer a) || num_lt a (of_Z (-180)) || num_gt a (of_Z 180) |}.

Definition planeInput (d : PlaneDraft) : option PvPlaneInput :=
  let p := planeFieldProblems d in
  if kwp_problem p || tilt_problem p || azimuth_problem p then None
  else Some {| input_label := trim (draft_label d); input_kwp := to_fixed 2 (to_number (kwp d)); input_tilt := to_number (tilt d);
               input_azimuth := to_number (azimuth d) |}.

Definition DIRECTION_KEYS : list string :=
  ["pages.meteringPoints.planes.direction.south"; "pages.meteringPoints.planes.direction.southWest";
   "pages.meteringPoints.planes.direction.west"; "pages.meteringPoints.planes.direction.northWest";
   "pages.meteringPoints.planes.direction.north"; "pages.meteringPoints.planes.direction.northEast";
   "pages.meteringPoints.planes.direction.east"; "pages.meteringPoints.planes.direction.southEast"].

(** The remainder [x % y] of finite numbers, exact, with the sign of [x]. *)
Definition num_rem (x y : num) : num :=
  match num_parts x, num_parts y with
  | Some (m1, e1), Some (m2, e2) =>
      let e := Z.min e1 e2 in let b := Z.shiftl m2 (e2 - e) in
      if (b =? 0)%Z then nan
      else binary_normalize 53 1024 (Z.rem (Z.shiftl m1 (e1 - e)) b) e (match x with S754_zero s | S754_finite s _ _ => s | _ => false end)
  | Some _, None => if is_nan y then nan else x
  | None, _ => nan
  end.

Definition azimuthLabelKey (a : num) : option string :=
  let normalised := num_rem (num_add (num_rem a (of_Z 360)) (of_Z 360)) (of_Z 360) in
  i ← num_int (num_rem (math_round (num_div normalised (of_Z 45))) (of_Z 8)); if (0 <=? i)%Z then DIRECTION_KEYS !! Z.to_nat i else None.

(** [String.replace(',', '.')]: the first comma. *)
Fixpoint replace_comma (s : string) : string :=
  match s with
  | "" => ""
  | String c r => if Ascii.eqb c "," then String "." r else String c (replace_comma r)
  end.

Inductive Coordinate := NoCoordinate | BadCoordinate | CoordinateText (s : string).

Definition coordinateInput (text : string) (limit : num) : Coordinate :=
  let trimmed := replace_comma (trim text) in
  if String.eqb trimmed "" then NoCoordinate
  else let v := to_number trimmed in
       if negb (is_finite v) || num_gt (num_abs v) limit then BadCoordinate else CoordinateText (to_fixed 5 v).

(** ** Model of PvPlanesDialog.tsx *)

Definition emptyDraft : PlaneDraft := {| draft_label := ""; kwp := ""; tilt := "30"; azimuth := "0" |}.

Definition draftOf (p : PvPlane) : PlaneDraft :=
  {| draft_label := plane_label p; kwp := peak_power_kwp p; tilt := num_to_string (tilt_deg p); azimuth := num_to_string (azimuth_deg p) |}.

Inductive plane_target := NewPlane | StoredPlane (id : string).

(** The form of the dialog; [saving] is the save in flight and [sent] all that were sent. *)
Record planes_dialog := {
  editing : option plane_target; draft : PlaneDraft; error : option string; submitted : bool;
  saving : option plane_target; sent : list (plane_target * PvPlaneInput);
}.

Definition planes_init : planes_dialog :=
  {| editing := None; draft := emptyDraft; error := None; submitted := false; saving := None; sent := [] |}.

Definition open_plane (id : plane_target) (values : PlaneDraft) (s : planes_dialog) : planes_dialog :=
  {| editing := Some id; draft := values; error := None; submitted := false; saving := saving s; sent := sent s |}.

(** The add button is there while no form is open, and enabled below the limit. *)
Definition add_plane (rows : nat) (s : planes_dialog) : planes_dialog :=
  match editing s with
  | None => if (maxPerPoint <=? rows)%nat then s else open_plane NewPlane emptyDraft s
  | Some _ => s
  end.

Definition set_draft (d : PlaneDraft) (s : planes_dialog) : planes_dialog :=
  {| editing := editing s; draft := d; error := error s; submitted := submitted s; saving := saving s; sent := sent s |}.

Definition cancel_edit (s : planes_dialog) : planes_dialog :=
  {| editing := None; draft := draft s; error := error s; submitted := submitted s; saving := saving s; sent := sent s |}.

(** The form submits through its save button, which is disabled while a save runs. *)
Definition submit (s : planes_dialog) : planes_dialog :=
  match editing s, saving s with
  | Some id, None =>
      let s' := {| editing := Some id; draft := draft s; error := error s; submitted := true; saving := None; sent := sent s |} in
      match planeInput (draft s) with
      | None => s'
      | Some input => {| editing := Some id; draft := draft s; error := error s; submitted := true; saving := Some id; sent := (sent s ++ [(id, input)])%list |}
      end
  | _, _ => s
  end.

Definition saved (s : planes_dialog) : planes_dialog :=
  match saving s with
  | Some _ => {| editing := None; draft := draft s; error := None; submitted := submitted s; saving := None; sent := sent s |}
  | None => s
  end.

Definition save_failed (message : string) (s : planes_dialog) : planes_dialog :=
  match saving s with
  | Some _ => {| editing := editing s; draft := draft s; error := Some message; submitted := submitted s; saving := None; sent := sent s |}
  | None => s
  end.

Inductive planes_event :=
  | EditPlane (p : PvPlane) | AddPlane (rows : nat) | TypeDraft (d : PlaneDraft) | CancelEdit | SubmitPlane | PlaneSaved | PlaneRefused (message : string).

Definition planes_step (s : planes_dialog) (e : planes_event) : planes_dialog :=
  match e with
  | EditPlane p => open_plane (StoredPlane (plane_id p)) (draftOf p) s
  | AddPlane rows => add_plane rows s
  | TypeDraft d => set_draft d s
  | CancelEdit => cancel_edit s
  | SubmitPlane => submit s
  | PlaneSaved => saved s
  | PlaneRefused m => save_failed m s
  end.

Definition shown_problems (s : planes_dialog) : PlaneProblems :=
  if submitted s then planeFieldProblems (draft s) else {| kwp_problem := false; tilt_problem := false; azimuth_problem := false |}.

(** ** Directions *)

Definition circular (a b : Z) : Z := let d := ((a - b) mod 360)%Z in Z.min d (360 - d).

Definition sector (a : Z) : Z := ((2 * (a mod 360) + 45) / 90 mod 8)%Z.

Definition nearest_sector (a : Z) : bool :=
  bool_decide (azimuthLabelKey (of_Z a) = DIRECTION_KEYS !! Z.to_nat (sector a)) &&
  forallb (λ j, (j =? sector a)%Z || (circular a (45 * sector a) <? circular a (45 * j))%Z) (seqZ 0 8).

Lemma nearest_sector_all : forallb nearest_sector (seqZ (-180) 361) = true.
Proof. by vm_compute. Qed.

(** The direction named for a plane is the one of the eight, counted from south
    over west in steps of 45 degrees, that its azimuth is strictly closest to around the
    circle, for every azimuth the form accepts. *)
Theorem azimuth_nearest_direction a :
  (-180 <= a <= 180)%Z →
  ∃ k, (0 <= k < 8)%Z ∧ azimuthLabelKey (of_Z a) = DIRECTION_KEYS !! Z.to_nat k ∧
    ∀ j, (0 <= j < 8)%Z → j ≠ k → (circular a (45 * k) < circular a (45 * j))%Z.
Proof.
  intros Ha. pose proof nearest_sector_all as H. rewrite forallb_elem in H. specialize (H a ltac:(rewrite elem_of_seqZ; lia)).
  unfold nearest_sector in H. bool_facts. apply bool_decide_eq_true in H.
  exists (sector a). split; [unfold sector; apply Z.mod_pos_bound; lia|]. split; [done|]. intros j Hj Hne. rewrite forallb_elem in H0.
  specialize (H0 j ltac:(rewrite elem_of_seqZ; lia)). apply orb_true_iff in H0 as [H0|H0]; [by apply Z.eqb_eq in H0|]. by apply Z.ltb_lt.
Qed.

Lemma azimuth_nearest_direction_witness :
  (-180 <= 157 <= 180)%Z ∧ ∃ k, (0 <= k < 8)%Z ∧ azimuthLabelKey (of_Z 157) = DIRECTION_KEYS !! Z.to_nat k ∧
    ∀ j, (0 <= j < 8)%Z → j ≠ k → (circular 157 (45 * k) < circular 157 (45 * j))%Z.
Proof. split; [lia|]. apply (azimuth_nearest_direction 157). lia. Defined.

(** ** Opening and saving a stored plane *)

Definition whole_reads (t : Z) : bool :=
  bool_decide (to_number (num_to_string (of_Z t)) = of_Z t) && negb (blank_text (num_to_string (of_Z t))) && is_integer (of_Z t).
Definition within (lo hi t : Z) : bool := negb (num_lt (of_Z t) (of_Z lo)) && negb (num_gt (of_Z t) (of_Z hi)).

Lemma whole_reads_all : forallb whole_reads (seqZ (-180) 361) = true.
Proof. by vm_compute. Qed.
Lemma within_all : forallb (within (-180) 180) (seqZ (-180) 361) = true ∧ forallb (within 0 90) (seqZ 0 91) = true.
Proof. by vm_compute. Qed.

Lemma integer_field t :
  (-180 <= t <= 180)%Z →
  to_number (num_to_string (of_Z t)) = of_Z t ∧ blank_text (num_to_string (of_Z t)) = false ∧ is_integer (of_Z t) = true ∧
  num_lt (of_Z t) (of_Z (-180)) = false ∧ num_gt (of_Z t) (of_Z 180) = false ∧
  ((0 <= t <= 90)%Z → num_lt (of_Z t) (of_Z 0) = false ∧ num_gt (of_Z t) (of_Z 90) = false).
Proof.
  intros Ht. pose proof whole_reads_all as H. destruct within_all as [Ha Hb]. rewrite forallb_elem in H, Ha, Hb.
  specialize (H t ltac:(rewrite elem_of_seqZ; lia)). specialize (Ha t ltac:(rewrite elem_of_seqZ; lia)). unfold whole_reads, within in *. bool_facts.
  split_and!; [exact (bool_decide_eq_true_1 _ H)|done..|]. intros Ht2. specialize (Hb t ltac:(rewrite elem_of_seqZ; lia)). by bool_facts.
Qed.

Lemma kwp_field n :
  (1 <= n <= 1000000)%Z → let k := fixed_text false n 2 in
  kwp_problem {| kwp_problem := blank_text k || negb (is_finite (to_number k)) || num_lt (to_number k) (to_number "0.01") || num_gt (to_number k) maxKwp;
                 tilt_problem := false; azimuth_problem := false |} = false ∧ to_fixed 2 (to_number k) = k.
Proof.
  intros Hn k. cbn [kwp_problem]. pose proof (near_text n 2 ltac:(lia) ltac:(lia)) as Hk. fold k in Hk.
  assert (dec n 2 == inject_Z n * (1 # 100))%Q as Ed by (unfold dec; change (inject_Z (pow10 2)) with 100%Q; field).
  assert (1 <= inject_Z n ∧ inject_Z n <= 1000000)%Q as [Hn1 Hn2].
  { change 1%Q with (inject_Z 1). change 1000000%Q with (inject_Z 1000000). rewrite <- !Zle_Qle. lia. }
  split; [|apply to_fixed_text; lia]. repeat (apply orb_false_iff; split).
  - unfold blank_text. destruct (fixed_text_trim n 2 ltac:(lia)) as [E Hne]. fold k in E, Hne. rewrite E. by apply String.eqb_neq.
  - destruct (near_pos _ _ _ Hk ltac:(lra)) as (m & e & -> & _). done.
  - destruct (Z.eq_dec n 1%Z) as [->|Hne]; [by vm_compute|]. apply (near_not_lt _ (dec n 2) _ (dec 1 2)); [done|by apply (near_text 1 2); lia|done|].
    assert (2 <= inject_Z n)%Q by (change 2%Q with (inject_Z 2); rewrite <- Zle_Qle; lia). rewrite Ed. change (dec 1 2) with (1 # 100)%Q. lra.
  - destruct (Z.eq_dec n 1000000%Z) as [->|Hne]; [by vm_compute|]. unfold num_gt. apply (near_not_lt _ (inject_Z 10000) _ (dec n 2)); [|done|lra|].
    + assert (dec 10000 0 == inject_Z 10000)%Q as E by reflexivity. pose proof (dec_range 10000 0 ltac:(lia) ltac:(lia)) as Hr. rewrite E in Hr. by apply near_Z.
    + assert (inject_Z n <= 999999)%Q by (change 999999%Q with (inject_Z 999999); rewrite <- Zle_Qle; lia). rewrite Ed. change (inject_Z 10000) with 10000%Q. lra.
Qed.

(** A stored plane, its size in kilowatts to two decimals and its whole degrees
    in range, opened for editing and saved unchanged is sent as it is. *)
Theorem plane_roundtrip p n t a :
  peak_power_kwp p = fixed_text false n 2 → tilt_deg p = of_Z t → azimuth_deg p = of_Z a →
  (1 <= n <= 1000000)%Z → (0 <= t <= 90)%Z → (-180 <= a <= 180)%Z →
  planeInput (draftOf p) =
    Some {| input_label := trim (plane_label p); input_kwp := peak_power_kwp p; input_tilt := tilt_deg p; input_azimuth := azimuth_deg p |}.
Proof.
  intros Ek Et Ea Hn Ht Ha. unfold planeInput, planeFieldProblems, draftOf. cbn [kwp tilt azimuth draft_label].
  rewrite Ek, Et, Ea. destruct (kwp_field n Hn) as [Hk ->]. cbn [kwp_problem] in Hk. rewrite Hk. cbn [kwp_problem tilt_problem azimuth_problem].
  destruct (integer_field t ltac:(lia)) as (-> & -> & -> & _ & _ & Htr). destruct (Htr Ht) as [-> ->].
  destruct (integer_field a Ha) as (-> & -> & -> & -> & -> & _). done.
Qed.

Lemma plane_roundtrip_witness :
  let p := {| plane_id := "1"; plane_label := "East"; peak_power_kwp := "12.40"; tilt_deg := of_Z 30; azimuth_deg := of_Z (-90) |} in
  peak_power_kwp p = fixed_text false 1240 2 ∧
  planeInput (draftOf p) = Some {| input_label := "East"; input_kwp := "12.40"; input_tilt := of_Z 30; input_azimuth := of_Z (-90) |}.
Proof.
  intros p. assert (peak_power_kwp p = fixed_text false 1240 2) as E by (by vm_compute). split; [exact E|].
  apply (plane_roundtrip p 1240 30 (-90) E eq_refl eq_refl); lia.
Defined.

(** ** Saves of the dialog *)

Definition planes_run (es : list planes_event) : planes_dialog := foldl planes_step planes_init es.

(** One event sends at most one valid request, for the form that is open, with none in flight. *)
Definition step_ok (s : planes_dialog) (e : planes_event) : Prop :=
  sent (planes_step s e) = sent s ∨
  ∃ id input, e = SubmitPlane ∧ editing s = Some id ∧ saving s = None ∧ planeInput (draft s) = Some input ∧ saving (planes_step s e) = Some id ∧
    sent (planes_step s e) = (sent s ++ [(id, input)])%list.

Lemma planes_step_ok s e : step_ok s e.
Proof.
  unfold step_ok. destruct e as [p|rows|d| | | |m]; try by left.
  - left. cbn [planes_step]. unfold add_plane. by destruct (editing s), (maxPerPoint <=? rows)%nat.
  - cbn [planes_step]. unfold submit. destruct (editing s) as [id|] eqn:He; [|by left]. destruct (saving s) eqn:Hs; [by left|].
    destruct (planeInput (draft s)) as [input|] eqn:Hi; [|by left]. right. by exists id, input.
  - left. cbn [planes_step]. unfold saved. by destruct (saving s).
  - left. cbn [planes_step]. unfold save_failed. by destruct (saving s).
Qed.

(** Whatever is clicked, typed and answered, each event sends at most one
    request: the valid values of the form that is open, for its plane, and only while no
    other save is in flight. No field is marked before the first attempt to save, an
    attempt with a wrong field sends nothing and marks it, and a refused save leaves the
    open form with everything typed in it. *)
Theorem plane_saves_safe es e m :
  let s := planes_run es in
  step_ok s e ∧
  (submitted s = false → shown_problems s = {| kwp_problem := false; tilt_problem := false; azimuth_problem := false |}) ∧
  (editing s ≠ None → saving s = None → planeInput (draft s) = None →
     let s' := planes_step s SubmitPlane in
     sent s' = sent s ∧ (kwp_problem (shown_problems s') || tilt_problem (shown_problems s') || azimuth_problem (shown_problems s') = true)) ∧
  (let s' := planes_step s (PlaneRefused m) in editing s' = editing s ∧ draft s' = draft s ∧ (saving s ≠ None → error s' = Some m ∧ saving s' = None)).
Proof.
  cbn zeta. set (s := planes_run es). split_and!; [apply planes_step_ok|by unfold shown_problems; intros ->| | | |].
  - intros He Hs Hi. cbn [planes_step]. unfold submit. destruct (editing s) as [id|]; [|done]. rewrite Hs, Hi. split; [done|].
    unfold shown_problems. cbn [submitted draft]. unfold planeInput in Hi. by destruct (kwp_problem _ || tilt_problem _ || azimuth_problem _).
  - cbn [planes_step]. unfold save_failed. by destruct (saving s).
  - cbn [planes_step]. unfold save_failed. by destruct (saving s).
  - cbn [planes_step]. unfold save_failed. destruct (saving s); [done|]. by intros ?.
Qed.

(** A save that completes while another plane is being edited closes that form. *)
Lemma late_save_closes_other :
  let plane i := {| plane_id := i; plane_label := ""; peak_power_kwp := "5.00"; tilt_deg := of_Z 30; azimuth_deg := of_Z 0 |} in
  let typed := {| draft_label := "West wing"; kwp := "7"; tilt := "20"; azimuth := "90" |} in
  editing (planes_run [EditPlane (plane "1"); SubmitPlane; EditPlane (plane "2"); TypeDraft typed]) = Some (StoredPlane "2") ∧
  editing (planes_run [EditPlane (plane "1"); SubmitPlane; EditPlane (plane "2"); TypeDraft typed; PlaneSaved]) = None.
Proof. by vm_compute. Qed.
