(* ===== verification/Dialogs.v ===== *)
(** Modal dialogs: which parts of the page are inert while one is open
    (frontend/src/components/dialogInertness.ts) and the stack of open dialogs
    (components/useDialogBehavior.ts).

    The document is the tree of elements below the body, each with its identity, its id,
    the ids its aria-controls and aria-owns attributes name, and the two classes the
    source asks for. Elements outside the body are not modelled. *)

From stdpp Require Import sorting.
From S2P Require Import Prelude JsString.
Local Open Scope nat_scope.

(** ** The document *)

#[local] Unset Elimination Schemes.

Inductive elem :=
  Elem (node : nat) (html : bool) (scrim toast : bool) (dom_id : string) (popups : list string) (children : list elem).

#[local] Set Elimination Schemes.

Definition elem_ind (P : elem → Prop)
    (H : ∀ n h s t i ps kids, Forall P kids → P (Elem n h s t i ps kids)) : ∀ e, P e :=
  fix F e := match e with
  | Elem n h s t i ps kids => H n h s t i ps kids
      ((fix G l := match l return Forall P l with [] => Forall_nil_2 _ | x :: l' => Forall_cons_2 _ _ _ (F x) (G l') end) kids)
  end.

Definition node (e : elem) : nat := match e with Elem n _ _ _ _ _ _ => n end.
Definition html (e : elem) : bool := match e with Elem _ h _ _ _ _ _ => h end.
Definition scrim (e : elem) : bool := match e with Elem _ _ s _ _ _ _ => s end.
Definition toast (e : elem) : bool := match e with Elem _ _ _ t _ _ _ => t end.
Definition dom_id (e : elem) : string := match e with Elem _ _ _ _ i _ _ => i end.
Definition popups (e : elem) : list string := match e with Elem _ _ _ _ _ ps _ => ps end.
Definition children (e : elem) : list elem := match e with Elem _ _ _ _ _ _ kids => kids end.

(** An element and what it contains, in document order. *)
Fixpoint elems (e : elem) : list elem := match e with Elem _ _ _ _ _ _ kids => e :: flat_map elems kids end.

Definition descendants (e : elem) : list elem := flat_map elems (children e).

(** The element with this identity, in the document. *)
Definition elem_at (body : elem) (n : nat) : option elem := find_first (λ e, node e =? n) (elems body).

(** [a.contains(b)]. *)
Definition contains (body : elem) (a b : nat) : bool :=
  match elem_at body a with Some e => existsb (λ d, node d =? b) (elems e) | None => false end.

Definition isConnected (body : elem) (n : nat) : bool := bool_decide (is_Some (elem_at body n)).

(** [document.getElementById]; no element has the empty id. *)
Definition getElementById (body : elem) (i : string) : option nat :=
  node <$> find_first (λ e, negb (String.eqb i "") && String.eqb (dom_id e) i) (descendants body).

(** The chain from the child of the body down to an element. *)
Fixpoint chain_to (target : nat) (e : elem) : list elem :=
  match e with Elem _ _ _ _ _ _ kids =>
    (fix go l := match l with
     | [] => []
     | c :: l' => if node c =? target then [c]
                  else match chain_to target c with [] => go l' | p => c :: p end
     end) kids
  end.

(** ** Model of dialogInertness.ts *)

(** One target: kept unless it contains the dialog or lies in a root already. *)
Definition push_popup (body : elem) (dialog : nat) (roots : list nat) (i : string) : list nat :=
  match getElementById body i with
  | Some target =>
      if negb (contains body target dialog) && negb (existsb (λ candidate, contains body candidate target) roots)
      then (roots ++ [target])%list else roots
  | None => roots
  end.

(** The ids named inside a root, in document order. *)
Definition popup_ids (body : elem) (root : nat) : list string :=
  match elem_at body root with Some e => flat_map popups (descendants e) | None => [] end.

(** The loop over the growing list of roots, from index [i]. *)
Fixpoint roots_loop (fuel : nat) (body : elem) (dialog : nat) (i : nat) (roots : list nat) : option (list nat) :=
  match roots !! i with
  | None => Some roots
  | Some root =>
      match fuel with
      | O => None
      | S fuel => roots_loop fuel body dialog (S i) (foldl (push_popup body dialog) roots (popup_ids body root))
      end
  end.

Definition dialogInteractiveRoots (body : elem) (dialog : nat) : option (list nat) :=
  roots_loop (S (length (elems body))) body dialog 0 [dialog].

(** [dialog.closest('.dialog-scrim') ?? dialog]. *)
Definition scrim_of (body : elem) (dialog : nat) : nat :=
  match find_last scrim (chain_to dialog body) with Some e => node e | None => dialog end.

Definition toast_stacks (body : elem) : list nat := node <$> bfilter toast (descendants body).

(** What stays interactive: the dialog's frame, its popups and the toasts. *)
Definition active_roots (body : elem) (dialog : nat) : option (list nat) :=
  roots ← dialogInteractiveRoots body dialog;
  Some (scrim_of body dialog :: tail roots ++ toast_stacks body)%list.

Definition branches_of (body : elem) (roots : list nat) : list nat :=
  flat_map (λ r, node <$> rev (chain_to r body)) roots.

Fixpoint visit (roots branches : list nat) (parent : elem) : list nat :=
  match parent with Elem _ _ _ _ _ _ kids =>
    flat_map (λ child,
      if negb (html child) || bool_decide (node child ∈ roots) then []
      else if bool_decide (node child ∈ branches) then visit roots branches child
      else [node child]) kids
  end.

(** The [next] set of [syncInertness]. *)
Definition next_inert (body : elem) (activeDialog : option nat) : option (list nat) :=
  match activeDialog with
  | Some dialog =>
      if isConnected body dialog then
        roots ← active_roots body dialog;
        Some (oset_of (visit roots (branches_of body roots) body))
      else Some []
  | None => Some []
  end.

(** The module's state: the attributes of the page and what the manager remembers. *)
Record inertness := {
  document : elem; inert : nat → bool; activeDialog : option nat; observing : bool; originalInert : list (nat * bool);
}.

Definition set_attr (n : nat) (b : bool) (f : nat → bool) : nat → bool := λ m, if m =? n then b else f m.

Definition restore_one (next : list nat) (st : (nat → bool) * list (nat * bool)) (kv : nat * bool) :=
  if bool_decide (kv.1 ∈ next) then st else (set_attr kv.1 kv.2 st.1, omap_delete kv.1 st.2).

Definition inert_one (st : (nat → bool) * list (nat * bool)) (n : nat) :=
  match omap_get n st.2 with
  | Some _ => st
  | None => (set_attr n true st.1, omap_set n (st.1 n) st.2)
  end.

Definition reconcileInertness (next : list nat) (s : inertness) : inertness :=
  let st := foldl (restore_one next) (inert s, originalInert s) (originalInert s) in
  let st := foldl inert_one st next in
  {| document := document s; inert := st.1; activeDialog := activeDialog s; observing := observing s; originalInert := st.2 |}.

Definition syncInertness (s : inertness) : option inertness :=
  next ← next_inert (document s) (activeDialog s); Some (reconcileInertness next s).

Definition setActiveDialog (n : option nat) (s : inertness) : option inertness :=
  syncInertness {| document := document s; inert := inert s; activeDialog := n;
                   observing := bool_decide (is_Some n); originalInert := originalInert s |}.

(** ** What reconciling does *)

(** [owner] says which elements the rest of the page wants inert. The manager remembers
    that of the elements it made inert, and leaves the others alone. *)
Definition holds_owner (owner : nat → bool) (st : (nat → bool) * list (nat * bool)) : Prop :=
  ∀ n, match omap_get n st.2 with Some b => b = owner n ∧ st.1 n = true | None => st.1 n = owner n end.

Definition managed (owner : nat → bool) (s : inertness) : Prop :=
  NoDup (originalInert s).*1 ∧ holds_owner owner (inert s, originalInert s).

Lemma omap_get_delete k (m : list (nat * bool)) n :
  omap_get n (omap_delete k m) = if bool_decide (n = k) then None else omap_get n m.
Proof.
  unfold omap_delete. induction m as [|[k' b] m IH]; [by cases|]. cbn [omap_get].
  destruct (decide (k' = k)) as [->|Hk]; [rewrite filter_cons_False by (cbn; naive_solver)|rewrite filter_cons_True by done];
    cbn [omap_get]; rewrite ?IH; repeat case_bool_decide; subst; try done; congruence.
Qed.

Lemma restore_one_holds owner next st kv :
  holds_owner owner st → omap_get kv.1 st.2 = Some kv.2 → holds_owner owner (restore_one next st kv).
Proof.
  intros H Hk. unfold restore_one. case_bool_decide; [done|]. intros n. cbn [fst snd]. rewrite omap_get_delete.
  pose proof (H kv.1) as Hkv. rewrite Hk in Hkv. unfold set_attr. specialize (H n).
  destruct (bool_decide_reflect (n = kv.1)) as [->|Hne]; [rewrite Nat.eqb_refl; by destruct Hkv|].
  by destruct (Nat.eqb_spec n kv.1).
Qed.

Lemma restore_one_get next st kv n :
  omap_get n (restore_one next st kv).2 = if bool_decide (n = kv.1 ∧ n ∉ next) then None else omap_get n st.2.
Proof.
  unfold restore_one. case_bool_decide as Hk; cbn [snd].
  - rewrite bool_decide_false; [done|]. by intros [-> ?].
  - rewrite omap_get_delete. repeat case_bool_decide; try done; naive_solver.
Qed.

Lemma restore_all owner next l st :
  NoDup l.*1 → (∀ kv, kv ∈ l → omap_get kv.1 st.2 = Some kv.2) → holds_owner owner st →
  holds_owner owner (foldl (restore_one next) st l) ∧
  ∀ n, omap_get n (foldl (restore_one next) st l).2 = if bool_decide (n ∈ l.*1 ∧ n ∉ next) then None else omap_get n st.2.
Proof.
  revert st. induction l as [|kv l IH]; intros st Hnd Hl Hst; cbn [foldl].
  - split; [done|]. intros n. rewrite bool_decide_false; [done|]. rewrite fmap_nil. set_solver.
  - rewrite fmap_cons in Hnd. apply NoDup_cons in Hnd as [Hkv Hnd].
    destruct (IH (restore_one next st kv)) as [H1 H2].
    { done. }
    { intros kw Hw. rewrite restore_one_get, bool_decide_false; [apply Hl; set_solver|].
      intros [E _]. apply Hkv. rewrite <- E. apply list_elem_of_fmap. by exists kw. }
    { apply restore_one_holds; [done|]. apply Hl. set_solver. }
    split; [done|]. intros n. rewrite H2, restore_one_get, fmap_cons.
    repeat case_bool_decide; try done; set_solver.
Qed.

Lemma inert_one_holds owner st n : holds_owner owner st → holds_owner owner (inert_one st n).
Proof.
  intros H. unfold inert_one. destruct (omap_get n st.2) eqn:E; [done|]. intros m. cbn [fst snd]. unfold set_attr.
  pose proof (H n) as Hn. rewrite E in Hn. specialize (H m). destruct (Nat.eqb_spec m n) as [->|Hne].
  - by rewrite omap_get_set_eq.
  - by rewrite omap_get_set_ne.
Qed.

Lemma inert_one_keys st n m : is_Some (omap_get m (inert_one st n).2) ↔ m = n ∨ is_Some (omap_get m st.2).
Proof.
  unfold inert_one. destruct (omap_get n st.2) eqn:E; cbn [snd]; [split; [by right|]; intros [->|]; [by eexists|done]|].
  destruct (decide (m = n)) as [->|Hne]; [rewrite omap_get_set_eq; split; [by left|by eexists]|].
  rewrite omap_get_set_ne by done. naive_solver.
Qed.

Lemma inert_all owner next st :
  holds_owner owner st → holds_owner owner (foldl inert_one st next) ∧
  ∀ m, is_Some (omap_get m (foldl inert_one st next).2) ↔ m ∈ next ∨ is_Some (omap_get m st.2).
Proof.
  revert st. induction next as [|n next IH]; intros st Hst; cbn [foldl]; [split; [done|]; set_solver|].
  destruct (IH (inert_one st n)) as [H1 H2]; [by apply inert_one_holds|]. split; [done|].
  intros m. rewrite H2, inert_one_keys. set_solver.
Qed.

Lemma inert_all_nodup next st : NoDup st.2.*1 → NoDup (foldl inert_one st next).2.*1.
Proof.
  revert st. induction next as [|n next IH]; intros st Hst; cbn [foldl]; [done|]. apply IH.
  unfold inert_one. destruct (omap_get n st.2); [done|]. by apply NoDup_omap_set.
Qed.

Lemma restore_all_nodup next l st : NoDup st.2.*1 → NoDup (foldl (restore_one next) st l).2.*1.
Proof.
  revert st. induction l as [|kv l IH]; intros st Hst; cbn [foldl]; [done|]. apply IH.
  unfold restore_one. case_bool_decide; [done|]. cbn [snd]. unfold omap_delete.
  revert Hst. generalize st.2 as m. induction m as [|x m IHm]; intros Hm; [done|]. rewrite filter_cons. rewrite fmap_cons in Hm.
  apply NoDup_cons in Hm as [Hx Hm]. case_decide; [|by apply IHm]. rewrite fmap_cons. apply NoDup_cons. split; [|by apply IHm].
  intros (y & E & Hy)%list_elem_of_fmap. apply Hx. rewrite E. apply list_elem_of_fmap. exists y. split; [done|].
  by apply list_elem_of_filter in Hy as [_ ?].
Qed.

Lemma reconcile_spec owner next s :
  managed owner s →
  let s' := reconcileInertness next s in
  managed owner s' ∧ (∀ n, is_Some (omap_get n (originalInert s')) ↔ n ∈ next) ∧
  ∀ n, inert s' n = bool_decide (n ∈ next) || owner n.
Proof.
  intros [Hnd Hs] s'. unfold s', reconcileInertness.
  destruct (restore_all owner next (originalInert s) (inert s, originalInert s) Hnd) as [H1 H2]; [|done|].
  { intros [k b] Hk. by apply omap_elem_get. }
  set (st := foldl (restore_one next) (inert s, originalInert s) (originalInert s)) in *.
  destruct (inert_all owner next st H1) as [H3 H4].
  assert (∀ n, is_Some (omap_get n (foldl inert_one st next).2) ↔ n ∈ next) as Hkeys.
  { intros n. rewrite H4, H2. cbn [snd]. split; [|by left]. intros [?|Hn]; [done|].
    case_bool_decide as Hb; [by destruct Hn|]. destruct (decide (n ∈ next)); [done|]. destruct Hb. split; [|done].
    destruct Hn as [b Hb]. apply omap_get_Some_elem in Hb. apply list_elem_of_fmap. by exists (n, b). }
  split_and!; [split|done|].
  - cbn [originalInert]. apply inert_all_nodup, restore_all_nodup. done.
  - done.
  - intros n. cbn [inert]. specialize (H3 n). specialize (Hkeys n).
    cbn [originalInert] in *. destruct (omap_get n (foldl inert_one st next).2) as [b|] eqn:E.
    + rewrite bool_decide_true by (apply Hkeys; by eexists). by destruct H3 as [_ ->].
    + rewrite bool_decide_false; [done|]. rewrite <- Hkeys. by intros [? ?].
Qed.

(** ** Chains of elements *)

Lemma flat_map_shared {A B} (f : A → list B) l x y b :
  NoDup (flat_map f l) → x ∈ l → y ∈ l → b ∈ f x → b ∈ f y → x = y.
Proof.
  induction l as [|a l IH]; cbn [flat_map]; intros Hnd Hx Hy Hbx Hby; [by apply elem_of_nil in Hx|].
  apply NoDup_app in Hnd as (_ & Hdis & Hnd).
  assert (∀ z, z ∈ l → b ∈ f z → b ∈ flat_map f l) as Hin.
  { intros z Hz Hb. apply list_elem_of_In, in_flat_map. exists z. split; by apply list_elem_of_In. }
  apply elem_of_cons in Hx as [->|Hx], Hy as [->|Hy]; [done| | |by apply IH].
  - destruct (Hdis b Hbx). by apply (Hin y).
  - destruct (Hdis b Hby). by apply (Hin x).
Qed.

Lemma fmap_flat_map {A B C} (f : B → C) (g : A → list B) l : f <$> flat_map g l = flat_map (λ a, f <$> g a) l.
Proof. induction l as [|a l IH]; [done|]. cbn [flat_map]. by rewrite fmap_app, IH. Qed.

Inductive chain : elem → list elem → Prop :=
  | chain_nil e : chain e []
  | chain_cons e c p : c ∈ children e → chain c p → chain e (c :: p).

Lemma elems_eq e : elems e = e :: descendants e.
Proof. by destruct e. Qed.

Lemma elem_of_child c e d : c ∈ children e → d ∈ elems c → d ∈ descendants e.
Proof. intros. unfold descendants. apply elem_of_flat_map. by exists c. Qed.

Lemma chain_descendant e p c : chain e (p ++ [c]) → c ∈ descendants e.
Proof.
  revert e. induction p as [|x p IH]; intros e H; inversion H as [|? ? ? Hc Hp]; subst.
  - apply (elem_of_child c); [done|]. rewrite elems_eq. set_solver.
  - apply (elem_of_child x); [done|]. rewrite elems_eq. set_solver.
Qed.

Definition unique_nodes (e : elem) : Prop := NoDup (node <$> elems e).

Lemma unique_child e c : unique_nodes e → c ∈ children e → unique_nodes c.
Proof.
  unfold unique_nodes. rewrite elems_eq, fmap_cons. intros [_ H]%NoDup_cons Hc. unfold descendants in H.
  rewrite fmap_flat_map in H. revert Hc H. induction (children e) as [|x l IH]; [intros []%elem_of_nil|].
  cbn [flat_map]. intros [->|Hc]%elem_of_cons (Hx & _ & Hl)%NoDup_app; [done|by apply IH].
Qed.

Lemma unique_not_below e d : unique_nodes e → d ∈ descendants e → node d ≠ node e.
Proof.
  unfold unique_nodes. rewrite elems_eq, fmap_cons. intros [H _]%NoDup_cons Hd E. apply H. rewrite <- E.
  apply list_elem_of_fmap. by exists d.
Qed.

Lemma children_apart e c1 c2 d1 d2 :
  unique_nodes e → c1 ∈ children e → c2 ∈ children e → d1 ∈ elems c1 → d2 ∈ elems c2 → node d1 = node d2 → c1 = c2.
Proof.
  unfold unique_nodes. rewrite elems_eq, fmap_cons. intros [_ H]%NoDup_cons H1 H2 D1 D2 E. unfold descendants in H.
  rewrite fmap_flat_map in H. apply (flat_map_shared _ _ c1 c2 (node d1) H H1 H2); apply list_elem_of_fmap; [by exists d1|by exists d2].
Qed.

(** The chain to an element is unique. *)
Lemma chain_unique e p c q d :
  unique_nodes e → chain e (p ++ [c]) → chain e (q ++ [d]) → node c = node d → (p ++ [c] = q ++ [d])%list.
Proof.
  revert e q. induction p as [|x p IH]; intros e q Hu Hp Hq E; destruct q as [|y q];
    inversion Hp as [|? ? ? Hx Hp']; inversion Hq as [|? ? ? Hy Hq']; subst.
  - assert (c = d) as ->; [|done]. apply (children_apart e c d c d); rewrite ?elems_eq; try done; set_solver.
  - assert (d ∈ descendants y) as Hd by (by apply (chain_descendant y q)).
    assert (c = y) as ->.
    { apply (children_apart e c y c d); rewrite ?elems_eq; [done|done|done|set_solver|set_solver|done]. }
    exfalso. apply (unique_not_below y d); [by apply (unique_child e)|done|done].
  - assert (c ∈ descendants x) as Hd by (by apply (chain_descendant x p)).
    assert (x = d) as ->.
    { apply (children_apart e x d c d); rewrite ?elems_eq; [done|done|done|set_solver|set_solver|done]. }
    exfalso. apply (unique_not_below d c); [by apply (unique_child e)|done|done].
  - assert (x = y) as ->.
    { apply (children_apart e x y c d); rewrite ?elems_eq; [done|done|done| | |done];
        apply elem_of_cons; right; eapply chain_descendant; eassumption. }
    cbn [app]. f_equal. apply (IH y); [by apply (unique_child e)|done|done|done].
Qed.

Lemma chain_to_eq r e :
  chain_to r e = (fix go l := match l with
     | [] => []
     | c :: l' => if node c =? r then [c] else match chain_to r c with [] => go l' | p => c :: p end
     end) (children e).
Proof. by destruct e. Qed.

Lemma chain_to_sound r e : chain_to r e = [] ∨ ∃ p c, chain_to r e = (p ++ [c])%list ∧ chain e (p ++ [c]) ∧ node c = r.
Proof.
  induction e as [n h s t i ps kids IH]. rewrite chain_to_eq. cbn [children].
  set (e := Elem n h s t i ps kids). assert (∀ c, c ∈ kids → c ∈ children e) as Hk by done. clearbody e. revert IH Hk.
  generalize kids as l. clear. induction l as [|c l IHl]; intros HF Hk; [by left|].
  apply Forall_cons in HF as [Hc HF]. destruct (Nat.eqb_spec (node c) r) as [<-|Hne].
  { right. exists [], c. split_and!; [done|constructor; [apply Hk; set_solver|constructor]|done]. }
  destruct Hc as [->|(p & d & -> & Hp & Hd)]; [apply IHl; [done|]; intros; apply Hk; set_solver|].
  right. exists (c :: p), d. split_and!; [by destruct p|constructor; [apply Hk; set_solver|done]|done].
Qed.

Lemma chain_to_found r e p c : chain e (p ++ [c]) → node c = r → chain_to r e ≠ [].
Proof.
  intros H E. revert e H. induction p as [|x p IH]; intros e H; rewrite chain_to_eq; inversion H as [|? ? ? Hx Hp]; subst;
    revert Hx; induction (children e) as [|y l IHl]; try (intros []%elem_of_nil); intros [->|Hx]%elem_of_cons.
  - by rewrite Nat.eqb_refl.
  - destruct (node y =? node c); [done|]. destruct (chain_to (node c) y); [by apply IHl|done].
  - destruct (node y =? node c); [done|]. specialize (IH y Hp). by destruct (chain_to (node c) y).
  - destruct (node y =? node c); [done|]. destruct (chain_to (node c) y); [by apply IHl|done].
Qed.

Lemma chain_to_chain body p c : unique_nodes body → chain body (p ++ [c]) → chain_to (node c) body = (p ++ [c])%list.
Proof.
  intros Hu Hp. destruct (chain_to_sound (node c) body) as [E|(q & d & -> & Hq & E)].
  - by destruct (chain_to_found _ _ _ _ Hp eq_refl).
  - by apply (chain_unique body).
Qed.

(** ** What is inert while a dialog is open *)

Lemma elem_of_branches body roots x :
  x ∈ branches_of body roots ↔ ∃ r, r ∈ roots ∧ x ∈ node <$> chain_to r body.
Proof.
  unfold branches_of. rewrite elem_of_flat_map. split; intros (r & Hr & Hx); exists r; (split; [done|]);
    apply list_elem_of_fmap in Hx as (y & -> & Hy); apply list_elem_of_fmap; exists y; (split; [done|]);
    revert Hy; by rewrite !list_elem_of_In, <- in_rev.
Qed.

Section Visit.
Context (roots branches : list nat).

(** The walk goes on below this element. *)
Definition passes (e : elem) : Prop := html e = true ∧ node e ∉ roots ∧ node e ∈ branches.
Definition stops (e : elem) : Prop := html e = true ∧ node e ∉ roots ∧ node e ∉ branches.

Lemma visit_eq e :
  visit roots branches e = flat_map (λ child,
      if negb (html child) || bool_decide (node child ∈ roots) then []
      else if bool_decide (node child ∈ branches) then visit roots branches child
      else [node child]) (children e).
Proof. by destruct e. Qed.

Lemma visit_spec e i :
  i ∈ visit roots branches e ↔ ∃ p c, chain e (p ++ [c]) ∧ Forall passes p ∧ stops c ∧ node c = i.
Proof.
  induction e as [n h s t d ps kids IH]. rewrite visit_eq. cbn [children]. rewrite elem_of_flat_map. rewrite Forall_forall in IH.
  set (e := Elem n h s t d ps kids). split.
  - intros (c & Hc & Hi). destruct (html c) eqn:Eh; cbn [negb orb] in Hi; [|by apply elem_of_nil in Hi].
    case_bool_decide as Hr; [by apply elem_of_nil in Hi|]. case_bool_decide as Hb.
    + apply IH in Hi as (p & c' & Hp & Hall & Hs & E); [|done]. exists (c :: p), c'.
      split_and!; [by constructor|by constructor|done|done].
    + apply list_elem_of_singleton in Hi as ->. exists [], c. split_and!; [by repeat constructor|done|done|done].
  - intros (p & c & Hp & Hall & Hs & E). destruct p as [|x p]; inversion Hp as [|? ? ? Hx Hp']; subst.
    + exists c. split; [done|]. destruct Hs as (-> & Hr & Hb). cbn [negb orb].
      rewrite !bool_decide_false by done. by apply list_elem_of_singleton.
    + apply Forall_cons in Hall as [(Hh & Hr & Hb) Hall]. exists x. split; [done|]. rewrite Hh. cbn [negb orb].
      rewrite bool_decide_false, bool_decide_true by done. apply IH; [done|]. by exists p, c.
Qed.
End Visit.

(** Either every element of a list satisfies a property or there is a first that does not. *)
Lemma first_failure {A} (P : A → Prop) `{!∀ x, Decision (P x)} l :
  Forall P l ∨ ∃ p x q, l = (p ++ x :: q)%list ∧ Forall P p ∧ ¬ P x.
Proof.
  induction l as [|x l IH]; [by left|]. destruct (decide (P x)) as [Hx|Hx].
  - destruct IH as [?|(p & y & q & -> & Hp & Hy)]; [left; by constructor|]. right. exists (x :: p), y, q.
    split_and!; [done|by constructor|done].
  - right. by exists [], x, l.
Qed.

Lemma chain_app_inv e p q : chain e (p ++ q) → chain e p.
Proof.
  revert e. induction p as [|x p IH]; intros e H; [constructor|]. inversion H; subst. constructor; [done|]. by apply IH.
Qed.

Lemma exists_last_or_nil {A} (l : list A) : l = [] ∨ ∃ l' x, l = (l' ++ [x])%list.
Proof. destruct l as [|x l]; [by left|]. right. destruct (exists_last (l := x :: l) ltac:(done)) as (l' & y & ->). by exists l', y. Qed.

(** The last element of the chain contains a root. *)
Definition around_root (body : elem) (roots : list nat) (p : list elem) : Prop :=
  ∃ q d, chain body (p ++ q ++ [d]) ∧ node d ∈ roots.

Lemma on_the_way body roots l d x :
  unique_nodes body → chain body (l ++ [d]) → node d ∈ roots → x ∈ (l ++ [d])%list → node x ∈ branches_of body roots.
Proof.
  intros Hu Hl Hd Hx. apply elem_of_branches. exists (node d). split; [done|].
  rewrite (chain_to_chain body l d) by done. apply list_elem_of_fmap. by exists x.
Qed.

Lemma chain_prefix body p n q1 x q2 :
  chain body (p ++ [n]) → (p ++ [n] = q1 ++ x :: q2)%list → chain body (q1 ++ [x]).
Proof. intros H E. rewrite E in H. apply (chain_app_inv body (q1 ++ [x]) q2). by rewrite <- app_assoc. Qed.

Lemma blocked_sound body roots p n e :
  unique_nodes body → chain body (p ++ [n]) → e ∈ (p ++ [n])%list → node e ∈ visit roots (branches_of body roots) body →
  (∀ x, x ∈ (p ++ [n])%list → node x ∉ roots) ∧ ¬ around_root body roots (p ++ [n]).
Proof.
  intros Hu Hp He (p1 & c & Hc & Hall & (Hch & Hcr & Hcb) & E)%visit_spec.
  destruct (list_elem_of_split _ _ He) as (q1 & q2 & Eq).
  assert (p1 ++ [c] = q1 ++ [e])%list as E1.
  { apply (chain_unique body); [done|done|by apply (chain_prefix body p n q1 e q2)|done]. }
  apply app_inj_tail in E1 as [-> ->]. split.
  - intros x Hx Hxr. rewrite Eq in Hx. apply elem_of_app in Hx as [Hx|[->|Hx]%elem_of_cons]; [|done|].
    + rewrite Forall_forall in Hall. by destruct (Hall x Hx) as (_ & ? & _).
    + apply list_elem_of_split in Hx as (q3 & q4 & ->). apply Hcb.
      assert (chain body ((q1 ++ e :: q3) ++ [x])) as Hx.
      { apply (chain_prefix body p n _ x q4); [done|]. by rewrite Eq, <- app_assoc. }
      apply (on_the_way body roots _ _ e Hu Hx Hxr). set_solver.
  - intros (q & d & Hd & Hdr). apply Hcb. rewrite app_assoc in Hd. apply (on_the_way body roots _ _ e Hu Hd Hdr). set_solver.
Qed.

(** While a dialog is open, an element is inert or inside an inert one exactly when it is
    neither inside a root (the dialog's frame, its popups, the toasts) nor around one. *)
Lemma blocked_iff body roots p n :
  unique_nodes body → chain body (p ++ [n]) → Forall (λ e, html e = true) (p ++ [n]) →
  (∃ e, e ∈ (p ++ [n])%list ∧ node e ∈ visit roots (branches_of body roots) body) ↔
  (∀ e, e ∈ (p ++ [n])%list → node e ∉ roots) ∧ ¬ around_root body roots (p ++ [n]).
Proof.
  intros Hu Hp Hh. split; [intros (e & He & Hv); by apply (blocked_sound body roots p n e)|].
  intros [Hr Ha]. rewrite Forall_forall in Hh.
  destruct (first_failure (λ e, node e ∈ branches_of body roots) (p ++ [n])) as [Hall|(q1 & x & q2 & Eq & Hq1 & Hx)].
  - exfalso. rewrite Forall_forall in Hall. specialize (Hall n ltac:(set_solver)).
    apply elem_of_branches in Hall as (r & Hrr & (n' & En & Hn)%list_elem_of_fmap).
    destruct (chain_to_sound r body) as [E|(q & d & E & Hq & Ed)]; rewrite E in Hn; [by apply elem_of_nil in Hn|].
    destruct (list_elem_of_split _ _ Hn) as (s1 & s2 & Es).
    assert (p ++ [n] = s1 ++ [n'])%list as E1 by (apply (chain_unique body); [done|done|by apply (chain_prefix body q d s1 n' s2)|done]).
    destruct (exists_last_or_nil s2) as [->|(s3 & z & ->)].
    + apply app_inj_tail in Es as [-> ->]. apply app_inj_tail in E1 as [_ ->]. apply (Hr n'); [set_solver|]. by rewrite Ed.
    + apply Ha. exists s3, z. rewrite E1, <- app_assoc. cbn [app]. rewrite <- Es. split; [done|].
      change (s1 ++ n' :: s3 ++ [z])%list with (s1 ++ (n' :: s3) ++ [z])%list in Es. rewrite app_assoc in Es.
      apply app_inj_tail in Es as [_ <-]. by rewrite Ed.
  - exists x. split; [rewrite Eq; set_solver|]. apply visit_spec. exists q1, x.
    assert (∀ y, y ∈ q1 ++ x :: q2 → html y = true ∧ node y ∉ roots) as Hok by (rewrite <- Eq; intros y Hy; split; [by apply Hh|by apply Hr]).
    split_and!; [by apply (chain_prefix body p n q1 x q2)| | |done].
    + apply Forall_forall. intros y Hy. rewrite Forall_forall in Hq1. destruct (Hok y ltac:(set_solver)). by split_and!; [| |apply Hq1].
    + destruct (Hok x ltac:(set_solver)). by split_and!.
Qed.

(** ** The interactive roots are found *)

Lemma elem_at_Some body n e : elem_at body n = Some e → e ∈ elems body ∧ node e = n.
Proof. unfold elem_at. intros [H E]%find_first_Some. split; [done|by apply Nat.eqb_eq]. Qed.

Lemma elem_at_exists body e : e ∈ elems body → is_Some (elem_at body (node e)).
Proof.
  intros He. destruct (find_first_exists (λ d, node d =? node e) (elems body) e He) as [d Hd]; [by apply Nat.eqb_refl|]. by exists d.
Qed.

Lemma contains_self body n : is_Some (elem_at body n) → contains body n n = true.
Proof.
  intros [e E]. unfold contains. rewrite E. apply elem_at_Some in E as [_ E]. apply existsb_elem. exists e.
  rewrite elems_eq, E, Nat.eqb_refl. split; [set_solver|done].
Qed.

Lemma getElementById_in body i n : getElementById body i = Some n → is_Some (elem_at body n).
Proof.
  unfold getElementById. intros (e & E1 & ->)%fmap_Some. apply find_first_Some in E1 as [He _].
  apply elem_at_exists. rewrite elems_eq. set_solver.
Qed.

(** Roots found so far: distinct elements of the document. *)
Definition roots_ok (body : elem) (roots : list nat) : Prop :=
  NoDup roots ∧ ∀ r, r ∈ roots → is_Some (elem_at body r).

Lemma push_popup_ok body dialog roots i : roots_ok body roots → roots_ok body (push_popup body dialog roots i).
Proof.
  intros [Hnd Hin]. unfold push_popup. destruct (getElementById body i) as [target|] eqn:Et; [|done].
  apply getElementById_in in Et. cases; [|done]. bool_facts. split.
  - apply NoDup_app. split_and!; [done| |apply NoDup_singleton].
    intros r Hr ->%list_elem_of_singleton. assert (existsb (λ candidate, contains body candidate target) roots = true) as E; [|congruence].
    apply existsb_elem. exists target. split; [done|]. by apply contains_self.
  - intros r [Hr| ->%list_elem_of_singleton]%elem_of_app; [by apply Hin|done].
Qed.

Lemma push_popups_ok body dialog ids roots : roots_ok body roots → roots_ok body (foldl (push_popup body dialog) roots ids).
Proof. revert roots. induction ids as [|i ids IH]; intros roots H; [done|]. apply IH. by apply push_popup_ok. Qed.

Lemma roots_bound body roots : roots_ok body roots → length roots <= length (elems body).
Proof.
  intros [Hnd Hin]. rewrite <- (length_fmap node (elems body)). apply submseteq_length, NoDup_submseteq; [done|].
  intros r Hr. destruct (Hin r Hr) as [e He]. apply elem_at_Some in He as [He <-]. apply list_elem_of_fmap. by exists e.
Qed.

Lemma roots_loop_total body dialog fuel i roots :
  roots_ok body roots → i + fuel = S (length (elems body)) → ∃ r, roots_loop fuel body dialog i roots = Some r ∧ roots_ok body r.
Proof.
  revert i roots. induction fuel as [|fuel IH]; intros i roots Hok Hf; cbn [roots_loop]; destruct (roots !! i) eqn:E; try by eexists.
  - apply lookup_lt_Some in E. pose proof (roots_bound body roots Hok). lia.
  - apply IH; [by apply push_popups_ok|lia].
Qed.

(** The search for the popups of an open dialog ends, whatever the document. *)
Lemma next_inert_total body activeDialog : is_Some (next_inert body activeDialog).
Proof.
  unfold next_inert. destruct activeDialog as [dialog|]; [|by eexists]. unfold isConnected. case_bool_decide as Hc; [|by eexists].
  unfold active_roots, dialogInteractiveRoots. destruct (roots_loop_total body dialog (S (length (elems body))) 0 [dialog]) as (r & -> & _).
  - split; [apply NoDup_singleton|]. by intros ? ->%list_elem_of_singleton.
  - done.
  - by eexists.
Qed.

(** ** The life of the page *)

Definition with_document (body : elem) (s : inertness) : inertness :=
  {| document := body; inert := inert s; activeDialog := activeDialog s; observing := observing s; originalInert := originalInert s |}.
Definition with_inert (f : nat → bool) (s : inertness) : inertness :=
  {| document := document s; inert := f; activeDialog := activeDialog s; observing := observing s; originalInert := originalInert s |}.

(** Dialogs open and close, the document changes and the observer then runs, and the rest
    of the page makes elements inert or not, except those the manager holds. *)
Inductive page_step : (nat → bool) * inertness → (nat → bool) * inertness → Prop :=
  | step_active owner s s' n : setActiveDialog n s = Some s' → page_step (owner, s) (owner, s')
  | step_mutation owner s body : page_step (owner, s) (owner, with_document body s)
  | step_observer owner s s' : observing s = true → syncInertness s = Some s' → page_step (owner, s) (owner, s')
  | step_owner owner s n b :
      omap_get n (originalInert s) = None → page_step (owner, s) (set_attr n b owner, with_inert (set_attr n b (inert s)) s).

Inductive page_reachable : (nat → bool) * inertness → Prop :=
  | page_init owner body :
      page_reachable (owner, {| document := body; inert := owner; activeDialog := None; observing := false; originalInert := [] |})
  | page_next x y : page_reachable x → page_step x y → page_reachable y.

Definition page_inv (x : (nat → bool) * inertness) : Prop :=
  managed x.1 x.2 ∧ observing x.2 = bool_decide (is_Some (activeDialog x.2)) ∧
  (activeDialog x.2 = None → originalInert x.2 = []).

Lemma no_keys (m : list (nat * bool)) : (∀ n, is_Some (omap_get n m) ↔ n ∈ @nil nat) → m = [].
Proof.
  intros H. destruct m as [|[k b] m]; [done|]. exfalso. apply (not_elem_of_nil k), H. cbn [omap_get].
  rewrite bool_decide_true by done. by eexists.
Qed.

Lemma sync_inv owner s s' :
  managed owner s → syncInertness s = Some s' → observing s = bool_decide (is_Some (activeDialog s)) → page_inv (owner, s').
Proof.
  intros Hm E Ho. unfold syncInertness in E. destruct (next_inert (document s) (activeDialog s)) as [next|] eqn:En; [|done].
  injection E as <-. destruct (reconcile_spec owner next s Hm) as (H1 & H2 & _). split_and!; [done|done|].
  cbn [snd]. change (activeDialog (reconcileInertness next s)) with (activeDialog s). intros Hn. rewrite Hn in En.
  injection En as <-. by apply no_keys.
Qed.

Lemma page_step_inv x y : page_inv x → page_step x y → page_inv y.
Proof.
  intros (Hm & Ho & Hn) Hs. destruct Hs as [owner s s' n E|owner s body|owner s s' _ E|owner s n b Hk]; cbn [fst snd] in *.
  - unfold setActiveDialog in E. eapply sync_inv; [|exact E|done]. exact Hm.
  - by split_and!.
  - by eapply sync_inv.
  - split_and!; [|done|done]. destruct Hm as [Hnd Hh]. split; [done|]. intros m. specialize (Hh m).
    cbn [fst snd with_inert inert originalInert] in *. unfold set_attr. destruct (Nat.eqb_spec m n) as [->|]; [by rewrite Hk|done].
Qed.

Lemma page_reachable_inv x : page_reachable x → page_inv x.
Proof. induction 1 as [owner body|x y _ IH Hs]; [|by eapply page_step_inv]. by split_and!; [split; [constructor|]| |]. Qed.

(** C19. The page around an open dialog. With no dialog open every element is inert exactly as
    its owner wants. Whenever the manager runs it finishes; the elements it holds are then
    inert, all others are as their owner wants; and with a dialog open an HTML element is
    held or lies inside a held one exactly when it is neither inside the dialog's frame,
    its popups or a toast, nor around one of them. *)
Theorem inertness_safe owner s :
  page_reachable (owner, s) →
  (activeDialog s = None → ∀ n, inert s n = owner n) ∧
  ∃ s', syncInertness s = Some s' ∧
    (∀ n, inert s' n = bool_decide (is_Some (omap_get n (originalInert s'))) || owner n) ∧
    ∀ dialog roots p n,
      activeDialog s = Some dialog → isConnected (document s) dialog = true → active_roots (document s) dialog = Some roots →
      unique_nodes (document s) → chain (document s) (p ++ [n]) → Forall (λ e, html e = true) (p ++ [n]) →
      (∃ e, e ∈ (p ++ [n])%list ∧ is_Some (omap_get (node e) (originalInert s'))) ↔
      (∀ e, e ∈ (p ++ [n])%list → node e ∉ roots) ∧ ¬ around_root (document s) roots (p ++ [n]).
Proof.
  intros (Hm & Ho & Hn)%page_reachable_inv. cbn [fst snd] in *. split.
  { intros E n. destruct Hm as [_ Hh]. specialize (Hh n). cbn [fst snd] in Hh. by rewrite Hn in Hh by done. }
  unfold syncInertness. destruct (next_inert_total (document s) (activeDialog s)) as [next En]. rewrite En.
  destruct (reconcile_spec owner next s Hm) as (_ & Hkeys & Hin). eexists. split; [done|]. split.
  { intros n. rewrite Hin. f_equal. apply bool_decide_ext. by rewrite Hkeys. }
  intros dialog roots p n Ha Hc Hr Hu Hp Hh. rewrite <- (blocked_iff (document s) roots p n) by done.
  rewrite Ha in En. unfold next_inert in En. rewrite Hc, Hr in En. cbn [mbind option_bind] in En. injection En as <-.
  split; intros (e & He & Hx); exists e; (split; [done|]); rewrite Hkeys, elem_of_oset_of in *; done.
Qed.

Definition box (n : nat) (kids : list elem) : elem := Elem n true false false "" [] kids.
Definition sample_page : elem :=
  box 0 [box 1 [box 2 []]; Elem 3 true true false "" [] [box 4 [Elem 5 true false false "" ["menu"] []]];
         box 6 [Elem 7 true false false "menu" [] []; box 8 []]; Elem 9 true false true "" [] []].

Definition closed_page : inertness :=
  {| document := sample_page; inert := λ n, n =? 8; activeDialog := None; observing := false; originalInert := [] |}.

Lemma inertness_safe_witness :
  ∃ s, setActiveDialog (Some 4) closed_page = Some s ∧ active_roots sample_page 4 = Some [3; 7; 9] ∧
    page_reachable (λ n, n =? 8, s) ∧ (inert s <$> [1; 2; 3; 4; 6; 7; 8; 9]) = [true; false; false; false; false; false; true; false] ∧
    (∃ s', syncInertness s = Some s' ∧ ∀ n, inert s' n = bool_decide (is_Some (omap_get n (originalInert s'))) || (n =? 8)) ∧
    (∃ s', setActiveDialog None s = Some s' ∧ inert s' 1 = false ∧ inert s' 8 = true).
Proof.
  eexists. split; [reflexivity|]. split; [by vm_compute|].
  assert (page_reachable (λ n, n =? 8, default closed_page (setActiveDialog (Some 4) closed_page))) as Hr.
  { eapply page_next; [apply (page_init (λ n, n =? 8) sample_page)|]. by apply (step_active _ closed_page _ (Some 4)). }
  split; [exact Hr|]. split; [by vm_compute|]. split.
  - destruct (inertness_safe _ _ Hr) as (_ & s' & E & H & _). exists s'. split; [exact E|exact H].
  - eexists. split; [reflexivity|]. split; by vm_compute.
Defined.

(** ** Model of useDialogBehavior.ts: the stack of dialogs *)

Record Modal := { modal_id : string; modal_node : nat }.

Section Stack.
Context (body : elem).

(** The update of the layout effect that opens a dialog. *)
Definition open_modal (m : Modal) (modals : list Modal) : list Modal :=
  let position := default (length modals) (find_index (λ x, contains body (modal_node m) (modal_node x)) modals) in
  (take position modals ++ m :: drop position modals)%list.

Definition close_modal (i : string) (modals : list Modal) : list Modal := bfilter (λ m, negb (String.eqb (modal_id m) i)) modals.

Definition top_dialog (modals : list Modal) : option nat := modal_node <$> last modals.

Definition isTop (i : string) (modals : list Modal) : bool := bool_decide (modal_id <$> last modals = Some i).

Definition depth (i : string) (modals : list Modal) : nat := default 0 (find_index (λ m, String.eqb (modal_id m) i) modals).
End Stack.

(** [updateStack]: the top dialog becomes the active one. *)
Definition updateStack (modals : list Modal) (s : inertness) : option inertness := setActiveDialog (top_dialog modals) s.

Lemma elems_trans e d f : d ∈ elems e → f ∈ elems d → f ∈ elems e.
Proof.
  revert d f. induction e as [n h s t i ps kids IH]. intros d f Hd Hf. rewrite elems_eq in Hd.
  apply elem_of_cons in Hd as [->|Hd]; [done|]. unfold descendants in Hd. cbn [children] in Hd.
  apply elem_of_flat_map in Hd as (c & Hc & Hd). rewrite Forall_forall in IH. rewrite elems_eq. apply elem_of_cons. right.
  apply (elem_of_child c); [done|]. by apply (IH c Hc d).
Qed.

Lemma descendant_trans e d f : d ∈ descendants e → f ∈ elems d → f ∈ descendants e.
Proof.
  unfold descendants. rewrite !elem_of_flat_map. intros (c & Hc & Hd) Hf. exists c. split; [done|]. by apply (elems_trans c d).
Qed.

Lemma unique_below e d : unique_nodes e → d ∈ elems e → unique_nodes d.
Proof.
  revert d. induction e as [n h s t i ps kids IH]. intros d Hu Hd. rewrite elems_eq in Hd.
  apply elem_of_cons in Hd as [->|Hd]; [done|]. unfold descendants in Hd. apply elem_of_flat_map in Hd as (c & Hc & Hd).
  rewrite Forall_forall in IH. apply (IH c Hc d); [|done]. by eapply unique_child.
Qed.

Lemma unique_elem body d e : unique_nodes body → d ∈ elems body → e ∈ elems body → node d = node e → d = e.
Proof. intros Hu. apply (NoDup_map_inj node). exact Hu. Qed.

Lemma contains_iff body a b :
  unique_nodes body → contains body a b = true ↔ ∃ e d, e ∈ elems body ∧ node e = a ∧ d ∈ elems e ∧ node d = b.
Proof.
  intros Hu. unfold contains. split.
  - destruct (elem_at body a) as [e|] eqn:E; [|done]. apply elem_at_Some in E as [He <-].
    intros (d & Hd & Hb)%existsb_elem. apply Nat.eqb_eq in Hb. by exists e, d.
  - intros (e & d & He & <- & Hd & <-). destruct (elem_at_exists body e He) as [e' E]. rewrite E.
    apply elem_at_Some in E as [He' En]. assert (e' = e) as -> by (by apply (unique_elem body)).
    apply existsb_elem. exists d. by rewrite Nat.eqb_refl.
Qed.

Lemma contains_trans body a b c :
  unique_nodes body → contains body a b = true → contains body b c = true → contains body a c = true.
Proof.
  intros Hu. rewrite !contains_iff by done. intros (e & d & He & <- & Hd & Eb) (e' & f & He' & E' & Hf & <-).
  assert (d = e') as <- by (apply (unique_elem body); [done|by apply (elems_trans body e)|done|congruence]).
  exists e, f. split_and!; [done|done|by apply (elems_trans e d)|done].
Qed.

Lemma contains_antisym body a b : unique_nodes body → contains body a b = true → contains body b a = true → a = b.
Proof.
  intros Hu. rewrite !contains_iff by done. intros (e & d & He & <- & Hd & Eb) (e' & f & He' & E' & Hf & Ea).
  assert (d = e') as <- by (apply (unique_elem body); [done|by apply (elems_trans body e)|done|congruence]).
  rewrite elems_eq in Hd. apply elem_of_cons in Hd as [->|Hd]; [done|]. exfalso.
  apply (unique_not_below e f); [by apply (unique_below body)|by apply (descendant_trans e d)|done].
Qed.

(** No dialog of the stack lies over one that it contains. *)
Definition nested (body : elem) (modals : list Modal) : Prop :=
  StronglySorted (λ lower upper, contains body (modal_node upper) (modal_node lower) = false) modals.

Lemma open_modal_split body m modals :
  ∃ l1 l2, modals = (l1 ++ l2)%list ∧ open_modal body m modals = (l1 ++ m :: l2)%list ∧
    (∀ y, y ∈ l1 → contains body (modal_node m) (modal_node y) = false) ∧
    (l2 = [] ∨ ∃ x l3, l2 = x :: l3 ∧ contains body (modal_node m) (modal_node x) = true).
Proof.
  unfold open_modal, find_index. destruct (list_find _ modals) as [[k x]|] eqn:E; cbn [fmap option_fmap option_map fst from_option id].
  - apply list_find_Some in E as (Hk & Hx & Hbefore). exists (take k modals), (drop k modals).
    rewrite take_drop. split_and!; [done|done| |right; exists x, (drop (S k) modals); split; [by apply drop_S|done]].
    intros y (j & Hj)%list_elem_of_lookup. apply lookup_take_Some in Hj as [Hj Hlt]. specialize (Hbefore j y Hj Hlt).
    by destruct (contains body (modal_node m) (modal_node y)).
  - apply list_find_None in E. rewrite Forall_forall in E. exists modals, []. rewrite firstn_all, drop_all, app_nil_r.
    split_and!; [done|done| |by left]. intros y Hy. specialize (E y Hy). by destruct (contains body (modal_node m) (modal_node y)).
Qed.

(** A dialog opens on top of the stack, or directly below the first open dialog that it
    contains; the others keep their order, no dialog is then over one it contains, and
    closing dialogs keeps that. *)
Theorem open_modal_nested body m modals :
  unique_nodes body → nested body modals → (∀ x, x ∈ modals → modal_node x ≠ modal_node m) →
  nested body (open_modal body m modals) ∧ Permutation (open_modal body m modals) (m :: modals) ∧
  (top_dialog (open_modal body m modals) = Some (modal_node m) ∨
   ∃ x, x ∈ modals ∧ contains body (modal_node m) (modal_node x) = true) ∧
  ∀ i, nested body (close_modal i modals).
Proof.
  intros Hu Hn Hfresh. destruct (open_modal_split body m modals) as (l1 & l2 & -> & -> & H1 & H2). split_and!.
  - unfold nested in *. apply StronglySorted_app in Hn as (Hx & Hs1 & Hs2). apply StronglySorted_app. split_and!.
    + intros y z Hy [->|Hz]%elem_of_cons; [by apply H1|by apply Hx].
    + done.
    + constructor; [done|]. apply Forall_forall. intros z Hz. destruct (contains body (modal_node z) (modal_node m)) eqn:E; [|done].
      destruct H2 as [->|(x & l3 & -> & Hmx)]; [by apply elem_of_nil in Hz|]. exfalso.
      apply elem_of_cons in Hz as [->|Hz].
      * apply (Hfresh x); [set_solver|]. by apply (contains_antisym body).
      * inversion Hs2 as [|? ? _ Hall]; subst. rewrite Forall_forall in Hall. specialize (Hall z Hz).
        rewrite (contains_trans body _ (modal_node m)) in Hall by done. done.
  - by rewrite <- Permutation_middle.
  - destruct H2 as [->|(x & l3 & -> & Hmx)]; [left; unfold top_dialog; by rewrite last_snoc|right]. exists x. split; [set_solver|done].
  - intros i. by apply StronglySorted_bfilter.
Qed.

Lemma open_modal_nested_witness :
  let outer := {| modal_id := "outer"; modal_node := 3 |} in
  let inner := {| modal_id := "inner"; modal_node := 4 |} in
  unique_nodes sample_page ∧ nested sample_page [inner] ∧ open_modal sample_page outer [inner] = [outer; inner] ∧
  nested sample_page (open_modal sample_page outer [inner]).
Proof.
  intros outer inner. assert (unique_nodes sample_page) as Hu by (apply (bool_decide_unpack _); by vm_compute).
  assert (nested sample_page [inner]) as Hn by (repeat constructor).
  split; [done|]. split; [done|]. split; [by vm_compute|].
  apply (open_modal_nested sample_page outer [inner] Hu Hn). intros x ->%list_elem_of_singleton. done.
Defined.
