(* ===== verification/ConfirmDialog.v ===== *)
(** The confirmation dialog: the hook [useConfirmDialog] of
    frontend/src/components/ConfirmDialog.tsx as a transition system. The objects the
    source compares by identity are numbered as they are created. A handler belongs to a
    render and sees the state that render showed, so it may run with any state ever set.
    An action's outcome arrives later, after any other events. *)

From S2P Require Import Prelude.
Local Open Scope nat_scope.

(** The value of the hook's state: its identity, the opening whose options it carries,
    whether it is loading, and the options' [confirmDisabled]. *)
Record dialog := { oid : nat; opening : nat; isLoading : bool; confirmDisabled : bool }.
#[export] Instance dialog_eq_dec : EqDecision dialog.
Proof. solve_decision. Defined.

Inductive outcome := OutcomeDone | OutcomeRefused | OutcomeRejected.

Inductive run_status := RunRunning | RunRefused | RunFinished.
#[export] Instance run_status_eq_dec : EqDecision run_status.
Proof. solve_decision. Defined.

(** One execution of [onConfirm]: the state before it and the pending one. *)
Record run := { base : dialog; pending : dialog; status : run_status }.

Inductive event := Ran (k : nat) | ErrorToast (k : nat) | Cancelled (k : nat).

Record confirm_state := {
  objects : nat; openings : nat; shown : option dialog; set_states : list (option dialog); activeRef : option dialog;
  runs : list run; events : list event;
}.

(** [setState], and the reference beside it. *)
Definition show (active next : option dialog) (rs : list run) (es : list event) (s : confirm_state) : confirm_state :=
  {| objects := objects s; openings := openings s; shown := next; set_states := (set_states s ++ [next])%list; activeRef := active;
     runs := rs; events := (events s ++ es)%list |}.

Definition fresh_object (opened : bool) (s : confirm_state) : confirm_state :=
  {| objects := S (objects s); openings := if opened then S (openings s) else openings s; shown := shown s;
     set_states := set_states s; activeRef := activeRef s; runs := runs s; events := events s |}.

Definition confirm (disabled : bool) (s : confirm_state) : confirm_state :=
  let next := {| oid := objects s; opening := openings s; isLoading := false; confirmDisabled := disabled |} in
  show (Some next) (Some next) (runs s) [] (fresh_object true s).

(** [handleConfirm] up to the awaited action; [state] is its render's. *)
Definition handleConfirm (state : option dialog) (s : confirm_state) : confirm_state :=
  match state with
  | None => s
  | Some o =>
      if negb (bool_decide (activeRef s = Some o)) || isLoading o || confirmDisabled o then s
      else let p := {| oid := objects s; opening := opening o; isLoading := true; confirmDisabled := confirmDisabled o |} in
           show (Some p) (Some p) (runs s ++ [{| base := o; pending := p; status := RunRunning |}])%list [Ran (opening o)]
             (fresh_object false s)
  end.

Definition set_run (i : nat) (st : run_status) (rs : list run) : list run :=
  alter (λ r, {| base := base r; pending := pending r; status := st |}) i rs.

Definition with_run (i : nat) (st : run_status) (s : confirm_state) : confirm_state :=
  {| objects := objects s; openings := openings s; shown := shown s; set_states := set_states s; activeRef := activeRef s;
     runs := set_run i st (runs s); events := events s |}.

(** The rest of [handleConfirm], when the action of run [i] has its outcome. *)
Definition settle (i : nat) (o : outcome) (s : confirm_state) : option confirm_state :=
  r ← runs s !! i;
  if negb (bool_decide (status r = RunRunning)) then None
  else if negb (bool_decide (activeRef s = Some (pending r))) then Some (with_run i RunFinished s)
  else Some (match o with
             | OutcomeRefused => show (Some (base r)) (Some (base r)) (set_run i RunRefused (runs s)) [] s
             | OutcomeDone => show None None (set_run i RunFinished (runs s)) [] s
             | OutcomeRejected => show None None (set_run i RunFinished (runs s)) [ErrorToast (opening (pending r))] s
             end).

Definition handleCancel (state : option dialog) (s : confirm_state) : confirm_state :=
  match state with
  | None => s
  | Some o =>
      if bool_decide (opening <$> activeRef s = Some (opening o))
      then show None None (runs s) [Cancelled (opening o)] s else s
  end.

Definition unmount (s : confirm_state) : confirm_state :=
  {| objects := objects s; openings := openings s; shown := shown s; set_states := set_states s; activeRef := None;
     runs := runs s; events := events s |}.

Inductive step : confirm_state → confirm_state → Prop :=
  | step_confirm s disabled : step s (confirm disabled s)
  | step_handleConfirm s state : state ∈ set_states s → step s (handleConfirm state s)
  | step_settle s s' i o : settle i o s = Some s' → step s s'
  | step_handleCancel s state : state ∈ set_states s → step s (handleCancel state s)
  | step_unmount s : step s (unmount s).

Definition initial : confirm_state :=
  {| objects := 0; openings := 0; shown := None; set_states := [None]; activeRef := None; runs := []; events := [] |}.

Inductive reachable : confirm_state → Prop :=
  | reach_init : reachable initial
  | reach_step s s' : reachable s → step s s' → reachable s'.

(** ** Invariant *)

(** The dialog that is open now, if any, against the runs: a loading one is the pending
    state of a running action; of one that is not, every earlier run was refused. *)
Definition open_ok (s : confirm_state) (o : dialog) : Prop :=
  oid o < objects s ∧ opening o < openings s ∧
  if isLoading o then ∃ r, r ∈ runs s ∧ pending r = o ∧ status r = RunRunning
  else ∀ r, r ∈ runs s → opening (pending r) = opening o → status r = RunRefused.

Definition run_ok (s : confirm_state) (r : run) : Prop :=
  oid (pending r) < objects s ∧ opening (pending r) < openings s ∧ opening (base r) = opening (pending r) ∧
  oid (base r) < objects s ∧ isLoading (base r) = false ∧ isLoading (pending r) = true.

Definition once (rs : list run) : Prop :=
  ∀ i j r r', rs !! i = Some r → rs !! j = Some r' → opening (pending r) = opening (pending r') →
    status r ≠ RunRefused → status r' ≠ RunRefused → i = j.

Definition distinct (rs : list run) : Prop :=
  ∀ i j r r', rs !! i = Some r → rs !! j = Some r' → oid (pending r) = oid (pending r') → i = j.

Definition about (e : event) : nat := match e with Ran k | ErrorToast k | Cancelled k => k end.

(** Once an opening is cancelled nothing more is reported of it. *)
Definition no_late (es : list event) : Prop := ∀ l1 e l2, es = (l1 ++ e :: l2)%list → Cancelled (about e) ∉ l1.

Definition inv (s : confirm_state) : Prop :=
  (∀ o, activeRef s = Some o → shown s = Some o ∧ open_ok s o ∧ Cancelled (opening o) ∉ events s) ∧
  (∀ r, r ∈ runs s → run_ok s r) ∧ once (runs s) ∧ distinct (runs s) ∧
  (∀ k, Cancelled k ∈ events s → k < openings s) ∧ no_late (events s).

Lemma no_late_snoc es e : no_late es → Cancelled (about e) ∉ es → no_late (es ++ [e]).
Proof.
  intros H He l1 x l2 E. destruct l2 as [|y l2 _] using rev_ind.
  - apply app_inj_tail in E as [-> ->]. done.
  - change (x :: l2 ++ [y])%list with ((x :: l2) ++ [y])%list in E. rewrite app_assoc in E.
    apply app_inj_tail in E as [-> _]. by apply (H l1 x l2).
Qed.

Lemma set_run_lookup i st rs j r' :
  set_run i st rs !! j = Some r' →
  ∃ r, rs !! j = Some r ∧ base r' = base r ∧ pending r' = pending r ∧ status r' = if j =? i then st else status r.
Proof.
  unfold set_run. rewrite list_lookup_alter. destruct (Nat.eqb_spec j i) as [->|Hne].
  - rewrite decide_True by done. intros (r & E & ->)%fmap_Some. by exists r.
  - rewrite decide_False by done. intros E. by exists r'.
Qed.

Lemma set_run_ok s i st r :
  (∀ r, r ∈ runs s → run_ok s r) → r ∈ set_run i st (runs s) → run_ok s r.
Proof.
  intros H (j & Hj)%list_elem_of_lookup. apply set_run_lookup in Hj as (r0 & Hr & Eb & Ep & _).
  apply list_elem_of_lookup_2, H in Hr. unfold run_ok. by rewrite Eb, Ep.
Qed.

Lemma set_run_distinct i st rs : distinct rs → distinct (set_run i st rs).
Proof.
  intros H j k r r' Hj Hk. apply set_run_lookup in Hj as (a & Ha & _ & -> & _), Hk as (b & Hb & _ & -> & _). by apply (H j k a b).
Qed.

Lemma set_run_once i st rs r :
  rs !! i = Some r → status r ≠ RunRefused → once rs → once (set_run i st rs).
Proof.
  intros Hi Hr H j k x y Hj Hk E Hx Hy.
  apply set_run_lookup in Hj as (a & Ha & _ & Ea & Sa), Hk as (b & Hb & _ & Eb & Sb).
  rewrite Ea, Eb in E. destruct (Nat.eqb_spec j i) as [->|], (Nat.eqb_spec k i) as [->|]; try done;
    [apply (H i k a b)|apply (H j i a b)|apply (H j k a b)]; try done; congruence.
Qed.

Lemma confirm_inv disabled s : inv s → inv (confirm disabled s).
Proof.
  intros (Hact & Hruns & Hone & Hdis & Hcan & Hlate). unfold confirm. set (next := {| oid := objects s |}).
  split_and!; cbn [activeRef shown runs events show fresh_object objects openings]; rewrite ?app_nil_r; try done.
  - intros o [= <-]. split_and!; [done| |intros Hc; specialize (Hcan _ Hc); cbn in *; lia].
    unfold open_ok. cbn. split_and!; [lia|lia|]. intros r Hr E. destruct (Hruns r Hr) as (_ & Ho & _). lia.
  - intros r Hr. destruct (Hruns r Hr) as (? & ? & ? & ? & ? & ?). unfold run_ok. cbn. split_and!; try done; lia.
  - intros k Hk. specialize (Hcan k Hk). lia.
Qed.

Lemma handleConfirm_inv state s : inv s → inv (handleConfirm state s).
Proof.
  intros Hinv. pose proof Hinv as (Hact & Hruns & Hone & Hdis & Hcan & Hlate). unfold handleConfirm. destruct state as [o|]; [|done].
  cases; [done|]. bool_facts. apply bool_decide_eq_true in H. destruct (Hact o H) as (_ & (Ho & Hk & Hopen) & Hnc).
  rewrite H1 in Hopen. set (p := {| oid := objects s; opening := opening o |}). set (new := {| base := o; pending := p; status := RunRunning |}).
  assert (∀ i r, (runs s ++ [new])%list !! i = Some r → (runs s !! i = Some r) ∨ (r = new ∧ i = length (runs s))) as Hlk.
  { intros i r [?|(Hi & Hr)]%lookup_app_Some; [by left|right]. apply list_lookup_singleton_Some in Hr as [? <-]. split; [done|lia]. }
  split_and!; cbn [activeRef shown runs events show fresh_object objects openings].
  - intros q [= <-]. split_and!; [done| |rewrite elem_of_app, list_elem_of_singleton; intros [?|?]; [by apply Hnc|done]].
    unfold open_ok. cbn. split_and!; [lia|done|]. exists new. split_and!; [|done|done]. rewrite elem_of_app, list_elem_of_singleton. by right.
  - intros r [Hr| ->%list_elem_of_singleton]%elem_of_app.
    + destruct (Hruns r Hr) as (? & ? & ? & ? & ? & ?). unfold run_ok. cbn. split_and!; try done; lia.
    + unfold run_ok. cbn. split_and!; try done; lia.
  - intros i j r r' Hi Hj E Hr Hr'. apply Hlk in Hi as [Hi|[-> ->]], Hj as [Hj|[-> ->]]; [by apply (Hone i j r r')| | |done].
    + destruct Hr. apply Hopen; [by eapply list_elem_of_lookup_2|done].
    + destruct Hr'. apply Hopen; [by eapply list_elem_of_lookup_2|done].
  - intros i j r r' Hi Hj E. apply Hlk in Hi as [Hi|[-> ->]], Hj as [Hj|[-> ->]]; [by apply (Hdis i j r r')| | |done];
      [apply list_elem_of_lookup_2, Hruns in Hi as (Hlt & _)|apply list_elem_of_lookup_2, Hruns in Hj as (Hlt & _)]; cbn in *; lia.
  - intros k. rewrite elem_of_app, list_elem_of_singleton. intros [Hc|?]; [|done]. by apply Hcan.
  - by apply no_late_snoc.
Qed.

Lemma settle_inv i out s s' : inv s → settle i out s = Some s' → inv s'.
Proof.
  intros (Hact & Hruns & Hone & Hdis & Hcan & Hlate) E. unfold settle in E.
  destruct (runs s !! i) as [r|] eqn:Hi; cbn [mbind option_bind] in E; [|done].
  case_bool_decide as Hrun; cbn [negb] in E; [|done].
  assert (once (set_run i RunFinished (runs s)) ∧ once (set_run i RunRefused (runs s))) as [Hone1 Hone2].
  { split; apply (set_run_once i _ _ r); try done; congruence. }
  pose proof (Hruns r (list_elem_of_lookup_2 _ _ _ Hi)) as (Hp1 & Hp2 & Hp3 & Hp4 & Hp5 & Hp6).
  case_bool_decide as Hcur; cbn [negb] in E.
  - destruct (Hact _ Hcur) as (_ & _ & Hnc). injection E as <-.
    destruct out; split_and!; cbn [activeRef shown runs events show with_run objects openings]; rewrite ?app_nil_r; try done;
      try (by intros x Hx; change (run_ok s x); eapply set_run_ok); try by apply set_run_distinct.
    + intros o [= <-]. split_and!; [done| |by rewrite Hp3]. unfold open_ok. cbn. rewrite Hp5. split_and!; [done|by rewrite Hp3|].
      intros x (j & Hj)%list_elem_of_lookup Ex. apply set_run_lookup in Hj as (y & Hy & _ & Ey & ->).
      destruct (Nat.eqb_spec j i) as [|Hne]; [done|]. destruct (decide (status y = RunRefused)) as [|Hn]; [done|].
      destruct Hne. apply (Hone j i y r); [done|done|congruence|done|congruence].
    + intros k. rewrite elem_of_app, list_elem_of_singleton. intros [Hc|?]; [|done]. by apply Hcan.
    + by apply no_late_snoc.
  - injection E as <-. split_and!; cbn [activeRef shown runs events with_run objects openings]; try done;
      try (by intros x Hx; change (run_ok s x); eapply set_run_ok); try by apply set_run_distinct.
    intros o Ho. destruct (Hact o Ho) as (Hs & (Ho1 & Ho2 & Hopen) & Hnc). split_and!; [done| |done].
    unfold open_ok. cbn. split_and!; [done|done|]. destruct (isLoading o) eqn:El.
    + destruct Hopen as (x & (j & Hj)%list_elem_of_lookup & Ex & Sx). exists x. split_and!; [|done|done].
      apply (list_elem_of_lookup_2 _ j). unfold set_run. rewrite list_lookup_alter_ne; [done|]. intros <-. apply Hcur. congruence.
    + intros x (j & Hj)%list_elem_of_lookup Ex. apply set_run_lookup in Hj as (y & Hy & _ & Ey & ->). rewrite Ey in Ex.
      pose proof (Hopen y (list_elem_of_lookup_2 _ _ _ Hy) Ex) as Hr. destruct (Nat.eqb_spec j i) as [->|]; [|done]. congruence.
Qed.

Lemma handleCancel_inv state s : inv s → inv (handleCancel state s).
Proof.
  intros Hinv. pose proof Hinv as (Hact & Hruns & Hone & Hdis & Hcan & Hlate). unfold handleCancel. destruct state as [o|]; [|done].
  case_bool_decide as Hc; [|done]. apply fmap_Some in Hc as (a & Ha & Eo). destruct (Hact a Ha) as (_ & (_ & Hlt & _) & Hnc).
  split_and!; cbn [activeRef shown runs events show objects openings]; try done.
  - intros k. rewrite elem_of_app, list_elem_of_singleton. intros [?|[= ->]]; [by apply Hcan|]. by rewrite Eo.
  - apply no_late_snoc; [done|]. cbn [about]. by rewrite Eo.
Qed.

Lemma reachable_confirm_inv s : reachable s → inv s.
Proof.
  induction 1 as [|s s' _ IH Hs].
  { split_and!; cbn; try done; try (intros ? ?%elem_of_nil; done). intros l1 e l2 E. by destruct l1. }
  destruct Hs as [s disabled|s state _|s s' i o E|s state _|s].
  - by apply confirm_inv. - by apply handleConfirm_inv. - by eapply settle_inv. - by apply handleCancel_inv.
  - destruct IH as (_ & H). by split.
Qed.

(** C13. In every history of opening, confirming, cancelling and answering, however late: an
    opening's action runs once, and again only if every earlier run was refused; the open
    dialog is the one shown; an action that ends after its dialog was closed or replaced
    changes nothing on screen and reports nothing; and once an opening is cancelled its
    action is neither run nor reported, and it is not cancelled twice. *)
Theorem confirm_dialog_safe s :
  reachable s →
  once (runs s) ∧
  (∀ o, activeRef s = Some o → shown s = Some o ∧
     (isLoading o = false → ∀ r, r ∈ runs s → opening (pending r) = opening o → status r = RunRefused)) ∧
  (∀ i r out s', runs s !! i = Some r → activeRef s ≠ Some (pending r) → settle i out s = Some s' →
     activeRef s' = activeRef s ∧ shown s' = shown s ∧ events s' = events s) ∧
  no_late (events s).
Proof.
  intros (Hact & _ & Hone & _ & _ & Hlate)%reachable_confirm_inv. split_and!; [done| | |done].
  - intros o Ho. destruct (Hact o Ho) as (Hs & (_ & _ & Hopen) & _). split; [done|]. intros E. by rewrite E in Hopen.
  - intros i r out s' Hi Hne E. unfold settle in E. rewrite Hi in E. cbn [mbind option_bind] in E.
    rewrite (bool_decide_false (activeRef s = _)) in E by done. cbn [negb] in E. destruct (negb _); [done|]. by injection E as <-.
Qed.

(** A dialog is confirmed, cancelled while its action runs, and another opened: the
    action's failure is not reported. *)
Lemma confirm_dialog_safe_witness :
  let d k b n := Some {| oid := n; opening := k; isLoading := b; confirmDisabled := false |} in
  let s := confirm false (handleCancel (d 0 true 1) (handleConfirm (d 0 false 0) (confirm false initial))) in
  reachable s ∧ activeRef s = d 1 false 2 ∧ events s = [Ran 0; Cancelled 0] ∧ no_late (events s) ∧
  ∃ s', settle 0 OutcomeRejected s = Some s' ∧ events s' = [Ran 0; Cancelled 0] ∧ shown s' = d 1 false 2.
Proof.
  intros d s. assert (reachable s) as Hr.
  { assert (reachable (confirm false initial)) as H0 by (eapply reach_step; [apply reach_init|apply step_confirm]).
    assert (reachable (handleConfirm (d 0 false 0) (confirm false initial))) as H1.
    { eapply reach_step; [exact H0|]. apply step_handleConfirm, (bool_decide_unpack _). by vm_compute. }
    unfold s. eapply reach_step; [|apply step_confirm]. eapply reach_step; [exact H1|].
    apply step_handleCancel, (bool_decide_unpack _). by vm_compute. }
  split; [done|]. split; [by vm_compute|]. split; [by vm_compute|]. split; [apply (confirm_dialog_safe s Hr)|].
  eexists. split; [reflexivity|]. split; by vm_compute.
Defined.
