(* ===== verification/InvoiceActions.v ===== *)
(** Actions on a period's invoices: the sends, their delivery watch and the actions on
    offer, frontend/src/features/invoices/useInvoiceActions.tsx and useEmailDelivery.ts.

    Clicks act on the committed render. The hook's effects run after every change of the
    watch or the rows; a timer fires at the first tick at or after its time. Requests
    answer in any order, and their scope is the one they were made in. *)

From S2P Require Import Prelude JsString JsNumber InvoiceTypes Invoices Access.
Local Open Scope string_scope.

(** ** Permissions *)

Definition isSendable (row : InvoicePeriodParticipantRow) : bool :=
  has_status row "approved" && truthy_str (participant_email row).

Definition hasDeletePermission (i : Invoice) (is_admin : bool) : bool :=
  if negb (num_eqb (number_or_zero (paid_chf i)) (of_Z 0)) then false
  else if is_admin then true
  else (String.eqb (status i) "draft" || String.eqb (status i) "cancelled") && negb (truthy_str (approved_at i)).

(** ** Model of useEmailDelivery.ts *)

Definition POLL_MS : Z := 2500.
Definition EMAIL_DELIVERY_TIMEOUT_MS : Z := 90000.

Record EmailTarget := { target_invoice : string; previousLogId : option string; announce : bool }.

Inductive settlement := SettledDone | SettledAs (s : EmailStatus).

Definition row_of (rows : list InvoicePeriodParticipantRow) (id : string) : option Invoice :=
  find_first (λ row, match invoice row with Some i => String.eqb (invoice_id i) id | None => false end) rows ≫= invoice.

Definition settled (rows : list InvoicePeriodParticipantRow) (target : EmailTarget) : option settlement :=
  i ← row_of rows (target_invoice target);
  if existsb (String.eqb (status i)) ["paid"; "cancelled"] then Some SettledDone
  else latest ← getLatestEmailLog (Some i);
       if negb (bool_decide (Some (log_id latest) = previousLogId target))
          && (bool_decide (log_status latest = EmailSent) || bool_decide (log_status latest = EmailFailed))
       then Some (SettledAs (log_status latest)) else None.

Record EmailWatch := { watch_until : Z; targets : list EmailTarget }.

Definition is_settled (rows : list InvoicePeriodParticipantRow) (t : EmailTarget) : bool := bool_decide (is_Some (settled rows t)).

Definition announced (rows : list InvoicePeriodParticipantRow) (t : EmailTarget) : bool :=
  announce t && match settled rows t with Some (SettledAs EmailSent) => true | _ => false end.

(** The effect on the watch and the rows: the watch it leaves, and its toasts. *)
Definition deliver (rows : list InvoicePeriodParticipantRow) (w : EmailWatch) : option EmailWatch * list string :=
  let outstanding := bfilter (λ t, negb (is_settled rows t)) (targets w) in
  if (length outstanding <? length (targets w))%nat
  then (match outstanding with [] => None | _ => Some {| watch_until := watch_until w; targets := outstanding |} end,
        if existsb (announced rows) (targets w) then ["pages.invoices.messages.emailSentSuccess"] else [])
  else (Some w, []).

Definition track (now : Z) (new : list EmailTarget) (current : option EmailWatch) : EmailWatch :=
  {| watch_until := now + EMAIL_DELIVERY_TIMEOUT_MS;
     targets := bfilter (λ old, negb (existsb (λ t, String.eqb (target_invoice t) (target_invoice old)) new))
                  (match current with Some w => targets w | None => [] end) ++ new |}.

Definition isTracking (w : option EmailWatch) (id : string) : bool :=
  match w with Some w => existsb (λ t, String.eqb (target_invoice t) id) (targets w) | None => false end.

(** ** The page *)

(** A send on its way: its scope and what it tracks when it succeeds. *)
Record send := { send_scope : nat; send_targets : list EmailTarget }.

Record page := {
  now : Z; rows : list InvoicePeriodParticipantRow; scope : nat; watch : option EmailWatch;
  email_pending : option send; batch_pending : option send; other_batch_pending : bool; toasts : list string;
}.

Definition with_watch (w : option EmailWatch) (ts : list string) (p : page) : page :=
  {| now := now p; rows := rows p; scope := scope p; watch := w; email_pending := email_pending p;
     batch_pending := batch_pending p; other_batch_pending := other_batch_pending p; toasts := toasts p ++ ts |}.

Definition with_sends (e b : option send) (p : page) : page :=
  {| now := now p; rows := rows p; scope := scope p; watch := watch p; email_pending := e; batch_pending := b;
     other_batch_pending := other_batch_pending p; toasts := toasts p |}.

Definition run_effect (p : page) : page :=
  match watch p with Some w => with_watch (deliver (rows p) w).1 (deliver (rows p) w).2 p | None => p end.

Definition pending_invoice (e : option send) : option string := (e ≫= λ s, head (send_targets s)) ≫= λ t, Some (target_invoice t).

Definition row_is (id : string) (row : InvoicePeriodParticipantRow) : bool :=
  match invoice row with Some i => String.eqb (invoice_id i) id | None => false end.

Definition isSending (p : page) (id : string) : bool :=
  isTracking (watch p) id || bool_decide (pending_invoice (email_pending p) = Some id)
  || (bool_decide (is_Some (batch_pending p)) && existsb (λ row, row_is id row && isSendable row) (rows p)).

Definition rowSendLocked (p : page) (id : string) : bool :=
  bool_decide (is_Some (email_pending p)) || bool_decide (is_Some (batch_pending p)) || isSending p id.

Definition anyBatchPending (p : page) : bool := bool_decide (is_Some (batch_pending p)) || other_batch_pending p.

Definition sendAllDisabled (p : page) : bool :=
  anyBatchPending p || bool_decide (is_Some (email_pending p)) || bool_decide (is_Some (watch p)).

(** The row offers a send: the primary action of an approved invoice, or the menu's resend. *)
Definition offers_send (p : page) (id : string) : bool :=
  match row_of (rows p) id with
  | Some i => (String.eqb (status i) "approved" || String.eqb (status i) "sent") && negb (rowSendLocked p id)
  | None => false
  end.

Definition previous_log (i : option Invoice) : option string := log_id <$> getLatestEmailLog i.

(** [emailMutation.mutate]: [onMutate] notes the scope and the last log. *)
Definition clickSend (id : string) (p : page) : page :=
  if offers_send p id
  then with_sends (Some {| send_scope := scope p;
         send_targets := [{| target_invoice := id; previousLogId := previous_log (row_of (rows p) id); announce := true |}] |})
         (batch_pending p) p
  else p.

Definition sendable_targets (rows : list InvoicePeriodParticipantRow) : list EmailTarget :=
  (λ i, {| target_invoice := invoice_id i; previousLogId := previous_log (Some i); announce := false |})
    <$> omap invoice (bfilter isSendable rows).

Definition clickSendAll (p : page) : page :=
  if (0 <? length (bfilter isSendable (rows p)))%nat && negb (sendAllDisabled p)
  then with_sends (email_pending p) (Some {| send_scope := scope p; send_targets := sendable_targets (rows p) |}) p
  else p.

(** Success of a send in the scope the page still shows. *)
Definition tracked (s : send) (toast : string) (p : page) : page :=
  if (send_scope s =? scope p)%nat
  then run_effect (with_watch (Some (track (now p) (send_targets s) (watch p))) [toast] p) else p.

Definition emailAnswered (ok : bool) (p : page) : page :=
  match email_pending p with
  | None => p
  | Some s =>
      let p := with_sends None (batch_pending p) p in
      if ok then tracked s "pages.invoices.messages.emailQueued" p
      else with_watch (watch p) ["pages.invoices.messages.sendEmailFailed"] p
  end.

Definition sentAllMessage (skipped : Z) : string :=
  if (0 <? skipped)%Z then "pages.invoices.batch.sentAllWithSkipped" else "pages.invoices.batch.sentAll".

Definition batchAnswered (ok : bool) (queued skipped : Z) (p : page) : page :=
  match batch_pending p with
  | None => p
  | Some s =>
      let p := with_sends (email_pending p) None p in
      if negb ok then with_watch (watch p) ["pages.invoices.batch.sendAllFailed"] p
      else if negb (send_scope s =? scope p)%nat then p
      else if (0 <? queued)%Z && (0 <? length (send_targets s))%nat then tracked s (sentAllMessage skipped) p
      else with_watch (watch p) [sentAllMessage skipped] p
  end.

Definition rowsLoaded (r : list InvoicePeriodParticipantRow) (p : page) : page :=
  run_effect {| now := now p; rows := r; scope := scope p; watch := watch p; email_pending := email_pending p;
                batch_pending := batch_pending p; other_batch_pending := other_batch_pending p; toasts := toasts p |}.

(** Another community, period or account. *)
Definition scopeChanged (p : page) : page :=
  {| now := now p; rows := rows p; scope := S (scope p); watch := None; email_pending := email_pending p;
     batch_pending := batch_pending p; other_batch_pending := other_batch_pending p; toasts := toasts p |}.

(** Time passes; the watch's timer may fire. *)
Definition tick (t : Z) (p : page) : page :=
  let p := {| now := Z.max t (now p); rows := rows p; scope := scope p; watch := watch p; email_pending := email_pending p;
              batch_pending := batch_pending p; other_batch_pending := other_batch_pending p; toasts := toasts p |} in
  match watch p with
  | Some w => if (watch_until w <=? now p)%Z then with_watch None ["pages.invoices.messages.emailPollingTimeout"] p else p
  | None => p
  end.

Definition otherBatch (b : bool) (p : page) : page :=
  {| now := now p; rows := rows p; scope := scope p; watch := watch p; email_pending := email_pending p;
     batch_pending := batch_pending p; other_batch_pending := b; toasts := toasts p |}.

Inductive event :=
  | ClickSend (id : string) | ClickSendAll | EmailAnswered (ok : bool) | BatchAnswered (ok : bool) (queued skipped : Z)
  | RowsLoaded (rows : list InvoicePeriodParticipantRow) | ScopeChanged | Tick (t : Z) | OtherBatch (b : bool).

Definition handle (e : event) : page → page :=
  match e with
  | ClickSend id => clickSend id | ClickSendAll => clickSendAll | EmailAnswered ok => emailAnswered ok
  | BatchAnswered ok q k => batchAnswered ok q k | RowsLoaded r => rowsLoaded r | ScopeChanged => scopeChanged
  | Tick t => tick t | OtherBatch b => otherBatch b
  end.

Definition handle_all (es : list event) (p : page) : page := foldl (λ p e, handle e p) p es.

Definition initial (t : Z) (r : list InvoicePeriodParticipantRow) : page :=
  {| now := t; rows := r; scope := 0; watch := None; email_pending := None; batch_pending := None; other_batch_pending := false;
     toasts := [] |}.

(** ** Actions on offer *)

Record Action := { key : string; action_count : option nat; disabled : bool }.

(** The other mutations of the page: which invoice or participant each one is about. *)
Record mutations := {
  generate_pending : option string; generate_all_pending : bool; pdf_pending : option string; approve_pending : bool;
  mark_sent_pending : bool; payment_pending : bool; delete_pending : bool; generationParticipantIds : list string;
}.

Definition getRowWork (p : page) (m : mutations) (row : InvoicePeriodParticipantRow) : InvoiceRowWork :=
  {| generating := bool_decide (generate_pending m = Some (participant_id row))
       || (existsb (String.eqb (participant_id row)) (generationParticipantIds m) && negb (bool_decide (is_Some (liveInvoice row))));
     pdfPending := match invoice row with Some i => bool_decide (pdf_pending m = Some (invoice_id i)) | None => false end;
     sending := match invoice row with Some i => isSending p (invoice_id i) | None => false end |}.

Definition action (k : string) (d : bool) : Action := {| key := k; action_count := None; disabled := d |}.
Definition counted (k : string) (n : nat) (d : bool) : list Action := if (0 <? n)%nat then [{| key := k; action_count := Some n; disabled := d |}] else [].

Definition generationPending (p : page) (m : mutations) : bool :=
  bool_decide (is_Some (generate_pending m))
  || existsb (λ id, negb (existsb (λ row, String.eqb (participant_id row) id && bool_decide (is_Some (liveInvoice row))) (rows p)))
       (generationParticipantIds m).

Definition is_eligible (row : InvoicePeriodParticipantRow) : bool := bool_decide (eligibility_of row = Some Eligible).

Definition workflowActions (p : page) (m : mutations) (canGenerate : bool) : list Action :=
  counted "generate-all" (if canGenerate then length (bfilter is_eligible (rows p)) else 0)
    (anyBatchPending p || generationPending p m)
  ++ counted "approve-all" (count_drafts (invoiceRowCounts (rows p) (getRowWork p m))) (anyBatchPending p)
  ++ counted "send-all" (length (bfilter isSendable (rows p))) (sendAllDisabled p).

Definition recommendedBatchAction (p : page) (m : mutations) (canGenerate : bool) : option Action := head (workflowActions p m canGenerate).

Definition batchMenuItems (p : page) (m : mutations) (canGenerate : bool) : list Action :=
  workflowActions p m canGenerate
  ++ counted "generate-all-pdfs" (count_invoices (invoiceRowCounts (rows p) (getRowWork p m))) (anyBatchPending p).

Definition generateDisabled (p : page) (m : mutations) (row : InvoicePeriodParticipantRow) : bool :=
  bool_decide (is_Some (generate_pending m)) || generate_all_pending m || generating (getRowWork p m row).

Definition getPrimaryRowAction (p : page) (m : mutations) (row : InvoicePeriodParticipantRow) : option Action :=
  match liveInvoice row with
  | None =>
      if bool_decide (eligibility_of row = Some Blocked) && truthy_str (generation_eligibility row ≫= eligibility_invoice_id)
      then Some (action "review-conflict" false)
      else if bool_decide (is_Some (eligibility_of row)) && negb (is_eligible row) then None
      else Some (action "generate" (generateDisabled p m row))
  | Some i =>
      if String.eqb (status i) "draft" then Some (action "approve" (approve_pending m))
      else if String.eqb (status i) "approved" then Some (action "send-email" (rowSendLocked p (invoice_id i)))
      else if String.eqb (status i) "sent" then Some (action "mark-paid" (payment_pending m))
      else None
  end.

Definition action_if (b : bool) (a : Action) : list Action := if b then [a] else [].

Definition conflict_destination (row : InvoicePeriodParticipantRow) : bool :=
  negb (is_eligible row) && truthy_str (generation_eligibility row ≫= eligibility_invoice_id).

Definition getRowMenuItems (p : page) (m : mutations) (is_admin : bool) (row : InvoicePeriodParticipantRow) : list Action :=
  match invoice row with
  | None => []
  | Some i =>
      action_if (String.eqb (status i) "draft")
        (if conflict_destination row then action "review-conflict" false else action "generate-again" (generateDisabled p m row))
      ++ action_if (String.eqb (status i) "approved") (action "mark-sent" (mark_sent_pending m))
      ++ action_if (canRecordPayment i) (action "record-payment" (payment_pending m))
      ++ action_if (hasDeletePermission i is_admin) (action "delete" (delete_pending m))
      ++ action_if (truthy_str (pdf_url i)) (action "open-pdf" false)
      ++ [action (if truthy_str (pdf_url i) then "regenerate-pdf" else "generate-pdf") (bool_decide (is_Some (pdf_pending m)))]
      ++ action_if (String.eqb (status i) "sent") (action "resend-email" (rowSendLocked p (invoice_id i)))
  end.

Definition row_actions (p : page) (m : mutations) (is_admin : bool) (row : InvoicePeriodParticipantRow) : list Action :=
  option_list (getPrimaryRowAction p m row) ++ getRowMenuItems p m is_admin row.

(** ** The delivery watch *)

Lemma deliver_cases rows w :
  deliver rows w = (Some w, []) ∧ (∀ t, t ∈ targets w → is_settled rows t = false) ∨
  ∃ rest, rest = bfilter (λ t, negb (is_settled rows t)) (targets w) ∧
    (deliver rows w).1 = match rest with [] => None | _ => Some {| watch_until := watch_until w; targets := rest |} end ∧
    (∃ t, t ∈ targets w ∧ is_settled rows t = true).
Proof.
  unfold deliver. set (rest := bfilter _ (targets w)). destruct (length rest <? length (targets w))%nat eqn:E.
  - right. exists rest. split_and!; [done|done|]. apply Nat.ltb_lt in E.
    destruct (existsb (is_settled rows) (targets w)) eqn:Ex; [by apply existsb_elem|]. exfalso.
    assert (rest = targets w) as Hr; [|rewrite Hr in E; lia]. apply bfilter_all. intros t Ht.
    destruct (is_settled rows t) eqn:Es; [|done]. assert (existsb (is_settled rows) (targets w) = true); [|congruence].
    apply existsb_elem. by exists t.
  - left. split; [done|]. intros t Ht. destruct (is_settled rows t) eqn:Es; [|done]. exfalso. apply Nat.ltb_ge in E.
    assert (∀ l, length (bfilter (λ t, negb (is_settled rows t)) l) < length l ∨ ∀ t, t ∈ l → is_settled rows t = false)%nat as Hl.
    { intros l. induction l as [|x l IH]; [right; by intros ? ?%elem_of_nil|]. unfold bfilter. cbn [List.filter length].
      pose proof (length_bfilter (λ t, negb (is_settled rows t)) l) as Hle. unfold bfilter in *.
      destruct (is_settled rows x) eqn:Ex; cbn [negb length]; [left; lia|]. destruct IH as [?|IH]; [left; lia|right].
      intros y [->|Hy]%elem_of_cons; [done|by apply IH]. }
    destruct (Hl (targets w)) as [?|H]; [unfold rest in E; lia|]. by rewrite H in Es.
Qed.

(** What the effect leaves: the targets that are not settled, or no watch. *)
Lemma deliver_left rows w w' :
  (deliver rows w).1 = Some w' →
  watch_until w' = watch_until w ∧ targets w' = bfilter (λ t, negb (is_settled rows t)) (targets w) ∧
  ∀ t, t ∈ targets w' → settled rows t = None.
Proof.
  intros E. assert (watch_until w' = watch_until w ∧ targets w' = bfilter (λ t, negb (is_settled rows t)) (targets w)) as [H1 H2].
  { destruct (deliver_cases rows w) as [[D Hall]|(rest & -> & D & _)]; rewrite D in E.
    - injection E as <-. split; [done|]. symmetry. apply bfilter_all. intros t Ht. by rewrite Hall.
    - destruct (bfilter _ (targets w)); [done|]. by injection E as <-. }
  split_and!; [done|done|]. intros t Ht. rewrite H2 in Ht. apply elem_of_bfilter in Ht as [_ Ht]. apply negb_true_iff in Ht.
  unfold is_settled in Ht. apply bool_decide_eq_false in Ht. by apply eq_None_not_Some.
Qed.

Definition tracked_ids (w : option EmailWatch) : list string :=
  match w with Some w => target_invoice <$> targets w | None => [] end.

Lemma deliver_ids rows w : NoDup (tracked_ids (Some w)) → NoDup (tracked_ids (deliver rows w).1) ∧ ∀ i, i ∈ tracked_ids (deliver rows w).1 → i ∈ tracked_ids (Some w).
Proof.
  intros H. destruct ((deliver rows w).1) as [w'|] eqn:E; [|split; [constructor|by intros ? ?%elem_of_nil]].
  apply deliver_left in E as (_ & E & _). cbn [tracked_ids]. rewrite E. split; [by apply NoDup_fmap_bfilter|].
  intros i (t & -> & Ht)%list_elem_of_fmap. apply elem_of_bfilter in Ht as [Ht _]. apply list_elem_of_fmap. by exists t.
Qed.

Lemma track_ids now new w :
  NoDup (tracked_ids w) → NoDup (target_invoice <$> new) → NoDup (tracked_ids (Some (track now new w))).
Proof.
  intros Hw Hn. cbn [tracked_ids track targets]. rewrite fmap_app. apply NoDup_app. split_and!; [|clear Hw|done].
  - apply NoDup_fmap_bfilter. by destruct w; [|constructor].
  - intros i (t & -> & [_ Ht]%elem_of_bfilter)%list_elem_of_fmap (t' & E & Ht')%list_elem_of_fmap.
    apply negb_true_iff in Ht. assert (existsb (λ x, String.eqb (target_invoice x) (target_invoice t)) new = true) as Hx; [|congruence].
    apply existsb_elem. exists t'. split; [done|]. by rewrite E, String.eqb_refl.
Qed.

Lemma elem_of_track now new w i :
  i ∈ tracked_ids (Some (track now new w)) → i ∈ tracked_ids w ∨ i ∈ target_invoice <$> new.
Proof.
  cbn [tracked_ids track targets]. rewrite fmap_app. intros [Hi|Hi]%elem_of_app; [left|by right].
  apply list_elem_of_fmap in Hi as (t & -> & [Ht _]%elem_of_bfilter). destruct w; [|by apply elem_of_nil in Ht].
  apply list_elem_of_fmap. by exists t.
Qed.

(** ** No invoice is sent twice at once *)

Definition send_ids (s : option send) : list string := match s with Some s => target_invoice <$> send_targets s | None => [] end.

(** Every send that is requested or whose delivery is awaited. *)
Definition open_sends (p : page) : list string :=
  send_ids (email_pending p) ++ send_ids (batch_pending p) ++ tracked_ids (watch p).

(** A period lists an invoice once. *)
Definition rows_ok (rows : list InvoicePeriodParticipantRow) : Prop := NoDup (invoice_id <$> omap invoice rows).

Inductive page_reachable : page → Prop :=
  | page_init t r : rows_ok r → page_reachable (initial t r)
  | page_step p e : page_reachable p → (∀ r, e = RowsLoaded r → rows_ok r) → page_reachable (handle e p).

(** A pending send excludes the others; a batch is only sent while nothing is awaited. *)
Definition page_inv (p : page) : Prop :=
  rows_ok (rows p) ∧ NoDup (open_sends p) ∧
  (batch_pending p ≠ None → email_pending p = None ∧ watch p = None) ∧
  ∀ w, watch p = Some w → (watch_until w <= now p + EMAIL_DELIVERY_TIMEOUT_MS)%Z ∧ ∀ t, t ∈ targets w → settled (rows p) t = None.

Lemma NoDup_omap_bfilter {A B C} (f : B → C) (g : A → option B) (p : A → bool) l :
  NoDup (f <$> omap g l) → NoDup (f <$> omap g (bfilter p l)).
Proof.
  induction l as [|x l IH]; [done|]. unfold bfilter in *. cbn [List.filter omap list_omap].
  assert (∀ y, y ∈ f <$> omap g (List.filter p l) → y ∈ f <$> omap g l) as Hin.
  { intros y (b & -> & (a & Ha & E)%list_elem_of_omap)%list_elem_of_fmap. apply list_elem_of_fmap. exists b. split; [done|].
    apply list_elem_of_omap. exists a. split; [by apply (elem_of_bfilter p l a) in Ha as [? _]|done]. }
  unfold omap in *. destruct (g x) as [b|] eqn:Eg; intros H.
  - rewrite fmap_cons in H. apply NoDup_cons in H as [Hx H]. destruct (p x); cbn [list_omap]; rewrite ?Eg, ?fmap_cons; [|by apply IH].
    apply NoDup_cons. split; [|by apply IH]. intros Hy. by apply Hx, Hin.
  - destruct (p x); cbn [list_omap]; rewrite ?Eg; by apply IH.
Qed.

Lemma sendable_ids rows : target_invoice <$> sendable_targets rows = invoice_id <$> omap invoice (bfilter isSendable rows).
Proof. unfold sendable_targets. by rewrite <- list_fmap_compose. Qed.

(** The effect keeps the invariant of everything but the settled targets. *)
Lemma run_effect_inv p :
  rows_ok (rows p) → NoDup (open_sends p) → (batch_pending p ≠ None → email_pending p = None ∧ watch p = None) →
  (∀ w, watch p = Some w → (watch_until w <= now p + EMAIL_DELIVERY_TIMEOUT_MS)%Z) → page_inv (run_effect p).
Proof.
  intros Hr Hnd Hb Hw. unfold run_effect. destruct (watch p) as [w|] eqn:E; [|split_and!; [done|done|by rewrite E|intros w; by rewrite E]].
  unfold open_sends in Hnd. rewrite E, !app_assoc in Hnd. apply NoDup_app in Hnd as (Hs & Hdis & Ht).
  destruct (deliver_ids (rows p) w Ht) as [Hids Hsub]. split_and!; [done| | |].
  - unfold open_sends. cbn [with_watch email_pending batch_pending watch]. rewrite !app_assoc. apply NoDup_app.
    split_and!; [done| |done]. intros i Hi Hi'. by apply (Hdis i Hi), Hsub.
  - intros Hn. by destruct (Hb Hn).
  - cbn [with_watch watch now rows]. intros w' E'. apply deliver_left in E' as (-> & _ & Hset). split; [by apply Hw|done].
Qed.

(** Only the watch's targets that are still there matter after it shrinks or ends. *)
Lemma drop_watch_inv p ts : page_inv p → page_inv (with_watch None ts p).
Proof.
  intros (Hr & Hnd & Hb & _). split_and!; [done| |intros Hn; destruct (Hb Hn) as [? _]; by split|done].
  unfold open_sends in *. cbn. rewrite app_nil_r. rewrite app_assoc in Hnd. by apply NoDup_app in Hnd as (? & _).
Qed.

Lemma keep_inv p ts : page_inv p → page_inv (with_watch (watch p) ts p).
Proof. by intros (Hr & Hnd & Hb & Hw). Qed.

Lemma tracked_inv s toast p :
  page_inv p → batch_pending p = None →
  NoDup (send_ids (email_pending p) ++ send_ids (Some s)) → page_inv (tracked s toast p).
Proof.
  intros (Hr & Hnd & Hb & Hw) Hn Hs. unfold tracked. destruct (send_scope s =? scope p)%nat; [|done].
  unfold open_sends in Hnd. rewrite Hn in Hnd. cbn [send_ids app] in Hnd. apply NoDup_app in Hnd as (He & Hdis & Ht).
  apply NoDup_app in Hs as (_ & Hdis2 & Hsn). apply run_effect_inv; cbn [with_watch rows email_pending batch_pending watch now]; try done.
  - unfold open_sends. cbn [with_watch email_pending batch_pending watch]. rewrite Hn. cbn [send_ids app]. apply NoDup_app.
    split_and!; [done| |by apply track_ids]. intros i Hi [Hi'|Hi']%elem_of_track; [by apply (Hdis i)|by apply (Hdis2 i)].
  - intros w [= <-]. cbn. lia.
Qed.

Lemma pending_none {A} (o : option A) : bool_decide (is_Some o) = false → o = None.
Proof. intros H%bool_decide_eq_false. by apply eq_None_not_Some. Qed.

Lemma send_unlocked p id :
  offers_send p id = true → email_pending p = None ∧ batch_pending p = None ∧ isTracking (watch p) id = false.
Proof.
  unfold offers_send. destruct (row_of (rows p) id); [|done]. unfold rowSendLocked, isSending.
  rewrite andb_true_iff, negb_true_iff, !orb_false_iff. intros (_ & (H1 & H2) & (H3 & _) & _).
  split_and!; [by apply pending_none|by apply pending_none|done].
Qed.

Lemma clickSend_inv id p : page_inv p → page_inv (clickSend id p).
Proof.
  intros Hinv. pose proof Hinv as (Hr & Hnd & Hb & Hw). unfold clickSend. destruct (offers_send p id) eqn:E; [|done].
  destruct (send_unlocked p id E) as (H1 & H3 & H0). split_and!; [done| |by rewrite H3|done].
  unfold open_sends in *. cbn [with_sends email_pending batch_pending watch]. rewrite H1, H3 in Hnd. rewrite H3. cbn [send_ids app] in *.
  apply NoDup_cons. split; [|done]. intros Hin. unfold isTracking in H0. destruct (watch p) as [w|]; [|by apply elem_of_nil in Hin].
  apply list_elem_of_fmap in Hin as (t & Et & Ht). cbn [target_invoice] in Et.
  assert (existsb (λ x, String.eqb (target_invoice x) id) (targets w) = true) as Hx; [|congruence].
  apply existsb_elem. exists t. by rewrite Et, String.eqb_refl.
Qed.

Lemma clickSendAll_inv p : page_inv p → page_inv (clickSendAll p).
Proof.
  intros Hinv. pose proof Hinv as (Hr & Hnd & Hb & Hw). unfold clickSendAll. destruct (_ && _) eqn:E; [|done].
  apply andb_true_iff in E as [_ E]. unfold sendAllDisabled, anyBatchPending in E.
  rewrite negb_true_iff, !orb_false_iff in E. destruct E as (((H1%pending_none & _) & H2%pending_none) & H3%pending_none).
  split_and!; [done| |done|done]. unfold open_sends. cbn [with_sends email_pending batch_pending watch].
  rewrite H2, H3. cbn [send_ids tracked_ids send_targets app]. rewrite app_nil_r, sendable_ids.
  unfold rows_ok in Hr. cbn [with_sends rows]. by apply NoDup_omap_bfilter.
Qed.

Lemma handle_inv e p : page_inv p → (∀ r, e = RowsLoaded r → rows_ok r) → page_inv (handle e p).
Proof.
  intros Hinv He. pose proof Hinv as (Hr & Hnd & Hb & Hw). destruct e as [id| |ok|ok q k|r| |t|b]; cbn [handle].
  - by apply clickSend_inv.
  - by apply clickSendAll_inv.
  - unfold emailAnswered. destruct (email_pending p) as [s|] eqn:E; [|done].
    assert (batch_pending p = None) as Hbn by (destruct (batch_pending p); [by destruct Hb|done]).
    assert (page_inv (with_sends None (batch_pending p) p)) as Hp.
    { split_and!; [done| |by rewrite Hbn|done]. unfold open_sends in *. cbn. rewrite E in Hnd. by apply NoDup_app in Hnd as (_ & _ & ?). }
    destruct ok; [|by apply (keep_inv (with_sends None (batch_pending p) p))]. apply tracked_inv; [done|done|].
    cbn. unfold open_sends in Hnd. rewrite E in Hnd. by apply NoDup_app in Hnd as (? & _).
  - unfold batchAnswered. destruct (batch_pending p) as [s|] eqn:E; [|done]. destruct (Hb ltac:(done)) as [He2 Hw2].
    assert (page_inv (with_sends (email_pending p) None p)) as Hp.
    { split_and!; [done| |done|done]. unfold open_sends in *. cbn. rewrite He2, Hw2. constructor. }
    destruct ok; cbn [negb]; [|by apply (keep_inv (with_sends (email_pending p) None p))].
    destruct (send_scope s =? scope (with_sends (email_pending p) None p))%nat eqn:Es; cbn [negb]; [|done].
    destruct (_ && _); [|by apply (keep_inv (with_sends (email_pending p) None p))].
    apply tracked_inv; [done|done|]. cbn. rewrite He2. cbn [send_ids app]. unfold open_sends in Hnd. rewrite E, He2, Hw2 in Hnd.
    cbn [send_ids tracked_ids app] in Hnd. by rewrite app_nil_r in Hnd.
  - apply run_effect_inv; cbn; [by apply He|done|done|]. intros w E. by destruct (Hw w E).
  - split_and!; [done| |intros Hn; destruct (Hb Hn); by split|done]. unfold open_sends in *. cbn. rewrite app_nil_r.
    rewrite app_assoc in Hnd. by apply NoDup_app in Hnd as (? & _).
  - unfold tick. cbn [watch now]. assert (page_inv {| now := Z.max t (now p); rows := rows p; scope := scope p; watch := watch p;
      email_pending := email_pending p; batch_pending := batch_pending p; other_batch_pending := other_batch_pending p; toasts := toasts p |}) as Hp.
    { split_and!; [done|done|done|]. cbn. intros w E. destruct (Hw w E). split; [lia|done]. }
    destruct (watch p) as [w|]; [|done]. destruct (watch_until w <=? _)%Z; [|done]. by apply (drop_watch_inv _ _ Hp).
  - by split_and!.
Qed.

Lemma sends_reachable_inv p : page_reachable p → page_inv p.
Proof.
  induction 1 as [t r Hr|p e _ IH He]; [|by apply handle_inv]. split_and!; [done|constructor|done|done].
Qed.

(** An event that may start or renew a watch. *)
Definition starts_watch (e : event) : bool :=
  match e with EmailAnswered true | BatchAnswered true _ _ => true | _ => false end.

Lemma quiet_watch e p w' :
  starts_watch e = false → watch (handle e p) = Some w' → ∃ w, watch p = Some w ∧ watch_until w' = watch_until w.
Proof.
  assert (∀ q, watch (run_effect q) = Some w' → ∃ w, watch q = Some w ∧ watch_until w' = watch_until w) as Heff.
  { intros q. unfold run_effect. destruct (watch q) as [w|] eqn:E; [|by rewrite E]. cbn [with_watch watch]. intros E'.
    apply deliver_left in E' as (-> & _). by exists w. }
  destruct e as [id| |ok|ok q k|r| |t|b]; cbn [handle starts_watch]; intros Hq E.
  - unfold clickSend in E. destruct (offers_send p id); by exists w'.
  - unfold clickSendAll in E. destruct (_ && _); by exists w'.
  - destruct ok; [done|]. unfold emailAnswered in E. destruct (email_pending p); by exists w'.
  - destruct ok; [done|]. unfold batchAnswered in E. destruct (batch_pending p); by exists w'.
  - by apply Heff in E.
  - done.
  - unfold tick in E. cbn [watch now] in E. destruct (watch p) as [w|] eqn:Ew; [|cbn in E; congruence].
    destruct (watch_until w <=? _)%Z; [done|]. cbn in E. exists w. split; [done|congruence].
  - by exists w'.
Qed.

Lemma quiet_watches es p w' :
  Forall (λ e, starts_watch e = false) es → watch (handle_all es p) = Some w' → ∃ w, watch p = Some w ∧ watch_until w' = watch_until w.
Proof.
  unfold handle_all. revert w'. induction es as [|e es IH] using rev_ind; intros w' H E; [by exists w'|].
  apply Forall_app in H as [Hes [He _]%Forall_cons]. rewrite foldl_snoc in E.
  destruct (quiet_watch e _ w' He E) as (w & Ew & E1). destruct (IH w Hes Ew) as (w0 & E0 & E2). exists w0. split; [done|congruence].
Qed.

(** C4. However clicks, answers, refreshes, scope changes and time interleave: no invoice is
    ever in two sends at once, requested or awaiting delivery, whether sent alone or with
    all; every awaited delivery is still open in the rows shown; and the wait ends: once
    90 seconds have passed since the page's present time without a new send succeeding,
    nothing is awaited. *)
Theorem email_sends_exclusive p :
  page_reachable p →
  NoDup (open_sends p) ∧
  (∀ w t, watch p = Some w → t ∈ targets w → settled (rows p) t = None) ∧
  ∀ es t, Forall (λ e, starts_watch e = false) es → (now p + EMAIL_DELIVERY_TIMEOUT_MS <= t)%Z →
    watch (handle (Tick t) (handle_all es p)) = None.
Proof.
  intros (Hr & Hnd & Hb & Hw)%sends_reachable_inv. split_and!; [done| |].
  - intros w t E Ht. by apply (Hw w E).
  - intros es t Hes Ht. cbn [handle]. unfold tick. cbn [watch now]. destruct (watch (handle_all es p)) as [w'|] eqn:E; [|done].
    destruct (quiet_watches es p w' Hes E) as (w & Ew & Eu). destruct (Hw w Ew) as [Hle _]. rewrite Eu.
    destruct (watch_until w <=? Z.max t (now (handle_all es p)))%Z eqn:El; [done|]. apply Z.leb_gt in El. lia.
Qed.

Definition sent_row (logs : list EmailLog) : InvoicePeriodParticipantRow :=
  {| participant_id := "p1"; participant_name := "Mia"; participant_email := Some "mia@example.ch"; participant_kind := KindPerson;
     participant_name_addition := ""; participant_valid_from := "2025-01-01"; participant_valid_to := None; party_id := "y1";
     metering_point_labels := []; generation_eligibility := None; metering_data_complete := true; metering_points_total := 1;
     metering_points_with_data := 1; missing_meter_ids := []; missing_meter_details := None;
     invoice := Some {| invoice_id := "i1"; invoice_number := "R-1"; invoice_zev := "z1"; invoice_zev_name := "Sonne"; invoice_participant := "p1";
       invoice_participant_name := "Mia"; invoice_period_start := "2026-01-01"; invoice_period_end := "2026-03-31";
       due_date := None; subtotal_chf := None; vat_rate := None; vat_base_chf := None; vat_chf := None; rounding_chf := None;
       total_chf := "120.00"; credit_applied_chf := None; due_rounding_chf := None; amount_due_chf := None; total_local_kwh := None;
       total_grid_kwh := None; total_feed_in_kwh := None; total_local_sold_kwh := None; local_sale_chf := None;
       local_sale_feed_in_chf := None; status := "approved"; sent_at := None; approved_at := Some "2026-04-01"; paid_chf := None;
       outstanding_chf := None; payments := None; credits := None; credit_applications := None; replaces := None;
       replaced_by := None; pdf_url := None; pdf_status := None; last_email_status := None; items := None; email_logs := Some logs;
       access_link := None; last_email_log_id := None; needs_data_review := None; open_data_impact_count := None; data_impacts := None |} |}.

Definition delivered_log : EmailLog :=
  {| log_id := "l1"; log_invoice := "i1"; recipient := "mia@example.ch"; log_subject := ""; log_status := EmailSent;
     log_error_message := None; log_sent_at := None; log_created_at := "2026-04-02T08:00:00Z" |}.

(** A send succeeds and is awaited, a second click does nothing, and the delivery ends the wait. *)
Lemma email_sends_exclusive_witness :
  let p := handle_all [ClickSend "i1"; EmailAnswered true; ClickSend "i1"] (initial 0 [sent_row []]) in
  page_reachable p ∧ open_sends p = ["i1"] ∧
  watch (handle (Tick 90000) (handle_all [ScopeChanged; Tick 5] p)) = None ∧
  watch (handle (RowsLoaded [sent_row [delivered_log]]) p) = None ∧
  toasts (handle (RowsLoaded [sent_row [delivered_log]]) p) =
    ["pages.invoices.messages.emailQueued"; "pages.invoices.messages.emailSentSuccess"].
Proof.
  intros p. assert (page_reachable p) as Hr.
  { unfold p, handle_all. cbn [foldl]. repeat (apply page_step; [|done]). apply page_init. apply NoDup_singleton. }
  split; [done|]. split; [by vm_compute|]. split.
  - apply (email_sends_exclusive p Hr); [by repeat constructor|]. by vm_compute.
  - split; by vm_compute.
Defined.

(** ** Actions on offer *)

Definition is_send (a : Action) : Prop := key a = "send-email" ∨ key a = "resend-email".

Lemma elem_of_action_if b x a : a ∈ action_if b x ↔ b = true ∧ a = x.
Proof. destruct b; cbn [action_if]; [rewrite list_elem_of_singleton|rewrite elem_of_nil]; naive_solver. Qed.

Lemma not_send k d : k ≠ "send-email" → k ≠ "resend-email" → ¬ is_send (action k d).
Proof. by intros ? ? [?|?]. Qed.

Lemma primary_send p m row a :
  getPrimaryRowAction p m row = Some a → is_send a →
  ∃ i, invoice row = Some i ∧ status i = "approved" ∧ a = action "send-email" (rowSendLocked p (invoice_id i)).
Proof.
  unfold getPrimaryRowAction, liveInvoice. intros E Hs.
  destruct (invoice row) as [i|]; [destruct (String.eqb (status i) "cancelled")|].
  - repeat match type of E with context [if ?b then _ else _] => destruct b end; try done; injection E as <-; by destruct Hs.
  - destruct (String.eqb (status i) "draft"); [injection E as <-; by destruct Hs|].
    destruct (String.eqb_spec (status i) "approved"); [injection E as <-; by exists i|].
    destruct (String.eqb (status i) "sent"); [injection E as <-; by destruct Hs|done].
  - repeat match type of E with context [if ?b then _ else _] => destruct b end; try done; injection E as <-; by destruct Hs.
Qed.

Lemma menu_send p m is_admin row a :
  a ∈ getRowMenuItems p m is_admin row → is_send a →
  ∃ i, invoice row = Some i ∧ status i = "sent" ∧ a = action "resend-email" (rowSendLocked p (invoice_id i)).
Proof.
  unfold getRowMenuItems. destruct (invoice row) as [i|]; [|by intros ?%elem_of_nil].
  rewrite !elem_of_app, !elem_of_action_if, list_elem_of_singleton. intros Ha Hs.
  destruct Ha as [[_ ->]|[[_ ->]|[[_ ->]|[[_ ->]|[[_ ->]|[->|[E ->]]]]]]].
  - destruct (conflict_destination row); by apply not_send in Hs.
  - by apply not_send in Hs. - by apply not_send in Hs. - by apply not_send in Hs. - by apply not_send in Hs.
  - destruct (truthy_str (pdf_url i)); by apply not_send in Hs.
  - apply String.eqb_eq in E. by exists i.
Qed.

(** A row offers an enabled send exactly when clicking it sends. *)
Lemma enabled_send_iff p m is_admin row i :
  invoice row = Some i → row_of (rows p) (invoice_id i) = Some i →
  (∃ a, a ∈ row_actions p m is_admin row ∧ disabled a = false ∧ is_send a) ↔ offers_send p (invoice_id i) = true.
Proof.
  intros Hi Hrow. unfold offers_send. rewrite Hrow, andb_true_iff, negb_true_iff, orb_true_iff, !String.eqb_eq. split.
  - intros (a & Ha & Hd & Hk). unfold row_actions in Ha. apply elem_of_app in Ha as [Ha|Ha].
    + destruct (getPrimaryRowAction p m row) as [b|] eqn:E; [|by apply elem_of_nil in Ha]. apply list_elem_of_singleton in Ha as ->.
      destruct (primary_send p m row b E Hk) as (i' & Ei & Es & ->). assert (i' = i) as -> by congruence. by split; [left|].
    + destruct (menu_send p m is_admin row a Ha Hk) as (i' & Ei & Es & ->). assert (i' = i) as -> by congruence. by split; [right|].
  - intros [[E|E] Hl]; unfold row_actions.
    + exists (action "send-email" (rowSendLocked p (invoice_id i))). split; [|by split; [|left]]. apply elem_of_app. left.
      assert (getPrimaryRowAction p m row = Some (action "send-email" (rowSendLocked p (invoice_id i)))) as ->; [|by apply list_elem_of_singleton].
      assert (liveInvoice row = Some i) as Hlive by (unfold liveInvoice; by rewrite Hi, E).
      unfold getPrimaryRowAction. by rewrite Hlive, E.
    + exists (action "resend-email" (rowSendLocked p (invoice_id i))). split; [|by split; [|right]]. apply elem_of_app. right.
      unfold getRowMenuItems. rewrite Hi, !elem_of_app, !elem_of_action_if, !String.eqb_eq. by do 6 right.
Qed.

(** Deletion is never offered for an invoice with payments, nor to a manager for one that
    was approved. *)
Lemma delete_offered i is_admin :
  hasDeletePermission i is_admin = true →
  num_eqb (number_or_zero (paid_chf i)) (of_Z 0) = true ∧
  (is_admin = true ∨ (status i = "draft" ∨ status i = "cancelled") ∧ truthy_str (approved_at i) = false).
Proof.
  unfold hasDeletePermission. destruct (num_eqb _ _); [|done]. destruct is_admin; [by split; [|left]|]. cbn [negb].
  rewrite andb_true_iff, orb_true_iff, !String.eqb_eq, negb_true_iff. intros [? ?]. split; [done|by right].
Qed.
