(* ===== verification/TariffVersions.v ===== *)
(** The versioning tasks of a tariff: frontend/src/features/tariffs/useTariffVersions.ts as
    a transition system over the write scope of Editors. A task (a new version, a copy, a
    rename) is open in the pane; its request is submitted, sent or refused, answered, and
    on success completed after the queries were invalidated. A submit handler belongs to a
    render and may run with that render's scope later; [req_dialog] is the task that was
    open at submission, kept only for the proofs. *)

From S2P Require Import Prelude JsString TariffTypes Editors.
Local Open Scope string_scope.

(** ** Model of useTariffVersions.ts *)

Inductive version_kind := NewVersion | Duplicate | Rename.
#[export] Instance version_kind_eq_dec : EqDecision version_kind.
Proof. solve_decision. Defined.

Record VersionDialog := { kind : version_kind; series : TariffSeries; source : TariffVersion }.

Record request := {
  req_kind : version_kind; req_id : string; req_scope : WriteScope; req_session : nat; req_dialog : option VersionDialog;
  req_status : request_status;
}.

(** What the page is told: the toast of a success, and [onSaved]. *)
Inductive notice := Toast (key : string) | OnSaved (k : version_kind).

Record versions_state := {
  currentScope : option nat; scopes : list WriteScope; session : nat; dialog : option VersionDialog; saveError : option string;
  requests : list request; notices : list notice;
}.

Definition upd (s : versions_state) (bump : bool) (d : option VersionDialog) (err : option string) (rs : list request) (ns : list notice) : versions_state :=
  {| currentScope := currentScope s; scopes := scopes s; session := if bump then S (session s) else session s; dialog := d;
     saveError := err; requests := rs; notices := (notices s ++ ns)%list |}.

(** [startSession] and the dialog set after it. *)
Definition startSession (d : option VersionDialog) (s : versions_state) : versions_state := upd s true d None (requests s) [].

Definition commit_scope (zev : option string) (write : bool) (account : option Z) (s : versions_state) : versions_state :=
  let sc := {| scope_id := length (scopes s); selectedZevId := zev; canWrite := write; accountId := account; scopeKey := None |} in
  startSession None
    {| currentScope := Some (scope_id sc); scopes := (scopes s ++ [sc])%list; session := session s; dialog := dialog s;
       saveError := saveError s; requests := requests s; notices := notices s |}.

Definition unmount (s : versions_state) : versions_state :=
  {| currentScope := None; scopes := scopes s; session := session s; dialog := dialog s; saveError := saveError s;
     requests := requests s; notices := notices s |}.

Definition open (next : VersionDialog) : versions_state → versions_state := startSession (Some next).
Definition closeDialog : versions_state → versions_state := startSession None.

(** [submitNewVersion], [submitDuplicate] and [submitRename] of a render with scope [sc]. *)
Definition submit (k : version_kind) (id : string) (sc : WriteScope) (s : versions_state) : versions_state :=
  if canWrite sc && truthy_str (selectedZevId sc) && isCurrent (currentScope s) sc
  then upd s false (dialog s) None
         (requests s ++ [{| req_kind := k; req_id := id; req_scope := sc; req_session := session s; req_dialog := dialog s;
                            req_status := Submitted |}])%list []
  else s.

Definition with_status (st : request_status) (r : request) : request :=
  {| req_kind := req_kind r; req_id := req_id r; req_scope := req_scope r; req_session := req_session r;
     req_dialog := req_dialog r; req_status := st |}.

Definition set_status (i : nat) (st : request_status) (s : versions_state) : versions_state :=
  upd s false (dialog s) (saveError s) (alter (with_status st) i (requests s)) [].

(** The open task is the one that asked, in the scope that asked. *)
Definition still_asked (s : versions_state) (r : request) : bool :=
  isCurrent (currentScope s) (req_scope r) && bool_decide (req_session r = session s).

Definition failed (r : request) (text : string) (s : versions_state) : versions_state :=
  if still_asked s r then upd s false (dialog s) (Some text) (requests s) [] else s.

Definition success_key (k : version_kind) : string :=
  match k with
  | NewVersion => "pages.tariffs.messages.versionCreated"
  | Duplicate => "pages.tariffs.messages.duplicated"
  | Rename => "pages.tariffs.messages.renamed"
  end.

(** [complete] after the invalidation. *)
Definition complete (r : request) (s : versions_state) : versions_state :=
  if negb (isCurrent (currentScope s) (req_scope r)) then s
  else let s := upd s false (dialog s) (saveError s) (requests s) [Toast (success_key (req_kind r))] in
       if negb (bool_decide (req_session r = session s)) then s
       else upd s true None None (requests s) [OnSaved (req_kind r)].

(** [mutationFn]: the request is sent, or fails without being sent. *)
Definition send (i : nat) (text : string) (s : versions_state) : option versions_state :=
  r ← requests s !! i;
  if negb (bool_decide (req_status r = Submitted)) then None
  else if assertWritable (currentScope s) (req_scope r) true then Some (set_status i Sent s)
       else Some (failed r text (set_status i Finished s)).

Definition answer (i : nat) (ok : bool) (text : string) (s : versions_state) : option versions_state :=
  r ← requests s !! i;
  if negb (bool_decide (req_status r = Sent)) then None
  else if ok then Some (set_status i Saved s) else Some (failed r text (set_status i Finished s)).

Definition invalidated (i : nat) (s : versions_state) : option versions_state :=
  r ← requests s !! i;
  if negb (bool_decide (req_status r = Saved)) then None else Some (complete r (set_status i Finished s)).

Inductive step : versions_state → versions_state → Prop :=
  | step_scope s zev write account : step s (commit_scope zev write account s)
  | step_unmount s : step s (unmount s)
  | step_open s d : step s (open d s)
  | step_close s : step s (closeDialog s)
  | step_submit s k id sc : sc ∈ scopes s → step s (submit k id sc s)
  | step_send s s' i text : send i text s = Some s' → step s s'
  | step_answer s s' i ok text : answer i ok text s = Some s' → step s s'
  | step_invalidated s s' i : invalidated i s = Some s' → step s s'.

Definition initial : versions_state :=
  {| currentScope := None; scopes := []; session := 0; dialog := None; saveError := None; requests := []; notices := [] |}.

Inductive reachable : versions_state → Prop :=
  | reach_init : reachable initial
  | reach_step s s' : reachable s → step s s' → reachable s'.

(** ** Invariant *)

Definition request_ok (s : versions_state) (r : request) : Prop :=
  req_scope r ∈ scopes s ∧ (req_session r <= session s)%nat ∧
  (req_session r = session s → req_dialog r = dialog s ∧ (currentScope s = Some (scope_id (req_scope r)) ∨ currentScope s = None)) ∧
  (req_status r = Sent ∨ req_status r = Saved → canWrite (req_scope r) = true ∧ truthy_str (selectedZevId (req_scope r)) = true).

Definition inv (s : versions_state) : Prop := Forall (request_ok s) (requests s).

Lemma inv_start s d ns : inv s → inv (upd s true d None (requests s) ns).
Proof.
  intros H. eapply Forall_impl; [exact H|]. intros r (? & ? & _ & ?). split_and!; [done|cbn; lia|cbn; lia|done].
Qed.

Lemma versions_inv_keep s err ns : inv s → inv (upd s false (dialog s) err (requests s) ns).
Proof. done. Qed.

Lemma versions_inv_commit s zev write account : inv s → inv (commit_scope zev write account s).
Proof.
  intros H. eapply Forall_impl; [exact H|]. intros r (Hsc & ? & _ & ?). split_and!; [|cbn; lia|cbn; lia|done].
  cbn. apply elem_of_app. by left.
Qed.

Lemma versions_inv_unmount s : inv s → inv (unmount s).
Proof.
  intros H. eapply Forall_impl; [exact H|]. intros r (? & ? & Hd & ?). split_and!; [done|done| |done].
  intros E. split; [by apply Hd|by right].
Qed.

Lemma versions_inv_submit s k id sc : inv s → sc ∈ scopes s → inv (submit k id sc s).
Proof.
  intros H Hsc. unfold submit. destruct (canWrite sc && truthy_str (selectedZevId sc)); simpl; [|done].
  destruct (isCurrent (currentScope s) sc) eqn:Hc; [|done]. apply bool_decide_eq_true in Hc.
  apply Forall_app. split; [done|]. constructor; [|constructor]. split_and!; cbn; [done|lia|by auto|by intros [?|?]].
Qed.

Lemma versions_inv_status s i st r :
  inv s → requests s !! i = Some r →
  (st = Sent ∨ st = Saved → canWrite (req_scope r) = true ∧ truthy_str (selectedZevId (req_scope r)) = true) →
  inv (set_status i st s).
Proof.
  intros H Hr Hst. apply Forall_lookup. intros j r' Hj. unfold set_status, upd in Hj. cbn [requests] in Hj.
  rewrite list_lookup_alter in Hj. destruct (decide (i = j)) as [<-|Hne]; [|by apply (Forall_lookup_1 _ _ _ _ H Hj)].
  rewrite Hr in Hj. injection Hj as <-. destruct (Forall_lookup_1 _ _ _ _ H Hr) as (? & ? & ? & _). by split_and!.
Qed.

Lemma inv_finished s i r : inv s → requests s !! i = Some r → inv (set_status i Finished s).
Proof. intros H Hr. apply (versions_inv_status s i Finished r); [done|done|by intros [?|?]]. Qed.

Lemma versions_inv_failed s r text : inv s → inv (failed r text s).
Proof. intros H. unfold failed. destruct (still_asked s r); [by apply versions_inv_keep|done]. Qed.

Lemma inv_complete s r : inv s → inv (complete r s).
Proof.
  intros H. unfold complete. destruct (isCurrent _ _); simpl; [|done]. case_bool_decide; simpl; [|done].
  by apply (inv_start (upd s false (dialog s) (saveError s) (requests s) [Toast (success_key (req_kind r))])).
Qed.

Lemma send_Some i text s s' :
  send i text s = Some s' → ∃ r, requests s !! i = Some r ∧ req_status r = Submitted ∧
    s' = if assertWritable (currentScope s) (req_scope r) true then set_status i Sent s else failed r text (set_status i Finished s).
Proof.
  unfold send. destruct (requests s !! i) as [r|]; [|done]. cbn [mbind option_bind]. case_bool_decide as Hst; [|done].
  intros E. exists r. split_and!; [done|done|]. by destruct (assertWritable _ _ _); injection E as <-.
Qed.

Lemma answer_Some i ok text s s' :
  answer i ok text s = Some s' → ∃ r, requests s !! i = Some r ∧ req_status r = Sent ∧
    s' = if ok then set_status i Saved s else failed r text (set_status i Finished s).
Proof.
  unfold answer. destruct (requests s !! i) as [r|]; [|done]. cbn [mbind option_bind]. case_bool_decide as Hst; [|done].
  intros E. exists r. split_and!; [done|done|]. by destruct ok; injection E as <-.
Qed.

Lemma invalidated_Some i s s' :
  invalidated i s = Some s' → ∃ r, requests s !! i = Some r ∧ req_status r = Saved ∧ s' = complete r (set_status i Finished s).
Proof.
  unfold invalidated. destruct (requests s !! i) as [r|]; [|done]. cbn [mbind option_bind]. case_bool_decide as Hst; [|done].
  intros E. exists r. split_and!; [done|done|]. by injection E as <-.
Qed.

Lemma versions_reachable_inv s : reachable s → inv s.
Proof.
  induction 1 as [|s s' _ IH Hs]; [constructor|].
  destruct Hs as [| | | |s k id sc Hsc|s s' i text Hs|s s' i ok text Hs|s s' i Hs].
  - by apply versions_inv_commit.
  - by apply versions_inv_unmount.
  - by apply inv_start.
  - by apply inv_start.
  - by apply versions_inv_submit.
  - apply send_Some in Hs as (r & Hr & _ & ->). destruct (assertWritable _ _ _) eqn:Hw; [|by eapply versions_inv_failed, inv_finished].
    apply Crud.assertWritable_true in Hw as (_ & Hw). by apply (versions_inv_status s i Sent r).
  - apply answer_Some in Hs as (r & Hr & Hst & ->). destruct ok; [|by eapply versions_inv_failed, inv_finished].
    apply (versions_inv_status s i Saved r); [done|done|]. intros _. destruct (Forall_lookup_1 _ _ _ _ IH Hr) as (_ & _ & _ & Hw). auto.
  - apply invalidated_Some in Hs as (r & Hr & _ & ->). by eapply inv_complete, inv_finished.
Qed.

(** The open task a request concerns is the one it was submitted from. *)
Lemma asked_dialog s i r : inv s → requests s !! i = Some r → still_asked s r = true → dialog s = req_dialog r.
Proof.
  intros H Hr Ha. unfold still_asked in Ha. apply andb_true_iff in Ha as [_ Ha%bool_decide_eq_true].
  destruct (Forall_lookup_1 _ _ _ _ H Hr) as (_ & _ & Hd & _). by destruct (Hd Ha).
Qed.

(** However tasks, scope changes, late handlers and answers interleave: a
    request is sent only for a writable community, while its scope is the mounted one; a
    completed request closes the pane's task and selects its result exactly when that is
    the task it was submitted from, in the scope that asked, and otherwise leaves the
    task, its session and its error alone; so does the error of a failed one. *)
Theorem versions_sessions_safe s :
  reachable s →
  (∀ i text s' r', send i text s = Some s' → requests s' !! i = Some r' → req_status r' = Sent →
     currentScope s = Some (scope_id (req_scope r')) ∧ canWrite (req_scope r') = true ∧ truthy_str (selectedZevId (req_scope r')) = true) ∧
  (∀ i s', invalidated i s = Some s' → ∃ r, requests s !! i = Some r ∧
     if still_asked s r
     then dialog s = req_dialog r ∧ dialog s' = None ∧ session s' = S (session s) ∧
          notices s' = (notices s ++ [Toast (success_key (req_kind r)); OnSaved (req_kind r)])%list
     else dialog s' = dialog s ∧ session s' = session s ∧ saveError s' = saveError s ∧ ∀ k, OnSaved k ∈ notices s' → OnSaved k ∈ notices s) ∧
  (∀ i text s', answer i false text s = Some s' → ∃ r, requests s !! i = Some r ∧ dialog s' = dialog s ∧ session s' = session s ∧
     if still_asked s r then dialog s = req_dialog r ∧ saveError s' = Some text else saveError s' = saveError s).
Proof.
  intros Hinv%versions_reachable_inv. split_and!.
  - intros i text s' r' (r & Hr & Hst & ->)%send_Some Hr' Hst'. destruct (assertWritable _ _ _) eqn:Hw.
    + apply Crud.assertWritable_true in Hw. unfold set_status, upd in Hr'. cbn [requests] in Hr'.
      rewrite list_lookup_alter_eq, Hr in Hr'. by injection Hr' as <-.
    + exfalso. assert (requests (failed r text (set_status i Finished s)) = requests (set_status i Finished s)) as E.
      { unfold failed. by destruct (still_asked _ r). }
      rewrite E in Hr'. unfold set_status, upd in Hr'. cbn [requests] in Hr'. rewrite list_lookup_alter_eq, Hr in Hr'. by injection Hr' as <-.
  - intros i s' (r & Hr & _ & ->)%invalidated_Some. exists r. split; [done|]. pose proof (asked_dialog s i r Hinv Hr) as Hd.
    unfold still_asked in *. unfold complete, set_status, upd. cbn [currentScope session dialog saveError requests notices].
    destruct (isCurrent (currentScope s) (req_scope r)); simpl.
    + case_bool_decide; simpl; [split_and!; [by apply Hd|done|done|by rewrite app_nil_r, <- app_assoc]|].
      split_and!; [done..|]. intros k. rewrite app_nil_r, elem_of_app, list_elem_of_singleton. by intros [?|?].
    + split_and!; [done..|]. intros k. by rewrite app_nil_r.
  - intros i text s' (r & Hr & _ & ->)%answer_Some. exists r. split; [done|]. pose proof (asked_dialog s i r Hinv Hr) as Hd.
    unfold failed. assert (still_asked (set_status i Finished s) r = still_asked s r) as -> by done.
    destruct (still_asked s r); split_and!; try done. by apply Hd.
Qed.

Definition sample_scope : WriteScope := {| scope_id := 0; selectedZevId := Some "z"; canWrite := true; accountId := Some 1%Z; scopeKey := None |}.

Definition sample_task (k : version_kind) : VersionDialog :=
  let source := sample_version "t" "2026-01-01" None [] in {| kind := k; series := sample_series Energy [source]; source := source |}.

(** A copy answered after a rename was opened leaves the rename open. *)
Lemma versions_sessions_safe_witness :
  ∃ s s', reachable s ∧ invalidated 0 s = Some s' ∧ dialog s = Some (sample_task Rename) ∧ dialog s' = dialog s ∧
    notices s' = [Toast "pages.tariffs.messages.duplicated"].
Proof.
  set (s1 := open (sample_task Duplicate) (commit_scope (Some "z") true (Some 1%Z) initial)).
  set (s2 := submit Duplicate "t" sample_scope s1). set (s3 := default s2 (send 0 "" s2)).
  set (s4 := default s3 (answer 0 true "" s3)). set (s5 := open (sample_task Rename) s4).
  assert (reachable s5) as Hr.
  { apply (reach_step s4); [|apply step_open]. apply (reach_step s3); [|by apply (step_answer s3 s4 0 true "")].
    apply (reach_step s2); [|by apply (step_send s2 s3 0 "")].
    apply (reach_step s1); [|apply step_submit; apply list_elem_of_In; by left].
    apply (reach_step (commit_scope (Some "z") true (Some 1%Z) initial)); [|apply step_open].
    apply (reach_step initial); [apply reach_init|apply step_scope]. }
  destruct (versions_sessions_safe s5 Hr) as (_ & Hinv & _). destruct (invalidated 0 s5) as [s6|] eqn:E; [|discriminate].
  destruct (Hinv 0 s6 E) as (r & Hr0 & Hres). vm_compute in Hr0. injection Hr0 as <-. vm_compute in E. injection E as <-.
  eexists s5, _. split; [exact Hr|]. split; [vm_compute; reflexivity|]. split; [reflexivity|].
  destruct Hres as (Hd & _). split; [exact Hd|reflexivity].
Defined.
