(* ===== verification/TariffDisplay.v ===== *)
(** How a tariff is summed up in lists and its drawer: features/tariffs/useTariffDisplay.ts.

    The lookup of dynamic sources is a query, here the list of its answer; translations [t],
    the short date of a day in the settings and the format of prices per kilowatt-hour are
    parameters. *)

From Stdlib Require Import Floats.SpecFloat.
From S2P Require Import Prelude JsString JsNumber TariffTypes Recurrence Validity RateLines.
Local Open Scope string_scope.

(** ** Model *)

Definition percentageValues (version : TariffVersion) : list num := to_number <$> omap percentage (periods version).

(** [Math.min(...values)] and [Math.max(...values)]. *)
Definition min_all (values : list num) : num := foldl math_min (S754_infinity false) values.
Definition max_all (values : list num) : num := foldl math_max (S754_infinity true) values.

Definition percentageRangeLabel (values : list num) : option string :=
  match values with
  | [] => None
  | _ =>
      let min := min_all values in let max := max_all values in
      Some (if num_eqb min max then num_to_string min ++ "%" else num_to_string min ++ "–" ++ num_to_string max ++ "%")
  end.

(** A text that may be absent, and the empty one, count as none. *)
Definition given (s : option string) : option string := s ≫= λ x, if nonempty x then Some x else None.

Section Display.
Context (t : string → list (string * string) → string) (kwhPrice : num → string) (formatShortDate : string → string) (today : string)
  (sources : list DynamicTariffSource).

Definition sourceById (id : string) : option DynamicTariffSource :=
  omap_get id (foldl (λ m s, omap_set (TariffTypes.source_id s) s m) [] sources).

Record Badge := { badge_label : string; tooltip : string }.

Definition validityBadge (version : Tariff) : Badge :=
  let validFrom := formatShortDate (valid_from version) in
  let validTo := formatShortDate <$> given (valid_to version) in
  {| badge_label := match validityState version today with
       | Scheduled => t "pages.tariffs.validity.starts" [("date", validFrom)]
       | Expired => t "pages.tariffs.validity.ended" (match validTo with Some d => [("date", d)] | None => [] end)
       | Active => match validTo with
           | Some d => t "pages.tariffs.validity.until" [("date", d)]
           | None => t "pages.tariffs.validity.since" [("date", validFrom)]
           end
       end;
     tooltip := validFrom ++ " - " ++ default (t "pages.tariffs.openEnded" []) validTo |}.

Definition dynamicAverageLabel (version : TariffVersion) : string :=
  match dynamic_price_summary version with
  | Some s =>
      match dps_average_chf_per_kwh s with
      | Some a => if nonempty a
          then t (match dps_status s with StatusPartial => "pages.tariffs.dynamicAveragePartial" | _ => "pages.tariffs.dynamicAverage" end)
                 [("price", to_fixed 3 (to_number a))]
          else t "pages.tariffs.dynamicPriceUnavailable" []
      | None => t "pages.tariffs.dynamicPriceUnavailable" []
      end
  | None => t "pages.tariffs.dynamicPriceUnavailable" []
  end.

Definition minimum_suffix (version : TariffVersion) : string :=
  match given (minimum_price_chf_per_kwh version) with
  | Some m => " · " ++ t "pages.tariffs.dynamicMinimum" [("price", to_fixed 3 (to_number m))]
  | None => ""
  end.

Definition band_price (p : TariffPeriod) : string :=
  match given (price_chf_per_kwh p) with Some x => kwhPrice (to_number x) | None => "—" end.

Definition priceSummary (series : TariffSeries) (version : TariffVersion) : string :=
  match given (dynamic_source version) with
  | Some id =>
      (match sourceById id with
       | Some s => t "pages.tariffs.dynamicPricedFrom" [("label", TariffTypes.source_label s)]
       | None => t "pages.tariffs.dynamicPriced" [] end)
      ++ " · " ++ dynamicAverageLabel version ++ minimum_suffix version
  | None =>
      match series_billing_mode series with
      | Energy => match periods version with
          | [] => t "pages.tariffs.noPeriods" []
          | ps => "CHF " ++ join " / " (band_price <$> ps) ++ "/kWh" end
      | PercentageOfEnergy => default (t "pages.tariffs.noPeriods" []) (percentageRangeLabel (percentageValues version))
      | _ => "CHF " ++ default "0.00" (given (fixed_price_chf version))
      end
  end.

Definition explanation (values : list num) (basePrice : num) : string :=
  let min := min_all values in let max := max_all values in
  let effective x := to_fixed 3 (num_div (num_mul basePrice x) (of_Z 100)) in
  if num_eqb min max
  then t "pages.tariffs.approxPriceTooltip"
         [("percentage", num_to_string min); ("basePrice", to_fixed 3 basePrice); ("effectivePrice", effective min)]
  else t "pages.tariffs.approxPriceTooltipRange"
         [("min", num_to_string min); ("max", num_to_string max); ("basePrice", to_fixed 3 basePrice);
          ("effectiveMin", effective min); ("effectiveMax", effective max)].

Definition pricingTooltipFor (series : TariffSeries) (version : TariffVersion) (source : option DynamicTariffSource) : option string :=
  match given (dynamic_source version) with
  | Some _ =>
      Some match last_fetch_status <$> source, dps_status <$> dynamic_price_summary version with
           | Some FetchFailed, _ => t "pages.tariffs.dynamicFetchFailedTooltip" [("error", from_option last_fetch_error "" source)]
           | _, Some StatusPartial => t "pages.tariffs.dynamicAveragePartialTooltip" []
           | _, Some StatusComplete => t "pages.tariffs.dynamicAverageTooltip" []
           | _, _ => t "pages.tariffs.dynamicPriceUnavailableTooltip" []
           end
  | None =>
      match series_billing_mode series, percentageValues version with
      | PercentageOfEnergy, (_ :: _) as values =>
          match percentage_base_summary version ≫= pbs_dynamic_status, base_price version with
          | Some StatusUnavailable, _ => Some (t "pages.tariffs.dynamicBaseUnavailableTooltip" [])
          | Some StatusPartial, Some p => Some (explanation values (to_number p) ++ " " ++ t "pages.tariffs.dynamicAveragePartialTooltip" [])
          | Some StatusComplete, Some p => Some (explanation values (to_number p) ++ " " ++ t "pages.tariffs.dynamicAverageTooltip" [])
          | None, Some p => Some (explanation values (to_number p))
          | _, None => None
          end
      | _, _ => None
      end
  end.
End Display.

Definition seriesKeyOf (series_zev series_name : string) : string := series_zev ++ ":" ++ series_name.

(** ** The range of percentages *)

Lemma min_all_from l : ∀ x, is_nan x = false → Forall (λ y, is_nan y = false) l →
  let m := foldl math_min x l in m ∈ x :: l ∧ (∀ y, y ∈ x :: l → num_le m y = true).
Proof.
  induction l as [|a l IH]; intros x Hx Hl; cbn [foldl].
  - split; [by left|]. intros y Hy. apply list_elem_of_singleton in Hy as ->. by apply num_eqb_le, num_eqb_refl.
  - apply Forall_cons in Hl as [Ha Hl]. assert (is_nan (math_min x a) = false ∧ (math_min x a = x ∨ math_min x a = a) ∧
      num_le (math_min x a) x = true ∧ num_le (math_min x a) a = true) as (Hn & Hc & Hlx & Hla).
    { pose proof (num_eqb_le _ _ (num_eqb_refl x Hx)) as [? _]. pose proof (num_eqb_le _ _ (num_eqb_refl a Ha)) as [? _].
      unfold math_min. rewrite Hx, Ha. cbn [orb]. destruct (num_lt a x) eqn:E.
      - split_and!; [done|by right|by apply num_lt_le|done].
      - split_and!; [done|by left|done|]. rewrite num_not_lt in E by done. by bool_facts. }
    destruct (IH _ Hn Hl) as [Hin Hle]. split.
    + apply elem_of_cons in Hin as [-> | Hin]; [destruct Hc as [-> | ->]; [by left|by right; left]|by right; right].
    + intros y Hy. apply elem_of_cons in Hy as [-> |Hy]; [|apply elem_of_cons in Hy as [-> |Hy]]; [| |apply Hle; by right];
        eapply num_le_trans; try eassumption; apply Hle; by left.
Qed.

Lemma max_all_from l : ∀ x, is_nan x = false → Forall (λ y, is_nan y = false) l →
  let m := foldl math_max x l in m ∈ x :: l ∧ (∀ y, y ∈ x :: l → num_le y m = true).
Proof.
  induction l as [|a l IH]; intros x Hx Hl; cbn [foldl].
  - split; [by left|]. intros y Hy. apply list_elem_of_singleton in Hy as ->. by apply num_eqb_le, num_eqb_refl.
  - apply Forall_cons in Hl as [Ha Hl]. assert (is_nan (math_max x a) = false ∧ (math_max x a = x ∨ math_max x a = a) ∧
      num_le x (math_max x a) = true ∧ num_le a (math_max x a) = true) as (Hn & Hc & Hlx & Hla).
    { pose proof (num_eqb_le _ _ (num_eqb_refl x Hx)) as [? _]. pose proof (num_eqb_le _ _ (num_eqb_refl a Ha)) as [? _].
      unfold math_max. rewrite Hx, Ha. cbn [orb]. destruct (num_lt x a) eqn:E.
      - split_and!; [done|by right|by apply num_lt_le|done].
      - split_and!; [done|by left|done|]. rewrite num_not_lt in E by done. by bool_facts. }
    destruct (IH _ Hn Hl) as [Hin Hle]. split.
    + apply elem_of_cons in Hin as [-> | Hin]; [destruct Hc as [-> | ->]; [by left|by right; left]|by right; right].
    + intros y Hy. apply elem_of_cons in Hy as [-> |Hy]; [|apply elem_of_cons in Hy as [-> |Hy]]; [| |apply Hle; by right];
        eapply num_le_trans; try eassumption; apply Hle; by left.
Qed.

(** Starting from an infinity changes nothing on a list with a number in it. *)
Lemma min_all_cons a l : is_nan a = false → min_all (a :: l) = foldl math_min a l.
Proof. intros Ha. unfold min_all. cbn [foldl]. f_equal. unfold math_min. rewrite Ha. by destruct a as [| [] | |]. Qed.

Lemma max_all_cons a l : is_nan a = false → max_all (a :: l) = foldl math_max a l.
Proof. intros Ha. unfold max_all. cbn [foldl]. f_equal. unfold math_max. rewrite Ha. by destruct a as [| [] | | []]. Qed.

(** Percentages of several bands are summed up by the smallest and the greatest
    of them, each the percentage of some band with no band outside, and by a single figure
    exactly when all bands have equal percentages; without percentages there is no label. *)
Theorem percentage_range_spec values :
  Forall (λ y, is_nan y = false) values →
  (percentageRangeLabel values = None ↔ values = []) ∧
  (values ≠ [] →
   ∃ lo hi, lo ∈ values ∧ hi ∈ values ∧ (∀ y, y ∈ values → num_le lo y = true ∧ num_le y hi = true) ∧
     ((∀ x y, x ∈ values → y ∈ values → num_le x y = true) ∧ percentageRangeLabel values = Some (num_to_string lo ++ "%") ∨
      num_lt lo hi = true ∧ percentageRangeLabel values = Some (num_to_string lo ++ "–" ++ num_to_string hi ++ "%"))).
Proof.
  intros Hv. destruct values as [|a l]; [split; [done|by intros []]|]. split; [done|]. intros _.
  pose proof Hv as Hv2. apply Forall_cons in Hv2 as [Ha Hl]. destruct (min_all_from l a Ha Hl) as [Hmi Hml]. destruct (max_all_from l a Ha Hl) as [Hxi Hxl].
  unfold percentageRangeLabel. rewrite (min_all_cons a l Ha), (max_all_cons a l Ha).
  set (lo := foldl math_min a l) in *. set (hi := foldl math_max a l) in *. exists lo, hi. split_and!; [done..|by split; auto|].
  assert (is_nan lo = false ∧ is_nan hi = false) as [Hnl Hnh] by (rewrite Forall_forall in Hv; auto).
  destruct (num_eqb lo hi) eqn:E; [left|right].
  - split; [|done]. intros x y Hx Hy. apply num_eqb_le in E as [_ E]. eapply num_le_trans; [by apply Hxl|]. eapply num_le_trans; [exact E|by apply Hml].
  - split; [|done]. assert (num_le lo hi = true) as Hle by by apply Hml. revert Hle E. unfold num_le, num_eqb, num_lt, SFleb, SFeqb, SFltb.
    by destruct (SFcompare lo hi) as [[]|].
Qed.

Lemma percentage_range_spec_witness :
  let values := to_number <$> ["60"; "90"; "75.5"] in
  Forall (λ y, is_nan y = false) values ∧ percentageRangeLabel values = Some "60–90%" ∧ (percentageRangeLabel values = None ↔ values = []).
Proof.
  intros values. assert (Forall (λ y, is_nan y = false) values) as H by (repeat constructor). split; [exact H|]. split; [by vm_compute|].
  exact (proj1 (percentage_range_spec values H)).
Defined.

(** Series of communities whose ids have no colon never share a key: what the
    page opens from its address is the series the address was written for. *)
Theorem series_keys_distinct zev1 name1 zev2 name2 :
  free_of ":" zev1 = true → free_of ":" zev2 = true → seriesKeyOf zev1 name1 = seriesKeyOf zev2 name2 → zev1 = zev2 ∧ name1 = name2.
Proof.
  unfold seriesKeyOf. revert zev2. induction zev1 as [|c z IH]; intros [|c2 z2] H1 H2 E; cbn [free_of str_forall String.append] in *.
  - by injection E.
  - injection E as <- _. by rewrite Ascii.eqb_refl in H2.
  - injection E as -> _. by rewrite Ascii.eqb_refl in H1.
  - injection E as -> E. bool_facts. by destruct (IH z2) as [-> ->].
Qed.

Lemma series_keys_distinct_witness :
  let k := seriesKeyOf "0b1c" "Day: high" in
  free_of ":" "0b1c" = true ∧ k = "0b1c:Day: high" ∧ "0b1c" = "0b1c" ∧ "Day: high" = "Day: high".
Proof.
  intros k. assert (free_of ":" "0b1c" = true) as H by reflexivity. split; [exact H|]. split; [reflexivity|].
  exact (series_keys_distinct "0b1c" "Day: high" "0b1c" "Day: high" H H eq_refl).
Defined.
