(* ===== verification/MeteringLabels.v ===== *)
(** Labels of metering data (frontend/src/lib/meteringLabels.ts): buckets and readings in
    the business zone, quality codes, and the labels of a meter. The short month names and
    the offset names of Intl are parameters, and so are translations. *)

From S2P Require Import Prelude JsString JsDate Dates DateFormats LiveEnergy MeteringPoints.
Local Open Scope string_scope.

(** ** Model of meteringLabels.ts *)

Inductive Resolution := ResolutionDay | ResolutionHour | ResolutionMonth.

Record BucketParts := {
  bp_dayPadded : string; bp_monthPadded : string; monthShort : string; bp_year : Z; bp_hoursPadded : string; bp_minutesPadded : string;
}.

Section Labels.
Context `{Zone}.
Context (intl_month_short offset_name : Z → string).

Definition bucketParts (date : Z) : BucketParts :=
  let p := zonedParts date in
  {| bp_dayPadded := pad2 (zp_day p); bp_monthPadded := pad2 (zp_month p); monthShort := intl_month_short date; bp_year := zp_year p;
     bp_hoursPadded := pad2 (zp_hours p); bp_minutesPadded := pad2 (zp_minutes p) |}.

(** The [switch] on the date format. *)
Definition bucket_date (p : BucketParts) (bucket pattern : string) : string :=
  if String.eqb pattern "dd.MM.yyyy" then bp_dayPadded p ++ "." ++ bp_monthPadded p ++ "." ++ Zstr (bp_year p)
  else if String.eqb pattern "dd/MM/yyyy" then bp_dayPadded p ++ "/" ++ bp_monthPadded p ++ "/" ++ Zstr (bp_year p)
  else if String.eqb pattern "MM/dd/yyyy" then bp_monthPadded p ++ "/" ++ bp_dayPadded p ++ "/" ++ Zstr (bp_year p)
  else if String.eqb pattern "yyyy-MM-dd" then Zstr (bp_year p) ++ "-" ++ bp_monthPadded p ++ "-" ++ bp_dayPadded p
  else bucket.

Definition formatBucketShortDate (bucket : string) (settings : AppSettings) : string :=
  match date_parse bucket with
  | None => bucket
  | Some date => bucket_date (bucketParts date) bucket (date_format_short settings)
  end.

(** The [switch] on the date and time format. *)
Definition bucket_date_time (p : BucketParts) (bucket pattern : string) : string :=
  let clock := bp_hoursPadded p ++ ":" ++ bp_minutesPadded p in
  if String.eqb pattern "dd.MM.yyyy HH:mm" then bp_dayPadded p ++ "." ++ bp_monthPadded p ++ "." ++ Zstr (bp_year p) ++ " " ++ clock
  else if String.eqb pattern "dd/MM/yyyy HH:mm" then bp_dayPadded p ++ "/" ++ bp_monthPadded p ++ "/" ++ Zstr (bp_year p) ++ " " ++ clock
  else if String.eqb pattern "MM/dd/yyyy HH:mm" then bp_monthPadded p ++ "/" ++ bp_dayPadded p ++ "/" ++ Zstr (bp_year p) ++ " " ++ clock
  else if String.eqb pattern "yyyy-MM-dd HH:mm" then Zstr (bp_year p) ++ "-" ++ bp_monthPadded p ++ "-" ++ bp_dayPadded p ++ " " ++ clock
  else bucket.

Definition formatBucketDateTime (bucket : string) (settings : AppSettings) : string :=
  match date_parse bucket with
  | None => bucket
  | Some date => bucket_date_time (bucketParts date) bucket (date_time_format settings)
  end.

Definition formatBucketMonthYear (bucket : string) : string :=
  match date_parse bucket with
  | None => bucket
  | Some date => monthShort (bucketParts date) ++ " " ++ Zstr (bp_year (bucketParts date))
  end.

Definition formatMeteringBucketLabel (bucket : string) (resolution : Resolution) (settings : AppSettings) : string :=
  match resolution with
  | ResolutionHour => formatBucketDateTime bucket settings
  | ResolutionMonth => formatBucketMonthYear bucket
  | ResolutionDay => formatBucketShortDate bucket settings
  end.

Definition formatMeteringTimestamp (value : string) (settings : AppSettings) : string :=
  match date_parse value with
  | None => value
  | Some date => formatBucketDateTime value settings ++ " " ++ offset_name date
  end.
End Labels.

Definition conditionLabel (translate : string → list (string * string) → string) (condition : string) : string :=
  if String.eqb condition "" then translate "pages.meteringData.rawTable.conditionValid" []
  else if String.eqb condition "56" then translate "pages.meteringData.rawTable.conditionEstimated" [] ++ " (56)"
  else if String.eqb condition "21" then translate "pages.meteringData.rawTable.conditionTemporary" [] ++ " (21)"
  else translate "pages.meteringData.rawTable.conditionOther" [("code", condition)].

Definition meter_type_text (t : MeterType) : string :=
  match t with MeterConsumption => "consumption" | MeterProduction => "production" | MeterBidirectional => "bidirectional" end.

Definition outReadingLabelKey (meterType : option MeterType) (whenProduction otherwise : string) : string :=
  match meterType with Some MeterProduction => whenProduction | _ => otherwise end.

Definition meteringPointOptionLabel (translate : string → string) (mp : MeteringPoint) (zevName : option string) : string :=
  join " · " ([meter_id mp; translate ("pages.meteringPoints.meterTypes." ++ meter_type_text (meter_type mp))%string]
              ++ (if is_active mp then [] else [translate "pages.meteringPoints.inactive"])
              ++ (if truthy_str zevName then [default "" zevName] else []))%list.

(** ** The two formats of an instant agree *)

Section LabelFacts.
Context `{Zone}.
Context (intl_month_short offset_name : Z → string) (intl_month : option Z → string).

Lemma bucket_date_parts t v pattern :
  pattern ∈ numeric_patterns →
  bucket_date (bucketParts intl_month_short t) v pattern = show_pattern (formatDateParts intl_month (Instant t)) v pattern.
Proof.
  intros Hp. unfold numeric_patterns, SHORT_DATE_FORMAT_OPTIONS in Hp. cbn [map fst] in Hp.
  repeat (apply elem_of_cons in Hp as [->|Hp]); [..|by apply elem_of_nil in Hp]; reflexivity.
Qed.

Lemma bucket_date_time_parts t v w pattern :
  bucket_date_time (bucketParts intl_month_short t) v pattern = show_date_time (formatDateParts intl_month (Instant t)) w pattern ∨
  bucket_date_time (bucketParts intl_month_short t) v pattern = v ∧ show_date_time (formatDateParts intl_month (Instant t)) w pattern = w.
Proof. unfold bucket_date_time, show_date_time. repeat (destruct (String.eqb pattern _); [left; reflexivity|]). by right. Qed.

Lemma parseDateValue_Instant v t : parseDateValue v = Some (Instant t) → String.eqb v "" = false ∧ date_parse v = Some t.
Proof.
  unfold parseDateValue. destruct (String.eqb v ""); [done|]. destruct (iso_fields v) as [[[y m] d]|]; [done|].
  intros (t' & Ht & [= ->])%fmap_Some. done.
Qed.

(** Charts and tables show an instant as the rest of the application does: the
    label of a day bucket is the short date of the settings, and the label of an hour
    bucket the settings' date and time, for every text that is an instant. *)
Theorem bucket_labels_agree value t settings :
  parseDateValue value = Some (Instant t) →
  (date_format_short settings ∈ numeric_patterns →
     formatMeteringBucketLabel intl_month_short value ResolutionDay settings = formatShortDate intl_month (Some value) settings) ∧
  (includes "T" value = true →
     formatMeteringBucketLabel intl_month_short value ResolutionHour settings = formatDateTime intl_month (Some value) settings).
Proof.
  intros Hp. pose proof (parseDateValue_Instant value t Hp) as [He Hd]. split.
  - intros Hs. unfold formatMeteringBucketLabel, formatBucketShortDate, formatShortDate, formatDateByPattern.
    rewrite Hd, He, Hp. by apply bucket_date_parts.
  - intros Ht. unfold formatMeteringBucketLabel, formatBucketDateTime, formatDateTime. rewrite Hd, He, Hp, Ht. cbn [negb andb].
    destruct (bucket_date_time_parts t value value (date_time_format settings)) as [->|[-> ->]]; done.
Qed.

(** ** Distinct readings have distinct timestamps *)

Lemma str_app_inj_len (a b x y : string) : String.length a = String.length b → (a ++ x = b ++ y)%string → a = b ∧ x = y.
Proof.
  revert b. induction a as [|c a IH]; intros [|d b] Hl E; try done. cbn in E. injection E as -> E. injection Hl as Hl.
  by destruct (IH b Hl E) as [-> ->].
Qed.

Lemma pad2_inj a b : (0 <= a <= 99)%Z → (0 <= b <= 99)%Z → pad2 a = pad2 b → a = b.
Proof.
  intros Ha Hb. rewrite !pad2_fix by done. intros E.
  assert (parse_digits (fix_digits 2 a) = Some a) as Pa by (apply parse_digits_fix; simpl; lia).
  assert (parse_digits (fix_digits 2 b) = Some b) as Pb by (apply parse_digits_fix; simpl; lia). congruence.
Qed.

Definition wall_hours (t : Z) : Z := ((t + offset_ms t) mod DAY_MS / HOUR_MS)%Z.
Definition wall_minutes (t : Z) : Z := ((t + offset_ms t) mod HOUR_MS / 60000)%Z.

(** An instant in a format of the settings: its day, then its wall clock. *)
Lemma bucket_date_time_day t v pattern :
  iso_range (local_day t) → pattern ∈ numeric_patterns →
  bucket_date_time (bucketParts intl_month_short t) v (pattern ++ " HH:mm")
  = (formatDateByPattern intl_month (Some (iso (local_day t))) pattern ++ " " ++ pad2 (wall_hours t) ++ ":" ++ pad2 (wall_minutes t))%string.
Proof.
  intros Hl Hp. assert (bucket_date_time (bucketParts intl_month_short t) v (pattern ++ " HH:mm")
    = show_date_time (formatDateParts intl_month (Instant t)) v (pattern ++ " HH:mm")) as ->
    by (destruct (bucket_date_time_parts t v v (pattern ++ " HH:mm")) as [->|[-> ->]]; done).
  rewrite (show_short _ _ _ (iso (local_day t))) by done. unfold formatDateByPattern. rewrite iso_nonempty, parseDateValue_iso by done.
  destruct (instant_parts intl_month t Hl) as (Ed & Em & Ey & Eh & Emin). destruct (civil_parts intl_month _ Hl) as (Fd & Fm & Fy).
  rewrite Eh, Emin. by rewrite (show_pattern_parts _ _ _ _ Hp (eq_trans Ed (eq_sym Fd)) (eq_trans Em (eq_sym Fm)) (eq_trans Ey (eq_sym Fy))).
Qed.

Lemma date_text_length t pattern :
  iso_range t → pattern ∈ numeric_patterns → String.length (formatDateByPattern intl_month (Some (iso t)) pattern) = 10%nat.
Proof.
  intros Hn Hp. unfold formatDateByPattern. rewrite iso_nonempty, parseDateValue_iso by done.
  destruct (civil_parts intl_month t Hn) as (Ed & Em & Ey).
  unfold numeric_patterns, SHORT_DATE_FORMAT_OPTIONS in Hp. cbn [map fst] in Hp.
  repeat (apply elem_of_cons in Hp as [->|Hp]); [..|by apply elem_of_nil in Hp];
    unfold show_pattern; cbn -[formatDateParts day_text month_text year_text];
    rewrite Ed, Em, Ey; unfold day_text, month_text, year_text; cbn [fix_digits String.append]; reflexivity.
Qed.

Lemma date_text_inj a b pattern :
  iso_range a → iso_range b → pattern ∈ numeric_patterns →
  formatDateByPattern intl_month (Some (iso a)) pattern = formatDateByPattern intl_month (Some (iso b)) pattern → a = b.
Proof.
  intros Ha Hb Hp E. apply iso_inj_days; [done|done|].
  rewrite <- (formatDateByPattern_roundtrip intl_month a pattern), <- (formatDateByPattern_roundtrip intl_month b pattern) by done.
  by rewrite E.
Qed.

Lemma wall_clock_range t : (0 <= wall_hours t <= 23 ∧ 0 <= wall_minutes t <= 59)%Z.
Proof. unfold wall_hours, wall_minutes, DAY_MS, HOUR_MS. Z.div_mod_to_equations. lia. Qed.

(** The timestamp of a reading tells the minutes of the year apart, also the two
    passes through the repeated autumn hour: two instants are shown alike only if they are
    the same minute. *)
Theorem metering_timestamps_distinct `{!ZoneLaws} n1 k1 n2 k2 settings pattern :
  let t1 := (n1 * DAY_MS + k1)%Z in let t2 := (n2 * DAY_MS + k2)%Z in
  iso_range n1 → (0 <= k1 < DAY_MS)%Z → iso_range n2 → (0 <= k2 < DAY_MS)%Z → iso_range (local_day t1) → iso_range (local_day t2) →
  pattern ∈ numeric_patterns → date_time_format settings = (pattern ++ " HH:mm")%string →
  (∀ t t', offset_name t = offset_name t' → offset_ms t = offset_ms t') →
  formatMeteringTimestamp intl_month_short offset_name (to_iso_string t1) settings
  = formatMeteringTimestamp intl_month_short offset_name (to_iso_string t2) settings →
  (t1 / 60000 = t2 / 60000)%Z.
Proof.
  intros t1 t2 Hn1 Hk1 Hn2 Hk2 Hl1 Hl2 Hp Hs Hoff. unfold formatMeteringTimestamp, formatBucketDateTime.
  pose proof (date_parse_to_iso n1 k1 Hn1 Hk1) as E1. pose proof (date_parse_to_iso n2 k2 Hn2 Hk2) as E2.
  fold t1 in E1. fold t2 in E2. rewrite E1, E2, Hs, !bucket_date_time_day, !str_app_assoc by done. intros E.
  apply str_app_inj_len in E as [Ed E]; [|by rewrite !date_text_length]. apply date_text_inj in Ed; [|done..].
  injection E as E. destruct (wall_clock_range t1) as [H1 M1], (wall_clock_range t2) as [H2 M2].
  assert (∀ k, (0 <= k <= 99)%Z → String.length (pad2 k) = 2%nat) as Hlen by (intros k Hk; rewrite pad2_fix by done; apply length_fix_digits).
  apply str_app_inj_len in E as [Eh E]; [|by rewrite !Hlen by lia]. injection E as E.
  apply str_app_inj_len in E as [Em E]; [|by rewrite !Hlen by lia]. injection E as E. apply Hoff in E.
  apply pad2_inj in Eh; [|lia..]. apply pad2_inj in Em; [|lia..].
  pose proof (off_minutes t1) as O1. revert Ed Eh Em. unfold local_day, wall_hours, wall_minutes, DAY_MS, HOUR_MS. rewrite E in *.
  generalize dependent (offset_ms t2). clear. intros o E O Ed Eh Em. Z.div_mod_to_equations. lia.
Qed.
End LabelFacts.

(** The two passes through 02:30 on the night summer time ends. *)
Example repeated_hour :
  let name t := Zstr (offset_ms (Zone := zurich) t / 3600000) in
  formatMeteringTimestamp (H := zurich) (λ _, "") name (to_iso_string (20751 * DAY_MS + 1800000)) DEFAULT_APP_SETTINGS = "25.10.2026 02:30 2" ∧
  formatMeteringTimestamp (H := zurich) (λ _, "") name (to_iso_string (20751 * DAY_MS + 5400000)) DEFAULT_APP_SETTINGS = "25.10.2026 02:30 1".
Proof. vm_compute. split; reflexivity. Qed.

Lemma zurich_cases t : zurich t = 3600000%Z ∨ zurich t = 7200000%Z.
Proof. unfold zurich. destruct (_ && _); auto. Qed.

Lemma metering_timestamps_distinct_witness :
  let name t := Zstr (zurich t / 3600000) in
  formatMeteringTimestamp (H := zurich) (λ _, "") name (to_iso_string (20751 * DAY_MS + 1800000)) DEFAULT_APP_SETTINGS
  = formatMeteringTimestamp (H := zurich) (λ _, "") name (to_iso_string (20751 * DAY_MS + 1830000)) DEFAULT_APP_SETTINGS ∧
  ((20751 * DAY_MS + 1800000) / 60000 = (20751 * DAY_MS + 1830000) / 60000)%Z.
Proof.
  intros name. assert (formatMeteringTimestamp (H := zurich) (λ _, "") name (to_iso_string (20751 * DAY_MS + 1800000)) DEFAULT_APP_SETTINGS
    = formatMeteringTimestamp (H := zurich) (λ _, "") name (to_iso_string (20751 * DAY_MS + 1830000)) DEFAULT_APP_SETTINGS) as E
    by (vm_compute; reflexivity).
  split; [exact E|].
  pose proof (metering_timestamps_distinct (H := zurich) (λ _, "") name (λ _, "") 20751 1800000 20751 1830000
    DEFAULT_APP_SETTINGS "dd.MM.yyyy") as H. cbn zeta in H. apply H; clear H.
  1-6: vm_compute; split; congruence.
  - unfold numeric_patterns. simpl. left.
  - reflexivity.
  - intros t t'. unfold name, offset_ms.
    destruct (zurich_cases t) as [-> | ->], (zurich_cases t') as [-> | ->]; try reflexivity; vm_compute; discriminate.
  - exact E.
Defined.

Lemma bucket_labels_agree_witness :
  parseDateValue "2025-12-31T23:30:00Z" = Some (Instant 1767223800000) ∧
  formatMeteringBucketLabel (H := zurich) (λ _, "") "2025-12-31T23:30:00Z" ResolutionHour DEFAULT_APP_SETTINGS
  = formatDateTime (H := zurich) (λ _, "") (Some "2025-12-31T23:30:00Z") DEFAULT_APP_SETTINGS ∧
  formatMeteringBucketLabel (H := zurich) (λ _, "") "2025-12-31T23:30:00Z" ResolutionHour DEFAULT_APP_SETTINGS = "01.01.2026 00:30".
Proof.
  assert (parseDateValue "2025-12-31T23:30:00Z" = Some (Instant 1767223800000)) as Hp by (vm_compute; reflexivity).
  split; [exact Hp|]. split; [|vm_compute; reflexivity].
  destruct (bucket_labels_agree (H := zurich) (λ _, "") (λ _, "") _ _ DEFAULT_APP_SETTINGS Hp) as [_ H]. apply H. reflexivity.
Defined.
