(* ===== verification/Participants.v ===== *)
(** Participants and charges: the participant form
    (frontend/src/features/participants/useParticipantForm.ts, participantIssues.ts), the
    name a participant is billed under (lib/participantFormat.ts), and the form of a
    charge with its labels (features/charges/chargeForm.ts).

    The form schema is the list of its issues (field and message key); texts and dates are
    translated and formatted by parameters. [z.string().email()] is the parameter
    [is_email]. *)

From S2P Require Import Prelude JsString JsNumber Json InvoiceTypes MeteringPoints.
Local Open Scope string_scope.

(** ** Records of types/api.ts *)

Record PartyRoleWindow := { window_id : string; window_role : string; window_from : string; window_to : option string }.

Record Participant := {
  pt_id : string; pt_zev : string; pt_user : option Z; pt_account_username : option string; pt_onboarding_status : option string;
  pt_onboarding_link_expires_at : option string; pt_party : option string; pt_kind : option PartyKind;
  pt_display_name : option string; pt_full_name : option string; pt_organisation_name : option string;
  pt_name_addition : option string; pt_title : option string; pt_first_name : string; pt_last_name : string; pt_email : string;
  pt_phone : option string; pt_address_line1 : option string; pt_address_line2 : option string; pt_postal_code : option string;
  pt_city : option string; pt_notes : option string; pt_valid_from : string; pt_valid_to : option string;
  pt_metering_points : option (list MeteringPoint); pt_has_metering_point_assignment : option bool;
  pt_roles : option (list PartyRoleWindow); pt_allocation_weight : string;
}.

(** A missing field is [None]; [in_valid_to] may be sent as null, which is [Some None]. *)
Record ParticipantInput := {
  in_zev : string; in_party : option string; in_kind : option PartyKind; in_organisation_name : option string;
  in_name_addition : option string; in_title : option string; in_first_name : option string; in_last_name : option string;
  in_email : option string; in_valid_from : string; in_valid_to : option (option string); in_phone : option string;
  in_city : option string; in_postal_code : option string; in_address_line1 : option string; in_address_line2 : option string;
  in_notes : option string; in_allocation_weight : option string;
}.

Inductive ChargeAllocation := AllParticipants | SelectedParticipants.
#[export] Instance ChargeAllocation_eq_dec : EqDecision ChargeAllocation.
Proof. solve_decision. Defined.

Record Charge := {
  charge_id : string; charge_zev : string; charge_description : string; amount_chf : string; charge_date : string;
  charge_allocation : ChargeAllocation; charge_split_key : string; charge_vat_treatment : string; charge_participants : list string;
  is_locked : bool; charge_created_at : string; charge_updated_at : string;
}.

Record ChargeInput := {
  ci_zev : string; ci_description : string; ci_amount_chf : string; ci_charge_date : string; ci_allocation : ChargeAllocation;
  ci_split_key : string; ci_vat_treatment : string; ci_participants : list string;
}.

(** ** Model of useParticipantForm.ts *)

Record ParticipantFormValues := {
  party : string; kind : PartyKind; organisation_name : string; name_addition : string; title : string; first_name : string;
  last_name : string; email : string; phone : string; address_line1 : string; address_line2 : string; postal_code : string;
  city : string; notes : string; valid_from : string; valid_to : string; allocation_weight : string;
}.

Definition kind_eqb (a b : PartyKind) : bool := match a, b with KindPerson, KindPerson | KindOrganisation, KindOrganisation => true | _, _ => false end.

Definition blank (s : string) : bool := negb (nonempty (trim s)).

Definition issue_if (b : bool) (path key : string) : list (string * string) := if b then [(path, key)] else [].

(** The refinements of [superRefine]. *)
Definition refined_issues (v : ParticipantFormValues) : list (string * string) :=
  (if negb (nonempty (party v)) && kind_eqb (kind v) KindPerson
   then issue_if (blank (first_name v)) "first_name" "pages.participants.validation.nameRequired"
        ++ issue_if (blank (last_name v)) "last_name" "pages.participants.validation.nameRequired" else [])
  ++ issue_if (negb (nonempty (party v)) && kind_eqb (kind v) KindOrganisation && blank (organisation_name v))
       "organisation_name" "pages.participants.validation.organisationNameRequired"
  ++ issue_if (nonempty (allocation_weight v) && negb (num_gt (to_number (allocation_weight v)) (of_Z 0)))
       "allocation_weight" "pages.participants.validation.allocationWeightPositive".

(** The checks of the shape itself. *)
Definition shape_issues (is_email : string → bool) (v : ParticipantFormValues) : list string :=
  (if is_email (trim (email v)) then [] else ["email"]) ++ (if nonempty (trim (valid_from v)) then [] else ["valid_from"]).

(** What the schema makes of accepted values: the two trimmed fields. *)
Definition parsed (v : ParticipantFormValues) : ParticipantFormValues :=
  {| party := party v; kind := kind v; organisation_name := organisation_name v; name_addition := name_addition v; title := title v;
     first_name := first_name v; last_name := last_name v; email := trim (email v); phone := phone v;
     address_line1 := address_line1 v; address_line2 := address_line2 v; postal_code := postal_code v; city := city v;
     notes := notes v; valid_from := trim (valid_from v); valid_to := valid_to v; allocation_weight := allocation_weight v |}.

Definition participantFormSchema (is_email : string → bool) (v : ParticipantFormValues) : option ParticipantFormValues :=
  match shape_issues is_email v, refined_issues v with [], [] => Some (parsed v) | _, _ => None end.

Definition defaultParticipantFormValues (today : string) : ParticipantFormValues :=
  {| party := ""; kind := KindPerson; organisation_name := ""; name_addition := ""; title := ""; first_name := ""; last_name := "";
     email := ""; phone := ""; address_line1 := ""; address_line2 := ""; postal_code := ""; city := ""; notes := "";
     valid_from := today; valid_to := ""; allocation_weight := "" |}.

Definition mapParticipantToFormValues (p : Participant) : ParticipantFormValues :=
  {| party := ""; kind := default KindPerson (pt_kind p); organisation_name := or_str (pt_organisation_name p) "";
     name_addition := or_str (pt_name_addition p) ""; title := or_str (pt_title p) ""; first_name := pt_first_name p;
     last_name := pt_last_name p; email := pt_email p; phone := or_str (pt_phone p) "";
     address_line1 := or_str (pt_address_line1 p) ""; address_line2 := or_str (pt_address_line2 p) "";
     postal_code := or_str (pt_postal_code p) ""; city := or_str (pt_city p) ""; notes := or_str (pt_notes p) "";
     valid_from := pt_valid_from p; valid_to := or_str (pt_valid_to p) ""; allocation_weight := pt_allocation_weight p |}.

(** [text || undefined]. *)
Definition or_undefined (s : string) : option string := if nonempty s then Some s else None.

(** Without the fields of [PARTY_FIELDS]. *)
Definition participation (i : ParticipantInput) (p : string) : ParticipantInput :=
  {| in_zev := in_zev i; in_party := Some p; in_kind := None; in_organisation_name := None; in_name_addition := None; in_title := None;
     in_first_name := None; in_last_name := None; in_email := None; in_valid_from := in_valid_from i; in_valid_to := in_valid_to i;
     in_phone := None; in_city := None; in_postal_code := None; in_address_line1 := None; in_address_line2 := None;
     in_notes := in_notes i; in_allocation_weight := in_allocation_weight i |}.

Definition mapParticipantFormValuesToInput (v : ParticipantFormValues) (zevId : string) : ParticipantInput :=
  let input :=
    {| in_zev := zevId; in_party := None; in_kind := Some (kind v);
       in_organisation_name := Some (if kind_eqb (kind v) KindOrganisation then trim (organisation_name v) else "");
       in_name_addition := Some (trim (name_addition v)); in_title := Some (title v); in_first_name := Some (trim (first_name v));
       in_last_name := Some (trim (last_name v)); in_email := Some (trim (email v)); in_valid_from := valid_from v;
       in_valid_to := Some (or_undefined (valid_to v)); in_phone := Some (phone v); in_city := Some (city v);
       in_postal_code := Some (postal_code v); in_address_line1 := Some (address_line1 v);
       in_address_line2 := Some (address_line2 v); in_notes := Some (notes v);
       in_allocation_weight := or_undefined (allocation_weight v) |} in
  if nonempty (party v) then participation input (party v) else input.

(** ** Model of participantIssues.ts and participantFormat.ts *)

Inductive ParticipantIssue := NoEmail | NoAddress | NoMeteringPoint.

Definition participantIssues (p : Participant) : list ParticipantIssue :=
  (if nonempty (pt_email p) then [] else [NoEmail])
  ++ (if truthy_str (pt_address_line1 p) && truthy_str (pt_postal_code p) && truthy_str (pt_city p) then [] else [NoAddress])
  ++ (if default false (pt_has_metering_point_assignment p) then [] else [NoMeteringPoint]).

Definition formatParticipantName (p : Participant) (titleLabel : option string) : string :=
  let person := join " " (bfilter nonempty [default "" titleLabel; pt_first_name p; pt_last_name p]) in
  match pt_kind p with
  | Some KindOrganisation => if truthy_str (pt_organisation_name p) then default "" (pt_organisation_name p) else person
  | _ => person
  end.

(** ** Model of chargeForm.ts *)

Record ChargeFormValues := {
  description : string; amount : string; chargeDate : option string; allocation : ChargeAllocation; form_participants : list string;
  splitKey : string; vatTreatment : string;
}.

Definition emptyChargeValues (today : string) : ChargeFormValues :=
  {| description := ""; amount := ""; chargeDate := Some today; allocation := AllParticipants; form_participants := [];
     splitKey := "equal"; vatTreatment := "taxable" |}.

Definition chargeToValues (c : Charge) : ChargeFormValues :=
  {| description := charge_description c; amount := amount_chf c; chargeDate := Some (charge_date c); allocation := charge_allocation c;
     form_participants := charge_participants c; splitKey := charge_split_key c; vatTreatment := charge_vat_treatment c |}.

Definition is_selected (a : ChargeAllocation) : bool := bool_decide (a = SelectedParticipants).

(** The keys of the errors object. *)
Definition chargeFieldErrors (v : ChargeFormValues) : list string :=
  (if blank (description v) then ["description"] else [])
  ++ (if negb (num_gt (to_number (amount v)) (of_Z 0)) then ["amount"] else [])
  ++ (if negb (truthy_str (chargeDate v)) then ["chargeDate"] else [])
  ++ (if is_selected (allocation v) && (length (form_participants v) =? 0)%nat then ["participants"] else []).

Definition chargeInputFrom (v : ChargeFormValues) (zevId : string) : option ChargeInput :=
  match chargeFieldErrors v, chargeDate v with
  | [], Some date =>
      Some {| ci_zev := zevId; ci_description := trim (description v); ci_amount_chf := to_fixed 2 (to_number (amount v));
              ci_charge_date := date; ci_allocation := allocation v; ci_split_key := splitKey v; ci_vat_treatment := vatTreatment v;
              ci_participants := if is_selected (allocation v) then form_participants v else [] |}
  | _, _ => None
  end.

Section ChargeTexts.
Context (t : string → list (string * json) → string) (formatDate : string → string).

Definition bearersLabel (a : ChargeAllocation) (ps : list string) (names : list (string * string)) : string :=
  match a with
  | AllParticipants => t "pages.charges.bearers.all" []
  | SelectedParticipants =>
      match ps with
      | [p] => match omap_get p names with Some n => n | None => t "pages.charges.bearers.one" [] end
      | _ => t "pages.charges.bearers.selected" [("count", JNum (of_Z (Z.of_nat (length ps))))]
      end
  end.

(** ISO dates compare as texts. *)
Definition clampDate (day min max : string) : string := if str_lt day min then min else if str_lt max day then max else day.

Definition nameOf (p : Participant) : string := or_str (pt_display_name p) (or_str (pt_full_name p) "").
Definition partyOf (p : Participant) : string := default (pt_id p) (pt_party p).

Definition count_up {K} `{!EqDecision K} (k : K) (m : list (K * nat)) : list (K * nat) := omap_set k (S (default 0%nat (omap_get k m))) m.

Definition partySize (ps : list Participant) : list (string * nat) := foldl (λ m p, count_up (partyOf p) m) [] ps.

(** Where a participation's meters are. *)
Definition meter_place (m : MeteringPoint) : string :=
  let place := match location_description m with Some l => trim l | None => "" end in
  if nonempty place then place else meter_id m.

Definition details (p : Participant) (withValidity : bool) : list string :=
  sort_by str_le (oset_of (map meter_place (default [] (pt_metering_points p))))
  ++ (if withValidity
      then [if truthy_str (pt_valid_to p)
            then t "pages.charges.fields.participantValidity" [("from", JStr (formatDate (pt_valid_from p))); ("to", JStr (formatDate (default "" (pt_valid_to p))))]
            else t "pages.charges.fields.participantValiditySince" [("from", JStr (formatDate (pt_valid_from p)))]]
      else []).

Definition labelWith (ps : list Participant) (p : Participant) (withValidity : bool) : string :=
  if (default 0 (omap_get (partyOf p) (partySize ps)) <? 2)%nat then nameOf p
  else match details p withValidity with
       | [] => nameOf p
       | ds => nameOf p ++ " (" ++ join ", " ds ++ ")"
       end.

Definition plain_labels (ps : list Participant) : list (string * string) := omap_of (map (λ p, (pt_id p, labelWith ps p false)) ps).

Definition label_counts (ps : list Participant) : list (string * nat) := foldl (λ m l, count_up l m) [] (plain_labels ps).*2.

Definition participantLabels (ps : list Participant) : list (string * string) :=
  omap_of (map (λ p, (pt_id p,
    let plain := default "" (omap_get (pt_id p) (plain_labels ps)) in
    if (1 <? default 0 (omap_get plain (label_counts ps)))%nat then labelWith ps p true else plain)) ps).
End ChargeTexts.

(** ** The participant form *)

(** What the server holds of a participant, as the form would send it. *)
Definition stored_input (p : Participant) (zevId : string) : ParticipantInput :=
  {| in_zev := zevId; in_party := None; in_kind := Some (default KindPerson (pt_kind p));
     in_organisation_name := Some (default "" (pt_organisation_name p)); in_name_addition := Some (default "" (pt_name_addition p));
     in_title := Some (default "" (pt_title p)); in_first_name := Some (pt_first_name p); in_last_name := Some (pt_last_name p);
     in_email := Some (pt_email p); in_valid_from := pt_valid_from p; in_valid_to := Some (pt_valid_to p);
     in_phone := Some (default "" (pt_phone p)); in_city := Some (default "" (pt_city p));
     in_postal_code := Some (default "" (pt_postal_code p)); in_address_line1 := Some (default "" (pt_address_line1 p));
     in_address_line2 := Some (default "" (pt_address_line2 p)); in_notes := Some (default "" (pt_notes p));
     in_allocation_weight := Some (pt_allocation_weight p) |}.

Definition trimmed (s : string) : Prop := trim s = s.

(** A participant as the server stores it: trimmed names, the name its kind needs, an
    organisation's name only for an organisation, a positive weight, no empty end. *)
Record participant_wf (is_email : string → bool) (p : Participant) : Prop := {
  wf_first : trimmed (pt_first_name p); wf_last : trimmed (pt_last_name p); wf_addition : trimmed (default "" (pt_name_addition p));
  wf_organisation : trimmed (default "" (pt_organisation_name p));
  wf_person : default KindPerson (pt_kind p) = KindPerson →
    pt_first_name p ≠ "" ∧ pt_last_name p ≠ "" ∧ default "" (pt_organisation_name p) = "";
  wf_named : default KindPerson (pt_kind p) = KindOrganisation → default "" (pt_organisation_name p) ≠ "";
  wf_email : trimmed (pt_email p) ∧ is_email (pt_email p) = true;
  wf_from : trimmed (pt_valid_from p) ∧ pt_valid_from p ≠ ""; wf_to : pt_valid_to p ≠ Some "";
  wf_weight : pt_allocation_weight p ≠ "" ∧ num_gt (to_number (pt_allocation_weight p)) (of_Z 0) = true;
}.

Lemma or_text_default o : or_str o "" = default "" o.
Proof. by destruct o as [[]|]. Qed.

Lemma or_undefined_or_str o : o ≠ Some "" → or_undefined (or_str o "") = o.
Proof. destruct o as [[]|]; done. Qed.

(** A stored participant opened in the form passes its check, and saving it
    unchanged sends back what the server holds. *)
Theorem participant_form_roundtrip is_email p zevId :
  participant_wf is_email p →
  participantFormSchema is_email (mapParticipantToFormValues p) = Some (mapParticipantToFormValues p) ∧
  mapParticipantFormValuesToInput (mapParticipantToFormValues p) zevId = stored_input p zevId.
Proof.
  intros [Hf Hl Ha Ho Hp Hn [He Hie] [Hvf Hvn] Hto [Hw Hwp]]. unfold trimmed in *. split.
  - unfold participantFormSchema, shape_issues, refined_issues, blank, issue_if, parsed, mapParticipantToFormValues.
    cbn [party kind organisation_name name_addition title first_name last_name email phone address_line1 address_line2
         postal_code city notes valid_from valid_to allocation_weight].
    rewrite !or_text_default, He, Hie, Hvf, Hf, Hl, Ho, Hwp, (proj2 (nonempty_true _) Hvn), (proj2 (nonempty_true _) Hw).
    destruct (default KindPerson (pt_kind p)); cbn.
    + destruct Hp as (H1 & H2 & _); [done|]. by rewrite (proj2 (nonempty_true _) H1), (proj2 (nonempty_true _) H2).
    + by rewrite (proj2 (nonempty_true _) (Hn eq_refl)).
  - unfold mapParticipantFormValuesToInput, mapParticipantToFormValues, stored_input.
    cbn [party kind organisation_name name_addition title first_name last_name email phone address_line1 address_line2
         postal_code city notes valid_from valid_to allocation_weight nonempty].
    change (nonempty "") with false. cbv iota. rewrite or_undefined_or_str by done. rewrite !or_text_default, Hf, Hl, Ha, Ho, He.
    unfold or_undefined. rewrite (proj2 (nonempty_true _) Hw).
    destruct (default KindPerson (pt_kind p)); cbn; [|done]. by destruct Hp as (_ & _ & ->).
Qed.

Definition sample_participant : Participant :=
  {| pt_id := "p1"; pt_zev := "z"; pt_user := None; pt_account_username := None; pt_onboarding_status := None;
     pt_onboarding_link_expires_at := None; pt_party := Some "a"; pt_kind := Some KindPerson; pt_display_name := Some "Anna Muster";
     pt_full_name := None; pt_organisation_name := None; pt_name_addition := None; pt_title := Some "mrs"; pt_first_name := "Anna";
     pt_last_name := "Muster"; pt_email := "anna@zev.ch"; pt_phone := None; pt_address_line1 := Some "Weg 1"; pt_address_line2 := None;
     pt_postal_code := Some "8000"; pt_city := Some "Bern"; pt_notes := None; pt_valid_from := "2026-01-01"; pt_valid_to := None;
     pt_metering_points := None; pt_has_metering_point_assignment := None; pt_roles := None; pt_allocation_weight := "1.5" |}.

Lemma participant_form_roundtrip_witness :
  participant_wf (includes "@") sample_participant ∧
  mapParticipantFormValuesToInput (mapParticipantToFormValues sample_participant) "z" = stored_input sample_participant "z".
Proof.
  assert (participant_wf (includes "@") sample_participant) as H
    by (constructor; try (vm_compute; repeat split; congruence); intros; vm_compute in *; repeat split; congruence).
  split; [exact H|]. apply (participant_form_roundtrip (includes "@") sample_participant "z" H).
Defined.

Lemma blank_trim s : blank s = false ↔ trim s ≠ "".
Proof. unfold blank. by rewrite negb_false_iff, nonempty_true. Qed.

(** What an accepted form sends: for an existing party only the participation
    itself, none of the party's names or address; for a new one a name of its kind that is
    not blank, never an organisation's name for a person; and a weight only if positive. *)
Theorem participant_input_safe is_email v w zevId :
  participantFormSchema is_email v = Some w →
  let i := mapParticipantFormValuesToInput w zevId in
  (∀ k, in_allocation_weight i = Some k → num_gt (to_number k) (of_Z 0) = true) ∧
  if nonempty (party v)
  then in_party i = Some (party v) ∧
       [in_organisation_name i; in_name_addition i; in_title i; in_first_name i; in_last_name i; in_email i; in_phone i;
        in_address_line1 i; in_address_line2 i; in_postal_code i; in_city i] = repeat None 11 ∧ in_kind i = None
  else in_party i = None ∧ in_kind i = Some (kind v) ∧
       match kind v with
       | KindPerson => in_organisation_name i = Some "" ∧ ∃ f l, in_first_name i = Some f ∧ in_last_name i = Some l ∧ f ≠ "" ∧ l ≠ ""
       | KindOrganisation => ∃ o, in_organisation_name i = Some o ∧ o ≠ ""
       end.
Proof.
  unfold participantFormSchema. destruct (shape_issues is_email v); [|done]. destruct (refined_issues v) eqn:Hr; [|done].
  intros [= <-]. cbn zeta. unfold refined_issues in Hr. apply app_eq_nil in Hr as [Hn Hr]. apply app_eq_nil in Hr as [Ho Hw]. split.
  - intros k Hk. assert (or_undefined (allocation_weight v) = Some k) as Hk'.
    { revert Hk. unfold mapParticipantFormValuesToInput. destruct (nonempty (party (parsed v))); done. }
    unfold or_undefined in Hk'. destruct (nonempty (allocation_weight v)); [|done]. injection Hk' as <-.
    destruct (num_gt _ _); [done|discriminate].
  - unfold mapParticipantFormValuesToInput. cbn [parsed party kind organisation_name first_name last_name].
    destruct (nonempty (party v)); [by split_and!|]. cbn [negb andb] in Hn, Ho.
    split_and!; [done|done|]. cbn. destruct (kind v); cbn [kind_eqb] in *.
    + apply app_eq_nil in Hn as [H1 H2]. unfold issue_if in H1, H2. split; [done|].
      exists (trim (first_name v)), (trim (last_name v)). split_and!; [done|done| |]; apply blank_trim.
      * by destruct (blank (first_name v)).
      * by destruct (blank (last_name v)).
    + unfold issue_if in Ho. exists (trim (organisation_name v)). split; [done|]. apply blank_trim. by destruct (blank (organisation_name v)).
Qed.

Lemma participant_input_safe_witness :
  participantFormSchema (includes "@") (mapParticipantToFormValues sample_participant) = Some (mapParticipantToFormValues sample_participant) ∧
  in_party (mapParticipantFormValuesToInput (mapParticipantToFormValues sample_participant) "z") = None.
Proof.
  assert (participantFormSchema (includes "@") (mapParticipantToFormValues sample_participant)
    = Some (mapParticipantToFormValues sample_participant)) as H by (vm_compute; reflexivity).
  split; [exact H|]. apply (participant_input_safe _ _ _ "z" H).
Defined.

(** ** Charges *)

(** A charge is sent exactly when no field is in error; then its text is not
    blank, its amount was positive, it has its date, and it names participants exactly when
    it is borne by selected ones. A charge with an amount in the server's format, opened
    and saved unchanged, is sent as it is. *)
Theorem charge_input_exact v zevId :
  (is_Some (chargeInputFrom v zevId) ↔ chargeFieldErrors v = []) ∧
  (∀ i, chargeInputFrom v zevId = Some i →
     ci_description i ≠ "" ∧ num_gt (to_number (amount v)) (of_Z 0) = true ∧ chargeDate v = Some (ci_charge_date i) ∧
     (ci_participants i ≠ [] ↔ ci_allocation i = SelectedParticipants)) ∧
  (∀ c, trimmed (charge_description c) → to_fixed 2 (to_number (amount_chf c)) = amount_chf c →
     (charge_allocation c = AllParticipants → charge_participants c = []) → chargeFieldErrors (chargeToValues c) = [] →
     chargeInputFrom (chargeToValues c) (charge_zev c) =
     Some {| ci_zev := charge_zev c; ci_description := charge_description c; ci_amount_chf := amount_chf c; ci_charge_date := charge_date c;
             ci_allocation := charge_allocation c; ci_split_key := charge_split_key c; ci_vat_treatment := charge_vat_treatment c;
             ci_participants := charge_participants c |}).
Proof.
  assert (∀ v, chargeFieldErrors v = [] → blank (description v) = false ∧ num_gt (to_number (amount v)) (of_Z 0) = true ∧
    truthy_str (chargeDate v) = true ∧ is_selected (allocation v) && (length (form_participants v) =? 0)%nat = false) as He.
  { clear v. intros v E. unfold chargeFieldErrors in E. apply app_eq_nil in E as [E1 E]. apply app_eq_nil in E as [E2 E]. apply app_eq_nil in E as [E3 E4].
    split_and!.
    - by destruct (blank (description v)).
    - by destruct (num_gt _ _).
    - by destruct (truthy_str _).
    - by destruct (_ && _). }
  split_and!.
  - unfold chargeInputFrom. split.
    + destruct (chargeFieldErrors v); [done|by intros []].
    + intros E. destruct (He v E) as (_ & _ & Hd & _). rewrite E. destruct (chargeDate v); [by eexists|done].
  - intros i. unfold chargeInputFrom. destruct (chargeFieldErrors v) eqn:E; [|done]. destruct (chargeDate v) eqn:Hdate; [|done].
    intros [= <-]. destruct (He v E) as (Hb & Hn & _ & Hp). cbn [ci_description ci_charge_date ci_participants ci_allocation].
    split_and!; [by apply blank_trim|done|done|]. unfold is_selected in *.
    destruct (allocation v); cbn in Hp |- *; [by split|]. split; [done|]. by destruct (form_participants v).
  - intros c Ht Hf Hs E. unfold chargeInputFrom. rewrite E. unfold trimmed in Ht.
    cbn [chargeToValues description amount chargeDate allocation form_participants splitKey vatTreatment]. rewrite Hf, Ht. do 2 f_equal.
    unfold is_selected. destruct (charge_allocation c); [by rewrite Hs|done].
Qed.

(** A positive amount below half a centime passes the check and is sent as zero (the
    amount field's own minimum keeps it out). *)
Example tiny_amount_sent_as_zero :
  ci_amount_chf <$> chargeInputFrom {| description := "Repair"; amount := "0.001"; chargeDate := Some "2026-01-01"; allocation := AllParticipants;
    form_participants := []; splitKey := "equal"; vatTreatment := "taxable" |} "z" = Some "0.00".
Proof. vm_compute. reflexivity. Qed.

Lemma clampDate_bounds day min max :
  str_le min max = true → str_le min (clampDate day min max) = true ∧ str_le (clampDate day min max) max = true.
Proof.
  intros H. unfold clampDate. destruct (str_lt day min) eqn:E1; [split; [apply str_le_refl|done]|].
  destruct (str_lt max day) eqn:E2; [split; [done|apply str_le_refl]|]. by rewrite <- !str_lt_false.
Qed.

(** ** Labels of participations *)

Definition occurrences {K} `{!EqDecision K} (k : K) (l : list K) : nat := length (bfilter (λ x, bool_decide (x = k)) l).

Lemma count_up_get {K} `{!EqDecision K} (k x : K) m :
  default 0%nat (omap_get k (count_up x m)) = ((if bool_decide (x = k) then 1 else 0) + default 0 (omap_get k m))%nat.
Proof.
  unfold count_up. case_bool_decide as H; [subst; by rewrite omap_get_set_eq|]. rewrite omap_get_set_ne; [done|]. congruence.
Qed.

Lemma count_fold {K} `{!EqDecision K} (k : K) l m :
  default 0%nat (omap_get k (foldl (λ m x, count_up x m) m l)) = (occurrences k l + default 0 (omap_get k m))%nat.
Proof.
  revert m. induction l as [|x l IH]; intros m; [done|]. cbn [foldl]. rewrite IH, count_up_get. unfold occurrences, bfilter. cbn [List.filter].
  destruct (bool_decide (x = k)); cbn [length]; lia.
Qed.

(** One occurrence, and no more exactly if no other element has the value. *)
Lemma occurrences_unique {A K} `{!EqDecision K} (f : A → K) (g : A → string) (l : list A) x :
  NoDup (map g l) → x ∈ l →
  (1 <= occurrences (f x) (map f l))%nat ∧ (1 < occurrences (f x) (map f l) ↔ ∃ y, y ∈ l ∧ g y ≠ g x ∧ f y = f x)%nat.
Proof.
  intros Hnd (l1 & l2 & ->)%list_elem_of_split.
  assert (∀ k l, occurrences k (map f l) = length (bfilter (λ y, bool_decide (f y = k)) l)) as Ho.
  { clear. intros k l. unfold occurrences, bfilter. induction l as [|y l IH]; [done|]. cbn. destruct (bool_decide (f y = k)); cbn; by rewrite IH. }
  rewrite Ho. unfold bfilter. rewrite List.filter_app. cbn [List.filter]. rewrite bool_decide_true by done. rewrite length_app. cbn [length].
  rewrite map_app in Hnd. cbn [map] in Hnd. apply NoDup_app in Hnd as (_ & Hd1 & Hd2). apply NoDup_cons in Hd2 as [Hd2 _].
  split; [lia|]. split.
  - intros Hc. destruct (List.filter (λ y, bool_decide (f y = f x)) l1) as [|y r] eqn:E1.
    + destruct (List.filter (λ y, bool_decide (f y = f x)) l2) as [|y r] eqn:E2; [cbn in Hc; lia|].
      assert (y ∈ bfilter (λ y, bool_decide (f y = f x)) l2) as Hy by (unfold bfilter; rewrite E2; by left).
      apply elem_of_bfilter in Hy as [Hy Hf%bool_decide_eq_true]. exists y. split_and!; [apply elem_of_app; right; by right| |done].
      intros E. apply Hd2. rewrite <- E. by apply list_elem_of_fmap_2.
    + assert (y ∈ bfilter (λ y, bool_decide (f y = f x)) l1) as Hy by (unfold bfilter; rewrite E1; by left).
      apply elem_of_bfilter in Hy as [Hy Hf%bool_decide_eq_true]. exists y. split_and!; [apply elem_of_app; by left| |done].
      intros E. apply (Hd1 (g y)); [by apply list_elem_of_fmap_2|]. rewrite E. by left.
  - intros (y & Hy & Hne & Hf). apply elem_of_app in Hy as [Hy|[->|Hy]%elem_of_cons]; [|done|].
    + assert (y ∈ bfilter (λ y, bool_decide (f y = f x)) l1) as Hin by (apply elem_of_bfilter; by rewrite bool_decide_true).
      unfold bfilter in Hin. destruct (List.filter _ l1); [by apply elem_of_nil in Hin|cbn; lia].
    + assert (y ∈ bfilter (λ y, bool_decide (f y = f x)) l2) as Hin by (apply elem_of_bfilter; by rewrite bool_decide_true).
      unfold bfilter in Hin. destruct (List.filter _ l2); [by apply elem_of_nil in Hin|cbn; lia].
Qed.

Lemma omap_of_id {K V} `{!EqDecision K} (l : list (K * V)) : NoDup l.*1 → omap_of l = l.
Proof.
  unfold omap_of. assert (∀ m, NoDup (m ++ l)%list.*1 → foldl (λ m kv, omap_set kv.1 kv.2 m) m l = (m ++ l)%list) as H; [|intros Hl; by apply (H [])].
  induction l as [|[k v] l IH]; intros m Hm; cbn [foldl fst snd]; [by rewrite app_nil_r|].
  assert (omap_set k v m = (m ++ [(k, v)])%list) as ->.
  { rewrite fmap_app in Hm. cbn in Hm. apply NoDup_app in Hm as (_ & Hd & _). clear -Hd. induction m as [|[k' v'] m IHm]; [done|].
    cbn [omap_set app]. destruct (bool_decide_reflect (k = k')) as [->|Hk]; [exfalso; apply (Hd k'); cbn; left|].
    rewrite IHm; [done|].
    intros x Hx. apply Hd. cbn. by right. }
  rewrite IH, <- app_assoc; [done|]. by rewrite <- app_assoc.
Qed.

Section LabelFacts.
Context (t : string → list (string * json) → string) (formatDate : string → string) (ps : list Participant).
Context (ids_unique : NoDup (map pt_id ps)).

Lemma labels_keys {V} (f : Participant → V) : NoDup (map (λ p, (pt_id p, f p)) ps).*1.
Proof. change (NoDup (map fst (map (λ p, (pt_id p, f p)) ps))). by rewrite map_map. Qed.

Lemma labels_get {V} (f : Participant → V) p : p ∈ ps → omap_get (pt_id p) (omap_of (map (λ p, (pt_id p, f p)) ps)) = Some (f p).
Proof.
  intros Hp. rewrite omap_of_id by apply labels_keys. apply omap_elem_get; [apply labels_keys|].
  by apply (list_elem_of_fmap_2 (λ p, (pt_id p, f p))).
Qed.

Lemma label_counts_occurrences k :
  default 0%nat (omap_get k (label_counts t formatDate ps)) = occurrences k (map (λ p, labelWith t formatDate ps p false) ps).
Proof.
  unfold label_counts. rewrite count_fold. cbn [omap_get default from_option id]. rewrite Nat.add_0_r. f_equal.
  unfold plain_labels. rewrite omap_of_id by apply labels_keys. change (map snd (map (λ p, (pt_id p, labelWith t formatDate ps p false)) ps)
    = map (λ p, labelWith t formatDate ps p false) ps). by rewrite map_map.
Qed.

Lemma partySize_occurrences k : default 0%nat (omap_get k (partySize ps)) = occurrences k (map partyOf ps).
Proof.
  unfold partySize. assert (∀ m, foldl (λ m p, count_up (partyOf p) m) m ps = foldl (λ m x, count_up x m) m (map partyOf ps)) as E.
  { induction ps as [|p l IH]; [done|]. intros m. cbn. apply IH. by inversion ids_unique. }
  rewrite E, count_fold. cbn. lia.
Qed.

(** Every listed participation has a label: its name if its party has no other
    one; otherwise its name with its meters' places, and also with its validity exactly if
    those alone are the label of another participation too. *)
Theorem participant_labels_spec p :
  p ∈ ps →
  let shown := omap_get (pt_id p) (participantLabels t formatDate ps) in
  let alike q := pt_id q ≠ pt_id p ∧ labelWith t formatDate ps q false = labelWith t formatDate ps p false in
  ((∀ q, q ∈ ps → ¬ alike q) → shown = Some (labelWith t formatDate ps p false)) ∧
  ((∃ q, q ∈ ps ∧ alike q) → shown = Some (labelWith t formatDate ps p true)) ∧
  ((∀ q, q ∈ ps → partyOf q = partyOf p → pt_id q = pt_id p) → shown = Some (nameOf p)).
Proof.
  intros Hp. cbn zeta. unfold participantLabels. rewrite (labels_get (λ p, _) p Hp).
  unfold plain_labels. rewrite (labels_get (λ p, labelWith t formatDate ps p false) p Hp). cbn [default from_option id].
  rewrite label_counts_occurrences.
  destruct (occurrences_unique (λ p, labelWith t formatDate ps p false) pt_id ps p ids_unique Hp) as [_ Hc]. cbv beta in Hc.
  assert ((∀ q, q ∈ ps → partyOf q = partyOf p → pt_id q = pt_id p) → ∀ b, labelWith t formatDate ps p b = nameOf p) as Hname.
  { intros H b. unfold labelWith. rewrite partySize_occurrences.
    destruct (occurrences_unique partyOf pt_id ps p ids_unique Hp) as [_ Hs].
    destruct (Nat.ltb_spec (occurrences (partyOf p) (map partyOf ps)) 2) as [|Hge]; [done|]. exfalso.
    destruct Hs as [(q & Hq & Hne & E) _]; [lia|]. by apply Hne, H. }
  destruct (Nat.ltb_spec 1 (occurrences (labelWith t formatDate ps p false) (map (λ p, labelWith t formatDate ps p false) ps))) as [Hlt|Hge].
  - split_and!; [|done|intros H; by rewrite (Hname H)]. intros H. apply Hc in Hlt as (q & Hq & Hne & E). exfalso. by apply (H q).
  - split_and!; [done| |intros H; by rewrite (Hname H)]. intros (q & Hq & Hne & E). assert (1 < 1)%nat; [|lia].
    eapply Nat.lt_le_trans; [apply Hc; by exists q|done].
Qed.
End LabelFacts.

(** A flat and a parking space of one person, without meters: told apart by their validity. *)
Definition second_participation : Participant :=
  {| pt_id := "p2"; pt_zev := "z"; pt_user := None; pt_account_username := None; pt_onboarding_status := None;
     pt_onboarding_link_expires_at := None; pt_party := Some "a"; pt_kind := Some KindPerson; pt_display_name := Some "Anna Muster";
     pt_full_name := None; pt_organisation_name := None; pt_name_addition := None; pt_title := None; pt_first_name := "Anna";
     pt_last_name := "Muster"; pt_email := ""; pt_phone := None; pt_address_line1 := None; pt_address_line2 := None;
     pt_postal_code := None; pt_city := None; pt_notes := None; pt_valid_from := "2026-07-01"; pt_valid_to := None;
     pt_metering_points := None; pt_has_metering_point_assignment := None; pt_roles := None; pt_allocation_weight := "1" |}.

Definition sample_t (key : string) (opts : list (string * json)) : string :=
  match opts with [(_, JStr from)] => "since " ++ from | _ => key end.

Lemma participant_labels_spec_witness :
  let ps := [sample_participant; second_participation] in
  participantLabels sample_t id ps = [("p1", "Anna Muster (since 2026-01-01)"); ("p2", "Anna Muster (since 2026-07-01)")] ∧
  omap_get "p1" (participantLabels sample_t id ps) = Some (labelWith sample_t id ps sample_participant true).
Proof.
  intros ps. split; [vm_compute; reflexivity|].
  assert (NoDup (map pt_id ps)) as Hn by by apply (bool_decide_unpack _).
  assert (sample_participant ∈ ps) as Hp by (apply list_elem_of_In; by left).
  destruct (participant_labels_spec sample_t id ps Hn sample_participant Hp) as (_ & H & _). apply H.
  exists second_participation. split; [apply list_elem_of_In; by right; left|]. split; [done|vm_compute; reflexivity].
Defined.
