(* ===== verification/Sources.v ===== *)
(** Energy data sources: the rules of frontend/src/lib/supplementary.ts and the source pane
    beside its list (features/supplementary/useSourcePane.ts).

    The pane is a transition system over the browser's history entries of the page: its
    selected source is the entry's query parameter, and an entry that opening from the
    list added is marked. Its draft guard is part of it (components/useDraftGuard.ts, whose
    own rules are in Drafts): opening and closing ask while the pane holds a draft, the
    router's blocker stops the browser's steps and links, and [navigate(-1)] is a step that
    arrives later, when the flag that lets the page's own navigation pass is down again.
    Each step is one event followed by the effects whose inputs changed. [visible] tells the
    sources the viewer may see; entries of other pages are not modelled. *)

From S2P Require Import Prelude JsString JsNumber LiveEnergy MeteringPoints ApiClient.
Local Open Scope string_scope.

(** ** Records of types/api.ts *)

Inductive SourceCapability := CapHistory | CapLive | CapForecast.
#[export] Instance SourceCapability_eq_dec : EqDecision SourceCapability.
Proof. solve_decision. Defined.

Record SupplementaryReconciliation := {
  checked_at : option string; days_compared : option Z; export_deviation_pct : option num; import_deviation_pct : option num;
  best_shift_intervals : option Z; reconciliation_state : option string;
}.

Record SupplementarySource := {
  source_id : string; source_zev : string; target : SourceTarget; source_held_by : SourceHolder; metering_point : option string;
  metering_point_meter_id : option string; source_participant : option string; source_participant_name : option string;
  provides_history : bool; provides_live : bool; provides_forecast : bool; live_last_seen_at : option string;
  live_state : option LiveState; provider : string; source_label : string; external_id : string; enabled : bool;
  status : SupplementaryStatus; consented_at : string; last_sync_at : option string; last_success_at : option string;
  last_error : string; synced_through : option string; covers_from : option string;
  reconciliation : SupplementaryReconciliation; has_credential : bool;
  push_token_prefix : option string; push_token_created_at : option string; push_token_last_used_at : option string;
  source_created_at : string; source_updated_at : string;
}.

Record EligibleMeteringPoint := {
  eligible_point : string; eligible_meter_id : string; eligible_zev : string; eligible_zev_name : string;
  eligible_participant : string; eligible_source : option string; eligible_capabilities : option (list SourceCapability);
  eligible_sources : option (SourceCapability → option string);
}.

(** ** Model of supplementary.ts *)

Definition withheldReasonKey (g : option GrossEnergy) : option string :=
  match g ≫= rates_withheld_reason with
  | Some LowCoverage => Some "supplementary.withheld.lowCoverage"
  | Some LiveEnergy.NoData => Some "supplementary.withheld.noData"
  | None => None
  end.

Definition hasOwnSystemData (g : option GrossEnergy) : bool :=
  match g with Some g => negb (bool_decide (is_Some (rates_withheld_reason g))) | None => false end.

(** [true]: the participant's hint, [false]: one's own. *)
Definition behindMeterHintKey (participant : bool) (g : option GrossEnergy) : string :=
  if participant then (if hasOwnSystemData g then "behindMeter.participantHintConnected" else "behindMeter.participantHint")
  else if hasOwnSystemData g then "behindMeter.ownHintConnected" else "behindMeter.ownHint".

Inductive GrossRateKind := SelfSufficiency | SelfConsumption.

Definition grossRate (g : option GrossEnergy) (k : GrossRateKind) : option num :=
  match g with
  | None => None
  | Some g =>
      match rates_withheld_reason g with
      | Some _ => None
      | None => match k with SelfSufficiency => self_sufficiency_rate g | SelfConsumption => self_consumption_rate g end
      end
  end.

Inductive StatusTone := ToneSuccess | ToneWarning | ToneDanger | ToneNeutral.

Definition statusTone (s : option SupplementaryStatus) : StatusTone :=
  match s with
  | Some SupplementaryOk => ToneSuccess
  | Some SupplementaryPending => ToneNeutral
  | Some SupplementaryError => ToneWarning
  | Some ReconnectRequired => ToneDanger
  | _ => ToneNeutral
  end.

Inductive ProblemTone := ProblemError | ProblemWarning | ProblemMuted.

Record CapabilityProblem := { problem_tone : ProblemTone; labelKey : string }.

Definition capabilityProblem (s : SupplementarySource) (c : SourceCapability) : option CapabilityProblem :=
  if negb (enabled s) then Some {| problem_tone := ProblemMuted; labelKey := "supplementary.status.disabled" |}
  else if bool_decide (status s = ReconnectRequired) then Some {| problem_tone := ProblemError; labelKey := "supplementary.status.reconnect_required" |}
  else if bool_decide (status s = SupplementaryError) then Some {| problem_tone := ProblemWarning; labelKey := "supplementary.status.error" |}
  else if bool_decide (c = CapLive) then
    match live_state s with
    | Some Stale => Some {| problem_tone := ProblemWarning; labelKey := "live.state.stale" |}
    | Some Never => Some {| problem_tone := ProblemMuted; labelKey := "live.state.never" |}
    | _ => None
    end
  else if bool_decide (status s = SupplementaryPending) then Some {| problem_tone := ProblemMuted; labelKey := "supplementary.status.pending" |}
  else None.

Definition STATUS_BADGE_CLASS (t : StatusTone) : string :=
  match t with
  | ToneSuccess => "badge badge-success" | ToneWarning => "badge badge-warning" | ToneDanger => "badge badge-danger"
  | ToneNeutral => "badge badge-neutral"
  end.

(** [/^https?:\/\//]. *)
Definition is_absolute (s : string) : bool := starts_with "http://" s || starts_with "https://" s.

Definition ingest_base (API_BASE_URL origin : string) : string :=
  if is_absolute API_BASE_URL then strip_slashes API_BASE_URL else strip_slashes (origin ++ API_BASE_URL).

Definition ingestUrl (API_BASE_URL origin : string) : string := ingest_base API_BASE_URL origin ++ "/metering/supplementary/ingest/".

(** The text with [suffix] at its end replaced, if it ends with it. *)
Definition replace_suffix (suffix by_ s : string) : string :=
  if ends_with suffix s then slice s 0 (String.length s - String.length suffix) ++ by_ else s.

Definition liveIngestUrl (API_BASE_URL origin : string) : string :=
  replace_suffix "/supplementary/ingest/" "/live/ingest/" (ingestUrl API_BASE_URL origin).

Definition offers (c : SourceCapability) (p : EligibleMeteringPoint) : bool :=
  match eligible_capabilities p with Some l => oset_has c l | None => false end.

Definition historyEligible (p : EligibleMeteringPoint) : bool :=
  negb (bool_decide (is_Some (eligible_capabilities p))) || offers CapHistory p.
Definition liveEligible (p : EligibleMeteringPoint) : bool := offers CapLive p.
Definition forecastEligible (p : EligibleMeteringPoint) : bool := offers CapForecast p.
Definition hasCapability (p : EligibleMeteringPoint) : bool := historyEligible p || liveEligible p.

Definition provides (c : SourceCapability) (s : SupplementarySource) : bool :=
  match c with CapHistory => provides_history s | CapLive => provides_live s | CapForecast => provides_forecast s end.

Definition sourceFor (sources : option (list SupplementarySource)) (meteringPointId : string) (c : SourceCapability) : option SupplementarySource :=
  sources ≫= find_first (λ s, bool_decide (metering_point s = Some meteringPointId) && provides c s).

Definition connectionPointSource (sources : option (list SupplementarySource)) (zevId : option string) : option SupplementarySource :=
  sources ≫= find_first (λ s, bool_decide (target s = TargetConnectionPoint) && bool_decide (zevId = Some (source_zev s))).

(** The answer of [fetchEligibleOrNull]: still loading, the feature is off, or the points. *)
Record Eligibility := {
  featureOn : bool; eligible : list EligibleMeteringPoint; history_points : list EligibleMeteringPoint;
  live_points : list EligibleMeteringPoint; canConnect : bool;
}.

Definition useEnergyDataEligibility (data : option (option (list EligibleMeteringPoint))) : Eligibility :=
  let on := match data with Some (Some _) => true | _ => false end in
  let all := default [] (default None data) in
  {| featureOn := on; eligible := all; history_points := bfilter historyEligible all; live_points := bfilter liveEligible all;
     canConnect := on && (0 <? length (bfilter historyEligible all))%nat |}.

Lemma replace_suffix_app a suffix by_ : replace_suffix suffix by_ (a ++ suffix) = a ++ by_.
Proof.
  unfold replace_suffix, ends_with, slice. rewrite str_length_app.
  replace (String.length a + String.length suffix - String.length suffix)%nat with (String.length a + 0)%nat by lia.
  rewrite substring_skip, substring_full, String.eqb_refl, (proj2 (Nat.leb_le _ _)) by lia. cbn [andb].
  rewrite Nat.add_0_r, Nat.sub_0_r. by rewrite substring_app_l.
Qed.

(** The address of a live client is the ingest address with the last steps of its path changed. *)
Lemma liveIngestUrl_path API_BASE_URL origin :
  liveIngestUrl API_BASE_URL origin = ingest_base API_BASE_URL origin ++ "/metering/live/ingest/".
Proof.
  unfold liveIngestUrl, ingestUrl. change "/metering/supplementary/ingest/" with ("/metering" ++ "/supplementary/ingest/").
  rewrite <- str_app_assoc, replace_suffix_app, str_app_assoc. done.
Qed.

(** A capability of a source is reported without a problem exactly when the
    source is switched on, needs no new key and had no error, and the capability itself
    delivers: live values are neither stale nor missing, the others are past their first
    synchronisation. The worst problem of the source is told first. *)
Theorem capability_problem_none s c :
  (capabilityProblem s c = None ↔
     enabled s = true ∧ status s ≠ ReconnectRequired ∧ status s ≠ SupplementaryError ∧
     if bool_decide (c = CapLive) then live_state s ≠ Some Stale ∧ live_state s ≠ Some Never else status s ≠ SupplementaryPending) ∧
  (problem_tone <$> capabilityProblem s c = Some ProblemError ↔ enabled s = true ∧ status s = ReconnectRequired).
Proof.
  unfold capabilityProblem. destruct (enabled s); cbn [negb]; [|split; split; [done|by intros (? & _)|done|by intros [? _]]].
  case_bool_decide as H1; [split; split; naive_solver|]. case_bool_decide as H2; [rewrite H2; split; split; naive_solver|].
  case_bool_decide as H3.
  - destruct (live_state s) as [[]|]; cbn; split; split; naive_solver.
  - case_bool_decide as H4; cbn; split; split; naive_solver.
Qed.

(** ** Model of useSourcePane.ts *)

(** One history entry: its source parameter, and the state that opening a source leaves. *)
Record entry := { entry_source : option string; sourcePane : bool }.
#[export] Instance entry_eq_dec : EqDecision entry.
Proof. solve_decision. Defined.

Inductive focus_request := FocusPane | FocusControl (id : string).

(** What the router is asked for: a new entry, another one in the place of the current one, or a
    step through the history, whose popstate arrives later. *)
Inductive navigation := Push (e : entry) | Replace (e : entry) | Go (delta : Z).

(** The closures handed to [guard.run], with what they read when they were made: [openSource]'s
    [fromList], [fitsTwoPanes] and the state of the entry, [closePane]'s [selectedSourceId] and
    [location.state]. *)
Inductive pane_action :=
  | OpenSource (id : string) (fromList fits state : bool)
  | ClosePane (selected : option string) (state : bool).

(** What the open question holds back: an action of the pane, or the navigation the router's
    blocker stopped. *)
Inductive held_back := HeldAction (a : pane_action) | HeldNavigation (n : navigation).

Inductive blocker_state := Unblocked | Blocked (n : navigation) | Proceeding.

(** [traversals]: steps through the history that were asked for and have not arrived. *)
Record pane := {
  entries : list entry; at_ : nat; fitsTwoPanes : bool; scrollY : Z; focusRequest : option focus_request; listScroll : option Z;
  focused : option focus_request; paneDirty : bool; pane_question : option held_back; pane_blocker : blocker_state; traversals : list Z;
}.

Definition current (s : pane) : entry := default {| entry_source := None; sourcePane := false |} (entries s !! at_ s).

(** [useSelectedSourceId]: an empty parameter selects nothing for the callers' tests. *)
Definition selectedSourceId (s : pane) : option string := entry_source (current s).

Definition with_history (es : list entry) (i : nat) (s : pane) : pane :=
  {| entries := es; at_ := i; fitsTwoPanes := fitsTwoPanes s; scrollY := scrollY s; focusRequest := focusRequest s; listScroll := listScroll s;
     focused := focused s; paneDirty := paneDirty s; pane_question := pane_question s; pane_blocker := pane_blocker s; traversals := traversals s |}.

Definition with_view (fits : bool) (y : Z) (s : pane) : pane :=
  {| entries := entries s; at_ := at_ s; fitsTwoPanes := fits; scrollY := y; focusRequest := focusRequest s; listScroll := listScroll s;
     focused := focused s; paneDirty := paneDirty s; pane_question := pane_question s; pane_blocker := pane_blocker s; traversals := traversals s |}.

Definition with_refs (r : option focus_request) (l : option Z) (f : option focus_request) (s : pane) : pane :=
  {| entries := entries s; at_ := at_ s; fitsTwoPanes := fitsTwoPanes s; scrollY := scrollY s; focusRequest := r; listScroll := l;
     focused := f; paneDirty := paneDirty s; pane_question := pane_question s; pane_blocker := pane_blocker s; traversals := traversals s |}.

Definition with_guard (d : bool) (q : option held_back) (b : blocker_state) (ts : list Z) (s : pane) : pane :=
  {| entries := entries s; at_ := at_ s; fitsTwoPanes := fitsTwoPanes s; scrollY := scrollY s; focusRequest := focusRequest s; listScroll := listScroll s;
     focused := focused s; paneDirty := d; pane_question := q; pane_blocker := b; traversals := ts |}.

Definition with_question (q : option held_back) (s : pane) : pane := with_guard (paneDirty s) q (pane_blocker s) (traversals s) s.
Definition with_blocker (b : blocker_state) (s : pane) : pane := with_guard (paneDirty s) (pane_question s) b (traversals s) s.
Definition with_traversals (ts : list Z) (s : pane) : pane := with_guard (paneDirty s) (pane_question s) (pane_blocker s) ts s.
Definition with_dirty (d : bool) (s : pane) : pane := with_guard d (pane_question s) (pane_blocker s) (traversals s) s.

(** A new entry drops the ones ahead; replacing keeps them. *)
Definition push_entry (e : entry) (s : pane) : list entry := (take (S (at_ s)) (entries s) ++ [e])%list.
Definition replace_entry (e : entry) (s : pane) : list entry := <[at_ s := e]> (entries s).

(** The history after a navigation; a step past the entries of the page finds none of them. *)
Definition moved (n : navigation) (s : pane) : option (list entry * nat) :=
  match n with
  | Push e => Some (push_entry e s, S (at_ s))
  | Replace e => Some (replace_entry e s, at_ s)
  | Go delta =>
      let i := (Z.of_nat (at_ s) + delta)%Z in
      if bool_decide (0 <= i < Z.of_nat (length (entries s)))%Z then Some (entries s, Z.to_nat i) else None
  end.

(** [useRouterDraftBlock]: the effect asks when the blocker has become blocked. *)
Definition block (n : navigation) (s : pane) : pane :=
  match pane_blocker s with
  | Blocked _ => with_blocker (Blocked n) s
  | _ => with_question (Some (HeldNavigation n)) (with_blocker (Blocked n) s)
  end.

Definition is_proceeding (b : blocker_state) : bool := match b with Proceeding => true | _ => false end.

(** The router navigates unless its blocker, which asks [isActive() && !bypass.current], stops it;
    a blocker that proceeds is not asked, and a navigation that completes resets it. *)
Definition route (bypassGuard : bool) (n : navigation) (s : pane) : pane :=
  match moved n s with
  | None => s
  | Some (es, i) =>
      if paneDirty s && negb bypassGuard && negb (is_proceeding (pane_blocker s)) then block n s
      else with_history es i (with_blocker Unblocked s)
  end.

(** The action runs inside [allowNavigation]: the flag is up for what navigates at once, and down
    again when the popstate of [navigate(-1)] arrives. *)
Definition perform_action (a : pane_action) (s : pane) : pane :=
  match a with
  | OpenSource id fromList fits state =>
      let e := {| entry_source := Some id; sourcePane := state |} in
      if fromList
      then route true (Push e) (with_refs (Some FocusPane) (if negb fits then Some (scrollY s) else listScroll s) (focused s) s)
      else route true (Replace e) s
  | ClosePane selected state =>
      let request := match selected with
                     | Some id => if nonempty id then Some (FocusControl id) else focusRequest s
                     | None => focusRequest s
                     end in
      let s := with_refs request (listScroll s) (focused s) s in
      if state then with_traversals (traversals s ++ [(-1)%Z])%list s
      else route true (Replace {| entry_source := None; sourcePane := false |}) s
  end.

(** [guard.run]. *)
Definition guard_run (a : pane_action) (s : pane) : pane :=
  if paneDirty s then with_question (Some (HeldAction a)) s else perform_action a s.

Definition openSource (id : string) (s : pane) : pane :=
  if bool_decide (selectedSourceId s = Some id) then s
  else let fromList := negb (truthy_str (selectedSourceId s)) in
       guard_run (OpenSource id fromList (fitsTwoPanes s) (if fromList then true else sourcePane (current s))) s.

Definition closePane (s : pane) : pane := guard_run (ClosePane (selectedSourceId s) (sourcePane (current s))) s.

(** [blocker.proceed()]: a step through the history is asked for again, a link is followed now.
    Once another navigation has completed, the blocker has nothing left to let proceed. *)
Definition proceed (n : navigation) (s : pane) : pane :=
  match pane_blocker s with
  | Blocked _ =>
      let s := with_blocker Proceeding s in
      match n with
      | Go delta => with_traversals (traversals s ++ [delta])%list s
      | _ => route true n s
      end
  | _ => s
  end.

(** The answers: discard, and keep editing. *)
Definition discard (s : pane) : pane :=
  match pane_question s with
  | Some (HeldAction a) => perform_action a (with_question None s)
  | Some (HeldNavigation n) => proceed n (with_question None s)
  | None => s
  end.

Definition keepEditing (s : pane) : pane :=
  match pane_question s with
  | Some (HeldNavigation _) => with_question None (with_blocker Unblocked s)
  | _ => with_question None s
  end.

(** A traversal arrives. *)
Definition land (s : pane) : pane :=
  match traversals s with
  | delta :: rest => route false (Go delta) (with_traversals rest s)
  | [] => s
  end.

(** While the question is open the page behind it is inert: no control of it can be used. *)
Definition unless_asked (f : pane → pane) (s : pane) : pane := match pane_question s with Some _ => s | None => f s end.

(** The user opens a source, closes the pane, follows a link within the page, steps to another entry
    with the browser, answers the question, resizes or scrolls; a traversal arrives; the pane says
    whether it holds a draft. *)
Inductive pane_event :=
  | Open (id : string) | Close | Link (source : option string) | Traverse (i : nat) | Landed | Typed (draft : bool) | Confirm | Cancel
  | Resize (fits : bool) | Scroll (y : Z).

Section Pane.
Context (visible : string → bool).

Definition paneOpen (s : pane) : bool := match selectedSourceId s with Some id => visible id | None => false end.
Definition listHidden (s : pane) : bool := paneOpen s && negb (fitsTwoPanes s).

(** The source the pane shows: [selected], and the pane's key. *)
Definition shown (s : pane) : option string := if paneOpen s then selectedSourceId s else None.

(** The details that go away take their draft along ([onDirtyChange(false)]). *)
Definition forget_draft (old s : pane) : pane := if bool_decide (shown old = shown s) then s else with_dirty false s.

(** The layout effect on [listHidden], then the effect on [paneOpen] and [fitsTwoPanes]. *)
Definition restore_scroll (old s : pane) : pane :=
  if negb (bool_decide (listHidden old = listHidden s)) && negb (listHidden s) then
    match listScroll s with
    | Some y => with_view (fitsTwoPanes s) y (with_refs (focusRequest s) None (focused s) s)
    | None => s
    end
  else s.

Definition move_focus (old s : pane) : pane :=
  if bool_decide (paneOpen old = paneOpen s ∧ fitsTwoPanes old = fitsTwoPanes s) then s
  else match focusRequest s with
       | Some r =>
           if match r with FocusPane => paneOpen s | FocusControl _ => negb (paneOpen s) end
           then with_refs None (listScroll s) (Some r) s
           else s
       | None => s
       end.

Definition commit (old s : pane) : pane := move_focus old (restore_scroll old (forget_draft old s)).

Definition handle_pane (e : pane_event) (s : pane) : pane :=
  match e with
  | Open id => unless_asked (openSource id) s
  | Close => unless_asked closePane s
  | Link source => unless_asked (route false (Push {| entry_source := source; sourcePane := false |})) s
  | Traverse i => route false (Go (Z.of_nat i - Z.of_nat (at_ s))) s
  | Landed => land s
  | Typed draft => with_dirty (paneOpen s && draft) s
  | Confirm => discard s
  | Cancel => keepEditing s
  | Resize fits => with_view fits (scrollY s) s
  | Scroll y => with_view (fitsTwoPanes s) y s
  end.

Definition pane_step (s : pane) (e : pane_event) : pane := commit s (handle_pane e s).

Definition pane_init (source : option string) (fits : bool) : pane :=
  {| entries := [{| entry_source := source; sourcePane := false |}]; at_ := 0; fitsTwoPanes := fits; scrollY := 0; focusRequest := None;
     listScroll := None; focused := None; paneDirty := false; pane_question := None; pane_blocker := Unblocked; traversals := [] |}.

Definition pane_run (source : option string) (fits : bool) (es : list pane_event) : pane := foldl pane_step (pane_init source fits) es.

(** A question about opening or closing is answered before the page moves on: no navigation
    completes while it is open (one could, were the draft saved meanwhile). *)
Definition answered_first (s : pane) (e : pane_event) : bool :=
  match pane_question s, e with
  | Some (HeldAction _), Confirm | Some (HeldAction _), Cancel => true
  | Some (HeldAction _), _ => bool_decide (entries (pane_step s e) = entries s ∧ at_ (pane_step s e) = at_ s)
  | _, _ => true
  end.

Fixpoint calm (s : pane) (es : list pane_event) : bool :=
  match es with [] => true | e :: es => answered_first s e && calm (pane_step s e) es end.

(** ** What the pane keeps *)

(** No source has an empty id. *)
Hypothesis no_unnamed : visible "" = false.

(** An entry that opening added comes right after the list it was opened from. *)
Definition marked_ok (es : list entry) : Prop :=
  ∀ i e, es !! i = Some e → sourcePane e = true → ∃ j e', i = S j ∧ es !! j = Some e' ∧ truthy_str (entry_source e') = false.

Definition history_inv (s : pane) : Prop := (at_ s < length (entries s))%nat ∧ marked_ok (entries s).

(** What a navigation may add: a mark only on the list's next entry, or in the place of one. *)
Definition nav_ok (n : navigation) (s : pane) : Prop :=
  match n with
  | Push e => sourcePane e = true → truthy_str (selectedSourceId s) = false
  | Replace e => (sourcePane e = true → sourcePane (current s) = true) ∧
                 (truthy_str (entry_source e) = false ∨ truthy_str (selectedSourceId s) = true)
  | Go _ => True
  end.

(** What the router's blocker can have stopped. *)
Definition nav_plain (n : navigation) : Prop := match n with Push e => sourcePane e = false | Replace _ => False | Go _ => True end.

(** A held action still finds the entry it was asked in. *)
Definition action_current (a : pane_action) (s : pane) : Prop :=
  match a with
  | OpenSource _ fromList _ state => fromList = false ∧ truthy_str (selectedSourceId s) = true ∧ state = sourcePane (current s)
  | ClosePane selected state => selected = selectedSourceId s ∧ state = sourcePane (current s)
  end.

Definition question_ok (q : option held_back) (s : pane) : Prop :=
  match q with
  | Some (HeldAction a) => action_current a s
  | Some (HeldNavigation n) => nav_plain n
  | None => True
  end.

(** A draft is held by an open pane only. *)
Definition pane_inv (s : pane) : Prop :=
  history_inv s ∧ (paneDirty s = true → paneOpen s = true) ∧ question_ok (pane_question s) s.

Lemma current_lookup s : (at_ s < length (entries s))%nat → entries s !! at_ s = Some (current s).
Proof. intros H. unfold current. by destruct (lookup_lt_is_Some_2 _ _ H) as [e ->]. Qed.

Lemma push_lookup s e : (at_ s < length (entries s))%nat → push_entry e s !! S (at_ s) = Some e.
Proof.
  intros H. unfold push_entry. assert (length (take (S (at_ s)) (entries s)) = S (at_ s)) as El by (rewrite length_take; lia).
  rewrite lookup_app_r by lia. by rewrite El, Nat.sub_diag.
Qed.

Lemma push_keeps s e i : (at_ s < length (entries s))%nat → (i <= at_ s)%nat → push_entry e s !! i = entries s !! i.
Proof.
  intros H Hi. unfold push_entry. rewrite lookup_app_l by (rewrite length_take; lia). apply lookup_take_lt. lia.
Qed.

Lemma push_length s e : (at_ s < length (entries s))%nat → length (push_entry e s) = S (S (at_ s)).
Proof. intros H. unfold push_entry. rewrite length_app, length_take. cbn [length]. lia. Qed.

Lemma push_marked s e :
  history_inv s → (sourcePane e = true → truthy_str (selectedSourceId s) = false) → marked_ok (push_entry e s).
Proof.
  intros [Ha Hm] He i x Hx Hp. assert (i <= S (at_ s))%nat as Hi by (apply lookup_lt_Some in Hx; rewrite push_length in Hx by done; lia).
  destruct (decide (i = S (at_ s))) as [->|Hne].
  - rewrite push_lookup in Hx by done. injection Hx as ->. exists (at_ s), (current s). split_and!; [done| |by apply He].
    rewrite push_keeps by (done || lia). by apply current_lookup.
  - rewrite push_keeps in Hx by (done || lia). destruct (Hm i x Hx Hp) as (j & y & -> & Hy & Ht). exists j, y. split_and!; [done| |done].
    rewrite push_keeps by (done || lia). done.
Qed.

(** Replacing the current entry: a marked one after it needs a list entry here. *)
Lemma replace_marked s e :
  history_inv s → (sourcePane e = true → sourcePane (current s) = true) →
  (truthy_str (entry_source e) = false ∨ truthy_str (selectedSourceId s) = true) → marked_ok (replace_entry e s).
Proof.
  intros [Ha Hm] He Ht i x Hx Hp. unfold replace_entry in *. apply list_lookup_insert_Some in Hx as [(Ei & <- & _)|[Hne Hx]].
  - subst i. destruct (Hm (at_ s) (current s)) as (j & y & Ej & Hy & Hty); [by apply current_lookup|by apply He|].
    exists j, y. split_and!; [done| |done]. rewrite list_lookup_insert_ne by lia. done.
  - destruct (Hm i x Hx Hp) as (j & y & -> & Hy & Hty). destruct (decide (j = at_ s)) as [->|Hj].
    + exists (at_ s), e. split_and!; [done|by apply list_lookup_insert_eq|]. destruct Ht as [?|Ht]; [done|].
      rewrite (current_lookup s Ha) in Hy. injection Hy as <-. unfold selectedSourceId in Ht. congruence.
    + exists j, y. split_and!; [done| |done]. by rewrite list_lookup_insert_ne.
Qed.

Lemma moved_inv n s es i : history_inv s → nav_ok n s → moved n s = Some (es, i) → (i < length es)%nat ∧ marked_ok es.
Proof.
  intros Hs Hn. pose proof Hs as [Ha Hm]. destruct n as [e|e|delta]; cbn [moved].
  - intros [= <- <-]. split; [rewrite push_length by done; lia|by apply push_marked].
  - intros [= <- <-]. destruct Hn. split; [unfold replace_entry; by rewrite length_insert|by apply replace_marked].
  - cbn zeta. case_bool_decide; [|done]. intros [= <- <-]. split; [lia|done].
Qed.

Lemma block_history n s : entries (block n s) = entries s ∧ at_ (block n s) = at_ s ∧ paneDirty (block n s) = paneDirty s.
Proof. unfold block. by destruct (pane_blocker s). Qed.

Lemma route_history b n s : history_inv s → nav_ok n s → history_inv (route b n s).
Proof.
  intros Hs Hn. unfold route. destruct (moved n s) as [[es i]|] eqn:Hm; [|done]. case_match.
  - unfold history_inv. destruct (block_history n s) as (-> & -> & _). exact Hs.
  - exact (moved_inv n s es i Hs Hn Hm).
Qed.

Lemma route_question b n s :
  pane_question (route b n s) = pane_question s ∨ (b = false ∧ pane_question (route b n s) = Some (HeldNavigation n)).
Proof.
  unfold route. destruct (moved n s) as [[es i]|]; [|by left]. destruct (paneDirty s); [|by left]. destruct b; [by left|].
  cbn [andb negb]. destruct (is_proceeding _); [by left|]. unfold block. destruct (pane_blocker s); [by right|by left|by right].
Qed.

Lemma route_dirty b n s : paneDirty (route b n s) = paneDirty s.
Proof. unfold route. destruct (moved n s) as [[es i]|]; [|done]. case_match; [apply block_history|done]. Qed.

Lemma route_inv b n s : history_inv s → nav_ok n s → history_inv (route b n s) ∧ paneDirty (route b n s) = paneDirty s.
Proof. intros Hs Hn. by split; [apply route_history|apply route_dirty]. Qed.

(** With the flag up a navigation completes. *)
Lemma route_free n s es i : moved n s = Some (es, i) → route true n s = with_history es i (with_blocker Unblocked s).
Proof. intros H. unfold route. rewrite H. cbn [negb]. by rewrite andb_false_r. Qed.

Lemma perform_action_inv a s :
  history_inv s →
  match a with OpenSource _ fromList _ state => if fromList then truthy_str (selectedSourceId s) = false else action_current a s | ClosePane _ _ => True end →
  history_inv (perform_action a s) ∧ paneDirty (perform_action a s) = paneDirty s ∧ pane_question (perform_action a s) = pane_question s.
Proof.
  intros Hs Ha. destruct a as [id [] fits state|selected state]; cbn [perform_action].
  - erewrite route_free by reflexivity. split_and!; [|done|done]. exact (moved_inv (Push _) s _ _ Hs (λ _, Ha) eq_refl).
  - destruct Ha as (_ & Ht & ->). erewrite route_free by reflexivity. split_and!; [|done|done].
    refine (moved_inv (Replace _) s _ _ Hs _ eq_refl). split; [done|by right].
  - cbn zeta. destruct state; [done|]. erewrite route_free by reflexivity. split_and!; [|done|done].
    refine (moved_inv (Replace _) s _ _ Hs _ eq_refl). split; [done|by left].
Qed.

(** The effects touch neither the history nor the question; a draft survives while its pane does. *)
Lemma commit_same old s :
  entries (commit old s) = entries s ∧ at_ (commit old s) = at_ s ∧ fitsTwoPanes (commit old s) = fitsTwoPanes s ∧
  paneDirty (commit old s) = bool_decide (shown old = shown s) && paneDirty s ∧ pane_question (commit old s) = pane_question s ∧
  pane_blocker (commit old s) = pane_blocker s ∧ traversals (commit old s) = traversals s.
Proof.
  assert (∀ s, entries (move_focus old (restore_scroll old s)) = entries s ∧ at_ (move_focus old (restore_scroll old s)) = at_ s ∧
    fitsTwoPanes (move_focus old (restore_scroll old s)) = fitsTwoPanes s ∧ paneDirty (move_focus old (restore_scroll old s)) = paneDirty s ∧
    pane_question (move_focus old (restore_scroll old s)) = pane_question s ∧ pane_blocker (move_focus old (restore_scroll old s)) = pane_blocker s ∧
    traversals (move_focus old (restore_scroll old s)) = traversals s) as H.
  { clear s. intros s. unfold move_focus, restore_scroll. repeat case_match; by split_and!. }
  unfold commit. destruct (H (forget_draft old s)) as (-> & -> & -> & -> & -> & -> & ->). unfold forget_draft. by case_bool_decide.
Qed.

Lemma commit_selected old s :
  selectedSourceId (commit old s) = selectedSourceId s ∧ current (commit old s) = current s ∧ paneOpen (commit old s) = paneOpen s ∧
  shown (commit old s) = shown s.
Proof. destruct (commit_same old s) as (E & A & _). unfold shown, paneOpen, selectedSourceId, current. by rewrite E, A. Qed.

(** A step that leaves the history, the draft and the question alone, or asks a good one. *)
Definition step_ok (s s' : pane) : Prop :=
  history_inv s' ∧ (paneDirty s' = true → paneOpen s = true) ∧
  (pane_question s' = pane_question s ∨ question_ok (pane_question s') s').

Lemma step_ok_refl s : pane_inv s → step_ok s s.
Proof. intros (Hs & Hd & Hq). split_and!; [exact Hs|exact Hd|by left]. Qed.

Lemma guard_run_ok a s :
  pane_inv s →
  match a with OpenSource _ fromList _ state => if fromList then truthy_str (selectedSourceId s) = false else action_current a s | ClosePane _ _ => True end →
  (paneDirty s = true → action_current a s) → step_ok s (guard_run a s).
Proof.
  intros (Hs & Hd & Hq) Ha Hc. unfold guard_run. destruct (paneDirty s) eqn:Ed.
  - split_and!; [exact Hs|intros _; by apply Hd|right; by apply Hc].
  - destruct (perform_action_inv a s Hs Ha) as (H1 & H2 & H3). split_and!; [exact H1|by rewrite H2, Ed|by left].
Qed.

Lemma route_ok b n s s' :
  pane_inv s → history_inv s' → paneDirty s' = paneDirty s → nav_ok n s' → nav_plain n →
  pane_question s' = pane_question s ∨ pane_question s' = None → step_ok s (route b n s').
Proof.
  intros (_ & Hd & _) Hs' Hd' Hn Hp Hq. destruct (route_inv b n s' Hs' Hn) as [H1 H2]. split_and!; [exact H1|by rewrite H2, Hd'|].
  destruct (route_question b n s') as [E|[_ E]]; rewrite E; [|by right]. destruct Hq as [->| ->]; [by left|by right].
Qed.

Lemma discard_ok s : pane_inv s → step_ok s (discard s).
Proof.
  intros Hi. pose proof Hi as (Hs & Hd & Hq). unfold discard. destruct (pane_question s) as [[a|n]|] eqn:E; [| |by apply step_ok_refl].
  - destruct (perform_action_inv a (with_question None s)) as (H1 & H2 & H3); [exact Hs| |].
    + destruct a as [id fromList fits state|]; [|done]. cbn in Hq. destruct Hq as (-> & Hq). by split.
    + split_and!; [exact H1|by rewrite H2|right; by rewrite H3].
  - unfold proceed. cbn [with_question with_guard pane_blocker].
    destruct (pane_blocker s); [split_and!; [exact Hs|exact Hd|by right]| |split_and!; [exact Hs|exact Hd|by right]].
    cbn zeta. destruct n as [e|e|delta]; [|done|split_and!; [exact Hs|exact Hd|by right]].
    apply route_ok; [exact Hi|exact Hs|reflexivity| |exact Hq|by right]. cbn in Hq |- *. by rewrite Hq.
Qed.

Lemma dirty_selected s : pane_inv s → paneDirty s = true → truthy_str (selectedSourceId s) = true.
Proof.
  intros (_ & Hd & _) E. specialize (Hd E). revert Hd. unfold paneOpen. destruct (selectedSourceId s) as [[|c r]|]; [by rewrite no_unnamed|done|done].
Qed.

Lemma handle_ok e s : pane_inv s → step_ok s (handle_pane e s).
Proof.
  intros Hi. pose proof Hi as (Hs & Hd & Hq). pose proof (step_ok_refl s Hi) as Hr.
  destruct e as [id| |source|i| |d| | |fits|y]; cbn [handle_pane]; unfold unless_asked.
  - destruct (pane_question s); [exact Hr|]. unfold openSource. case_bool_decide; [exact Hr|]. cbn zeta.
    destruct (truthy_str (selectedSourceId s)) eqn:Et; cbn [negb]; apply guard_run_ok; [exact Hi|done|done|exact Hi|done|].
    intros E. by rewrite (dirty_selected s Hi E) in Et.
  - destruct (pane_question s); [exact Hr|]. by apply guard_run_ok.
  - destruct (pane_question s); [exact Hr|]. apply route_ok; [exact Hi|exact Hs|done|done|done|by left].
  - apply route_ok; [exact Hi|exact Hs|done|done|done|by left].
  - unfold land. destruct (traversals s) as [|delta rest]; [exact Hr|]. apply route_ok; [exact Hi|exact Hs|done|done|done|by left].
  - split_and!; [exact Hs| |by left]. cbn. by destruct (paneOpen s).
  - by apply discard_ok.
  - unfold keepEditing. destruct (pane_question s) as [[a|n]|]; (split_and!; [exact Hs|exact Hd|by right]).
  - exact Hr.
  - exact Hr.
Qed.

Lemma question_ok_same q s s' : entries s' = entries s → at_ s' = at_ s → question_ok q s → question_ok q s'.
Proof.
  intros E A. destruct q as [[a|n]|]; [|done..]. cbn [question_ok]. destruct a; cbn [action_current]; unfold selectedSourceId, current; by rewrite E, A.
Qed.

Lemma answer_closes s : pane_inv s → pane_question (discard s) = None ∧ pane_question (keepEditing s) = None.
Proof.
  intros (Hs & _ & Hq). unfold discard, keepEditing. destruct (pane_question s) as [[a|n]|] eqn:E; [| |done]; (split; [|done]).
  - destruct (perform_action_inv a (with_question None s)) as (_ & _ & ->); [exact Hs| |done].
    destruct a as [id fromList fits state|]; [|done]. cbn in Hq. destruct Hq as (-> & Hq). by split.
  - unfold proceed. cbn [with_question with_guard pane_blocker]. destruct (pane_blocker s); [done| |done]. cbn zeta.
    destruct n as [e|e|delta]; [|done|done]. by destruct (route_question true (Push e) (with_blocker Proceeding (with_question None s))) as [->|[? _]].
Qed.

(** Only the answer itself moves the page while a question about an action is open. *)
Lemma pane_step_inv s e : pane_inv s → answered_first s e = true → pane_inv (pane_step s e).
Proof.
  intros Hi Hc. destruct (handle_ok e s Hi) as (Hh & Hd & Hq). pose proof Hi as (_ & _ & Hq0).
  destruct (commit_same s (handle_pane e s)) as (E & A & _ & D & Q & _). destruct (commit_selected s (handle_pane e s)) as (_ & _ & O & _).
  split_and!.
  - unfold history_inv, pane_step. by rewrite E, A.
  - unfold pane_step. rewrite D, O. intros [Hsh Ed]%andb_true_iff. apply bool_decide_eq_true in Hsh. specialize (Hd Ed).
    revert Hsh. unfold shown. rewrite Hd. destruct (paneOpen (handle_pane e s)); [done|]. unfold paneOpen in Hd. by destruct (selectedSourceId s).
  - fold (pane_step s e) in *. change (commit s (handle_pane e s)) with (pane_step s e) in *. destruct Hq as [Hq|Hq].
    + rewrite Q, Hq. rewrite Hq in Q. unfold answered_first in Hc. destruct (pane_question s) as [[a|n]|] eqn:E0; [|done..].
      destruct e; try (apply bool_decide_eq_true in Hc as [E' A']; by apply (question_ok_same _ s)).
      * pose proof (proj1 (answer_closes s Hi)) as Hn. cbn [handle_pane] in Hq. congruence.
      * pose proof (proj2 (answer_closes s Hi)) as Hn. cbn [handle_pane] in Hq. congruence.
    + rewrite Q. by apply (question_ok_same _ (handle_pane e s)).
Qed.

Lemma pane_init_inv source fits : pane_inv (pane_init source fits).
Proof. split_and!; [|done|done]. split; [cbn; lia|]. intros [|i] e; [by intros [= <-]|done]. Qed.

Lemma calm_inv es : ∀ s, pane_inv s → calm s es = true → pane_inv (foldl pane_step s es).
Proof.
  induction es as [|e es IH]; intros s Hs Hc; [done|]. cbn [calm] in Hc. apply andb_true_iff in Hc as [H1 H2].
  apply IH; [by apply pane_step_inv|done].
Qed.

Lemma pane_run_inv source fits es : calm (pane_init source fits) es = true → pane_inv (pane_run source fits es).
Proof. apply calm_inv, pane_init_inv. Qed.

(** ** Closing *)

Lemma step_history s e : entries (pane_step s e) = entries (handle_pane e s) ∧ at_ (pane_step s e) = at_ (handle_pane e s).
Proof. destruct (commit_same s (handle_pane e s)) as (E & A & _). by split. Qed.

(** Where the history stays, no effect runs. *)
Lemma commit_quiet old s :
  entries s = entries old → at_ s = at_ old → fitsTwoPanes s = fitsTwoPanes old → commit old s = s.
Proof.
  intros E A F. assert (shown old = shown s ∧ listHidden old = listHidden s ∧ paneOpen old = paneOpen s) as (Hs & Hl & Ho).
  { unfold shown, listHidden, paneOpen, selectedSourceId, current. by rewrite E, A, F. }
  unfold commit, forget_draft. rewrite bool_decide_true by done. unfold restore_scroll. rewrite (bool_decide_true (listHidden old = _)) by done.
  cbn [negb andb]. unfold move_focus. by rewrite bool_decide_true.
Qed.

Lemma step_quiet s e :
  entries (handle_pane e s) = entries s → at_ (handle_pane e s) = at_ s → fitsTwoPanes (handle_pane e s) = fitsTwoPanes s →
  pane_step s e = handle_pane e s.
Proof. apply commit_quiet. Qed.

(** Behind an entry that opening added lies the list. *)
Lemma marked_back s :
  history_inv s → sourcePane (current s) = true →
  moved (Go (-1)) s = Some (entries s, (at_ s - 1)%nat) ∧ at_ s ≠ 0%nat ∧
  ∃ e', entries s !! (at_ s - 1)%nat = Some e' ∧ truthy_str (entry_source e') = false.
Proof.
  intros [Ha Hm] Hp. destruct (Hm (at_ s) (current s)) as (j & e' & Ej & He & Ht); [by apply current_lookup|done|].
  cbn [moved]. cbn zeta. rewrite bool_decide_true by lia. replace (Z.to_nat (Z.of_nat (at_ s) + -1)) with (at_ s - 1)%nat by lia.
  split_and!; [done|lia|]. exists e'. by replace (at_ s - 1)%nat with j by lia.
Qed.

(** A traversal arrives where it was going, unless the blocker stops it. *)
Lemma land_passes s d rest es i :
  traversals s = d :: rest → moved (Go d) s = Some (es, i) → paneDirty s = false ∨ pane_blocker s = Proceeding →
  entries (pane_step s Landed) = es ∧ at_ (pane_step s Landed) = i.
Proof.
  intros Ht Hm Hb. destruct (step_history s Landed) as [-> ->]. cbn [handle_pane]. unfold land. rewrite Ht. unfold route.
  change (moved (Go d) (with_traversals rest s)) with (moved (Go d) s). rewrite Hm.
  cbn [with_traversals with_guard paneDirty pane_blocker]. destruct Hb as [-> | ->]; [done|]. cbn [is_proceeding negb]. by rewrite andb_false_r.
Qed.

Lemma land_nothing s : traversals s = [] → entries (pane_step s Landed) = entries s ∧ at_ (pane_step s Landed) = at_ s.
Proof. intros Ht. destruct (step_history s Landed) as [-> ->]. cbn [handle_pane]. unfold land. by rewrite Ht. Qed.

(** Closing an entry that opening did not add puts the list in its place. *)
Lemma close_in_place s old selected :
  history_inv s → traversals s = [] →
  truthy_str (selectedSourceId (pane_step (commit old (perform_action (ClosePane selected false) s)) Landed)) = false.
Proof.
  intros [Ha _] Ht. set (s1 := perform_action _ s).
  assert (entries s1 = replace_entry {| entry_source := None; sourcePane := false |} s ∧ at_ s1 = at_ s ∧ traversals s1 = []) as (E1 & A1 & T1).
  { unfold s1. cbn [perform_action]. cbn zeta. by erewrite route_free by reflexivity. }
  destruct (commit_same old s1) as (E & A & _ & _ & _ & _ & T). unfold selectedSourceId, current.
  destruct (land_nothing (commit old s1)) as [-> ->]; [by rewrite T|]. rewrite E, A, E1, A1. unfold replace_entry. by rewrite list_lookup_insert_eq.
Qed.

(** No draft, no question, nothing on its way. *)
Definition at_rest (s : pane) : Prop := paneDirty s = false ∧ pane_question s = None ∧ traversals s = [].

(** Closing without a draft: the list, at the entry before a marked one or in the place of another. *)
Lemma close_at_rest s :
  pane_inv s → at_rest s →
  let s' := foldl pane_step s [Close; Landed] in
  truthy_str (selectedSourceId s') = false ∧
  (sourcePane (current s) = true → entries s' = entries s ∧ at_ s' = (at_ s - 1)%nat).
Proof.
  intros Hi (Hd & Hq & Ht). cbn zeta. cbn [foldl]. pose proof Hi as (Hs & _). unfold selectedSourceId, current at 1.
  assert (handle_pane Close s = perform_action (ClosePane (selectedSourceId s) (sourcePane (current s))) s) as Hh.
  { cbn [handle_pane]. unfold unless_asked, closePane, guard_run. by rewrite Hq, Hd. }
  destruct (sourcePane (current s)) eqn:Hp.
  - assert (pane_step s Close = handle_pane Close s) as -> by (by apply step_quiet; rewrite Hh).
    rewrite Hh. destruct (marked_back s Hs Hp) as (Hm & _ & e' & He & Hte).
    destruct (land_passes (perform_action (ClosePane (selectedSourceId s) true) s) (-1) [] (entries s) (at_ s - 1)) as [-> ->].
    + cbn. by rewrite Ht.
    + exact Hm.
    + by left.
    + by rewrite He.
  - split; [|done]. unfold pane_step at 2 4. rewrite Hh. by apply close_in_place.
Qed.

(** A draft is let go by the answer, or by the navigation an answer let proceed. *)
Lemma draft_stays s e :
  paneDirty s = true → e ≠ Confirm → pane_blocker s ≠ Proceeding → entries (handle_pane e s) = entries s ∧ at_ (handle_pane e s) = at_ s.
Proof.
  intros Hd He Hb.
  assert (∀ n s', paneDirty s' = true → pane_blocker s' = pane_blocker s → entries (route false n s') = entries s' ∧ at_ (route false n s') = at_ s') as Hr.
  { intros n s' Hd' Hb'. unfold route. destruct (moved n s') as [[es i]|]; [|done]. rewrite Hd', Hb'.
    destruct (pane_blocker s) eqn:Eb; [| |done]; cbn [andb negb is_proceeding]; by destruct (block_history n s') as (-> & -> & _). }
  destruct e as [id| |source|i| |d| | |fits|y]; cbn [handle_pane]; unfold unless_asked; try done.
  - destruct (pane_question s); [done|]. unfold openSource, guard_run. case_bool_decide; [done|]. cbn zeta. by rewrite Hd.
  - destruct (pane_question s); [done|]. unfold closePane, guard_run. by rewrite Hd.
  - destruct (pane_question s); [done|]. by apply Hr.
  - by apply Hr.
  - unfold land. destruct (traversals s); [done|]. by apply (Hr _ (with_traversals _ s)).
  - unfold keepEditing. by destruct (pane_question s) as [[]|].
Qed.

Lemma draft_kept s e : paneDirty s = true → shown (pane_step s e) ≠ shown s → e = Confirm ∨ pane_blocker s = Proceeding.
Proof.
  intros Hd Hsh. assert (e = Confirm ∨ e ≠ Confirm) as [He|He] by (destruct e; first [by left|by right]); [by left|right].
  destruct (pane_blocker s) eqn:Hb; [exfalso..|done]; (destruct (draft_stays s e) as [E A]; [done|done|by rewrite Hb|]);
    apply Hsh; unfold pane_step; destruct (commit_selected s (handle_pane e s)) as (_ & _ & _ & ->);
    unfold shown, paneOpen, selectedSourceId, current; by rewrite E, A.
Qed.

(** With a draft, closing and opening ask; staying leaves everything as it was. *)
Lemma draft_asks s e :
  paneDirty s = true → pane_question s = None → e = Close ∨ (∃ id, e = Open id ∧ selectedSourceId s ≠ Some id) →
  ∃ a, pane_step s e = with_question (Some (HeldAction a)) s ∧ pane_step (pane_step s e) Cancel = s.
Proof.
  intros Hd Hq He. assert (∃ a, handle_pane e s = with_question (Some (HeldAction a)) s) as [a Ha].
  { destruct He as [->|(id & -> & Hne)]; cbn [handle_pane]; unfold unless_asked, closePane, openSource, guard_run; rewrite Hq, Hd; [by eexists|].
    rewrite bool_decide_false by done. by eexists. }
  exists a. assert (pane_step s e = with_question (Some (HeldAction a)) s) as E by (rewrite <- Ha; by apply step_quiet; rewrite Ha).
  split; [exact E|]. rewrite E. rewrite step_quiet by done. cbn. destruct s. cbn in Hq |- *. by rewrite Hq.
Qed.

(** Discarding the draft closes a pane reached by a link; a pane opened from the list is asked
    about again when the traversal arrives, and closes after the second answer. *)
Lemma discard_closes s :
  pane_inv s → paneDirty s = true → pane_question s = None → traversals s = [] → pane_blocker s = Unblocked →
  let s1 := foldl pane_step s [Close; Confirm; Landed] in
  let s2 := foldl pane_step s1 [Confirm; Landed] in
  if sourcePane (current s)
  then pane_question s1 = Some (HeldNavigation (Go (-1))) ∧ shown s1 = shown s ∧ paneDirty s1 = true ∧
       entries s2 = entries s ∧ at_ s2 = (at_ s - 1)%nat ∧ truthy_str (selectedSourceId s2) = false
  else truthy_str (selectedSourceId s1) = false.
Proof.
  intros (Hs & _) Hd Hq Ht Hb. cbn zeta. cbn [foldl].
  assert (pane_step s Close = with_question (Some (HeldAction (ClosePane (selectedSourceId s) (sourcePane (current s))))) s) as E1.
  { assert (handle_pane Close s = with_question (Some (HeldAction (ClosePane (selectedSourceId s) (sourcePane (current s))))) s) as Hh.
    { cbn [handle_pane]. unfold unless_asked, closePane, guard_run. by rewrite Hq, Hd. }
    rewrite <- Hh. by apply step_quiet; rewrite Hh. }
  rewrite E1. set (s0 := with_question _ s).
  assert (handle_pane Confirm s0 = perform_action (ClosePane (selectedSourceId s) (sourcePane (current s))) (with_question None s0)) as E2 by done.
  destruct (sourcePane (current s)) eqn:Hp.
  - destruct (marked_back s Hs Hp) as (Hm & _ & e' & He & Hte). rewrite (step_quiet s0 Confirm) by (by rewrite E2). rewrite E2.
    cbn [perform_action]. cbn zeta. set (r := match selectedSourceId s with Some _ => _ | None => _ end).
    set (s1 := with_traversals _ _).
    assert (handle_pane Landed s1 = with_question (Some (HeldNavigation (Go (-1)))) (with_blocker (Blocked (Go (-1))) (with_traversals [] s1))) as E3.
    { cbn [handle_pane]. unfold land. assert (traversals s1 = [(-1)%Z]) as -> by (unfold s1; cbn; by rewrite Ht). unfold route.
      change (moved (Go (-1)) _) with (moved (Go (-1)) s). rewrite Hm. change (paneDirty _) with (paneDirty s).
      change (pane_blocker _) with (pane_blocker s). rewrite Hd, Hb. cbn [andb negb is_proceeding]. unfold block.
      change (pane_blocker _) with (pane_blocker s). by rewrite Hb. }
    rewrite (step_quiet s1 Landed) by (by rewrite E3). rewrite E3. set (s2 := with_question _ (with_blocker _ _)).
    assert (handle_pane Confirm s2 = with_traversals [(-1)%Z] (with_blocker Proceeding (with_question None s2))) as E4 by done.
    rewrite (step_quiet s2 Confirm) by (by rewrite E4). rewrite E4. set (s3 := with_traversals _ (with_blocker Proceeding _)).
    destruct (land_passes s3 (-1) [] (entries s) (at_ s - 1)) as [E5 A5]; [done|exact Hm|by right|].
    split_and!; [done|done|exact Hd|exact E5|exact A5|]. unfold selectedSourceId, current. by rewrite E5, A5, He.
  - unfold pane_step at 2. rewrite E2. by apply close_in_place.
Qed.

(** ** Opening *)

Lemma open_again s id : selectedSourceId s = Some id → handle_pane (Open id) s = s.
Proof.
  intros E. cbn [handle_pane]. unfold unless_asked, openSource. rewrite bool_decide_true by done. by destruct (pane_question s).
Qed.

Lemma open_free s id :
  at_rest s → selectedSourceId s ≠ Some id →
  handle_pane (Open id) s =
  if truthy_str (selectedSourceId s)
  then with_history (replace_entry {| entry_source := Some id; sourcePane := sourcePane (current s) |} s) (at_ s) (with_blocker Unblocked s)
  else with_history (push_entry {| entry_source := Some id; sourcePane := true |} s) (S (at_ s))
         (with_blocker Unblocked (with_refs (Some FocusPane) (if negb (fitsTwoPanes s) then Some (scrollY s) else listScroll s) (focused s) s)).
Proof.
  intros (Hd & Hq & _) Hne. cbn [handle_pane]. unfold unless_asked, openSource, guard_run. rewrite Hq, Hd, bool_decide_false by done. cbn zeta.
  by destruct (truthy_str (selectedSourceId s)); cbn [negb perform_action]; erewrite route_free by reflexivity.
Qed.

Lemma open_selected s id : pane_inv s → at_rest s → selectedSourceId (pane_step s (Open id)) = Some id.
Proof.
  intros ([Ha _] & _) Hr. unfold selectedSourceId, current. destruct (step_history s (Open id)) as [-> ->].
  destruct (decide (selectedSourceId s = Some id)) as [E|Hne].
  - by rewrite open_again.
  - rewrite open_free by done. destruct (truthy_str _); cbn [with_history entries at_].
    + unfold replace_entry. by rewrite list_lookup_insert_eq.
    + by rewrite push_lookup.
Qed.

Lemma open_at_rest s id : at_rest s → at_rest (pane_step s (Open id)).
Proof.
  intros Hr. pose proof Hr as (Hd & Hq & Ht). destruct (commit_same s (handle_pane (Open id) s)) as (_ & _ & _ & D & Q & _ & T).
  unfold at_rest, pane_step. rewrite D, Q, T. destruct (decide (selectedSourceId s = Some id)) as [E|Hne].
  - rewrite open_again by done. rewrite Hd, Hq, Ht, andb_false_r. by split_and!.
  - rewrite open_free by done. destruct (truthy_str _); cbn [with_history with_blocker with_guard with_refs paneDirty pane_question traversals];
      rewrite Hd, Hq, Ht, andb_false_r; by split_and!.
Qed.

(** The pane was opened from the list of [s0] and is at rest. *)
Definition opened_at (s0 s : pane) : Prop :=
  pane_inv s ∧ at_rest s ∧ at_ s = S (at_ s0) ∧ take (S (at_ s0)) (entries s) = take (S (at_ s0)) (entries s0) ∧
  sourcePane (current s) = true ∧ truthy_str (selectedSourceId s) = true.

Lemma step_inv_at_rest s e : pane_inv s → at_rest s → pane_inv (pane_step s e).
Proof. intros Hi (_ & Hq & _). apply pane_step_inv; [done|]. unfold answered_first. by rewrite Hq. Qed.

Lemma open_from_list s id :
  pane_inv s → at_rest s → truthy_str (selectedSourceId s) = false → nonempty id = true → opened_at s (pane_step s (Open id)).
Proof.
  intros Hi Hr Ht Hid. unfold opened_at. rewrite open_selected by done. destruct (step_history s (Open id)) as [E A].
  assert (selectedSourceId s ≠ Some id) as Hne by (intros E'; rewrite E' in Ht; cbn in Ht; unfold nonempty in Hid; congruence).
  rewrite (open_free s id Hr Hne), Ht in E, A. cbn [with_history entries at_] in E, A. pose proof Hi as ([Ha _] & _).
  split_and!; [by apply step_inv_at_rest|by apply open_at_rest|exact A| | |exact Hid].
  - rewrite E. unfold push_entry. rewrite take_app_le by (rewrite length_take; lia). rewrite take_take. f_equal. lia.
  - unfold current. rewrite E, A. by rewrite push_lookup.
Qed.

Lemma switch_keeps s0 s id : opened_at s0 s → nonempty id = true → opened_at s0 (pane_step s (Open id)).
Proof.
  intros (Hi & Hr & Ha & Ht & Hp & Hsel) Hid. unfold opened_at. rewrite open_selected by done.
  destruct (step_history s (Open id)) as [E A]. pose proof Hi as ([Hl _] & _).
  destruct (decide (selectedSourceId s = Some id)) as [Es|Hne].
  - rewrite open_again in E, A by done. unfold current. rewrite E, A. split_and!; [by apply step_inv_at_rest|by apply open_at_rest|done..].
  - rewrite (open_free s id Hr Hne), Hsel in E, A. cbn [with_history entries at_] in E, A. unfold current. rewrite E, A.
    split_and!; [by apply step_inv_at_rest|by apply open_at_rest|done| | |exact Hid]; unfold replace_entry.
    + rewrite take_insert_ge by lia. done.
    + by rewrite list_lookup_insert_eq.
Qed.

Lemma switches_keep s0 ids : ∀ s, opened_at s0 s → Forall (λ id, nonempty id = true) ids → opened_at s0 (foldl pane_step s (Open <$> ids)).
Proof.
  induction ids as [|id ids IH]; intros s Hs Hids; [done|]. apply Forall_cons in Hids as [Hid Hids]. cbn. apply IH; [|done]. by apply switch_keeps.
Qed.

Lemma open_close_list s id ids :
  pane_inv s → at_rest s → truthy_str (selectedSourceId s) = false → nonempty id = true → Forall (λ id, nonempty id = true) ids →
  let s' := foldl pane_step s ((Open <$> id :: ids) ++ [Close; Landed])%list in
  at_ s' = at_ s ∧ take (S (at_ s)) (entries s') = take (S (at_ s)) (entries s) ∧ selectedSourceId s' = selectedSourceId s.
Proof.
  intros Hi Hr Ht Hid Hids. cbn zeta. rewrite fmap_cons, foldl_app. cbn [foldl].
  destruct (switches_keep _ ids _ (open_from_list _ id Hi Hr Ht Hid) Hids) as (Hi1 & Hr1 & Ha & Htk & Hp & _).
  set (s1 := foldl pane_step _ _) in *. destruct (proj2 (close_at_rest s1 Hi1 Hr1) Hp) as [E A]. cbn [foldl] in E, A. unfold selectedSourceId, current.
  rewrite E, A, Ha. replace (S (at_ s) - 1)%nat with (at_ s) by lia. split_and!; [done|done|].
  rewrite <- (lookup_take_lt (entries s1) (S (at_ s))), Htk, lookup_take_lt by lia. done.
Qed.

(** C28. The source pane beside its list, whatever is opened, closed, typed, asked, answered and
    reached by links or the browser's own buttons, as long as a question about opening or closing is
    answered before the page moves on. At rest (no draft, no question, no step on its way): closing
    shows the list once the step it asks the browser for has arrived, opening shows the source, and
    after opening a source from the list and switching between any others, closing returns to the
    very history entry of the list with none of the entries before it changed: opening costs one step
    and closing takes it back. With a draft: the pane lets go of its source only by an answer, or by
    the navigation an answer let proceed; closing it and opening another source only ask, and staying
    leaves everything as it was. Discarding closes a pane reached by a link; a pane opened from the
    list stays open, with its draft, and is asked about a second time when the step back arrives, and
    the second answer returns to the list. *)
Theorem pane_returns_to_list source fits es ids :
  calm (pane_init source fits) es = true → Forall (λ id, nonempty id = true) ids →
  let s := pane_run source fits es in
  (at_rest s →
     truthy_str (selectedSourceId (foldl pane_step s [Close; Landed])) = false ∧
     (∀ id, selectedSourceId (pane_step s (Open id)) = Some id) ∧
     (∀ id, nonempty id = true → truthy_str (selectedSourceId s) = false →
        let s' := foldl pane_step s ((Open <$> id :: ids) ++ [Close; Landed])%list in
        at_ s' = at_ s ∧ take (S (at_ s)) (entries s') = take (S (at_ s)) (entries s) ∧ selectedSourceId s' = selectedSourceId s)) ∧
  (paneDirty s = true →
     (∀ e, shown (pane_step s e) ≠ shown s → e = Confirm ∨ pane_blocker s = Proceeding) ∧
     (pane_question s = None →
        ∀ e, e = Close ∨ (∃ id, e = Open id ∧ selectedSourceId s ≠ Some id) →
        ∃ a, pane_step s e = with_question (Some (HeldAction a)) s ∧ pane_step (pane_step s e) Cancel = s) ∧
     (pane_question s = None → traversals s = [] → pane_blocker s = Unblocked →
        let s1 := foldl pane_step s [Close; Confirm; Landed] in
        let s2 := foldl pane_step s1 [Confirm; Landed] in
        if sourcePane (current s)
        then pane_question s1 = Some (HeldNavigation (Go (-1))) ∧ shown s1 = shown s ∧ paneDirty s1 = true ∧
             entries s2 = entries s ∧ at_ s2 = (at_ s - 1)%nat ∧ truthy_str (selectedSourceId s2) = false
        else truthy_str (selectedSourceId s1) = false)).
Proof.
  intros Hc Hids. cbn zeta. pose proof (pane_run_inv source fits es Hc) as Hi. set (s := pane_run source fits es) in *. split.
  - intros Hr. split_and!; [by apply close_at_rest|intros id; by apply open_selected|]. intros id Hid Ht. by apply open_close_list.
  - intros Hd. split_and!.
    + intros e. by apply draft_kept.
    + intros Hq e. by apply draft_asks.
    + intros Hq Ht Hb. by apply discard_closes.
Qed.

(** ** Focus and scrolling *)

Lemma paneOpen_list s : truthy_str (selectedSourceId s) = false → paneOpen s = false.
Proof. unfold paneOpen. destruct (selectedSourceId s) as [[|c r]|]; done. Qed.

(** Opening from the list: focus goes to the pane, and a list it replaces is remembered. *)
Lemma open_effects s id :
  pane_inv s → at_rest s → visible id = true → nonempty id = true → truthy_str (selectedSourceId s) = false →
  focused (pane_step s (Open id)) = Some FocusPane ∧ scrollY (pane_step s (Open id)) = scrollY s ∧
  listScroll (pane_step s (Open id)) = (if negb (fitsTwoPanes s) then Some (scrollY s) else listScroll s) ∧
  fitsTwoPanes (pane_step s (Open id)) = fitsTwoPanes s.
Proof.
  intros Hi Hr Hv Hid Ht. pose proof (open_selected s id Hi Hr) as Hsel. unfold pane_step in Hsel |- *.
  rewrite (proj1 (commit_selected _ _)) in Hsel. revert Hsel.
  assert (selectedSourceId s ≠ Some id) as Hne by (intros E; rewrite E in Ht; cbn in Ht; unfold nonempty in Hid; congruence).
  rewrite (open_free s id Hr Hne), Ht. set (s1 := with_history _ _ _). intros Hsel.
  assert (paneOpen s = false) as Ho by by apply paneOpen_list.
  assert (paneOpen s1 = true) as Ho1 by (unfold paneOpen; by rewrite Hsel).
  assert (forget_draft s s1 = with_dirty false s1) as Hf by (unfold forget_draft, shown; by rewrite Ho, Ho1, Hsel).
  unfold commit. rewrite Hf. assert (restore_scroll s (with_dirty false s1) = with_dirty false s1) as Hs.
  { unfold restore_scroll, listHidden. change (paneOpen (with_dirty false s1)) with (paneOpen s1). rewrite Ho, Ho1.
    change (fitsTwoPanes (with_dirty false s1)) with (fitsTwoPanes s). by destruct (fitsTwoPanes s). }
  rewrite Hs. unfold move_focus. change (paneOpen (with_dirty false s1)) with (paneOpen s1). rewrite Ho, Ho1, bool_decide_false by (by intros [? _]).
  done.
Qed.

(** The pane is gone: focus goes to the control, and a list that was hidden is scrolled back. *)
Lemma close_commit old s open :
  paneOpen old = true → paneOpen s = false → focusRequest s = Some (FocusControl open) → fitsTwoPanes s = fitsTwoPanes old →
  focused (commit old s) = Some (FocusControl open) ∧
  ∀ y, fitsTwoPanes old = false → listScroll s = Some y → scrollY (commit old s) = y.
Proof.
  intros Ho Ho1 Hf Hw. unfold commit. set (s1 := forget_draft old s).
  assert (paneOpen s1 = false ∧ focusRequest s1 = focusRequest s ∧ listScroll s1 = listScroll s ∧ fitsTwoPanes s1 = fitsTwoPanes old) as (O1 & F1 & L1 & W1).
  { unfold s1, forget_draft. rewrite <- Hw. by case_bool_decide. }
  assert (focusRequest (restore_scroll old s1) = focusRequest s1 ∧ paneOpen (restore_scroll old s1) = false ∧
    ∀ y, fitsTwoPanes old = false → listScroll s1 = Some y → scrollY (restore_scroll old s1) = y) as (F2 & O2 & Hy).
  { unfold restore_scroll, listHidden. rewrite Ho, O1. cbn [andb negb]. rewrite andb_true_r.
    destruct (fitsTwoPanes old); cbn [negb]; [by split_and!|]. rewrite bool_decide_false by done. cbn [negb].
    destruct (listScroll s1) as [z|]; [|by split_and!]. split_and!; [done|exact O1|by intros y _ [= ->]]. }
  unfold move_focus. rewrite Ho, O2, F2, F1, Hf, bool_decide_false by (by intros [? _]). cbn [negb]. split; [done|].
  intros y Hn Hl. apply Hy; [done|by rewrite L1].
Qed.

Lemma close_effects s open :
  pane_inv s → at_rest s → selectedSourceId s = Some open → visible open = true →
  let s' := foldl pane_step s [Close; Landed] in
  focused s' = Some (FocusControl open) ∧ ∀ y, fitsTwoPanes s = false → listScroll s = Some y → scrollY s' = y.
Proof.
  intros Hi Hr Hsel Hv. pose proof (proj1 (close_at_rest s Hi Hr)) as Hgone. pose proof Hr as (Hd & Hq & Ht). pose proof Hi as (Hs & _).
  cbn zeta in *. cbn [foldl] in *.
  assert (nonempty open = true) as Hid by (unfold nonempty; destruct (String.eqb_spec open ""); [congruence|done]).
  assert (paneOpen s = true) as Ho by (unfold paneOpen; by rewrite Hsel).
  assert (handle_pane Close s = perform_action (ClosePane (Some open) (sourcePane (current s))) s) as Hh.
  { cbn [handle_pane]. unfold unless_asked, closePane, guard_run. by rewrite Hq, Hd, Hsel. }
  destruct (sourcePane (current s)) eqn:Hp.
  - assert (pane_step s Close = handle_pane Close s) as E by (by apply step_quiet; rewrite Hh). rewrite E, Hh in Hgone |- *.
    set (s1 := perform_action _ s) in *. assert (focusRequest s1 = Some (FocusControl open)) as Hf by (unfold s1; cbn; by rewrite Hid).
    unfold pane_step in *. rewrite (proj1 (commit_selected _ _)) in Hgone. revert Hgone. cbn [handle_pane]. unfold land.
    assert (traversals s1 = [(-1)%Z]) as -> by (unfold s1; cbn; by rewrite Ht). unfold route.
    destruct (marked_back s Hs Hp) as (Hm & _ & _). change (moved (Go (-1)) _) with (moved (Go (-1)) s). rewrite Hm.
    assert (paneDirty (with_traversals [] s1) = false) as -> by exact Hd. cbn [andb]. intros Hgone.
    set (s2 := with_history _ _ _) in *. refine (close_commit s1 s2 open _ _ _ _); [exact Ho|by apply paneOpen_list|exact Hf|reflexivity].
  - assert (pane_step (pane_step s Close) Landed = pane_step s Close) as E.
    { destruct (commit_same s (handle_pane Close s)) as (_ & _ & _ & _ & _ & _ & T). fold (pane_step s Close) in T. rewrite Hh in T.
      cbn [perform_action] in T. cbn zeta in T. erewrite route_free in T by reflexivity. cbn in T. rewrite Ht in T.
      assert (handle_pane Landed (pane_step s Close) = pane_step s Close) as El by (cbn [handle_pane]; unfold land; by rewrite T).
      rewrite (step_quiet (pane_step s Close)) by (by rewrite El). exact El. }
    rewrite E in Hgone |- *. unfold pane_step in *. rewrite (proj1 (commit_selected _ _)) in Hgone. rewrite Hh in Hgone |- *.
    cbn [perform_action] in *. cbn zeta in *. erewrite route_free in Hgone |- * by reflexivity.
    refine (close_commit s _ open _ _ _ _); [exact Ho|by apply paneOpen_list|cbn; by rewrite Hid|reflexivity].
Qed.

(** Focus and scrolling at rest: a source opened from the list moves focus to the pane's
    title, closing moves it to the control of the source that was open, and a list that
    the pane had replaced comes back scrolled as it was left. *)
Theorem pane_focus_returns source fits es id y :
  calm (pane_init source fits) es = true → visible id = true →
  let s := pane_run source fits es in
  at_rest s →
  (truthy_str (selectedSourceId s) = false → focused (pane_step s (Open id)) = Some FocusPane) ∧
  (∀ open, selectedSourceId s = Some open → visible open = true → focused (foldl pane_step s [Close; Landed]) = Some (FocusControl open)) ∧
  (truthy_str (selectedSourceId s) = false → fitsTwoPanes s = false →
     let s' := foldl pane_step s [Open id; Scroll y; Close; Landed] in
     scrollY s' = scrollY s ∧ focused s' = Some (FocusControl id)).
Proof.
  intros Hc Hv. cbn zeta. pose proof (pane_run_inv source fits es Hc) as Hi. set (s := pane_run source fits es) in *. intros Hr.
  assert (nonempty id = true) as Hid by (unfold nonempty; destruct (String.eqb_spec id ""); [congruence|done]).
  split_and!.
  - intros Ht. by apply open_effects.
  - intros open Hsel Ho. by apply close_effects.
  - intros Ht Hw. destruct (open_effects s id) as (_ & _ & Hl & Hw2); [done..|]. rewrite Hw in Hl, Hw2.
    pose proof (step_inv_at_rest s (Open id) Hi Hr) as Hi2. pose proof (open_at_rest s id Hr) as Hr2.
    pose proof (open_selected s id Hi Hr) as Hsel. cbn [foldl]. set (s2 := pane_step s (Open id)) in *.
    rewrite (step_quiet s2 (Scroll y)) by done. cbn [handle_pane]. set (s3 := with_view (fitsTwoPanes s2) y s2).
    destruct (close_effects s3 id) as [Hf Hy]; [exact Hi2|exact Hr2|exact Hsel|done|]. cbn [foldl] in Hf, Hy. split; [|exact Hf].
    by apply Hy.
Qed.
End Pane.

(** A key is typed into a source opened from the list: closing asks, and asks again. *)
Lemma pane_returns_to_list_witness :
  let v := λ id : string, nonempty id in
  let es := [Link (Some "x"); Close; Landed; Open "a"; Typed true] in
  let s := pane_run v None true es in
  v "" = false ∧ calm v (pane_init None true) es = true ∧ Forall (λ id, nonempty id = true) ["b"; "c"] ∧ paneDirty s = true ∧
  shown v (foldl (pane_step v) s [Close; Confirm; Landed]) = shown v s ∧ shown v s = Some "a".
Proof.
  intros v es s. assert (v "" = false) as Hv by (vm_compute; reflexivity).
  assert (calm v (pane_init None true) es = true) as Hc by (vm_compute; reflexivity).
  assert (Forall (λ id, nonempty id = true) ["b"; "c"]) as H by (repeat constructor).
  assert (paneDirty s = true) as Hd by (vm_compute; reflexivity). assert (pane_question s = None) as Hq by (vm_compute; reflexivity).
  assert (traversals s = []) as Ht by (vm_compute; reflexivity). assert (pane_blocker s = Unblocked) as Hb by (vm_compute; reflexivity).
  assert (sourcePane (current s) = true) as Hp by (vm_compute; reflexivity).
  destruct (pane_returns_to_list v Hv None true es ["b"; "c"] Hc H) as [_ H2]. fold s in H2.
  destruct (H2 Hd) as (_ & _ & H3). specialize (H3 Hq Ht Hb). cbn zeta in H3. rewrite Hp in H3. destruct H3 as (_ & Hsh & _).
  split_and!; [exact Hv|exact Hc|exact H|exact Hd|exact Hsh|vm_compute; reflexivity].
Defined.

Lemma pane_focus_returns_witness :
  let v := String.eqb "a" in let s := pane_run v None false [Scroll 300] in
  v "" = false ∧ v "a" = true ∧ at_rest s ∧ scrollY (foldl (pane_step v) s [Open "a"; Scroll 0; Close; Landed]) = 300%Z.
Proof.
  cbn zeta. do 2 (split; [reflexivity|]). assert (at_rest (pane_run (String.eqb "a") None false [Scroll 300])) as Hr by (split_and!; reflexivity).
  split; [exact Hr|]. destruct (pane_focus_returns (String.eqb "a") eq_refl None false [Scroll 300] "a" 0 eq_refl eq_refl Hr) as (_ & _ & H).
  exact (proj1 (H eq_refl eq_refl)).
Defined.
