(* ===== verification/Passkeys.v ===== *)
(** Passkey ceremonies (frontend/src/lib/webauthn.ts): the base64url bridge between the
    server's JSON and the browser's buffers, and what a ceremony ends in.

    A byte is its eight bits ([ascii]), a buffer the list of its bytes. [btoa] and [atob]
    are the platform's base64 of RFC 4648 and its forgiving decoder; the browser's
    [navigator.credentials] is a parameter. Texts outside ASCII are rejected by the
    decoder in either representation. *)

From Stdlib Require Import ZifyNat.
From S2P Require Import Prelude JsString.
Local Open Scope nat_scope.

(** ** Six bits at a time *)

(** A base64 digit, most significant bit first. *)
Inductive sextet := Sextet (b5 b4 b3 b2 b1 b0 : bool).
#[export] Instance sextet_eq_dec : EqDecision sextet.
Proof. solve_decision. Defined.

Definition bits : list bool := [false; true].

Definition all_sextets : list sextet :=
  flat_map (λ b5, flat_map (λ b4, flat_map (λ b3, flat_map (λ b2, flat_map (λ b1, map (Sextet b5 b4 b3 b2 b1) bits) bits) bits) bits) bits) bits.

Definition alphabet : list (ascii * sextet) :=
  zip (list_ascii_of_string "ABCDEFGHIJKLMNOPQRSTUVWXYZabcdefghijklmnopqrstuvwxyz0123456789+/") all_sextets.

Definition b64_char (s : sextet) : ascii :=
  from_option fst "="%char (find_first (λ e, bool_decide (e.2 = s)) alphabet).
Definition b64_value (c : ascii) : option sextet := snd <$> find_first (λ e, Ascii.eqb e.1 c) alphabet.

Fixpoint sextets (bs : list ascii) : list sextet :=
  match bs with
  | [] => []
  | [Ascii a0 a1 a2 a3 a4 a5 a6 a7] => [Sextet a7 a6 a5 a4 a3 a2; Sextet a1 a0 false false false false]
  | [Ascii a0 a1 a2 a3 a4 a5 a6 a7; Ascii b0 b1 b2 b3 b4 b5 b6 b7] =>
      [Sextet a7 a6 a5 a4 a3 a2; Sextet a1 a0 b7 b6 b5 b4; Sextet b3 b2 b1 b0 false false]
  | Ascii a0 a1 a2 a3 a4 a5 a6 a7 :: Ascii b0 b1 b2 b3 b4 b5 b6 b7 :: Ascii c0 c1 c2 c3 c4 c5 c6 c7 :: bs =>
      Sextet a7 a6 a5 a4 a3 a2 :: Sextet a1 a0 b7 b6 b5 b4 :: Sextet b3 b2 b1 b0 c7 c6 :: Sextet c5 c4 c3 c2 c1 c0 :: sextets bs
  end.

(** The bits that do not fill a byte are discarded. *)
Fixpoint octets (ss : list sextet) : list ascii :=
  match ss with
  | Sextet a7 a6 a5 a4 a3 a2 :: Sextet a1 a0 b7 b6 b5 b4 :: Sextet b3 b2 b1 b0 c7 c6 :: Sextet c5 c4 c3 c2 c1 c0 :: ss =>
      Ascii a0 a1 a2 a3 a4 a5 a6 a7 :: Ascii b0 b1 b2 b3 b4 b5 b6 b7 :: Ascii c0 c1 c2 c3 c4 c5 c6 c7 :: octets ss
  | [Sextet a7 a6 a5 a4 a3 a2; Sextet a1 a0 b7 b6 b5 b4; Sextet b3 b2 b1 b0 _ _] =>
      [Ascii a0 a1 a2 a3 a4 a5 a6 a7; Ascii b0 b1 b2 b3 b4 b5 b6 b7]
  | [Sextet a7 a6 a5 a4 a3 a2; Sextet a1 a0 _ _ _ _] => [Ascii a0 a1 a2 a3 a4 a5 a6 a7]
  | _ => []
  end.

(** ** [btoa] and [atob] *)

Definition btoa (bs : list ascii) : list ascii :=
  map b64_char (sextets bs) ++ repeat "="%char ((3 - length bs mod 3) mod 3).

Definition strip_whitespace (s : list ascii) : list ascii := bfilter (λ c, negb (is_space c) || Ascii.eqb c "011"%char) s.

(** At most two [=] at the end of a text of whole quartets. *)
Definition drop_padding (s : list ascii) : list ascii :=
  if length s mod 4 =? 0 then
    match rev s with
    | ("=" :: "=" :: r)%char => rev r
    | ("=" :: r)%char => rev r
    | _ => s
    end
  else s.

Definition atob (s : list ascii) : option (list ascii) :=
  let s := drop_padding (strip_whitespace s) in
  if length s mod 4 =? 1 then None else octets <$> mapM b64_value s.

(** ** Model of webauthn.ts: the codec *)

Definition replace_all (a b : ascii) (s : list ascii) : list ascii := map (λ c, if Ascii.eqb c a then b else c) s.

Definition pad_end (n : nat) (c : ascii) (s : list ascii) : list ascii := s ++ repeat c (n - length s).

(** [Math.ceil(n / 4) * 4]. *)
Definition padded_length (n : nat) : nat := (n + 3) / 4 * 4.

Definition base64urlToBuffer (value : string) : option (list ascii) :=
  let s := list_ascii_of_string value in
  atob (pad_end (padded_length (length s)) "="%char (replace_all "_" "/" (replace_all "-" "+" s)%char)).

(** The match of [/=+$/]: the run of [=] that ends the text. *)
Fixpoint skip_eq (r : list ascii) : list ascii :=
  match r with c :: r' => if Ascii.eqb c "="%char then skip_eq r' else r | [] => [] end.

Definition drop_trailing_eq (s : list ascii) : list ascii := rev (skip_eq (rev s)).

Definition bufferToBase64url (buffer : option (list ascii)) : string :=
  match buffer with
  | None => ""
  | Some bytes => string_of_list_ascii (drop_trailing_eq (replace_all "/" "_" (replace_all "+" "-" (btoa bytes))%char))
  end.

(** ** Model of webauthn.ts: the ceremonies *)

(** What the browser throws: a [DOMException] by its name, or anything else. *)
Inductive thrown := DOMException (name : string) | OtherError (message : string).

(** A ceremony returns, throws [PasskeyCancelledError], or throws what it caught. *)
Inductive ceremony (A : Type) := Returned (a : A) | PasskeyCancelled | Rethrown (e : thrown).
Arguments Returned {A} a.
Arguments PasskeyCancelled {A}.
Arguments Rethrown {A} e.

Record Descriptor (I : Type) := { descriptor_id : I; descriptor_type : string; transports : option (list string) }.
Arguments descriptor_id {I}.
Arguments descriptor_type {I}.
Arguments transports {I}.

Record CredentialUser (I : Type) := { user_id : I; user_name : string; displayName : string }.
Arguments user_id {I}.
Arguments user_name {I}.
Arguments displayName {I}.

(** Options with ids of type [I]: texts from the server, buffers for the browser. The
    fields the bridge copies are [other]. *)
Record CreationOptions (I R : Type) := {
  creation_challenge : I; creation_user : CredentialUser I; excludeCredentials : option (list (Descriptor I)); creation_other : R;
}.
Arguments creation_challenge {I R}.
Arguments creation_user {I R}.
Arguments excludeCredentials {I R}.
Arguments creation_other {I R}.

Record RequestOptions (I R : Type) := {
  request_challenge : I; allowCredentials : option (list (Descriptor I)); request_other : R;
}.
Arguments request_challenge {I R}.
Arguments allowCredentials {I R}.
Arguments request_other {I R}.

Definition buffer := list ascii.

Definition descriptor (item : Descriptor string) : option (Descriptor buffer) :=
  b ← base64urlToBuffer (descriptor_id item);
  Some {| descriptor_id := b; descriptor_type := descriptor_type item; transports := transports item |}.

Definition descriptors (l : option (list (Descriptor string))) : option (option (list (Descriptor buffer))) :=
  match l with None => Some None | Some l => Some <$> mapM descriptor l end.

Definition isCancellation (e : thrown) : bool :=
  match e with DOMException name => String.eqb name "NotAllowedError" || String.eqb name "AbortError" | OtherError _ => false end.

(** What [atob] throws. *)
Definition invalid_character : thrown := DOMException "InvalidCharacterError".

Definition publicKey_creation {R} (o : CreationOptions string R) : option (CreationOptions buffer R) :=
  challenge ← base64urlToBuffer (creation_challenge o);
  uid ← base64urlToBuffer (user_id (creation_user o));
  excluded ← descriptors (excludeCredentials o);
  Some {| creation_challenge := challenge;
          creation_user := {| user_id := uid; user_name := user_name (creation_user o); displayName := displayName (creation_user o) |};
          excludeCredentials := excluded; creation_other := creation_other o |}.

Definition publicKey_request {R} (o : RequestOptions string R) : option (RequestOptions buffer R) :=
  challenge ← base64urlToBuffer (request_challenge o);
  allowed ← descriptors (allowCredentials o);
  Some {| request_challenge := challenge; allowCredentials := allowed; request_other := request_other o |}.

(** A credential of the browser; [Other] is [null] or not a public-key credential. The
    id type is the buffer in the browser and its text in the JSON. *)
Inductive credential (P : Type) := PublicKey (p : P) | Other.
Arguments PublicKey {P} p.
Arguments Other {P}.

Record Attestation (I : Type) := {
  at_id : string; at_rawId : I; at_type : string; at_clientDataJSON : I; attestationObject : I;
  at_transports : option (list string); at_extensions : list (string * string);
}.
Arguments at_id {I}.
Arguments at_rawId {I}.
Arguments at_type {I}.
Arguments at_clientDataJSON {I}.
Arguments attestationObject {I}.
Arguments at_transports {I}.
Arguments at_extensions {I}.

Record Assertion (I H : Type) := {
  as_id : string; as_rawId : I; as_type : string; as_clientDataJSON : I; authenticatorData : I; signature : I;
  userHandle : H; as_extensions : list (string * string);
}.
Arguments as_id {I H}.
Arguments as_rawId {I H}.
Arguments as_type {I H}.
Arguments as_clientDataJSON {I H}.
Arguments authenticatorData {I H}.
Arguments signature {I H}.
Arguments userHandle {I H}.
Arguments as_extensions {I H}.

Definition encoded (b : buffer) : string := bufferToBase64url (Some b).

(** [getTransports] may be missing in a browser: [None]. *)
Definition attestation_json (c : Attestation buffer) : Attestation string :=
  {| at_id := at_id c; at_rawId := encoded (at_rawId c); at_type := at_type c;
     at_clientDataJSON := encoded (at_clientDataJSON c); attestationObject := encoded (attestationObject c);
     at_transports := Some (default [] (at_transports c)); at_extensions := at_extensions c |}.

Definition assertion_json (c : Assertion buffer (option buffer)) : Assertion string string :=
  {| as_id := as_id c; as_rawId := encoded (as_rawId c); as_type := as_type c; as_clientDataJSON := encoded (as_clientDataJSON c);
     authenticatorData := encoded (authenticatorData c); signature := encoded (signature c);
     userHandle := bufferToBase64url (userHandle c); as_extensions := as_extensions c |}.

(** The [try] around the browser's call: what its arguments or the call threw. *)
Definition settle_ceremony {O P J} (options : option O) (browser : O → thrown + credential P) (to_json : P → J) : ceremony J :=
  match (match options with Some o => browser o | None => inl invalid_character end) with
  | inl e => if isCancellation e then PasskeyCancelled else Rethrown e
  | inr Other => PasskeyCancelled
  | inr (PublicKey c) => Returned (to_json c)
  end.

Definition createPasskey {R} (create : CreationOptions buffer R → thrown + credential (Attestation buffer))
    (options : CreationOptions string R) : ceremony (Attestation string) :=
  settle_ceremony (publicKey_creation options) create attestation_json.

Definition getPasskey {R} (get : RequestOptions buffer R → thrown + credential (Assertion buffer (option buffer)))
    (options : RequestOptions string R) : ceremony (Assertion string string) :=
  settle_ceremony (publicKey_request options) get assertion_json.

(** ** The alphabet *)

Definition url_char (s : sextet) : ascii :=
  let c := b64_char s in let c := if Ascii.eqb c "+" then "-"%char else c in if Ascii.eqb c "/" then "_"%char else c.

Ltac sextet_cases s := destruct s as [[] [] [] [] [] []]; vm_compute; try done; auto.

Lemma b64_value_char s : b64_value (b64_char s) = Some s.
Proof. sextet_cases s. Qed.

Lemma b64_char_plain s :
  Ascii.eqb (b64_char s) "=" = false ∧ is_space (b64_char s) = false.
Proof. sextet_cases s. Qed.

Lemma url_char_plain s :
  Ascii.eqb (url_char s) "=" = false ∧
  (if Ascii.eqb (if Ascii.eqb (url_char s) "-" then "+"%char else url_char s) "_" then "/"%char
   else if Ascii.eqb (url_char s) "-" then "+"%char else url_char s) = b64_char s.
Proof. sextet_cases s. Qed.

Lemma b64_value_eq : b64_value "=" = None.
Proof. done. Qed.

(** ** The codec *)

(** Linear arithmetic with division and remainder by constants. *)
Ltac div_lia := zify; Z.to_euclidean_division_equations; lia.

Fixpoint list_ind3 {A} (P : list A → Prop) (P0 : P []) (P1 : ∀ a, P [a]) (P2 : ∀ a b, P [a; b])
    (P3 : ∀ a b c l, P l → P (a :: b :: c :: l)) (l : list A) : P l :=
  match l with
  | [] => P0 | [a] => P1 a | [a; b] => P2 a b
  | a :: b :: c :: l => P3 a b c l (list_ind3 P P0 P1 P2 P3 l)
  end.

Fixpoint list_ind4 {A} (P : list A → Prop) (P0 : P []) (P1 : ∀ a, P [a]) (P2 : ∀ a b, P [a; b]) (P3 : ∀ a b c, P [a; b; c])
    (P4 : ∀ a b c d l, P l → P (a :: b :: c :: d :: l)) (l : list A) : P l :=
  match l with
  | [] => P0 | [a] => P1 a | [a; b] => P2 a b | [a; b; c] => P3 a b c
  | a :: b :: c :: d :: l => P4 a b c d l (list_ind4 P P0 P1 P2 P3 P4 l)
  end.

Lemma octets_sextets bs : octets (sextets bs) = bs.
Proof.
  induction bs as [|[]|[] []|[] [] [] bs IH] using list_ind3; [done..|]. cbn [sextets octets]. by rewrite IH.
Qed.

(** Two, three or no digits in the last quartet: the padding fills it. *)
Lemma length_sextets bs :
  length (sextets bs) mod 4 ≠ 1 ∧ padded_length (length (sextets bs)) - length (sextets bs) = (3 - length bs mod 3) mod 3.
Proof.
  assert (length (sextets bs) = 4 * (length bs / 3) + match length bs mod 3 with 0 => 0 | S r => S (S r) end) as ->.
  { induction bs as [|[]|[] []|[] [] [] bs IH] using list_ind3; [done..|]. cbn [sextets length].
    rewrite IH. replace (S (S (S (length bs)))) with (length bs + 1 * 3) by lia.
    rewrite Nat.div_add, Nat.Div0.mod_add by lia. lia. }
  unfold padded_length. generalize (length bs). intros n. destruct (n mod 3) as [|[|[|r]]] eqn:E.
  all: div_lia.
Qed.

Lemma padding_range n : padded_length n - n <= 3 ∧ (padded_length n - n = 3 ↔ n mod 4 = 1) ∧ (n + (padded_length n - n)) mod 4 = 0.
Proof.
  unfold padded_length. div_lia.
Qed.

Lemma skip_eq_repeat k r : (∀ c, head r = Some c → Ascii.eqb c "=" = false) → skip_eq (repeat "="%char k ++ r) = r.
Proof.
  intros H. induction k as [|k IH]; [|done]. cbn [repeat app]. destruct r as [|c r]; [done|]. cbn [skip_eq].
  by rewrite (H c).
Qed.

Lemma replace_all_repeat a b c k : Ascii.eqb c a = false → replace_all a b (repeat c k) = repeat c k.
Proof. intros H. unfold replace_all. induction k as [|k IH]; [done|]. cbn [repeat map]. by rewrite H, IH. Qed.

Lemma replace_all_app a b s t : replace_all a b (s ++ t) = replace_all a b s ++ replace_all a b t.
Proof. apply map_app. Qed.

Lemma url_digits ss : replace_all "/" "_" (replace_all "+" "-" (map b64_char ss)) = map url_char ss.
Proof. unfold replace_all. by rewrite !map_map. Qed.

Lemma b64_digits ss : replace_all "_" "/" (replace_all "-" "+" (map url_char ss)) = map b64_char ss.
Proof. unfold replace_all. rewrite !map_map. apply map_ext. intros s. apply (url_char_plain s). Qed.

(** The text the encoder writes: a digit per six bits, without padding. *)
Lemma bufferToBase64url_digits bs :
  list_ascii_of_string (bufferToBase64url (Some bs)) = map url_char (sextets bs).
Proof.
  unfold bufferToBase64url, btoa. rewrite list_ascii_of_string_of_list_ascii. unfold drop_trailing_eq.
  rewrite !replace_all_app, url_digits, !replace_all_repeat by done.
  rewrite rev_app_distr, rev_repeat, skip_eq_repeat; [by rewrite rev_involutive|].
  intros c Hc. rewrite <- map_rev in Hc. destruct (rev (sextets bs)) as [|s l]; [done|]. injection Hc as <-.
  apply (url_char_plain s).
Qed.

Lemma mapM_b64 ss : mapM b64_value (map b64_char ss) = Some ss.
Proof. induction ss as [|s ss IH]; [done|]. cbn [map mapM]. by rewrite b64_value_char, IH. Qed.

Lemma mapM_b64_eq s t : mapM b64_value (s ++ "="%char :: t) = None.
Proof. induction s as [|c s IH]; [done|]. cbn [app mapM]. destruct (b64_value c); [cbn; by rewrite IH|done]. Qed.

Lemma drop_padding_digits ss k :
  (length ss + k) mod 4 = 0 →
  drop_padding (map b64_char ss ++ repeat "="%char k) = map b64_char ss ++ repeat "="%char (k - 2).
Proof.
  intros H. unfold drop_padding. rewrite length_app, length_map, repeat_length, H, Nat.eqb_refl, rev_app_distr, rev_repeat.
  destruct k as [|[|k]]; cbn [repeat app Nat.sub].
  - rewrite app_nil_r, <- map_rev. pose proof (rev_involutive ss) as E. destruct (rev ss) as [|s r] eqn:Er; [done|].
    cbn [map]. pose proof (proj1 (b64_char_plain s)) as Hs. destruct (b64_char s) as [[] [] [] [] [] [] [] []]; try done.
  - rewrite app_nil_r, <- map_rev. destruct (rev ss) as [|s r] eqn:Er.
    + destruct ss as [|s ss]; [done|]. cbn [rev] in Er. by apply app_eq_nil in Er as [_ ?].
    + cbn [map]. pose proof (proj1 (b64_char_plain s)) as Hs. rewrite <- map_cons, <- Er, <- map_rev, rev_involutive.
      destruct (b64_char s) as [[] [] [] [] [] [] [] []]; try done.
  - rewrite rev_app_distr, rev_involutive, rev_repeat, Nat.sub_0_r. done.
Qed.

(** The decoder on digits with the padding the bridge restores. *)
Lemma atob_padded ss :
  atob (map b64_char ss ++ repeat "="%char (padded_length (length ss) - length ss))
  = if length ss mod 4 =? 1 then None else Some (octets ss).
Proof.
  set (k := padded_length (length ss) - length ss). destruct (padding_range (length ss)) as (Hk & H3 & H0). fold k in Hk, H3, H0.
  unfold atob, strip_whitespace. rewrite bfilter_all.
  2: { intros c [Hc|Hc]%elem_of_app; apply list_elem_of_In in Hc.
       - apply in_map_iff in Hc as (s & <- & _). by rewrite (proj2 (b64_char_plain s)).
       - by apply repeat_spec in Hc as ->. }
  rewrite drop_padding_digits by done. rewrite length_app, length_map, repeat_length.
  destruct (length ss mod 4 =? 1) eqn:E.
  - apply Nat.eqb_eq, H3 in E. rewrite E. change (repeat "="%char (3 - 2)) with ["="%char].
    rewrite mapM_b64_eq. by destruct (_ =? 1).
  - apply Nat.eqb_neq in E. replace (k - 2) with 0 by lia. cbn [repeat]. rewrite Nat.add_0_r, app_nil_r.
    apply Nat.eqb_neq in E as ->. by rewrite mapM_b64.
Qed.

(** What the bridge reads of a text of digits. *)
Lemma base64urlToBuffer_digits value ss :
  list_ascii_of_string value = map url_char ss →
  base64urlToBuffer value = if length ss mod 4 =? 1 then None else Some (octets ss).
Proof.
  intros E. unfold base64urlToBuffer. rewrite E, b64_digits. unfold pad_end. rewrite !length_map. apply atob_padded.
Qed.

Lemma decode_encoded b : base64urlToBuffer (encoded b) = Some b.
Proof.
  unfold encoded. rewrite (base64urlToBuffer_digits _ (sextets b)) by apply bufferToBase64url_digits.
  rewrite (proj2 (Nat.eqb_neq _ _) (proj1 (length_sextets b))). by rewrite octets_sextets.
Qed.

Definition is_url_char (c : ascii) : bool :=
  let n := N_of_ascii c in
  ((65 <=? n) && (n <=? 90) || (97 <=? n) && (n <=? 122) || (48 <=? n) && (n <=? 57) || (n =? 45) || (n =? 95))%N.

Lemma is_url_char_digit c : is_url_char c = true ↔ ∃ s, c = url_char s.
Proof.
  split; [|intros (s & ->); sextet_cases s]. intros H.
  exists (default (Sextet false false false false false false)
            (b64_value (if Ascii.eqb c "-" then "+"%char else if Ascii.eqb c "_" then "/"%char else c))).
  destruct c as [[] [] [] [] [] [] [] []]; vm_compute in H |- *; congruence.
Qed.

Lemma url_text_digits value : str_forall is_url_char value = true ↔ ∃ ss, list_ascii_of_string value = map url_char ss.
Proof.
  induction value as [|c v IH]; cbn [str_forall list_ascii_of_string].
  - split; [by exists []|done].
  - rewrite andb_true_iff, IH, is_url_char_digit. split.
    + intros [(s & ->) (ss & ->)]. by exists (s :: ss).
    + intros ([|s ss] & E); [done|]. injection E as -> E. split; [by exists s|by exists ss].
Qed.

(** ** Options and credentials *)

(** What the server sends for options with these buffers. *)
Definition descriptor_text (d : Descriptor buffer) : Descriptor string :=
  {| descriptor_id := encoded (descriptor_id d); descriptor_type := descriptor_type d; transports := transports d |}.

Definition creation_text {R} (o : CreationOptions buffer R) : CreationOptions string R :=
  {| creation_challenge := encoded (creation_challenge o);
     creation_user := {| user_id := encoded (user_id (creation_user o)); user_name := user_name (creation_user o);
                         displayName := displayName (creation_user o) |};
     excludeCredentials := map descriptor_text <$> excludeCredentials o; creation_other := creation_other o |}.

Definition request_text {R} (o : RequestOptions buffer R) : RequestOptions string R :=
  {| request_challenge := encoded (request_challenge o); allowCredentials := map descriptor_text <$> allowCredentials o;
     request_other := request_other o |}.

Lemma descriptors_text l : descriptors (map descriptor_text <$> l) = Some l.
Proof.
  destruct l as [l|]; [|done]. cbn. rewrite (mapM_fmap_Some descriptor descriptor_text); [done|].
  intros [i t tr]. unfold descriptor. cbn [descriptor_text descriptor_id]. by rewrite decode_encoded.
Qed.

(** C15. The bytes survive the bridge both ways: what the server sends for some
    options reaches the browser as those options, what the browser's credential holds can
    be read back from the sent texts (an absent user handle is the empty text), and every
    sent text is made of URL-safe digits only. *)
Theorem passkey_roundtrip {R} (create : CreationOptions buffer R) (request : RequestOptions buffer R)
    (att : Attestation buffer) (ass : Assertion buffer (option buffer)) :
  publicKey_creation (creation_text create) = Some create ∧
  publicKey_request (request_text request) = Some request ∧
  (let j := attestation_json att in
   base64urlToBuffer <$> [at_rawId j; at_clientDataJSON j; attestationObject j]
   = Some <$> [at_rawId att; at_clientDataJSON att; attestationObject att]) ∧
  (let j := assertion_json ass in
   base64urlToBuffer <$> [as_rawId j; as_clientDataJSON j; authenticatorData j; signature j; userHandle j]
   = Some <$> [as_rawId ass; as_clientDataJSON ass; authenticatorData ass; signature ass; default [] (userHandle ass)]) ∧
  ∀ b, str_forall is_url_char (bufferToBase64url b) = true.
Proof.
  split_and!.
  - unfold publicKey_creation. destruct create as [ch [u n d] ex other].
    cbn [creation_text creation_challenge creation_user user_id excludeCredentials].
    by rewrite descriptors_text, !decode_encoded.
  - unfold publicKey_request. destruct request as [ch al other]. cbn [request_text request_challenge allowCredentials].
    by rewrite descriptors_text, decode_encoded.
  - cbn zeta. rewrite !fmap_cons. cbn [attestation_json at_rawId at_clientDataJSON attestationObject]. by rewrite !decode_encoded.
  - cbn zeta. rewrite !fmap_cons. cbn [assertion_json as_rawId as_clientDataJSON authenticatorData signature userHandle]. rewrite !decode_encoded. destruct (userHandle ass) as [h|]; [|done].
    change (bufferToBase64url (Some h)) with (encoded h). by rewrite decode_encoded.
  - intros [b|]; [|done]. apply url_text_digits. exists (sextets b). apply bufferToBase64url_digits.
Qed.

(** Which texts of URL-safe digits the bridge accepts: all whose length is
    not one more than a multiple of four, and the bytes are the whole bytes of their bits. *)
Theorem base64url_accepts value :
  str_forall is_url_char value = true →
  (base64urlToBuffer value = None ↔ String.length value mod 4 = 1) ∧
  ∀ b, base64urlToBuffer value = Some b → length b = String.length value * 6 / 8.
Proof.
  intros (ss & E)%url_text_digits. rewrite (base64urlToBuffer_digits _ _ E).
  assert (String.length value = length ss) as ->.
  { rewrite <- (length_map url_char ss), <- E. clear E. induction value as [|c v IH]; [done|]. cbn. by rewrite IH. }
  destruct (length ss mod 4 =? 1) eqn:H; [apply Nat.eqb_eq in H|apply Nat.eqb_neq in H]; (split; [split; done|]); [done|].
  intros b [= <-]. clear E. revert H. induction ss as [|[]|[] []|[] [] []|[] [] [] [] ss IH] using list_ind4; [done..|].
  cbn [length octets]. intros H. assert (length (octets ss) = length ss * 6 / 8) as -> by (apply IH; div_lia). div_lia.
Qed.

Lemma base64url_accepts_witness :
  str_forall is_url_char "-_8a" = true ∧ (base64urlToBuffer "-_8a" = None ↔ String.length "-_8a" mod 4 = 1).
Proof. split; [done|]. apply (base64url_accepts "-_8a"). done. Defined.

(** ** Outcomes *)

Definition cancelled_by (e : thrown) : Prop := e = DOMException "NotAllowedError" ∨ e = DOMException "AbortError".

Lemma isCancellation_iff e : isCancellation e = true ↔ cancelled_by e.
Proof.
  unfold cancelled_by. destruct e as [n|m]; cbn; [|split; [done|by intros [?|?]]].
  rewrite orb_true_iff, !String.eqb_eq. split; intros [H|H]; try (by subst; auto); injection H; auto.
Qed.

(** How a ceremony may end, for the options given to the browser and what it answers. *)
Definition outcome_of {O P J} (options : option O) (browser : O → thrown + credential P) (to_json : P → J) (r : ceremony J) : Prop :=
  match r with
  | PasskeyCancelled => ∃ o, options = Some o ∧ (browser o = inr Other ∨ ∃ e, browser o = inl e ∧ cancelled_by e)
  | Rethrown e => ¬ cancelled_by e ∧ (options = None ∧ e = invalid_character ∨ ∃ o, options = Some o ∧ browser o = inl e)
  | Returned j => ∃ o c, options = Some o ∧ browser o = inr (PublicKey c) ∧ j = to_json c
  end.

Lemma settle_outcome {O P J} (options : option O) (browser : O → thrown + credential P) (to_json : P → J) r :
  settle_ceremony options browser to_json = r ↔ outcome_of options browser to_json r.
Proof.
  unfold settle_ceremony. split.
  - intros <-. destruct options as [o|]; [|split; [by intros [?|?]|by left]].
    destruct (browser o) as [e|[c|]] eqn:E; [destruct (isCancellation e) eqn:H| |].
    + exists o. split; [done|]. right. exists e. by rewrite <- isCancellation_iff.
    + split; [by rewrite <- isCancellation_iff, H|]. right. by exists o.
    + by exists o, c.
    + exists o. split; [done|]. by left.
  - destruct r as [j| |e]; cbn [outcome_of].
    + by intros (o & c & -> & -> & ->).
    + by intros (o & -> & [->|(e & -> & ->%isCancellation_iff)]).
    + intros (Hc & [(-> & ->)|(o & -> & ->)]); [done|]. rewrite <- isCancellation_iff in Hc. by destruct (isCancellation e).
Qed.

(** How a ceremony ends. It is cancelled exactly when the browser's prompt was
    (or gave no public-key credential), it throws exactly what else the browser threw or
    that the options are not base64url, and it returns exactly what a credential holds. *)
Theorem passkey_outcomes {R} create get (options : CreationOptions string R) (request : RequestOptions string R) j j' :
  (createPasskey create options = j ↔ outcome_of (publicKey_creation options) create attestation_json j) ∧
  (getPasskey get request = j' ↔ outcome_of (publicKey_request request) get assertion_json j').
Proof. split; apply settle_outcome. Qed.
