(* ===== verification/Accounts.v ===== *)
(** Accounts and their credentials: the administrator's list
    (frontend/src/features/accounts/accountList.ts), tokens and keys
    (features/account/credentials.ts, apiKeyStatus.ts), the second factor (lib/mfaGate.ts,
    lib/mfaChallenge.ts), the account page's tabs (features/account/accountTabs.ts) and
    notifications (lib/notifications.ts).

    [localeCompare], [toLowerCase], the router's [matchPath] and translations are
    parameters. An instant is its epoch milliseconds, NaN is [None]; counts of days are
    integers, which the quotient of two instants with four-digit years rounds up to. *)

From S2P Require Import Prelude JsString JsDate Json ZevForm Access.
Local Open Scope nat_scope.

(** ** Records of types/api.ts *)

Inductive MfaMethod := MfaTotp | MfaPasskey.

Inductive ComplianceStatus := Compliant | Grace | Overdue.
#[export] Instance ComplianceStatus_eq_dec : EqDecision ComplianceStatus.
Proof. solve_decision. Defined.

Record MfaCompliance := { compliance_status : ComplianceStatus; compliance_deadline : string }.

(** [extends User]: the fields of the account are [account]; [memberships] is required. *)
Record AdminUser := {
  account : User; is_active : bool; admin_memberships : list Membership; mfa_methods : list MfaMethod;
  mfa_compliance : option MfaCompliance; last_login : option string;
}.

Inductive CredentialKind := KindApiKey | KindAnalytics | KindEnergyPush.
#[export] Instance CredentialKind_eq_dec : EqDecision CredentialKind.
Proof. solve_decision. Defined.

Record CredentialScope := {
  scope_zev : option string; scope_zev_name : option string; scope_participant : option string;
  scope_participant_name : option string; scope_metering_point : option string; scope_meter_id : option string;
}.

Record AccessCredential := {
  cred_kind : CredentialKind; cred_id : string; cred_name : string; cred_prefix : string; cred_access : string;
  held_by : string; cred_scope : CredentialScope; cred_created_at : option string; cred_expires_at : option string;
  cred_last_used_at : option string; cred_status : string; cred_actions : list string; manage_url : option string;
}.

Record ApiKey := {
  key_id : string; key_name : string; key_prefix : string; read_only : bool; key_created_at : string;
  expires_at : option string; key_last_used_at : option string; is_expired : bool;
}.

Record TotpDevice := { totp_id : string; confirmed_at : option string; totp_created_at : string }.

Record Passkey := {
  passkey_id : string; passkey_name : string; aaguid : string; passkey_transports : list string;
  passkey_created_at : string; passkey_last_used_at : option string;
}.

Record MfaStatus := {
  totp : option TotpDevice; passkeys : list Passkey; recovery_codes_remaining : Z; required : bool; grace_until : option string;
}.

Inductive ChallengeMethod := MethodTotp | MethodRecoveryCode.
#[export] Instance ChallengeMethod_eq_dec : EqDecision ChallengeMethod.
Proof. solve_decision. Defined.

Record Notification := {
  note_type : string; audience : string; note_zev : string; note_zev_name : string; payload : list (string * json);
  target_type : string; target_id : string; note_created_at : string; read_at : option string;
}.

(** ** Model of accountList.ts *)

Inductive ComplianceFilter := ComplianceAll | ComplianceNeedsTwoFactor.
#[export] Instance ComplianceFilter_eq_dec : EqDecision ComplianceFilter.
Proof. solve_decision. Defined.

(** The role ['all'] is [None]. *)
Record AccountFilters := {
  search : string; filter_role : option UserRole; filter_zevId : string; filter_compliance : ComplianceFilter;
}.

Definition DEFAULT_ACCOUNT_FILTERS : AccountFilters :=
  {| search := ""; filter_role := None; filter_zevId := "all"; filter_compliance := ComplianceAll |}.

Definition needsTwoFactor (a : AdminUser) : bool :=
  match mfa_compliance a with
  | Some c => bool_decide (compliance_status c = Grace) || bool_decide (compliance_status c = Overdue)
  | None => false
  end.

Definition hasActiveFilters (f : AccountFilters) : bool :=
  nonempty (trim (search f)) || bool_decide (is_Some (filter_role f)) || negb (String.eqb (filter_zevId f) "all")
  || negb (bool_decide (filter_compliance f = ComplianceAll)).

Definition accountDisplayName (a : AdminUser) : string :=
  let name := trim (first_name (account a) ++ " " ++ last_name (account a))%string in
  if nonempty name then name else username (account a).

Definition role_matches (f : AccountFilters) (a : AdminUser) : bool :=
  match filter_role f with Some r => bool_decide (role (account a) = r) | None => true end.

Definition zev_matches (f : AccountFilters) (a : AdminUser) : bool :=
  String.eqb (filter_zevId f) "all" || existsb (λ m, String.eqb (member_zev m) (filter_zevId f)) (admin_memberships a).

Definition compliance_matches (f : AccountFilters) (a : AdminUser) : bool :=
  bool_decide (filter_compliance f = ComplianceAll) || needsTwoFactor a.

Section AccountList.
Context (localeCompare : string → string → Z) (toLowerCase : string → string).

Definition search_matches (f : AccountFilters) (a : AdminUser) : bool :=
  let needle := toLowerCase (trim (search f)) in
  negb (nonempty needle)
  || existsb (λ value, includes needle (toLowerCase value)) [accountDisplayName a; username (account a); email (account a)].

Definition name_le (key : AdminUser → string) (l r : AdminUser) : bool := (localeCompare (key l) (key r) <=? 0)%Z.

Definition filterAccounts (accounts : list AdminUser) (f : AccountFilters) : list AdminUser :=
  sort_by (name_le accountDisplayName)
    (bfilter (search_matches f) (bfilter (compliance_matches f) (bfilter (zev_matches f) (bfilter (role_matches f) accounts)))).

Definition linkableAccounts (accounts : list AdminUser) : list AdminUser :=
  sort_by (name_le (λ a, username (account a))) (bfilter (λ a, negb (is_admin (account a))) accounts).
End AccountList.

Definition canDeleteAccount (a : AdminUser) : bool := length (admin_memberships a) =? 0.

Definition canImpersonateAccount (a : AdminUser) : bool := negb (is_admin (account a)) && is_active a.

Record AccountStats := { total : nat; withTwoFactor : nat; guests : nat; stat_needsTwoFactor : nat; neverSignedIn : nat }.

Definition accountStats (accounts : list AdminUser) : AccountStats :=
  {| total := length accounts;
     withTwoFactor := length (bfilter (λ a, 0 <? length (mfa_methods a)) accounts);
     guests := length (bfilter (λ a, negb (is_admin (account a)) && (length (admin_memberships a) =? 0)) accounts);
     stat_needsTwoFactor := length (bfilter needsTwoFactor accounts);
     neverSignedIn := length (bfilter (λ a, negb (bool_decide (is_Some (last_login a)))) accounts) |}.

(** ** Model of credentials.ts *)

(** The filter chip ['all'] is [None]. *)
Definition filterCredentials (credentials : list AccessCredential) (f : option CredentialKind) : list AccessCredential :=
  match f with None => credentials | Some k => bfilter (λ c, bool_decide (cred_kind c = k)) credentials end.

Definition count_kind (k : CredentialKind) (l : list AccessCredential) : nat := length (bfilter (λ c, bool_decide (cred_kind c = k)) l).

Definition credentialCounts (credentials : list AccessCredential) : list (option CredentialKind * nat) :=
  [(None, length credentials); (Some KindApiKey, count_kind KindApiKey credentials);
   (Some KindAnalytics, count_kind KindAnalytics credentials); (Some KindEnergyPush, count_kind KindEnergyPush credentials)].

(** [kind] is ['participant'] exactly when [participant] is present. *)
Record AnalyticsScopeOption := { value : string; zev : string; zevName : string; participant : option string }.

Definition zev_option (id name : string) : AnalyticsScopeOption :=
  {| value := ("zev:" ++ id)%string; zev := id; zevName := name; participant := None |}.

Definition participant_option (m : Membership) (p : MembershipParticipant) : AnalyticsScopeOption :=
  {| value := ("participant:" ++ member_zev m ++ ":" ++ row_id p)%string; zev := member_zev m; zevName := member_zev_name m;
     participant := Some (row_id p) |}.

Definition holds_role (m : Membership) : bool :=
  bool_decide (is_Some (access m)) || (0 <? length (default [] (roles m))).

(** One round of the loop over the memberships. *)
Definition membership_options (m : Membership) : list AnalyticsScopeOption :=
  if zev_disabled m then []
  else ((if holds_role m then [zev_option (member_zev m) (member_zev_name m)] else [])
        ++ map (participant_option m) (bfilter live (participants m)))%list.

Definition analyticsScopeOptions (localeCompare : string → string → Z) (memberships : option (list Membership))
    (allZevs : option (list Zev)) : list AnalyticsScopeOption :=
  let options := foldl (λ os m, os ++ membership_options m)%list [] (default [] memberships) in
  let offered := oset_of (map value options) in
  let rest := sort_by (λ a b, localeCompare (zev_name a) (zev_name b) <=? 0)%Z
                (bfilter (λ z, negb (truthy_str (zev_disabled_at z)) && negb (oset_has ("zev:" ++ zev_id z)%string offered))
                   (default [] allZevs)) in
  foldl (λ os z, os ++ [zev_option (zev_id z) (zev_name z)])%list options rest.

(** ** Model of apiKeyStatus.ts *)

Inductive ApiKeyStatus := KeyActive | KeyExpiring | KeyExpired.

Definition EXPIRY_WARNING_DAYS : Z := 14.

(** The ceiling of a quotient. *)
Definition ceil_div (a b : Z) : Z := (- (- a / b))%Z.

(** [None] for a key that does not expire, [Some None] for NaN. *)
Definition daysUntilExpiry (expires_at : option string) (now : Z) : option (option Z) :=
  if negb (truthy_str expires_at) then None
  else Some ((λ expiry, ceil_div (expiry - now) DAY_MS) <$> date_parse (default "" expires_at)).

Definition apiKeyStatus (expires_at : option string) (now : Z) : ApiKeyStatus :=
  match daysUntilExpiry expires_at now with
  | None => KeyActive
  | Some None => KeyActive
  | Some (Some days) =>
      if (days <=? 0)%Z then KeyExpired else if (days <=? EXPIRY_WARNING_DAYS)%Z then KeyExpiring else KeyActive
  end.

Definition expiryFromDays (days : option Z) (now : Z) : option string :=
  (λ d, to_iso_string (now + d * DAY_MS)) <$> days.

(** ** Model of mfaGate.ts and mfaChallenge.ts *)

Inductive MfaGateState := GatePass | GateGrace | GateHard.

Definition enrolled (s : MfaStatus) : bool :=
  truthy_str (totp s ≫= confirmed_at) || (0 <? length (passkeys s)).

Definition in_grace (s : MfaStatus) (now : Z) : bool :=
  match grace_until s with
  | Some t => match date_parse t with Some d => (now <? d)%Z | None => false end
  | None => false
  end.

Definition mfaGateState (matchPath : string → string → bool) (status : option MfaStatus) (now : Z)
    (dismissed impersonating : bool) (pathname : string) : MfaGateState :=
  match status with
  | None => GatePass
  | Some s =>
      if impersonating then GatePass
      else if negb (required s) || enrolled s || matchPath "/account" pathname then GatePass
      else if in_grace s now then (if dismissed then GatePass else GateGrace)
      else GateHard
  end.

(** The input asks for a recovery code; the user may switch. *)
Definition challengeInput (methods : list ChallengeMethod) (preferRecovery : bool) : bool * bool :=
  let totp := oset_has MethodTotp methods in
  let recovery := oset_has MethodRecoveryCode methods in
  (negb totp || (recovery && preferRecovery), totp && recovery).

(** ** Model of accountTabs.ts *)

Inductive AccountTab := TabProfile | TabSecurity | TabTokens.

Definition ACCOUNT_TABS : list (string * AccountTab) := [("profile", TabProfile); ("security", TabSecurity); ("tokens", TabTokens)].

Definition resolveAccountTab (params : list (string * string)) (mustChangePassword : bool) : AccountTab :=
  let tab := omap_get "tab" params in
  let requested := if bool_decide (tab = Some "api-keys") then Some "tokens" else tab in
  match requested ≫= λ r, omap_get r ACCOUNT_TABS with
  | Some t => t
  | None =>
      if mustChangePassword || bool_decide (is_Some (omap_get "oauth_linked" params))
         || bool_decide (is_Some (omap_get "oauth_error" params))
      then TabSecurity else TabProfile
  end.

(** ** Model of notifications.ts *)

Definition KNOWN_TYPES : list string :=
  ["invoice.sent"; "document.delivered"; "invoice.paid"; "metering.data"; "import.finished"; "import.failed";
   "invoices.generated"; "invoices.generation_failed"].

Definition isKnownNotificationType (type : string) : bool := oset_has type KNOWN_TYPES.

Definition notificationText (t : string → list (string * json) → string) (n : Notification) : string :=
  if negb (isKnownNotificationType (note_type n)) then t "notifications.types.unknown" []
  else t ("notifications.types." ++ note_type n)%string (payload n).

Definition notificationLink (n : Notification) : option string :=
  if negb (isKnownNotificationType (note_type n)) then None
  else if String.eqb (target_type n) "invoice" then
    Some (if negb (String.eqb (audience n) "participant") then ("/billing/invoices/" ++ target_id n)%string else "/me/documents")
  else if String.eqb (target_type n) "document" then Some "/me/documents"
  else if String.eqb (target_type n) "metering_point" then Some "/me/metering-points"
  else if String.eqb (target_type n) "import_log" then Some "/metering/imports"
  else if String.eqb (target_type n) "period" then Some "/billing/invoices"
  else None.

(** ** The account list *)

Section ListFacts.
Context (localeCompare : string → string → Z) (toLowerCase : string → string).
Context (lower_empty : toLowerCase "" = "").
Context (compare_total : ∀ a b, (localeCompare a b <= 0 ∨ localeCompare b a <= 0)%Z).

Definition account_matches (f : AccountFilters) (a : AdminUser) : bool :=
  role_matches f a && zev_matches f a && compliance_matches f a && search_matches toLowerCase f a.

Lemma elem_of_filterAccounts f accounts a :
  a ∈ filterAccounts localeCompare toLowerCase accounts f ↔ a ∈ accounts ∧ account_matches f a = true.
Proof.
  unfold filterAccounts, account_matches. rewrite elem_of_sort_by, !elem_of_bfilter, !andb_true_iff. naive_solver.
Qed.

Lemma filterAccounts_perm f accounts :
  Permutation (filterAccounts localeCompare toLowerCase accounts f) (bfilter (account_matches f) accounts).
Proof.
  unfold filterAccounts. rewrite sort_by_perm, !bfilter_bfilter. erewrite bfilter_ext; [done|].
  intros a _. unfold account_matches. destruct (role_matches f a), (zev_matches f a), (compliance_matches f a); done.
Qed.

Lemma no_filter_matches f a : hasActiveFilters f = false → account_matches f a = true.
Proof.
  unfold hasActiveFilters. rewrite !orb_false_iff. intros [[[Hs Hr] Hz] Hc].
  apply negb_false_iff, String.eqb_eq in Hz. apply negb_false_iff, bool_decide_eq_true in Hc.
  apply bool_decide_eq_false in Hr. unfold nonempty in Hs. apply negb_false_iff, String.eqb_eq in Hs.
  unfold account_matches, role_matches, zev_matches, compliance_matches, search_matches.
  rewrite Hz, Hc, Hs, lower_empty, bool_decide_true, String.eqb_refl by done.
  destruct (filter_role f); [by destruct Hr|done].
Qed.

(** The list shows exactly the accounts that match every filter, each once, by
    name; without an active filter these are all accounts, and the figure of accounts that
    need a second factor is the length of the list that filter shows. *)
Theorem account_list_spec f accounts :
  let shown := filterAccounts localeCompare toLowerCase accounts in
  Sorted (λ a b, name_le localeCompare accountDisplayName a b = true) (shown f) ∧
  Permutation (shown f) (bfilter (account_matches f) accounts) ∧
  (hasActiveFilters f = false → Permutation (shown f) accounts) ∧
  stat_needsTwoFactor (accountStats accounts)
  = length (shown {| search := ""; filter_role := None; filter_zevId := "all"; filter_compliance := ComplianceNeedsTwoFactor |}).
Proof.
  cbn zeta. split_and!.
  - apply sort_by_sorted. intros a b. unfold name_le. rewrite !Z.leb_le. apply compare_total.
  - apply filterAccounts_perm.
  - intros H. rewrite filterAccounts_perm, bfilter_all; [done|]. intros a _. by apply no_filter_matches.
  - rewrite filterAccounts_perm. cbn [accountStats stat_needsTwoFactor]. f_equal. apply bfilter_ext. intros a _.
    unfold account_matches, role_matches, zev_matches, compliance_matches, search_matches. cbn [search filter_role filter_zevId filter_compliance].
    change (trim "") with "". rewrite lower_empty. cbn. by rewrite andb_true_r.
Qed.
End ListFacts.

Definition sample_account (n : Z) (name : string) (r : UserRole) (c : ComplianceStatus) : AdminUser :=
  {| account := {| user_id := n; username := name; email := (name ++ "@zev.ch")%string; first_name := ""; last_name := ""; role := r;
                   must_change_password := false; preferred_zev := None; has_usable_password := None; can_change_email := None;
                   password_recovery_expires_at := None; impersonated_by := None; memberships := None; may_create_zev := None |};
     is_active := true; admin_memberships := []; mfa_methods := []; mfa_compliance := Some {| compliance_status := c; compliance_deadline := "" |};
     last_login := None |}.

Lemma account_list_spec_witness :
  let accounts := [sample_account 1 "vera" RoleUser Overdue; sample_account 2 "anna" RoleAdmin Compliant] in
  map (λ a, user_id (account a)) (filterAccounts byte_order to_lower accounts DEFAULT_ACCOUNT_FILTERS) = [2; 1]%Z ∧
  Permutation (filterAccounts byte_order to_lower accounts DEFAULT_ACCOUNT_FILTERS) accounts.
Proof.
  intros accounts. split; [by vm_compute|].
  apply (account_list_spec byte_order to_lower eq_refl byte_order_total DEFAULT_ACCOUNT_FILTERS accounts). done.
Defined.

(** ** Analytics scopes *)

Lemma foldl_app_flat {A B} (f : A → list B) l acc : foldl (λ os x, os ++ f x)%list acc l = (acc ++ flat_map f l)%list.
Proof. revert acc. induction l as [|x l IH]; intros acc; cbn; [by rewrite app_nil_r|]. by rewrite IH, <- app_assoc. Qed.

Definition own_options (ms : option (list Membership)) : list AnalyticsScopeOption := flat_map membership_options (default [] ms).

Definition offered_zevs (localeCompare : string → string → Z) (ms : option (list Membership)) (zevs : option (list Zev)) : list Zev :=
  sort_by (λ a b, localeCompare (zev_name a) (zev_name b) <=? 0)%Z
    (bfilter (λ z, negb (truthy_str (zev_disabled_at z)) && negb (oset_has ("zev:" ++ zev_id z)%string (oset_of (map value (own_options ms)))))
       (default [] zevs)).

Lemma analyticsScopeOptions_parts cmp ms zevs :
  analyticsScopeOptions cmp ms zevs =
  (own_options ms ++ map (λ z, zev_option (zev_id z) (zev_name z)) (offered_zevs cmp ms zevs))%list.
Proof.
  unfold analyticsScopeOptions. rewrite (foldl_app_flat membership_options (default [] ms) []). cbn [app]. fold (own_options ms).
  rewrite (foldl_app_flat (λ z, [zev_option (zev_id z) (zev_name z)])). done.
Qed.

(** The scopes a membership gives. *)
Lemma elem_of_membership_options m o :
  o ∈ membership_options m ↔
  zev_disabled m = false ∧ (holds_role m = true ∧ o = zev_option (member_zev m) (member_zev_name m) ∨
                            ∃ p, p ∈ participants m ∧ live p = true ∧ o = participant_option m p).
Proof.
  unfold membership_options. destruct (zev_disabled m); [set_solver|]. change (map (participant_option m)) with (fmap (M:=list) (participant_option m)).
  rewrite elem_of_app, list_elem_of_fmap. setoid_rewrite elem_of_bfilter. destruct (holds_role m); set_solver.
Qed.

Lemma str_app_inj_l (a b c : string) : (a ++ b = a ++ c)%string → b = c.
Proof. induction a as [|x a IH]; [done|]. cbn. intros [= E]. by apply IH. Qed.

Lemma str_app_sep_inj c a b x y :
  free_of c a = true → free_of c b = true → (a ++ String c x = b ++ String c y)%string → a = b ∧ x = y.
Proof.
  revert b. induction a as [|d a IH]; intros [|e b] Ha Hb; cbn.
  - by intros [= ->].
  - intros [= <- _]. cbn in Hb. by rewrite Ascii.eqb_refl in Hb.
  - intros [= -> _]. cbn in Ha. by rewrite Ascii.eqb_refl in Ha.
  - intros [= -> E]. cbn in Ha, Hb. apply andb_true_iff in Ha as [_ Ha], Hb as [_ Hb].
    apply IH in E as [-> ->]; done.
Qed.

(** The participant row of a scope, for scopes of one membership. *)
Definition row_id_of (o : AnalyticsScopeOption) : string := default "" (participant o).

Section Scopes.
Context (memberships : option (list Membership)) (zevs : option (list Zev)).
Context (distinct_zevs : NoDup (map member_zev (default [] memberships))).
Context (distinct_rows : ∀ m, m ∈ default [] memberships → NoDup (map row_id (participants m))).
Context (plain_ids : ∀ m, m ∈ default [] memberships → free_of ":" (member_zev m) = true).
Context (distinct_all : NoDup (map zev_id (default [] zevs))).

Lemma value_inj o o' :
  o ∈ own_options memberships → o' ∈ own_options memberships → value o = value o' → o = o'.
Proof.
  intros (m & Hm & Ho)%elem_of_flat_map (m' & Hm' & Ho')%elem_of_flat_map E.
  apply elem_of_membership_options in Ho as (_ & Ho), Ho' as (_ & Ho').
  destruct Ho as [(_ & ->)|(p & Hp & _ & ->)], Ho' as [(_ & ->)|(p' & Hp' & _ & ->)]; cbn in E; try done.
  - injection E as E. by rewrite (NoDup_map_inj _ _ m m' distinct_zevs Hm Hm' E).
  - injection E as E. apply str_app_sep_inj in E as [E E']; [|by apply plain_ids..].
    assert (m = m') as -> by by apply (NoDup_map_inj _ _ m m' distinct_zevs).
    assert (p = p') as -> by by apply (NoDup_map_inj _ _ p p' (distinct_rows m' Hm')). done.
Qed.

Lemma membership_options_zev m o : o ∈ membership_options m → zev o = member_zev m.
Proof. intros (_ & [(_ & ->)|(p & _ & _ & ->)])%elem_of_membership_options; done. Qed.

Lemma own_options_nodup : NoDup (own_options memberships).
Proof.
  unfold own_options. revert distinct_zevs distinct_rows. generalize (default [] memberships). intros ms Hd Hr. clear -Hd Hr.
  induction ms as [|m ms IH]; cbn; [constructor|]. cbn in Hd. apply NoDup_cons in Hd as [Hm Hd]. apply NoDup_app. split_and!.
  - unfold membership_options. destruct (zev_disabled m); [constructor|].
    assert (NoDup (map (participant_option m) (bfilter live (participants m)))) as Hp.
    { apply (NoDup_fmap_1 row_id_of). unfold row_id_of. rewrite <- list_fmap_compose. apply (NoDup_fmap_bfilter row_id), Hr. by left. }
    destruct (holds_role m); [|done]. apply NoDup_cons. split; [|done].
    intros (p & E & _)%list_elem_of_fmap. done.
  - intros o Ho (m' & Hm' & Ho')%elem_of_flat_map. apply membership_options_zev in Ho, Ho'. apply Hm.
    apply (list_elem_of_fmap_2' member_zev _ _ _ Hm'). congruence.
  - apply IH; [done|]. intros m' Hm'. apply Hr. by right.
Qed.

Lemma own_values_nodup : NoDup (map value (own_options memberships)).
Proof.
  apply NoDup_fmap_2_strong; [|apply own_options_nodup]. intros o o' Ho Ho'. by apply value_inj.
Qed.

Lemma elem_of_offered_zevs cmp z :
  z ∈ offered_zevs cmp memberships zevs ↔
  z ∈ default [] zevs ∧ truthy_str (zev_disabled_at z) = false ∧
  ∀ m, m ∈ default [] memberships → member_zev m = zev_id z → zev_disabled m || negb (holds_role m) = true.
Proof.
  unfold offered_zevs. rewrite elem_of_sort_by, elem_of_bfilter, andb_true_iff, !negb_true_iff, oset_has_false, elem_of_oset_of.
  split; intros (Hz & Ht & H); (split; [done|]); (split; [done|]).
  - intros m Hm E. destruct (zev_disabled m) eqn:Hd, (holds_role m) eqn:Hh; try done. exfalso. apply H.
    apply list_elem_of_fmap. exists (zev_option (member_zev m) (member_zev_name m)). rewrite <- E. split; [done|].
    apply elem_of_flat_map. exists m. split; [done|]. apply elem_of_membership_options. auto.
  - intros (o & E & (m & Hm & Ho)%elem_of_flat_map)%list_elem_of_fmap.
    apply elem_of_membership_options in Ho as (Hd & [(Hh & ->)|(p & _ & _ & ->)]); [|done].
    cbn in E. injection E as E. specialize (H m Hm (eq_sym E)). by rewrite Hd, Hh in H.
Qed.

(** The scopes offered for an analytics token: for each enabled community of
    the account, the community itself if the account holds access or a role there and its
    own data for every current participant record; for an administrator also every other
    enabled community. Nothing else is offered, and no two scopes have the same value. *)
Theorem analytics_scopes_exact cmp :
  let options := analyticsScopeOptions cmp memberships zevs in
  NoDup (map value options) ∧
  ∀ o, o ∈ options ↔
    (∃ m, m ∈ default [] memberships ∧ zev_disabled m = false ∧
       (holds_role m = true ∧ o = zev_option (member_zev m) (member_zev_name m) ∨
        ∃ p, p ∈ participants m ∧ live p = true ∧ o = participant_option m p)) ∨
    (∃ z, z ∈ default [] zevs ∧ truthy_str (zev_disabled_at z) = false ∧
       (∀ m, m ∈ default [] memberships → member_zev m = zev_id z → zev_disabled m || negb (holds_role m) = true) ∧
       o = zev_option (zev_id z) (zev_name z)).
Proof.
  cbn zeta. rewrite analyticsScopeOptions_parts. split.
  - rewrite map_app, map_map. apply NoDup_app. split_and!; [apply own_values_nodup| |].
    + intros v Hv (z & -> & Hz)%list_elem_of_fmap. apply elem_of_sort_by, elem_of_bfilter in Hz as [_ Hz].
      apply andb_true_iff in Hz as [_ Hz]. by apply negb_true_iff, oset_has_false in Hz; rewrite elem_of_oset_of in Hz.
    + unfold offered_zevs. rewrite sort_by_perm. cbn [value zev_option]. rewrite <- (map_map zev_id (λ i, "zev:" ++ i)%string).
      apply NoDup_fmap_2; [intros i i' [= E]; done|]. by apply (NoDup_fmap_bfilter zev_id).
  - intros o. rewrite elem_of_app. unfold own_options. rewrite elem_of_flat_map. setoid_rewrite elem_of_membership_options.
    apply or_iff_compat_l. split.
    + intros (z & -> & Hz)%list_elem_of_fmap. apply elem_of_offered_zevs in Hz. exists z. naive_solver.
    + intros (z & Hz & Ht & Hm & ->). apply list_elem_of_fmap. exists z. split; [done|]. by apply elem_of_offered_zevs.
Qed.
End Scopes.

Definition sample_membership (z : string) (disabled : bool) (a : option ZevAccessRole) (rows : list MembershipParticipant) : Membership :=
  {| member_zev := z; member_zev_name := z; zev_disabled := disabled; zev_billing_interval := "monthly"; access := a; roles := None;
     participants := rows |}.

Lemma analytics_scopes_exact_witness :
  let ms := Some [sample_membership "a" false (Some AccessViewer) [{| row_id := "p"; row_valid_from := ""; row_valid_to := None; live := true |}];
                  sample_membership "b" true (Some AccessManager) []] in
  map value (analyticsScopeOptions byte_order ms None) = ["zev:a"; "participant:a:p"] ∧
  NoDup (map value (analyticsScopeOptions byte_order ms None)).
Proof.
  intros ms. split; [by vm_compute|].
  apply (analytics_scopes_exact ms None); [by apply (bool_decide_unpack _)| | |constructor].
  - intros m Hm. repeat (apply elem_of_cons in Hm as [->|Hm]; [by apply (bool_decide_unpack _)|]). by apply elem_of_nil in Hm.
  - intros m Hm. repeat (apply elem_of_cons in Hm as [->|Hm]; [done|]). by apply elem_of_nil in Hm.
Defined.

(** ** Expiry of an API key *)

Lemma ceil_div_le a b k : (0 < b)%Z → (ceil_div a b <= k)%Z ↔ (a <= k * b)%Z.
Proof. intros Hb. unfold ceil_div. split; intros H; Z.div_mod_to_equations; nia. Qed.

(** A key whose expiry is the instant [e] is expired from that instant on,
    flagged during the fourteen days before it, and active before; a key without a readable
    expiry is active. A key made to last [d] days has exactly [d] days left. *)
Theorem api_key_status_instants expires_at now :
  (∀ e, truthy_str expires_at = true → date_parse (default "" expires_at) = Some e →
     (apiKeyStatus expires_at now = KeyExpired ↔ e <= now)%Z ∧
     (apiKeyStatus expires_at now = KeyExpiring ↔ now < e <= now + 14 * DAY_MS)%Z) ∧
  (truthy_str expires_at = false ∨ date_parse (default "" expires_at) = None → apiKeyStatus expires_at now = KeyActive) ∧
  (∀ n k d, (0 <= k < DAY_MS)%Z → iso_range (n + d) → now = (n * DAY_MS + k)%Z →
     daysUntilExpiry (expiryFromDays (Some d) now) now = Some (Some d)).
Proof.
  split_and!.
  - intros e Ht He. unfold apiKeyStatus, daysUntilExpiry, EXPIRY_WARNING_DAYS. rewrite Ht, He. cbn.
    pose proof (ceil_div_le (e - now) DAY_MS 0 eq_refl) as H0. pose proof (ceil_div_le (e - now) DAY_MS 14 eq_refl) as H14.
    destruct (Z.leb_spec (ceil_div (e - now) DAY_MS) 0); [|destruct (Z.leb_spec (ceil_div (e - now) DAY_MS) 14)].
    all: split; split; intros; try done; lia.
  - intros H. unfold apiKeyStatus, daysUntilExpiry. destruct (truthy_str expires_at); [|done].
    destruct H as [?|H]; [done|]. by rewrite H.
  - intros n k d Hk Hn ->. unfold daysUntilExpiry, expiryFromDays. cbn [fmap option_fmap option_map].
    replace (n * DAY_MS + k + d * DAY_MS)%Z with ((n + d) * DAY_MS + k)%Z by lia.
    assert (truthy_str (Some (to_iso_string ((n + d) * DAY_MS + k))) = true) as ->.
    { pose proof (date_parse_to_iso (n + d) k Hn Hk) as E. destruct (to_iso_string _); [by vm_compute in E|done]. }
    change (default "" (Some ?x)) with x. cbn [negb]. rewrite date_parse_to_iso by done. cbn [fmap option_fmap option_map]. do 2 f_equal. unfold ceil_div.
    replace (- ((n + d) * DAY_MS + k - (n * DAY_MS + k)))%Z with (- d * DAY_MS)%Z by lia. rewrite Z.div_mul by done. lia.
Qed.

(** ** The second factor *)

(** The enrolment gate: it is never shown to an impersonating administrator, to
    an account with a factor or that needs none, nor on the account page, where one is
    added. Otherwise it can be dismissed exactly while the deadline is ahead, and once it
    cannot be, it stays so at every later time. *)
Theorem mfa_gate_states matchPath status dismissed pathname now :
  let gate := mfaGateState matchPath (Some status) in
  (∀ d, gate now d true pathname = GatePass) ∧
  (negb (required status) || enrolled status || matchPath "/account" pathname = true → ∀ d i, gate now d i pathname = GatePass) ∧
  (required status = true → enrolled status = false → matchPath "/account" pathname = false →
     (gate now dismissed false pathname = GateHard ↔
        ∀ deadline t, grace_until status = Some deadline → date_parse deadline = Some t → (t <= now)%Z) ∧
     (gate now dismissed false pathname = GateGrace ↔ dismissed = false ∧ in_grace status now = true) ∧
     (gate now dismissed false pathname = GateHard → ∀ later d, (now <= later)%Z → gate later d false pathname = GateHard)).
Proof.
  cbn zeta. unfold mfaGateState. split_and!; [done| |].
  - intros H d []; [done|]. by rewrite H.
  - intros -> -> ->. cbn [negb orb].
    assert (in_grace status now = false ↔ ∀ deadline t, grace_until status = Some deadline → date_parse deadline = Some t → (t <= now)%Z) as Hg.
    { unfold in_grace. destruct (grace_until status) as [g|]; [|split; [done|done]].
      destruct (date_parse g) as [t|] eqn:E; [|split; [intros _ ? ? [= <-]; congruence|done]].
      rewrite Z.ltb_ge. split; [intros ? ? ? [= <-]; congruence|]. intros H. by apply (H g t). }
    rewrite <- Hg. split_and!.
    + destruct (in_grace status now), dismissed; done.
    + destruct (in_grace status now), dismissed; split; naive_solver.
    + intros H later d Hle. assert (in_grace status now = false) as Hn by (destruct (in_grace status now), dismissed; done).
      assert (in_grace status later = false) as ->; [|done]. revert Hn. unfold in_grace.
      destruct (grace_until status) as [g|]; [|done]. destruct (date_parse g); [|done]. rewrite !Z.ltb_ge. lia.
Qed.

(** The second-step form asks only for what the server offered, and lets the
    user switch exactly when both are offered. *)
Theorem challenge_offered methods prefer :
  methods ≠ [] →
  (let asked := if (challengeInput methods prefer).1 then MethodRecoveryCode else MethodTotp in asked ∈ methods) ∧
  ((challengeInput methods prefer).2 = true ↔ MethodTotp ∈ methods ∧ MethodRecoveryCode ∈ methods).
Proof.
  intros Hm. unfold challengeInput. cbn. rewrite andb_true_iff, !oset_has_true. split; [|done].
  destruct (oset_has MethodTotp methods) eqn:E; cbn.
  - apply oset_has_true in E. destruct (oset_has MethodRecoveryCode methods) eqn:E2; [|done]. apply oset_has_true in E2.
    by destruct prefer.
  - apply oset_has_false in E. destruct methods as [|[] l]; [done|set_solver|by left].
Qed.

Lemma challenge_offered_witness :
  [MethodRecoveryCode] ≠ [] ∧ (let asked := if (challengeInput [MethodRecoveryCode] false).1 then MethodRecoveryCode else MethodTotp in
                               asked ∈ [MethodRecoveryCode]).
Proof. split; [done|]. destruct (challenge_offered [MethodRecoveryCode] false) as [H _]; [done|exact H]. Defined.

(** A notification of a participant never leads to the manager's page of an invoice. *)
Lemma participant_invoice_link n :
  audience n = "participant" → target_type n = "invoice" → notificationLink n = None ∨ notificationLink n = Some "/me/documents".
Proof. intros Ha Ht. unfold notificationLink. rewrite Ha, Ht. destruct (isKnownNotificationType (note_type n)); cbn; auto. Qed.

(** The tab of an explicit valid query parameter wins over everything else. *)
Lemma explicit_tab_wins params must r t :
  omap_get "tab" params = Some r → omap_get r ACCOUNT_TABS = Some t → resolveAccountTab params must = t.
Proof.
  intros Hr Ht. unfold resolveAccountTab. rewrite Hr. case_bool_decide as E; [injection E as ->; done|]. cbn [mbind option_bind].
  by rewrite Ht.
Qed.
