(* ===== verification/Drafts.v ===== *)
(** Unsaved input: the draft of a template (frontend/src/lib/useTemplateDraft.ts), what a
    form's controls hold (components/useUnsavedInput.ts) and the guard that asks before
    input is dropped (components/useDraftGuard.ts).

    The template hook is its state with the effect that runs after every change. The
    guard's events are the commits of the form, the actions it is asked to run, the
    router's own navigations and the answers to its question; while the question is open
    the page behind it is inert, so only the browser's Back or Forward can navigate.
    [goes_to] is where an action navigates at once; one that steps back in the history
    ([navigate(-1)]) has none, and its popstate is a [Navigate] event of its own, after the
    flag is down (Sources follows such a step through). *)

From S2P Require Import Prelude JsString.
Local Open Scope nat_scope.

(** ** Model of useTemplateDraft.ts *)

Section Template.
Context {D V : Type} (select : D → V) (equal : V → V → bool).

Record template := { data : option D; busy : bool; draft : option V; saved : option V }.

(** The user's text differs from the last one taken over. *)
Definition edited (s : template) : bool :=
  match saved s, draft s with Some sv, Some d => negb (equal d sv) | _, _ => false end.

(** [value === null || !equal(value, next)]. *)
Definition differs (v : option V) (next : V) : bool := match v with None => true | Some v => negb (equal v next) end.

Definition take_over (v : option V) (next : V) : option V := if differs v next then Some next else v.

Definition effect (s : template) : template :=
  match data s with
  | None => s
  | Some d =>
      if busy s || edited s then s
      else let next := select d in
           {| data := data s; busy := busy s; draft := take_over (draft s) next; saved := take_over (saved s) next |}
  end.

Inductive template_event := Loaded (d : option D) | Busy (b : bool) | Edit (f : option V → option V) | Accept (v : V).

Definition template_change (e : template_event) (s : template) : template :=
  match e with
  | Loaded d => {| data := d; busy := busy s; draft := draft s; saved := saved s |}
  | Busy b => {| data := data s; busy := b; draft := draft s; saved := saved s |}
  | Edit f => {| data := data s; busy := busy s; draft := f (draft s); saved := saved s |}
  | Accept v => {| data := data s; busy := busy s; draft := Some v; saved := Some v |}
  end.

Definition template_step (s : template) (e : template_event) : template := effect (template_change e s).

Definition template_init : template := {| data := None; busy := false; draft := None; saved := None |}.

Definition template_run (es : list template_event) : template := foldl template_step template_init es.

Context (equal_refl : ∀ v, equal v v = true).

Lemma take_over_equal v next : ∃ w, take_over v next = Some w ∧ equal w next = true.
Proof.
  unfold take_over, differs. destruct v as [v|]; [|by exists next]. destruct (equal v next) eqn:E; cbn; [by exists v|by exists next].
Qed.

(** Running the effect again changes nothing: its own updates do not start it over. *)
Lemma effect_settles s : effect (effect s) = effect s.
Proof.
  unfold effect. destruct (data s) as [d|] eqn:Hd; [|by cbv iota; rewrite Hd].
  destruct (busy s || edited s) eqn:Hb; [by cbv iota; rewrite Hd, Hb|]. cbn zeta. cbn [data busy draft saved].
  destruct (take_over_equal (draft s) (select d)) as (v & -> & Hv). destruct (take_over_equal (saved s) (select d)) as (w & -> & Hw).
  case_match; [done|]. unfold take_over, differs. by rewrite Hv, Hw.
Qed.

Lemma template_run_settled es : effect (template_run es) = template_run es.
Proof. destruct es as [|es e _] using rev_ind; [done|]. unfold template_run. rewrite foldl_app. apply effect_settles. Qed.

(** Whatever order the server's data, saves and edits arrive in: an edited text is
    never overwritten by data, a text that is not edited shows the data as soon as no save
    is running, an accepted text counts as saved, and the effect comes to rest. *)
Theorem template_draft_safe es :
  let s := template_run es in
  effect s = s ∧
  (∀ d b, edited s = true →
     draft (template_step s (Loaded d)) = draft s ∧ saved (template_step s (Loaded d)) = saved s ∧
     draft (template_step s (Busy b)) = draft s ∧ saved (template_step s (Busy b)) = saved s) ∧
  (∀ d, data s = Some d → busy s = false → edited s = false →
     ∃ v w, draft s = Some v ∧ saved s = Some w ∧ equal v (select d) = true ∧ equal w (select d) = true) ∧
  (∀ v, busy s = true → draft (template_step s (Accept v)) = Some v ∧ edited (template_step s (Accept v)) = false).
Proof.
  cbn zeta. pose proof (template_run_settled es) as Hs. split_and!; [done| | |].
  - intros d b He. unfold template_step, effect. cbn [template_change data busy].
    assert (∀ d b, edited {| data := d; busy := b; draft := draft (template_run es); saved := saved (template_run es) |} = true) as He' by done.
    rewrite !He', !orb_true_r. destruct d, (data (template_run es)); done.
  - intros d Hd Hb He. rewrite <- Hs. unfold effect. rewrite Hd, Hb, He. cbn [orb draft saved].
    destruct (take_over_equal (draft (template_run es)) (select d)) as (v & -> & Hv).
    destruct (take_over_equal (saved (template_run es)) (select d)) as (w & -> & Hw). by exists v, w.
  - intros v Hb. unfold template_step, effect. cbn [template_change data busy draft saved]. rewrite Hb. cbn [orb].
    destruct (data (template_run es)); cbn; by rewrite equal_refl.
Qed.
End Template.

(** An edit survives a refresh in the background. *)
Lemma template_draft_safe_witness :
  let es := [Loaded (Some "Hello"); Edit (λ _, Some "Hi")]%string in
  let s := template_run (λ d : string, d) String.eqb es in
  edited String.eqb s = true ∧ draft (template_step (λ d, d) String.eqb s (Loaded (Some "Other"%string))) = Some "Hi"%string.
Proof.
  cbn zeta. split; [reflexivity|].
  destruct (template_draft_safe (λ d : string, d) String.eqb String.eqb_refl [Loaded (Some "Hello"); Edit (λ _, Some "Hi")]%string) as (_ & H & _).
  destruct (H (Some "Other"%string) true eq_refl) as (Hd & _). exact Hd.
Defined.

(** ** Model of useUnsavedInput.ts *)

(** A form control as the source tells them apart: an input by its type, or a select or text area. *)
Inductive control :=
  | InputControl (type : string) (checked : bool) (files : list (string * Z)) (value : string)
  | ValueControl (value : string).

Definition INERT_INPUT_TYPES : list string := ["button"; "submit"; "reset"; "image"]%string.

(** An element of the array before [JSON.stringify], which keeps different ones apart. *)
Inductive held := HeldNull | HeldBool (b : bool) | HeldFiles (l : list string) | HeldText (s : string).
#[export] Instance held_eq_dec : EqDecision held.
Proof. solve_decision. Defined.

Definition held_by (c : control) : held :=
  match c with
  | ValueControl value => HeldText value
  | InputControl type checked files value =>
      if oset_has type INERT_INPUT_TYPES then HeldNull
      else if String.eqb type "checkbox" || String.eqb type "radio" then HeldBool checked
      else if String.eqb type "file" then HeldFiles ((λ f, f.1 ++ ":" ++ Zstr f.2)%string <$> files)
      else HeldText value
  end.

Definition snapshotControls (root : list control) : list held := held_by <$> root.

(** [capture]: at the first keystroke or pointer press. *)
Definition capture (root : list control) (baseline : option (list held)) : option (list held) :=
  match baseline with None => Some (snapshotControls root) | Some b => Some b end.

(** The callback the hook returns; [root] is [None] when the element is gone. *)
Definition unsaved (root : option (list control)) (baseline : option (list held)) : bool :=
  match root, baseline with
  | Some root, Some b => negb (bool_decide (snapshotControls root = b))
  | _, _ => false
  end.

(** What happens in the form: it is rendered with these controls, or touched. *)
Inductive form_event := Rendered (root : list control) | Touched.

Definition form_step (s : list control * option (list held)) (e : form_event) : list control * option (list held) :=
  match e with Rendered root => (root, s.2) | Touched => (s.1, capture s.1 s.2) end.

Definition form_run (root : list control) (es : list form_event) : list control * option (list held) := foldl form_step (root, None) es.

Definition is_touch (e : form_event) : bool := match e with Touched => true | Rendered _ => false end.

Lemma form_run_captured root b es : (foldl form_step (root, Some b) es).2 = Some b.
Proof. revert root. induction es as [|[r|] es IH]; intros root; cbn; [done|apply IH|apply IH]. Qed.

Lemma form_run_untouched root es : existsb is_touch es = false → (form_run root es).2 = None.
Proof.
  unfold form_run. revert root. induction es as [|[r|] es IH]; intros root; cbn; [done|apply IH|done].
Qed.

(** A form counts as changed only after it was touched, and then exactly while
    its controls hold something else than when it was first touched; what is prefilled or
    loaded before that never counts, and neither do its buttons. *)
Theorem unsaved_since_touch root before after now :
  existsb is_touch before = false →
  let at_touch := (form_run root before).1 in
  unsaved (Some now) (form_run root before).2 = false ∧
  (unsaved (Some now) (form_run root (before ++ Touched :: after)).2 = true ↔ snapshotControls now ≠ snapshotControls at_touch) ∧
  ∀ pre post type c f v c' f' v', type ∈ INERT_INPUT_TYPES →
    unsaved (Some (pre ++ InputControl type c f v :: post)) (form_run root (before ++ Touched :: after)).2
    = unsaved (Some (pre ++ InputControl type c' f' v' :: post)) (form_run root (before ++ Touched :: after)).2.
Proof.
  intros Hb. cbn zeta. assert ((form_run root (before ++ Touched :: after)).2 = Some (snapshotControls (form_run root before).1)) as ->.
  { unfold form_run. rewrite foldl_app. cbn [foldl]. pose proof (form_run_untouched root before Hb) as Hn. unfold form_run in Hn.
    unfold form_step at 2. rewrite Hn. cbn [capture]. apply form_run_captured. }
  split_and!.
  - by rewrite form_run_untouched.
  - cbn [unsaved]. rewrite negb_true_iff, bool_decide_eq_false. done.
  - intros pre post type c f v c' f' v' Ht. cbn [unsaved]. unfold snapshotControls. rewrite !fmap_app, !fmap_cons.
    cbn [held_by]. by rewrite (proj2 (oset_has_true _ _) Ht).
Qed.

Lemma unsaved_since_touch_witness :
  existsb is_touch [Rendered [ValueControl "prefilled"]] = false ∧
  (unsaved (Some [ValueControl "typed"]) (form_run [] [Rendered [ValueControl "prefilled"]; Touched]).2 = true ↔
   snapshotControls [ValueControl "typed"] ≠ snapshotControls [ValueControl "prefilled"]).
Proof.
  split; [reflexivity|]. apply (unsaved_since_touch [] [Rendered [ValueControl "prefilled"]] [] [ValueControl "typed"]). reflexivity.
Defined.

(** ** Model of useDraftGuard.ts *)

(** An action the guard is asked to run; [goes_to] is where it navigates, if it does. *)
Record action := { action_id : nat; goes_to : option nat }.

(** What runs when the question is answered with discard: the action, or the router's
    [blocker.proceed()] to the blocked location. *)
Inductive pending := PendingAction (a : action) | PendingNavigation (to : nat).

(** The question: what it holds back, and whether its text says a save is running. *)
Record question_state := { holds : pending; says_saving : bool }.

(** Something that happened: was there unsaved input, and had the user agreed to drop it. *)
Record entry := { done_what : pending; was_active : bool; agreed : bool }.

Record guard := {
  dirty : bool; saving : bool; bypass : bool; location : nat; blocked : option nat; question : option question_state;
  log : list entry;
}.

Definition isActive (s : guard) : bool := dirty s || saving s.

Definition with_bypass (b : bool) (s : guard) : guard :=
  {| dirty := dirty s; saving := saving s; bypass := b; location := location s; blocked := blocked s; question := question s; log := log s |}.

(** [allowNavigation]; the microtask lowers the flag before the next event. *)
Definition allowNavigation (change : guard → guard) (s : guard) : guard := with_bypass false (change (with_bypass true s)).

Definition ask (p : pending) (s : guard) : guard :=
  {| dirty := dirty s; saving := saving s; bypass := bypass s; location := location s; blocked := blocked s;
     question := Some {| holds := p; says_saving := saving s |}; log := log s |}.

Definition goto (to : nat) (unblock : bool) (e : entry) (s : guard) : guard :=
  {| dirty := dirty s; saving := saving s; bypass := bypass s; location := to; blocked := if unblock then None else blocked s;
     question := question s; log := (log s ++ [e])%list |}.

Definition block (to : nat) (s : guard) : guard :=
  {| dirty := dirty s; saving := saving s; bypass := bypass s; location := location s; blocked := Some to; question := question s; log := log s |}.

(** The router navigates, unless the blocker's function says no; the effect asks once per block. *)
Definition navigate (to : nat) (e : entry) (s : guard) : guard :=
  if isActive s && negb (bypass s)
  then match blocked s with Some _ => block to s | None => ask (PendingNavigation to) (block to s) end
  else goto to false e s.

Definition perform (ok : bool) (p : pending) (s : guard) : guard :=
  let e := {| done_what := p; was_active := isActive s; agreed := ok |} in
  match p with
  | PendingAction a =>
      match goes_to a with
      | Some to => navigate to e s
      | None => {| dirty := dirty s; saving := saving s; bypass := bypass s; location := location s; blocked := blocked s;
                   question := question s; log := (log s ++ [e])%list |}
      end
  | PendingNavigation to => goto to true e s
  end.

Definition run (a : action) (s : guard) : guard :=
  if isActive s then ask (PendingAction a) s else allowNavigation (perform false (PendingAction a)) s.

Definition with_question (q : option question_state) (b : option nat) (s : guard) : guard :=
  {| dirty := dirty s; saving := saving s; bypass := bypass s; location := location s; blocked := b; question := q; log := log s |}.

Definition onConfirm (s : guard) : guard :=
  match question s with
  | Some q => allowNavigation (perform true (holds q)) (with_question None (blocked s) s)
  | None => s
  end.

Definition onCancel (s : guard) : guard :=
  match question s with
  | Some q => with_question None (match holds q with PendingNavigation _ => None | PendingAction _ => blocked s end) s
  | None => s
  end.

(** The event is prevented: the browser warns. *)
Definition onBeforeUnload (s : guard) : bool := isActive s.

Inductive guard_event := Commit (d sv : bool) | Run (a : action) | Navigate (to : nat) | Confirm | Cancel.

Definition guard_step (s : guard) (e : guard_event) : guard :=
  match e with
  | Commit d sv => {| dirty := d; saving := sv; bypass := bypass s; location := location s; blocked := blocked s;
                      question := question s; log := log s |}
  | Run a => match question s with Some _ => s | None => run a s end
  | Navigate to => navigate to {| done_what := PendingNavigation to; was_active := isActive s; agreed := false |} s
  | Confirm => onConfirm s
  | Cancel => onCancel s
  end.

Definition guard_init (at_ : nat) : guard :=
  {| dirty := false; saving := false; bypass := false; location := at_; blocked := None; question := None; log := [] |}.

Definition guard_run (at_ : nat) (es : list guard_event) : guard := foldl guard_step (guard_init at_) es.

(** ** What the guard lets pass *)

Definition destination (e : entry) : option nat :=
  match done_what e with PendingAction a => goes_to a | PendingNavigation to => Some to end.

Definition last_destination (at_ : nat) (l : list entry) : nat := foldl (λ here e, default here (destination e)) at_ l.

Definition log_ok (at_ : nat) (s : guard) : Prop :=
  Forall (λ e, was_active e = true → agreed e = true) (log s) ∧ location s = last_destination at_ (log s).

(** A blocked navigation is the one the open question is about. *)
Definition guard_inv (at_ : nat) (s : guard) : Prop :=
  bypass s = false ∧ log_ok at_ s ∧
  (is_Some (blocked s) ↔ ∃ q to, question s = Some q ∧ holds q = PendingNavigation to).

Lemma log_ok_snoc at_ s s' e :
  log_ok at_ s → log s' = (log s ++ [e])%list → (was_active e = true → agreed e = true) →
  location s' = default (location s) (destination e) → log_ok at_ s'.
Proof.
  intros [Hl Hloc] Hs He Hto. split; rewrite Hs; [by apply Forall_app; split; [|constructor]|].
  unfold last_destination in *. rewrite foldl_app. cbn. by rewrite <- Hloc.
Qed.

(** Inside [allowNavigation] the router lets a navigation pass. *)
Lemma perform_inv at_ s ok p :
  log_ok at_ s → question s = None → (isActive s = true → ok = true) →
  match p with PendingAction _ => blocked s = None | PendingNavigation _ => True end →
  guard_inv at_ (allowNavigation (perform ok p) s).
Proof.
  intros Hl Hq Hok Hb. unfold allowNavigation, perform. destruct p as [a|to].
  - unfold navigate. cbn [with_bypass bypass isActive dirty saving]. rewrite andb_false_r.
    destruct (goes_to a) as [to|] eqn:Hg; (split_and!; [done|eapply (log_ok_snoc at_ s); try done; unfold destination; cbn; by rewrite Hg|]);
      cbn; rewrite Hq, Hb; (split; [by intros []|by intros (? & ? & ? & _)]).
  - split_and!; [done|by eapply (log_ok_snoc at_ s)|]. cbn. rewrite Hq. split; [by intros []|by intros (? & ? & ? & _)].
Qed.

Lemma not_blocked at_ s : guard_inv at_ s → (∀ q to, question s = Some q → holds q ≠ PendingNavigation to) → blocked s = None.
Proof. intros (_ & _ & Hb) H. apply eq_None_not_Some. rewrite Hb. intros (q & to & Hq & Hh). by apply (H q to). Qed.

Lemma guard_step_inv at_ s e : guard_inv at_ s → guard_inv at_ (guard_step s e).
Proof.
  intros Hs. pose proof Hs as (Hy & Hl & Hb). destruct e as [d sv|a|to| |]; cbn [guard_step].
  - done.
  - destruct (question s) as [q|] eqn:Hq; [done|]. assert (blocked s = None) as Hn by (apply (not_blocked at_); [done|]; intros ? ?; by rewrite Hq).
    unfold run. destruct (isActive s) eqn:Ha; [|by apply perform_inv; rewrite ?Ha]. split_and!; [done|done|]. cbn. rewrite Hn.
    split; [by intros []|by intros (q & to & [= <-] & ?)].
  - unfold navigate. rewrite Hy. destruct (isActive s) eqn:Ha; cbn [andb negb].
    + destruct (blocked s) as [b|] eqn:Hbl; (split_and!; [done|done|]); cbn.
      * split; [|by eexists]. intros _. apply Hb. by eexists.
      * split; [intros _; by eexists _, to|by eexists].
    + split_and!; [done|by eapply (log_ok_snoc at_ s)|]. done.
  - unfold onConfirm. destruct (question s) as [q|] eqn:Hq; [|done]. apply perform_inv; [done|done|done|].
    destruct (holds q) as [a|to] eqn:Hh; [|done]. apply (not_blocked at_ s); [done|]. intros q' to. rewrite Hq. intros [= <-]. by rewrite Hh.
  - unfold onCancel. destruct (question s) as [q|] eqn:Hq; [|done]. split_and!; [done|done|]. cbn [with_question blocked question].
    assert (match holds q with PendingNavigation _ => None | PendingAction _ => blocked s end = None) as ->.
    { destruct (holds q) as [a|to] eqn:Hh; [|done]. apply (not_blocked at_ s); [done|]. intros q' to. rewrite Hq. intros [= <-]. by rewrite Hh. }
    split; [by intros []|by intros (? & ? & ? & _)].
Qed.

Lemma guard_run_inv at_ es : guard_inv at_ (guard_run at_ es).
Proof.
  unfold guard_run. assert (guard_inv at_ (guard_init at_)) as H.
  { split_and!; [done|by split; [constructor|]|]. cbn. split; [by intros []|by intros (? & ? & ? & _)]. }
  revert H. generalize (guard_init at_). induction es as [|e es IH]; intros s Hs; [done|]. by apply IH, guard_step_inv.
Qed.

(** C11. However edits, saves, actions and navigations interleave: nothing that drops
    unsaved input happens without the user's agreement, the page is where the last thing
    that happened went, the flag that lets a navigation pass is down between events, and a
    navigation is held back exactly while the question is about it. Staying changes neither
    the input nor the page, and without unsaved input nothing is asked. *)
Theorem draft_guard_safe at_ es :
  let s := guard_run at_ es in
  (∀ e, e ∈ log s → was_active e = true → agreed e = true) ∧
  location s = last_destination at_ (log s) ∧
  bypass s = false ∧
  (is_Some (blocked s) ↔ ∃ q to, question s = Some q ∧ holds q = PendingNavigation to) ∧
  (dirty (onCancel s) = dirty s ∧ saving (onCancel s) = saving s ∧ location (onCancel s) = location s ∧ log (onCancel s) = log s ∧
   blocked (onCancel s) = None) ∧
  (isActive s = false → ∀ a to, question (guard_step s (Run a)) = question s ∧ question (guard_step s (Navigate to)) = question s) ∧
  onBeforeUnload s = isActive s.
Proof.
  cbn zeta. pose proof (guard_run_inv at_ es) as Hs. pose proof Hs as (Hy & [Hl Hloc] & Hb). rewrite Forall_forall in Hl. split_and!; try done.
  - unfold onCancel. by destruct (question _).
  - unfold onCancel. by destruct (question _).
  - unfold onCancel. by destruct (question _).
  - unfold onCancel. by destruct (question _).
  - pose proof (guard_step_inv at_ _ Cancel Hs) as (_ & _ & Hc). cbn [guard_step] in Hc. apply eq_None_not_Some. rewrite Hc.
    unfold onCancel. destruct (question (guard_run at_ es)) as [q|] eqn:Hq; [by intros (? & ? & ? & _)|]. rewrite Hq. by intros (? & ? & ? & _).
  - intros Ha a to. cbn [guard_step]. unfold run, navigate. rewrite Ha. cbn [andb]. split; [|done].
    destruct (question (guard_run at_ es)) as [q|] eqn:Hq; [done|]. unfold allowNavigation, perform, navigate.
    cbn [with_bypass bypass isActive dirty saving]. rewrite andb_false_r. by destruct (goes_to a).
Qed.
