(* ===== verification/SignIn.v ===== *)
(** The pages a visitor signs in with: pages/LoginPage.tsx with its second factor, passkey,
    provider and registration, pages/MagicSignInPage.tsx, and pages/VerifyEmailPage.tsx with
    the first password and the first community.

    Each page is a transition system: one step is a handler of its last render, the effect of
    its mount, or an answer. A flight is a request waited for; [login] and the like are the
    calls of the session (Session), of which a page sees the outcome. [issued] holds the
    challenges the server handed out, [visited] where the page navigated, [redirects] the
    addresses of providers; they are kept for the statements. Texts are [t] of a key. *)

From S2P Require Import Prelude JsString JsNumber BillingPeriod Json ApiErrors Iban Accounts.
Local Open Scope string_scope.

Section SignIn.
Context (t : string → list (string * json) → string).

(** ** The login page *)

Inductive login_flight :=
  | PasswordLogin (email password : string)
  | Challenge (mfaToken code : string) (useRecoveryCode : bool)
  | PasskeyLogin (email : option string)
  | OAuthInitiate (slug : string)
  | Registration (email : string).

Record login_page := {
  email : string; password : string; error : option string; loading : bool; oauthLoading : option string; passkeyLoading : bool;
  pendingMfa : option (string * list ChallengeMethod); mfaCode : string; preferRecovery : bool; showModal : bool; regEmail : string;
  regError : option string; regLoading : bool; regSuccess : option string; oauth_error : option string; handledOauthError : bool;
  login_flights : list login_flight; issued : list string; visited : list string; redirects : list string;
}.

Definition login_init (oauthError : option string) : login_page :=
  {| email := ""; password := ""; error := None; loading := false; oauthLoading := None; passkeyLoading := false; pendingMfa := None; mfaCode := "";
     preferRecovery := false; showModal := false; regEmail := ""; regError := None; regLoading := false; regSuccess := None;
     oauth_error := oauthError; handledOauthError := false; login_flights := []; issued := []; visited := []; redirects := [] |}.

Definition upd_form (e p : string) (s : login_page) : login_page :=
  {| email := e; password := p; error := error s; loading := loading s; oauthLoading := oauthLoading s; passkeyLoading := passkeyLoading s;
     pendingMfa := pendingMfa s; mfaCode := mfaCode s; preferRecovery := preferRecovery s; showModal := showModal s; regEmail := regEmail s;
     regError := regError s; regLoading := regLoading s; regSuccess := regSuccess s; oauth_error := oauth_error s;
     handledOauthError := handledOauthError s; login_flights := login_flights s; issued := issued s; visited := visited s; redirects := redirects s |}.

Definition upd_status (e : option string) (l : bool) (o : option string) (p : bool) (s : login_page) : login_page :=
  {| email := email s; password := password s; error := e; loading := l; oauthLoading := o; passkeyLoading := p;
     pendingMfa := pendingMfa s; mfaCode := mfaCode s; preferRecovery := preferRecovery s; showModal := showModal s; regEmail := regEmail s;
     regError := regError s; regLoading := regLoading s; regSuccess := regSuccess s; oauth_error := oauth_error s;
     handledOauthError := handledOauthError s; login_flights := login_flights s; issued := issued s; visited := visited s; redirects := redirects s |}.

Definition upd_mfa (m : option (string * list ChallengeMethod)) (c : string) (r : bool) (iss : list string) (s : login_page) : login_page :=
  {| email := email s; password := password s; error := error s; loading := loading s; oauthLoading := oauthLoading s;
     passkeyLoading := passkeyLoading s; pendingMfa := m; mfaCode := c; preferRecovery := r; showModal := showModal s; regEmail := regEmail s;
     regError := regError s; regLoading := regLoading s; regSuccess := regSuccess s; oauth_error := oauth_error s;
     handledOauthError := handledOauthError s; login_flights := login_flights s; issued := iss; visited := visited s; redirects := redirects s |}.

Definition upd_register (open : bool) (e : string) (err : option string) (l : bool) (ok : option string) (s : login_page) : login_page :=
  {| email := email s; password := password s; error := error s; loading := loading s; oauthLoading := oauthLoading s;
     passkeyLoading := passkeyLoading s; pendingMfa := pendingMfa s; mfaCode := mfaCode s; preferRecovery := preferRecovery s; showModal := open;
     regEmail := e; regError := err; regLoading := l; regSuccess := ok; oauth_error := oauth_error s;
     handledOauthError := handledOauthError s; login_flights := login_flights s; issued := issued s; visited := visited s; redirects := redirects s |}.

Definition upd_oauth (o : option string) (h : bool) (s : login_page) : login_page :=
  {| email := email s; password := password s; error := error s; loading := loading s; oauthLoading := oauthLoading s;
     passkeyLoading := passkeyLoading s; pendingMfa := pendingMfa s; mfaCode := mfaCode s; preferRecovery := preferRecovery s; showModal := showModal s;
     regEmail := regEmail s; regError := regError s; regLoading := regLoading s; regSuccess := regSuccess s; oauth_error := o;
     handledOauthError := h; login_flights := login_flights s; issued := issued s; visited := visited s; redirects := redirects s |}.

Definition upd_flights (fs : list login_flight) (vs rs : list string) (s : login_page) : login_page :=
  {| email := email s; password := password s; error := error s; loading := loading s; oauthLoading := oauthLoading s;
     passkeyLoading := passkeyLoading s; pendingMfa := pendingMfa s; mfaCode := mfaCode s; preferRecovery := preferRecovery s; showModal := showModal s;
     regEmail := regEmail s; regError := regError s; regLoading := regLoading s; regSuccess := regSuccess s; oauth_error := oauth_error s;
     handledOauthError := handledOauthError s; login_flights := fs; issued := issued s; visited := vs; redirects := rs |}.

Definition set_error (e : option string) (s : login_page) : login_page := upd_status e (loading s) (oauthLoading s) (passkeyLoading s) s.
Definition set_loading (b : bool) (s : login_page) : login_page := upd_status (error s) b (oauthLoading s) (passkeyLoading s) s.
Definition send_login (f : login_flight) (s : login_page) : login_page := upd_flights (login_flights s ++ [f])%list (visited s) (redirects s) s.
Definition navigate (path : string) (s : login_page) : login_page := upd_flights (login_flights s) (visited s ++ [path])%list (redirects s) s.

(** [user.must_change_password ? '/account' : '/']. *)
Definition landing (must_change_password : bool) : string := if must_change_password then "/account" else "/".

Definition mfaInput (s : login_page) : bool * bool :=
  challengeInput (match pendingMfa s with Some (_, ms) => ms | None => [MethodTotp; MethodRecoveryCode] end) (preferRecovery s).
Definition useRecoveryCode (s : login_page) : bool := (mfaInput s).1.

(** The effect that tells why a provider's login came back. *)
Definition oauth_effect (s : login_page) : login_page :=
  if handledOauthError s then s
  else match oauth_error s with
  | None => s
  | Some slug =>
      if negb (nonempty slug) then s
      else let k := "auth.oauth.errors." ++ slug in let translated := t k [] in
           let text := if String.eqb translated k then t "auth.oauth.errors.generic" [("code", JStr slug)] else translated in
           set_error (Some text) (upd_oauth None true s)
  end.

(** The form's own values are read, as a password manager may have filled them. *)
Definition handleSubmit (formEmail formPassword : string) (s : login_page) : login_page :=
  let e := trim formEmail in
  send_login (PasswordLogin e formPassword) (upd_form e formPassword (upd_status None true (oauthLoading s) (passkeyLoading s) s)).

Definition handleMfaSubmit (s : login_page) : login_page :=
  match pendingMfa s with
  | None => s
  | Some (mfaToken, _) => send_login (Challenge mfaToken (mfaCode s) (useRecoveryCode s)) (upd_status None true (oauthLoading s) (passkeyLoading s) s)
  end.

Definition cancelMfaChallenge (s : login_page) : login_page := set_error None (upd_mfa None "" false (issued s) s).

Definition toggleRecovery (s : login_page) : login_page := set_error None (upd_mfa (pendingMfa s) "" (negb (preferRecovery s)) (issued s) s).

Definition handlePasskeyLogin (s : login_page) : login_page :=
  let e := trim (email s) in
  send_login (PasskeyLogin (if nonempty e then Some e else None)) (upd_status None (loading s) (oauthLoading s) true s).

Definition handleOAuthLogin (slug : string) (s : login_page) : login_page :=
  send_login (OAuthInitiate slug) (upd_status None (loading s) (Some slug) (passkeyLoading s) s).

Definition handleRegister (s : login_page) : login_page :=
  send_login (Registration (regEmail s)) (upd_register (showModal s) (regEmail s) None true (regSuccess s) s).

Definition openModal (s : login_page) : login_page := upd_register true "" None (regLoading s) None s.
Definition closeModal (s : login_page) : login_page := upd_register false (regEmail s) (regError s) (regLoading s) (regSuccess s) s.

(** What an answer may be; a passkey prompt may also be dismissed. *)
Inductive login_answer :=
  | SignedIn (must_change_password : bool) | MfaRequired (mfaToken : string) (methods : list ChallengeMethod) | Accepted | RedirectTo (url : string)
  | Dismissed | Failed (e : caught).

Definition login_outcome (f : login_flight) (a : login_answer) (s : login_page) : login_page :=
  match f with
  | PasswordLogin _ _ =>
      set_loading false
        match a with
        | SignedIn b => navigate (landing b) s
        | MfaRequired tok ms => upd_mfa (Some (tok, ms)) (mfaCode s) (preferRecovery s) (issued s ++ [tok])%list s
        | _ => set_error (Some (t "auth.invalid" [])) s
        end
  | Challenge _ _ recovery =>
      set_loading false
        match a with
        | SignedIn b => navigate (landing b) s
        | _ => set_error (Some (t (if recovery then "auth.mfa.invalidRecoveryCode" else "auth.mfa.invalidCode") [])) s
        end
  | PasskeyLogin _ =>
      let s := match a with
               | SignedIn b => navigate (landing b) s
               | Dismissed => s
               | _ => set_error (Some (t "auth.passkey.failed" [])) s
               end in
      upd_status (error s) (loading s) (oauthLoading s) false s
  | OAuthInitiate _ =>
      match a with
      | RedirectTo url => upd_flights (login_flights s) (visited s) (redirects s ++ [url])%list s
      | _ => upd_status (Some (t "auth.oauth.errors.initFailed" [])) (loading s) None (passkeyLoading s) s
      end
  | Registration _ =>
      match a with
      | Accepted => upd_register (showModal s) (regEmail s) (regError s) false (Some (t "auth.register.success" [])) s
      | Failed e => upd_register (showModal s) (regEmail s) (Some (formatApiError e "Request failed.")) false (regSuccess s) s
      | _ => upd_register (showModal s) (regEmail s) (Some (formatApiError OtherError "Request failed.")) false (regSuccess s) s
      end
  end.

Definition login_answered (i : nat) (a : login_answer) (s : login_page) : login_page :=
  match login_flights s !! i with
  | None => s
  | Some f => login_outcome f a (upd_flights (delete i (login_flights s)) (visited s) (redirects s) s)
  end.

Inductive login_event :=
  | MountEffect | TypeForm (e p : string) | SubmitLogin (formEmail formPassword : string) | TypeCode (c : string) | SubmitMfa | BackToPassword
  | ToggleRecovery | ClickPasskey | ClickProvider (slug : string) | OpenRegister | CloseRegister | TypeRegister (e : string) | SubmitRegister
  | LoginAnswered (i : nat) (a : login_answer).

(** A control acts only while it is rendered and enabled. *)
Definition login_step (s : login_page) (e : login_event) : login_page :=
  let mfa := bool_decide (is_Some (pendingMfa s)) in
  match e with
  | MountEffect => oauth_effect s
  | TypeForm e p => if mfa then s else upd_form e p s
  | SubmitLogin e p => if mfa || loading s then s else handleSubmit e p s
  | TypeCode c => if mfa then upd_mfa (pendingMfa s) c (preferRecovery s) (issued s) s else s
  | SubmitMfa => if negb mfa || loading s then s else handleMfaSubmit s
  | BackToPassword => if mfa then cancelMfaChallenge s else s
  | ToggleRecovery => if mfa && (mfaInput s).2 then toggleRecovery s else s
  | ClickPasskey => if passkeyLoading s || (negb mfa && loading s) then s else handlePasskeyLogin s
  | ClickProvider slug => if mfa || bool_decide (is_Some (oauthLoading s)) then s else handleOAuthLogin slug s
  | OpenRegister => openModal s
  | CloseRegister => closeModal s
  | TypeRegister e => if showModal s then upd_register true e (regError s) (regLoading s) (regSuccess s) s else s
  | SubmitRegister => if negb (showModal s) || regLoading s || bool_decide (is_Some (regSuccess s)) then s else handleRegister s
  | LoginAnswered i a => login_answered i a s
  end.

Definition login_run (oauthError : option string) (es : list login_event) : login_page := foldl login_step (login_init oauthError) es.

(** ** What the login page promises *)

Definition checks_credentials (f : login_flight) : bool := match f with PasswordLogin _ _ | Challenge _ _ _ => true | _ => false end.
Definition is_passkey (f : login_flight) : bool := match f with PasskeyLogin _ => true | _ => false end.
Definition is_provider (f : login_flight) : bool := match f with OAuthInitiate _ => true | _ => false end.
Definition is_registration (f : login_flight) : bool := match f with Registration _ => true | _ => false end.

Definition running (p : login_flight → bool) (s : login_page) : nat := length (bfilter p (login_flights s)).
Definition one (b : bool) : nat := if b then 1 else 0.

Definition token_issued (iss : list string) (f : login_flight) : Prop := match f with Challenge tok _ _ => tok ∈ iss | _ => True end.

(** The spinners are those of the requests that run, at most one of each kind; every
    challenge that is shown or answered is one the server issued. *)
Record login_inv (s : login_page) : Prop := {
  inv_loading : running checks_credentials s = one (loading s);
  inv_passkey : running is_passkey s = one (passkeyLoading s);
  inv_registration : running is_registration s = one (regLoading s);
  inv_provider : (running is_provider s <= one (bool_decide (is_Some (oauthLoading s))))%nat;
  inv_pending : ∀ tok ms, pendingMfa s = Some (tok, ms) → tok ∈ issued s;
  inv_tokens : Forall (token_issued (issued s)) (login_flights s);
}.

Lemma running_send p f s : running p (send_login f s) = (running p s + one (p f))%nat.
Proof. unfold running, send_login. cbn. rewrite bfilter_snoc, length_app. by destruct (p f). Qed.

Lemma running_delete (p : login_flight → bool) i f : ∀ l, l !! i = Some f → length (bfilter p l) = (one (p f) + length (bfilter p (delete i l)))%nat.
Proof.
  induction i as [|i IH]; intros [|x l] E; try done; cbn in E.
  - injection E as ->. unfold bfilter. cbn. by destruct (p f).
  - specialize (IH l E). change (delete (S i) (x :: l)) with (x :: delete i l). unfold bfilter in *. cbn [List.filter]. destruct (p x); cbn [length]; lia.
Qed.

Lemma login_send_inv f s :
  login_inv s → token_issued (issued s) f →
  ∀ s', login_flights s' = (login_flights s ++ [f])%list → issued s' = issued s → pendingMfa s' = pendingMfa s →
    (one (loading s') = one (loading s) + one (checks_credentials f))%nat → (one (passkeyLoading s') = one (passkeyLoading s) + one (is_passkey f))%nat →
    (one (regLoading s') = one (regLoading s) + one (is_registration f))%nat →
    (running is_provider s + one (is_provider f) <= one (bool_decide (is_Some (oauthLoading s'))))%nat → login_inv s'.
Proof.
  intros [H1 H2 H3 H4 H5 H6] Hf s' Ef Ei Ep E1 E2 E3 E4.
  assert (∀ p, running p s' = (running p s + one (p f))%nat) as Hr by (intros p; rewrite <- (running_send p f s); unfold running; by rewrite Ef).
  split; rewrite ?Hr, ?Ep, ?Ei, ?Ef; [lia|lia|lia|lia|done|]. apply Forall_app. by split; [|constructor].
Qed.

Lemma login_view_inv s s' :
  login_inv s → login_flights s' = login_flights s → loading s' = loading s → passkeyLoading s' = passkeyLoading s → regLoading s' = regLoading s →
  oauthLoading s' = oauthLoading s → issued s' = issued s → (∀ tok ms, pendingMfa s' = Some (tok, ms) → tok ∈ issued s') → login_inv s'.
Proof.
  intros [H1 H2 H3 H4 H5 H6] Ef E1 E2 E3 E4 Ei Hp. split; unfold running in *; rewrite ?Ef, ?E1, ?E2, ?E3, ?E4, ?Ei; try done. by rewrite <- Ei.
Qed.

Lemma outcome_inv i f a s : login_inv s → login_flights s !! i = Some f → login_inv (login_answered i a s).
Proof.
  intros [H1 H2 H3 H4 H5 H6] Ef. unfold login_answered. rewrite Ef. unfold running in *.
  rewrite (running_delete checks_credentials _ _ _ Ef) in H1. rewrite (running_delete is_passkey _ _ _ Ef) in H2.
  rewrite (running_delete is_registration _ _ _ Ef) in H3. rewrite (running_delete is_provider _ _ _ Ef) in H4.
  assert (∀ iss, Forall (token_issued iss) (login_flights s) → Forall (token_issued iss) (delete i (login_flights s))) as Hd.
  { intros iss. rewrite !Forall_forall. intros H x Hx. apply H. eapply elem_of_submseteq; [exact Hx|apply sublist_submseteq, sublist_delete]. }
  assert (∀ tok, Forall (token_issued (issued s ++ [tok])) (login_flights s)) as Happ.
  { intros tok. apply (Forall_impl _ _ _ H6). intros [] ?; try done. cbn in *. apply elem_of_app. by left. }
  assert (one (bool_decide (is_Some (oauthLoading s))) <= 1)%nat as H7 by by case_bool_decide; cbn; lia.
  destruct f; cbn [one checks_credentials is_passkey is_registration is_provider] in *; destruct (loading s) eqn:El, (passkeyLoading s) eqn:Epk, (regLoading s) eqn:Er;
    cbn in *; try lia; destruct a; cbn [login_outcome];
    (split; unfold running; cbn; rewrite ?El, ?Epk, ?Er; cbn [one] in *; unfold bfilter in *;
     first [lia|by auto|by intros ? ? [= <- <-]; apply elem_of_app; right; left]).
Qed.

(** Counts of a request that is sent: its own spinner was off. *)
Ltac count_flights H :=
  cbn; repeat match goal with E : ?x = false |- context [one ?x] => rewrite E end; pose proof (inv_provider _ H); unfold one in *; cbn in *; lia.

Lemma login_step_inv s e : login_inv s → login_inv (login_step s e).
Proof.
  intros H. pose proof (inv_pending s H) as Hp. destruct e; cbn [login_step].
  - unfold oauth_effect. repeat case_match; by apply (login_view_inv s).
  - case_match; by apply (login_view_inv s).
  - case_match eqn:E; [done|]. bool_facts. unfold handleSubmit. eapply (login_send_inv (PasswordLogin _ _) s H); try done; count_flights H.
  - case_match; by apply (login_view_inv s).
  - case_match eqn:E; [done|]. bool_facts. unfold handleMfaSubmit. destruct (pendingMfa s) as [[tok ms]|] eqn:Ep; [|done].
    eapply (login_send_inv (Challenge tok (mfaCode s) (useRecoveryCode s)) s H); try done; [by apply (Hp tok ms)|count_flights H..].
  - case_match; by apply (login_view_inv s).
  - case_match; by apply (login_view_inv s).
  - case_match eqn:E; [done|]. apply orb_false_iff in E as [E _]. unfold handlePasskeyLogin.
    eapply (login_send_inv (PasskeyLogin _) s H); try done; count_flights H.
  - case_match eqn:E; [done|]. apply orb_false_iff in E as [_ E]. unfold handleOAuthLogin. pose proof (inv_provider s H) as Ho. rewrite E in Ho.
    eapply (login_send_inv (OAuthInitiate _) s H); try done; count_flights H.
  - by apply (login_view_inv s).
  - by apply (login_view_inv s).
  - case_match; by apply (login_view_inv s).
  - case_match eqn:E; [done|]. apply orb_false_iff in E as [E _]. apply orb_false_iff in E as [_ E]. unfold handleRegister.
    eapply (login_send_inv (Registration _) s H); try done; count_flights H.
  - destruct (login_flights s !! i) as [f|] eqn:Ef; [by eapply outcome_inv|]. unfold login_answered. by rewrite Ef.
Qed.

Lemma login_run_inv o es : login_inv (login_run o es).
Proof.
  unfold login_run. assert (login_inv (login_init o)) as Hi by (split; try done; by cbn). revert Hi. generalize (login_init o).
  induction es as [|e es IH]; intros s Hs; [done|]. apply IH. by apply login_step_inv.
Qed.

(** What signs in: a password, a code for a challenge the server issued, a passkey. *)
Definition opens_session (s : login_page) (f : login_flight) : Prop :=
  match f with PasswordLogin _ _ | PasskeyLogin _ => True | Challenge tok _ _ => tok ∈ issued s | _ => False end.

(** C16. In every order of clicks, keystrokes and answers the page enters the app only when a
    password, a passkey or a code for an issued challenge was accepted, and goes to the
    account page exactly when the password must be changed; a login that needs a second
    factor only opens its challenge. No two sign-ins by password or code, and no two passkey
    prompts, registrations or provider requests, run at once, and the page shows itself busy
    exactly while they run. *)
Theorem sign_in_safe o es e :
  let s := login_run o es in
  let s' := login_step s e in
  (visited s' = visited s ∨
   ∃ i f b, e = LoginAnswered i (SignedIn b) ∧ login_flights s !! i = Some f ∧ opens_session s f ∧ visited s' = (visited s ++ [landing b])%list) ∧
  (∀ i email password tok ms, e = LoginAnswered i (MfaRequired tok ms) → login_flights s !! i = Some (PasswordLogin email password) →
     visited s' = visited s ∧ pendingMfa s' = Some (tok, ms)) ∧
  running checks_credentials s = one (loading s) ∧ running is_passkey s = one (passkeyLoading s) ∧
  running is_registration s = one (regLoading s) ∧ (running is_provider s <= 1)%nat.
Proof.
  cbn zeta. set (s := login_run o es). pose proof (login_run_inv o es : login_inv s) as [H1 H2 H3 H4 H5 H6]. split_and!; try done.
  - destruct e; cbn [login_step]; try (by left); try (case_match; by left).
    + left. unfold oauth_effect. by repeat case_match.
    + left. case_match; [done|]. unfold handleMfaSubmit. by repeat case_match.
    + unfold login_answered. destruct (login_flights s !! i) as [f|] eqn:Ef; [|by left]. rewrite Forall_lookup in H6. pose proof (H6 i f Ef) as Hf.
      destruct f; destruct a; try (by left); right; by do 3 eexists.
  - intros i em pw tok ms -> Ef. cbn [login_step]. unfold login_answered. by rewrite Ef.
  - etrans; [exact H4|]. by case_bool_decide; cbn; lia.
Qed.

(** A challenge is answered with the token on screen and the code that was typed. *)
Lemma challenge_sent o es : ∀ tok code rec,
  let s := login_run o es in
  login_flights (login_step s SubmitMfa) = (login_flights s ++ [Challenge tok code rec])%list →
  ∃ ms, pendingMfa s = Some (tok, ms) ∧ code = mfaCode s ∧ rec = useRecoveryCode s.
Proof.
  cbn zeta. intros tok code rec. set (s := login_run o es). cbn [login_step]. assert (∀ f, login_flights s = (login_flights s ++ [f])%list → False) as Hn.
  { intros f E. apply (f_equal length) in E. rewrite length_app in E. cbn in E. lia. }
  case_match; [by intros ?%Hn|]. unfold handleMfaSubmit. destruct (pendingMfa s) as [[tok' ms]|]; [|by intros ?%Hn].
  cbn. intros E%app_inv_head. injection E as <- <- <-. by exists ms.
Qed.

(** ** The sign-in link *)

Inductive magic_step := SigningIn | MfaNeeded | MagicError.
#[local] Instance magic_step_eq_dec : EqDecision magic_step.
Proof. solve_decision. Defined.

Inductive magic_flight := ConsumeLink (token : string) | LinkRefresh | LinkChallenge (mfaToken code : string) | ChallengeRefresh.

Record magic_page := {
  magic_at : magic_step; mfaToken : string; mfaMethods : list ChallengeMethod; magic_code : string; mfaError : option string; mfaLoading : bool;
  consumed : bool; magic_flights : list magic_flight; magic_visited : list string;
}.

Definition magic_init : magic_page :=
  {| magic_at := SigningIn; mfaToken := ""; mfaMethods := [MethodTotp; MethodRecoveryCode]; magic_code := ""; mfaError := None; mfaLoading := false;
     consumed := false; magic_flights := []; magic_visited := [] |}.

Definition upd_magic (st : magic_step) (err : option string) (l : bool) (fs : list magic_flight) (vs : list string) (s : magic_page) : magic_page :=
  {| magic_at := st; mfaToken := mfaToken s; mfaMethods := mfaMethods s; magic_code := magic_code s; mfaError := err; mfaLoading := l;
     consumed := consumed s; magic_flights := fs; magic_visited := vs |}.

(** The effect of the mount, which may run twice: the one-time link is spent once. *)
Definition consume_effect (token : string) (s : magic_page) : magic_page :=
  if negb (nonempty token) then upd_magic MagicError (mfaError s) (mfaLoading s) (magic_flights s) (magic_visited s) s
  else if consumed s then s
  else {| magic_at := magic_at s; mfaToken := mfaToken s; mfaMethods := mfaMethods s; magic_code := magic_code s; mfaError := mfaError s;
          mfaLoading := mfaLoading s; consumed := true; magic_flights := (magic_flights s ++ [ConsumeLink token])%list; magic_visited := magic_visited s |}.

Definition magic_submit (s : magic_page) : magic_page :=
  upd_magic (magic_at s) None true (magic_flights s ++ [LinkChallenge (mfaToken s) (magic_code s)])%list (magic_visited s) s.

Inductive magic_answer := MagicOk | MagicMfa (tok : string) (ms : list ChallengeMethod) | MagicFailed.

Definition magic_outcome (f : magic_flight) (a : magic_answer) (s : magic_page) : magic_page :=
  match f, a with
  | ConsumeLink _, MagicOk => upd_magic (magic_at s) (mfaError s) (mfaLoading s) (magic_flights s ++ [LinkRefresh])%list (magic_visited s) s
  | ConsumeLink _, MagicMfa tok ms =>
      {| magic_at := MfaNeeded; mfaToken := tok; mfaMethods := ms; magic_code := magic_code s; mfaError := mfaError s; mfaLoading := mfaLoading s;
         consumed := consumed s; magic_flights := magic_flights s; magic_visited := magic_visited s |}
  | LinkRefresh, MagicOk => upd_magic (magic_at s) (mfaError s) (mfaLoading s) (magic_flights s) (magic_visited s ++ ["/"])%list s
  | (ConsumeLink _ | LinkRefresh), _ => upd_magic MagicError (mfaError s) (mfaLoading s) (magic_flights s) (magic_visited s) s
  | LinkChallenge _ _, MagicOk => upd_magic (magic_at s) (mfaError s) (mfaLoading s) (magic_flights s ++ [ChallengeRefresh])%list (magic_visited s) s
  | ChallengeRefresh, MagicOk => upd_magic (magic_at s) (mfaError s) false (magic_flights s) (magic_visited s ++ ["/"])%list s
  | (LinkChallenge _ _ | ChallengeRefresh), _ =>
      upd_magic (magic_at s) (Some (t "auth.mfa.invalidCode" [])) false (magic_flights s) (magic_visited s) s
  end.

Definition magic_answered (i : nat) (a : magic_answer) (s : magic_page) : magic_page :=
  match magic_flights s !! i with
  | None => s
  | Some f => magic_outcome f a (upd_magic (magic_at s) (mfaError s) (mfaLoading s) (delete i (magic_flights s)) (magic_visited s) s)
  end.

Inductive magic_event := MagicMounted | MagicType (c : string) | MagicSubmit | MagicAnswered (i : nat) (a : magic_answer).

Definition magic_step_of (token : string) (s : magic_page) (e : magic_event) : magic_page :=
  match e with
  | MagicMounted => consume_effect token s
  | MagicType c =>
      if bool_decide (magic_at s = MfaNeeded) then
        {| magic_at := magic_at s; mfaToken := mfaToken s; mfaMethods := mfaMethods s; magic_code := c; mfaError := mfaError s; mfaLoading := mfaLoading s;
           consumed := consumed s; magic_flights := magic_flights s; magic_visited := magic_visited s |}
      else s
  | MagicSubmit => if negb (bool_decide (magic_at s = MfaNeeded)) || mfaLoading s then s else magic_submit s
  | MagicAnswered i a => magic_answered i a s
  end.

Definition magic_run (token : string) (es : list magic_event) : magic_page := foldl (magic_step_of token) magic_init es.

(** ** The verification link *)

Inductive VerificationPurpose := Signup | Invitation.
#[local] Instance VerificationPurpose_eq_dec : EqDecision VerificationPurpose.
Proof. solve_decision. Defined.

Inductive verify_step := Verifying | VerifyError | SetPasswordStep | CreateZevStep.
#[local] Instance verify_step_eq_dec : EqDecision verify_step.
Proof. solve_decision. Defined.

Inductive SetupZevType := SetupZev | SetupVzev.

Record SelfSetupZevInput := {
  setup_name : string; setup_start_date : string; setup_zev_type : SetupZevType; setup_billing_interval : BillingInterval;
  setup_postal_code : option string; setup_grid_operator : option string; setup_grid_operator_elcom_id : option Z; setup_bank_iban : option string;
  setup_bank_name : option string; owner_address_line1 : option string; owner_address_line2 : option string; owner_postal_code : option string;
  owner_city : option string;
}.

Definition setup_default (today : string) : SelfSetupZevInput :=
  {| setup_name := ""; setup_start_date := today; setup_zev_type := SetupZev; setup_billing_interval := annual; setup_postal_code := None;
     setup_grid_operator := Some ""; setup_grid_operator_elcom_id := None; setup_bank_iban := Some ""; setup_bank_name := Some "";
     owner_address_line1 := Some ""; owner_address_line2 := Some ""; owner_postal_code := Some ""; owner_city := Some "" |}.

Inductive verify_flight :=
  | VerifyEmail (token : string) | VerifyRefresh | SetInitialPassword (pw : string) | PasswordRefresh | CreateZev (input : SelfSetupZevInput) | ZevRefresh.

Record verify_page := {
  verify_at : verify_step; purpose : VerificationPurpose; errorMsg : option string; vpassword : string; confirmPassword : string; pwLoading : bool;
  pwError : option string; zevForm : SelfSetupZevInput; zevLoading : bool; zevError : option string; verify_flights : list verify_flight;
  password_set : bool; verify_visited : list string;
}.

Definition verify_init (today : string) : verify_page :=
  {| verify_at := Verifying; purpose := Signup; errorMsg := None; vpassword := ""; confirmPassword := ""; pwLoading := false; pwError := None;
     zevForm := setup_default today; zevLoading := false; zevError := None; verify_flights := []; password_set := false; verify_visited := [] |}.

Definition upd_step (st : verify_step) (p : VerificationPurpose) (err : option string) (fs : list verify_flight) (done_ : bool) (vs : list string)
    (s : verify_page) : verify_page :=
  {| verify_at := st; purpose := p; errorMsg := err; vpassword := vpassword s; confirmPassword := confirmPassword s; pwLoading := pwLoading s;
     pwError := pwError s; zevForm := zevForm s; zevLoading := zevLoading s; zevError := zevError s; verify_flights := fs; password_set := done_;
     verify_visited := vs |}.

Definition upd_password (a b : string) (l : bool) (e : option string) (s : verify_page) : verify_page :=
  {| verify_at := verify_at s; purpose := purpose s; errorMsg := errorMsg s; vpassword := a; confirmPassword := b; pwLoading := l; pwError := e;
     zevForm := zevForm s; zevLoading := zevLoading s; zevError := zevError s; verify_flights := verify_flights s; password_set := password_set s;
     verify_visited := verify_visited s |}.

Definition upd_zev (z : SelfSetupZevInput) (l : bool) (e : option string) (s : verify_page) : verify_page :=
  {| verify_at := verify_at s; purpose := purpose s; errorMsg := errorMsg s; vpassword := vpassword s; confirmPassword := confirmPassword s;
     pwLoading := pwLoading s; pwError := pwError s; zevForm := z; zevLoading := l; zevError := e; verify_flights := verify_flights s;
     password_set := password_set s; verify_visited := verify_visited s |}.

Definition at_step (st : verify_step) (s : verify_page) : verify_page :=
  upd_step st (purpose s) (errorMsg s) (verify_flights s) (password_set s) (verify_visited s) s.
Definition send_verify (f : verify_flight) (s : verify_page) : verify_page :=
  upd_step (verify_at s) (purpose s) (errorMsg s) (verify_flights s ++ [f])%list (password_set s) (verify_visited s) s.
Definition verify_fails (text : string) (s : verify_page) : verify_page :=
  upd_step VerifyError (purpose s) (Some text) (verify_flights s) (password_set s) (verify_visited s) s.
Definition enter_app (s : verify_page) : verify_page :=
  upd_step (verify_at s) (purpose s) (errorMsg s) (verify_flights s) (password_set s) (verify_visited s ++ ["/"])%list s.

(** The effect of the mount. *)
Definition verify_effect (token : string) (s : verify_page) : verify_page :=
  if negb (nonempty token) then verify_fails "No verification token found in the URL." s else send_verify (VerifyEmail token) s.

Definition handleSetPassword (s : verify_page) : verify_page :=
  if negb (String.eqb (vpassword s) (confirmPassword s))
  then upd_password (vpassword s) (confirmPassword s) (pwLoading s) (Some (t "auth.verify.passwordMismatch" [])) s
  else send_verify (SetInitialPassword (vpassword s)) (upd_password (vpassword s) (confirmPassword s) true None s).

Definition filled (v : option string) : bool := nonempty (trim (default "" v)).

Definition setup_payload (z : SelfSetupZevInput) : SelfSetupZevInput :=
  {| setup_name := setup_name z; setup_start_date := setup_start_date z; setup_zev_type := setup_zev_type z;
     setup_billing_interval := setup_billing_interval z; setup_postal_code := setup_postal_code z;
     setup_grid_operator := if truthy_str (setup_grid_operator z) then setup_grid_operator z else None;
     setup_grid_operator_elcom_id := setup_grid_operator_elcom_id z; setup_bank_iban := Some (normalizeIban (default "" (setup_bank_iban z)));
     setup_bank_name := setup_bank_name z; owner_address_line1 := owner_address_line1 z; owner_address_line2 := owner_address_line2 z;
     owner_postal_code := owner_postal_code z; owner_city := owner_city z |}.

Definition handleCreateZev (s : verify_page) : verify_page :=
  let z := zevForm s in
  if filled (setup_bank_iban z) && negb (isValidIban (default "" (setup_bank_iban z)))
  then upd_zev z false (Some (t "auth.verify.invalidIban" [])) s
  else if filled (setup_bank_iban z) && (negb (filled (owner_address_line1 z)) || negb (filled (owner_postal_code z)) || negb (filled (owner_city z)))
  then upd_zev z false (Some (t "auth.verify.ownerAddressRequiredForIban" [])) s
  else send_verify (CreateZev (setup_payload z)) (upd_zev z true None s).

Inductive verify_answer := VerifyOk | VerifiedAs (p : VerificationPurpose) | VerifyFailed (e : caught).

Definition verify_outcome (f : verify_flight) (a : verify_answer) (s : verify_page) : verify_page :=
  let text e := formatApiError e "Request failed." in
  let failed_with e := match a with VerifyFailed e => text e | _ => e end in
  match f with
  | VerifyEmail _ =>
      match a with
      | VerifiedAs p => send_verify VerifyRefresh (upd_step (verify_at s) p (errorMsg s) (verify_flights s) (password_set s) (verify_visited s) s)
      | _ => verify_fails (failed_with "Request failed.") s
      end
  | VerifyRefresh => match a with VerifyOk => at_step SetPasswordStep s | _ => verify_fails (failed_with "Request failed.") s end
  | SetInitialPassword _ =>
      match a with
      | VerifyOk => send_verify PasswordRefresh (upd_step (verify_at s) (purpose s) (errorMsg s) (verify_flights s) true (verify_visited s) s)
      | _ => upd_password (vpassword s) (confirmPassword s) false (Some (failed_with "Request failed.")) s
      end
  | PasswordRefresh =>
      match a with
      | VerifyOk =>
          let s := upd_password (vpassword s) (confirmPassword s) false (pwError s) s in
          if bool_decide (purpose s = Invitation) then enter_app s else at_step CreateZevStep s
      | _ => upd_password (vpassword s) (confirmPassword s) false (Some (failed_with "Request failed.")) s
      end
  | CreateZev _ =>
      match a with VerifyOk => send_verify ZevRefresh s | _ => upd_zev (zevForm s) false (Some (failed_with "Request failed.")) s end
  | ZevRefresh =>
      match a with VerifyOk => enter_app (upd_zev (zevForm s) false (zevError s) s) | _ => upd_zev (zevForm s) false (Some (failed_with "Request failed.")) s end
  end.

Definition verify_answered (i : nat) (a : verify_answer) (s : verify_page) : verify_page :=
  match verify_flights s !! i with
  | None => s
  | Some f =>
      verify_outcome f a (upd_step (verify_at s) (purpose s) (errorMsg s) (delete i (verify_flights s)) (password_set s) (verify_visited s) s)
  end.

Inductive verify_event :=
  | TypePassword (a b : string) | SubmitPassword | EditZev (f : SelfSetupZevInput → SelfSetupZevInput) | SubmitZev
  | VerifyAnswered (i : nat) (a : verify_answer).

Definition verify_step_of (s : verify_page) (e : verify_event) : verify_page :=
  match e with
  | TypePassword a b => if bool_decide (verify_at s = SetPasswordStep) then upd_password a b (pwLoading s) (pwError s) s else s
  | SubmitPassword => if negb (bool_decide (verify_at s = SetPasswordStep)) || pwLoading s then s else handleSetPassword s
  | EditZev f => if bool_decide (verify_at s = CreateZevStep) then upd_zev (f (zevForm s)) (zevLoading s) (zevError s) s else s
  | SubmitZev => if negb (bool_decide (verify_at s = CreateZevStep)) || zevLoading s then s else handleCreateZev s
  | VerifyAnswered i a => verify_answered i a s
  end.

Definition verify_run (today token : string) (es : list verify_event) : verify_page :=
  foldl verify_step_of (verify_effect token (verify_init today)) es.

(** ** The links are followed in order *)

Ltac decided := bool_facts; repeat match goal with H : bool_decide _ = true |- _ => apply bool_decide_eq_true in H end.

(** A one-time link is spent at most once however often its page is mounted, and the app is
    entered only after the session that an accepted link, or an accepted code, gave was
    loaded; a link that needs a second factor shows its challenge. *)
Theorem magic_link_once token es e :
  let s := magic_run token es in
  let s' := magic_step_of token s e in
  (∀ tok, magic_flights s' = (magic_flights s ++ [ConsumeLink tok])%list → e = MagicMounted ∧ tok = token ∧ consumed s = false ∧ consumed s' = true) ∧
  (consumed s = true → consumed s' = true) ∧
  (magic_visited s' = magic_visited s ∨
   ∃ i f, e = MagicAnswered i MagicOk ∧ magic_flights s !! i = Some f ∧ (f = LinkRefresh ∨ f = ChallengeRefresh) ∧ magic_visited s' = (magic_visited s ++ ["/"])%list) ∧
  (∀ tok code, magic_flights s' = (magic_flights s ++ [LinkChallenge tok code])%list → magic_at s = MfaNeeded ∧ tok = mfaToken s ∧ code = magic_code s).
Proof.
  cbn zeta. generalize (magic_run token es). intros s.
  assert (∀ (l : list magic_flight) x, l = (l ++ [x])%list → False) as Hn.
  { intros l x E. apply (f_equal length) in E. rewrite length_app in E. cbn in E. lia. }
  assert (∀ i f (l : list magic_flight) x, magic_flights s !! i = Some f → (l = delete i (magic_flights s) ∨ ∃ y, l = (delete i (magic_flights s) ++ [y])%list) →
    l = (magic_flights s ++ [x])%list → False) as Hd.
  { intros i f l x Ef Hl ->. assert (length (magic_flights s) = S (length (delete i (magic_flights s)))) as El.
    { clear -Ef. revert i Ef. generalize (magic_flights s) as fs. induction fs as [|y fs IH]; intros [|i] Ef; try done. cbn. f_equal. by apply (IH i). }
    destruct Hl as [Hl|(y & Hl)]; apply (f_equal length) in Hl; rewrite ?length_app in Hl; cbn in Hl; lia. }
  destruct e as [|c| |i a]; cbn [magic_step_of].
  - unfold consume_effect. case_match; [split_and!; try done; [by intros ? ?%Hn|by left|by intros ? ? ?%Hn]|].
    destruct (consumed s) eqn:Ec; cbn; rewrite ?Ec; (split_and!; try done; [|by left|]).
    + by intros ? ?%Hn.
    + by intros ? ? ?%Hn.
    + intros tok E%app_inv_head. by injection E as <-.
    + by intros tok code E%app_inv_head.
  - case_match; split_and!; try done; try (by left); by intros; exfalso; eapply Hn; eassumption.
  - case_match eqn:E; [split_and!; try done; try (by left); by intros; exfalso; eapply Hn; eassumption|]. bool_facts. split_and!; try done; [|by left|].
    + by intros tok E%app_inv_head.
    + intros tok code E%app_inv_head. injection E as <- <-. decided. done.
  - unfold magic_answered. destruct (magic_flights s !! i) as [f|] eqn:Ef; [|split_and!; try done; try (by left); by intros; exfalso; eapply Hn; eassumption].
    split_and!.
    + intros tok E. exfalso. refine (Hd i f _ _ Ef _ E). destruct f, a; cbn; first [by left|right; by eexists].
    + by destruct f, a.
    + destruct f, a; try (by left); right; exists i; eexists; (split_and!; [done|exact Ef|by auto|done]).
    + intros tok code E. exfalso. refine (Hd i f _ _ Ef _ E). destruct f, a; cbn; first [by left|right; by eexists].
Qed.

(** The step a request of the verification page belongs to. *)
Definition step_of_flight (f : verify_flight) : verify_step :=
  match f with VerifyEmail _ | VerifyRefresh => Verifying | SetInitialPassword _ | PasswordRefresh => SetPasswordStep | CreateZev _ | ZevRefresh => CreateZevStep end.

Definition entitled (s : verify_page) : Prop := purpose s = Signup ∧ password_set s = true.

Record verify_inv (s : verify_page) : Prop := {
  inv_one : verify_flights s = [] ∨ ∃ f, verify_flights s = [f] ∧ verify_at s = step_of_flight f ∧ (f = PasswordRefresh → password_set s = true) ∧
    match verify_at s with SetPasswordStep => pwLoading s = true | CreateZevStep => zevLoading s = true | _ => True end;
  inv_setup : verify_at s = CreateZevStep → entitled s;
  inv_entered : verify_visited s ≠ [] → password_set s = true;
}.

Lemma verify_answered_inv i a s : verify_inv s → verify_inv (verify_answered i a s).
Proof.
  intros [H1 H2 H3]. unfold verify_answered. destruct (verify_flights s !! i) as [f|] eqn:Ef; [|by split].
  destruct H1 as [E|(g & E & Hat & Hp & Hl)]; rewrite E in Ef |- *; [done|]. destruct i as [|i]; [|done]. injection Ef as <-.
  change (delete 0 [g]) with (@nil verify_flight). destruct g; cbn [step_of_flight] in Hat; rewrite Hat in *; cbn [verify_outcome].
  - destruct a; (split; cbn; rewrite ?Hat; try done; [by left + (right; by eexists)|..]); try (by left).
  - destruct a; (split; cbn; rewrite ?Hat; try done); by left.
  - destruct a; (split; cbn; rewrite ?Hat; try done); first [by left|right; by eexists].
  - destruct a; try (split; cbn; rewrite ?Hat; try done; by left).
    case_bool_decide as Ep; (split; cbn; rewrite ?Hat; try done); try (by left); [by intros _; apply Hp|].
    intros _. split; [by destruct (purpose s)|by apply Hp].
  - destruct (H2 eq_refl) as [? ?]. destruct a; (split; cbn; rewrite ?Hat; try done); first [by left|right; by eexists].
  - destruct (H2 eq_refl) as [? ?]. destruct a; (split; cbn; rewrite ?Hat; try done); by left.
Qed.

(** A step with no request running. *)
Lemma verify_idle s st : verify_inv s → verify_at s = st → (st = SetPasswordStep → pwLoading s = false) → (st = CreateZevStep → zevLoading s = false) →
  st = SetPasswordStep ∨ st = CreateZevStep → verify_flights s = [].
Proof. intros [[?|(f & _ & _ & _ & Hl)] _ _] <- Hp Hz Hst; [done|]. destruct Hst as [E|E]; rewrite E in *; [rewrite Hp in Hl|rewrite Hz in Hl]; done. Qed.

Lemma verify_send_inv f s s' :
  verify_inv s → verify_flights s = [] → verify_flights s' = [f] → verify_at s' = verify_at s → verify_at s = step_of_flight f → f ≠ PasswordRefresh →
  purpose s' = purpose s → password_set s' = password_set s → verify_visited s' = verify_visited s →
  (verify_at s = SetPasswordStep → pwLoading s' = true) → (verify_at s = CreateZevStep → zevLoading s' = true) → verify_inv s'.
Proof.
  intros [H1 H2 H3] En Ef Ea Es Hf Ep Eq Ev Hp Hz. split; unfold entitled; rewrite ?Ea, ?Ep, ?Eq, ?Ev; [|exact H2|exact H3].
  right. exists f. split_and!; [done|done|done|]. destruct (verify_at s); auto.
Qed.

Lemma verify_view_inv s s' :
  verify_inv s → verify_flights s' = verify_flights s → verify_at s' = verify_at s → purpose s' = purpose s → password_set s' = password_set s →
  verify_visited s' = verify_visited s → (pwLoading s' = pwLoading s ∨ verify_flights s = []) → (zevLoading s' = zevLoading s ∨ verify_flights s = []) →
  verify_inv s'.
Proof.
  intros [H1 H2 H3] Ef Ea Ep Eq Ev Hp Hz. split; unfold entitled; rewrite ?Ef, ?Ea, ?Ep, ?Eq, ?Ev; [|exact H2|exact H3].
  destruct H1 as [?|(f & E & ? & ? & Hl)]; [by left|]. right. exists f. rewrite E in Hp, Hz. destruct Hp as [->|?]; [|done]. by destruct Hz as [->|?].
Qed.

Lemma verify_step_inv s e : verify_inv s → verify_inv (verify_step_of s e).
Proof.
  intros H. destruct e; cbn [verify_step_of].
  - case_match; [|done]. by apply (verify_view_inv s); auto.
  - case_match eqn:E; [done|]. decided. assert (verify_flights s = []) as En by (eapply (verify_idle s); auto; congruence).
    unfold handleSetPassword. case_match; [apply (verify_view_inv s); auto|].
    apply (verify_send_inv (SetInitialPassword (vpassword s)) s); auto; try done; cbn; [by rewrite En|congruence].
  - case_match; [|done]. by apply (verify_view_inv s); auto.
  - case_match eqn:E; [done|]. decided. assert (verify_flights s = []) as En by (eapply (verify_idle s); auto; congruence).
    unfold handleCreateZev. case_match; [apply (verify_view_inv s); auto|]. case_match; [apply (verify_view_inv s); auto|].
    apply (verify_send_inv (CreateZev (setup_payload (zevForm s))) s); auto; try done; cbn; [by rewrite En|congruence].
  - by apply verify_answered_inv.
Qed.

Lemma verify_run_inv today token es : verify_inv (verify_run today token es).
Proof.
  unfold verify_run. assert (verify_inv (verify_effect token (verify_init today))) as Hi.
  { unfold verify_effect. case_match; (split; cbn; [|done|done]); [by left|]. right. by eexists. }
  revert Hi. generalize (verify_effect token (verify_init today)). induction es as [|e es IH]; intros s Hs; [done|]. apply IH. by apply verify_step_inv.
Qed.

(** C17. The verification page asks for one thing at a time and in order. A password is sent only
    when it was typed twice alike; a community is set up only by someone who signed up, after
    the password was set, and with an IBAN only when it is valid and its owner has an address;
    the app is entered only with a password set. *)
Theorem verification_ordered today token es e :
  let s := verify_run today token es in
  let s' := verify_step_of s e in
  (length (verify_flights s) <= 1)%nat ∧
  (∀ pw, verify_flights s' = (verify_flights s ++ [SetInitialPassword pw])%list → verify_at s = SetPasswordStep ∧ pw = vpassword s ∧ pw = confirmPassword s) ∧
  (∀ z, verify_flights s' = (verify_flights s ++ [CreateZev z])%list →
     purpose s = Signup ∧ password_set s = true ∧ z = setup_payload (zevForm s) ∧
     (filled (setup_bank_iban (zevForm s)) = true →
        isValidIban (default "" (setup_bank_iban (zevForm s))) = true ∧ filled (owner_address_line1 z) = true ∧ filled (owner_postal_code z) = true ∧
        filled (owner_city z) = true)) ∧
  (verify_visited s ≠ [] → password_set s = true).
Proof.
  cbn zeta. pose proof (verify_run_inv today token es) as H. set (s := verify_run today token es) in *. destruct H as [H1 H2 H3].
  assert (∀ (l : list verify_flight) x, l = (l ++ [x])%list → False) as Hn.
  { intros l x E. apply (f_equal length) in E. rewrite length_app in E. cbn in E. lia. }
  assert (∀ i a x, verify_flights (verify_answered i a s) = (verify_flights s ++ [x])%list → False) as Ha.
  { intros i a x. unfold verify_answered. destruct (verify_flights s !! i) as [f|] eqn:Ef; [|by intros ?%Hn].
    destruct H1 as [E|(g & E & _)]; rewrite E in Ef |- *; [done|]. destruct i as [|i]; [|done]. injection Ef as <-.
    change (delete 0 [g]) with (@nil verify_flight). destruct g, a; cbn; try done; by case_bool_decide. }
  assert (length (verify_flights s) <= 1)%nat as Hlen by (destruct H1 as [->|(g & -> & _)]; cbn; lia). clear H1.
  split_and!; [done|..|done].
  - intros pw. destruct e; cbn [verify_step_of]; try (case_match; [by intros ?%Hn|]); try (by intros ?%Hn); [| |by intros ?%Ha].
    + decided. unfold handleSetPassword. case_match eqn:Ep; [by intros ?%Hn|]. cbn. intros E%app_inv_head. injection E as <-.
      apply negb_false_iff, String.eqb_eq in Ep. done.
    + unfold handleCreateZev. repeat (case_match; [by intros ?%Hn|]). by intros E%app_inv_head.
  - intros z. destruct e; cbn [verify_step_of]; try (case_match; [by intros ?%Hn|]); try (by intros ?%Hn); [| |by intros ?%Ha].
    + unfold handleSetPassword. case_match; [by intros ?%Hn|]. by intros E%app_inv_head.
    + decided. unfold handleCreateZev. case_match eqn:Ei; [by intros ?%Hn|]. case_match eqn:Eo; [by intros ?%Hn|]. cbn. intros E%app_inv_head. injection E as <-.
      destruct (H2 ltac:(done)) as [? ?]. split_and!; try done. intros Hf. rewrite Hf in Ei, Eo. cbn [andb] in Ei, Eo. apply negb_false_iff in Ei. decided. done.
Qed.
End SignIn.

(** When the session cannot be loaded after the password was set, the page shows the error in
    the same step and the next submission sets the password again, which the server refuses
    for an account that has one: the community is never set up. *)
Lemma refresh_failure_resends_password :
  let s := verify_run (λ k _, k) "2026-01-01" "token"
    [VerifyAnswered 0 (VerifiedAs Signup); VerifyAnswered 0 VerifyOk; TypePassword "secret 12" "secret 12"; SubmitPassword; VerifyAnswered 0 VerifyOk;
     VerifyAnswered 0 (VerifyFailed OtherError)] in
  verify_at s = SetPasswordStep ∧ password_set s = true ∧ verify_flights (verify_step_of (λ k _, k) s SubmitPassword) = [SetInitialPassword "secret 12"].
Proof. by vm_compute. Qed.
