(* ===== verification/UrlParams.v ===== *)
(** The query string of a URL as the pages read and write it: the interface
    [URLSearchParams] and [encodeURIComponent] of the browser, on texts that are
    the bytes of well-formed UTF-8. *)

From S2P Require Import Prelude JsString.
Local Open Scope string_scope.

(** A list of names and values, in order, names may repeat. *)
Definition Params : Type := list (string * string).

Definition params_get (k : string) (ps : Params) : option string :=
  snd <$> find_first (λ p, String.eqb p.1 k) ps.
Definition params_has (k : string) (ps : Params) : bool := existsb (λ p, String.eqb p.1 k) ps.
Definition params_delete (k : string) (ps : Params) : Params := bfilter (λ p, negb (String.eqb p.1 k)) ps.

(** [set]: the first entry of the name takes the value, later ones are removed. *)
Fixpoint params_set (k v : string) (ps : Params) : Params :=
  match ps with
  | [] => [(k, v)]
  | p :: ps' => if String.eqb p.1 k then (k, v) :: params_delete k ps' else p :: params_set k v ps'
  end.

(** ** Percent-encoding *)

Definition hex_digit (n : nat) : ascii := ascii_of_nat (if (n <? 10)%nat then 48 + n else 55 + n).

Definition hex_val (c : ascii) : option nat :=
  let n := nat_of_ascii c in
  if (48 <=? n)%nat && (n <=? 57)%nat then Some (n - 48)
  else if (65 <=? n)%nat && (n <=? 70)%nat then Some (n - 55)
  else if (97 <=? n)%nat && (n <=? 102)%nat then Some (n - 87)
  else None.

Definition percent (c : ascii) : string :=
  String "%" (String (hex_digit (nat_of_ascii c / 16)) (String (hex_digit (nat_of_ascii c mod 16)) "")).

Definition is_alnum (c : ascii) : bool :=
  let n := nat_of_ascii c in
  ((48 <=? n)%nat && (n <=? 57)%nat) || ((65 <=? n)%nat && (n <=? 90)%nat) || ((97 <=? n)%nat && (n <=? 122)%nat).

Definition char_in (c : ascii) (s : string) : bool := negb (free_of c s).

Definition form_char (c : ascii) : string :=
  if Ascii.eqb c " " then "+" else if is_alnum c || char_in c "*-._" then String c "" else percent c.

Definition component_char (c : ascii) : string :=
  if is_alnum c || char_in c "-_.!~*'()" then String c "" else percent c.

Fixpoint str_concat_map (f : ascii → string) (s : string) : string :=
  match s with "" => "" | String c s' => f c ++ str_concat_map f s' end.

Definition form_encode : string → string := str_concat_map form_char.
Definition encodeURIComponent : string → string := str_concat_map component_char.

(** A percent sign that no two hexadecimal digits follow stands for itself. *)
Fixpoint form_decode (s : string) : string :=
  match s with
  | "" => ""
  | String c s' =>
      if Ascii.eqb c "+" then String " " (form_decode s')
      else if Ascii.eqb c "%" then
        match s' with
        | String a (String b s'') =>
            match hex_val a, hex_val b with
            | Some m, Some n => String (ascii_of_nat (16 * m + n)) (form_decode s'')
            | _, _ => String c (form_decode s')
            end
        | _ => String c (form_decode s')
        end
      else String c (form_decode s')
  end.

(** ** Reading and writing a query *)

(** The text before the first [c], and the text from it on. *)
Fixpoint cut (c : ascii) (s : string) : string * string :=
  match s with
  | "" => ("", "")
  | String a s' => if Ascii.eqb a c then ("", s) else let '(x, y) := cut c s' in (String a x, y)
  end.

Definition drop_first (s : string) : string := match s with "" => "" | String _ s' => s' end.

Definition parse_pair (s : string) : string * string :=
  let '(k, v) := cut "=" s in (form_decode k, form_decode (drop_first v)).

Definition parse_params (s : string) : Params :=
  let s := match s with String "?" s' => s' | _ => s end in
  map parse_pair (bfilter nonempty (split_on "&" s)).

Definition print_pair (p : string * string) : string := form_encode p.1 ++ "=" ++ form_encode p.2.
Definition print_params (ps : Params) : string := join "&" (map print_pair ps).

(** ** Encoded texts hold no separator and decode to what they encode *)

Lemma free_of_app c a b : free_of c (a ++ b) = free_of c a && free_of c b.
Proof.
  unfold free_of. induction a as [|x a IH]; [done|].
  change (String x a ++ b) with (String x (a ++ b)). cbn [str_forall]. by rewrite IH, andb_assoc.
Qed.

Lemma free_of_concat_map c f s : (∀ a, free_of c (f a) = true) → free_of c (str_concat_map f s) = true.
Proof. intros Hf. induction s as [|a s IH]; simpl; [done|]. by rewrite free_of_app, Hf, IH. Qed.

Ltac every_char := let b := fresh "b" in intros b; destruct b as [[] [] [] [] [] [] [] []]; vm_compute; reflexivity.

Lemma form_encode_free c s : c ∈ list_ascii_of_string "&=#?/ " → free_of c (form_encode s) = true.
Proof.
  intros Hc. apply free_of_concat_map. revert Hc.
  assert (∀ a, Forall (λ c, free_of c (form_char a) = true) (list_ascii_of_string "&=#?/ ")) as H.
  { intros a. cbn [list_ascii_of_string]. repeat constructor; revert a; every_char. }
  intros Hc a. specialize (H a). rewrite Forall_forall in H. by apply H.
Qed.

Lemma component_free c s : c ∈ list_ascii_of_string "&=#?/ " → free_of c (encodeURIComponent s) = true.
Proof.
  intros Hc. apply free_of_concat_map. revert Hc.
  assert (∀ a, Forall (λ c, free_of c (component_char a) = true) (list_ascii_of_string "&=#?/ ")) as H.
  { intros a. cbn [list_ascii_of_string]. repeat constructor; revert a; every_char. }
  intros Hc a. specialize (H a). rewrite Forall_forall in H. by apply H.
Qed.

Lemma decode_char a s : form_decode (form_char a ++ s) = String a (form_decode s).
Proof. destruct a as [[] [] [] [] [] [] [] []]; reflexivity. Qed.

Lemma form_decode_encode s : form_decode (form_encode s) = s.
Proof.
  unfold form_encode. induction s as [|a s IH]; [done|]. cbn [str_concat_map]. by rewrite decode_char, IH.
Qed.

Lemma encodeURIComponent_nonempty s : nonempty s = true → nonempty (encodeURIComponent s) = true.
Proof.
  destruct s as [|a s]; [done|]. intros _. unfold encodeURIComponent. cbn [str_concat_map].
  assert (nonempty (component_char a) = true) as H by (revert a; every_char).
  by destruct (component_char a).
Qed.

Lemma cut_app c a s : free_of c a = true → cut c (a ++ String c s) = (a, String c s).
Proof.
  unfold free_of. induction a as [|x a IH]; intros H.
  - cbn. by rewrite Ascii.eqb_refl.
  - change (String x a ++ String c s) with (String x (a ++ String c s)). cbn [cut].
    cbn [str_forall] in H. bool_facts. destruct (Ascii.eqb x c); [congruence|]. by rewrite IH.
Qed.

Lemma cut_free c a : free_of c a = true → cut c a = (a, "").
Proof.
  unfold free_of. induction a as [|x a IH]; intros H; [done|]. cbn [cut str_forall] in *. bool_facts.
  destruct (Ascii.eqb x c); [congruence|]. by rewrite IH.
Qed.

Lemma cut_parts c s : s = (cut c s).1 ++ (cut c s).2 ∧ ((cut c s).2 = "" ∨ (cut c s).2 = String c (drop_first (cut c s).2)).
Proof.
  induction s as [|a s [IH IH2]]; cbn [cut]; [by auto|]. destruct (Ascii.eqb a c) eqn:E.
  - apply Ascii.eqb_eq in E. subst. auto.
  - destruct (cut c s) as [x y]. cbn [fst snd] in *. split; [|done].
    change (String a s = String a (x ++ y)). by rewrite <- IH.
Qed.

Lemma parse_print_pair p : parse_pair (print_pair p) = p.
Proof.
  unfold parse_pair, print_pair. change ("=" ++ form_encode p.2) with (String "=" (form_encode p.2)).
  rewrite cut_app by (apply form_encode_free; set_solver).
  cbn [drop_first]. rewrite !form_decode_encode. by destruct p.
Qed.

Lemma print_pair_free c p : c ∈ list_ascii_of_string "&#?/ " → free_of c (print_pair p) = true.
Proof.
  intros Hc. unfold print_pair. rewrite !free_of_app, !form_encode_free by set_solver.
  revert c Hc. apply Forall_forall. repeat constructor.
Qed.

Lemma print_pair_nonempty p : nonempty (print_pair p) = true.
Proof. unfold print_pair. by destruct (form_encode p.1). Qed.

Lemma parse_unmarked s : free_of "?" s = true → parse_params s = map parse_pair (bfilter nonempty (split_on "&" s)).
Proof.
  destruct s as [|c s]; [done|]. unfold free_of. cbn [str_forall]. intros. bool_facts.
  unfold parse_params. destruct c as [[] [] [] [] [] [] [] []]; done.
Qed.

Lemma print_params_free c ps : c ∈ list_ascii_of_string "#?/ " → free_of c (print_params ps) = true.
Proof.
  intros Hc. unfold print_params. induction ps as [|p ps IH]; [done|].
  assert (free_of c (print_pair p) = true) by (clear - Hc; apply print_pair_free; set_solver).
  destruct ps as [|q ps]; [done|].
  change (join "&" (map print_pair (p :: q :: ps))) with (print_pair p ++ "&" ++ join "&" (map print_pair (q :: ps))).
  rewrite !free_of_app, IH. apply andb_true_iff; split; [done|]. rewrite andb_true_r.
  clear - Hc. revert c Hc. apply Forall_forall. repeat constructor.
Qed.

(** What was written is read back, names and values with any characters included. *)
Lemma parse_print ps : parse_params (print_params ps) = ps.
Proof.
  rewrite parse_unmarked by (apply print_params_free; set_solver). unfold print_params.
  destruct ps as [|p ps]; [done|]. rewrite split_on_join; [|done|].
  2: { apply Forall_forall. intros x (q & -> & _)%list_elem_of_fmap. apply print_pair_free. set_solver. }
  generalize (p :: ps). clear p ps. intros ps. induction ps as [|p ps IH]; [done|].
  unfold bfilter in *. cbn [map List.filter]. rewrite print_pair_nonempty. cbn [map]. by rewrite parse_print_pair, IH.
Qed.

Lemma parse_question s : free_of "?" s = true → parse_params ("?" ++ s) = parse_params s.
Proof. intros. by rewrite (parse_unmarked s). Qed.

Lemma print_nonempty ps : ps ≠ [] → nonempty (print_params ps) = true.
Proof.
  destruct ps as [|p ps]; [done|]. intros _. unfold print_params. pose proof (print_pair_nonempty p) as H.
  destruct ps as [|q ps]; [done|].
  change (nonempty (print_pair p ++ "&" ++ join "&" (map print_pair (q :: ps))) = true). by destruct (print_pair p).
Qed.

(** ** What is read after a change *)

Lemma params_get_has k ps : params_has k ps = bool_decide (is_Some (params_get k ps)).
Proof.
  unfold params_has, params_get. induction ps as [|p ps IH]; simpl.
  - done.
  - by destruct (String.eqb p.1 k).
Qed.

Lemma params_get_app k ps qs :
  params_get k (ps ++ qs)%list = match params_get k ps with Some v => Some v | None => params_get k qs end.
Proof.
  unfold params_get. induction ps as [|p ps IH]; simpl; [done|].
  destruct (String.eqb p.1 k); simpl; [done|]. exact IH.
Qed.

Lemma params_set_fresh k v ps : params_has k ps = false → params_set k v ps = (ps ++ [(k, v)])%list.
Proof.
  unfold params_has. induction ps as [|p ps IH]; simpl; [done|]. intros. bool_facts.
  destruct (String.eqb p.1 k); [done|]. by rewrite IH.
Qed.

Lemma params_get_delete k j ps :
  params_get j (params_delete k ps) = if String.eqb j k then None else params_get j ps.
Proof.
  unfold params_get, params_delete. induction ps as [|p ps IH]; simpl; [by case_match|].
  destruct (String.eqb p.1 k) eqn:E; simpl.
  - rewrite IH. apply String.eqb_eq in E. rewrite E. rewrite (String.eqb_sym k j). by destruct (String.eqb j k).
  - destruct (String.eqb p.1 j) eqn:E2; simpl; [|done].
    apply String.eqb_eq in E2. subst j. by rewrite E.
Qed.

Lemma params_get_set k j v ps : params_get j (params_set k v ps) = if String.eqb j k then Some v else params_get j ps.
Proof.
  destruct (params_has k ps) eqn:Eh; [|].
  2: { rewrite params_set_fresh, params_get_app by done. rewrite params_get_has in Eh. apply bool_decide_eq_false_1 in Eh.
       unfold params_get at 2. cbn. rewrite (String.eqb_sym j k). destruct (String.eqb_spec k j) as [->|].
       - destruct (params_get j ps); [by destruct Eh|done]. - by destruct (params_get j ps). }
  revert Eh. unfold params_has. induction ps as [|p ps IH]; [done|]. cbn [existsb params_set]. intros Eh.
  destruct (String.eqb_spec p.1 k) as [Ek|Ek]; cbn [orb] in Eh.
  - unfold params_get in *. cbn. rewrite (String.eqb_sym j k). destruct (String.eqb_spec k j) as [->|Hkj]; [done|].
    destruct (String.eqb_spec p.1 j); [congruence|]. pose proof (params_get_delete k j ps) as Hd. unfold params_get in Hd.
    rewrite (proj2 (String.eqb_neq j k)) in Hd by congruence. exact Hd.
  - unfold params_get in *. cbn. destruct (String.eqb_spec p.1 j) as [Ej|]; [|by apply IH].
    cbn. by rewrite (proj2 (String.eqb_neq j k)) by congruence.
Qed.
