(* ===== verification/Routes.v ===== *)
(** Which page an address shows to whom: frontend/src/components/AppRoutes.tsx,
    ProtectedRoute.tsx, RouteAliases.tsx, ScopeGuard.tsx, the gate of
    MfaEnrolmentGate.tsx, the links of Layout.tsx, pages/HomePage.tsx and the tab
    route of pages/ZevSettingsPage.tsx.

    A route is its path and the element tree the source writes for it; [render]
    walks the tree from the outside in.  The router ([pick], [matchPath],
    [parsePath]) is not this program's code: what the routes rely on is
    [RouterLaws].  Pages are named, their contents are modelled elsewhere. *)

From S2P Require Import Prelude JsString UrlParams ZevForm Access Accounts.
From S2P Require LiveEnergy.
Local Open Scope string_scope.

(** [useLocation()]: [search] and [hash] carry their mark, or are empty. *)
Record Location := { pathname : string; search : string; hash : string }.

Inductive Page :=
| LoginPage | VerifyEmailPage | ConfirmEmailChangePage | ForgotPasswordPage | ResetPasswordPage | OAuthCallbackPage
| PublicInvoicePage | MagicSignInPage | ParticipantOnboardingPage | NotFoundPage
| OverviewPage | GuestHomePage | DashboardPage | MyEnergyPage | AccountProfilePage
| AdminOverviewHubPage (tab : option string) | AdminAccountsHubPage (tab : option string)
| AdminTemplatesHubPage (tab : option string) | AdminSystemSettingsPage
| ParticipantsPage | ZevSettingsPage (tab : string) | MeteringPointsPage | MeteringChartPage (tab : string)
| TariffsPage | TariffProgressionPage | BillingHubPage (tab : string) | ParticipantDocumentsPage
| InvoiceDetailPage | ReportsPage | DocumentsPage | MyMeteringPointsPage | FeasibilityCalculatorPage.

(** ** Elements and the table *)

Inductive Element :=
| PageElement (p : Page)
| HomePage
| ZevSettingsTabRoute
| AliasNavigateTo (to : string)
| InvoiceDetailAliasElement
| MeteringDataAliasElement
| ProtectedRoute (allowedRoles : option (list CommunityRelation)) (allowUnlinked : bool) (children : Element)
| MfaEnrolmentGate (children : Element)
| ManagedZevProvider (children : Element)
| LayoutElement (outlet : Element).

Record Route := { path : string; element : Element }.

Definition ZEV_SCOPE : list CommunityRelation := [RelAdmin; RelManager; RelViewer].
Definition ACTIVE_SCOPE : list CommunityRelation := (ZEV_SCOPE ++ [RelParticipant])%list.

(** [<ProtectedRoute allowedRoles={roles}>] around a page. *)
Definition only (roles : list CommunityRelation) (p : Page) : Element := ProtectedRoute (Some roles) false (PageElement p).

Definition public_routes : list Route :=
  map (λ r, {| path := r.1; element := PageElement r.2 |})
    [("/login", LoginPage); ("/verify-email", VerifyEmailPage); ("/confirm-email-change", ConfirmEmailChangePage);
     ("/forgot-password", ForgotPasswordPage); ("/reset-password", ResetPasswordPage);
     ("/oauth/callback", OAuthCallbackPage); ("/i/:prefix", PublicInvoicePage); ("/signin/:token", MagicSignInPage);
     ("/join/:prefix", ParticipantOnboardingPage)].

(** The children of the route ["/"], in the order of the source. *)
Definition shell_children : list (string * Element) :=
  [("", HomePage);
   ("dashboard", only ACTIVE_SCOPE DashboardPage);
   ("my-energy", only ACTIVE_SCOPE MyEnergyPage);
   ("live", AliasNavigateTo "/my-energy");
   ("account", PageElement AccountProfilePage);
   ("admin", only [RelAdmin] (AdminOverviewHubPage None))]
  ++ map (λ tab, ("admin/" ++ tab, only [RelAdmin] (AdminOverviewHubPage (Some tab))))
       ["overview"; "zevs"; "invoices"; "dynamic-sources"; "audit"; "health"]
  ++ [("admin/accounts", only [RelAdmin] (AdminAccountsHubPage None))]
  ++ map (λ tab, ("admin/accounts/" ++ tab, only [RelAdmin] (AdminAccountsHubPage (Some tab)))) ["users"; "tokens"]
  ++ [("admin/accounts/api-keys", AliasNavigateTo "/admin/accounts/tokens");
      ("admin/api-keys", AliasNavigateTo "/admin/accounts/tokens");
      ("admin/templates", only [RelAdmin] (AdminTemplatesHubPage None))]
  ++ map (λ tab, ("admin/templates/" ++ tab, only [RelAdmin] (AdminTemplatesHubPage (Some tab)))) ["pdf"; "email"]
  ++ [("admin/pdf-templates", AliasNavigateTo "/admin/templates/pdf");
      ("admin/email-templates", AliasNavigateTo "/admin/templates/email");
      ("admin/audit-logs", AliasNavigateTo "/admin/audit");
      ("admin/system-settings", only [RelAdmin] AdminSystemSettingsPage);
      ("admin/settings/regional", AliasNavigateTo "/admin/system-settings?tab=regional");
      ("admin/settings/vat", AliasNavigateTo "/admin/system-settings?tab=vat");
      ("admin/features", AliasNavigateTo "/admin/system-settings?tab=features");
      ("admin/oauth", AliasNavigateTo "/admin/system-settings?tab=oauth");
      ("participants", only ZEV_SCOPE ParticipantsPage);
      ("zev-settings", ProtectedRoute (Some ZEV_SCOPE) false ZevSettingsTabRoute);
      ("zev-settings/:tab", ProtectedRoute (Some ZEV_SCOPE) false ZevSettingsTabRoute);
      ("metering/points", only ACTIVE_SCOPE MeteringPointsPage);
      ("metering-points", AliasNavigateTo "/metering/points");
      ("metering/chart", only ACTIVE_SCOPE (MeteringChartPage "chart"));
      ("metering/quality", only ZEV_SCOPE (MeteringChartPage "quality"));
      ("metering-data", MeteringDataAliasElement);
      ("metering", AliasNavigateTo "/metering/chart");
      ("tariffs", only ZEV_SCOPE TariffsPage);
      ("tariffs/progression", only ZEV_SCOPE TariffProgressionPage);
      ("billing/periods", ProtectedRoute (Some ZEV_SCOPE) false (AliasNavigateTo "/"));
      ("billing/invoices", only ZEV_SCOPE (BillingHubPage "invoices"));
      ("billing/emails", only ZEV_SCOPE (BillingHubPage "emails"));
      ("billing/documents", AliasNavigateTo "/documents");
      ("documents", only ZEV_SCOPE ParticipantDocumentsPage);
      ("billing/statements", AliasNavigateTo "/reports");
      ("billing/invoices/:invoiceId", PageElement InvoiceDetailPage);
      ("billing", AliasNavigateTo "/billing/invoices");
      ("invoices", AliasNavigateTo "/billing/invoices");
      ("invoices/:invoiceId", InvoiceDetailAliasElement);
      ("audit-logs", AliasNavigateTo "/zev-settings/audit");
      ("me/statement", only [RelParticipant] ReportsPage);
      ("me/invoices", AliasNavigateTo "/me/documents");
      ("me/documents", only (ZEV_SCOPE ++ [RelParticipant; RelFormer]) DocumentsPage);
      ("me/metering-points", only ACTIVE_SCOPE MyMeteringPointsPage);
      ("reports", only (ZEV_SCOPE ++ [RelParticipant]) ReportsPage);
      ("feasibility", only ZEV_SCOPE FeasibilityCalculatorPage);
      ("imports", AliasNavigateTo "/metering/imports");
      ("metering/imports", only ZEV_SCOPE (MeteringChartPage "imports"))]%list.

(** The element of the route ["/"] around the matched child. *)
Definition shell_element (outlet : Element) : Element :=
  ProtectedRoute None true (MfaEnrolmentGate (ManagedZevProvider (ProtectedRoute None false (LayoutElement outlet)))).

Definition shell_route (r : string * Element) : Route := {| path := "/" ++ r.1; element := shell_element r.2 |}.

Definition not_found : Route := {| path := "*"; element := PageElement NotFoundPage |}.

Definition AppRoutes : list Route := (public_routes ++ map shell_route shell_children ++ [not_found])%list.

(** ** Aliases *)

(** Where [<AliasNavigate to={to} />] goes from a location. *)
Definition AliasNavigate (to : string) (loc : Location) : string :=
  if negb (nonempty (search loc)) && negb (nonempty (hash loc)) then to
  else
    let parts := split_on "?" to in
    let params := foldl (λ params kv, if params_has kv.1 params then params else params_set kv.1 kv.2 params)
                    (parse_params (default "" (parts !! 1))) (parse_params (search loc)) in
    let qs := print_params params in
    default "" (parts !! 0) ++ (if nonempty qs then "?" ++ qs else "") ++ hash loc.

Definition InvoiceDetailAlias (params : Params) (loc : Location) : string :=
  "/billing/invoices/" ++ encodeURIComponent (default "" (params_get "invoiceId" params)) ++ search loc ++ hash loc.

Definition MeteringDataAlias (loc : Location) : string :=
  let params := parse_params (search loc) in
  let tab := params_get "tab" params in
  let qs := print_params (params_delete "tab" params) in
  "/metering/" ++ (if bool_decide (tab = Some "quality") then "quality" else "chart")
    ++ (if nonempty qs then "?" ++ qs else "") ++ hash loc.

(** ** The tabs of the community settings *)

Definition TABS : list string := ["general"; "people"; "billing"; "documents"; "energy"; "audit"; "export"].
Definition MERGED_INTO_PEOPLE : list string := ["parties"; "access"].

(** ** What a location shows *)

(** The signed-in account, the communities and pick of the provider, and the gate's state. *)
Record Env := {
  isLoading : bool;
  user : option User;
  zevs : option (list Zev);
  pick_state : PickState;
  mfa : option MfaStatus;
  now : Z;
  dismissed : bool;
}.

Definition isAuthenticated (e : Env) : bool := bool_decide (is_Some (user e)).
Definition isImpersonating (e : Env) : bool := bool_decide (is_Some (user e ≫= impersonated_by)).

(** [useCommunityAccess()] outside and inside the provider. *)
Definition access_at (e : Env) (inProvider : bool) : CommunityAccess :=
  useCommunityAccess (user e)
    (if inProvider then Some (community_view (user e) (zevs e) (pick_state e)) else None).

Inductive Outcome :=
| Loading
| NavigateTo (to : string) (forcePasswordChange : bool)
| MfaInterstitial (inGrace : bool)
| Shown (p : Page).

Definition HomePage_render (a : CommunityAccess) : Outcome :=
  if bool_decide (shellRole a = Some RelFormer) then NavigateTo "/me/documents" false
  else if isZevScope a then Shown OverviewPage
  else if bool_decide (shellRole a = None) then Shown GuestHomePage
  else Shown DashboardPage.

Definition ZevSettingsTabRoute_render (params : Params) (loc : Location) : Outcome :=
  let tab := default "general" (params_get "tab" params) in
  if bool_decide (tab ∈ MERGED_INTO_PEOPLE) then NavigateTo (AliasNavigate "/zev-settings/people" loc) false
  else if bool_decide (tab ∈ TABS) then Shown (ZevSettingsPage tab) else Shown NotFoundPage.

(** The router of the application: the route and parameters of a path, a test of a
    path against a pattern, and the parts of an address. *)
Class Router := {
  pick : string → Route * Params;
  matchPath : string → string → bool;
  parsePath : string → Location;
}.

Section Render.
Context `{Router} (e : Env) (params : Params) (loc : Location).

Definition isAccountPath : bool := matchPath "/account" (pathname loc).

(** [useAuth().user?.must_change_password && !isImpersonating]. *)
Definition must_change : bool :=
  match user e with Some u => must_change_password u | None => false end && negb (isImpersonating e).

Definition ProtectedRoute_render (inProvider : bool) (allowedRoles : option (list CommunityRelation))
    (allowUnlinked : bool) (children : Outcome) : Outcome :=
  let role := shellRole (access_at e inProvider) in
  if isLoading e then Loading
  else if negb (isAuthenticated e) then NavigateTo "/login" false
  else if must_change && negb isAccountPath then NavigateTo "/account" true
  else if negb allowUnlinked && bool_decide (role = None) && negb (String.eqb (pathname loc) "/") && negb isAccountPath
       then NavigateTo "/" false
  else match allowedRoles with
       | Some l => if negb (isAuthenticated e) || negb (role_in role l) then NavigateTo "/" false else children
       | None => children
       end.

Definition gate : MfaGateState := mfaGateState matchPath (mfa e) (now e) (dismissed e) (isImpersonating e) (pathname loc).

Fixpoint render (inProvider : bool) (el : Element) : Outcome :=
  match el with
  | PageElement p => Shown p
  | HomePage => HomePage_render (access_at e inProvider)
  | ZevSettingsTabRoute => ZevSettingsTabRoute_render params loc
  | AliasNavigateTo to => NavigateTo (AliasNavigate to loc) false
  | InvoiceDetailAliasElement => NavigateTo (InvoiceDetailAlias params loc) false
  | MeteringDataAliasElement => NavigateTo (MeteringDataAlias loc) false
  | ProtectedRoute roles unlinked children => ProtectedRoute_render inProvider roles unlinked (render inProvider children)
  | MfaEnrolmentGate children =>
      match gate with
      | GatePass => render inProvider children
      | GateGrace => MfaInterstitial true
      | GateHard => MfaInterstitial false
      end
  | ManagedZevProvider children => render true children
  | LayoutElement outlet => render inProvider outlet
  end.
End Render.

Section Visit.
Context `{Router}.

Definition visit (e : Env) (loc : Location) : Outcome :=
  let '(r, params) := pick (pathname loc) in render e params loc false (element r).

(** What is on the screen once the redirects have been followed. *)
Fixpoint follow (fuel : nat) (e : Env) (loc : Location) : option Outcome :=
  match fuel with
  | O => None
  | S fuel =>
      match visit e loc with
      | NavigateTo to _ => follow fuel e (parsePath to)
      | o => Some o
      end
  end.
End Visit.

(** ** The links of the shell *)

Record NavFlags := {
  liveEnabled : bool;
  energyDataOn : bool;
  holdsHistoryMeter : bool;
  holdsOwnFlaggedMeter : bool;
  feasibilityEnabled : bool;
}.

(** [to] of each [SidebarLink] of the rendered sidebar, from top to bottom. *)
Definition sidebar_links (e : Env) (f : NavFlags) : list string :=
  let a := access_at e true in
  let canManage := isZevScope a in
  let isFormerParticipant := bool_decide (shellRole a = Some RelFormer) in
  let isGuest := bool_decide (shellRole a = None) in
  let holdsParticipation := (0 <? length (ownParticipantIds (user e)))%nat in
  let showMyEnergy := LiveEnergy.showMyEnergyEntry (liveEnabled f) (energyDataOn f) (isZevScope a) (holdsHistoryMeter f) in
  let when (b : bool) (l : list string) := if b then l else [] in
  (when canManage
     (["/"; "/dashboard"] ++ when (liveEnabled f) ["/my-energy"]
      ++ ["/metering/chart"; "/billing/invoices"; "/documents"; "/reports"])
   ++ when isGuest ["/account"]
   ++ when (isParticipantScope a && negb isFormerParticipant)
        (["/"] ++ when showMyEnergy ["/my-energy"] ++ ["/me/documents"; "/me/statement"; "/me/metering-points"])
   ++ when isFormerParticipant ["/me/documents"]
   ++ when canManage ["/participants"; "/metering/points"; "/tariffs"; "/zev-settings"]
   ++ when (canManage && feasibilityEnabled f) ["/feasibility"]
   ++ when (canManage && (holdsOwnFlaggedMeter f || holdsParticipation))
        (when (holdsOwnFlaggedMeter f) ["/me/metering-points"] ++ when holdsParticipation ["/me/documents"])
   ++ when (match user e with Some u => is_admin u | None => false end)
        ["/admin"; "/admin/accounts"; "/admin/templates"; "/admin/system-settings"])%list.

(** ** [ScopeGuard]: management content waits for its community *)

Inductive GuardOutcome :=
| GuardChildren (staleWarning : bool)
| GuardSkeleton
| GuardFailure
| GuardCreateCommunity
| GuardNoAccess.

(** [isLoading], [isError] of the communities query. *)
Definition ScopeGuard (a : CommunityAccess) (v : CommunityView) (isLoading isError : bool) : GuardOutcome :=
  if negb (isZevScope a) && negb (bool_decide (shellRole a = None)) then GuardChildren false
  else
    let hasScope := nonempty (selectedZevId v)
                    && match selectedZev v with Some z => String.eqb (zev_id z) (selectedZevId v) | None => false end in
    if negb hasScope && isLoading then GuardSkeleton
    else if hasScope then GuardChildren isError
    else if isError then GuardFailure
    else if isAdmin a then GuardCreateCommunity else GuardNoAccess.

(** ** Aliases keep what the address asked for *)

(** The query and hash of a location as the browser gives them. *)
Definition marked (c : ascii) (s : string) : Prop := s = "" ∨ ∃ s', s = String c s' ∧ nonempty s' = true.

Record wf_location (loc : Location) : Prop := {
  wf_path : free_of "?" (pathname loc) = true ∧ free_of "#" (pathname loc) = true;
  wf_search : marked "?" (search loc) ∧ free_of "#" (search loc) = true;
  wf_hash : marked "#" (hash loc);
}.

Lemma merge_params_get k (ps qs : Params) :
  params_get k (foldl (λ params kv, if params_has kv.1 params then params else params_set kv.1 kv.2 params) ps qs)
  = match params_get k ps with Some v => Some v | None => params_get k qs end.
Proof.
  revert ps. induction qs as [|[j v] qs IH]; intros ps; cbn [foldl].
  { cbn. by destruct (params_get k ps). }
  rewrite IH. cbn [fst snd].
  assert (params_get k ((j, v) :: qs) = if String.eqb j k then Some v else params_get k qs) as ->
    by (unfold params_get; cbn; by destruct (String.eqb j k)).
  destruct (params_has j ps) eqn:E.
  - destruct (params_get k ps) eqn:E2; [done|]. destruct (String.eqb j k) eqn:E3; [|done].
    apply String.eqb_eq in E3. subst. rewrite params_get_has, E2 in E. by apply bool_decide_eq_true, is_Some_None in E.
  - rewrite params_set_fresh, params_get_app by done. destruct (params_get k ps); [done|].
    unfold params_get at 1. cbn. by destruct (String.eqb j k).
Qed.

Lemma merge_keeps_prefix (ps qs : Params) :
  ∃ rest, foldl (λ params kv, if params_has kv.1 params then params else params_set kv.1 kv.2 params) ps qs
          = (ps ++ rest)%list.
Proof.
  revert ps. induction qs as [|[j v] qs IH]; intros ps; cbn [foldl].
  - exists []. by rewrite app_nil_r.
  - cbn [fst snd]. destruct (params_has j ps) eqn:E; [apply IH|]. rewrite params_set_fresh by done.
    destruct (IH (ps ++ [(j, v)])%list) as [rest ->]. exists ((j, v) :: rest). by rewrite <- app_assoc.
Qed.

(** The query written for [ps]: none, or marked and without a hash mark. *)
Lemma query_text ps :
  let s := if nonempty (print_params ps) then "?" ++ print_params ps else "" in
  marked "?" s ∧ free_of "#" s = true ∧ parse_params s = ps.
Proof.
  destruct (nonempty (print_params ps)) eqn:E; cbn zeta.
  - split_and!.
    + right. by exists (print_params ps).
    + rewrite free_of_app. apply andb_true_iff; split; [done|]. apply print_params_free. set_solver.
    + rewrite parse_question by (apply print_params_free; set_solver). apply parse_print.
  - split_and!; [by left|done|]. destruct ps as [|p ps]; [done|].
    by rewrite print_nonempty in E by done.
Qed.

Lemma alias_shape p q loc :
  free_of "?" p = true → free_of "#" p = true → (q = "" ∨ ∃ q', q = String "?" q' ∧ nonempty q' = true ∧ free_of "?" q' = true) →
  free_of "#" q = true →
  ∃ s, AliasNavigate (p ++ q) loc = p ++ s ++ hash loc ∧ marked "?" s ∧ free_of "#" s = true ∧
    (∀ k, params_get k (parse_params s) = match params_get k (parse_params q) with
                                           | Some v => Some v
                                           | None => params_get k (parse_params (search loc))
                                           end) ∧
    ∃ rest, parse_params s = (parse_params q ++ rest)%list.
Proof.
  intros Hp Hph Hq Hqh. unfold AliasNavigate.
  destruct (negb (nonempty (search loc)) && negb (nonempty (hash loc))) eqn:E.
  { bool_facts. destruct loc as [lp [|] [|]]; cbn [search hash] in *; try done.
    exists q. split_and!.
    - by rewrite str_app_nil_r.
    - destruct Hq as [->|(q' & -> & ? & ?)]; [by left|right; eauto].
    - done.
    - intros k. by destruct (params_get k (parse_params q)).
    - exists []. by rewrite app_nil_r. }
  assert (default "" (split_on "?" (p ++ q) !! 0) = p ∧
          parse_params (default "" (split_on "?" (p ++ q) !! 1)) = parse_params q) as [H0 H1].
  { destruct Hq as [->|(q' & -> & Hq' & Hf)].
    - rewrite str_app_nil_r, split_on_free by done. done.
    - rewrite split_on_app, (split_on_free "?" q') by done. cbn. split; [done|].
      symmetry. by apply (parse_question q'). }
  cbn zeta. rewrite H0, H1.
  set (ps := foldl _ _ _). destruct (query_text ps) as (Hm & Hh & Hps).
  eexists. split_and!; [reflexivity|exact Hm|exact Hh| |]; rewrite Hps; subst ps.
  - intros k. apply merge_params_get.
  - apply merge_keeps_prefix.
Qed.

(** ** What the routes rely on *)

Definition at_path (p : string) : Location := {| pathname := p; search := ""; hash := "" |}.

Definition static (p : string) : bool := free_of ":" p && free_of "*" p.

(** An address is routed to a route of the table, a path without parameters to its own
    route; a parameter is a whole segment, which is not empty.  An address is the
    account page for [matchPath] only if it is routed to it. *)
Class RouterLaws `{Router} : Prop := {
  pick_table p : (pick p).1 ∈ AppRoutes;
  pick_static r : r ∈ AppRoutes → static (path r) = true → pick (path r) = (r, []);
  pick_tab tab : tab ∈ TABS →
    pick ("/zev-settings/" ++ tab)
    = (shell_route ("zev-settings/:tab", ProtectedRoute (Some ZEV_SCOPE) false ZevSettingsTabRoute), [("tab", tab)]);
  pick_invoice x : nonempty x = true →
    path (pick ("/billing/invoices/" ++ encodeURIComponent x)).1 = "/billing/invoices/:invoiceId";
  pick_param p : path (pick p).1 = "/invoices/:invoiceId" →
    ∃ x, params_get "invoiceId" (pick p).2 = Some x ∧ nonempty x = true;
  match_account : matchPath "/account" "/account" = true;
  account_routed p : matchPath "/account" p = true → path (pick p).1 = "/account";
  parse_parts p s h :
    wf_location {| pathname := p; search := s; hash := h |} →
    parsePath (p ++ s ++ h) = {| pathname := p; search := s; hash := h |};
}.

(** ** The table *)

Definition terminal (el : Element) : bool :=
  match el with PageElement _ | ProtectedRoute (Some _) false (PageElement _) => true | _ => false end.

(** An alias leads to the start page, to a tab of the settings, or to a page with a path
    of its own. *)
Definition alias_ok (to : string) : bool :=
  let '(p, q) := cut "?" to in
  (String.eqb p "/" || String.eqb p "/zev-settings/audit"
   || existsb (λ c, String.eqb ("/" ++ c.1) p && terminal c.2 && static ("/" ++ c.1)) shell_children)
  && free_of "?" p && free_of "#" p && free_of "#" q
  && (String.eqb q "" || (free_of "?" (drop_first q) && nonempty (drop_first q))).

Definition child_ok (c : string * Element) : bool :=
  match c.2 with
  | PageElement _ | ProtectedRoute (Some _) false (PageElement _) => true
  | HomePage => String.eqb c.1 ""
  | AliasNavigateTo to | ProtectedRoute (Some _) false (AliasNavigateTo to) => alias_ok to
  | ProtectedRoute (Some _) false ZevSettingsTabRoute => true
  | MeteringDataAliasElement => true
  | InvoiceDetailAliasElement => String.eqb c.1 "invoices/:invoiceId"
  | _ => false
  end.

Lemma children_ok : Forall (λ c, child_ok c = true) shell_children.
Proof. apply Forall_forall. intros c Hc. apply list_elem_of_In in Hc. revert c Hc. apply List.forallb_forall. by vm_compute. Qed.

Lemma route_cases r :
  r ∈ AppRoutes →
  (∃ p, element r = PageElement p ∧ p ∈ NotFoundPage :: map (λ r, match element r with PageElement p => p | _ => NotFoundPage end) public_routes)
  ∨ ∃ c, c ∈ shell_children ∧ r = shell_route c.
Proof.
  unfold AppRoutes. rewrite !elem_of_app, list_elem_of_singleton. intros [H|[(c & -> & Hc)%list_elem_of_fmap| ->]].
  - left. unfold public_routes in *. apply list_elem_of_fmap in H as ((n & p) & -> & Hp).
    exists p. split; [done|]. right. rewrite <- list_fmap_compose. apply list_elem_of_fmap. exists (n, p). done.
  - right. eauto.
  - left. exists NotFoundPage. split; [done|left].
Qed.

Lemma shell_in_table c : c ∈ shell_children → shell_route c ∈ AppRoutes.
Proof. intros. unfold AppRoutes. rewrite !elem_of_app. right; left. by apply list_elem_of_fmap_2. Qed.

(** Two routes of the table with the same path are the same route. *)
Lemma paths_distinct : NoDup (map path AppRoutes).
Proof. apply (bool_decide_unpack _). by vm_compute. Qed.

Lemma route_of_path r r' : r ∈ AppRoutes → r' ∈ AppRoutes → path r = path r' → r = r'.
Proof.
  intros (i & Hi)%list_elem_of_lookup (j & Hj)%list_elem_of_lookup E.
  assert (i = j) as ->; [|congruence].
  eapply (NoDup_lookup _ i j _ paths_distinct); rewrite list_lookup_fmap; [by rewrite Hi|]. by rewrite Hj, E.
Qed.

(** ** Following redirects *)

Lemma role_in_spec r l : role_in r l = true ↔ ∃ x, r = Some x ∧ x ∈ l.
Proof.
  unfold role_in. rewrite existsb_exists. setoid_rewrite <- list_elem_of_In. setoid_rewrite bool_decide_eq_true. naive_solver.
Qed.

Lemma zev_scope_role e b : isZevScope (access_at e b) = role_in (shellRole (access_at e b)) ZEV_SCOPE.
Proof. done. Qed.

Section Follow.
Context `{Router} `{!RouterLaws} (e : Env).

Definition landed (n : nat) (loc : Location) : Prop := ∃ o, follow n e loc = Some o.
Definition settled (n : nat) (o : Outcome) : Prop :=
  match o with NavigateTo to _ => landed n (parsePath to) | _ => True end.

Lemma landed_S n loc : settled n (visit e loc) ↔ landed (S n) loc.
Proof. unfold landed, settled. cbn [follow]. destruct (visit e loc); naive_solver. Qed.

Lemma landed_mono n m loc : n <= m → landed n loc → landed m loc.
Proof.
  intros Hle. revert n Hle loc. induction m as [|m IH]; intros n Hle loc.
  - by assert (n = 0) as -> by lia.
  - destruct n as [|n]; [by intros [? ?]|]. rewrite <- !landed_S. unfold settled.
    destruct (visit e loc); try done. apply IH. lia.
Qed.

Lemma settled_mono n m o : n <= m → settled n o → settled m o.
Proof. destruct o; try done. apply landed_mono. Qed.

Definition to_loc (p s h : string) : Location := {| pathname := p; search := s; hash := h |}.

Lemma parse_path p : free_of "?" p = true → free_of "#" p = true → parsePath p = at_path p.
Proof.
  intros. rewrite <- (str_app_nil_r p) at 1. change (p ++ "") with (p ++ "" ++ "").
  apply parse_parts. constructor; cbn; [done|split; [by left|done]|by left].
Qed.

(** The element of a child route inside the shell. *)
Definition outlet (params : Params) (loc : Location) (el : Element) : Outcome :=
  if bool_decide (shellRole (access_at e true) = None) && negb (String.eqb (pathname loc) "/") && negb (isAccountPath loc)
  then NavigateTo "/" false else render e params loc true el.

Lemma visit_shell loc c params :
  pick (pathname loc) = (shell_route c, params) →
  visit e loc =
    if isLoading e then Loading
    else if negb (isAuthenticated e) then NavigateTo "/login" false
    else if must_change e && negb (isAccountPath loc) then NavigateTo "/account" true
    else match gate e loc with
         | GatePass => outlet params loc c.2
         | GateGrace => MfaInterstitial true
         | GateHard => MfaInterstitial false
         end.
Proof.
  intros E. unfold visit. rewrite E. cbn. unfold ProtectedRoute_render, outlet. cbn.
  destruct (isLoading e), (isAuthenticated e), (must_change e && negb (isAccountPath loc)); done.
Qed.

Lemma visit_page loc r params p : pick (pathname loc) = (r, params) → element r = PageElement p → visit e loc = Shown p.
Proof. intros E Ep. unfold visit. rewrite E. cbn. by rewrite Ep. Qed.

Lemma pick_login : pick "/login" = ({| path := "/login"; element := PageElement LoginPage |}, []).
Proof. apply (pick_static {| path := "/login"; element := PageElement LoginPage |}); [left|done]. Qed.

Lemma pick_child c : c ∈ shell_children → static ("/" ++ c.1) = true → pick ("/" ++ c.1) = (shell_route c, []).
Proof. intros Hc Hs. by apply (pick_static (shell_route c)); [apply shell_in_table|]. Qed.

Lemma visit_account : visit e (at_path "/account") =
  if isLoading e then Loading else if negb (isAuthenticated e) then NavigateTo "/login" false else Shown AccountProfilePage.
Proof.
  rewrite (visit_shell _ ("account", PageElement AccountProfilePage) []).
  2: { apply (pick_child ("account", _)); [|done]. by repeat (first [left|right]). }
  assert (isAccountPath (at_path "/account") = true) as Ha by apply match_account.
  rewrite Ha, andb_false_r. destruct (isLoading e), (isAuthenticated e); try done. cbn.
  assert (gate e (at_path "/account") = GatePass) as ->.
  { unfold gate, mfaGateState. destruct (mfa e); [|done]. destruct (isImpersonating e); [done|]. cbn [pathname at_path].
    by rewrite match_account, orb_true_r. }
  unfold outlet. rewrite Ha, !andb_false_r. done.
Qed.

Lemma landed_login : landed 1 (at_path "/login").
Proof. apply landed_S. by rewrite (visit_page (at_path "/login") _ [] LoginPage pick_login). Qed.

Lemma settled_login b : settled 1 (NavigateTo "/login" b).
Proof. unfold settled. rewrite parse_path by done. apply landed_login. Qed.

Lemma settled_account b : settled 2 (NavigateTo "/account" b).
Proof.
  unfold settled. rewrite parse_path by done. apply landed_S. rewrite visit_account.
  destruct (isLoading e), (isAuthenticated e); try done. apply settled_login.
Qed.

(** A shell address lands if what its element renders does. *)
Lemma settled_shell n loc c params :
  2 <= n → pick (pathname loc) = (shell_route c, params) →
  settled n (outlet params loc c.2) → settled n (visit e loc).
Proof.
  intros Hn E Ho. rewrite (visit_shell _ _ _ E). destruct (isLoading e); [done|].
  destruct (isAuthenticated e); [|by eapply settled_mono, settled_login; lia]. cbn [negb].
  destruct (must_change e && _); [by eapply settled_mono, settled_account|]. by destruct (gate e loc).
Qed.

Lemma settled_guard n params loc l child :
  settled n (NavigateTo "/" false) → settled n (render e params loc true child) →
  settled n (NavigateTo "/login" false) → settled n (NavigateTo "/account" true) →
  settled n (render e params loc true (ProtectedRoute (Some l) false child)).
Proof. intros. cbn. unfold ProtectedRoute_render. by repeat case_match. Qed.

Lemma settled_documents : shellRole (access_at e true) = Some RelFormer → settled 2 (NavigateTo "/me/documents" false).
Proof.
  intros Hr. unfold settled. rewrite parse_path by done. apply landed_S.
  rewrite (visit_shell _ ("me/documents", only (ZEV_SCOPE ++ [RelParticipant; RelFormer]) DocumentsPage) []).
  2: { apply (pick_child ("me/documents", _)); [|done]. by repeat (first [left|right]). }
  destruct (isLoading e) eqn:El; [done|]. destruct (isAuthenticated e) eqn:Ea; [|apply settled_login].
  cbn [negb]. destruct (must_change e && _) eqn:Em.
  - unfold settled. rewrite parse_path by done. apply landed_S. by rewrite visit_account, El, Ea.
  - destruct (gate e _); try done. unfold outlet. rewrite Hr. cbn -[access_at]. unfold ProtectedRoute_render.
    by rewrite Hr, El, Ea, Em.
Qed.

Lemma settled_home_page : settled 2 (HomePage_render (access_at e true)).
Proof. unfold HomePage_render. repeat case_match; try done. apply settled_documents. by eapply bool_decide_eq_true_1. Qed.

Lemma landed_home loc : pathname loc = "/" → landed 3 loc.
Proof.
  intros E. apply landed_S. eapply settled_shell; [done| |].
  { rewrite E. apply (pick_child ("", HomePage)); [left|done]. }
  unfold outlet. rewrite E, String.eqb_refl, andb_false_r. cbn [snd andb negb]. apply settled_home_page.
Qed.

Lemma settled_home b : settled 3 (NavigateTo "/" b).
Proof. unfold settled. rewrite parse_path by done. by apply landed_home. Qed.

Lemma settled_outlet n params loc el :
  3 <= n → settled n (render e params loc true el) → settled n (outlet params loc el).
Proof. intros Hn Hr. unfold outlet. case_match; [|done]. by eapply settled_mono, settled_home. Qed.

Lemma settled_only n params loc l el :
  3 <= n → settled n (render e params loc true el) →
  settled n (render e params loc true (ProtectedRoute (Some l) false el)).
Proof.
  intros Hn Hr. apply settled_guard; [by eapply settled_mono, settled_home|done| |].
  - by eapply settled_mono, settled_login; lia.
  - by eapply settled_mono, settled_account; lia.
Qed.

Lemma landed_terminal loc c params :
  pick (pathname loc) = (shell_route c, params) → terminal c.2 = true → landed 4 loc.
Proof.
  intros E Ht. apply landed_S. eapply settled_shell; [lia|exact E|]. apply settled_outlet; [done|].
  destruct c as [n [p| | | | | |[l|] [] []| | |]]; try done. by apply settled_only.
Qed.

Lemma landed_tab loc tab : tab ∈ TABS → pathname loc = "/zev-settings/" ++ tab → landed 4 loc.
Proof.
  intros Ht E. apply landed_S. eapply settled_shell; [lia|rewrite E; by apply pick_tab|].
  apply settled_outlet; [done|]. apply settled_only; [done|]. cbn. unfold ZevSettingsTabRoute_render. cbn.
  assert (tab ∉ MERGED_INTO_PEOPLE) as Hm.
  { clear E. revert tab Ht. apply Forall_forall. repeat (constructor; [by apply (bool_decide_unpack _)|]). constructor. }
  by rewrite (bool_decide_eq_false_2 _ Hm), (bool_decide_eq_true_2 _ Ht).
Qed.

Lemma settled_parts n b p s h loc :
  to_loc p s h = loc → wf_location loc → landed n loc → settled n (NavigateTo (p ++ s ++ h) b).
Proof. intros <- Hw Hl. unfold settled. by rewrite parse_parts. Qed.

Lemma settled_alias to loc b : alias_ok to = true → wf_location loc → settled 4 (NavigateTo (AliasNavigate to loc) b).
Proof.
  intros Ha Hw. unfold alias_ok in Ha. destruct (cut_parts "?" to) as [Et Eq].
  destruct (cut "?" to) as [p q]. cbn [fst snd] in *. apply andb_prop in Ha as [Ha Hq].
  apply andb_prop in Ha as [Ha Hqh]. apply andb_prop in Ha as [Ha Hph]. apply andb_prop in Ha as [Ha Hp].
  destruct (alias_shape p q loc) as (s & E & Hs & Hsh & _ & _); [done|done| |done|].
  { destruct Eq as [->|Eq]; [by left|]. apply orb_prop in Hq as [Hq%String.eqb_eq|Hq]; [by left|].
    apply andb_prop in Hq as [? ?]. right. eauto. }
  rewrite Et, E. eapply settled_parts; [reflexivity| |].
  { constructor; cbn; [done|done|apply Hw]. }
  apply orb_prop in Ha as [Ha|Ha]; [apply orb_prop in Ha as [Ha|Ha]; apply String.eqb_eq in Ha|].
  - eapply landed_mono, landed_home; [lia|done].
  - by apply (landed_tab _ "audit"); [repeat (first [left|right])|].
  - apply existsb_exists in Ha as (c & Hc & Ha). apply andb_prop in Ha as [Ha Hst]. apply andb_prop in Ha as [Ha Ht].
    apply String.eqb_eq in Ha. apply list_elem_of_In in Hc.
    eapply (landed_terminal _ c); [|done]. cbn. rewrite <- Ha. by apply pick_child.
Qed.

Lemma settled_people loc b : wf_location loc → settled 4 (NavigateTo (AliasNavigate "/zev-settings/people" loc) b).
Proof.
  intros Hw. destruct (alias_shape "/zev-settings/people" "" loc) as (s & E & Hs & Hsh & _); [done|done|by left|done|].
  rewrite str_app_nil_r in E. rewrite E. eapply settled_parts; [reflexivity| |].
  - constructor; cbn; [done|done|apply Hw].
  - by apply (landed_tab _ "people"); [repeat (first [left|right])|].
Qed.

Lemma settled_settings params loc : wf_location loc → settled 4 (ZevSettingsTabRoute_render params loc).
Proof. intros Hw. unfold ZevSettingsTabRoute_render. repeat case_match; try done. by apply settled_people. Qed.

Lemma child_of n el : (n, el) ∈ shell_children → static ("/" ++ n) = true → pick ("/" ++ n) = (shell_route (n, el), []).
Proof. apply (pick_child (n, el)). Qed.

Lemma settled_metering loc b : wf_location loc → settled 4 (NavigateTo (MeteringDataAlias loc) b).
Proof.
  intros Hw. unfold MeteringDataAlias. cbn zeta. destruct (query_text (params_delete "tab" (parse_params (search loc)))) as (Hs & Hsh & _).
  revert Hs Hsh. generalize (if nonempty (print_params (params_delete "tab" (parse_params (search loc))))
    then "?" ++ print_params (params_delete "tab" (parse_params (search loc))) else ""). intros s Hs Hsh.
  case_bool_decide; rewrite <- str_app_assoc; (eapply settled_parts; [reflexivity|constructor; cbn; [done|done|apply Hw]|]).
  - eapply (landed_terminal _ ("metering/quality", _)); [|]; [apply (child_of "metering/quality")|];
      [by repeat (first [left|right])|done|done].
  - eapply (landed_terminal _ ("metering/chart", _)); [|]; [apply (child_of "metering/chart")|];
      [by repeat (first [left|right])|done|done].
Qed.

Lemma pick_named loc c :
  c ∈ shell_children → path (pick (pathname loc)).1 = "/" ++ c.1 →
  ∃ params, pick (pathname loc) = (shell_route c, params).
Proof.
  intros Hc E. destruct (pick (pathname loc)) as [r params] eqn:Er. exists params. f_equal. cbn in E.
  apply route_of_path; [|by apply shell_in_table|done]. pose proof (pick_table (pathname loc)) as Ht. by rewrite Er in Ht.
Qed.

Lemma settled_invoice params x loc b :
  wf_location loc → params_get "invoiceId" params = Some x → nonempty x = true →
  settled 4 (NavigateTo (InvoiceDetailAlias params loc) b).
Proof.
  intros Hw Hx Hn. unfold InvoiceDetailAlias. rewrite Hx. cbn [default]. rewrite <- str_app_assoc.
  eapply settled_parts; [reflexivity| |].
  - constructor; cbn [pathname search hash to_loc]; [|apply Hw|apply Hw].
    rewrite !free_of_app, !component_free by set_solver. done.
  - destruct (pick_named (to_loc ("/billing/invoices/" ++ encodeURIComponent x) (search loc) (hash loc))
      ("billing/invoices/:invoiceId", PageElement InvoiceDetailPage)) as [ps E].
    + by repeat (first [left|right]).
    + by apply pick_invoice.
    + by eapply landed_terminal.
Qed.

Lemma settled_child c params loc :
  c ∈ shell_children → pick (pathname loc) = (shell_route c, params) → wf_location loc →
  settled 4 (render e params loc true c.2).
Proof.
  intros Hc E Hw. pose proof children_ok as Hok. rewrite Forall_forall in Hok. specialize (Hok c Hc).
  destruct c as [n el]. unfold child_ok in Hok. cbn [fst snd] in *.
  destruct el as [p| | |to| | |[l|] [] el| | |]; try done.
  - eapply settled_mono, settled_home_page. lia.
  - by apply settled_alias.
  - apply String.eqb_eq in Hok. subst n. destruct (pick_param (pathname loc)) as (x & Hx & Hn); [by rewrite E|].
    rewrite E in Hx. by eapply settled_invoice.
  - by apply settled_metering.
  - apply settled_only; [lia|]. destruct el; try done; [by apply settled_settings|by apply settled_alias].
Qed.

Lemma landed_any loc : wf_location loc → landed 5 loc.
Proof.
  intros Hw. apply landed_S. destruct (pick (pathname loc)) as [r params] eqn:E.
  pose proof (pick_table (pathname loc)) as Ht. rewrite E in Ht.
  destruct (route_cases r Ht) as [(p & Ep & _)|(c & Hc & ->)].
  - by rewrite (visit_page _ _ _ _ E Ep).
  - eapply settled_shell; [lia|exact E|]. apply settled_outlet; [lia|]. by apply settled_child.
Qed.
End Follow.

(** ** A router that follows the table *)

Fixpoint strip_prefix (p s : string) : option string :=
  match p, s with
  | "", _ => Some s
  | String a p', String b s' => if Ascii.eqb a b then strip_prefix p' s' else None
  | _, "" => None
  end.

Lemma strip_prefix_app p s : strip_prefix p (p ++ s) = Some s.
Proof.
  induction p as [|a p IH]; [done|]. change (String a p ++ s) with (String a (p ++ s)). cbn [strip_prefix].
  by rewrite Ascii.eqb_refl.
Qed.

(** The child route whose last segment is a parameter, with the rest of the path. *)
Definition pick_segment (prefix name : string) (el : Element) (p : string) : option (Route * Params) :=
  match strip_prefix ("/" ++ prefix) p with
  | Some x => if nonempty x then Some (shell_route (prefix ++ ":" ++ name, el), [(name, x)]) else None
  | None => None
  end.

Definition sample_pick (p : string) : Route * Params :=
  match pick_segment "billing/invoices/" "invoiceId" (PageElement InvoiceDetailPage) p with
  | Some x => x
  | None =>
  match pick_segment "invoices/" "invoiceId" InvoiceDetailAliasElement p with
  | Some x => x
  | None =>
  match pick_segment "zev-settings/" "tab" (ProtectedRoute (Some ZEV_SCOPE) false ZevSettingsTabRoute) p with
  | Some x => x
  | None =>
  match find_first (λ r, static (path r) && String.eqb (path r) p) AppRoutes with
  | Some r => (r, [])
  | None => (not_found, [])
  end end end end.

Definition sample_parse (s : string) : Location :=
  let '(ps, h) := cut "#" s in let '(p, q) := cut "?" ps in {| pathname := p; search := q; hash := h |}.

#[export] Instance sample_router : Router := {| pick := sample_pick; matchPath := String.eqb; parsePath := sample_parse |}.

Lemma pick_segment_path prefix name el p r :
  pick_segment prefix name el p = Some r →
  r.1 = shell_route (prefix ++ ":" ++ name, el) ∧ ∃ x, params_get name r.2 = Some x ∧ nonempty x = true.
Proof.
  unfold pick_segment. destruct (strip_prefix _ _) as [x|]; [|done]. destruct (nonempty x) eqn:E; [|done].
  intros [= <-]. split; [done|]. exists x. unfold params_get. cbn. by rewrite String.eqb_refl.
Qed.

Lemma cut_marked c a s : free_of c a = true → marked c s → cut c (a ++ s) = (a, s).
Proof.
  intros Ha [->|(s' & -> & _)]; [|by apply cut_app]. rewrite str_app_nil_r. by apply cut_free.
Qed.

#[export] Instance sample_laws : @RouterLaws sample_router.
Proof.
  split; cbn [pick matchPath parsePath sample_router].
  - intros p. unfold sample_pick.
    destruct (pick_segment "billing/invoices/" _ _ p) as [x|] eqn:E1.
    { apply pick_segment_path in E1 as [-> _]. apply shell_in_table. by repeat (first [left|right]). }
    destruct (pick_segment "invoices/" _ _ p) as [x|] eqn:E2.
    { apply pick_segment_path in E2 as [-> _]. apply shell_in_table. by repeat (first [left|right]). }
    destruct (pick_segment "zev-settings/" _ _ p) as [x|] eqn:E3.
    { apply pick_segment_path in E3 as [-> _]. apply shell_in_table. by repeat (first [left|right]). }
    destruct (find_first _ AppRoutes) as [r|] eqn:E4; [by apply find_first_Some in E4 as [? ?]|].
    unfold AppRoutes. rewrite !elem_of_app, list_elem_of_singleton. by right; right.
  - assert (Forall (λ r, static (path r) = true → sample_pick (path r) = (r, [])) AppRoutes) as Hf.
    { repeat (apply Forall_cons; split; [first [by intros ?|intros _; reflexivity]|]). by apply Forall_nil. }
    rewrite Forall_forall in Hf. auto.
  - intros tab Ht. unfold sample_pick, pick_segment. rewrite (strip_prefix_app "/zev-settings/").
    revert tab Ht. apply Forall_forall. repeat (apply Forall_cons; split; [reflexivity|]). by apply Forall_nil.
  - intros x Hx. unfold sample_pick, pick_segment. rewrite (strip_prefix_app "/billing/invoices/").
    by rewrite encodeURIComponent_nonempty.
  - intros p. unfold sample_pick.
    destruct (pick_segment "billing/invoices/" _ _ p) as [x|] eqn:E1; [by apply pick_segment_path in E1 as [-> _]|].
    destruct (pick_segment "invoices/" _ _ p) as [x|] eqn:E2; [by apply pick_segment_path in E2 as [_ E]|].
    destruct (pick_segment "zev-settings/" _ _ p) as [x|] eqn:E3; [by apply pick_segment_path in E3 as [-> _]|].
    destruct (find_first _ AppRoutes) as [r|] eqn:E4; [|done]. apply find_first_Some in E4 as [_ E4].
    cbn. intros E. by rewrite E in E4.
  - done.
  - by intros p <-%String.eqb_eq.
  - intros p s h [[Hp Hp'] [Hs Hs'] Hh]. cbn [pathname search hash] in *. unfold sample_parse.
    rewrite <- str_app_assoc, cut_marked by (try done; by rewrite free_of_app, Hp', Hs'). by rewrite cut_marked.
Qed.

(** ** Who may see a page *)

Inductive Audience := Anyone | SignedIn | Roles (l : list CommunityRelation) | NoRole.

(** The audience a page is meant for, whatever the address that leads to it. *)
Definition audience (p : Page) : Audience :=
  match p with
  | LoginPage | VerifyEmailPage | ConfirmEmailChangePage | ForgotPasswordPage | ResetPasswordPage | OAuthCallbackPage
  | PublicInvoicePage | MagicSignInPage | ParticipantOnboardingPage | NotFoundPage => Anyone
  | AccountProfilePage => SignedIn
  | GuestHomePage => NoRole
  | AdminOverviewHubPage _ | AdminAccountsHubPage _ | AdminTemplatesHubPage _ | AdminSystemSettingsPage => Roles [RelAdmin]
  | OverviewPage | ParticipantsPage | ZevSettingsPage _ | TariffsPage | TariffProgressionPage | BillingHubPage _
  | ParticipantDocumentsPage | FeasibilityCalculatorPage => Roles ZEV_SCOPE
  | MeteringChartPage tab => Roles (if String.eqb tab "chart" then ACTIVE_SCOPE else ZEV_SCOPE)
  | DashboardPage | MyEnergyPage | MeteringPointsPage | ReportsPage | MyMeteringPointsPage => Roles ACTIVE_SCOPE
  | InvoiceDetailPage | DocumentsPage => Roles (ACTIVE_SCOPE ++ [RelFormer])
  end.

Definition admits (a : Audience) (r : ShellRole) : bool :=
  match a with
  | Anyone | SignedIn => true
  | Roles l => role_in r l
  | NoRole => bool_decide (r = None)
  end.

Definition guards_match (c : string * Element) : bool :=
  match c.2 with
  | ProtectedRoute (Some l) false (PageElement p) =>
      match audience p with
      | Roles l' => forallb (λ r, bool_decide (r ∈ l')) l
      | Anyone | SignedIn => true
      | NoRole => false
      end
  | PageElement AccountProfilePage => String.eqb c.1 "account"
  | PageElement InvoiceDetailPage => String.eqb c.1 "billing/invoices/:invoiceId"
  | PageElement _ => false
  | ProtectedRoute (Some l) false ZevSettingsTabRoute => bool_decide (l = ZEV_SCOPE)
  | _ => true
  end.

Lemma children_guarded : Forall (λ c, guards_match c = true) shell_children.
Proof. apply Forall_forall. intros c Hc. apply list_elem_of_In in Hc. revert c Hc. apply List.forallb_forall. by vm_compute. Qed.

Lemma role_in_sub r l l' : forallb (λ x, bool_decide (x ∈ l')) l = true → role_in r l = true → role_in r l' = true.
Proof.
  intros Hf (x & -> & Hx)%role_in_spec. apply role_in_spec. exists x. split; [done|].
  rewrite forallb_forall in Hf. by eapply bool_decide_eq_true_1, Hf, list_elem_of_In.
Qed.

(** Only an administrator has the role of one. *)
Lemma admin_role e u : user e = Some u → (shellRole (access_at e true) = Some RelAdmin ↔ is_admin u = true).
Proof.
  intros Hu. unfold access_at. rewrite Hu. cbn [useCommunityAccess shellRole accessFor]. cbn.
  destruct (is_admin u) eqn:Ea; [done|]. split; [|done]. intros Hr. exfalso.
  destruct (find_first _ _) as [c|] eqn:Ef; [|done]. cbn in Hr. injection Hr as Hr.
  apply find_first_Some in Ef as [Hc _].
  assert (c ∈ communityEntries (Some u) (default [] (zevs e))) as Hin.
  { revert Hc. unfold provider_entries. destruct (zevs e); [|done]. by intros [? ?]%elem_of_bfilter. }
  unfold communityEntries in Hin. rewrite Ea in Hin. apply list_elem_of_fmap in Hin as (m & -> & _). cbn in Hr.
  unfold relationOf in Hr. by repeat case_match.
Qed.

Lemma role_some_known r : r ≠ None → role_in r (ACTIVE_SCOPE ++ [RelFormer]) = true.
Proof. by destruct r as [[]|]. Qed.

Lemma home_shown a p : HomePage_render a = Shown p → isZevScope a = role_in (shellRole a) ZEV_SCOPE → admits (audience p) (shellRole a) = true.
Proof.
  unfold HomePage_render. intros Hp Hz. rewrite Hz in Hp. repeat case_match; try done; injection Hp as <-; cbn; try done.
  - by destruct (shellRole a) as [[]|].
Qed.

Section Access.
Context `{Router} `{!RouterLaws} (e : Env).

Lemma follow_shown n loc p : follow n e loc = Some (Shown p) → ∃ loc', visit e loc' = Shown p.
Proof.
  revert loc. induction n as [|n IH]; intros loc; [done|]. cbn [follow]. destruct (visit e loc) eqn:E; try done.
  - apply IH.
  - intros [= ->]. eauto.
Qed.

Lemma guard_shown params loc l child p :
  render e params loc true (ProtectedRoute (Some l) false child) = Shown p →
  render e params loc true child = Shown p ∧ role_in (shellRole (access_at e true)) l = true.
Proof.
  cbn [render]. unfold ProtectedRoute_render. destruct (isLoading e); [done|]. destruct (isAuthenticated e); [|done].
  cbn [negb orb]. destruct (must_change e && _); [done|]. case_match; [done|].
  by destruct (role_in _ l).
Qed.

Lemma child_shown c params loc p :
  c ∈ shell_children → render e params loc true c.2 = Shown p →
  admits (audience p) (shellRole (access_at e true)) = true
  ∨ p = InvoiceDetailPage ∧ c.1 = "billing/invoices/:invoiceId".
Proof.
  intros Hc Hr. pose proof children_ok as Hok. pose proof children_guarded as Hg.
  rewrite Forall_forall in Hok, Hg. specialize (Hok c Hc). specialize (Hg c Hc).
  destruct c as [n el]. unfold child_ok, guards_match in *. cbn [fst snd] in *.
  destruct el as [q| | |to| | |[l|] [] el| | |]; try done.
  - injection Hr as ->. destruct p; try done; [by left|]. right. split; [done|]. by apply String.eqb_eq.
  - left. by apply home_shown.
  - apply guard_shown in Hr as [Hr Hl]. left. destruct el as [q| | | | | | | | |]; try done.
    + injection Hr as ->. destruct (audience p); try done. by eapply role_in_sub.
    + apply bool_decide_eq_true_1 in Hg. subst l. cbn in Hr. unfold ZevSettingsTabRoute_render in Hr.
      repeat case_match; try done; by injection Hr as <-.
Qed.

(** In the shell, whose account page passes the gates, a page is seen past all of them. *)
Lemma shell_shown c params loc p :
  c ∈ shell_children → pick (pathname loc) = (shell_route c, params) → visit e loc = Shown p →
  isLoading e = false ∧ isAuthenticated e = true ∧ admits (audience p) (shellRole (access_at e true)) = true ∧
  (p ≠ AccountProfilePage →
   must_change e = false ∧ mfaGateState (λ _ _, false) (mfa e) (now e) (dismissed e) (isImpersonating e) "" = GatePass).
Proof.
  intros Hc E Hv. rewrite (visit_shell _ _ _ _ E) in Hv.
  destruct (isLoading e); [done|]. destruct (isAuthenticated e); [|done]. cbn [negb] in Hv.
  assert (isAccountPath loc = true → c = ("account", PageElement AccountProfilePage)) as Hacc.
  { intros Ha%account_routed. rewrite E in Ha. cbn [fst] in Ha.
    destruct (pick_named loc ("account", PageElement AccountProfilePage)) as [ps' E'].
    - by repeat (first [left|right]).
    - by rewrite E.
    - rewrite E in E'. destruct c as [n el]. unfold shell_route in E'. cbn in E'. by simplify_eq. }
  destruct (must_change e && negb (isAccountPath loc)) eqn:Em; [done|].
  destruct (gate e loc) eqn:Eg; try done. unfold outlet in Hv.
  destruct (bool_decide (shellRole (access_at e true) = None) && _ && _) eqn:Eo; [done|].
  split_and!; [done|done| |].
  - destruct (child_shown _ _ _ _ Hc Hv) as [?|[-> Hn]]; [done|]. apply role_some_known.
    intros Hr. rewrite Hr in Eo. cbn in Eo. destruct (String.eqb (pathname loc) "/") eqn:Ep.
    + apply String.eqb_eq in Ep. rewrite Ep, (child_of "" HomePage) in E; [|left|done].
      injection E as E _. destruct c as [n el]. cbn in Hn. subst n. unfold shell_route in E. by simplify_eq.
    + cbn in Eo. apply negb_false_iff in Eo. by rewrite (Hacc Eo) in Hn.
  - intros Hp. destruct (isAccountPath loc) eqn:Ea.
    { rewrite (Hacc eq_refl) in Hv. cbn in Hv. congruence. }
    rewrite andb_true_r in Em. split; [done|]. revert Eg. unfold gate, mfaGateState.
    unfold isAccountPath in Ea. by rewrite Ea.
Qed.
End Access.

(** C24. Whatever address is opened, once its redirects are followed: a page of the shell is
    only shown to a signed-in account whose role in the selected community is one the
    page is meant for; the pages of the platform only to administrators; and a user who
    has to change the password, or who needs a second factor past its grace period, sees
    no page of the shell but the account page, unless impersonated. *)
Theorem page_access `{Router} `{!RouterLaws} n e loc p :
  follow n e loc = Some (Shown p) → audience p ≠ Anyone →
  ∃ u, user e = Some u ∧ isLoading e = false ∧
    admits (audience p) (shellRole (access_at e true)) = true ∧
    (audience p = Roles [RelAdmin] → is_admin u = true) ∧
    (p ≠ AccountProfilePage → isImpersonating e = false →
     must_change_password u = false ∧
     ∀ s, mfa e = Some s → required s = true → enrolled s = false → in_grace s (now e) = true ∧ dismissed e = true).
Proof.
  intros (loc' & Hv)%follow_shown Ha. destruct (pick (pathname loc')) as [r params] eqn:E.
  pose proof (pick_table (pathname loc')) as Ht. rewrite E in Ht.
  destruct (route_cases r Ht) as [(q & Ep & Hq)|(c & Hc & ->)].
  { destruct Ha. rewrite (visit_page _ _ _ _ _ E Ep) in Hv. injection Hv as ->. clear Ep. revert p Hq.
    apply Forall_forall. by repeat constructor. }
  destruct (shell_shown e c params loc' p Hc E Hv) as (Hl & Hu & Had & Hg).
  unfold isAuthenticated in Hu. apply bool_decide_eq_true in Hu as [u Hu]. exists u. split_and!; try done.
  - intros Hr. rewrite Hr in Had. apply (admin_role e u Hu). apply role_in_spec in Had as (x & -> & Hx).
    by apply list_elem_of_singleton in Hx as ->.
  - intros Hp Hi. destruct (Hg Hp) as [Hm Hgate]. unfold must_change in Hm. rewrite Hu, Hi in Hm.
    rewrite andb_true_r in Hm. split; [done|]. intros s Hs Hr He. revert Hgate. unfold mfaGateState.
    rewrite Hs, Hi, Hr, He. cbn. by destruct (in_grace s (now e)), (dismissed e).
Qed.

Lemma follow_no_redirect `{Router} n e loc o to b : follow n e loc = Some o → o ≠ NavigateTo to b.
Proof. revert loc. induction n as [|n IH]; intros loc; [done|]. cbn [follow]. case_match; eauto; congruence. Qed.

(** C29. Opening any address ends with something on the screen: the guards and aliases send
    nobody in a circle, whoever is signed in, whatever the role in the selected
    community, and in whatever state the password and the second factor are.  At most
    four redirects are followed. *)
Theorem redirects_settle `{Router} `{!RouterLaws} e loc :
  wf_location loc → ∃ o, follow 5 e loc = Some o ∧ ∀ to b, o ≠ NavigateTo to b.
Proof. intros Hw. destruct (landed_any e loc Hw) as [o Ho]. exists o. split; [done|]. intros. by eapply follow_no_redirect. Qed.

(** An alias that names its destination, path and query, leads to that path with the
    hash of the address: each parameter the destination sets is read there as it sets
    it, any other as the address had it. *)
Theorem alias_keeps_params p q loc :
  free_of "?" p = true → free_of "#" p = true → free_of "#" q = true →
  (q = "" ∨ ∃ q', q = String "?" q' ∧ nonempty q' = true ∧ free_of "?" q' = true) →
  ∃ s, AliasNavigate (p ++ q) loc = p ++ s ++ hash loc ∧ marked "?" s ∧
    (∀ k, params_get k (parse_params s) = match params_get k (parse_params q) with
                                           | Some v => Some v
                                           | None => params_get k (parse_params (search loc))
                                           end) ∧
    ∃ rest, parse_params s = (parse_params q ++ rest)%list.
Proof. intros Hp Hh Hqh Hq. destruct (alias_shape p q loc) as (s & ? & ? & ? & ? & ?); eauto 10. Qed.

Lemma alias_keeps_params_witness :
  let loc := {| pathname := "/admin/oauth"; search := "?tab=users&q=a+b"; hash := "#x" |} in
  AliasNavigate ("/admin/system-settings" ++ "?tab=oauth") loc = "/admin/system-settings?tab=oauth&q=a+b#x" ∧
  ∃ s, AliasNavigate ("/admin/system-settings" ++ "?tab=oauth") loc = "/admin/system-settings" ++ s ++ hash loc ∧ marked "?" s ∧
    (∀ k, params_get k (parse_params s) = match params_get k (parse_params "?tab=oauth") with
                                           | Some v => Some v
                                           | None => params_get k (parse_params (search loc))
                                           end) ∧
    ∃ rest, parse_params s = (parse_params "?tab=oauth" ++ rest)%list.
Proof.
  split; [vm_compute; reflexivity|]. apply alias_keeps_params; [reflexivity..|]. right. exists "tab=oauth". auto.
Defined.

(** ** The links of the shell *)

Section Links.
Context `{Router} `{!RouterLaws} (e : Env) (u : User).
Context (signed_in : user e = Some u) (loaded : isLoading e = false).
Context (no_forced_change : must_change_password u = false ∨ isImpersonating e = true).
Context (gate_open : ∀ p, mfaGateState matchPath (mfa e) (now e) (dismissed e) (isImpersonating e) p = GatePass).

Lemma visit_open c :
  c ∈ shell_children → static ("/" ++ c.1) = true →
  visit e (at_path ("/" ++ c.1)) = outlet e [] (at_path ("/" ++ c.1)) c.2.
Proof.
  intros Hc Hs. rewrite (visit_shell e _ c []) by (by apply pick_child).
  assert (isAuthenticated e = true) as -> by (unfold isAuthenticated; rewrite signed_in; by apply bool_decide_eq_true).
  assert (must_change e = false) as ->.
  { unfold must_change. rewrite signed_in. destruct no_forced_change as [-> | ->]; [done|by rewrite andb_false_r]. }
  unfold gate. by rewrite loaded, gate_open.
Qed.

Definition opens (to : string) : Prop := ∃ p, visit e (parsePath to) = Shown p ∧ p ≠ NotFoundPage.

Lemma opens_guard n l child p :
  (n, ProtectedRoute (Some l) false child) ∈ shell_children → render e [] (at_path ("/" ++ n)) true child = Shown p → static ("/" ++ n) = true → free_of "?" ("/" ++ n) = true → free_of "#" ("/" ++ n) = true →
  p ≠ NotFoundPage → role_in (shellRole (access_at e true)) l = true → opens ("/" ++ n).
Proof.
  intros Hc Hshown Hs Hq Hh Hp Hr. exists p. split; [|done]. rewrite parse_path by done.
  etransitivity; [exact (visit_open (n, ProtectedRoute (Some l) false child) Hc Hs)|].
  unfold outlet. assert (shellRole (access_at e true) ≠ None) as Hn.
  { apply role_in_spec in Hr as (x & -> & _). done. }
  rewrite (bool_decide_eq_false_2 _ Hn). cbn [fst snd andb render]. rewrite Hshown. unfold ProtectedRoute_render.
  rewrite Hr, loaded. unfold isAuthenticated, must_change. rewrite signed_in, (bool_decide_eq_false_2 _ Hn). cbn.
  destruct no_forced_change as [-> | ->]; [done|]. by rewrite andb_false_r.
Qed.

Lemma opens_account : opens "/account".
Proof.
  exists AccountProfilePage. split; [|done]. rewrite parse_path, visit_account, loaded by done.
  unfold isAuthenticated. by rewrite signed_in.
Qed.

Lemma opens_home : shellRole (access_at e true) ≠ Some RelFormer → opens "/".
Proof.
  intros Hr. unfold opens. rewrite parse_path by done.
  assert (visit e (at_path "/") = outlet e [] (at_path "/") HomePage) as ->.
  { apply (visit_open ("", HomePage)); [left|done]. }
  unfold outlet. cbn [pathname at_path fst snd append]. rewrite String.eqb_refl, andb_false_r. cbn [negb andb render].
  unfold HomePage_render. rewrite (bool_decide_eq_false_2 _ Hr). repeat case_match; eauto.
Qed.
End Links.

(** The links the shell can offer each role. *)
Definition offered (r : ShellRole) : list string :=
  let zev := ["/"; "/dashboard"; "/my-energy"; "/metering/chart"; "/billing/invoices"; "/documents"; "/reports";
              "/participants"; "/metering/points"; "/tariffs"; "/zev-settings"; "/feasibility";
              "/me/metering-points"; "/me/documents"] in
  match r with
  | Some RelAdmin => (zev ++ ["/admin"; "/admin/accounts"; "/admin/templates"; "/admin/system-settings"])%list
  | Some RelManager | Some RelViewer => zev
  | Some RelParticipant => ["/"; "/my-energy"; "/me/documents"; "/me/statement"; "/me/metering-points"]
  | Some RelFormer => ["/me/documents"]
  | None => ["/account"]
  end.

Lemma sublist_when (b : bool) (l k : list string) : l `sublist_of` k → (if b then l else []) `sublist_of` k.
Proof. destruct b; [done|]. intros _. apply sublist_nil_l. Qed.

(** Evaluate the tests on a known role. *)
Ltac decide_roles :=
  repeat match goal with
  | |- context [role_in ?r ?l] => let b := eval vm_compute in (role_in r l) in change (role_in r l) with b
  | |- context [bool_decide (?r = ?r' :> ShellRole)] =>
      let b := eval vm_compute in (bool_decide (r = r' :> ShellRole)) in change (bool_decide (r = r' :> ShellRole)) with b
  end.

Lemma links_offered e f u :
  user e = Some u → sidebar_links e f `sublist_of` offered (shellRole (access_at e true)).
Proof.
  intros Hu. pose proof (admin_role e u Hu) as Ha. unfold sidebar_links. rewrite Hu.
  change (isZevScope (access_at e true)) with (role_in (shellRole (access_at e true)) ZEV_SCOPE).
  change (isParticipantScope (access_at e true)) with (role_in (shellRole (access_at e true)) [RelParticipant; RelFormer]).
  revert Ha. generalize (shellRole (access_at e true)) (is_admin u) (0 <? length (ownParticipantIds (Some u)))%nat.
  intros r admin holds Ha.
  assert (admin = bool_decide (r = Some RelAdmin)) as -> by (destruct admin; case_bool_decide; naive_solver).
  clear Ha. destruct r as [[]|]; decide_roles; cbn -[app];
    (etransitivity; [repeat first [apply sublist_app | apply sublist_when | reflexivity]|reflexivity]).
Qed.

Lemma offered_distinct r : NoDup (offered r).
Proof. apply (bool_decide_unpack _). destruct r as [[]|]; by vm_compute. Qed.

Definition link_ok (r : ShellRole) (to : string) : bool :=
  (String.eqb to "/" && negb (bool_decide (r = Some RelFormer))) || String.eqb to "/account"
  || (static to && free_of "?" to && free_of "#" to
      && existsb (λ c, String.eqb to ("/" ++ c.1)
           && match c.2 with
              | ProtectedRoute (Some l) false (PageElement p) =>
                  role_in r l && match audience p with Roles _ => true | _ => false end
              | ProtectedRoute (Some l) false ZevSettingsTabRoute => role_in r l
              | _ => false
              end) shell_children).

Lemma offered_ok r : forallb (link_ok r) (offered r) = true.
Proof. destruct r as [[]|]; by vm_compute. Qed.

Lemma link_opens `{Router} `{!RouterLaws} e u to :
  user e = Some u → isLoading e = false → must_change_password u = false ∨ isImpersonating e = true →
  (∀ p, mfaGateState matchPath (mfa e) (now e) (dismissed e) (isImpersonating e) p = GatePass) →
  link_ok (shellRole (access_at e true)) to = true → opens e to.
Proof.
  intros Hu Hl Hm Hg Hok. unfold link_ok in Hok. apply orb_prop in Hok as [Hok|Hok]; [apply orb_prop in Hok as [Hok|Hok]|].
  - apply andb_prop in Hok as [->%String.eqb_eq Hr]. apply negb_true_iff, bool_decide_eq_false in Hr. by eapply opens_home.
  - apply String.eqb_eq in Hok as ->. by eapply opens_account.
  - apply andb_prop in Hok as [Hst Hok]. apply andb_prop in Hst as [Hst Hh]. apply andb_prop in Hst as [Hst Hq].
    apply existsb_exists in Hok as ([n el] & Hc & Hok). apply list_elem_of_In in Hc. cbn [fst snd] in Hok.
    apply andb_prop in Hok as [->%String.eqb_eq Hok].
    destruct el as [| | | | | |[l|] [] child| | |]; try done. destruct child as [p| | | | | | | | |]; try done.
    + apply andb_prop in Hok as [Hr Hp]. eapply opens_guard; eauto. by destruct p.
    + eapply (opens_guard e u Hu Hl Hm Hg n l _ (ZevSettingsPage "general")); eauto.
Qed.

(** Every link of the sidebar leads to its page: an account whose password and second
    factor need nothing sees the page at once, without being sent elsewhere, for each
    role in the selected community and whatever features are on.  No address is offered
    twice. *)
Theorem sidebar_links_open `{Router} `{!RouterLaws} e f u :
  user e = Some u → isLoading e = false → must_change_password u = false ∨ isImpersonating e = true →
  (∀ p, mfaGateState matchPath (mfa e) (now e) (dismissed e) (isImpersonating e) p = GatePass) →
  NoDup (sidebar_links e f) ∧
  ∀ to, to ∈ sidebar_links e f → ∃ p, visit e (parsePath to) = Shown p ∧ p ≠ NotFoundPage.
Proof.
  intros Hu Hl Hm Hg. pose proof (links_offered e f u Hu) as Hs. split.
  - eapply sublist_NoDup; [apply offered_distinct|done].
  - intros to Hto. eapply link_opens; eauto. pose proof (offered_ok (shellRole (access_at e true))) as Hf.
    rewrite forallb_forall in Hf. apply Hf, list_elem_of_In. by eapply elem_of_sublist.
Qed.

(** ** A manager at work *)

Definition sample_env : Env :=
  {| isLoading := false; user := Some sample_user; zevs := Some [sample_zev]; pick_state := fresh_pick; mfa := None;
     now := 0; dismissed := false |}.

Lemma sidebar_links_open_witness :
  let f := {| liveEnabled := true; energyDataOn := true; holdsHistoryMeter := false; holdsOwnFlaggedMeter := false;
              feasibilityEnabled := false |} in
  "/me/documents" ∈ sidebar_links sample_env f ∧
  (NoDup (sidebar_links sample_env f) ∧
   ∀ to, to ∈ sidebar_links sample_env f → ∃ p, visit sample_env (parsePath to) = Shown p ∧ p ≠ NotFoundPage).
Proof.
  intros f. split; [apply (bool_decide_unpack _); reflexivity|].
  apply (sidebar_links_open sample_env f sample_user); [reflexivity|reflexivity|by left|by intros].
Defined.

Lemma redirects_settle_witness :
  let loc := {| pathname := "/metering-data"; search := "?tab=quality&from=2025-01-01"; hash := "#top" |} in
  follow 5 sample_env loc = Some (Shown (MeteringChartPage "quality")) ∧
  ∃ o, follow 5 sample_env loc = Some o ∧ ∀ to b, o ≠ NavigateTo to b.
Proof.
  intros loc. split; [reflexivity|]. apply redirects_settle. constructor; cbn.
  - by split.
  - split; [right; by exists "tab=quality&from=2025-01-01"|done].
  - right. by exists "top".
Defined.

Lemma page_access_witness :
  let loc := at_path "/imports" in
  ∃ u, user sample_env = Some u ∧ isLoading sample_env = false ∧
    admits (audience (MeteringChartPage "imports")) (shellRole (access_at sample_env true)) = true ∧
    (audience (MeteringChartPage "imports") = Roles [RelAdmin] → is_admin u = true) ∧
    (MeteringChartPage "imports" ≠ AccountProfilePage → isImpersonating sample_env = false →
     must_change_password u = false ∧
     ∀ s, mfa sample_env = Some s → required s = true → enrolled s = false →
          in_grace s (now sample_env) = true ∧ dismissed sample_env = true).
Proof. intros loc. apply (page_access 5 sample_env loc); [reflexivity|discriminate]. Defined.

(** ** Management content waits for the record of its community *)

Lemma scope_guard_children a v loading error stale :
  ScopeGuard a v loading error = GuardChildren stale →
  isZevScope a = false ∧ shellRole a ≠ None ∨
  ∃ z, selectedZev v = Some z ∧ zev_id z = selectedZevId v ∧ nonempty (selectedZevId v) = true ∧ stale = error.
Proof.
  unfold ScopeGuard. destruct (negb (isZevScope a) && negb (bool_decide (shellRole a = None))) eqn:E.
  - intros _. left. apply andb_prop in E as [Hz Hr]. apply negb_true_iff in Hz, Hr. split; [done|].
    by apply bool_decide_eq_false in Hr.
  - destruct (nonempty (selectedZevId v)) eqn:En; cbn; [|by destruct loading, error, (isAdmin a)].
    destruct (selectedZev v) as [z|]; cbn; [|by destruct loading, error, (isAdmin a)].
    destruct (String.eqb (zev_id z) (selectedZevId v)) eqn:Ez; cbn; [|by destruct loading, error, (isAdmin a)].
    intros [= ->]. right. apply String.eqb_eq in Ez. eauto.
Qed.
