(* ===== verification/RawMetering.v ===== *)
(** The readings of a meter, day by day: frontend/src/components/RawMeteringTable.tsx.
    The flags of a day and of its readings, the rows and the grid its readings are
    shown in, the bars of the totals and the pages of the table.  Intl's collation of
    timestamps is a parameter; markup, the curve and the held readings are left out. *)

From Stdlib Require Import Floats.SpecFloat.
From S2P Require Import Prelude JsString JsNumber JsFloat JsDate Dates MeteringPoints.
Local Open Scope string_scope.

Inductive ReadingDirection := DirIn | DirOut.
#[export] Instance ReadingDirection_eq_dec : EqDecision ReadingDirection.
Proof. solve_decision. Defined.

Definition direction_text (d : ReadingDirection) : string := match d with DirIn => "in" | DirOut => "out" end.

Record RawMeteringReading := {
  timestamp : string; direction : ReadingDirection; energy_kwh : num; resolution : string; import_source : string;
  condition : string;
}.

Record RawMeteringDailyRow := { row_date : string; in_kwh : num; out_kwh : num; readings_count : Z }.

(** ** Flags *)

Definition hasAssignmentOnDay (assignments : list MeteringPointAssignment) (date : string) : bool :=
  existsb (λ a, str_le (as_valid_from a) date
                && (negb (truthy_str (as_valid_to a)) || str_le date (default "" (as_valid_to a)))) assignments.

Definition zero : num := of_Z 0.

(** [zeroConsumptionWithHolder] and [negativeTotal]. *)
Definition dayAnomalyFlags (day : RawMeteringDailyRow) (assignments : list MeteringPointAssignment) : bool * bool :=
  (num_eqb (in_kwh day) zero && hasAssignmentOnDay assignments (row_date day),
   num_lt (in_kwh day) zero || num_lt (out_kwh day) zero).

Definition reading_key (r : RawMeteringReading) : string := timestamp r ++ "|" ++ direction_text (direction r).

Definition seen_counts (readings : list RawMeteringReading) : list (string * Z) :=
  foldl (λ seen r, omap_set (reading_key r) (default 0 (omap_get (reading_key r) seen) + 1)%Z seen) [] readings.

(** [negativeCount] and [duplicateCount]. *)
Definition readingAnomalies (readings : list RawMeteringReading) : nat * nat :=
  (length (bfilter (λ r, num_lt (energy_kwh r) zero) readings),
   length (bfilter (λ kv, (1 <? kv.2)%Z) (seen_counts readings))).

(** ** Rows and grid *)

Record IntervalRow := { ts : string; time : string; in_ : option num; out_ : option num }.

Record GridCell := { total : option num; cell_readings : list RawMeteringReading }.

Definition SLOT_MINUTES : list Z := [0; 15; 30; 45]%Z.
Definition HOURS : list nat := seq 0 24.

Section Readings.
Context `{Zone} (localeCompare : string → string → Z).

Definition formatTimeOnly (ts : string) : string :=
  match date_parse ts with
  | None => ts
  | Some d => pad2 (zp_hours (zonedParts d)) ++ ":" ++ pad2 (zp_minutes (zonedParts d))
  end.

Definition add_reading (row : IntervalRow) (r : RawMeteringReading) : IntervalRow :=
  match direction r with
  | DirIn => {| ts := ts row; time := time row; in_ := Some (num_add (default zero (in_ row)) (energy_kwh r)); out_ := out_ row |}
  | DirOut => {| ts := ts row; time := time row; in_ := in_ row; out_ := Some (num_add (default zero (out_ row)) (energy_kwh r)) |}
  end.

Definition interval_map (readings : list RawMeteringReading) : list (string * IntervalRow) :=
  foldl (λ map r,
    let row := default {| ts := timestamp r; time := formatTimeOnly (timestamp r); in_ := None; out_ := None |}
                 (omap_get (timestamp r) map) in
    omap_set (timestamp r) (add_reading row r) map) [] readings.

Definition pivotByInterval (readings : list RawMeteringReading) : list IntervalRow :=
  sort_by (λ a b, (localeCompare (ts a) (ts b) <=? 0)%Z) (map snd (interval_map readings)).

(** [SLOT_MINUTES.indexOf]. *)
Definition slot_of (minutes : Z) : option nat := find_index (Z.eqb minutes) SLOT_MINUTES.

Definition add_to_cell (r : RawMeteringReading) (cell : GridCell) : GridCell :=
  {| total := Some (num_add (default zero (total cell)) (energy_kwh r)); cell_readings := (cell_readings cell ++ [r])%list |}.

Definition empty_grid : list (list GridCell) :=
  map (λ _, map (λ _, {| total := None; cell_readings := [] |}) HOURS) SLOT_MINUTES.

(** The slot and hour of a reading of the direction; none where the loop continues. *)
Definition cell_of (dir : ReadingDirection) (r : RawMeteringReading) : option (nat * nat) :=
  if negb (bool_decide (direction r = dir)) then None
  else match date_parse (timestamp r) with
       | None => None
       | Some d =>
           let p := zonedParts d in
           match slot_of (zp_minutes p) with
           | Some slot => if ((0 <=? zp_hours p) && (zp_hours p <? 24))%Z then Some (slot, Z.to_nat (zp_hours p)) else None
           | None => None
           end
       end.

Definition buildHourGrid (readings : list RawMeteringReading) (dir : ReadingDirection) : list (list GridCell) :=
  foldl (λ grid r,
    match cell_of dir r with
    | Some (slot, hour) => alter (alter (add_to_cell r) hour) slot grid
    | None => grid
    end) empty_grid readings.
End Readings.

(** ** Bars *)

Definition dataBarPercent (value maxAbs : num) : num :=
  if num_le maxAbs zero then zero
  else math_min (of_Z 100) (num_mul (num_div (num_abs value) maxAbs) (of_Z 100)).

(** [Math.max(0, ...days.map((d) => Math.abs(get(d))))]. *)
Definition max_abs (get : RawMeteringDailyRow → num) (days : list RawMeteringDailyRow) : num :=
  foldl math_max zero (map (λ d, num_abs (get d)) days).

(** ** Pages *)

Definition DAYS_PER_PAGE : nat := 31.

Section Paging.
Context {A : Type}.

Definition pageCount (days : list A) : nat := Nat.max 1 ((length days + DAYS_PER_PAGE - 1) / DAYS_PER_PAGE).

(** [days.slice(page * DAYS_PER_PAGE, (page + 1) * DAYS_PER_PAGE)]. *)
Definition visibleDays (page : nat) (days : list A) : list A := take DAYS_PER_PAGE (drop (page * DAYS_PER_PAGE) days).

(** What the table is of (meter and period), the loaded days, the page and the open day. *)
Record raw_table := { table_key : string * string * string; days : list A; page : nat; expanded : option string }.

Inductive raw_event :=
| PreviousPage
| NextPage
| ToggleDay (date : string)
| ChangeTable (key : string * string * string) (loaded : list A)
| DaysArrive (loaded : list A).

Definition paged (s : raw_table) : bool := (DAYS_PER_PAGE <? length (days s))%nat.

Definition to_page (n : nat) (s : raw_table) : raw_table :=
  {| table_key := table_key s; days := days s; page := n; expanded := expanded s |}.

(** A click on a disabled or absent button does nothing; a changed meter or period runs
    the effect that goes back to the first page. *)
Definition raw_step (date_of : A → string) (ev : raw_event) (s : raw_table) : raw_table :=
  match ev with
  | PreviousPage => if negb (paged s) || bool_decide (page s = 0) then s else to_page (page s - 1) s
  | NextPage => if negb (paged s) || (pageCount (days s) - 1 <=? page s)%nat then s else to_page (page s + 1) s
  | ToggleDay date =>
      if bool_decide (date ∈ map date_of (visibleDays (page s) (days s)))
      then {| table_key := table_key s; days := days s; page := page s;
              expanded := if bool_decide (expanded s = Some date) then None else Some date |}
      else s
  | ChangeTable key loaded =>
      {| table_key := key; days := loaded; page := if bool_decide (table_key s = key) then page s else 0; expanded := expanded s |}
  | DaysArrive loaded => {| table_key := table_key s; days := loaded; page := page s; expanded := expanded s |}
  end.

Definition raw_run (date_of : A → string) (evs : list raw_event) (s : raw_table) : raw_table :=
  foldl (λ s ev, raw_step date_of ev s) s evs.

Definition raw_init (key : string * string * string) : raw_table :=
  {| table_key := key; days := []; page := 0; expanded := None |}.
End Paging.

(** ** Sums of readings *)

(** What accumulating [(cell ?? 0) + value] leaves. *)
Definition reading_sum (l : list num) : option num := match l with [] => None | _ => Some (foldl num_add zero l) end.

Lemma sum_snoc l x : reading_sum (l ++ [x]) = Some (num_add (default zero (reading_sum l)) x).
Proof. destruct l as [|y l]; [done|]. cbn [reading_sum default app]. f_equal. apply (foldl_snoc num_add zero (y :: l)). Qed.

Definition of_reading (t : string) (d : ReadingDirection) (r : RawMeteringReading) : bool :=
  String.eqb (timestamp r) t && bool_decide (direction r = d).

Definition values_of (t : string) (d : ReadingDirection) (l : list RawMeteringReading) : list num :=
  map energy_kwh (bfilter (of_reading t d) l).

Lemma values_snoc t d l r :
  values_of t d (l ++ [r]) = (values_of t d l ++ (if of_reading t d r then [energy_kwh r] else []))%list.
Proof. unfold values_of. rewrite bfilter_snoc, map_app. by destruct (of_reading t d r). Qed.

(** ** One row per timestamp *)

Section Rows.
Context `{Zone} (localeCompare : string → string → Z).

Lemma interval_map_get l t :
  omap_get t (interval_map l)
  = if existsb (λ r, String.eqb (timestamp r) t) l
    then Some {| ts := t; time := formatTimeOnly t; in_ := reading_sum (values_of t DirIn l); out_ := reading_sum (values_of t DirOut l) |}
    else None.
Proof.
  induction l as [|r l IH] using rev_ind; [done|]. unfold interval_map. rewrite foldl_snoc.
  change (foldl _ [] l) with (interval_map l). rewrite existsb_app. cbn [existsb]. rewrite orb_false_r.
  destruct (String.eqb (timestamp r) t) eqn:E.
  - apply String.eqb_eq in E. subst t. rewrite omap_get_set_eq, orb_true_r, IH. f_equal.
    rewrite !values_snoc. unfold of_reading. rewrite !String.eqb_refl. cbn [andb].
    assert (existsb (λ r0, String.eqb (timestamp r0) (timestamp r)) l = false → ∀ d, values_of (timestamp r) d l = []) as Hnone.
    { intros Hn d. unfold values_of. rewrite (proj2 (bfilter_nil _ _)); [done|]. intros x Hx. unfold of_reading.
      apply andb_false_iff. left. apply not_true_iff_false. intros Ex. apply not_true_iff_false in Hn. apply Hn.
      apply existsb_exists. exists x. split; [by apply list_elem_of_In|done]. }
    match goal with |- add_reading (default ?a (if _ then Some ?x else None)) _ = _ => assert (default a (if existsb (λ r0, String.eqb (timestamp r0) (timestamp r)) l then Some x else None) = x) as -> end.
    { destruct (existsb _ l); [done|]. cbn [default]. by rewrite !(Hnone eq_refl). }
    unfold add_reading. destruct (direction r) eqn:Ed; cbn [ts time in_ out_];
      [rewrite (bool_decide_eq_true_2 (DirIn = DirIn)), (bool_decide_eq_false_2 (DirIn = DirOut)) by done
      |rewrite (bool_decide_eq_true_2 (DirOut = DirOut)), (bool_decide_eq_false_2 (DirOut = DirIn)) by done];
      by rewrite app_nil_r, sum_snoc.
  - rewrite omap_get_set_ne by (intros ->; by rewrite String.eqb_refl in E). rewrite orb_false_r, IH.
    rewrite !values_snoc. unfold of_reading. rewrite E. cbn [andb]. by rewrite !app_nil_r.
Qed.

Lemma interval_map_keys l : (interval_map l).*1 = oset_of (map timestamp l).
Proof.
  induction l as [|r l IH] using rev_ind; [done|]. unfold interval_map. rewrite foldl_snoc.
  change (foldl _ [] l) with (interval_map l). rewrite omap_set_keys, IH. unfold oset_of. by rewrite map_app, foldl_app.
Qed.

Lemma interval_map_ts l kv : kv ∈ interval_map l → ts kv.2 = kv.1.
Proof.
  intros Hkv. destruct kv as [k v]. assert (NoDup (interval_map l).*1) as Hn by (rewrite interval_map_keys; apply NoDup_oset_of).
  apply (omap_elem_get _ _ _ Hn) in Hkv. rewrite interval_map_get in Hkv. destruct (existsb _ l); [|done]. by injection Hkv as <-.
Qed.

Lemma pivot_timestamps l : Permutation (map ts (pivotByInterval localeCompare l)) (oset_of (map timestamp l)).
Proof.
  unfold pivotByInterval. rewrite sort_by_perm, <- interval_map_keys, List.map_map.
  rewrite (map_ext_in _ fst); [done|]. intros kv Hkv. by apply (interval_map_ts l), list_elem_of_In.
Qed.

Lemma pivot_row l row : row ∈ pivotByInterval localeCompare l ↔
  ts row ∈ map timestamp l ∧ row = {| ts := ts row; time := formatTimeOnly (ts row);
    in_ := reading_sum (values_of (ts row) DirIn l); out_ := reading_sum (values_of (ts row) DirOut l) |}.
Proof.
  unfold pivotByInterval. rewrite elem_of_sort_by, list_elem_of_fmap.
  assert (NoDup (interval_map l).*1) as Hn by (rewrite interval_map_keys; apply NoDup_oset_of).
  assert (∀ t, existsb (λ r, String.eqb (timestamp r) t) l = true ↔ t ∈ map timestamp l) as He.
  { intros t. rewrite existsb_exists, list_elem_of_fmap. setoid_rewrite String.eqb_eq. setoid_rewrite <- list_elem_of_In. naive_solver. }
  split.
  - intros ([k v] & -> & Hv). cbn [snd]. apply (omap_elem_get _ _ _ Hn) in Hv. rewrite interval_map_get in Hv.
    destruct (existsb _ l) eqn:E; [|done]. injection Hv as <-. cbn [ts]. split; [by apply He|done].
  - intros [Ht Er]. exists (ts row, row). split; [done|]. apply omap_get_Some_elem. rewrite interval_map_get.
    apply He in Ht. rewrite Ht. by rewrite <- Er.
Qed.
End Rows.

(** ** Duplicates *)

Lemma str_app_cancel (a b s : string) : a ++ s = b ++ s → a = b.
Proof.
  revert b. induction a as [|x a IH]; intros [|y b] E.
  - done.
  - exfalso. apply (f_equal String.length) in E. rewrite !str_length_app in E. cbn in E. lia.
  - exfalso. apply (f_equal String.length) in E. rewrite !str_length_app in E. cbn in E. lia.
  - change (String x (a ++ s) = String y (b ++ s)) in E. injection E as -> E. f_equal. by apply IH.
Qed.

Lemma str_app_last a b x y : a ++ String x "" = b ++ String y "" → x = y.
Proof.
  revert b. induction a as [|c a IH]; intros [|d b] E.
  - by injection E.
  - destruct b; discriminate.
  - destruct a; discriminate.
  - change (String c (a ++ String x "") = String d (b ++ String y "")) in E. injection E as _ E. by apply (IH b).
Qed.

Lemma reading_key_inj r r' : reading_key r = reading_key r' → timestamp r = timestamp r' ∧ direction r = direction r'.
Proof.
  unfold reading_key. intros E. assert (direction r = direction r') as Ed.
  { destruct (direction r), (direction r'); try done; exfalso; cbn in E.
    - change "|in" with ("|i" ++ "n") in E. change "|out" with ("|ou" ++ "t") in E.
      rewrite <- !str_app_assoc in E. by apply str_app_last in E.
    - change "|in" with ("|i" ++ "n") in E. change "|out" with ("|ou" ++ "t") in E.
      rewrite <- !str_app_assoc in E. by apply str_app_last in E. }
  split; [|done]. rewrite Ed in E. by eapply str_app_cancel.
Qed.

Definition occurrences (k : string) (l : list RawMeteringReading) : nat := length (bfilter (λ r, String.eqb (reading_key r) k) l).

Lemma seen_get l k : omap_get k (seen_counts l) = if (0 <? occurrences k l)%nat then Some (Z.of_nat (occurrences k l)) else None.
Proof.
  induction l as [|r l IH] using rev_ind; [done|]. unfold seen_counts, occurrences. rewrite foldl_snoc, bfilter_snoc, length_app.
  change (foldl _ [] l) with (seen_counts l). change (length (bfilter (λ r0, String.eqb (reading_key r0) k) l)) with (occurrences k l).
  destruct (String.eqb (reading_key r) k) eqn:E.
  - apply String.eqb_eq in E. rewrite E, omap_get_set_eq, IH. cbn [length].
    rewrite (proj2 (Nat.ltb_lt 0 (occurrences k l + 1))) by lia.
    destruct (Nat.ltb_spec 0 (occurrences k l)); cbn [default]; unfold id; f_equal; lia.
  - rewrite omap_get_set_ne by (intros ->; by rewrite String.eqb_refl in E). rewrite Nat.add_0_r. exact IH.
Qed.

Lemma seen_keys l : (seen_counts l).*1 = oset_of (map reading_key l).
Proof.
  induction l as [|r l IH] using rev_ind; [done|]. unfold seen_counts. rewrite foldl_snoc.
  change (foldl _ [] l) with (seen_counts l). rewrite omap_set_keys, IH. unfold oset_of. by rewrite map_app, foldl_app.
Qed.

(** No warning is shown exactly when every timestamp and direction occurs once. *)
Lemma no_duplicates l :
  (readingAnomalies l).2 = 0 ↔ ∀ k, occurrences k l <= 1.
Proof.
  unfold readingAnomalies. cbn [snd].
  assert (NoDup (seen_counts l).*1) as Hn by (rewrite seen_keys; apply NoDup_oset_of). split.
  - intros Hl k. destruct (bfilter _ (seen_counts l)) eqn:E; [|done]. rewrite bfilter_nil in E.
    destruct (decide (occurrences k l <= 1)) as [|Hgt]; [done|]. exfalso.
    assert (omap_get k (seen_counts l) = Some (Z.of_nat (occurrences k l))) as Hk.
    { rewrite seen_get. by rewrite (proj2 (Nat.ltb_lt _ _)) by lia. }
    apply omap_get_Some_elem, E in Hk. cbn in Hk. bool_facts. lia.
  - intros Hk. rewrite (proj2 (bfilter_nil _ _)); [done|]. intros [k n] Hin. cbn.
    apply (omap_elem_get _ _ _ Hn) in Hin. rewrite seen_get in Hin. destruct (0 <? occurrences k l)%nat; [|done].
    injection Hin as <-. specialize (Hk k). apply Z.ltb_ge. lia.
Qed.

Lemma occurrences_of_reading r l : bfilter (of_reading (timestamp r) (direction r)) l = bfilter (λ r', String.eqb (reading_key r') (reading_key r)) l.
Proof.
  apply bfilter_ext. intros r' _. unfold of_reading. apply eq_true_iff_eq. rewrite andb_true_iff, !String.eqb_eq, bool_decide_eq_true.
  split; [|by intros [? ?]%reading_key_inj]. unfold reading_key. by intros [-> ->].
Qed.

Lemma singleton_filter {A} (p : A → bool) l x : x ∈ l → p x = true → length (bfilter p l) <= 1 → bfilter p l = [x].
Proof.
  intros Hx Hp Hl. assert (x ∈ bfilter p l) as Hin by by apply elem_of_bfilter.
  destruct (bfilter p l) as [|y [|z k]]; [by apply elem_of_nil in Hin| |cbn in Hl; lia].
  by apply list_elem_of_singleton in Hin as ->.
Qed.

Section Shown.
Context `{Zone} (localeCompare : string → string → Z).
Context (compare_total : ∀ a b, (localeCompare a b <= 0 ∨ localeCompare b a <= 0)%Z).

(** The rows of a day are its timestamps, each once and in the order of Intl, each with
    the sum of its readings of either direction and nothing where it has none.  When no
    warning of duplicates is shown, nothing was summed: each value of a row is one
    reading's. *)
Theorem intervals_exact readings :
  let rows := pivotByInterval localeCompare readings in
  Permutation (map ts rows) (oset_of (map timestamp readings)) ∧
  Sorted (λ a b, (localeCompare (ts a) (ts b) <=? 0)%Z = true) rows ∧
  (∀ row, row ∈ rows →
     in_ row = reading_sum (values_of (ts row) DirIn readings) ∧ out_ row = reading_sum (values_of (ts row) DirOut readings)) ∧
  ((readingAnomalies readings).2 = 0 → ∀ r, r ∈ readings →
     ∃ row, row ∈ rows ∧ ts row = timestamp r ∧
       match direction r with DirIn => in_ row | DirOut => out_ row end = Some (num_add zero (energy_kwh r))).
Proof.
  cbn zeta. split_and!.
  - apply pivot_timestamps.
  - apply sort_by_sorted. intros a b. rewrite !Z.leb_le. apply compare_total.
  - intros row [_ Er]%pivot_row. by rewrite Er.
  - intros Hd r Hr. rewrite no_duplicates in Hd.
    set (t := timestamp r).
    exists {| ts := t; time := formatTimeOnly t; in_ := reading_sum (values_of t DirIn readings); out_ := reading_sum (values_of t DirOut readings) |}.
    split; [|split; [done|]].
    + apply pivot_row. cbn [ts]. split; [|done]. by apply list_elem_of_fmap_2.
    + assert (values_of t (direction r) readings = [energy_kwh r]) as Hv.
      { unfold values_of, t. rewrite occurrences_of_reading, (singleton_filter _ _ r); [done|done|apply String.eqb_refl|apply Hd]. }
      cbn [in_ out_]. by destruct (direction r); rewrite Hv.
Qed.

(** ** The grid *)

Definition grid_cell (grid : list (list GridCell)) (slot hour : nat) : option GridCell := grid !! slot ≫= (λ row, row !! hour).

Definition in_cell (dir : ReadingDirection) (slot hour : nat) (r : RawMeteringReading) : bool :=
  bool_decide (cell_of dir r = Some (slot, hour)).

Lemma empty_cell slot hour : slot < 4 → hour < 24 → grid_cell empty_grid slot hour = Some {| total := None; cell_readings := [] |}.
Proof.
  intros Hs Hh. do 4 (destruct slot as [|slot]; [do 24 (destruct hour as [|hour]; [done|]); lia|]). lia.
Qed.

Lemma grid_cell_alter f grid s h slot hour :
  grid_cell (alter (alter f h) s grid) slot hour
  = (if bool_decide ((s, h) = (slot, hour)) then f else id) <$> grid_cell grid slot hour.
Proof.
  unfold grid_cell. destruct (decide (s = slot)) as [->|Hs].
  - rewrite list_lookup_alter, decide_True by done. destruct (grid !! slot) as [row|]; cbn; [|done].
    rewrite list_lookup_alter. destruct (decide (h = hour)) as [->|Hh].
    + by rewrite bool_decide_eq_true_2.
    + rewrite bool_decide_eq_false_2 by congruence. by destruct (row !! hour).
  - rewrite list_lookup_alter, decide_False by done. rewrite bool_decide_eq_false_2 by congruence.
    by destruct (grid !! slot ≫= _).
Qed.

(** A cell of the grid holds, in their order, exactly the readings of its direction at
    its hour and quarter of the business zone, with their sum; on the day the clocks go
    back that is the readings of both hours of the same name. *)
Theorem hour_grid_exact readings dir slot hour :
  slot < 4 → hour < 24 →
  ∃ cell, grid_cell (buildHourGrid readings dir) slot hour = Some cell ∧
    cell_readings cell = bfilter (in_cell dir slot hour) readings ∧
    total cell = reading_sum (map energy_kwh (cell_readings cell)).
Proof.
  intros Hs Hh. induction readings as [|r l IH] using rev_ind.
  { eexists. split; [by apply empty_cell|done]. }
  destruct IH as (cell & Ec & Er & Et). unfold buildHourGrid. rewrite foldl_snoc. change (foldl _ empty_grid l) with (buildHourGrid l dir).
  rewrite bfilter_snoc. unfold in_cell at 2. destruct (cell_of dir r) as [[s h]|] eqn:E.
  - rewrite grid_cell_alter, Ec. case_bool_decide as Eq.
    + rewrite bool_decide_eq_true_2 by congruence. eexists. split; [done|]. cbn. rewrite Er. split; [done|].
      rewrite map_app. cbn [map]. by rewrite sum_snoc, <- Er, <- Et.
    + rewrite bool_decide_eq_false_2 by congruence. exists cell. rewrite app_nil_r. done.
  - rewrite bool_decide_eq_false_2 by done. exists cell. by rewrite app_nil_r.
Qed.

(** Every reading on a quarter of an hour has its cell. *)
Lemma quarter_has_cell `{!ZoneLaws} dir r d :
  direction r = dir → date_parse (timestamp r) = Some d → zp_minutes (zonedParts d) ∈ SLOT_MINUTES →
  ∃ slot hour, cell_of dir r = Some (slot, hour) ∧ slot < 4 ∧ hour < 24.
Proof.
  intros Hd Hp Hm. unfold cell_of. rewrite (bool_decide_eq_true_2 _ Hd), Hp. cbn [negb].
  assert (0 <= zp_hours (zonedParts d) < 24)%Z as Hh.
  { unfold zonedParts. cbn [zp_hours]. pose proof (Z.mod_pos_bound (d + offset_ms d) DAY_MS ltac:(by unfold DAY_MS)).
    unfold HOUR_MS, DAY_MS in *. split; [by apply Z.div_pos; lia|by apply Z.div_lt_upper_bound; lia]. }
  assert (∃ s, slot_of (zp_minutes (zonedParts d)) = Some s ∧ s < 4) as (s & -> & Hs).
  { revert Hm. generalize (zp_minutes (zonedParts d)). clear. apply Forall_forall.
    repeat constructor; cbn beta; [exists 0|exists 1|exists 2|exists 3]; (split; [reflexivity|lia]). }
  rewrite (proj2 (Z.leb_le _ _)), (proj2 (Z.ltb_lt _ _)) by lia. cbn. exists s, (Z.to_nat (zp_hours (zonedParts d))).
  split; [done|]. lia.
Qed.
End Shown.

(** ** The pages *)

Section Pages.
Context {A : Type}.

Lemma pageCount_spec (l : list A) :
  1 <= pageCount l ∧ length l <= pageCount l * DAYS_PER_PAGE ∧ (l ≠ [] → (pageCount l - 1) * DAYS_PER_PAGE < length l).
Proof.
  unfold pageCount, DAYS_PER_PAGE. pose proof (Nat.div_mod (length l + 31 - 1) 31 ltac:(lia)).
  pose proof (Nat.mod_upper_bound (length l + 31 - 1) 31 ltac:(lia)). split_and!; [lia|lia|].
  intros Hl. assert (0 < length l) by (destruct l; [done|cbn; lia]). lia.
Qed.

Lemma page_nonempty p (l : list A) : p < pageCount l → l ≠ [] → visibleDays p l ≠ [].
Proof.
  intros Hp Hl E. destruct (pageCount_spec l) as (_ & _ & Hc). specialize (Hc Hl).
  apply (f_equal length) in E. unfold visibleDays in E. rewrite length_take, length_drop in E. cbn [length] in E.
  unfold DAYS_PER_PAGE in *. nia.
Qed.

Lemma pages_from k (l : list A) :
  concat (map (λ p, visibleDays p l) (seq 0 k)) = take (k * DAYS_PER_PAGE) l.
Proof.
  induction k as [|k IH]; [done|]. rewrite seq_S, map_app, concat_app, IH. cbn [map concat Nat.add]. rewrite app_nil_r.
  unfold visibleDays. replace (S k * DAYS_PER_PAGE) with (k * DAYS_PER_PAGE + DAYS_PER_PAGE) by lia.
  by rewrite take_take_drop.
Qed.

(** A load that does not shorten the list on the screen. *)
Definition keeps_length (ev : raw_event (A:=A)) (s : raw_table (A:=A)) : Prop :=
  match ev with
  | DaysArrive loaded => length (days s) <= length loaded
  | ChangeTable key loaded => table_key s ≠ key
  | _ => True
  end.

Inductive raw_reach (date_of : A → string) : raw_table (A:=A) → Prop :=
| reach_init key : raw_reach date_of (raw_init key)
| reach_step ev s : raw_reach date_of s → keeps_length ev s → raw_reach date_of (raw_step date_of ev s).

Lemma pageCount_mono (l k : list A) : length l <= length k → pageCount l <= pageCount k.
Proof.
  intros Hl. unfold pageCount, DAYS_PER_PAGE.
  assert ((length l + 31 - 1) / 31 <= (length k + 31 - 1) / 31) by (apply Nat.Div0.div_le_mono; lia). lia.
Qed.

Lemma page_exists date_of s : raw_reach date_of s → page s < pageCount (days s).
Proof.
  induction 1 as [key|ev s _ IH Hk]; [cbn; unfold pageCount; lia|].
  destruct ev as [| |date|key loaded|loaded]; cbn [raw_step keeps_length] in *.
  - case_match; [done|]. cbn. lia.
  - case_match eqn:E; [done|]. apply orb_false_elim in E as [_ E]. apply Nat.leb_gt in E. cbn. lia.
  - by case_match.
  - rewrite bool_decide_eq_false_2 by done. cbn. unfold pageCount. lia.
  - cbn. eapply Nat.lt_le_trans; [exact IH|]. by apply pageCount_mono.
Qed.

(** Paging through the table shows every day once and in order.  As long as no answer
    shortens the list of the meter and period on the screen, the current page exists,
    is not empty unless there are no days, and another meter or period starts on the
    first page. *)
Theorem raw_pages_tile date_of s :
  raw_reach date_of s →
  concat (map (λ p, visibleDays p (days s)) (seq 0 (pageCount (days s)))) = days s ∧
  page s < pageCount (days s) ∧
  (days s ≠ [] → visibleDays (page s) (days s) ≠ []) ∧
  ∀ key loaded, key ≠ table_key s → page (raw_step date_of (ChangeTable key loaded) s) = 0.
Proof.
  intros Hs. pose proof (page_exists date_of s Hs) as Hp. split_and!; [|done|by apply page_nonempty|].
  - rewrite pages_from. apply take_ge. by destruct (pageCount_spec (days s)) as (_ & ? & _).
  - intros key loaded Hk. cbn. by rewrite bool_decide_eq_false_2 by congruence.
Qed.
End Pages.

Definition key_q1 : string * string * string := ("m1", "2026-01-01", "2026-02-09").
Definition forty : list string := map (λ n, pad2 (Z.of_nat n)) (seq 1 40).

Lemma raw_pages_tile_witness :
  let s := raw_run id [DaysArrive forty; NextPage] (raw_init key_q1) in
  page s = 1 ∧
  (concat (map (λ p, visibleDays p (days s)) (seq 0 (pageCount (days s)))) = days s ∧
   page s < pageCount (days s) ∧
   (days s ≠ [] → visibleDays (page s) (days s) ≠ []) ∧
   ∀ key loaded, key ≠ table_key s → page (raw_step id (ChangeTable key loaded) s) = 0).
Proof.
  intros s. split; [reflexivity|]. apply (raw_pages_tile id s).
  apply (reach_step id NextPage); [|exact I]. apply (reach_step id (DaysArrive forty)); [apply reach_init|]. cbn. lia.
Defined.

(** The page is not brought back when the list of the same meter and period becomes
    shorter: on the second page of forty days, an answer with thirty (after readings
    were deleted) leaves a table without rows and without buttons to page back. *)
Lemma shorter_list_strands_page :
  let s := raw_run id [DaysArrive forty; NextPage; DaysArrive (take 30 forty)] (raw_init key_q1) in
  days s ≠ [] ∧ visibleDays (page s) (days s) = [] ∧ paged s = false ∧
  ∀ ev, ev = PreviousPage ∨ ev = NextPage ∨ (∃ d, ev = ToggleDay d) → raw_step id ev s = s.
Proof.
  intros s. split_and!; [done|reflexivity|reflexivity|].
  intros ev [-> | [-> | [d ->]]]; [reflexivity|reflexivity|]. unfold raw_step.
  change (visibleDays (page s) (days s)) with (@nil string). rewrite bool_decide_eq_false_2; [done|]. cbn. apply not_elem_of_nil.
Qed.

(** ** The bars *)

(** A number that is not NaN and has no minus sign. *)
Definition unsigned (x : num) : Prop :=
  match x with S754_zero s | S754_infinity s | S754_finite s _ _ => s = false | S754_nan => False end.

Lemma shr_keeps m e l : (0 <= m)%Z → (0 <= shr_m (shr_fexp 53 1024 m e l).1)%Z.
Proof.
  intros Hm. destruct (shr_fexp_spec m e l Hm) as (r & -> & Hr). cbn [fst]. rewrite Hr.
  apply Z.div_pos; [done|]. apply Z.pow_pos_nonneg; lia.
Qed.

Lemma round_unsigned m e l : (0 <= m)%Z → unsigned (binary_round_aux 53 1024 false m e l).
Proof.
  intros Hm. unfold binary_round_aux. pose proof (shr_keeps m e l Hm) as H1.
  destruct (shr_fexp 53 1024 m e l) as [r e1]. cbn [fst] in H1.
  set (m2 := round_nearest_even (shr_m r) (loc_of_shr_record r)).
  assert (0 <= m2)%Z as H2 by (unfold m2; destruct (round_nearest_even_cases (shr_m r) (loc_of_shr_record r)); lia).
  pose proof (shr_keeps m2 e1 loc_Exact H2) as H3. destruct (shr_fexp 53 1024 m2 e1 loc_Exact) as [r2 e2]. cbn [fst] in H3.
  destruct (shr_m r2) as [|p|p]; [done| |lia]. by destruct (e2 <=? 1024 - 53)%Z.
Qed.

Lemma div_unsigned v w : unsigned v → is_finite v = true → unsigned w → num_lt zero w = true → is_finite w = true →
  unsigned (num_div v w).
Proof.
  destruct v as [s| | |s m e]; try done; destruct w as [s'| | |s' m' e']; try done; cbn [unsigned]; intros -> _ -> Hw _; try done.
  unfold num_div, SFdiv. destruct (SFdiv_core_binary 53 1024 (Z.pos m) e (Z.pos m') e') as [[mz ez] lz] eqn:E.
  apply round_unsigned. revert E. unfold SFdiv_core_binary. cbv zeta.
  match goal with |- context [Z.div_eucl ?a ?b] => pose proof (Z_div_pos a b ltac:(lia)) as Hd; unfold Z.div in Hd; destruct (Z.div_eucl a b) as [q r] end.
  intros [= <- _ _]. apply Hd. repeat case_match; try lia. all: try (apply Z.shiftl_nonneg; lia).
Qed.

Lemma mul_unsigned v : unsigned v → unsigned (num_mul v (of_Z 100)).
Proof.
  assert (of_Z 100 = S754_finite false 7036874417766400 (-46)) as -> by reflexivity.
  destruct v as [s|s| |s m e]; try done; cbn [unsigned]; intros ->; cbn; try done.
  by apply (round_unsigned (Z.pos _)).
Qed.

Lemma unsigned_le v : unsigned v → num_le zero v = true.
Proof. change zero with (S754_zero false). destruct v as [s|s| |s m e]; try done; cbn [unsigned]; intros ->; done. Qed.

Lemma finite_positive a : is_finite a = true → num_le a zero = false → num_lt zero a = true.
Proof. change zero with (S754_zero false). destruct a as [[]| | |[] m e]; done. Qed.

Lemma max_abs_finite get ds : (∀ d, d ∈ ds → is_finite (get d) = true) → is_finite (max_abs get ds) = true.
Proof.
  unfold max_abs. intros Hd. assert (is_finite zero = true) as Hz by done. revert Hz. generalize zero.
  induction ds as [|d ds IH]; intros a Ha; [done|]. cbn [map foldl]. apply IH; [set_solver|].
  assert (is_finite (num_abs (get d)) = true) as Hg.
  { specialize (Hd d ltac:(left)). by destruct (get d). }
  unfold math_max. destruct a, (num_abs (get d)); try done; cbn [is_nan orb]; by case_match.
Qed.

(** The bar behind a total is between nothing and the whole cell, whatever the finite
    totals of the period, and empty when all of them are zero. *)
Theorem data_bar_bounds get ds d :
  (∀ d, d ∈ ds → is_finite (get d) = true) → d ∈ ds →
  let bar := dataBarPercent (get d) (max_abs get ds) in
  num_le zero bar = true ∧ num_le bar (of_Z 100) = true ∧ (num_eqb (max_abs get ds) zero = true → bar = zero).
Proof.
  intros Hf Hd bar. pose proof (max_abs_finite get ds Hf) as Hm. specialize (Hf d Hd).
  unfold bar, dataBarPercent. destruct (num_le (max_abs get ds) zero) eqn:E.
  - split_and!; [reflexivity|reflexivity|done].
  - assert (num_lt zero (max_abs get ds) = true) as Hlt by (by apply finite_positive).
    assert (unsigned (num_mul (num_div (num_abs (get d)) (max_abs get ds)) (of_Z 100))) as Hu.
    { apply mul_unsigned, div_unsigned; [by destruct (get d)|by destruct (get d)| |done|done].
      by destruct (max_abs get ds) as [[]|[]| |[] ? ?]. }
    set (x := num_mul _ _) in *. unfold math_min. assert (is_nan x = false) as Hnan by (by destruct x).
    rewrite Hnan. cbn [is_nan orb]. change (is_nan (of_Z 100)) with false. cbn [orb].
    destruct (num_lt x (of_Z 100)) eqn:Ex; split_and!.
    + by apply unsigned_le.
    + by apply num_lt_le.
    + intros He. unfold num_eqb, num_le, SFeqb, SFleb in *. by destruct (SFcompare _ _) as [[]|].
    + reflexivity.
    + reflexivity.
    + intros He. unfold num_eqb, num_le, SFeqb, SFleb in *. by destruct (SFcompare _ _) as [[]|].
Qed.

(** ** A day of readings *)

Definition sample_readings : list RawMeteringReading :=
  map (λ p, {| timestamp := p.1.1; direction := p.1.2; energy_kwh := of_Z p.2; resolution := "15min"; import_source := "sdat"; condition := "" |})
    [("2026-10-25T02:15:00+02:00", DirIn, 1%Z); ("2026-10-25T02:15:00+01:00", DirIn, 2%Z); ("2026-10-25T02:15:00+01:00", DirOut, 3%Z)].

Lemma hour_grid_exact_witness :
  ∃ cell, grid_cell (buildHourGrid (H:=zurich) sample_readings DirIn) 1 2 = Some cell ∧
    cell_readings cell = bfilter (in_cell (H:=zurich) DirIn 1 2) sample_readings ∧
    total cell = reading_sum (map energy_kwh (cell_readings cell)).
Proof. apply (hour_grid_exact (H:=zurich)); lia. Defined.

Lemma intervals_exact_witness :
  let rows := pivotByInterval (H:=zurich) byte_order sample_readings in
  length rows = 2 ∧
  (Permutation (map ts rows) (oset_of (map timestamp sample_readings)) ∧
   Sorted (λ a b, (byte_order (ts a) (ts b) <=? 0)%Z = true) rows ∧
   (∀ row, row ∈ rows →
      in_ row = reading_sum (values_of (ts row) DirIn sample_readings) ∧ out_ row = reading_sum (values_of (ts row) DirOut sample_readings)) ∧
   ((readingAnomalies sample_readings).2 = 0 → ∀ r, r ∈ sample_readings →
      ∃ row, row ∈ rows ∧ ts row = timestamp r ∧
        match direction r with DirIn => in_ row | DirOut => out_ row end = Some (num_add zero (energy_kwh r)))).
Proof. intros rows. split; [reflexivity|]. apply (intervals_exact (H:=zurich) byte_order byte_order_total). Defined.

Lemma data_bar_bounds_witness :
  let day n := {| row_date := "2026-01-01"; in_kwh := of_Z n; out_kwh := of_Z 0; readings_count := 96 |} in
  let ds := [day 3; day (-12)]%Z in
  let bar := dataBarPercent (in_kwh (day (-12)%Z)) (max_abs in_kwh ds) in
  bar = of_Z 100 ∧
  (num_le zero bar = true ∧ num_le bar (of_Z 100) = true ∧ (num_eqb (max_abs in_kwh ds) zero = true → bar = zero)).
Proof.
  intros day ds bar. split; [reflexivity|]. apply (data_bar_bounds in_kwh ds (day (-12)%Z)).
  - intros d [->|[->|[]%elem_of_nil]%elem_of_cons]%elem_of_cons; reflexivity.
  - right. left.
Defined.
