(* ===== verification/SettingsDraft.v ===== *)
(** The draft of the community settings: frontend/src/pages/ZevSettingsPage.tsx and
    lib/zevUnsavedGuard.ts.  One draft feeds three tabs and is saved as a whole while
    the selected community, the list of communities and the answers of earlier saves
    change around it.

    [page] holds the page's state and refs, the part of the query cache it reads and the
    saves in flight; [handle] is one event and [effects] the effects of the render after
    it.  A click reaches the page as it is rendered.  The other parts of the page (people,
    energy data, audit, export, switching the community off) are not modelled. *)

From S2P Require Import Prelude JsString JsNumber Json JsDate ZevForm.
Local Open Scope string_scope.

(** The variables of [updateMutation], numbered in the order they were sent. *)
Record save := { save_no : nat; save_id : string; payload : ZevInput; save_epoch : nat }.

(** A partial form: the keys it sets and how. *)
Record patch := { patch_keys : list ZevFormField; patch_form : ZevInput → ZevInput }.

Record ZevDraft := { draft_zev : option string; epoch : nat; form : ZevInput; baseline : ZevInput }.

(** An entry of [acceptedSaveRef]. *)
Record accepted_save := { updatedAt : string; accepted_form : ZevInput }.

Record feedback := {
  error : option string;
  fieldErrors : list (ZevFormField * string);
  pendingFocus : option ZevFormField;
  focused : list ZevFormField;
}.

Record page := {
  selectedZevId : string;
  zevs : option (list Zev);
  canWrite : bool;
  tab : ZevSettingsTab;
  draft : ZevDraft;
  shown : feedback;
  accepted : list (string * accepted_save);
  flights : list save;
  observed : option save;
  sent : list save;
  unsavedGuard : bool;
  emailEditorRevision : nat;
}.

Definition set_selected (id : string) (s : page) : page :=
  {| selectedZevId := id; zevs := zevs s; canWrite := canWrite s; tab := tab s; draft := draft s; shown := shown s;
     accepted := accepted s; flights := flights s; observed := observed s; sent := sent s;
     unsavedGuard := unsavedGuard s; emailEditorRevision := emailEditorRevision s |}.
Definition set_zevs (l : option (list Zev)) (s : page) : page :=
  {| selectedZevId := selectedZevId s; zevs := l; canWrite := canWrite s; tab := tab s; draft := draft s; shown := shown s;
     accepted := accepted s; flights := flights s; observed := observed s; sent := sent s;
     unsavedGuard := unsavedGuard s; emailEditorRevision := emailEditorRevision s |}.
Definition set_access (b : bool) (s : page) : page :=
  {| selectedZevId := selectedZevId s; zevs := zevs s; canWrite := b; tab := tab s; draft := draft s; shown := shown s;
     accepted := accepted s; flights := flights s; observed := observed s; sent := sent s;
     unsavedGuard := unsavedGuard s; emailEditorRevision := emailEditorRevision s |}.
Definition set_tab (t : ZevSettingsTab) (s : page) : page :=
  {| selectedZevId := selectedZevId s; zevs := zevs s; canWrite := canWrite s; tab := t; draft := draft s; shown := shown s;
     accepted := accepted s; flights := flights s; observed := observed s; sent := sent s;
     unsavedGuard := unsavedGuard s; emailEditorRevision := emailEditorRevision s |}.
Definition setDraft (d : ZevDraft) (s : page) : page :=
  {| selectedZevId := selectedZevId s; zevs := zevs s; canWrite := canWrite s; tab := tab s; draft := d; shown := shown s;
     accepted := accepted s; flights := flights s; observed := observed s; sent := sent s;
     unsavedGuard := unsavedGuard s; emailEditorRevision := emailEditorRevision s |}.
Definition set_shown (f : feedback) (s : page) : page :=
  {| selectedZevId := selectedZevId s; zevs := zevs s; canWrite := canWrite s; tab := tab s; draft := draft s; shown := f;
     accepted := accepted s; flights := flights s; observed := observed s; sent := sent s;
     unsavedGuard := unsavedGuard s; emailEditorRevision := emailEditorRevision s |}.
Definition set_accepted (a : list (string * accepted_save)) (s : page) : page :=
  {| selectedZevId := selectedZevId s; zevs := zevs s; canWrite := canWrite s; tab := tab s; draft := draft s; shown := shown s;
     accepted := a; flights := flights s; observed := observed s; sent := sent s;
     unsavedGuard := unsavedGuard s; emailEditorRevision := emailEditorRevision s |}.
Definition set_saves (f : list save) (o : option save) (l : list save) (s : page) : page :=
  {| selectedZevId := selectedZevId s; zevs := zevs s; canWrite := canWrite s; tab := tab s; draft := draft s; shown := shown s;
     accepted := accepted s; flights := f; observed := o; sent := l;
     unsavedGuard := unsavedGuard s; emailEditorRevision := emailEditorRevision s |}.
Definition setZevUnsavedDraftGuard (b : bool) (s : page) : page :=
  {| selectedZevId := selectedZevId s; zevs := zevs s; canWrite := canWrite s; tab := tab s; draft := draft s; shown := shown s;
     accepted := accepted s; flights := flights s; observed := observed s; sent := sent s;
     unsavedGuard := b; emailEditorRevision := emailEditorRevision s |}.
Definition bump_editor (s : page) : page :=
  {| selectedZevId := selectedZevId s; zevs := zevs s; canWrite := canWrite s; tab := tab s; draft := draft s; shown := shown s;
     accepted := accepted s; flights := flights s; observed := observed s; sent := sent s;
     unsavedGuard := unsavedGuard s; emailEditorRevision := S (emailEditorRevision s) |}.

(** [setError(null); setFieldErrors({})] with the focus to move dropped or kept. *)
Definition clear_errors (keep_focus : bool) (s : page) : page :=
  set_shown {| error := None; fieldErrors := []; pendingFocus := if keep_focus then pendingFocus (shown s) else None;
               focused := focused (shown s) |} s.

(** ** A render *)

Definition selectedZev (s : page) : option Zev :=
  find_first (λ z, String.eqb (zev_id z) (selectedZevId s)) (default [] (zevs s)).

Definition draftIsSelected (s : page) : bool :=
  bool_decide (draft_zev (draft s) = Some (selectedZevId s)) && bool_decide (is_Some (selectedZev s)).

Definition isDirty (s : page) : bool := draftIsSelected s && isZevFormDirty (form (draft s)) (baseline (draft s)).

Definition isPending (s : page) : bool :=
  match observed s with
  | Some v => String.eqb (save_id v) (selectedZevId s) && (save_epoch v =? epoch (draft s))%nat
  | None => false
  end.

Definition controlsReadOnly (s : page) : bool := negb (canWrite s) || isPending s.

Definition showSaveBar (s : page) : bool := isDirty s || isPending s || bool_decide (is_Some (error (shown s))).

(** [Date.parse(a) < Date.parse(b)], and [<=]; false for a text that is no date. *)
Definition date_lt (a b : string) : bool :=
  match date_parse a, date_parse b with Some x, Some y => (x <? y)%Z | _, _ => false end.
Definition date_le (a b : string) : bool :=
  match date_parse a, date_parse b with Some x, Some y => (x <=? y)%Z | _, _ => false end.

(** ** Effects *)

(** The form the draft of a record shows: an older record than the last accepted save
    does not take its place. *)
Definition sync_target (s : page) (zev : Zev) : ZevInput :=
  let incoming := mapZevToForm zev in
  match omap_get (selectedZevId s) (accepted s) with
  | Some a =>
      if nonempty (zev_updated_at zev) && date_le (zev_updated_at zev) (updatedAt a) && isZevFormDirty incoming (accepted_form a)
      then accepted_form a else incoming
  | None => incoming
  end.

Definition sync_effect (s : page) : page :=
  match selectedZev s with
  | None => s
  | Some zev =>
      let target := sync_target s zev in
      if negb (bool_decide (draft_zev (draft s) = Some (selectedZevId s)))
      then setDraft {| draft_zev := Some (selectedZevId s); epoch := S (epoch (draft s)); form := target; baseline := target |}
             (clear_errors false s)
      else if isDirty s then s
      else if isZevFormDirty (baseline (draft s)) target
           then setDraft {| draft_zev := draft_zev (draft s); epoch := epoch (draft s); form := target; baseline := target |} s
           else s
  end.

Definition guard_effect (s : page) : page := setZevUnsavedDraftGuard (isDirty s) s.

Definition error_effect (s : page) : page :=
  if negb (isDirty s) && bool_decide (is_Some (error (shown s))) then clear_errors true s else s.

Definition tab_of (f : ZevFormField) : ZevSettingsTab := default TabGeneral (omap_get f ZEV_FIELD_TABS).

Definition focus_effect (s : page) : page :=
  match pendingFocus (shown s) with
  | None => s
  | Some field =>
      if negb (draftIsSelected s) || controlsReadOnly s || negb (bool_decide (tab_of field = tab s)) then s
      else set_shown {| error := error (shown s); fieldErrors := fieldErrors (shown s); pendingFocus := None;
                        focused := (focused (shown s) ++ [field])%list |} s
  end.

Definition effects (s : page) : page := focus_effect (error_effect (guard_effect (sync_effect s))).

(** ** Handlers *)

Definition jump_to (field : ZevFormField) (errors : list (ZevFormField * string)) (message : option string) (s : page) : page :=
  set_tab (tab_of field)
    (set_shown {| error := message; fieldErrors := errors; pendingFocus := Some field; focused := focused (shown s) |} s).

(** [translate] is [t] on the message keys of validation. *)
Definition attemptSave (translate : string → string) (s : page) : page :=
  if negb (nonempty (selectedZevId s)) || negb (draftIsSelected s) || negb (canWrite s) || isPending s then s
  else if negb (isZevFormDirty (form (draft s)) (baseline (draft s))) then s
  else
    match validateZevForm (form (draft s)) with
    | (v :: _) as violations =>
        jump_to (violation_field v) (map (λ v, (violation_field v, translate (messageKey v))) violations) (error (shown s)) s
    | [] =>
        let v := {| save_no := length (sent s); save_id := selectedZevId s; payload := form (draft s); save_epoch := epoch (draft s) |} in
        set_saves (flights s ++ [v])%list (Some v) (sent s ++ [v])%list s
    end.

(** The button is disabled while a save is pending, and the bar absent without changes. *)
Definition discard (s : page) : page :=
  if negb (showSaveBar s) || negb (draftIsSelected s) || isPending s then s
  else clear_errors false (bump_editor (setDraft
    {| draft_zev := draft_zev (draft s); epoch := epoch (draft s); form := baseline (draft s); baseline := baseline (draft s) |} s)).

Definition updateForm (p : patch) (s : page) : page :=
  if controlsReadOnly s || negb (draftIsSelected s) then s
  else
    let s := setDraft {| draft_zev := draft_zev (draft s); epoch := epoch (draft s); form := patch_form p (form (draft s));
                         baseline := baseline (draft s) |} s in
    set_shown {| error := error (shown s);
                 fieldErrors := bfilter (λ e, negb (bool_decide (e.1 ∈ patch_keys p))) (fieldErrors (shown s));
                 pendingFocus := pendingFocus (shown s); focused := focused (shown s) |} s.

(** A save leaves the flight; the observer follows the last one sent. *)
Definition settle (v : save) (s : page) : page :=
  set_saves (bfilter (λ w, negb (save_no w =? save_no v)%nat) (flights s))
    (match observed s with Some w => if (save_no w =? save_no v)%nat then None else observed s | None => None end) (sent s) s.

Definition is_older (saved : Zev) (a : option accepted_save) : bool :=
  match a with
  | Some a => nonempty (zev_updated_at saved) && date_lt (zev_updated_at saved) (updatedAt a)
  | None => false
  end.

Definition accept (v : save) (saved : Zev) (s : page) : page :=
  let s := if nonempty (zev_updated_at saved)
           then set_accepted (omap_set (save_id v) {| updatedAt := zev_updated_at saved; accepted_form := mapZevToForm saved |} (accepted s)) s
           else s in
  set_zevs (map (λ zev, if String.eqb (zev_id zev) (save_id v) then saved else zev) <$> zevs s) s.

(** The save is of the draft on the screen. *)
Definition is_current (v : save) (s : page) : bool :=
  String.eqb (save_id v) (selectedZevId s) && (epoch (draft s) =? save_epoch v)%nat.

Definition on_success (v : save) (saved : Zev) (s : page) : page :=
  let older := is_older saved (omap_get (save_id v) (accepted s)) in
  let s := if older then s else accept v saved s in
  if older || negb (is_current v s) then s
  else
    let mapped := mapZevToForm saved in
    let s := if bool_decide (draft_zev (draft s) = Some (save_id v)) && (epoch (draft s) =? save_epoch v)%nat
             then setDraft {| draft_zev := draft_zev (draft s); epoch := epoch (draft s); form := mapped; baseline := mapped |} s
             else s in
    clear_errors false (bump_editor s).

(** [message] is the formatted error, [o] the body of the response. *)
Definition on_error (v : save) (message : string) (o : option (list (string * json))) (s : page) : page :=
  if negb (is_current v s) then s
  else
    match parseZevFieldErrors o with
    | [] => set_shown {| error := Some message; fieldErrors := fieldErrors (shown s); pendingFocus := pendingFocus (shown s);
                         focused := focused (shown s) |} s
    | (first :: _) as parsed => jump_to first.1 parsed (Some message) s
    end.

(** ** Events *)

Inductive event :=
| SelectCommunity (id : string)
| CommunitiesArrive (l : list Zev)
| AccessChanges (b : bool)
| OpenTab (t : ZevSettingsTab)
| Edit (p : patch)
| Discard
| Save
| SaveSucceeds (v : save) (saved : Zev)
| SaveFails (v : save) (message : string) (o : option (list (string * json))).

Section Run.
Context (translate : string → string).

Definition handle (ev : event) (s : page) : page :=
  match ev with
  | SelectCommunity id => set_selected id s
  | CommunitiesArrive l => set_zevs (Some l) s
  | AccessChanges b => set_access b s
  | OpenTab t => set_tab t s
  | Edit p => updateForm p s
  | Discard => discard s
  | Save => attemptSave translate s
  | SaveSucceeds v saved => on_success v saved (settle v s)
  | SaveFails v message o => on_error v message o (settle v s)
  end.

Definition step (ev : event) (s : page) : page := effects (handle ev s).
Definition run (evs : list event) (s : page) : page := foldl (λ s ev, step ev s) s evs.
End Run.

Definition init (today id : string) (t : ZevSettingsTab) (write : bool) (l : option (list Zev)) : page :=
  let initial := getDefaultZevForm today in
  effects
    {| selectedZevId := id; zevs := l; canWrite := write; tab := t;
       draft := {| draft_zev := None; epoch := 0; form := initial; baseline := initial |};
       shown := {| error := None; fieldErrors := []; pendingFocus := None; focused := [] |};
       accepted := []; flights := []; observed := None; sent := []; unsavedGuard := false; emailEditorRevision := 0 |}.

(** ** Reachable pages *)

(** Numbers of a record are numbers, as those of JSON are. *)
Definition sane (z : Zev) : Prop :=
  is_nan (default (of_Z 0) (zev_grid_operator_elcom_id z)) = false ∧ is_nan (default (of_Z 0) (zev_payment_term_days z)) = false.

(** Answers are of saves in flight, and the server answers with the saved community. *)
Definition possible (ev : event) (s : page) : Prop :=
  match ev with
  | CommunitiesArrive l => Forall sane l
  | SaveSucceeds v saved => v ∈ flights s ∧ zev_id saved = save_id v ∧ sane saved
  | SaveFails v _ _ => v ∈ flights s
  | _ => True
  end.

Inductive reach (translate : string → string) : page → Prop :=
| reach_init today id t write l : Forall sane (default [] l) → reach translate (init today id t write l)
| reach_step ev s : reach translate s → possible ev s → reach translate (step translate ev s).

Lemma strict_refl v : (∀ n, v = VNum n → is_nan n = false) → strict_eqb v v = true.
Proof. destruct v as [| |x|x|x]; cbn; intros Hn; auto using String.eqb_refl, Bool.eqb_reflx, num_eqb_refl. Qed.

Lemma mapped_clean z : sane z → isZevFormDirty (mapZevToForm z) (mapZevToForm z) = false.
Proof.
  intros [He Hp]. apply not_true_iff_false. rewrite isZevFormDirty_iff. intros (f & _ & Hf). unfold field_changed in Hf.
  rewrite strict_refl in Hf; [done|]. intros n. destruct f; cbn; try discriminate.
  - destruct (zev_grid_operator_elcom_id z); cbn; [|discriminate]. by intros [= ->].
  - destruct (zev_payment_term_days z); cbn; by intros [= <-].
Qed.

(** A save in flight for the draft on the page is the one observed, and its payload is the
    draft as it is, still unsaved. *)
Definition in_flight_ok (s : page) : Prop :=
  ∀ v, v ∈ flights s → (save_epoch v <= epoch (draft s))%nat ∧ (save_no v < length (sent s))%nat ∧
    (save_epoch v = epoch (draft s) →
     draft_zev (draft s) = Some (save_id v) ∧ observed s = Some v ∧ payload v = form (draft s) ∧
     isZevFormDirty (form (draft s)) (baseline (draft s)) = true).

Definition numbered (s : page) : Prop := ∀ v w, v ∈ flights s → w ∈ flights s → save_no v = save_no w → v = w.

(** Records and accepted saves compare as equal to themselves. *)
Definition records_ok (s : page) : Prop :=
  Forall sane (default [] (zevs s)) ∧
  ∀ id a, omap_get id (accepted s) = Some a → isZevFormDirty (accepted_form a) (accepted_form a) = false.

Definition good (s : page) : Prop := in_flight_ok s ∧ numbered s ∧ records_ok s.

(** ** Effects keep what is in flight *)

Lemma selected_sane s z : records_ok s → selectedZev s = Some z → sane z ∧ zev_id z = selectedZevId s.
Proof.
  intros [Hs _] Hz. unfold selectedZev in Hz. apply find_first_Some in Hz as [Hin He]. rewrite Forall_forall in Hs.
  apply String.eqb_eq in He. auto.
Qed.

Lemma target_clean s z : records_ok s → selectedZev s = Some z → isZevFormDirty (sync_target s z) (sync_target s z) = false.
Proof.
  intros Hr Hz. destruct (selected_sane s z Hr Hz) as [Hs _]. destruct Hr as [_ Ha]. unfold sync_target.
  destruct (omap_get _ (accepted s)) as [a|] eqn:E; [|by apply mapped_clean].
  case_match; [by eapply Ha|by apply mapped_clean].
Qed.

Lemma draftIsSelected_zev s : draftIsSelected s = true → draft_zev (draft s) = Some (selectedZevId s).
Proof. unfold draftIsSelected. intros [Hd _]%andb_prop. by apply bool_decide_eq_true in Hd. Qed.

Lemma in_flight_dirty s v :
  in_flight_ok s → v ∈ flights s → save_epoch v = epoch (draft s) → draftIsSelected s = true →
  isDirty s = true ∧ isPending s = true.
Proof.
  intros Hi Hv He Hd. destruct (Hi v Hv) as (_ & _ & Hc). destruct (Hc He) as (Hz & Ho & _ & Hdirty).
  split; [unfold isDirty; by rewrite Hd, Hdirty|]. unfold isPending. rewrite Ho, He, Nat.eqb_refl.
  rewrite (draftIsSelected_zev s Hd) in Hz. injection Hz as ->. by rewrite String.eqb_refl.
Qed.

(** Reduce the projections of updated pages and nothing else. *)
Ltac proj_all := cbn [selectedZevId zevs canWrite tab draft shown accepted flights observed sent unsavedGuard emailEditorRevision
  set_selected set_zevs set_access set_tab setDraft set_shown set_accepted set_saves setZevUnsavedDraftGuard bump_editor clear_errors
  draft_zev epoch form baseline error fieldErrors pendingFocus focused save_no save_id payload save_epoch] in *.

Lemma sync_good s : good s → good (sync_effect s).
Proof.
  intros (Hi & Hn & Hr). unfold sync_effect. destruct (selectedZev s) as [z|] eqn:Ez; [|done].
  destruct (bool_decide (draft_zev (draft s) = Some (selectedZevId s))) eqn:Ed; cbn [negb].
  - destruct (isDirty s) eqn:Edirty; [done|]. case_match; [|done]. split; [|done]. intros v Hv. proj_all.
    destruct (Hi v Hv) as (H1 & H2 & _). split_and!; [done|done|]. intros He. exfalso.
    assert (draftIsSelected s = true) as Hsel by (unfold draftIsSelected; by rewrite Ed, Ez).
    destruct (in_flight_dirty s v Hi Hv He Hsel) as [Hd _]. congruence.
  - split; [|done]. intros v Hv. proj_all. destruct (Hi v Hv) as (H1 & H2 & _). split_and!; [lia|done|lia].
Qed.

(** What the later effects leave alone. *)
Definition same_core (s s' : page) : Prop :=
  selectedZevId s' = selectedZevId s ∧ zevs s' = zevs s ∧ canWrite s' = canWrite s ∧ tab s' = tab s ∧ draft s' = draft s ∧
  accepted s' = accepted s ∧ flights s' = flights s ∧ observed s' = observed s ∧ sent s' = sent s.

Lemma same_core_good s s' : same_core s s' → good s → good s'.
Proof.
  intros (_ & Hz & _ & _ & Hd & Ha & Hf & Ho & Hs) (Hi & Hn & Hr). split_and!.
  - unfold in_flight_ok. rewrite Hd, Hf, Ho, Hs. done.
  - unfold numbered. by rewrite Hf.
  - unfold records_ok. by rewrite Hz, Ha.
Qed.

Lemma same_core_refl s : same_core s s.
Proof. by split_and!. Qed.

Lemma same_core_trans s s' s'' : same_core s s' → same_core s' s'' → same_core s s''.
Proof. unfold same_core. intros. destruct_and!. split_and!; congruence. Qed.

Lemma set_shown_core f s : same_core s (set_shown f s).
Proof. by split_and!. Qed.

Lemma guard_core b s : same_core s (setZevUnsavedDraftGuard b s).
Proof. by split_and!. Qed.

Lemma late_effects_core s : same_core s (focus_effect (error_effect (guard_effect s))).
Proof.
  eapply same_core_trans; [apply (guard_core (isDirty s))|]. fold (guard_effect s). generalize (guard_effect s). clear s. intros s.
  eapply (same_core_trans _ (error_effect s)).
  - unfold error_effect. case_match; [apply set_shown_core|apply same_core_refl].
  - generalize (error_effect s). clear s. intros s. unfold focus_effect. case_match; [|apply same_core_refl].
    case_match; [apply same_core_refl|apply set_shown_core].
Qed.

Lemma effects_good s : good s → good (effects s).
Proof. intros Hg. unfold effects. eapply same_core_good; [apply late_effects_core|by apply sync_good]. Qed.

(** ** Handlers keep what is in flight *)

Lemma settle_flights v w s : w ∈ flights (settle v s) ↔ w ∈ flights s ∧ save_no w ≠ save_no v.
Proof. unfold settle. proj_all. rewrite elem_of_bfilter, negb_true_iff, Nat.eqb_neq. done. Qed.

Lemma settle_good v s : v ∈ flights s → good s → good (settle v s).
Proof.
  intros Hv (Hi & Hn & Hr). split_and!; [|intros w w' [Hw _]%settle_flights [Hw' _]%settle_flights; by apply Hn|done].
  intros w [Hw Hne]%settle_flights. destruct (Hi w Hw) as (H1 & H2 & Hc). unfold settle. proj_all. split_and!; [done|done|].
  intros He. destruct (Hc He) as (Hz & Ho & Hp). split; [done|]. rewrite Ho.
  by rewrite (proj2 (Nat.eqb_neq _ _) Hne).
Qed.

(** Once the current draft's save has settled, no other save is of that draft. *)
Lemma settled_alone v w s :
  good s → v ∈ flights s → save_epoch v = epoch (draft s) → w ∈ flights (settle v s) → save_epoch w ≠ epoch (draft s).
Proof.
  intros (Hi & _ & _) Hv He [Hw Hne]%settle_flights Hwe. destruct (Hi v Hv) as (_ & _ & Hcv), (Hi w Hw) as (_ & _ & Hcw).
  destruct (Hcv He) as (_ & Hov & _), (Hcw Hwe) as (_ & How & _). congruence.
Qed.

(** A change of the form is only possible when no save of the draft is in flight. *)
Lemma edited_good d s :
  good s → (∀ v, v ∈ flights s → save_epoch v ≠ epoch (draft s)) → epoch d = epoch (draft s) → good (setDraft d s).
Proof.
  intros (Hi & Hn & Hr) Hno He. split; [|done]. intros v Hv. proj_all. destruct (Hi v Hv) as (H1 & H2 & _).
  rewrite He. split_and!; [done|done|]. intros E. by destruct (Hno v Hv).
Qed.

Lemma none_in_flight s :
  good s → draftIsSelected s = true → isPending s = false → ∀ v, v ∈ flights s → save_epoch v ≠ epoch (draft s).
Proof. intros (Hi & _) Hd Hp v Hv He. destruct (in_flight_dirty s v Hi Hv He Hd). congruence. Qed.

Lemma discard_good s : good s → good (discard s).
Proof.
  intros Hg. unfold discard. destruct (negb (showSaveBar s) || negb (draftIsSelected s) || isPending s) eqn:E; [done|].
  apply orb_false_elim in E as [E Hp]. apply orb_false_elim in E as [_ Hd]. apply negb_false_iff in Hd.
  eapply same_core_good; [|eapply (edited_good _ s Hg); [by apply none_in_flight|]].
  - eapply same_core_trans; [|apply set_shown_core]. by split_and!.
  - done.
Qed.

Lemma updateForm_good p s : good s → good (updateForm p s).
Proof.
  intros Hg. unfold updateForm. destruct (controlsReadOnly s || negb (draftIsSelected s)) eqn:E; [done|].
  apply orb_false_elim in E as [E Hd]. apply negb_false_iff in Hd. apply orb_false_elim in E as [_ Hp].
  eapply same_core_good; [apply set_shown_core|]. apply (edited_good _ s Hg); [by apply none_in_flight|done].
Qed.

Lemma jump_good f errors m s : good s → good (jump_to f errors m s).
Proof. intros Hg. unfold jump_to. exact Hg. Qed.

Lemma save_good translate s : good s → good (attemptSave translate s).
Proof.
  intros Hg. pose proof Hg as (Hi & Hn & Hr). unfold attemptSave.
  destruct (negb _ || negb (draftIsSelected s) || negb (canWrite s) || isPending s) eqn:E; [done|].
  apply orb_false_elim in E as [E Hp]. apply orb_false_elim in E as [E _]. apply orb_false_elim in E as [_ Hd].
  apply negb_false_iff in Hd. pose proof (none_in_flight s Hg Hd Hp) as Hno.
  destruct (isZevFormDirty _ _) eqn:Edirty; cbn [negb]; [|done]. destruct (validateZevForm _); [|by apply jump_good].
  split_and!; [| |done].
  - intros v Hv. proj_all. rewrite length_app. cbn [length]. apply elem_of_app in Hv as [Hv | ->%list_elem_of_singleton].
    + destruct (Hi v Hv) as (H1 & H2 & _). split_and!; [done|lia|]. intros He. by destruct (Hno v Hv).
    + proj_all. split_and!; [lia|lia|]. intros _. by rewrite (draftIsSelected_zev s Hd).
  - intros v w Hv Hw. proj_all. rewrite elem_of_app, list_elem_of_singleton in Hv, Hw.
    assert (∀ x, x ∈ flights s → (save_no x < length (sent s))%nat) as Hlt by (intros x Hx; by destruct (Hi x Hx) as (_ & ? & _)).
    destruct Hv as [Hv | ->], Hw as [Hw | ->]; [by apply Hn| | |done]; cbn [save_no]; intros Hno'.
    + specialize (Hlt v Hv). lia.
    + specialize (Hlt w Hw). lia.
Qed.

Lemma accept_good v saved s : sane saved → good s → good (accept v saved s).
Proof.
  intros Hs (Hi & Hn & Hr & Ha). unfold accept.
  assert (∀ s', flights s' = flights s → draft s' = draft s → sent s' = sent s → observed s' = observed s → zevs s' = zevs s →
    (∀ id a, omap_get id (accepted s') = Some a → isZevFormDirty (accepted_form a) (accepted_form a) = false) →
    good (set_zevs (map (λ zev, if String.eqb (zev_id zev) (save_id v) then saved else zev) <$> zevs s') s')) as H.
  { intros s' Ef Ed Es Eo Ez Ea. split_and!.
    - unfold in_flight_ok. proj_all. rewrite Ef, Ed, Es, Eo. done.
    - unfold numbered. proj_all. by rewrite Ef.
    - split; [|done]. proj_all. rewrite Ez. destruct (zevs s) as [l|]; [|done]. cbn [default fmap option_fmap option_map] in *.
      apply Forall_forall. intros z (z' & -> & Hz')%list_elem_of_fmap. rewrite Forall_forall in Hr. case_match; auto. }
  case_match; apply H; try done. proj_all. intros id a. destruct (decide (id = save_id v)) as [->|Hne].
  - rewrite omap_get_set_eq. intros [= <-]. cbn [accepted_form]. by apply mapped_clean.
  - rewrite omap_get_set_ne by done. apply Ha.
Qed.

Lemma accept_core v saved s : draft (accept v saved s) = draft s ∧ flights (accept v saved s) = flights s ∧ selectedZevId (accept v saved s) = selectedZevId s.
Proof. unfold accept. by case_match. Qed.

Lemma success_good v saved s : v ∈ flights s → sane saved → good s → good (on_success v saved (settle v s)).
Proof.
  intros Hv Hs Hg. pose proof (settle_good v s Hv Hg) as Hg1. unfold on_success.
  set (older := is_older _ _). set (s1 := if older then settle v s else accept v saved (settle v s)).
  assert (good s1 ∧ draft s1 = draft s ∧ flights s1 = flights (settle v s)) as (Hg2 & Ed & Ef).
  { unfold s1. destruct older; [by split_and!|]. destruct (accept_core v saved (settle v s)) as (? & ? & ?).
    split; [by apply accept_good|]. done. }
  destruct (older || negb (is_current v s1)) eqn:E; [done|]. apply orb_false_elim in E as [_ E]. apply negb_false_iff in E.
  unfold is_current in E. apply andb_prop in E as [_ Hep]. apply Nat.eqb_eq in Hep.
  eapply same_core_good; [apply set_shown_core|]. 
  assert (∀ w, w ∈ flights s1 → save_epoch w ≠ epoch (draft s1)) as Hno.
  { intros w Hw. rewrite Ef in Hw. rewrite Ed in *. by eapply settled_alone. }
  assert (∀ s', good s' → good (bump_editor s')) as Hb by (intros s' Hg'; eapply same_core_good; [|exact Hg']; by split_and!).
  apply Hb. case_match; [|done]. by apply edited_good.
Qed.

Lemma error_good v m o s : v ∈ flights s → good s → good (on_error v m o (settle v s)).
Proof.
  intros Hv Hg. pose proof (settle_good v s Hv Hg) as Hg1. unfold on_error. case_match; [done|]. case_match; [|by apply jump_good].
  eapply same_core_good; [apply set_shown_core|done].
Qed.

Lemma handle_good translate ev s : possible ev s → good s → good (handle translate ev s).
Proof.
  intros Hp Hg. destruct ev as [id|l|b|t|p| | |v saved|v m o]; cbn [handle possible] in *.
  - exact Hg.
  - destruct Hg as (Hi & Hn & _ & Ha). split_and!; [exact Hi|exact Hn|split; [exact Hp|exact Ha]].
  - exact Hg.
  - exact Hg.
  - by apply updateForm_good.
  - by apply discard_good.
  - by apply save_good.
  - destruct Hp as (Hv & _ & Hs). by apply success_good.
  - by apply error_good.
Qed.

Lemma reach_good translate s : reach translate s → good s.
Proof.
  induction 1 as [today id t write l Hl|ev s _ IH Hp].
  - unfold init. apply effects_good. split_and!; [intros v Hv; by apply elem_of_nil in Hv|intros v w Hv; by apply elem_of_nil in Hv|].
    split; [done|]. intros i a Ha. done.
  - unfold step. by apply effects_good, handle_good.
Qed.

(** ** What is typed is kept *)

Lemma sync_unsaved s :
  draft_zev (draft s) = Some (selectedZevId s) → isZevFormDirty (form (draft s)) (baseline (draft s)) = true → sync_effect s = s.
Proof.
  intros Hd Hf. unfold sync_effect. destruct (selectedZev s) as [z|] eqn:Ez; [|done].
  rewrite (bool_decide_eq_true_2 _ Hd). cbn [negb].
  assert (isDirty s = true) as ->; [|done]. unfold isDirty, draftIsSelected.
  rewrite (bool_decide_eq_true_2 _ Hd), Ez, Hf. by rewrite bool_decide_eq_true_2.
Qed.

Lemma effects_draft s : draft (effects s) = draft (sync_effect s).
Proof. unfold effects. by destruct (late_effects_core (sync_effect s)) as (_ & _ & _ & _ & -> & _). Qed.

Lemma unsaved_step s s' :
  isDirty s = true → draft s' = draft s → selectedZevId s' = selectedZevId s → form (draft (effects s')) = form (draft s).
Proof.
  unfold isDirty. intros [Hsel Hd]%andb_prop Ed Es. rewrite effects_draft, sync_unsaved, Ed; [done| |by rewrite Ed].
  rewrite Ed, Es. by apply draftIsSelected_zev.
Qed.

Lemma jump_draft f errors m s : draft (jump_to f errors m s) = draft s ∧ selectedZevId (jump_to f errors m s) = selectedZevId s.
Proof. done. Qed.

Lemma save_draft translate s : draft (attemptSave translate s) = draft s ∧ selectedZevId (attemptSave translate s) = selectedZevId s.
Proof. unfold attemptSave. by repeat case_match. Qed.

Lemma error_draft v m o s : draft (on_error v m o s) = draft s ∧ selectedZevId (on_error v m o s) = selectedZevId s.
Proof. unfold on_error. by repeat case_match. Qed.

(** C7. Unsaved edits are only changed by what the user does with them: typing, discarding,
    selecting another community, or by the success of the save of exactly this form.
    Refreshed records, the answers of other saves, errors, tabs and changed rights
    leave every field as it was typed. *)
Theorem settings_edits_kept translate s ev :
  reach translate s → possible ev s → isDirty s = true →
  form (draft (step translate ev s)) = form (draft s) ∨
  match ev with
  | Edit _ | Discard => isPending s = false
  | SelectCommunity id => id ≠ selectedZevId s
  | SaveSucceeds v saved => payload v = form (draft s) ∧ save_id v = selectedZevId s
  | _ => False
  end.
Proof.
  intros Hr Hp Hd. pose proof (reach_good translate s Hr) as Hg. unfold step.
  destruct ev as [id|l|b|t|p| | |v saved|v m o]; cbn [handle possible] in *.
  - destruct (decide (id = selectedZevId s)) as [->|Hne]; [left|by right]. by apply unsaved_step.
  - left. by apply unsaved_step.
  - left. by apply unsaved_step.
  - left. by apply unsaved_step.
  - destruct (isPending s) eqn:Ep; [left|by right]. unfold updateForm, controlsReadOnly. rewrite Ep, orb_true_r. cbn [orb].
    by apply unsaved_step.
  - destruct (isPending s) eqn:Ep; [left|by right]. unfold discard. rewrite Ep, orb_true_r. by apply unsaved_step.
  - left. destruct (save_draft translate s). by apply unsaved_step.
  - destruct Hp as (Hv & Hid & Hs). unfold on_success.
    set (s1 := if is_older _ _ then settle v s else accept v saved (settle v s)).
    assert (draft s1 = draft s ∧ selectedZevId s1 = selectedZevId s) as [Ed Es].
    { unfold s1. case_match; [done|]. destruct (accept_core v saved (settle v s)) as (? & _ & ?). done. }
    destruct (is_older _ _ || negb (is_current v s1)) eqn:E; [left; by apply unsaved_step|]. right.
    apply orb_false_elim in E as [_ E]. apply negb_false_iff in E. unfold is_current in E. rewrite Ed, Es in E.
    apply andb_prop in E as [Ei He]. apply String.eqb_eq in Ei. apply Nat.eqb_eq in He.
    destruct Hg as (Hi & _). destruct (Hi v Hv) as (_ & _ & Hc). destruct (Hc (eq_sym He)) as (_ & _ & ? & _). done.
  - left. destruct (error_draft v m o (settle v s)) as [Ed Es]. by apply unsaved_step.
Qed.

(** ** What is sent *)

Lemma effects_sent s : sent (effects s) = sent s ∧ flights (effects s) = flights s.
Proof.
  unfold effects. destruct (late_effects_core (sync_effect s)) as (_ & _ & _ & _ & _ & _ & -> & _ & ->).
  unfold sync_effect. by repeat case_match.
Qed.

Lemma success_sent v saved s : sent (on_success v saved s) = sent s.
Proof.
  unfold on_success. set (s1 := if is_older _ _ then s else accept v saved s).
  assert (sent s1 = sent s) as <- by (unfold s1, accept; by repeat case_match). generalize s1. clear s1. intros s1.
  by repeat case_match.
Qed.

(** A save is only sent by the user's click, for the selected community and with its
    draft, when it holds changes that validate and the user may write, and never while
    another save of the draft is under way. *)
Theorem settings_saves_sound translate s ev :
  reach translate s →
  sent (step translate ev s) = sent s ∨
  ev = Save ∧ ∃ v, sent (step translate ev s) = (sent s ++ [v])%list ∧
    save_id v = selectedZevId s ∧ draft_zev (draft s) = Some (save_id v) ∧ payload v = form (draft s) ∧
    isDirty s = true ∧ validateZevForm (payload v) = [] ∧ canWrite s = true ∧
    ∀ w, w ∈ flights s → save_epoch w ≠ save_epoch v.
Proof.
  intros Hr. pose proof (reach_good translate s Hr) as Hg. unfold step. rewrite (proj1 (effects_sent _)).
  destruct ev as [id|l|b|t|p| | |v saved|v m o]; cbn [handle]; try (by left).
  - left. unfold updateForm. by case_match.
  - left. unfold discard. by case_match.
  - unfold attemptSave. destruct (negb _ || negb (draftIsSelected s) || negb (canWrite s) || isPending s) eqn:E; [by left|].
    apply orb_false_elim in E as [E Hp]. apply orb_false_elim in E as [E Hw]. apply orb_false_elim in E as [_ Hd].
    apply negb_false_iff in Hw, Hd. destruct (isZevFormDirty _ _) eqn:Edirty; cbn [negb]; [|by left].
    destruct (validateZevForm _) eqn:Ev; [|by left]. right. split; [done|]. eexists. split; [reflexivity|]. proj_all.
    split_and!; try done; [by apply draftIsSelected_zev|unfold isDirty; by rewrite Hd, Edirty|].
    by apply none_in_flight.
  - left. by rewrite success_sent.
  - left. unfold on_error. by repeat case_match.
Qed.

(** ** What is shown without edits *)

Lemma sync_synced s z :
  records_ok s → selectedZev (sync_effect s) = Some z → draftIsSelected (sync_effect s) = true → isDirty (sync_effect s) = false →
  isZevFormDirty (baseline (draft (sync_effect s))) (sync_target (sync_effect s) z) = false.
Proof.
  intros Hr. unfold sync_effect. destruct (selectedZev s) as [z'|] eqn:Ez; [|by rewrite Ez].
  pose proof (target_clean s z' Hr Ez) as Hc.
  assert (∀ s', selectedZevId s' = selectedZevId s → zevs s' = zevs s → accepted s' = accepted s →
     baseline (draft s') = sync_target s z' → selectedZev s' = Some z → isZevFormDirty (baseline (draft s')) (sync_target s' z) = false) as H.
  { intros s' Ei Es Ea Eb Hz. assert (z = z') as ->.
    { unfold selectedZev in Hz, Ez. rewrite Ei, Es in Hz. congruence. }
    rewrite Eb. assert (sync_target s' z' = sync_target s z') as -> by (unfold sync_target; by rewrite Ei, Ea). done. }
  destruct (bool_decide (draft_zev (draft s) = _)) eqn:Ed; cbn [negb].
  - destruct (isDirty s) eqn:Edirty; [by rewrite Edirty|].
    destruct (isZevFormDirty (baseline (draft s)) (sync_target s z')) eqn:Eb.
    + intros Hz _ _. by apply H.
    + intros Hz _ _. assert (z = z') as -> by congruence. done.
  - intros Hz _ _. by apply H.
Qed.

Lemma core_reads s s' : same_core s s' →
  selectedZev s' = selectedZev s ∧ draftIsSelected s' = draftIsSelected s ∧ isDirty s' = isDirty s ∧ ∀ z, sync_target s' z = sync_target s z.
Proof.
  intros (Ei & Ez & _ & _ & Ed & Ea & _). assert (selectedZev s' = selectedZev s) as E by (unfold selectedZev; by rewrite Ei, Ez).
  assert (draftIsSelected s' = draftIsSelected s) as E2 by (unfold draftIsSelected; by rewrite E, Ed, Ei).
  split_and!; [done|done|unfold isDirty; by rewrite E2, Ed|]. intros z. unfold sync_target. by rewrite Ei, Ea.
Qed.

Lemma effects_synced s z :
  records_ok s → selectedZev (effects s) = Some z → draftIsSelected (effects s) = true → isDirty (effects s) = false →
  isZevFormDirty (baseline (draft (effects s))) (sync_target (effects s) z) = false.
Proof.
  intros Hr. pose proof (late_effects_core (sync_effect s)) as Hc. fold (effects s) in Hc.
  destruct (core_reads _ _ Hc) as (-> & -> & -> & Ht). destruct Hc as (_ & _ & _ & _ & -> & _). rewrite Ht. by apply sync_synced.
Qed.

Lemma accepted_effects s : accepted (effects s) = accepted s.
Proof.
  unfold effects. destruct (late_effects_core (sync_effect s)) as (_ & _ & _ & _ & _ & -> & _).
  unfold sync_effect. by repeat case_match.
Qed.

Lemma date_lt_irrefl a : date_lt a a = false.
Proof. unfold date_lt. destruct (date_parse a); [apply Z.ltb_irrefl|done]. Qed.

Lemma accept_accepted v saved s : accepted (accept v saved s) =
  if nonempty (zev_updated_at saved)
  then omap_set (save_id v) {| updatedAt := zev_updated_at saved; accepted_form := mapZevToForm saved |} (accepted s) else accepted s.
Proof. unfold accept. by case_match. Qed.

Lemma success_accepted v saved s :
  accepted (on_success v saved s) = accepted (if is_older saved (omap_get (save_id v) (accepted s)) then s else accept v saved s).
Proof. unfold on_success. generalize (is_older saved (omap_get (save_id v) (accepted s))). intros b. by repeat case_match. Qed.

Lemma handle_accepted translate ev s :
  (∀ v saved, ev ≠ SaveSucceeds v saved) → accepted (handle translate ev s) = accepted s.
Proof.
  intros Hne. destruct ev as [id|l|b|t|p| | |v saved|v m o]; cbn [handle]; try reflexivity.
  - unfold updateForm. by case_match.
  - unfold discard. by case_match.
  - unfold attemptSave. by repeat case_match.
  - by destruct (Hne v saved).
  - unfold on_error. by repeat case_match.
Qed.

Lemma settle_accepted v s : accepted (settle v s) = accepted s.
Proof. done. Qed.

Lemma accepted_forward translate ev s id a :
  omap_get id (accepted s) = Some a →
  ∃ a', omap_get id (accepted (handle translate ev s)) = Some a' ∧ date_lt (updatedAt a') (updatedAt a) = false.
Proof.
  intros Ha. assert (∃ a', Some a = Some a' ∧ date_lt (updatedAt a') (updatedAt a) = false) as Hsame by (exists a; split; [done|apply date_lt_irrefl]).
  destruct ev as [i|l|b|t|p| | |v saved|v m o];
    try (match goal with |- context [handle _ ?e _] => rewrite (handle_accepted translate e s) by (intros ? ?; discriminate) end; by rewrite Ha).
  cbn [handle]. rewrite success_accepted, settle_accepted. destruct (is_older saved _) eqn:Eo; [by rewrite settle_accepted, Ha|].
  rewrite accept_accepted, settle_accepted. destruct (nonempty (zev_updated_at saved)) eqn:En; [|by rewrite Ha].
  destruct (decide (id = save_id v)) as [->|Hne]; [|by rewrite omap_get_set_ne, Ha by done].
  rewrite omap_get_set_eq. eexists. split; [reflexivity|]. cbn [updatedAt]. rewrite Ha in Eo. unfold is_older in Eo. by rewrite En in Eo.
Qed.

Lemma reach_effects translate s : reach translate s → ∃ s0, s = effects s0 ∧ records_ok s0.
Proof.
  intros [today id t w l Hl|ev s' Hr Hp].
  - unfold init. eexists. split; [reflexivity|]. split; [exact Hl|]. intros i a. cbn [accepted omap_get]. discriminate.
  - exists (handle translate ev s'). split; [reflexivity|].
    by destruct (handle_good translate ev s' Hp (reach_good _ _ Hr)) as (_ & _ & ?).
Qed.

Lemma clean_shows_target translate s z :
  reach translate s → selectedZev s = Some z → draftIsSelected s = true → isDirty s = false →
  isZevFormDirty (baseline (draft s)) (sync_target s z) = false.
Proof. intros (s0 & -> & Hr)%reach_effects. by apply effects_synced. Qed.

(** C9. A saved form does not come back to what it was: the last accepted save of a community
    is never replaced by an older one, and while nothing is being edited the page shows
    it, or a record that is newer, carries no date, or says the same. *)
Theorem saved_settings_stay translate s :
  reach translate s →
  (∀ ev id a, possible ev s → omap_get id (accepted s) = Some a →
     ∃ a', omap_get id (accepted (step translate ev s)) = Some a' ∧ date_lt (updatedAt a') (updatedAt a) = false) ∧
  (∀ z, selectedZev s = Some z → draftIsSelected s = true → isDirty s = false →
     isZevFormDirty (baseline (draft s)) (mapZevToForm z) = false ∧
       (∀ a, omap_get (selectedZevId s) (accepted s) = Some a →
          zev_updated_at z = "" ∨ date_le (zev_updated_at z) (updatedAt a) = false ∨
          isZevFormDirty (mapZevToForm z) (accepted_form a) = false)
     ∨ ∃ a, omap_get (selectedZevId s) (accepted s) = Some a ∧ isZevFormDirty (baseline (draft s)) (accepted_form a) = false).
Proof.
  intros Hr. split.
  - intros ev id a _ Ha. unfold step. rewrite accepted_effects. by apply accepted_forward.
  - intros z Hz Hd Hc. pose proof (clean_shows_target translate s z Hr Hz Hd Hc) as Ht. clear Hr Hz Hd Hc. revert Ht.
    unfold sync_target. generalize (mapZevToForm z) (baseline (draft s)). intros mapped base.
    destruct (omap_get (selectedZevId s) (accepted s)) as [a|]; [|intros ?; left; split; [done|discriminate]].
    destruct (nonempty (zev_updated_at z)) eqn:En; cbn [andb].
    + destruct (date_le (zev_updated_at z) (updatedAt a)) eqn:El; cbn [andb]; [destruct (isZevFormDirty mapped (accepted_form a)) eqn:Ef|]; intros Ht.
      * right. by exists a.
      * left. split; [done|]. intros a' [= <-]. auto.
      * left. split; [done|]. intros a' [= <-]. auto.
    + intros Ht. left. split; [done|]. intros a' [= <-]. left. by destruct (zev_updated_at z).
Qed.

Lemma error_effect_shown s : is_Some (error (shown (error_effect s))) → isDirty s = true.
Proof.
  unfold error_effect. destruct (isDirty s); [done|]. cbn [negb andb]. case_bool_decide as E; [|done]. proj_all. by intros [? ?].
Qed.

Lemma focus_error s : error (shown (focus_effect s)) = error (shown s).
Proof. unfold focus_effect. by repeat case_match. Qed.

Lemma focus_guard s : unsavedGuard (focus_effect s) = unsavedGuard s.
Proof. unfold focus_effect. by repeat case_match. Qed.

Lemma error_guard s : unsavedGuard (error_effect s) = unsavedGuard s.
Proof. unfold error_effect. by repeat case_match. Qed.

(** The community switcher outside the page is told of unsaved edits exactly while there
    are some, and an error only stands beside the edits it is about. *)
Theorem settings_guard_exact translate s :
  reach translate s →
  unsavedGuard s = isDirty s ∧ (is_Some (error (shown s)) → isDirty s = true) ∧ (isDirty s = true → showSaveBar s = true).
Proof.
  intros Hr. assert (∃ s0, s = effects s0) as [s0 ->] by (destruct Hr; unfold init, step; eauto).
  split_and!.
  - destruct (core_reads _ _ (late_effects_core (sync_effect s0))) as (_ & _ & Ed & _). fold (effects s0) in Ed. rewrite Ed.
    unfold effects. by rewrite focus_guard, error_guard.
  - intros He. unfold effects in He. rewrite focus_error in He. apply error_effect_shown in He.
    destruct (core_reads _ _ (late_effects_core (sync_effect s0))) as (_ & _ & Ed & _). fold (effects s0) in Ed. rewrite Ed. exact He.
  - unfold showSaveBar. by intros ->.
Qed.

(** ** Two communities *)

Definition with_name (v : string) (f : ZevInput) : ZevInput :=
  {| name := v; start_date := start_date f; zev_type := zev_type f; postal_code := postal_code f;
     grid_operator := grid_operator f; grid_operator_elcom_id := grid_operator_elcom_id f;
     tariff_source_url := tariff_source_url f; grid_connection_point := grid_connection_point f;
     billing_interval := billing_interval f; invoice_prefix := invoice_prefix f;
     credit_note_prefix := credit_note_prefix f; invoice_language := invoice_language f;
     payment_term_days := payment_term_days f; bank_iban := bank_iban f; bank_name := bank_name f;
     vat_mode := vat_mode f; vat_number := vat_number f; invoice_rounding := invoice_rounding f;
     itemize_tariff_bands := itemize_tariff_bands f;
     participant_invoice_access := participant_invoice_access f; notes := notes f;
     email_subject_template := email_subject_template f; email_body_template := email_body_template f;
     local_tariff_notes := local_tariff_notes f; additional_contract_notes := additional_contract_notes f |}.
Definition with_notes (v : string) (f : ZevInput) : ZevInput :=
  {| name := name f; start_date := start_date f; zev_type := zev_type f; postal_code := postal_code f;
     grid_operator := grid_operator f; grid_operator_elcom_id := grid_operator_elcom_id f;
     tariff_source_url := tariff_source_url f; grid_connection_point := grid_connection_point f;
     billing_interval := billing_interval f; invoice_prefix := invoice_prefix f;
     credit_note_prefix := credit_note_prefix f; invoice_language := invoice_language f;
     payment_term_days := payment_term_days f; bank_iban := bank_iban f; bank_name := bank_name f;
     vat_mode := vat_mode f; vat_number := vat_number f; invoice_rounding := invoice_rounding f;
     itemize_tariff_bands := itemize_tariff_bands f;
     participant_invoice_access := participant_invoice_access f; notes := Val v;
     email_subject_template := email_subject_template f; email_body_template := email_body_template f;
     local_tariff_notes := local_tariff_notes f; additional_contract_notes := additional_contract_notes f |}.

Definition community (id label at_ text : string) : Zev :=
  {| zev_id := id; zev_updated_at := at_; zev_name := label; zev_start_date := "2026-01-01"; zev_issuer := None; zev_zev_type := "vzev";
     zev_postal_code := None; zev_grid_operator := ""; zev_grid_operator_elcom_id := None; zev_tariff_source_url := None;
     zev_grid_connection_point := None; zev_billing_interval := "quarterly"; zev_invoice_prefix := None;
     zev_credit_note_prefix := None; zev_invoice_language := None; zev_payment_term_days := None; zev_bank_iban := None;
     zev_bank_name := None; zev_vat_mode := None; zev_vat_number := None; zev_invoice_rounding := None;
     zev_itemize_tariff_bands := None; zev_participant_invoice_access := None; zev_notes := Some text;
     zev_email_subject_template := None; zev_email_body_template := None; zev_local_tariff_notes := None;
     zev_additional_contract_notes := None; zev_disabled_at := None; zev_disabled_by := None; zev_disabled_reason := None |}.

Definition two_communities : list Zev :=
  [community "z1" "Sonne" "2026-01-01T00:00:00Z" ""; community "z2" "Mond" "2026-01-01T00:00:00Z" ""].

Definition rename (v : string) : event := Edit {| patch_keys := [Fname]; patch_form := with_name v |}.
Definition annotate (v : string) : event := Edit {| patch_keys := [Fnotes]; patch_form := with_notes v |}.

Definition at_z1 : page := init "2026-02-01" "z1" TabGeneral true (Some two_communities).
Definition renamed : page := step id (rename "Sonnenhof") at_z1.
Definition saving : page := step id Save renamed.
Definition first_save : save := {| save_no := 0; save_id := "z1"; payload := with_name "Sonnenhof" (mapZevToForm (community "z1" "Sonne" "" "")); save_epoch := 1 |}.
Definition saved_record : Zev := community "z1" "Sonnenhof" "2026-02-01T08:00:00Z" "".

Lemma two_sane : Forall sane two_communities.
Proof. by repeat constructor. Qed.

Lemma renamed_reach : reach id renamed.
Proof. apply reach_step; [|done]. apply (reach_init id "2026-02-01" "z1" TabGeneral true (Some two_communities)), two_sane. Qed.

Lemma saving_reach : reach id saving.
Proof. apply reach_step; [apply renamed_reach|done]. Qed.

Lemma settings_edits_kept_witness :
  isDirty saving = true ∧
  (form (draft (step id (SaveSucceeds first_save saved_record) saving)) = form (draft saving) ∨
   payload first_save = form (draft saving) ∧ save_id first_save = selectedZevId saving).
Proof.
  split; [vm_compute; reflexivity|].
  apply (settings_edits_kept id saving (SaveSucceeds first_save saved_record)); [apply saving_reach| |vm_compute; reflexivity].
  split; [|done]. apply list_elem_of_In. vm_compute. by left.
Defined.

Lemma settings_saves_sound_witness :
  length (sent saving) = 1 ∧
  (sent (step id Save renamed) = sent renamed ∨
   Save = Save ∧ ∃ v, sent (step id Save renamed) = (sent renamed ++ [v])%list ∧
     save_id v = selectedZevId renamed ∧ draft_zev (draft renamed) = Some (save_id v) ∧ payload v = form (draft renamed) ∧
     isDirty renamed = true ∧ validateZevForm (payload v) = [] ∧ canWrite renamed = true ∧
     ∀ w, w ∈ flights renamed → save_epoch w ≠ save_epoch v).
Proof. split; [vm_compute; reflexivity|]. apply (settings_saves_sound id renamed Save), renamed_reach. Defined.

Definition after_save : page := step id (SaveSucceeds first_save saved_record) saving.

Lemma after_save_reach : reach id after_save.
Proof.
  apply reach_step; [apply saving_reach|]. split; [|done]. apply list_elem_of_In. vm_compute. by left.
Qed.

Lemma saved_settings_stay_witness :
  let s := step id (CommunitiesArrive two_communities) after_save in
  name (form (draft s)) = "Sonnenhof" ∧
  ((∀ ev i a, possible ev s → omap_get i (accepted s) = Some a →
     ∃ a', omap_get i (accepted (step id ev s)) = Some a' ∧ date_lt (updatedAt a') (updatedAt a) = false) ∧
   (∀ z, selectedZev s = Some z → draftIsSelected s = true → isDirty s = false →
     isZevFormDirty (baseline (draft s)) (mapZevToForm z) = false ∧
       (∀ a, omap_get (selectedZevId s) (accepted s) = Some a →
          zev_updated_at z = "" ∨ date_le (zev_updated_at z) (updatedAt a) = false ∨
          isZevFormDirty (mapZevToForm z) (accepted_form a) = false)
     ∨ ∃ a, omap_get (selectedZevId s) (accepted s) = Some a ∧ isZevFormDirty (baseline (draft s)) (accepted_form a) = false)).
Proof.
  intros s. split; [vm_compute; reflexivity|]. apply (saved_settings_stay id s).
  apply reach_step; [apply after_save_reach|apply two_sane].
Defined.

Lemma settings_guard_exact_witness :
  unsavedGuard renamed = true ∧
  (unsavedGuard renamed = isDirty renamed ∧ (is_Some (error (shown renamed)) → isDirty renamed = true) ∧
   (isDirty renamed = true → showSaveBar renamed = true)).
Proof. split; [vm_compute; reflexivity|]. apply (settings_guard_exact id renamed), renamed_reach. Defined.

(** A save that is still under way when its community is left and selected again is undone
    by the next save: the draft was filled from the record before the save, the answer
    does not reach a draft that is edited again, and the whole form is sent. *)
Lemma revisited_draft_undoes_save :
  let s := run id [SelectCommunity "z2"; SelectCommunity "z1"; annotate "Termin"; SaveSucceeds first_save saved_record; Save] saving in
  option_map (λ a, name (accepted_form a)) (omap_get "z1" (accepted s)) = Some "Sonnenhof" ∧
  map (λ v, (save_id v, name (payload v))) (sent s) = [("z1", "Sonnenhof"); ("z1", "Sonne")].
Proof. vm_compute. by split. Qed.
