(* ===== verification/ZevWizard.v ===== *)
(** The creation wizard of the communities page: frontend/src/pages/ZevListPage.tsx.

    [wizard] holds the page's state and refs of the wizard, the request in flight and what
    was sent and answered; [handle] is one event and [step] an event that the rendered page
    offers, with the focus effect after it.  Clicks and typing reach the page as it is
    rendered, answers of the server at any time.  The other dialogs of the page are in
    Communities. *)

From S2P Require Import Prelude JsString JsNumber ZevForm Iban JsFloat.
Local Open Scope string_scope.

Record OwnerMeteringPointInput := {
  meter_id : string; meter_type : string; is_active : option bool; location_description : option string;
}.

(** [account] is absent or a number; the optional texts are [None] when absent. *)
Record ZevOwnerInput := {
  account : option num; username : option string; title : option string; first_name : string; last_name : string;
  email : string; phone : option string; address_line1 : option string; address_line2 : option string;
  owner_postal_code : option string; city : option string;
}.

Record ZevWizardInput := { zev_input : ZevInput; owner : ZevOwnerInput; metering_points : list OwnerMeteringPointInput }.

Record created_owner := { owner_id : Z; owner_username : string; temporary_password : option string; existing_account : bool }.
Record ZevWizardResult := { created_id : string; created_name : string; created : created_owner }.

Definition empty_point : OwnerMeteringPointInput :=
  {| meter_id := ""; meter_type := "consumption"; is_active := Some true; location_description := Some "" |}.

(** [today] is [todayBusinessIso()]; a key the source does not set is absent. *)
Definition defaultCreateForm (today : string) : ZevWizardInput :=
  {| zev_input :=
       {| name := ""; start_date := today; zev_type := "vzev"; postal_code := Missing; grid_operator := Val "";
          grid_operator_elcom_id := Missing; tariff_source_url := Missing; grid_connection_point := Missing;
          billing_interval := "monthly"; invoice_prefix := Missing; credit_note_prefix := Missing;
          invoice_language := Missing; payment_term_days := Missing; bank_iban := Val ""; bank_name := Val "";
          vat_mode := Missing; vat_number := Missing; invoice_rounding := Missing; itemize_tariff_bands := Missing;
          participant_invoice_access := Missing; notes := Missing; email_subject_template := Missing;
          email_body_template := Missing; local_tariff_notes := Missing; additional_contract_notes := Missing |};
     owner :=
       {| account := None; username := Some ""; title := Some ""; first_name := ""; last_name := ""; email := "";
          phone := Some ""; address_line1 := Some ""; address_line2 := Some ""; owner_postal_code := Some "";
          city := Some "" |};
     metering_points := [empty_point] |}.

(** ** Rows *)

Inductive MeteringPointError := PointMissing | PointDuplicate.
#[export] Instance MeteringPointError_eq_dec : EqDecision MeteringPointError.
Proof. solve_decision. Defined.

(** [createMeteringPointKey] with the module's seed: the key of the next seed. *)
Definition createMeteringPointKey (seed : Z) : Z * string := ((seed + 1)%Z, "metering-point-" ++ Zstr (seed + 1)).

(** The errors by row index, in row order. *)
Fixpoint point_errors (index : nat) (seen : list string) (points : list OwnerMeteringPointInput) : list (nat * MeteringPointError) :=
  match points with
  | [] => []
  | point :: points =>
      let meterId := trim (meter_id point) in
      ((if negb (nonempty meterId) then [(index, PointMissing)]
        else if oset_has meterId seen then [(index, PointDuplicate)] else [])
       ++ point_errors (S index) (oset_add meterId seen) points)%list
  end.
Definition getMeteringPointErrors (points : list OwnerMeteringPointInput) : list (nat * MeteringPointError) := point_errors 0 [] points.

(** ** Validation *)

Inductive owner_mode := NewOwner | ExistingOwner.
#[export] Instance owner_mode_eq_dec : EqDecision owner_mode.
Proof. solve_decision. Defined.

Definition filled (s : string) : bool := nonempty (trim s).
Definition filled_opt (o : option string) : bool := filled (default "" o).
Definition iban_of (form : ZevWizardInput) : string := opt_or "" (bank_iban (zev_input form)).

(** A number is truthy. *)
Definition num_truthy (o : option num) : bool :=
  match o with Some n => negb (num_eqb n (of_Z 0)) && negb (is_nan n) | None => false end.

Definition first_of (l : list (bool * string)) : option string := snd <$> find_first fst l.

(** The key of the message of the first rule the form breaks. *)
Definition validateWizardStep (ownerMode : owner_mode) (step : nat) (form : ZevWizardInput) : option string :=
  let z := zev_input form in let o := owner form in
  match step with
  | 1%nat =>
      first_of [(negb (filled (name z)), "zevNameRequired"); (negb (nonempty (start_date z)), "startDateRequired")]
  | 2%nat =>
      let bank := filled (iban_of form) in
      first_of
        ((match ownerMode with
          | ExistingOwner => [(negb (num_truthy (account o)), "ownerAccountRequired")]
          | NewOwner => [(negb (filled (first_name o)), "ownerFirstNameRequired"); (negb (filled (last_name o)), "ownerLastNameRequired");
                         (negb (filled (email o)), "ownerEmailRequired")]
          end)
         ++ [(bank && negb (isValidIban (iban_of form)), "invalidIban");
             (bank && negb (filled_opt (address_line1 o)), "ownerAddressRequiredForIban");
             (bank && negb (filled_opt (owner_postal_code o)), "ownerPostalCodeRequiredForIban");
             (bank && negb (filled_opt (city o)), "ownerCityRequiredForIban")])%list
  | 3%nat =>
      let errors := map snd (getMeteringPointErrors (metering_points form)) in
      first_of [(bool_decide (metering_points form = []), "meteringPointRequired");
                (bool_decide (PointMissing ∈ errors), "meterIdRequired");
                (bool_decide (PointDuplicate ∈ errors), "meterIdDuplicate")]
  | _ => None
  end.

(** ** State *)

Record wizard := {
  createForm : ZevWizardInput; wizardStep : nat; ownerMode : owner_mode; showCreateModal : bool;
  createError : option string; createdCredentials : option created_owner; createdZevName : string;
  copyFeedback : option string; copyTimer : bool; meteringPointKeys : list string; showMeteringPointErrors : bool;
  focusMeteringPointKey : option string; createSubmittedRef : bool; keySeed : Z;
  pending : option (nat * ZevWizardInput); openings : nat; sent : list (nat * ZevWizardInput); answers : list (nat * ZevWizardResult);
}.

(** The form with its rows and the keys beside them. *)
Definition with_form (f : ZevWizardInput) (keys : list string) (seed : Z) (focus : option string) (s : wizard) : wizard :=
  {| createForm := f; wizardStep := wizardStep s; ownerMode := ownerMode s; showCreateModal := showCreateModal s; createError := createError s;
     createdCredentials := createdCredentials s; createdZevName := createdZevName s; copyFeedback := copyFeedback s; copyTimer := copyTimer s;
     meteringPointKeys := keys; showMeteringPointErrors := showMeteringPointErrors s; focusMeteringPointKey := focus;
     createSubmittedRef := createSubmittedRef s; keySeed := seed; pending := pending s; openings := openings s; sent := sent s; answers := answers s |}.
Definition set_form (f : ZevWizardInput) (s : wizard) : wizard := with_form f (meteringPointKeys s) (keySeed s) (focusMeteringPointKey s) s.

Definition setOwnerMode (m : owner_mode) (s : wizard) : wizard :=
  {| createForm := createForm s; wizardStep := wizardStep s; ownerMode := m; showCreateModal := showCreateModal s; createError := createError s;
     createdCredentials := createdCredentials s; createdZevName := createdZevName s; copyFeedback := copyFeedback s; copyTimer := copyTimer s;
     meteringPointKeys := meteringPointKeys s; showMeteringPointErrors := showMeteringPointErrors s;
     focusMeteringPointKey := focusMeteringPointKey s; createSubmittedRef := createSubmittedRef s; keySeed := keySeed s; pending := pending s;
     openings := openings s; sent := sent s; answers := answers s |}.

(** The step, the message under it and whether rows show their errors. *)
Definition with_step (k : nat) (e : option string) (rows : bool) (s : wizard) : wizard :=
  {| createForm := createForm s; wizardStep := k; ownerMode := ownerMode s; showCreateModal := showCreateModal s; createError := e;
     createdCredentials := createdCredentials s; createdZevName := createdZevName s; copyFeedback := copyFeedback s; copyTimer := copyTimer s;
     meteringPointKeys := meteringPointKeys s; showMeteringPointErrors := rows; focusMeteringPointKey := focusMeteringPointKey s;
     createSubmittedRef := createSubmittedRef s; keySeed := keySeed s; pending := pending s; openings := openings s; sent := sent s;
     answers := answers s |}.

Definition with_copy (f : option string) (timer : bool) (s : wizard) : wizard :=
  {| createForm := createForm s; wizardStep := wizardStep s; ownerMode := ownerMode s; showCreateModal := showCreateModal s;
     createError := createError s; createdCredentials := createdCredentials s; createdZevName := createdZevName s; copyFeedback := f;
     copyTimer := timer; meteringPointKeys := meteringPointKeys s; showMeteringPointErrors := showMeteringPointErrors s;
     focusMeteringPointKey := focusMeteringPointKey s; createSubmittedRef := createSubmittedRef s; keySeed := keySeed s; pending := pending s;
     openings := openings s; sent := sent s; answers := answers s |}.

Definition with_request (submitted : bool) (p : option (nat * ZevWizardInput)) (l : list (nat * ZevWizardInput)) (s : wizard) : wizard :=
  {| createForm := createForm s; wizardStep := wizardStep s; ownerMode := ownerMode s; showCreateModal := showCreateModal s;
     createError := createError s; createdCredentials := createdCredentials s; createdZevName := createdZevName s;
     copyFeedback := copyFeedback s; copyTimer := copyTimer s; meteringPointKeys := meteringPointKeys s;
     showMeteringPointErrors := showMeteringPointErrors s; focusMeteringPointKey := focusMeteringPointKey s; createSubmittedRef := submitted;
     keySeed := keySeed s; pending := p; openings := openings s; sent := l; answers := answers s |}.

(** ** Handlers *)

Section Wizard.
Context (isAdmin : bool) (today : string).

Definition openCreateModal (s : wizard) : wizard :=
  if negb isAdmin then s
  else let k := createMeteringPointKey (keySeed s) in
  {| createForm := defaultCreateForm today; wizardStep := 1; ownerMode := ownerMode s; showCreateModal := true; createError := None;
     createdCredentials := createdCredentials s; createdZevName := createdZevName s; copyFeedback := copyFeedback s; copyTimer := copyTimer s;
     meteringPointKeys := [k.2]; showMeteringPointErrors := false; focusMeteringPointKey := focusMeteringPointKey s;
     createSubmittedRef := createSubmittedRef s; keySeed := k.1; pending := pending s; openings := S (openings s); sent := sent s;
     answers := answers s |}.

Definition closeCreateModal (s : wizard) : wizard :=
  {| createForm := if (wizardStep s =? 5)%nat then defaultCreateForm today else createForm s; wizardStep := 1; ownerMode := NewOwner;
     showCreateModal := false; createError := None; createdCredentials := None; createdZevName := ""; copyFeedback := None; copyTimer := false;
     meteringPointKeys := meteringPointKeys s; showMeteringPointErrors := false; focusMeteringPointKey := focusMeteringPointKey s;
     createSubmittedRef := false; keySeed := keySeed s; pending := pending s; openings := openings s; sent := sent s; answers := answers s |}.

Definition goToNextStep (s : wizard) : wizard :=
  match validateWizardStep (ownerMode s) (wizardStep s) (createForm s) with
  | Some e => with_step (wizardStep s) (Some e) (if (wizardStep s =? 3)%nat then true else showMeteringPointErrors s) s
  | None => with_step (if (wizardStep s <? 4)%nat then S (wizardStep s) else wizardStep s) None (showMeteringPointErrors s) s
  end.

Definition goToPreviousStep (s : wizard) : wizard :=
  with_step (if (1 <? wizardStep s)%nat then (wizardStep s - 1)%nat else wizardStep s) None (showMeteringPointErrors s) s.

Definition with_bank (iban bank : opt string) (z : ZevInput) : ZevInput :=
  {| name := name z; start_date := start_date z; zev_type := zev_type z; postal_code := postal_code z; grid_operator := grid_operator z;
     grid_operator_elcom_id := grid_operator_elcom_id z; tariff_source_url := tariff_source_url z;
     grid_connection_point := grid_connection_point z; billing_interval := billing_interval z; invoice_prefix := invoice_prefix z;
     credit_note_prefix := credit_note_prefix z; invoice_language := invoice_language z; payment_term_days := payment_term_days z;
     bank_iban := iban; bank_name := bank; vat_mode := vat_mode z; vat_number := vat_number z; invoice_rounding := invoice_rounding z;
     itemize_tariff_bands := itemize_tariff_bands z; participant_invoice_access := participant_invoice_access z; notes := notes z;
     email_subject_template := email_subject_template z; email_body_template := email_body_template z;
     local_tariff_notes := local_tariff_notes z; additional_contract_notes := additional_contract_notes z |}.

Definition with_account (a : option num) (o : ZevOwnerInput) : ZevOwnerInput :=
  {| account := a; username := username o; title := title o; first_name := first_name o; last_name := last_name o; email := email o;
     phone := phone o; address_line1 := address_line1 o; address_line2 := address_line2 o; owner_postal_code := owner_postal_code o;
     city := city o |}.

(** The body of the request. *)
Definition create_payload (m : owner_mode) (f : ZevWizardInput) : ZevWizardInput :=
  {| zev_input := with_bank (Val (normalizeIban (iban_of f))) (bank_name (zev_input f)) (zev_input f);
     owner := with_account (match m with ExistingOwner => account (owner f) | NewOwner => None end) (owner f);
     metering_points := metering_points f |}.

Definition handleCreateZev (s : wizard) : wizard :=
  if negb (wizardStep s =? 4)%nat || createSubmittedRef s || bool_decide (is_Some (pending s)) then s
  else let p := (openings s, create_payload (ownerMode s) (createForm s)) in
       with_request true (Some p) (sent s ++ [p])%list s.

Definition with_points (l : list OwnerMeteringPointInput) (f : ZevWizardInput) : ZevWizardInput :=
  {| zev_input := zev_input f; owner := owner f; metering_points := l |}.

Definition addMeteringPoint (s : wizard) : wizard :=
  let k := createMeteringPointKey (keySeed s) in
  with_form (with_points (metering_points (createForm s) ++ [empty_point]) (createForm s)) (meteringPointKeys s ++ [k.2])%list k.1 (Some k.2) s.

Definition key_index (key : string) (keys : list string) : option nat := find_index (String.eqb key) keys.

(** [updates] is the spread of a partial point. *)
Definition updateMeteringPoint (key : string) (updates : OwnerMeteringPointInput → OwnerMeteringPointInput) (s : wizard) : wizard :=
  match key_index key (meteringPointKeys s) with
  | None => s
  | Some index => set_form (with_points (alter updates index (metering_points (createForm s))) (createForm s)) s
  end.

Definition removeMeteringPoint (key : string) (s : wizard) : wizard :=
  match key_index key (meteringPointKeys s) with
  | None => s
  | Some index =>
      if (length (metering_points (createForm s)) <=? 1)%nat then s
      else with_form (with_points (delete index (metering_points (createForm s))) (createForm s))
             (bfilter (λ existingKey, negb (String.eqb existingKey key)) (meteringPointKeys s)) (keySeed s) (focusMeteringPointKey s) s
  end.

(** The effect that moves the cursor into a new row. *)
Definition focus_effect (s : wizard) : wizard :=
  match focusMeteringPointKey s with
  | None => s
  | Some _ => with_form (createForm s) (meteringPointKeys s) (keySeed s) None s
  end.

(** ** Answers *)

Definition on_created (r : ZevWizardResult) (s : wizard) : wizard :=
  match pending s with
  | None => s
  | Some (k, _) =>
      {| createForm := createForm s; wizardStep := 5; ownerMode := ownerMode s; showCreateModal := showCreateModal s; createError := None;
         createdCredentials := Some (created r); createdZevName := created_name r; copyFeedback := copyFeedback s; copyTimer := copyTimer s;
         meteringPointKeys := meteringPointKeys s; showMeteringPointErrors := showMeteringPointErrors s;
         focusMeteringPointKey := focusMeteringPointKey s; createSubmittedRef := createSubmittedRef s; keySeed := keySeed s; pending := None;
         openings := openings s; sent := sent s; answers := (answers s ++ [(k, r)])%list |}
  end.

(** [message] is the formatted error. *)
Definition on_create_failed (message : string) (s : wizard) : wizard :=
  match pending s with
  | None => s
  | Some _ => with_request (createSubmittedRef s) None (sent s) (with_step (wizardStep s) (Some message) (showMeteringPointErrors s) s)
  end.

(** ** Typing *)

Inductive owner_field :=
  OTitle | OUsername | OFirstName | OLastName | OEmail | OPhone | OAddress1 | OAddress2 | OPostalCode | OCity.

Definition set_owner_field (f : owner_field) (v : string) (o : ZevOwnerInput) : ZevOwnerInput :=
  {| account := account o;
     username := match f with OUsername => Some v | _ => username o end; title := match f with OTitle => Some v | _ => title o end;
     first_name := match f with OFirstName => v | _ => first_name o end; last_name := match f with OLastName => v | _ => last_name o end;
     email := match f with OEmail => v | _ => email o end; phone := match f with OPhone => Some v | _ => phone o end;
     address_line1 := match f with OAddress1 => Some v | _ => address_line1 o end;
     address_line2 := match f with OAddress2 => Some v | _ => address_line2 o end;
     owner_postal_code := match f with OPostalCode => Some v | _ => owner_postal_code o end;
     city := match f with OCity => Some v | _ => city o end |}.

Inductive general_field :=
  | GName (v : string) | GStartDate (v : string) | GZevType (v : string) | GInterval (v : string) | GPostalCode (v : string)
  | GOperator (v : string) (id : option num) | GTariffUrl (v : string).

Definition set_general (g : general_field) (z : ZevInput) : ZevInput :=
  {| name := match g with GName v => v | _ => name z end; start_date := match g with GStartDate v => v | _ => start_date z end;
     zev_type := match g with GZevType v => v | _ => zev_type z end;
     postal_code := match g with GPostalCode v => Val v | _ => postal_code z end;
     grid_operator := match g with GOperator v _ => Val v | _ => grid_operator z end;
     grid_operator_elcom_id := match g with GOperator _ id => Val id | _ => grid_operator_elcom_id z end;
     tariff_source_url := match g with GTariffUrl v => Val v | _ => tariff_source_url z end;
     grid_connection_point := grid_connection_point z;
     billing_interval := match g with GInterval v => v | _ => billing_interval z end;
     invoice_prefix := invoice_prefix z; credit_note_prefix := credit_note_prefix z; invoice_language := invoice_language z;
     payment_term_days := payment_term_days z; bank_iban := bank_iban z; bank_name := bank_name z; vat_mode := vat_mode z;
     vat_number := vat_number z; invoice_rounding := invoice_rounding z; itemize_tariff_bands := itemize_tariff_bands z;
     participant_invoice_access := participant_invoice_access z; notes := notes z; email_subject_template := email_subject_template z;
     email_body_template := email_body_template z; local_tariff_notes := local_tariff_notes z;
     additional_contract_notes := additional_contract_notes z |}.

Definition set_zev (z : ZevInput) (s : wizard) : wizard :=
  set_form {| zev_input := z; owner := owner (createForm s); metering_points := metering_points (createForm s) |} s.
Definition set_owner (o : ZevOwnerInput) (s : wizard) : wizard :=
  set_form {| zev_input := zev_input (createForm s); owner := o; metering_points := metering_points (createForm s) |} s.

(** The value of the account list: empty, or a number's text. *)
Definition account_of (value : string) : option num := if nonempty value then Some (to_number value) else None.

(** ** Events *)

Inductive wizard_event :=
  | Open | Close | Next | Previous | Create
  | EditGeneral (g : general_field) | ChooseMode (m : owner_mode) | ChooseAccount (value : string) | EditOwner (f : owner_field) (v : string)
  | EditBankName (v : string) | EditBankIban (v : string) | LeaveBankIban
  | AddPoint | UpdatePoint (key : string) (updates : OwnerMeteringPointInput → OwnerMeteringPointInput) | RemovePoint (key : string)
  | Copied (text : string) | CopyTimeout | CreateSucceeded (r : ZevWizardResult) | CreateFailed (message : string).

(** Which controls are on the screen: those of the step, once the wizard is open. *)
Definition offered (e : wizard_event) (s : wizard) : bool :=
  let at_step k := showCreateModal s && (wizardStep s =? k)%nat in
  match e with
  | Open => true
  | Close => showCreateModal s
  | Next => showCreateModal s && (wizardStep s <? 4)%nat
  | Previous => showCreateModal s && (1 <? wizardStep s)%nat && (wizardStep s <? 5)%nat
  | Create => at_step 4%nat
  | EditGeneral _ => at_step 1%nat
  | ChooseMode _ | EditBankName _ | EditBankIban _ | LeaveBankIban => at_step 2%nat
  | ChooseAccount _ => at_step 2%nat && bool_decide (ownerMode s = ExistingOwner)
  | EditOwner f _ =>
      at_step 2%nat && match f with
                       | OUsername | OFirstName | OLastName | OEmail => bool_decide (ownerMode s = NewOwner)
                       | _ => true
                       end
  | AddPoint | UpdatePoint _ _ | RemovePoint _ => at_step 3%nat
  | Copied _ => true
  | CopyTimeout => copyTimer s
  | CreateSucceeded _ | CreateFailed _ => bool_decide (is_Some (pending s))
  end.

Definition handle (e : wizard_event) (s : wizard) : wizard :=
  match e with
  | Open => openCreateModal s
  | Close => closeCreateModal s
  | Next => goToNextStep s
  | Previous => goToPreviousStep s
  | Create => handleCreateZev s
  | EditGeneral g => set_zev (set_general g (zev_input (createForm s))) s
  | ChooseMode m => setOwnerMode m s
  | ChooseAccount value => set_owner (with_account (account_of value) (owner (createForm s))) s
  | EditOwner f v => set_owner (set_owner_field f v (owner (createForm s))) s
  | EditBankName v => set_zev (with_bank (bank_iban (zev_input (createForm s))) (Val v) (zev_input (createForm s))) s
  | EditBankIban v => set_zev (with_bank (Val v) (bank_name (zev_input (createForm s))) (zev_input (createForm s))) s
  | LeaveBankIban =>
      set_zev (with_bank (Val (normalizeIban (iban_of (createForm s)))) (bank_name (zev_input (createForm s))) (zev_input (createForm s))) s
  | AddPoint => addMeteringPoint s
  | UpdatePoint key updates => updateMeteringPoint key updates s
  | RemovePoint key => removeMeteringPoint key s
  | Copied text => with_copy (Some text) true s
  | CopyTimeout => with_copy None false s
  | CreateSucceeded r => on_created r s
  | CreateFailed message => on_create_failed message s
  end.

Inductive step : wizard → wizard → Prop :=
  | wizard_step e s : offered e s = true → step s (focus_effect (handle e s)).

(** The first render; keys are made since the module was loaded. *)
Definition initial (seed : Z) : wizard :=
  let k := createMeteringPointKey seed in
  {| createForm := defaultCreateForm today; wizardStep := 1; ownerMode := NewOwner; showCreateModal := false; createError := None;
     createdCredentials := None; createdZevName := ""; copyFeedback := None; copyTimer := false; meteringPointKeys := [k.2];
     showMeteringPointErrors := false; focusMeteringPointKey := None; createSubmittedRef := false; keySeed := k.1; pending := None;
     openings := 0; sent := []; answers := [] |}.

Inductive reachable : wizard → Prop :=
  | reach_init seed : (0 <= seed)%Z → reachable (initial seed)
  | reach_step s s' : reachable s → step s s' → reachable s'.

End Wizard.

(** ** Rows and rules *)

Lemma Zstr_parse n : (0 <= n)%Z → parse_digits (Zstr n) = Some n.
Proof. intros Hn. destruct (Zstr_fix_ex n Hn) as (w & -> & Hw). apply parse_digits_fix; lia. Qed.

Lemma key_inj a b : (0 <= a)%Z → (0 <= b)%Z → (createMeteringPointKey a).2 = (createMeteringPointKey b).2 → a = b.
Proof.
  unfold createMeteringPointKey. cbn [snd]. intros Ha Hb E. apply (f_equal (λ s, substring 15 (String.length s) s)) in E.
  rewrite !str_length_app in E. change (String.length "metering-point-") with 15%nat in E.
  assert (∀ x n, substring 15 (15 + n) ("metering-point-" ++ x) = substring 0 (15 + n) x) as Hs by done.
  assert (∀ x, substring 0 (15 + String.length x) x = x) as Hf.
  { intros x. transitivity (substring 0 (String.length x + 15) (x ++ "")); [by rewrite str_app_nil_r, Nat.add_comm|].
    clear. induction x as [|c x IH]; [done|]. cbn. by rewrite IH. }
  rewrite !Hs, !Hf in E. apply (f_equal parse_digits) in E. rewrite !Zstr_parse in E by lia. injection E. lia.
Qed.

(** What is wrong with row [i]: its meter id is blank, or an earlier row has it. *)
Definition row_error (points : list OwnerMeteringPointInput) (i : nat) (e : MeteringPointError) : Prop :=
  ∃ p, points !! i = Some p ∧
  match e with
  | PointMissing => trim (meter_id p) = ""
  | PointDuplicate => trim (meter_id p) ≠ "" ∧ ∃ j q, (j < i)%nat ∧ points !! j = Some q ∧ trim (meter_id q) = trim (meter_id p)
  end.

Lemma point_errors_spec before points i e :
  (i, e) ∈ point_errors (length before) (oset_of (map (λ p, trim (meter_id p)) before)) points ↔
  (length before <= i)%nat ∧ row_error (before ++ points) i e.
Proof.
  revert before. induction points as [|p points IH]; intros before; cbn [point_errors].
  { rewrite app_nil_r. split; [by intros ?%elem_of_nil|]. intros (Hi & p & Hp & _). by apply lookup_lt_Some in Hp; lia. }
  assert (oset_add (trim (meter_id p)) (oset_of (map (λ p, trim (meter_id p)) before))
          = oset_of (map (λ p, trim (meter_id p)) (before ++ [p]))) as -> by (unfold oset_of; by rewrite map_app, foldl_app).
  assert (S (length before) = length (before ++ [p])) as -> by (rewrite length_app; cbn; lia).
  rewrite elem_of_app, IH, <- app_assoc. cbn [app]. rewrite length_app. cbn [length].
  assert (∀ x, row_error (before ++ p :: points) (length before) x ↔
    match x with
    | PointMissing => trim (meter_id p) = ""
    | PointDuplicate => trim (meter_id p) ≠ "" ∧ oset_has (trim (meter_id p)) (oset_of (map (λ p, trim (meter_id p)) before)) = true
    end) as Hrow.
  { intros x. unfold row_error. rewrite list_lookup_middle by done. rewrite exists_Some. destruct x; [done|].
    rewrite oset_has_true, elem_of_oset_of, list_elem_of_fmap. apply and_iff_compat_l. split.
    - intros (j & q & Hj & Hq & E). rewrite lookup_app_l in Hq by done. exists q. split; [done|]. by eapply list_elem_of_lookup_2.
    - intros (q & E & (j & Hq)%list_elem_of_lookup). exists j, q. pose proof (lookup_lt_Some _ _ _ Hq). split_and!; [done| |done].
      by rewrite lookup_app_l. }
  split.
  - intros [Hin|[Hi Hr]]; [|split; [lia|done]].
    assert (i = length before ∧ row_error (before ++ p :: points) (length before) e) as [-> Hr]; [|split; [lia|done]].
    rewrite Hrow. destruct (nonempty _) eqn:En; cbn [negb] in Hin;
      [destruct (oset_has _ _) eqn:Eh; [|by apply elem_of_nil in Hin]|]; apply list_elem_of_singleton in Hin as [= -> ->];
      split; try done; [apply nonempty_true in En|apply nonempty_false in En]; done.
  - intros [Hi Hr]. destruct (decide (i = length before)) as [->|Hne]; [left|right; split; [lia|done]].
    apply Hrow in Hr. destruct e; [rewrite (proj2 (nonempty_false _) Hr)|destruct Hr as [Hn ->]; rewrite (proj2 (nonempty_true _) Hn)]; cbn;
      by apply list_elem_of_singleton.
Qed.

Lemma getMeteringPointErrors_spec points i e : (i, e) ∈ getMeteringPointErrors points ↔ row_error points i e.
Proof. unfold getMeteringPointErrors. rewrite (point_errors_spec [] points). cbn. split; [by intros [_ ?]|]. split; [lia|done]. Qed.

Definition ids (points : list OwnerMeteringPointInput) : list string := map (λ p, trim (meter_id p)) points.

Lemma no_row_errors points :
  (∀ e, e ∉ map snd (getMeteringPointErrors points)) → Forall (λ m, m ≠ "") (ids points) ∧ NoDup (ids points).
Proof.
  intros H. assert (∀ i e, ¬ row_error points i e) as Hno.
  { intros i e He. apply getMeteringPointErrors_spec in He. apply (H e). apply list_elem_of_fmap. by exists (i, e). }
  assert (Forall (λ m, m ≠ "") (ids points)) as Hf.
  { apply Forall_map, Forall_lookup. intros i p Hp E. apply (Hno i PointMissing). by exists p. }
  split; [done|]. apply NoDup_alt. intros i j x Hi Hj. destruct (decide (i = j)) as [|Hne]; [done|exfalso].
  assert (∀ i j, (i < j)%nat → ids points !! i = Some x → ids points !! j = Some x → False) as Hlt.
  { clear -Hno Hf. intros i j Hij Hi Hj. apply (Hno j PointDuplicate). pose proof (proj1 (Forall_lookup _ _) Hf j x Hj) as Hx.
    unfold ids in Hi, Hj. rewrite list_lookup_fmap in Hi, Hj. apply fmap_Some in Hi as (q & Hq & Eq), Hj as (p & Hp & Ep).
    exists p. split; [done|]. split; [congruence|]. exists i, q. split_and!; [done|done|congruence]. }
  destruct (Nat.lt_ge_cases i j); [by apply (Hlt i j)|apply (Hlt j i); [lia|done|done]].
Qed.

Lemma first_of_None l : first_of l = None ↔ Forall (λ r, r.1 = false) l.
Proof.
  unfold first_of. rewrite Forall_forall, <- find_first_None. by destruct (find_first fst l).
Qed.

Lemma trim_blank s : nonempty (trim s) = false ↔ str_filter (λ c, negb (is_space c)) s = "".
Proof.
  unfold trim. rewrite nonempty_false.
  assert (∀ x, rtrim x = "" ↔ str_filter (λ c, negb (is_space c)) x = "") as Hr.
  { induction x as [|c x IH]; [done|]. cbn. destruct (is_space c); cbn; [|split; done].
    destruct (String.eqb_spec (rtrim x) ""); [tauto|]. rewrite <- IH. split; [done|]. by intros. }
  rewrite Hr. induction s as [|c s IH]; [done|]. cbn. destruct (is_space c) eqn:E; [done|]. cbn. by rewrite E.
Qed.

Lemma upper_not_space c : is_space (upper_char c) = is_space c.
Proof. by destruct c as [[] [] [] [] [] [] [] []]. Qed.
Lemma upper_upper c : upper_char (upper_char c) = upper_char c.
Proof. by destruct c as [[] [] [] [] [] [] [] []]. Qed.

Lemma normalizeIban_idem v : normalizeIban (normalizeIban v) = normalizeIban v.
Proof.
  unfold normalizeIban, to_upper. induction v as [|c v IH]; [done|]. cbn. destruct (is_space c) eqn:E; cbn; [done|].
  rewrite upper_not_space, E. cbn. by rewrite upper_upper, IH.
Qed.
Lemma isValidIban_normalized v : isValidIban (normalizeIban v) = isValidIban v.
Proof. unfold isValidIban. by rewrite normalizeIban_idem. Qed.

Lemma normalized_blank v : filled v = false → normalizeIban v = "".
Proof. unfold filled. intros H%trim_blank. unfold normalizeIban. by rewrite H. Qed.

(** ** Requests *)

(** What a create request must hold. *)
Definition request_ok (p : ZevWizardInput) : Prop :=
  let z := zev_input p in let o := owner p in
  filled (name z) = true ∧ nonempty (start_date z) = true ∧
  (num_truthy (account o) = true ∨
   account o = None ∧ filled (first_name o) = true ∧ filled (last_name o) = true ∧ filled (email o) = true) ∧
  (∃ iban, bank_iban z = Val iban ∧
     (iban = "" ∨ isValidIban iban = true ∧ normalizeIban iban = iban ∧ filled_opt (address_line1 o) = true ∧
        filled_opt (owner_postal_code o) = true ∧ filled_opt (city o) = true)) ∧
  metering_points p ≠ [] ∧ Forall (λ m, m ≠ "") (ids (metering_points p)) ∧ NoDup (ids (metering_points p)).

Lemma valid_request m f :
  (∀ j, (j < 4)%nat → validateWizardStep m j f = None) → request_ok (create_payload m f).
Proof.
  intros H. pose proof (H 1%nat ltac:(lia)) as H1. pose proof (H 2%nat ltac:(lia)) as H2. pose proof (H 3%nat ltac:(lia)) as H3. clear H.
  cbn beta iota zeta delta [validateWizardStep] in H1, H2, H3. apply first_of_None in H1, H2, H3. rewrite Forall_app in H2. repeat rewrite Forall_cons in H1. repeat rewrite Forall_cons in H3.
  destruct H1 as (H11 & H12 & _), H2 as (Hm & Hbank), H3 as (H31 & H32 & H33 & _). repeat rewrite Forall_cons in Hbank.
  destruct Hbank as (Hi & Ha & Hp & Hc & _). cbn [fst] in *. bool_facts. apply bool_decide_eq_false_1 in H31, H32, H33.
  unfold request_ok, create_payload. cbn [zev_input owner metering_points with_bank with_account account first_name last_name email address_line1
    owner_postal_code city name start_date bank_iban].
  split_and!; try done.
  - destruct m; rewrite !Forall_cons in Hm; cbn [fst] in Hm; [right|left]; destruct_and?; bool_facts; done.
  - exists (normalizeIban (iban_of f)). split; [done|]. destruct (filled (iban_of f)) eqn:Ef; [right|by left; apply normalized_blank].
    cbn [andb] in *. bool_facts. by rewrite isValidIban_normalized, normalizeIban_idem.
  - apply no_row_errors. by intros [].
  - apply no_row_errors. by intros [].
Qed.

(** Reading a field of a state made by a handler. *)
Ltac wizard_fields :=
  cbn [createForm wizardStep ownerMode showCreateModal createError createdCredentials createdZevName copyFeedback copyTimer meteringPointKeys
       showMeteringPointErrors focusMeteringPointKey createSubmittedRef keySeed pending openings sent answers with_form set_form set_zev set_owner
       setOwnerMode with_step with_copy with_request zev_input owner metering_points with_points] in *.

Section Invariants.
Context (isAdmin : bool) (today : string).

(** Steps are left in order, each with its part of the form valid. *)
Definition passed (s : wizard) : Prop :=
  showCreateModal s = true → (wizardStep s <= 4)%nat →
  ∀ j, (j < wizardStep s)%nat → validateWizardStep (ownerMode s) j (createForm s) = None.

Definition requests_ok (s : wizard) : Prop :=
  (∀ k p, (k, p) ∈ sent s → request_ok p ∧ (k <= openings s)%nat ∧ isAdmin = true) ∧ NoDup (map fst (sent s)) ∧
  (openings s ∈ map fst (sent s) → createSubmittedRef s = true ∨ showCreateModal s = false) ∧
  (∀ k p, pending s = Some (k, p) → (k, p) ∈ sent s) ∧ (showCreateModal s = true → isAdmin = true).

Lemma focus_effect_inv (P : wizard → Prop) s :
  (∀ f, P s → P (with_form (createForm s) (meteringPointKeys s) (keySeed s) f s)) → P s → P (focus_effect s).
Proof. intros H Hs. unfold focus_effect. destruct (focusMeteringPointKey s); [by apply H|done]. Qed.

Lemma passed_low s : (wizardStep s <= 1)%nat → passed s.
Proof. intros H _ _ j Hj. by replace j with 0%nat by lia. Qed.

(** An edit at step [k] leaves the steps before it alone. *)
Lemma passed_edit s s' :
  passed s → showCreateModal s = true → (wizardStep s <= 4)%nat → wizardStep s' = wizardStep s →
  (∀ j, (j < wizardStep s)%nat → validateWizardStep (ownerMode s) j (createForm s) = None →
     validateWizardStep (ownerMode s') j (createForm s') = None) → passed s'.
Proof. intros Hp Ho Hk E H _ _ j Hj. rewrite E in Hj. apply H; [done|]. by apply Hp. Qed.

Lemma passed_points s s' :
  passed s → showCreateModal s = true → wizardStep s = 3%nat → wizardStep s' = 3%nat → ownerMode s' = ownerMode s →
  (∃ l, createForm s' = with_points l (createForm s)) → passed s'.
Proof.
  intros Hp Ho Hk Hk' Hm (l & E). apply (passed_edit s s' Hp Ho); [lia|lia|]. intros j Hj. rewrite Hm, E, Hk in *.
  destruct j as [|[|[|j]]]; [done|done|done|lia].
Qed.

Ltac step2_edit Hp H := apply (passed_edit _ _ Hp H); wizard_fields; [lia|done|]; intros [|[|j]]; [done|done|lia].

Lemma passed_handle s e : passed s → offered e s = true → passed (handle isAdmin today e s).
Proof.
  intros Hp Ho. destruct e; cbn [offered handle] in *; bool_facts; try done.
  - unfold openCreateModal. destruct (negb isAdmin); [done|]. by apply passed_low.
  - unfold goToNextStep. destruct (validateWizardStep _ _ _) as [m|] eqn:Ev; [exact Hp|]. rewrite H0. intros _ Hk j Hj. wizard_fields.
    destruct (decide (j = wizardStep s)) as [->|Hne]; [done|]. apply Hp; [done|lia|lia].
  - intros Hs Hk j Hj. unfold goToPreviousStep in *. wizard_fields. rewrite H1 in Hj. apply Nat.ltb_lt in H0. apply Hp; [done|lia|lia].
  - unfold handleCreateZev. destruct (_ || _); exact Hp.
  - apply passed_low. wizard_fields. lia.
  - step2_edit Hp H.
  - step2_edit Hp H.
  - step2_edit Hp H.
  - step2_edit Hp H.
  - step2_edit Hp H.
  - apply (passed_points s _ Hp H H0); [done|done|]. by eexists.
  - unfold updateMeteringPoint. destruct (key_index _ _); [|done]. apply (passed_points s _ Hp H H0); [done|done|]. by eexists.
  - unfold removeMeteringPoint. destruct (key_index _ _); [|done]. destruct (_ <=? _)%nat; [done|].
    apply (passed_points s _ Hp H H0); [done|done|]. by eexists.
  - unfold on_created. destruct (pending s) as [[k p]|]; [|done]. intros _ Hk. wizard_fields. lia.
  - unfold on_create_failed. destruct (pending s); [exact Hp|done].
Qed.

Lemma requests_same s s' :
  requests_ok s → sent s' = sent s → openings s' = openings s → (pending s' = pending s ∨ pending s' = None) →
  createSubmittedRef s' = createSubmittedRef s → showCreateModal s' = showCreateModal s → requests_ok s'.
Proof.
  intros (H1 & H2 & H3 & H4 & H5) Es Eo Ep Er Ew. unfold requests_ok. rewrite Es, Eo, Er, Ew. split_and!; try done.
  intros k p E. destruct Ep as [Ep|Ep]; [rewrite Ep in E; by apply H4|congruence].
Qed.

Lemma requests_handle s e : passed s → requests_ok s → offered e s = true → requests_ok (handle isAdmin today e s).
Proof.
  intros Hp Hr Ho. pose proof Hr as (H1 & H2 & H3 & H4 & H5).
  destruct e; cbn [handle]; try (by apply (requests_same s); [|done|done|left|done|done]).
  - unfold openCreateModal. destruct isAdmin eqn:Ea; cbn [negb]; [|done]. unfold requests_ok; wizard_fields. split_and!; try done.
    + intros k p Hin. destruct (H1 k p Hin) as (? & ? & ?). split_and!; [done|lia|congruence].
    + intros ([k p] & Ek & Hin)%list_elem_of_fmap. destruct (H1 k p Hin) as (_ & ? & _). cbn in Ek. lia.
  - unfold requests_ok, closeCreateModal; wizard_fields. split_and!; try done. by intros; right.
  - unfold goToNextStep. destruct (validateWizardStep _ _ _); by apply (requests_same s); [|done|done|left|done|done].
  - cbn [offered] in Ho. bool_facts. unfold handleCreateZev. destruct (createSubmittedRef s) eqn:Er; [by rewrite orb_true_r|].
    rewrite orb_false_r. destruct (negb _ || _) eqn:Eg; [done|]. apply orb_false_elim in Eg as [_ Epend].
    assert (openings s ∉ map fst (sent s)) as Hnew by (intros Hc; destruct (H3 Hc); congruence).
    unfold requests_ok; wizard_fields. split_and!; try done.
    + intros k p [Hin|[= -> ->]%list_elem_of_singleton]%elem_of_app; [by apply H1|]. split_and!; [|lia|by apply H5].
      apply valid_request. intros j Hj. apply Hp; [done|lia|lia].
    + rewrite map_app. apply NoDup_app. split_and!; [done| |apply NoDup_singleton]. cbn. intros k Hk ->%list_elem_of_singleton. done.
    + by intros; left.
    + intros k p [= <- <-]. apply elem_of_app. right. by apply list_elem_of_singleton.
  - unfold updateMeteringPoint. destruct (key_index _ _); [|done]. by apply (requests_same s); [|done|done|left|done|done].
  - unfold removeMeteringPoint. destruct (key_index _ _); [|done]. destruct (_ <=? _)%nat; [done|].
    by apply (requests_same s); [|done|done|left|done|done].
  - unfold on_created. destruct (pending s) as [[k p]|]; [|done]. by apply (requests_same s); [|done|done|right|done|done].
  - unfold on_create_failed. destruct (pending s); [|done]. by apply (requests_same s); [|done|done|right|done|done].
Qed.

(** Rows are kept with their keys. *)
Definition rows_ok (s : wizard) : Prop :=
  (0 <= keySeed s)%Z ∧ (∀ k, k ∈ meteringPointKeys s → ∃ n, (0 <= n < keySeed s)%Z ∧ k = (createMeteringPointKey n).2) ∧
  NoDup (meteringPointKeys s) ∧
  (showCreateModal s = true → length (meteringPointKeys s) = length (metering_points (createForm s)) ∧ metering_points (createForm s) ≠ []).

Lemma key_index_lookup key keys i : key_index key keys = Some i → keys !! i = Some key.
Proof.
  unfold key_index, find_index. intros ([j x] & E & ->)%fmap_Some. cbn. by apply list_find_Some in E as (-> & ->%String.eqb_eq & _).
Qed.

Lemma key_index_at key keys i : NoDup keys → keys !! i = Some key → key_index key keys = Some i.
Proof.
  intros Hnd Hi. destruct (key_index key keys) as [j|] eqn:E.
  - f_equal. apply key_index_lookup in E. by apply (NoDup_lookup keys j i key).
  - unfold key_index, find_index in E. apply fmap_None, list_find_None in E. rewrite Forall_forall in E.
    destruct (E key); [by eapply list_elem_of_lookup_2|apply String.eqb_refl].
Qed.

Lemma remove_key key keys i : NoDup keys → keys !! i = Some key → bfilter (λ k, negb (String.eqb k key)) keys = delete i keys.
Proof.
  intros Hnd. revert i. induction Hnd as [|k keys Hk Hnd IH]; intros [|i] Hi; [done|done| |].
  - injection Hi as ->. cbn. rewrite String.eqb_refl. cbn. apply bfilter_all. intros x Hx. apply negb_true_iff, String.eqb_neq. by intros ->.
  - cbn in Hi |- *. destruct (String.eqb_spec k key) as [->|]; cbn.
    + destruct Hk. by eapply list_elem_of_lookup_2.
    + f_equal. by apply IH.
Qed.

Lemma rows_same s s' :
  rows_ok s → keySeed s' = keySeed s → meteringPointKeys s' = meteringPointKeys s →
  metering_points (createForm s') = metering_points (createForm s) → (showCreateModal s' = true → showCreateModal s = true) → rows_ok s'.
Proof. intros (H1 & H2 & H3 & H4) Es Ek Ep Ew. unfold rows_ok. rewrite Es, Ek, Ep. split_and!; try done; by intros H%Ew; apply H4. Qed.

Lemma fresh_key seed (keys : list string) :
  (0 <= seed)%Z → (∀ k, k ∈ keys → ∃ n, (0 <= n < seed)%Z ∧ k = (createMeteringPointKey n).2) → (createMeteringPointKey seed).2 ∉ keys.
Proof. intros Hs H Hin. destruct (H _ Hin) as (n & Hn & E). apply key_inj in E; lia. Qed.

Lemma rows_handle s e : rows_ok s → offered e s = true → rows_ok (handle isAdmin today e s).
Proof.
  intros Hr Ho. pose proof Hr as (H1 & H2 & H3 & H4). destruct e; cbn [handle]; try (by apply (rows_same s)).
  - unfold openCreateModal. destruct (negb isAdmin); [done|]. unfold rows_ok; wizard_fields. cbn [fst snd createMeteringPointKey].
    split_and!; [lia| |apply NoDup_singleton|done]. intros k ->%list_elem_of_singleton. exists (keySeed s). split; [lia|done].
  - unfold rows_ok, closeCreateModal; wizard_fields. by split_and!.
  - unfold goToNextStep. destruct (validateWizardStep _ _ _); by apply (rows_same s).
  - unfold handleCreateZev. destruct (_ || _); [done|]. by apply (rows_same s).
  - cbn [offered] in Ho. bool_facts. destruct (H4 H) as [Hl Hn]. unfold addMeteringPoint, rows_ok; wizard_fields.
    split_and!.
    + cbn [fst createMeteringPointKey]. lia.
    + intros k [Hk| ->%list_elem_of_singleton]%elem_of_app; [destruct (H2 k Hk) as (n & ? & ->)|]; eexists; (split; [|done]); cbn; lia.
    + apply NoDup_app. split_and!; [done| |apply NoDup_singleton]. intros k Hk ->%list_elem_of_singleton. by apply (fresh_key (keySeed s)) in Hk.
    + intros _. rewrite !length_app, Hl. split; [done|]. by destruct (metering_points (createForm s)).
  - cbn [offered] in Ho. bool_facts. unfold updateMeteringPoint. destruct (key_index _ _) as [i|]; [|done]. destruct (H4 H) as [Hl Hn].
    unfold rows_ok; wizard_fields. split_and!; try done. intros _. rewrite length_alter. split; [done|]. intros E. apply Hn.
    apply length_zero_iff_nil. by rewrite <- (length_alter updates _ i), E.
  - cbn [offered] in Ho. bool_facts. unfold removeMeteringPoint. destruct (key_index _ _) as [i|] eqn:Ei; [|done]. destruct (H4 H) as [Hl Hn].
    destruct (_ <=? _)%nat eqn:El; [done|]. apply Nat.leb_gt in El. apply key_index_lookup in Ei.
    unfold rows_ok; wizard_fields. pose proof (lookup_lt_Some _ _ _ Ei) as Hlt. split_and!; [done| | |].
    + intros k [Hk _]%elem_of_bfilter. by apply H2.
    + pose proof (NoDup_fmap_bfilter id (λ k, negb (String.eqb k key)) (meteringPointKeys s)) as Hb. rewrite !list_fmap_id in Hb. by apply Hb.
    + intros _. rewrite (remove_key _ _ i) by done. split.
      * rewrite !length_delete by (first [done|apply lookup_lt_is_Some_2; lia]). lia.
      * intros E. apply (f_equal length) in E. rewrite length_delete in E by (apply lookup_lt_is_Some_2; lia). cbn in E. lia.
  - unfold on_created. destruct (pending s) as [[k p]|]; [|done]. by apply (rows_same s).
  - unfold on_create_failed. destruct (pending s); [|done]. by apply (rows_same s).
Qed.

(** Step 5 shows the last community created, and only step 5 a community of this opening. *)
Definition result_ok (s : wizard) : Prop :=
  wizardStep s = 5%nat → ∃ k r, last (answers s) = Some (k, r) ∧ createdCredentials s = Some (created r) ∧ createdZevName s = created_name r.

Lemma result_handle s e : result_ok s → offered e s = true → result_ok (handle isAdmin today e s).
Proof.
  intros Hr Ho. destruct e; cbn [handle offered] in *; try exact Hr; bool_facts.
  - unfold openCreateModal. by destruct (negb isAdmin).
  - done.
  - unfold goToNextStep, result_ok. destruct (validateWizardStep _ _ _); wizard_fields; [|rewrite H0]; apply Nat.ltb_lt in H0; lia.
  - unfold goToPreviousStep, result_ok. wizard_fields. rewrite H1. apply Nat.ltb_lt in H0. lia.
  - unfold handleCreateZev. by destruct (_ || _).
  - unfold updateMeteringPoint. by destruct (key_index _ _).
  - unfold removeMeteringPoint. destruct (key_index _ _); [|done]. by destruct (_ <=? _)%nat.
  - unfold on_created. destruct (pending s) as [[k p]|]; [|done]. intros _. wizard_fields. exists k, r. by rewrite last_snoc.
  - unfold on_create_failed. by destruct (pending s).
Qed.

Lemma reachable_wizard_inv s : reachable isAdmin today s → passed s ∧ requests_ok s ∧ rows_ok s ∧ result_ok s.
Proof.
  induction 1 as [seed Hs|s s' _ (IH1 & IH2 & IH3 & IH4) Hstep].
  - split_and!; [by apply passed_low| | |done].
    + split_and!; cbn; try done; [by intros ?? ?%elem_of_nil|constructor|by intros ?%elem_of_nil].
    + unfold rows_ok, initial; wizard_fields. cbn [fst snd createMeteringPointKey]. split_and!; [lia| |apply NoDup_singleton|done].
      intros k ->%list_elem_of_singleton. exists seed. split; [lia|done].
  - destruct Hstep as [e s Ho].
    split_and!; apply focus_effect_inv; try (by intros); [by apply passed_handle|by apply requests_handle|by apply rows_handle|by apply result_handle].
Qed.
End Invariants.

(** ** Runs *)

Fixpoint run (isAdmin : bool) (today : string) (es : list wizard_event) (s : wizard) : option wizard :=
  match es with
  | [] => Some s
  | e :: es => if offered e s then run isAdmin today es (focus_effect (handle isAdmin today e s)) else None
  end.

Lemma run_reachable isAdmin today es s s' : reachable isAdmin today s → run isAdmin today es s = Some s' → reachable isAdmin today s'.
Proof.
  revert s. induction es as [|e es IH]; intros s Hs E; cbn in E; [congruence|]. destruct (offered e s) eqn:Ho; [|done].
  apply (IH _ (reach_step _ _ _ _ Hs (wizard_step _ _ e s Ho)) E).
Qed.

Lemma focus_same s :
  sent (focus_effect s) = sent s ∧ createSubmittedRef (focus_effect s) = createSubmittedRef s ∧ createForm (focus_effect s) = createForm s ∧
  meteringPointKeys (focus_effect s) = meteringPointKeys s.
Proof. unfold focus_effect. by destruct (focusMeteringPointKey s). Qed.

Lemma handle_sent isAdmin today e s :
  sent (handle isAdmin today e s) = sent s ∨
  e = Create ∧ wizardStep s = 4%nat ∧ createSubmittedRef s = false ∧ pending s = None ∧
  sent (handle isAdmin today e s) = (sent s ++ [(openings s, create_payload (ownerMode s) (createForm s))])%list.
Proof.
  destruct e; cbn [handle]; try by left.
  - left. unfold openCreateModal. by destruct (negb isAdmin).
  - left. unfold goToNextStep. by destruct (validateWizardStep _ _ _).
  - unfold handleCreateZev. destruct (wizardStep s =? 4)%nat eqn:E4; [|by left]. destruct (createSubmittedRef s) eqn:Er; [by left|].
    case_bool_decide as Hp; [by left|]. right. apply Nat.eqb_eq in E4. split_and!; try done. by destruct (pending s); [destruct Hp; eexists|].
  - left. unfold updateMeteringPoint. by destruct (key_index _ _).
  - left. unfold removeMeteringPoint. destruct (key_index _ _); [|done]. by destruct (_ <=? _)%nat.
  - left. unfold on_created. by destruct (pending s) as [[? ?]|].
  - left. unfold on_create_failed. by destruct (pending s).
Qed.

Lemma handle_submitted isAdmin today e s :
  e ≠ Close → createSubmittedRef s = true → createSubmittedRef (handle isAdmin today e s) = true.
Proof.
  intros Hc Hr. destruct e; cbn [handle]; try done.
  - unfold openCreateModal. by destruct (negb isAdmin).
  - unfold goToNextStep. by destruct (validateWizardStep _ _ _).
  - unfold handleCreateZev. rewrite Hr. by rewrite orb_true_r.
  - unfold updateMeteringPoint. by destruct (key_index _ _).
  - unfold removeMeteringPoint. destruct (key_index _ _); [|done]. by destruct (_ <=? _)%nat.
  - unfold on_created. by destruct (pending s) as [[? ?]|].
  - unfold on_create_failed. by destruct (pending s).
Qed.

(** ** Theorems *)

(** C35. A community is created only by the click on the review, for an administrator, with the
    form as it stands; every request is complete (a name, a start, an owner who is an
    account or has a name and an e-mail, an IBAN only if valid, normalised and with an
    address, at least one meter and no id blank or twice), no opening of the wizard sends
    two, and none is sent while another is waited for. *)
Theorem wizard_creates_sound isAdmin today s e :
  reachable isAdmin today s → offered e s = true →
  (∀ k p, (k, p) ∈ sent s → request_ok p ∧ isAdmin = true) ∧ NoDup (map fst (sent s)) ∧
  (∀ kp, pending s = Some kp → kp ∈ sent s) ∧
  let s' := focus_effect (handle isAdmin today e s) in
  sent s' = sent s ∨
  e = Create ∧ wizardStep s = 4%nat ∧ pending s = None ∧
  sent s' = (sent s ++ [(openings s, create_payload (ownerMode s) (createForm s))])%list.
Proof.
  intros Hr Ho. destruct (reachable_wizard_inv _ _ _ Hr) as (_ & (H1 & H2 & _ & H4 & _) & _). split_and!; [|done| |].
  - intros k p Hin. by destruct (H1 k p Hin) as (? & _ & ?).
  - intros [k p]. apply H4.
  - cbn zeta. rewrite (proj1 (focus_same _)). destruct (handle_sent isAdmin today e s) as [?|(? & ? & _ & ? & ?)]; [by left|by right].
Qed.

(** While the wizard is open each row has its key and no key is used twice; typing in a row
    changes that row only, removing a row removes it and its key and keeps the last one,
    and adding one puts an empty row with a new key at the end. *)
Theorem wizard_rows_keyed isAdmin today s i key :
  reachable isAdmin today s → showCreateModal s = true →
  meteringPointKeys s !! i = Some key →
  let rows t := metering_points (createForm (focus_effect t)) in let keys t := meteringPointKeys (focus_effect t) in
  length (meteringPointKeys s) = length (metering_points (createForm s)) ∧ NoDup (meteringPointKeys s) ∧
  (∀ u, rows (updateMeteringPoint key u s) = alter u i (metering_points (createForm s)) ∧
        keys (updateMeteringPoint key u s) = meteringPointKeys s) ∧
  (if (1 <? length (metering_points (createForm s)))%nat
   then rows (removeMeteringPoint key s) = delete i (metering_points (createForm s)) ∧
        keys (removeMeteringPoint key s) = delete i (meteringPointKeys s)
   else (removeMeteringPoint key s = s)) ∧
  ∃ new, (new ∉ meteringPointKeys s) ∧ rows (addMeteringPoint s) = (metering_points (createForm s) ++ [empty_point])%list ∧
          keys (addMeteringPoint s) = (meteringPointKeys s ++ [new])%list.
Proof.
  intros Hr Ho Hk rows keys. destruct (reachable_wizard_inv _ _ _ Hr) as (_ & _ & (H1 & H2 & H3 & H4) & _). destruct (H4 Ho) as [Hl _].
  unfold rows, keys. split; [done|]. split; [done|]. split_and!.
  - intros u. destruct (focus_same (updateMeteringPoint key u s)) as (_ & _ & -> & ->). unfold updateMeteringPoint.
    rewrite (key_index_at _ _ i) by done. done.
  - unfold removeMeteringPoint. rewrite (key_index_at _ _ i) by done. rewrite Nat.ltb_antisym. destruct (_ <=? _)%nat; [done|]. cbn [negb].
    destruct (focus_same (with_form (with_points (delete i (metering_points (createForm s))) (createForm s))
      (bfilter (λ existingKey, negb (String.eqb existingKey key)) (meteringPointKeys s)) (keySeed s) (focusMeteringPointKey s) s)) as (_ & _ & -> & ->).
    wizard_fields. split; [done|]. by apply remove_key.
  - exists (createMeteringPointKey (keySeed s)).2. destruct (focus_same (addMeteringPoint s)) as (_ & _ & -> & ->).
    split; [by apply fresh_key|]. done.
Qed.

(** A created community is shown with what was answered for it: step 5 of an open wizard
    is reached by an answer only, and shows its name and account. *)
Theorem wizard_result_shown isAdmin today s r :
  reachable isAdmin today s →
  (wizardStep s = 5%nat → ∃ k r', last (answers s) = Some (k, r') ∧ createdCredentials s = Some (created r') ∧
     createdZevName s = created_name r') ∧
  (is_Some (pending s) →
   let s' := focus_effect (handle isAdmin today (CreateSucceeded r) s) in
   wizardStep s' = 5%nat ∧ createError s' = None ∧ createdCredentials s' = Some (created r) ∧ createdZevName s' = created_name r ∧
   showCreateModal s' = showCreateModal s).
Proof.
  intros Hr. destruct (reachable_wizard_inv _ _ _ Hr) as (_ & _ & _ & H). split; [done|]. intros [[k p] Hp]. cbn [handle]. unfold on_created.
  rewrite Hp. unfold focus_effect. wizard_fields. by destruct (focusMeteringPointKey s).
Qed.

(** Once a request of an opening was sent nothing is sent until the wizard is closed, also
    when the request failed: the button of the review then does nothing. *)
Theorem failed_create_is_not_retried isAdmin today es s s' :
  createSubmittedRef s = true → Forall (λ e, e ≠ Close) es → run isAdmin today es s = Some s' → sent s' = sent s.
Proof.
  revert s. induction es as [|e es IH]; intros s Hs Hes E; cbn in E; [congruence|]. destruct (offered e s); [|done].
  apply Forall_cons in Hes as [He Hes]. apply IH in E; [|by rewrite (proj1 (proj2 (focus_same _))); apply handle_submitted|done]. rewrite E.
  rewrite (proj1 (focus_same _)). destruct (handle_sent isAdmin today e s) as [?|(_ & _ & ? & _)]; [done|congruence].
Qed.

(** ** Samples *)

Definition typed (m : string) (p : OwnerMeteringPointInput) : OwnerMeteringPointInput :=
  {| meter_id := m; meter_type := meter_type p; is_active := is_active p; location_description := location_description p |}.

(** The wizard filled in up to the review; the first key of the module is for the first render. *)
Definition fill (k1 k2 : string) : list wizard_event :=
  [Open; EditGeneral (GName "Muster"); Next; EditOwner OFirstName "Oscar"; EditOwner OLastName "Owner"; EditOwner OEmail "o@x.ch"; Next;
   UpdatePoint k1 (typed "CH1"); AddPoint; UpdatePoint k2 (typed "CH2"); Next].
Definition sample_fill : list wizard_event := fill "metering-point-2" "metering-point-3".
Definition sample_result : ZevWizardResult :=
  {| created_id := "z1"; created_name := "Muster";
     created := {| owner_id := 2; owner_username := "oscar"; temporary_password := Some "pw"; existing_account := false |} |}.
Definition start : wizard := initial "2026-01-01" 0.
Definition after (es : list wizard_event) : wizard := default start (run true "2026-01-01" es start).

Lemma after_reachable es : bool_decide (is_Some (run true "2026-01-01" es start)) = true → reachable true "2026-01-01" (after es).
Proof.
  intros [s Hs]%bool_decide_eq_true. unfold after. rewrite Hs. cbn. apply (run_reachable true "2026-01-01" es start); [by apply reach_init|done].
Qed.

Lemma wizard_creates_sound_witness :
  let s := after sample_fill in let s' := focus_effect (handle true "2026-01-01" Create s) in
  reachable true "2026-01-01" s ∧ offered Create s = true ∧ sent s = [] ∧ length (sent s') = 1%nat ∧
  map meter_id (metering_points (create_payload (ownerMode s) (createForm s))) = ["CH1"; "CH2"] ∧
  (sent s' = sent s ∨
   Create = Create ∧ wizardStep s = 4%nat ∧ pending s = None ∧
   sent s' = (sent s ++ [(openings s, create_payload (ownerMode s) (createForm s))])%list).
Proof.
  intros s s'. assert (reachable true "2026-01-01" s) as Hr by (apply after_reachable; by vm_compute).
  assert (offered Create s = true) as Ho by (by vm_compute).
  split; [done|]. split; [done|]. split; [by vm_compute|]. split; [by vm_compute|]. split; [by vm_compute|].
  apply (wizard_creates_sound true "2026-01-01" s Create Hr Ho).
Defined.

Lemma wizard_rows_keyed_witness :
  let s := after (take 10 sample_fill) in
  reachable true "2026-01-01" s ∧ meteringPointKeys s = ["metering-point-2"; "metering-point-3"] ∧
  map meter_id (metering_points (createForm (focus_effect (removeMeteringPoint "metering-point-2" s)))) = ["CH2"] ∧
  metering_points (createForm (focus_effect (updateMeteringPoint "metering-point-2" (typed "CH9") s)))
  = alter (typed "CH9") 0%nat (metering_points (createForm s)).
Proof.
  intros s. assert (reachable true "2026-01-01" s) as Hr by (apply after_reachable; by vm_compute).
  split; [done|]. split; [by vm_compute|]. split; [by vm_compute|]. 
  refine (proj1 (proj1 (proj2 (proj2 (wizard_rows_keyed true "2026-01-01" s 0 "metering-point-2" Hr _ _))) (typed "CH9"))); by vm_compute.
Defined.

Lemma wizard_result_shown_witness :
  let s := after (sample_fill ++ [Create; CreateSucceeded sample_result]) in
  reachable true "2026-01-01" s ∧ wizardStep s = 5%nat ∧
  ∃ k r, last (answers s) = Some (k, r) ∧ createdCredentials s = Some (created r) ∧ createdZevName s = created_name r.
Proof.
  intros s. assert (reachable true "2026-01-01" s) as Hr by (apply after_reachable; by vm_compute).
  split; [done|]. split; [by vm_compute|].
  apply (proj1 (wizard_result_shown true "2026-01-01" s sample_result Hr)). by vm_compute.
Defined.

(** The first request fails; the second click on the review's button, with the error shown
    and the button enabled, sends nothing. *)
Lemma failed_create_is_not_retried_witness :
  let s := after (sample_fill ++ [Create; CreateFailed "timeout"]) in let s' := after (sample_fill ++ [Create; CreateFailed "timeout"; Create; Previous; Next; Create]) in
  createError s = Some "timeout" ∧ pending s = None ∧ offered Create s = true ∧ createSubmittedRef s = true ∧ length (sent s) = 1%nat ∧
  sent s' = sent s.
Proof.
  intros s s'. do 5 (split; [by vm_compute|]).
  apply (failed_create_is_not_retried true "2026-01-01" [Create; Previous; Next; Create]);
    [by vm_compute|repeat constructor; done|unfold s, s', after; by vm_compute].
Defined.

(** The wizard is closed while its request runs and opened for another community: the answer
    to the first puts the new wizard at its end, and closing it drops what was typed. *)
Lemma late_creation_takes_over_wizard :
  let s := after (sample_fill ++ [Create; Close; Open; EditGeneral (GName "Second"); CreateSucceeded sample_result]) in
  let s' := after (sample_fill ++ [Create; Close; Open; EditGeneral (GName "Second"); CreateSucceeded sample_result; Close; Open]) in
  wizardStep s = 5%nat ∧ createdZevName s = "Muster" ∧ name (zev_input (createForm s)) = "Second" ∧
  name (zev_input (createForm s')) = "" ∧ length (sent s') = 1%nat.
Proof. cbn zeta. split_and!; by vm_compute. Qed.
