(* ===== verification/Communities.v ===== *)
(** The list of communities: frontend/src/pages/ZevListPage.tsx without its wizard
    (ZevWizard). Which actions a row has, the edit dialog with its save, and the purge, which
    asks for the community's name.

    The purge runs in the dialog of ConfirmDialog, which is used as it is there: the page adds
    what its action reads when it runs. An opening of the dialog is numbered as there; a
    handler may run with any state the hook ever set. *)

From S2P Require Import Prelude JsString JsNumber ZevForm ConfirmDialog.
Local Open Scope string_scope.

(** ** Rows *)

Inductive row_action := ActManage | ActEdit | ActEnable | ActPurge | ActDisable.

Definition row_actions (zev : Zev) : list row_action :=
  ([ActManage; ActEdit] ++ if truthy_str (zev_disabled_at zev) then [ActEnable; ActPurge] else [ActDisable])%list.

(** ** The edit dialog *)

Record edit_page := {
  editingId : option string; editForm : ZevInput; showEditModal : bool; editError : option string;
  edit_pending : option (string * ZevInput); updates : list (string * ZevInput);
}.

Section Edit.
Context (today : string).

Definition closed_edit (p : option (string * ZevInput)) (l : list (string * ZevInput)) : edit_page :=
  {| editingId := None; editForm := getDefaultZevForm today; showEditModal := false; editError := None; edit_pending := p; updates := l |}.

Definition startEdit (zev : Zev) (s : edit_page) : edit_page :=
  {| editingId := Some (zev_id zev); editForm := mapZevToForm zev; showEditModal := true; editError := None; edit_pending := edit_pending s;
     updates := updates s |}.

Definition closeEditModal (s : edit_page) : edit_page := closed_edit (edit_pending s) (updates s).

Definition patchEdit (patch : ZevInput → ZevInput) (s : edit_page) : edit_page :=
  {| editingId := editingId s; editForm := patch (editForm s); showEditModal := showEditModal s; editError := editError s;
     edit_pending := edit_pending s; updates := updates s |}.

Definition submitEdit (s : edit_page) : edit_page :=
  match editingId s with
  | Some id =>
      if negb (nonempty id) then s
      else let p := (id, editForm s) in
           {| editingId := editingId s; editForm := editForm s; showEditModal := showEditModal s; editError := editError s;
              edit_pending := Some p; updates := (updates s ++ [p])%list |}
  | None => s
  end.

Definition update_succeeded (s : edit_page) : edit_page := closed_edit None (updates s).

(** [message] is the formatted error. *)
Definition update_failed (message : string) (s : edit_page) : edit_page :=
  {| editingId := editingId s; editForm := editForm s; showEditModal := showEditModal s; editError := Some message; edit_pending := None;
     updates := updates s |}.

Inductive edit_event :=
  | StartEdit (zev : Zev) | CloseEdit | PatchEdit (patch : ZevInput → ZevInput) | SubmitEdit | UpdateSucceeded | UpdateFailed (message : string).

(** The button is disabled while a save is pending; answers come to a save in flight. *)
Definition edit_offered (e : edit_event) (s : edit_page) : bool :=
  match e with
  | StartEdit _ => negb (showEditModal s)
  | CloseEdit | PatchEdit _ => showEditModal s
  | SubmitEdit => showEditModal s && bool_decide (edit_pending s = None)
  | UpdateSucceeded | UpdateFailed _ => bool_decide (is_Some (edit_pending s))
  end.

Definition edit_handle (e : edit_event) (s : edit_page) : edit_page :=
  match e with
  | StartEdit zev => startEdit zev s
  | CloseEdit => closeEditModal s
  | PatchEdit patch => patchEdit patch s
  | SubmitEdit => submitEdit s
  | UpdateSucceeded => update_succeeded s
  | UpdateFailed message => update_failed message s
  end.

Inductive edit_reachable : edit_page → Prop :=
  | edit_init : edit_reachable (closed_edit None [])
  | edit_step s e : edit_reachable s → edit_offered e s = true → edit_reachable (edit_handle e s).

End Edit.

(** ** The purge *)

Record purge := { purge_run : nat; purge_opening : nat; purge_zev : Zev; confirmation : string }.

(** [opened] holds the community of each opening and [typed] what was typed in which. *)
Record purge_page := {
  confirm_dialog : confirm_state; opened : list Zev; purgeTarget : option Zev; purgeConfirmation : string; purgeConfirmationRef : string;
  typed : list (nat * string); purges : list purge;
}.

Definition with_dialog (d : confirm_state) (s : purge_page) : purge_page :=
  {| confirm_dialog := d; opened := opened s; purgeTarget := purgeTarget s; purgeConfirmation := purgeConfirmation s;
     purgeConfirmationRef := purgeConfirmationRef s; typed := typed s; purges := purges s |}.

Definition openPurgeDialog (zev : Zev) (s : purge_page) : purge_page :=
  {| confirm_dialog := confirm false (confirm_dialog s); opened := (opened s ++ [zev])%list; purgeTarget := Some zev; purgeConfirmation := "";
     purgeConfirmationRef := ""; typed := typed s; purges := purges s |}.

(** The input's [onChange]: the input belongs to the last opening. *)
Definition type_confirmation (v : string) (s : purge_page) : purge_page :=
  {| confirm_dialog := confirm_dialog s; opened := opened s; purgeTarget := purgeTarget s; purgeConfirmation := v; purgeConfirmationRef := v;
     typed := (typed s ++ [(openings (confirm_dialog s) - 1, v)])%list; purges := purges s |}.

(** [onConfirm] of opening [k], as run [i]: false, or the request. *)
Definition onConfirm (i k : nat) (s : purge_page) : option purge :=
  zev ← opened s !! k;
  if negb (String.eqb (trim (purgeConfirmationRef s)) (trim (zev_name zev))) then None
  else Some {| purge_run := i; purge_opening := k; purge_zev := zev; confirmation := purgeConfirmationRef s |}.

(** [handleConfirm] with the action it calls: a refusal is settled at once, a request waits. *)
Definition handlePurgeConfirm (state : option dialog) (s : purge_page) : purge_page :=
  let d := handleConfirm state (confirm_dialog s) in
  let i := length (runs (confirm_dialog s)) in
  match runs d !! i with
  | None => with_dialog d s
  | Some r =>
      match onConfirm i (opening (pending r)) s with
      | None => with_dialog (default d (settle i OutcomeRefused d)) s
      | Some p =>
          {| confirm_dialog := d; opened := opened s; purgeTarget := purgeTarget s; purgeConfirmation := purgeConfirmation s;
             purgeConfirmationRef := purgeConfirmationRef s; typed := typed s; purges := (purges s ++ [p])%list |}
      end
  end.

(** The request of run [i] is answered; a failure is consumed, so the action is done. *)
Definition purge_answered (i : nat) (s : purge_page) : purge_page :=
  with_dialog (default (confirm_dialog s) (settle i OutcomeDone (confirm_dialog s))) s.

(** [handleCancel] with [onCancel] when it cancels. *)
Definition handlePurgeCancel (state : option dialog) (s : purge_page) : purge_page :=
  let d := handleCancel state (confirm_dialog s) in
  if (length (events d) =? length (events (confirm_dialog s)))%nat then with_dialog d s
  else {| confirm_dialog := d; opened := opened s; purgeTarget := None; purgeConfirmation := ""; purgeConfirmationRef := ""; typed := typed s;
          purges := purges s |}.

Inductive purge_step : purge_page → purge_page → Prop :=
  | purge_opens s zev : In ActPurge (row_actions zev) → purge_step s (openPurgeDialog zev s)
  | purge_types s v : is_Some (shown (confirm_dialog s)) → is_Some (purgeTarget s) → purge_step s (type_confirmation v s)
  | purge_confirms s state : state ∈ set_states (confirm_dialog s) → purge_step s (handlePurgeConfirm state s)
  | purge_answers s i : purge_step s (purge_answered i s)
  | purge_cancels s state : state ∈ set_states (confirm_dialog s) → purge_step s (handlePurgeCancel state s)
  | purge_unmounts s : purge_step s (with_dialog (unmount (confirm_dialog s)) s).

Definition no_purge : purge_page :=
  {| confirm_dialog := initial; opened := []; purgeTarget := None; purgeConfirmation := ""; purgeConfirmationRef := ""; typed := []; purges := [] |}.

Inductive purge_reachable : purge_page → Prop :=
  | purge_init : purge_reachable no_purge
  | purge_next s s' : purge_reachable s → purge_step s s' → purge_reachable s'.

(** ** What the purge adds to its dialog *)

(** Run [i] of opening [k] is not refused. *)
Definition runs_for (d : confirm_state) (i k : nat) : Prop :=
  ∃ r, runs d !! i = Some r ∧ opening (pending r) = k ∧ status r ≠ RunRefused.

Definition purge_ok (s : purge_page) (p : purge) : Prop :=
  opened s !! purge_opening p = Some (purge_zev p) ∧ trim (confirmation p) = trim (zev_name (purge_zev p)) ∧
  (confirmation p = "" ∨ (purge_opening p, confirmation p) ∈ typed s) ∧ runs_for (confirm_dialog s) (purge_run p) (purge_opening p).

Definition purge_inv (s : purge_page) : Prop :=
  let d := confirm_dialog s in
  reachable d ∧ length (opened s) = openings d ∧ (∀ o, activeRef d = Some o → S (opening o) = openings d) ∧
  (purgeConfirmationRef s = "" ∨ (openings d - 1, purgeConfirmationRef s)%nat ∈ typed s) ∧
  (∀ zev, zev ∈ opened s → truthy_str (zev_disabled_at zev) = true) ∧ (∀ p, p ∈ purges s → purge_ok s p) ∧ NoDup (map purge_run (purges s)).

Lemma handleConfirm_cases state d :
  handleConfirm state d = d ∨
  ∃ o r, activeRef d = Some o ∧ runs (handleConfirm state d) = (runs d ++ [r])%list ∧ base r = o ∧ opening (pending r) = opening o ∧
    status r = RunRunning ∧ openings (handleConfirm state d) = openings d ∧ activeRef (handleConfirm state d) = Some (pending r).
Proof.
  unfold handleConfirm. destruct state as [o|]; [|by left]. destruct (_ || confirmDisabled o) eqn:E; [by left|right]. bool_facts.
  apply bool_decide_eq_true in H. eexists o, _. by split_and!.
Qed.

Lemma settle_cases i out d d' :
  settle i out d = Some d' →
  openings d' = openings d ∧
  (∃ st, runs d' = set_run i st (runs d) ∧ (st = RunRefused → out = OutcomeRefused)) ∧
  (activeRef d' = activeRef d ∨ activeRef d' = None ∨ ∃ r, runs d !! i = Some r ∧ activeRef d = Some (pending r) ∧ activeRef d' = Some (base r)).
Proof.
  unfold settle. destruct (runs d !! i) as [r|] eqn:Hi; cbn [mbind option_bind]; [|done]. destruct (negb _); [done|].
  destruct (negb (bool_decide (activeRef d = _))) eqn:Ea.
  - intros [= <-]. cbn. split_and!; [done| |by left]. by exists RunFinished.
  - bool_facts. apply bool_decide_eq_true in Ea. destruct out; intros [= <-]; cbn; split_and!; try done.
    + by exists RunFinished. + by right; left.
    + by exists RunRefused. + right; right. by exists r.
    + by exists RunFinished. + by right; left.
Qed.

Lemma runs_for_set i st d d' j k :
  runs d' = set_run i st (runs d) → (j = i → st ≠ RunRefused) → runs_for d j k → runs_for d' j k.
Proof.
  intros E Hst (r & Hr & Hk & Hs). unfold runs_for. rewrite E. unfold set_run. destruct (decide (j = i)) as [->|Hne].
  - rewrite list_lookup_alter_eq, Hr. eexists. split; [done|]. split; [done|]. by apply Hst.
  - rewrite list_lookup_alter_ne by done. by exists r.
Qed.

(** An event of the dialog that keeps its runs for the requests already sent. *)
Lemma purge_inv_dialog d' s :
  purge_inv s → reachable d' → openings d' = openings (confirm_dialog s) → (∀ o, activeRef d' = Some o → S (opening o) = openings d') →
  (∀ p, p ∈ purges s → runs_for (confirm_dialog s) (purge_run p) (purge_opening p) → runs_for d' (purge_run p) (purge_opening p)) →
  purge_inv (with_dialog d' s).
Proof.
  intros (H1 & H2 & H3 & H4 & H5 & H6 & H7) Hr Eo Ha Hp. unfold purge_inv, purge_ok. cbn. rewrite Eo in *. split_and!; try done.
  intros p Hin. destruct (H6 p Hin) as (? & ? & ? & ?). split_and!; try done. by apply Hp.
Qed.

Lemma settle_purge_inv i out d' s :
  purge_inv s → settle i out (confirm_dialog s) = Some d' → (∀ p, p ∈ purges s → purge_run p = i → out ≠ OutcomeRefused) →
  purge_inv (with_dialog d' s).
Proof.
  intros Hinv E Hi. pose proof Hinv as (H1 & _ & H3 & _). destruct (settle_cases _ _ _ _ E) as (Eo & (st & Er & Hst) & Ha).
  apply purge_inv_dialog; [done|eapply reach_step; [done|by eapply step_settle]|done| |].
  - intros o Ho. rewrite Eo. destruct Ha as [Ha|[Ha|(r & Hr & Ha & Hb)]]; [apply H3; congruence|congruence|].
    destruct (reachable_confirm_inv _ H1) as (_ & Hruns & _). destruct (Hruns r ltac:(by eapply list_elem_of_lookup_2)) as (_ & _ & Eb & _).
    rewrite Ho in Hb. injection Hb as ->. rewrite Eb. by apply H3.
  - intros p Hin. apply (runs_for_set i st); [done|]. intros E' Ers. by apply (Hi p Hin E'), Hst.
Qed.

Lemma confirm_purge_inv state s : purge_inv s → state ∈ set_states (confirm_dialog s) → purge_inv (handlePurgeConfirm state s).
Proof.
  intros Hinv Hstate. pose proof Hinv as (H1 & H2 & H3 & H4 & H5 & H6 & H7). unfold handlePurgeConfirm.
  destruct (handleConfirm_cases state (confirm_dialog s)) as [->|(o & r & Ha & Er & Eb & Ek & Es & Eo & Ha')].
  { rewrite lookup_ge_None_2 by done. by destruct s. }
  rewrite Er, list_lookup_middle by done. set (d := handleConfirm state (confirm_dialog s)) in *. set (i := length (runs (confirm_dialog s))).
  assert (reachable d) as Hd by (eapply reach_step; [done|by apply step_handleConfirm]).
  assert (∀ o', activeRef d = Some o' → S (opening o') = openings d) as Hd3.
  { intros o' E. rewrite Ha' in E. injection E as <-. rewrite Ek, Eo. by apply H3. }
  assert (∀ p, p ∈ purges s → (purge_run p < i)%nat) as Hlt.
  { intros p Hin. destruct (H6 p Hin) as (_ & _ & _ & (x & Hx & _)). by apply lookup_lt_Some in Hx. }
  assert (∀ j k, runs_for (confirm_dialog s) j k → runs_for d j k) as Hfor.
  { intros j k (x & Hx & ?). exists x. rewrite Er, lookup_app_l by (by apply lookup_lt_Some in Hx). done. }
  pose proof (purge_inv_dialog d s Hinv Hd Eo Hd3 (λ p _, Hfor _ _)) as Hinv'.
  unfold onConfirm. destruct (opened s !! opening (pending r)) as [zev|] eqn:Hz; cbn [mbind option_bind].
  2: { apply lookup_ge_None in Hz. pose proof (H3 o Ha). rewrite Ek in Hz. lia. }
  destruct (String.eqb_spec (trim (purgeConfirmationRef s)) (trim (zev_name zev))) as [Et|_]; cbn [negb].
  - unfold purge_inv, purge_ok in *. cbn in Hinv' |- *. destruct Hinv' as (? & ? & ? & H4' & ? & H6' & _). split_and!; try done.
    + intros p [Hin| ->%list_elem_of_singleton]%elem_of_app; [by apply H6'|]. cbn. split_and!; try done.
      * destruct H4' as [?|Hty]; [by left|right]. replace (opening (pending r)) with (openings d - 1)%nat; [done|]. rewrite Ek, Eo, <- (H3 o Ha). lia.
      * exists r. rewrite Er, list_lookup_middle by done. split_and!; [done|done|congruence].
    + rewrite map_app. apply NoDup_app. split_and!; [done| |apply NoDup_singleton]. cbn. intros k (p & -> & Hin)%list_elem_of_fmap
        E%list_elem_of_singleton. specialize (Hlt p Hin). lia.
  - destruct (settle i OutcomeRefused d) as [d'|] eqn:E; cbn [default]; [|done].
    apply (settle_purge_inv i OutcomeRefused d' (with_dialog d s) Hinv' E). intros p Hin Ep. specialize (Hlt p Hin). lia.
Qed.

Lemma cancel_keeps state d :
  runs (handleCancel state d) = runs d ∧ openings (handleCancel state d) = openings d ∧
  (activeRef (handleCancel state d) = activeRef d ∨ activeRef (handleCancel state d) = None).
Proof. unfold handleCancel. destruct state as [o|]; [|by split_and!; try left]. destruct (bool_decide _); cbn; split_and!; try done; [by right|by left]. Qed.

Lemma purge_inv_step s s' : purge_inv s → purge_step s s' → purge_inv s'.
Proof.
  intros Hinv Hs. pose proof Hinv as (H1 & H2 & H3 & H4 & H5 & H6 & H7). destruct Hs as [s zev Hz|s v _ _|s state Hst|s i|s state Hst|s].
  - unfold purge_inv, purge_ok, openPurgeDialog. cbn. split_and!; try done.
    + eapply reach_step; [done|]. apply step_confirm.
    + rewrite length_app, H2. cbn. lia.
    + intros o [= <-]. done.
    + by left.
    + intros z [?| ->%list_elem_of_singleton]%elem_of_app; [by apply H5|]. unfold row_actions in Hz.
      destruct (truthy_str (zev_disabled_at zev)); [done|]. destruct Hz as [?|[?|[?|[]]]]; done.
    + intros p Hin. destruct (H6 p Hin) as (E & ? & ? & ?). split_and!; try done. by rewrite lookup_app_l by (by apply lookup_lt_Some in E).
  - unfold purge_inv, purge_ok, type_confirmation. cbn. split_and!; try done.
    + right. apply elem_of_app. right. by apply list_elem_of_singleton.
    + intros p Hin. destruct (H6 p Hin) as (? & ? & Ht & ?). split_and!; try done. destruct Ht as [?|?]; [by left|right]. apply elem_of_app. by left.
  - by apply confirm_purge_inv.
  - unfold purge_answered. destruct (settle i OutcomeDone _) as [d'|] eqn:E; cbn [default]; [|by destruct s].
    apply (settle_purge_inv i OutcomeDone d' s Hinv E). done.
  - destruct (cancel_keeps state (confirm_dialog s)) as (Er & Eo & Ha).
    assert (purge_inv (with_dialog (handleCancel state (confirm_dialog s)) s)) as H.
    { apply purge_inv_dialog; [done|eapply reach_step; [done|by apply step_handleCancel]|done| |].
      - intros o Ho. rewrite Eo. apply H3. destruct Ha; congruence.
      - intros p _. unfold runs_for. by rewrite Er. }
    unfold handlePurgeCancel. destruct (_ =? _)%nat; [done|]. destruct H as (? & ? & ? & _ & ? & ? & ?). split_and!; try done. by left.
  - apply purge_inv_dialog; try done. eapply reach_step; [done|]. apply step_unmount.
Qed.

(** C36. A community is purged only after its name was typed: a request names a community that was
    switched off when its dialog was opened, what was confirmed is its name up to the spaces
    around it and was typed in that opening (if the name is not blank), and an opening sends
    at most one request, however the handlers of earlier renders run. *)
Theorem purge_confirmed s p :
  purge_reachable s → p ∈ purges s →
  opened s !! purge_opening p = Some (purge_zev p) ∧ In ActPurge (row_actions (purge_zev p)) ∧
  trim (confirmation p) = trim (zev_name (purge_zev p)) ∧
  (trim (zev_name (purge_zev p)) ≠ "" → (purge_opening p, confirmation p) ∈ typed s) ∧
  NoDup (map purge_opening (purges s)).
Proof.
  intros Hr Hp. assert (purge_inv s) as (H1 & H2 & H3 & H4 & H5 & H6 & H7).
  { clear Hp. induction Hr as [|s s' _ IH Hs]; [|by apply (purge_inv_step s)]. unfold purge_inv. cbn. split_and!; try done; try by intros ? ?%elem_of_nil.
    - apply reach_init. - by left. - constructor. }
  destruct (H6 p Hp) as (Ho & Et & Hty & _). split_and!; [done| |done| |].
  - unfold row_actions. rewrite (H5 (purge_zev p)) by (by eapply list_elem_of_lookup_2). by right; right; right; left.
  - intros Hn. destruct Hty as [E|?]; [|done]. by rewrite E in Et.
  - apply NoDup_alt. intros a b k Ha Hb. apply list_lookup_fmap_Some in Ha as (x & -> & Ha), Hb as (y & Ek & Hb).
    destruct (H6 x ltac:(by eapply list_elem_of_lookup_2)) as (_ & _ & _ & (rx & Hrx & Ex & Sx)).
    destruct (H6 y ltac:(by eapply list_elem_of_lookup_2)) as (_ & _ & _ & (ry & Hry & Ey & Sy)).
    destruct (reachable_confirm_inv _ H1) as (_ & _ & Hone & _). pose proof (Hone _ _ _ _ Hrx Hry ltac:(congruence) Sx Sy) as Er.
    apply (proj1 (NoDup_alt _) H7 a b (purge_run x)); rewrite list_lookup_fmap; [by rewrite Ha|by rewrite Hb, Er].
Qed.

(** ** Saving an edit *)

Definition edits (today : string) (es : list edit_event) (s : edit_page) : edit_page := foldl (λ s e, edit_handle today e s) s es.

Lemma edits_patched today patches s :
  let s' := edits today (map PatchEdit patches) s in
  editForm s' = foldl (λ f p, p f) (editForm s) patches ∧ editingId s' = editingId s ∧ showEditModal s' = showEditModal s ∧
  updates s' = updates s ∧ edit_pending s' = edit_pending s.
Proof. revert s. induction patches as [|p patches IH]; intros s; [done|]. exact (IH (patchEdit p s)). Qed.

(** A save sends the fields of the opened community with the edits made, to that community;
    a failed one leaves the dialog open with them, and a second click sends them again. *)
Theorem edit_saves_form today zev patches message s :
  zev_id zev ≠ "" →
  let form := foldl (λ f p, p f) (mapZevToForm zev) patches in
  let s1 := edits today (StartEdit zev :: map PatchEdit patches ++ [SubmitEdit]) s in
  let s2 := edits today [UpdateFailed message] s1 in
  updates s1 = (updates s ++ [(zev_id zev, form)])%list ∧ edit_pending s1 = Some (zev_id zev, form) ∧
  showEditModal s2 = true ∧ editError s2 = Some message ∧ editForm s2 = form ∧ edit_offered SubmitEdit s2 = true ∧
  updates (edits today [SubmitEdit] s2) = (updates s1 ++ [(zev_id zev, form)])%list.
Proof.
  intros Hid form s1 s2. set (s0 := startEdit zev s). set (sp := edits today (map PatchEdit patches) s0).
  assert (s1 = submitEdit sp) as E1 by (unfold s1, edits, sp, s0; cbn [foldl edit_handle]; by rewrite foldl_app).
  destruct (edits_patched today patches s0) as (Ef & Ei & Es & Eu & Ep). fold sp in Ef, Ei, Es, Eu, Ep.
  unfold s2, edits. cbn [foldl edit_handle]. rewrite E1. unfold submitEdit. rewrite Ei. cbn [editingId s0 startEdit].
  unfold nonempty. rewrite (proj2 (String.eqb_neq _ _) Hid). cbn. unfold nonempty. rewrite (proj2 (String.eqb_neq _ _) Hid). cbn.
  rewrite Ef, Es, Eu. by split_and!.
Qed.

Definition sample_community (id name : string) : Zev :=
  {| zev_id := id; zev_updated_at := ""; zev_name := name; zev_start_date := "2026-01-01"; zev_issuer := None; zev_zev_type := "zev";
     zev_postal_code := None; zev_grid_operator := ""; zev_grid_operator_elcom_id := None; zev_tariff_source_url := None;
     zev_grid_connection_point := None; zev_billing_interval := "monthly"; zev_invoice_prefix := None; zev_credit_note_prefix := None;
     zev_invoice_language := None; zev_payment_term_days := None; zev_bank_iban := None; zev_bank_name := None; zev_vat_mode := None;
     zev_vat_number := None; zev_invoice_rounding := None; zev_itemize_tariff_bands := None; zev_participant_invoice_access := None;
     zev_notes := None; zev_email_subject_template := None; zev_email_body_template := None; zev_local_tariff_notes := None;
     zev_additional_contract_notes := None; zev_disabled_at := Some "2026-02-01"; zev_disabled_by := None; zev_disabled_reason := None |}.

Definition with_name (v : string) (z : ZevInput) : ZevInput :=
  {| name := v; start_date := start_date z; zev_type := zev_type z; postal_code := postal_code z; grid_operator := grid_operator z;
     grid_operator_elcom_id := grid_operator_elcom_id z; tariff_source_url := tariff_source_url z;
     grid_connection_point := grid_connection_point z; billing_interval := billing_interval z; invoice_prefix := invoice_prefix z;
     credit_note_prefix := credit_note_prefix z; invoice_language := invoice_language z; payment_term_days := payment_term_days z;
     bank_iban := bank_iban z; bank_name := bank_name z; vat_mode := vat_mode z; vat_number := vat_number z;
     invoice_rounding := invoice_rounding z; itemize_tariff_bands := itemize_tariff_bands z;
     participant_invoice_access := participant_invoice_access z; notes := notes z; email_subject_template := email_subject_template z;
     email_body_template := email_body_template z; local_tariff_notes := local_tariff_notes z;
     additional_contract_notes := additional_contract_notes z |}.

Definition no_edit : edit_page := closed_edit "2026-01-01" None [].

Lemma edit_saves_form_witness :
  let zev := sample_community "z1" "Muster" in
  zev_id zev ≠ "" ∧
  updates (edits "2026-01-01" [StartEdit zev; SubmitEdit] no_edit) = [("z1", mapZevToForm zev)].
Proof.
  intros zev. assert (zev_id zev ≠ "") as Hid by done. split; [done|].
  exact (proj1 (edit_saves_form "2026-01-01" zev [] "" no_edit Hid)).
Defined.

(** A save that ends after its dialog was cancelled and another community's opened closes
    that one, and what was typed there is lost. *)
Lemma late_update_closes_other_edit :
  let s := edits "2026-01-01" [StartEdit (sample_community "z1" "One"); SubmitEdit; CloseEdit; StartEdit (sample_community "z2" "Two");
                               PatchEdit (with_name "Edited")] no_edit in
  showEditModal s = true ∧ name (editForm s) = "Edited" ∧ edit_offered UpdateSucceeded s = true ∧
  showEditModal (edit_handle "2026-01-01" UpdateSucceeded s) = false ∧
  name (editForm (edit_handle "2026-01-01" UpdateSucceeded s)) = "".
Proof. cbn zeta. split_and!; by vm_compute. Qed.

(** The name is typed with a space after it; a first click, before it was complete, is refused. *)
Lemma purge_confirmed_witness :
  let d k b n := Some {| oid := n; opening := k; isLoading := b; confirmDisabled := false |} in
  let zev := sample_community "z1" "Muster" in
  let s := handlePurgeConfirm (d 0 false 0) (type_confirmation "Muster " (handlePurgeConfirm (d 0 false 0)
             (type_confirmation "Mus" (openPurgeDialog zev no_purge)))) in
  let p := {| purge_run := 1; purge_opening := 0; purge_zev := zev; confirmation := "Muster " |} in
  purge_reachable s ∧ p ∈ purges s ∧ In ActPurge (row_actions zev) ∧ (0, "Muster ")%nat ∈ typed s ∧ purges s = [p].
Proof.
  intros d zev s p.
  assert (purge_reachable s) as Hr.
  { unfold s.
    eapply purge_next; [|apply purge_confirms, (bool_decide_unpack _); by vm_compute].
    eapply purge_next; [|apply purge_types; by eexists].
    eapply purge_next; [|apply purge_confirms, (bool_decide_unpack _); by vm_compute].
    eapply purge_next; [|apply purge_types; by eexists].
    eapply purge_next; [apply purge_init|apply purge_opens]. by right; right; right; left. }
  assert (purges s = [p]) as E by (by vm_compute).
  assert (p ∈ purges s) as Hp by (rewrite E; by left).
  destruct (purge_confirmed s p Hr Hp) as (_ & Ha & _ & Ht & _).
  split; [done|]. split; [done|]. split; [done|]. split; [apply Ht; by vm_compute|done].
Defined.

(** The dialog is open exactly while it edits a community; at most one save, the last sent,
    is waited for; nothing is ever sent but the form of the open community. *)
Theorem edit_dialog_sound today s e :
  edit_reachable today s → edit_offered e s = true →
  (showEditModal s = true ↔ is_Some (editingId s)) ∧ (∀ p, edit_pending s = Some p → last (updates s) = Some p) ∧
  (updates (edit_handle today e s) = updates s ∨
   e = SubmitEdit ∧ edit_pending s = None ∧
   ∃ id, editingId s = Some id ∧ updates (edit_handle today e s) = (updates s ++ [(id, editForm s)])%list).
Proof.
  intros Hr Ho. assert ((showEditModal s = true ↔ is_Some (editingId s)) ∧ (∀ p, edit_pending s = Some p → last (updates s) = Some p)) as [H1 H2].
  { clear e Ho. induction Hr as [|s e _ [IH1 IH2] Ho].
    - split; [|done]. cbn. split; [done|]. by intros [? ?].
    - destruct e; cbn [edit_handle edit_offered] in *; bool_facts; try (split; assumption).
      + unfold startEdit. cbn. split; [|done]. split; [by eexists|done].
      + unfold closeEditModal, closed_edit. cbn. split; [|done]. split; [done|by intros [? ?]].
      + unfold submitEdit. destruct (editingId s) as [id|] eqn:Ei; [|by rewrite Ei]. destruct (negb (nonempty id)); [by rewrite Ei|]. cbn.
        split; [done|]. intros p [= <-]. by rewrite last_snoc.
      + unfold update_succeeded, closed_edit. cbn. split; [|done]. split; [done|by intros [? ?]].
      + split; [assumption|done]. }
  split; [done|]. split; [done|]. destruct e; cbn [edit_handle]; try by left. unfold submitEdit. destruct (editingId s) as [id|]; [|by left].
  destruct (negb (nonempty id)); [by left|right]. cbn [edit_offered] in Ho. bool_facts. apply bool_decide_eq_true in H0. split_and!; try done.
  by exists id.
Qed.

Lemma edit_dialog_sound_witness :
  let s := edit_handle "2026-01-01" (StartEdit (sample_community "z1" "One")) no_edit in
  edit_reachable "2026-01-01" s ∧ edit_offered SubmitEdit s = true ∧ (showEditModal s = true ↔ is_Some (editingId s)).
Proof.
  intros s. assert (edit_reachable "2026-01-01" s) as Hr by (unfold s; apply edit_step; [apply edit_init|done]).
  assert (edit_offered SubmitEdit s = true) as Ho by (by vm_compute).
  split; [done|]. split; [done|]. exact (proj1 (edit_dialog_sound "2026-01-01" s SubmitEdit Hr Ho)).
Defined.
