(* ===== verification/MeteringPage.v ===== *)
(** The metering page: frontend/src/pages/MeteringChartPage.tsx. Which meter the address, the
    scope and the list of meters select, what is asked of the server for it, what the chart
    tab shows, the filter of the quality tab and its dialog of gaps.

    [page] holds the address, the tab, the state and the queries the page reads; [handle] is
    one event and [effects] the effects of the render after it, which run until nothing
    changes. A click reaches the page as it is rendered. The period is that of BillingParams;
    the chart's drawing is not modelled. *)

From S2P Require Import Prelude JsString JsNumber JsDate Dates LiveEnergy MeteringPoints QueryKeys UrlParams.
Local Open Scope string_scope.

(** ** Data *)

#[export] Instance DataQualitySeverity_eq_dec : EqDecision DataQualitySeverity.
Proof. solve_decision. Defined.

Record ChartDataPoint := { bucket_of : string; chart_in_kwh : num; chart_out_kwh : num }.

(** ** Pure parts *)

Definition MAX_HOURLY_RESOLUTION_DAYS : Z := 31.

Definition SEVERITY_RANK (s : DataQualitySeverity) : Z := match s with Red => 0 | Yellow => 1 | Green => 2 end.

Definition severity_text (s : DataQualitySeverity) : string := match s with Green => "green" | Yellow => "yellow" | Red => "red" end.
Definition severity_of (s : string) : option DataQualitySeverity :=
  find_first (λ x, String.eqb (severity_text x) s) [Green; Yellow; Red].

(** [None] is 'all'. *)
Definition readSeverityFilter (searchParams : Params) : option DataQualitySeverity :=
  params_get "quality_severity" searchParams ≫= severity_of.

Definition filterAndRankQualityRows (points : list MeteringPointDataQuality) (severityFilter : option DataQualitySeverity)
    : list (MeteringPointDataQuality * Z) :=
  let filtered := match severityFilter with
                  | None => points
                  | Some f => bfilter (λ mp, bool_decide (severity mp = f)) points
                  end in
  map (λ mp, (mp, SEVERITY_RANK (severity mp))) filtered.

Definition severity_count (f : DataQualitySeverity) (points : list MeteringPointDataQuality) : nat :=
  length (bfilter (λ mp, bool_decide (severity mp = f)) points).

(** An invalid instant makes the formatter throw. *)
Definition meteringPointDataRange `{Zone} (mp : option MeteringPoint) : option (option (string * string)) :=
  match mp with
  | None => Some None
  | Some mp =>
      if negb (truthy_str (first_reading_at mp)) || negb (truthy_str (last_reading_at mp)) then Some None
      else from ← date_parse (default "" (first_reading_at mp));
           to ← date_parse (default "" (last_reading_at mp));
           Some (Some (formatBusinessIsoDate from, formatBusinessIsoDate to))
  end.

Definition peakChartPoint (data : list ChartDataPoint) (field : ChartDataPoint → num) : option ChartDataPoint :=
  match data with
  | [] => None
  | first :: _ => Some (foldl (λ peak point, if num_gt (field point) (field peak) then point else peak) first data)
  end.

Definition ALL_METERING_POINTS_VALUE : string := "__zev_total__".

Record meter_selection := { selectedMpId : string; isResolving : bool; valid : bool }.

Definition resolveMeterSelection (requestedMpId : string) (meterListResolved : bool) (meteringPointIds : list string)
    (isManagedScope : bool) (selectedZevId : string) : meter_selection :=
  let isSentinel := String.eqb requestedMpId ALL_METERING_POINTS_VALUE in
  let valid := if isSentinel then isManagedScope && nonempty selectedZevId
               else negb (nonempty requestedMpId) || (meterListResolved && bool_decide (requestedMpId ∈ meteringPointIds)) in
  {| valid := valid; selectedMpId := if valid then requestedMpId else "";
     isResolving := nonempty requestedMpId && negb isSentinel && negb meterListResolved |}.

(** The selection and whether it is still resolving. *)
Definition defaultMeterSelection (isManagedScope : bool) (selectedZevId : string) (meterListResolved : bool)
    (meteringPointIds : list string) : string * bool :=
  if isManagedScope then (if nonempty selectedZevId then ALL_METERING_POINTS_VALUE else "", false)
  else if negb meterListResolved then ("", true)
  else (match meteringPointIds with [id] => id | _ => "" end, false).

(** ** The page *)

Inductive metering_tab := ChartTab | QualityTab | ImportsTab.
#[export] Instance metering_tab_eq_dec : EqDecision metering_tab.
Proof. solve_decision. Defined.
#[export] Instance chart_bucket_eq_dec : EqDecision chart_bucket.
Proof. solve_decision. Defined.

Definition tab_text (t : metering_tab) : string := match t with ChartTab => "chart" | QualityTab => "quality" | ImportsTab => "imports" end.

(** What the page reads of its community and period; [zevKnown] is [!!selectedZev]. *)
Record community_scope := {
  isManagedScope : bool; selectedZevId : string; zevKnown : bool; scopeLoading : bool; scopeError : bool; periodReady : bool;
  period_from : string; period_to : string;
}.

(** The query of the meters: without data it is pending or failed. *)
Inductive meter_list := ListPending | ListFailed | ListKnown (l : list MeteringPoint) (isFetching isError : bool).

Record page := {
  url : Params; tab : metering_tab; bucket : chart_bucket; gapsSelection : option (string * string); scope : community_scope;
  meters : meter_list; quality : option (list MeteringPointDataQuality);
}.

Definition set_url (t : metering_tab) (ps : Params) (s : page) : page :=
  {| url := ps; tab := t; bucket := bucket s; gapsSelection := gapsSelection s; scope := scope s; meters := meters s; quality := quality s |}.
Definition setBucket (b : chart_bucket) (s : page) : page :=
  {| url := url s; tab := tab s; bucket := b; gapsSelection := gapsSelection s; scope := scope s; meters := meters s; quality := quality s |}.
Definition setGapsSelection (g : option (string * string)) (s : page) : page :=
  {| url := url s; tab := tab s; bucket := bucket s; gapsSelection := g; scope := scope s; meters := meters s; quality := quality s |}.
Definition set_queries (m : meter_list) (q : option (list MeteringPointDataQuality)) (s : page) : page :=
  {| url := url s; tab := tab s; bucket := bucket s; gapsSelection := gapsSelection s; scope := scope s; meters := m; quality := q |}.
Definition set_scope (sc : community_scope) (s : page) : page :=
  {| url := url s; tab := tab s; bucket := bucket s; gapsSelection := gapsSelection s; scope := sc; meters := meters s; quality := quality s |}.

(** ** A render *)

Section Render.
Context (s : page).
Let sc := scope s.

Definition hourlyResolutionAvailable : bool := (daysInPeriod (period_from sc) (period_to sc) <=? MAX_HOURLY_RESOLUTION_DAYS)%Z.

Definition effectiveBucket : chart_bucket :=
  if bool_decide (bucket s = BucketHour) && negb hourlyResolutionAvailable then BucketDay else bucket s.

Definition list_data : option (list MeteringPoint) := match meters s with ListKnown l _ _ => Some l | _ => None end.
Definition list_isError : bool := match meters s with ListFailed => true | ListKnown _ _ e => e | ListPending => false end.
Definition meterListPending : bool := match meters s with ListPending => true | ListKnown _ f _ => f | ListFailed => false end.

Definition meteringPoints : list MeteringPoint :=
  bfilter (λ mp, negb (isManagedScope sc) || negb (nonempty (selectedZevId sc)) || String.eqb (mp_zev mp) (selectedZevId sc))
    (default [] list_data).

Definition requestedMpId : string := default "" (params_get "metering_point" (url s)).
Definition isSentinelRequested : bool := String.eqb requestedMpId ALL_METERING_POINTS_VALUE.
Definition meterListResolved : bool := bool_decide (is_Some list_data).
Definition meteringPointIds : list string := map mp_id meteringPoints.

Definition selection : meter_selection :=
  resolveMeterSelection requestedMpId meterListResolved meteringPointIds (isManagedScope sc) (selectedZevId sc).
Definition defaultSelection : string * bool :=
  defaultMeterSelection (isManagedScope sc) (selectedZevId sc) meterListResolved meteringPointIds.

Definition chartMpId : string := if nonempty requestedMpId then selectedMpId selection else fst defaultSelection.
Definition isResolvingMpSelection : bool :=
  (isResolving selection && meterListPending) || (negb (nonempty requestedMpId) && snd defaultSelection && negb list_isError).
Definition hasNoMeters : bool := meterListResolved && bool_decide (meteringPoints = []).
Definition isZevTotal : bool := String.eqb chartMpId ALL_METERING_POINTS_VALUE.
Definition awaitingMeterList : bool := nonempty chartMpId && negb meterListResolved && negb list_isError.
Definition showChart : bool := nonempty chartMpId && negb hasNoMeters && negb awaitingMeterList.

(** [fetchChartData] of a whole community or of a meter. *)
Inductive chart_fetch := FetchTotal (zevId dateFrom dateTo : string) (b : chart_bucket) | FetchMeter (id dateFrom dateTo : string) (b : chart_bucket).

Definition chartQuery : option (query * chart_fetch) :=
  if periodReady sc && bool_decide (tab s = ChartTab) && negb hasNoMeters
     && (if isZevTotal then nonempty (selectedZevId sc) else nonempty chartMpId)
  then Some (QMetering (MeterChartData (if isZevTotal then "zev:" ++ selectedZevId sc else chartMpId) (period_from sc) (period_to sc) effectiveBucket),
             if isZevTotal then FetchTotal (selectedZevId sc) (period_from sc) (period_to sc) effectiveBucket
             else FetchMeter chartMpId (period_from sc) (period_to sc) effectiveBucket)
  else None.

Definition text_or_undefined (v : string) : option string := if nonempty v then Some v else None.

Definition qualityMeteringPointFilter : option string :=
  if String.eqb (selectedMpId selection) ALL_METERING_POINTS_VALUE then None else text_or_undefined (selectedMpId selection).

Definition qualityQuery : option query :=
  if periodReady sc && (negb (nonempty requestedMpId) || isSentinelRequested || meterListResolved) && bool_decide (tab s = QualityTab)
     && (negb (isManagedScope sc) || nonempty (selectedZevId sc))
  then Some (QMetering (MeterQualityStatus (period_from sc) (period_to sc)
               (if isManagedScope sc then text_or_undefined (selectedZevId sc) else None) qualityMeteringPointFilter))
  else None.

(** What stands where the chart will be, and whether the chart (or its loading, or its error) does. *)
Inductive placeholder := ShowSkeleton | ShowNoMeters | ShowNoSelection.
Definition chart_placeholder : option placeholder :=
  if isResolvingMpSelection || awaitingMeterList then Some ShowSkeleton
  else if hasNoMeters then Some ShowNoMeters
  else if negb (nonempty chartMpId) && negb (nonempty requestedMpId) && meterListResolved then Some ShowNoSelection
  else None.

Definition severityFilter : option DataQualitySeverity := readSeverityFilter (url s).

Definition gapsContext : string :=
  tab_text (tab s) ++ ":" ++ selectedZevId sc ++ ":" ++ period_from sc ++ ":" ++ period_to sc ++ ":" ++ requestedMpId ++ ":"
  ++ match severityFilter with Some f => severity_text f | None => "all" end.

Definition gapsPoint : option MeteringPointDataQuality :=
  match gapsSelection s with
  | Some (id, context) =>
      if String.eqb context gapsContext
      then find_first (λ mp, String.eqb (dq_id mp) id && negb (bool_decide (length (dq_gaps mp) = 0%nat))) (default [] (quality s))
      else None
  | None => None
  end.

Definition qualityRows : list (MeteringPointDataQuality * Z) := filterAndRankQualityRows (default [] (quality s)) severityFilter.

End Render.

(** ** Effects *)

Definition bucket_effect (s : page) : page :=
  if bool_decide (bucket s = BucketHour) && negb (hourlyResolutionAvailable s) then setBucket BucketDay s else s.

Definition gaps_effect (s : page) : page := match gapsPoint s with None => setGapsSelection None s | Some _ => s end.

Definition handleMpChange (id : string) (s : page) : page :=
  set_url (tab s) (if nonempty id then params_set "metering_point" id (url s) else params_delete "metering_point" (url s)) s.

Definition scopeResolved (s : page) : bool :=
  negb (isManagedScope (scope s)) || (negb (scopeLoading (scope s)) && (negb (scopeError (scope s)) || zevKnown (scope s))).
Definition resolvable (s : page) : bool := if isSentinelRequested s then scopeResolved s else meterListResolved s.

Definition cleanup_effect (s : page) : page :=
  if nonempty (requestedMpId s) && negb (valid (selection s)) && resolvable s then handleMpChange "" s else s.

(** The effects of a render touch different parts of the state; a change of the address is a
    render more. *)
Definition effects (s : page) : page := cleanup_effect (gaps_effect (bucket_effect s)).
Definition settled (s : page) : page := effects (effects s).

(** ** Events *)

Inductive metering_event :=
  | ScopeChanges (sc : community_scope) | QueriesChange (m : meter_list) (q : option (list MeteringPointDataQuality))
  | Navigates (t : metering_tab) (ps : Params)
  | ChangeMeter (id : string) | ChangeBucket (b : chart_bucket) | ToggleSeverity (f : DataQualitySeverity)
  | ShowGaps (id : string) | CloseGaps | ChangeTab (t : metering_tab) | JumpToChart (id : string) | GoToImports.

Definition handleSeverityFilterChange (next : option DataQualitySeverity) (s : page) : page :=
  set_url (tab s) (match next with
                   | None => params_delete "quality_severity" (url s)
                   | Some f => params_set "quality_severity" (severity_text f) (url s)
                   end) s.

Definition toggleSeverity (f : DataQualitySeverity) (s : page) : page :=
  handleSeverityFilterChange (if bool_decide (severityFilter s = Some f) then None else Some f) s.

(** The button of a row is there while the row is shown and has gaps. *)
Definition gaps_button (id : string) (s : page) : bool :=
  bool_decide (tab s = QualityTab) && existsb (λ r, String.eqb (dq_id r.1) id && negb (bool_decide (length (dq_gaps r.1) = 0%nat))) (qualityRows s).

Definition handle (e : metering_event) (s : page) : page :=
  match e with
  | ScopeChanges sc => set_scope sc s
  | QueriesChange m q => set_queries m q s
  | Navigates t ps => set_url t ps s
  | ChangeMeter id => handleMpChange id s
  | ChangeBucket b => setBucket b s
  | ToggleSeverity f => toggleSeverity f s
  | ShowGaps id => if gaps_button id s then setGapsSelection (Some (id, gapsContext s)) s else s
  | CloseGaps => setGapsSelection None s
  | ChangeTab t => set_url t (params_delete "tab" (url s)) s
  | JumpToChart id => set_url ChartTab (params_delete "tab" (params_set "metering_point" id (url s))) s
  | GoToImports => let s := setGapsSelection None s in set_url ImportsTab (params_delete "tab" (url s)) s
  end.

Definition metering_step (e : metering_event) (s : page) : page := settled (handle e s).
Definition metering_run (es : list metering_event) (s : page) : page := foldl (λ s e, metering_step e s) s es.

(** ** Selection *)

Lemma listed_ids s id :
  id ∈ meteringPointIds s ↔
  ∃ mp, mp ∈ default [] (list_data s) ∧ mp_id mp = id ∧
        (isManagedScope (scope s) = true → selectedZevId (scope s) ≠ "" → mp_zev mp = selectedZevId (scope s)).
Proof.
  unfold meteringPointIds, meteringPoints. rewrite list_elem_of_fmap. split.
  - intros (mp & -> & [Hin Hp]%elem_of_bfilter). exists mp. split; [done|]. split; [done|]. intros Hm Hz. rewrite Hm in Hp.
    apply nonempty_true in Hz. rewrite Hz in Hp. by apply String.eqb_eq in Hp.
  - intros (mp & Hin & <- & Hz). exists mp. split; [done|]. apply elem_of_bfilter. split; [done|].
    destruct (isManagedScope (scope s)); [|done]. destruct (nonempty _) eqn:E; [|done]. apply String.eqb_eq, Hz; [done|]. by apply nonempty_true.
Qed.

(** What the chart is of: nothing, the community in management, or a listed meter. *)
Lemma chartMpId_cases s :
  chartMpId s = "" ∨
  chartMpId s = ALL_METERING_POINTS_VALUE ∧ isManagedScope (scope s) = true ∧ nonempty (selectedZevId (scope s)) = true ∨
  chartMpId s ∈ meteringPointIds s ∧ meterListResolved s = true.
Proof.
  unfold chartMpId, selection, defaultSelection, resolveMeterSelection, defaultMeterSelection. cbn [selectedMpId].
  destruct (nonempty (requestedMpId s)) eqn:Er.
  - destruct (String.eqb_spec (requestedMpId s) ALL_METERING_POINTS_VALUE) as [E|_].
    + destruct (isManagedScope (scope s) && _) eqn:Em; [|by left]. bool_facts. right; left. by rewrite E.
    + cbn [negb orb]. destruct (meterListResolved s && _) eqn:Ev; [|by left]. bool_facts. apply bool_decide_eq_true in H0. right; right. done.
  - destruct (isManagedScope (scope s)) eqn:Em; cbn [fst].
    + destruct (nonempty (selectedZevId (scope s))) eqn:Ez; [|by left]. right; left. done.
    + destruct (meterListResolved s) eqn:El; cbn [negb fst]; [|by left].
      destruct (meteringPointIds s) as [|id [|]] eqn:Ei; [by left| |by left]. right; right. split; [|done]. by left.
Qed.

(** C40. The chart asks for the total of the selected community, only in its management, or for
    one meter of the list, of that community; with the page's period, by the hour only up
    to 31 days; and two requests under one key of the cache are the same request. Ids are the
    server's: none is the value that stands for all points, and none begins with "zev:". *)
Theorem chart_request_sound s q f :
  ALL_METERING_POINTS_VALUE ∉ meteringPointIds s → chartQuery s = Some (q, f) →
  tab s = ChartTab ∧ periodReady (scope s) = true ∧
  (effectiveBucket s = BucketHour → (daysInPeriod (period_from (scope s)) (period_to (scope s)) <= 31)%Z) ∧
  match f with
  | FetchTotal z a b k =>
      isManagedScope (scope s) = true ∧ z = selectedZevId (scope s) ∧ z ≠ "" ∧ (a, b, k) = (period_from (scope s), period_to (scope s), effectiveBucket s)
  | FetchMeter id a b k =>
      id ≠ "" ∧ (a, b, k) = (period_from (scope s), period_to (scope s), effectiveBucket s) ∧
      ∃ mp, mp ∈ default [] (list_data s) ∧ mp_id mp = id ∧
            (isManagedScope (scope s) = true → selectedZevId (scope s) ≠ "" → mp_zev mp = selectedZevId (scope s))
  end ∧
  (∀ s2 q2 f2, (∀ id, id ∈ (meteringPointIds s ++ meteringPointIds s2)%list → starts_with "zev:" id = false) →
     ALL_METERING_POINTS_VALUE ∉ meteringPointIds s2 → chartQuery s2 = Some (q2, f2) → key_of q = key_of q2 → f = f2).
Proof.
  intros Hall E. assert (∀ s q f, ALL_METERING_POINTS_VALUE ∉ meteringPointIds s → chartQuery s = Some (q, f) →
    let sc := scope s in
    tab s = ChartTab ∧ periodReady sc = true ∧
    (f = FetchTotal (selectedZevId sc) (period_from sc) (period_to sc) (effectiveBucket s) ∧ isManagedScope sc = true ∧ selectedZevId sc ≠ "" ∧
     q = QMetering (MeterChartData ("zev:" ++ selectedZevId sc) (period_from sc) (period_to sc) (effectiveBucket s)) ∨
     f = FetchMeter (chartMpId s) (period_from sc) (period_to sc) (effectiveBucket s) ∧ chartMpId s ∈ meteringPointIds s ∧ chartMpId s ≠ "" ∧
     q = QMetering (MeterChartData (chartMpId s) (period_from sc) (period_to sc) (effectiveBucket s)))) as Hcase.
  { clear. intros s q f Hall E. unfold chartQuery in E. destruct (_ && _) eqn:Eg; [|done]. injection E as <- <-. bool_facts.
    apply bool_decide_eq_true in H2. split; [done|]. split; [done|]. unfold isZevTotal in *.
    destruct (String.eqb_spec (chartMpId s) ALL_METERING_POINTS_VALUE) as [Et|Et].
    - left. destruct (chartMpId_cases s) as [Hc|[(_ & Hm & Hz)|[Hc _]]]; [by rewrite Hc in Et| |by rewrite Et in Hc].
      apply nonempty_true in Hz. done.
    - right. destruct (chartMpId_cases s) as [Hc|[(Hc & _)|[Hc _]]]; [by rewrite Hc in H0|done|]. apply nonempty_true in H0. done. }
  destruct (Hcase s q f Hall E) as (Ht & Hr & Hf). split; [done|]. split; [done|]. split.
  { unfold effectiveBucket, hourlyResolutionAvailable. intros Eb. destruct (bool_decide (bucket s = BucketHour)) eqn:Ed; cbn [andb] in Eb;
      [|by apply bool_decide_eq_false_1 in Ed]. destruct (_ <=? _)%Z eqn:El; [|done]. by apply Z.leb_le in El. }
  split.
  { destruct Hf as [(-> & Hm & Hz & _)|(-> & Hin & Hn & _)]; [done|]. split; [done|]. split; [done|]. by apply listed_ids. }
  intros s2 q2 f2 Hpre Hall2 E2 Ek. destruct (Hcase s2 q2 f2 Hall2 E2) as (_ & _ & Hf2).
  assert (∀ x y, starts_with "zev:" y = false → "zev:" ++ x ≠ y) as Hzev by (intros x y Hy <-; cbn in Hy; by destruct x).
  destruct Hf as [(-> & _ & _ & ->)|(-> & Hin & _ & ->)], Hf2 as [(-> & _ & _ & ->)|(-> & Hin2 & _ & ->)];
    cbn [key_of metering_key strs map] in Ek.
  - injection Ek as Ez -> -> Eb. rewrite Ez. f_equal. by destruct (effectiveBucket s), (effectiveBucket s2).
  - injection Ek as Ez _ _ _. destruct (Hzev (selectedZevId (scope s)) (chartMpId s2)); [|done]. apply Hpre, elem_of_app. by right.
  - injection Ek as Ez _ _ _. destruct (Hzev (selectedZevId (scope s2)) (chartMpId s)); [|done]. apply Hpre, elem_of_app. by left.
  - injection Ek as -> -> -> Eb. f_equal. by destruct (effectiveBucket s), (effectiveBucket s2).
Qed.

(** The quality tab asks for one listed meter or for all, never for the value that stands for
    the whole community, and in management only for a selected community. *)
Theorem quality_request_sound s a b z m :
  qualityQuery s = Some (QMetering (MeterQualityStatus a b z m)) →
  tab s = QualityTab ∧ (a, b) = (period_from (scope s), period_to (scope s)) ∧
  (if isManagedScope (scope s) then z = Some (selectedZevId (scope s)) ∧ selectedZevId (scope s) ≠ "" else z = None) ∧
  (m = None ∨ ∃ id, m = Some id ∧ id ≠ "" ∧ id ≠ ALL_METERING_POINTS_VALUE ∧ id ∈ meteringPointIds s).
Proof.
  unfold qualityQuery. destruct (_ && _) eqn:Eg; [|done]. intros [= <- <- <- <-]. bool_facts. apply bool_decide_eq_true in H1.
  split; [done|]. split; [done|]. split.
  - destruct (isManagedScope (scope s)); [|done]. cbn [negb orb] in H0. unfold text_or_undefined. rewrite H0. by apply nonempty_true in H0.
  - unfold qualityMeteringPointFilter, text_or_undefined. destruct (String.eqb_spec (selectedMpId (selection s)) ALL_METERING_POINTS_VALUE) as [|Hn]; [by left|].
    destruct (nonempty (selectedMpId (selection s))) eqn:En; [|by left]. right. eexists. split; [done|]. apply nonempty_true in En. split; [done|].
    split; [done|]. unfold selection, resolveMeterSelection in *. cbn [selectedMpId] in *.
    destruct (String.eqb_spec (requestedMpId s) ALL_METERING_POINTS_VALUE) as [E|_].
    + destruct (_ && _) in Hn, En |- *; congruence.
    + destruct (nonempty (requestedMpId s)) eqn:Er; cbn [negb orb] in *.
      * destruct (meterListResolved s && bool_decide (requestedMpId s ∈ meteringPointIds s)) eqn:Ev; [|done]. bool_facts. by apply bool_decide_eq_true in H4.
      * by apply (proj2 (not_true_iff_false _)) in Er; destruct (String.eqb_spec (requestedMpId s) "") as [E0|E0]; [rewrite E0 in En|destruct Er; apply nonempty_true].
Qed.

(** ** Effects *)

Definition drops (s : page) : bool := nonempty (requestedMpId s) && negb (valid (selection s)) && resolvable s.

Lemma bucket_effect_eq s : bucket_effect s = setBucket (effectiveBucket s) s.
Proof. unfold bucket_effect, effectiveBucket. destruct (_ && _); [done|by destruct s]. Qed.

Lemma gaps_effect_eq s : gaps_effect s = setGapsSelection (match gapsPoint s with None => None | Some _ => gapsSelection s end) s.
Proof. unfold gaps_effect. destruct (gapsPoint s); by destruct s. Qed.

Lemma effects_eq s :
  effects s =
  {| url := if drops s then params_delete "metering_point" (url s) else url s; tab := tab s; bucket := effectiveBucket s;
     gapsSelection := match gapsPoint s with None => None | Some _ => gapsSelection s end; scope := scope s; meters := meters s;
     quality := quality s |}.
Proof.
  unfold effects. rewrite bucket_effect_eq, gaps_effect_eq. unfold cleanup_effect.
  change (nonempty (requestedMpId ?x) && negb (valid (selection ?x)) && resolvable ?x) with (drops x).
  replace (drops (setGapsSelection _ _)) with (drops s) by done. by destruct (drops s).
Qed.

Lemma drops_url s s' :
  url s' = url s → scope s' = scope s → meters s' = meters s → drops s' = drops s.
Proof. destruct s, s'. cbn. by intros -> -> ->. Qed.

Lemma drops_after s s' : url s' = params_delete "metering_point" (url s) → drops s' = false.
Proof. intros E. unfold drops, requestedMpId. rewrite E, params_get_delete. done. Qed.

Lemma drops_effects s : drops (effects s) = false ∧ url (effects s) = (if drops s then params_delete "metering_point" (url s) else url s).
Proof.
  rewrite effects_eq. cbn [url]. split; [|done]. destruct (drops s) eqn:E; [by eapply drops_after|]. rewrite <- E. by apply drops_url.
Qed.

Lemma gapsPoint_same s s' :
  url s' = url s → tab s' = tab s → scope s' = scope s → quality s' = quality s → gapsSelection s' = gapsSelection s → gapsPoint s' = gapsPoint s.
Proof. destruct s, s'. cbn. by intros -> -> -> -> ->. Qed.

Lemma gapsPoint_none s : gapsSelection s = None → gapsPoint s = None.
Proof. unfold gapsPoint. by intros ->. Qed.

Lemma effectiveBucket_idem s s' : bucket s' = effectiveBucket s → scope s' = scope s → effectiveBucket s' = effectiveBucket s.
Proof.
  intros Eb Es. unfold effectiveBucket at 1. rewrite Eb. unfold effectiveBucket, hourlyResolutionAvailable. rewrite Es.
  destruct (bool_decide (bucket s = BucketHour)) eqn:Ed; cbn [andb]; [|by rewrite Ed].
  destruct (_ <=? _)%Z eqn:El; cbn [negb andb]; [by rewrite andb_false_r|done].
Qed.

(** After every event the page comes to rest: a third render changes nothing. The address
    loses a meter it cannot show, once that is known, and nothing else; the hour is given up
    for a longer period; and a dialog whose row is gone is closed. *)
Theorem metering_page_settles s :
  effects (settled s) = settled s ∧
  (∀ k, k ≠ "metering_point" → params_get k (url (settled s)) = params_get k (url s)) ∧
  url (settled s) = (if drops s then params_delete "metering_point" (url s) else url s) ∧
  bucket (settled s) = effectiveBucket s ∧
  (gapsSelection (settled s) ≠ None → is_Some (gapsPoint (settled s))) ∧
  (resolvable (settled s) = true → requestedMpId (settled s) = "" ∨ valid (selection (settled s)) = true).
Proof.
  set (s1 := effects s). set (s2 := settled s). assert (s2 = effects s1) as E2 by done.
  destruct (drops_effects s) as [D1 U1], (drops_effects s1) as [D2 U2]. fold s1 in D1, U1. rewrite D1 in U2. rewrite <- E2 in D2, U2.
  assert (bucket s1 = effectiveBucket s ∧ bucket s2 = effectiveBucket s1 ∧ scope s1 = scope s ∧ scope s2 = scope s1 ∧ tab s2 = tab s1 ∧
          quality s2 = quality s1 ∧ gapsSelection s2 = match gapsPoint s1 with None => None | Some _ => gapsSelection s1 end) as
    (B1 & B2 & C1 & C2 & T2 & Q2 & G2).
  { rewrite E2. unfold s1. by rewrite !effects_eq. }
  assert (effectiveBucket s1 = effectiveBucket s) as Eb by (by apply effectiveBucket_idem).
  assert (gapsSelection s2 = match gapsPoint s2 with None => None | Some _ => gapsSelection s2 end ∧
          (gapsSelection s2 ≠ None → is_Some (gapsPoint s2))) as [HG HG'].
  { destruct (gapsPoint s1) as [p|] eqn:Eg; [|by rewrite (gapsPoint_none s2)].
    rewrite (gapsPoint_same s1 s2), Eg by done. split; [done|]. by exists p. }
  split_and!.
  - rewrite effects_eq. rewrite D2, <- HG, (effectiveBucket_idem s1 s2), <- B2 by done. by destruct s2.
  - intros k Hk. rewrite U2, U1. destruct (drops s); [|done]. rewrite params_get_delete. by rewrite (proj2 (String.eqb_neq _ _) Hk).
  - by rewrite U2, U1.
  - by rewrite B2, Eb.
  - done.
  - intros Hr. unfold drops in D2. rewrite Hr, andb_true_r in D2. destruct (nonempty (requestedMpId s2)) eqn:En.
    + right. cbn [andb] in D2. by apply negb_false_iff in D2.
    + left. destruct (String.eqb_spec (requestedMpId s2) ""); [done|]. by rewrite (proj2 (nonempty_true _)) in En.
Qed.

(** The place of the chart is never filled twice, and it is left empty only where the list of
    meters failed to load, where no community is selected, or while a lookup of the scope
    that is needed to judge the address goes on. *)
Theorem chart_place_filled s :
  ALL_METERING_POINTS_VALUE ∉ meteringPointIds (settled s) →
  let p := settled s in
  (showChart p = true → chart_placeholder p = None ∧ (tab p = ChartTab → periodReady (scope p) = true → is_Some (chartQuery p))) ∧
  (showChart p = false → chart_placeholder p = None →
   meters p = ListFailed ∨ isManagedScope (scope p) = true ∧ selectedZevId (scope p) = "").
Proof.
  intros Hall p. destruct (metering_page_settles s) as (_ & _ & _ & _ & _ & Hres). fold p in Hall, Hres. split.
  - intros Hs. unfold showChart in Hs. bool_facts. apply nonempty_true in H. split.
    + unfold chart_placeholder. rewrite H0, H1, (proj2 (nonempty_true _) H), orb_false_r. cbn [negb andb].
      unfold isResolvingMpSelection. destruct (chartMpId_cases p) as [?|[(Hc & Hm & Hz)|[Hc Hl]]]; [done| |].
      * unfold chartMpId in Hc. unfold selection, defaultSelection, resolveMeterSelection, defaultMeterSelection in *. cbn [isResolving selectedMpId] in *.
        rewrite Hm in *. destruct (nonempty (requestedMpId p)); cbn [negb andb fst snd] in *; [|done].
        destruct (String.eqb_spec (requestedMpId p) ALL_METERING_POINTS_VALUE); cbn [negb andb]; [done|].
        cbn [negb orb] in Hc. by destruct (meterListResolved p); [|cbn in Hc].
      * unfold selection, defaultSelection, resolveMeterSelection, defaultMeterSelection. cbn [isResolving]. rewrite Hl. cbn [negb].
        rewrite andb_false_r. cbn [andb orb]. destruct (isManagedScope (scope p)); cbn [snd]; by rewrite andb_false_r.
    + intros Ht Hr. unfold chartQuery. rewrite Hr, Ht, H1. rewrite bool_decide_true by done. cbn [andb negb]. unfold isZevTotal.
      destruct (String.eqb_spec (chartMpId p) ALL_METERING_POINTS_VALUE) as [E|E].
      * destruct (chartMpId_cases p) as [?|[(_ & _ & ->)|[Hc _]]]; [done|by eexists|by rewrite E in Hc].
      * rewrite (proj2 (nonempty_true _) H). by eexists.
  - intros Hs Hp. unfold chart_placeholder in Hp. destruct (isResolvingMpSelection p || awaitingMeterList p) eqn:Ew; [done|].
    destruct (hasNoMeters p) eqn:Eh; [done|]. apply orb_false_elim in Ew as [Er Ea].
    assert (chartMpId p = "") as Ec.
    { unfold showChart in Hs. rewrite Eh, Ea in Hs. cbn [negb andb] in Hs. rewrite !andb_true_r in Hs.
      destruct (String.eqb_spec (chartMpId p) ""); [done|]. by rewrite (proj2 (nonempty_true _)) in Hs. }
    rewrite Ec in Hp. cbn [nonempty negb andb] in Hp. change (negb (nonempty "")) with true in Hp. cbn [andb] in Hp.
    unfold isResolvingMpSelection in Er. apply orb_false_elim in Er as [Er1 Er2]. unfold chartMpId in Ec.
    assert (meterListResolved p = false → meterListPending p = false ∨ list_isError p = true → meters p = ListFailed) as Hfail.
    { unfold meterListResolved, list_data, meterListPending, list_isError. destruct (meters p); [by intros _ []|done|done]. }
    destruct (nonempty (requestedMpId p)) eqn:En; cbn [negb andb] in *.
    + assert (valid (selection p) = false) as Hv.
      { unfold selection, resolveMeterSelection in *. cbn [selectedMpId valid] in *.
        destruct (if String.eqb _ _ then _ else _); [by rewrite Ec in En|done]. }
      assert (resolvable p = false) as Hr.
      { destruct (resolvable p); [|done]. destruct (Hres eq_refl) as [E|E]; [by rewrite E in En|congruence]. }
      unfold resolvable, isSentinelRequested in Hr. unfold selection, resolveMeterSelection in Hv, Er1. cbn [valid isResolving] in Hv, Er1. rewrite En in Er1.
      destruct (String.eqb (requestedMpId p) ALL_METERING_POINTS_VALUE); cbn [negb andb] in *.
      * right. unfold scopeResolved in Hr. apply orb_false_elim in Hr as [Hr _]. apply negb_false_iff in Hr. rewrite Hr in *. cbn [andb] in Hv.
        split; [done|]. by apply nonempty_false.
      * left. rewrite Hr in Er1. cbn in Er1. apply Hfail; [done|by left].
    + destruct (meterListResolved p) eqn:El; [done|]. unfold defaultSelection, defaultMeterSelection in *. rewrite El in *.
      destruct (isManagedScope (scope p)); cbn [negb fst snd andb] in *.
      * right. split; [done|]. destruct (nonempty (selectedZevId (scope p))) eqn:Ez; [done|]. by apply nonempty_false.
      * left. apply Hfail; [done|]. right. by apply negb_false_iff in Er2.
Qed.

(** ** The dialog of gaps *)

Lemma effects_gaps s : gapsSelection (effects s) = None ∨ gapsSelection (effects s) = gapsSelection s.
Proof. rewrite effects_eq. cbn [gapsSelection]. destruct (gapsPoint s); [by right|by left]. Qed.

Lemma settled_gaps s g : gapsSelection (settled s) = Some g → gapsSelection s = Some g.
Proof.
  unfold settled. intros E. destruct (effects_gaps (effects s)) as [E'|E']; [congruence|]. rewrite E' in E.
  destruct (effects_gaps s); congruence.
Qed.

Lemma handle_gaps e s id context :
  gapsSelection (handle e s) = Some (id, context) →
  e = ShowGaps id ∧ context = gapsContext s ∨ gapsSelection s = Some (id, context).
Proof.
  destruct e as [| | | | | |x| | | |]; cbn [handle]; try (by right).
  destruct (gaps_button x s); [|by right]. intros [= <- <-]. by left.
Qed.

(** The dialog of gaps shows a row of the answer that has gaps: one whose button was clicked
    just now, or the one it showed before, with the same tab, community, period, meter and
    filter. So once any of them changed or the row lost its gaps the dialog is closed, and a
    later answer does not open it again. *)
Theorem gaps_dialog_current s e p :
  effects s = s → gapsPoint (metering_step e s) = Some p →
  let s' := metering_step e s in
  p ∈ default [] (quality s') ∧ dq_gaps p ≠ [] ∧
  (e = ShowGaps (dq_id p) ∨
   gapsContext s' = gapsContext s ∧ ∃ p0, gapsPoint s = Some p0 ∧ dq_id p0 = dq_id p).
Proof.
  intros Hs Hp s'. fold s' in Hp. unfold gapsPoint in Hp. destruct (gapsSelection s') as [[id context]|] eqn:Eg; [|done].
  destruct (String.eqb_spec context (gapsContext s')) as [->|]; [|done]. apply find_first_Some in Hp as [Hin Hg]. bool_facts.
  apply String.eqb_eq in H as <-. apply bool_decide_eq_false_1 in H0. split; [done|]. split; [by intros Hn; rewrite Hn in H0|].
  apply settled_gaps, handle_gaps in Eg as [[-> _]|Eg]; [by left|right].
  assert (gapsPoint s ≠ None) as Hn.
  { intros En. rewrite effects_eq, En in Hs. rewrite <- Hs in Eg. done. }
  destruct (gapsPoint s) as [p0|] eqn:E0; [|done]. unfold gapsPoint in E0. rewrite Eg in E0.
  destruct (String.eqb_spec (gapsContext s') (gapsContext s)) as [E|]; [|done]. split; [done|]. exists p0. split; [done|].
  apply find_first_Some in E0 as [_ E0]. bool_facts. by apply String.eqb_eq.
Qed.

(** ** The filter of the quality tab *)

Lemma severity_roundtrip f : severity_of (severity_text f) = Some f.
Proof. by destruct f. Qed.

(** The rows shown are the points of the chosen severity in their order, with their rank; a
    choice is read back from the address, choosing the active one again clears it, the other
    parameters stay, and each point is counted under one severity. *)
Theorem severity_filter_exact s f :
  let points := default [] (quality s) in
  (qualityRows s).*1 = match severityFilter s with None => points | Some g => bfilter (λ mp, bool_decide (severity mp = g)) points end ∧
  (∀ r, r ∈ qualityRows s → r.2 = SEVERITY_RANK (severity r.1)) ∧
  severityFilter (toggleSeverity f s) = (if bool_decide (severityFilter s = Some f) then None else Some f) ∧
  (∀ k, k ≠ "quality_severity" → params_get k (url (toggleSeverity f s)) = params_get k (url s)) ∧
  (severity_count Green points + severity_count Yellow points + severity_count Red points = length points)%nat ∧
  (∀ g, severityFilter s = Some g → length (qualityRows s) = severity_count g points).
Proof.
  intros points. split_and!.
  - unfold qualityRows, filterAndRankQualityRows. change (@fmap list _ ?A ?B fst ?l) with (map fst l). rewrite map_map. cbn [fst]. by rewrite map_id.
  - unfold qualityRows, filterAndRankQualityRows. intros r (mp & -> & _)%list_elem_of_fmap. done.
  - unfold toggleSeverity, handleSeverityFilterChange, severityFilter at 1, readSeverityFilter. case_bool_decide; cbn [url set_url].
    + by rewrite params_get_delete.
    + rewrite params_get_set, String.eqb_refl. apply severity_roundtrip.
  - intros k Hk. apply String.eqb_neq in Hk. unfold toggleSeverity, handleSeverityFilterChange. case_bool_decide; cbn [url set_url].
    + by rewrite params_get_delete, Hk. + by rewrite params_get_set, Hk.
  - clearbody points. unfold severity_count, bfilter. induction points as [|mp points IH]; [done|]. cbn [List.filter].
    destruct (severity mp); repeat (case_bool_decide; try congruence); cbn [length] in *; lia.
  - intros g Eg. unfold qualityRows, filterAndRankQualityRows, severity_count. by rewrite Eg, length_map.
Qed.

(** ** The peak *)

Lemma peak_fold (field : ChartDataPoint → num) (l before : list ChartDataPoint) peak :
  (∀ q, q ∈ before ++ l → is_nan (field q) = false)%list →
  (∃ l1 l2, before = (l1 ++ peak :: l2)%list ∧ (∀ q, q ∈ l1 → num_lt (field q) (field peak) = true) ∧
            (∀ q, q ∈ l2 → num_gt (field q) (field peak) = false)) →
  let p := foldl (λ peak point, if num_gt (field point) (field peak) then point else peak) peak l in
  ∃ l1 l2, (before ++ l)%list = (l1 ++ p :: l2)%list ∧ (∀ q, q ∈ l1 → num_lt (field q) (field p) = true) ∧
           (∀ q, q ∈ l2 → num_gt (field q) (field p) = false).
Proof.
  revert before peak. induction l as [|x l IH]; intros before peak Hn (l1 & l2 & E & H1 & H2).
  { cbn. rewrite app_nil_r. by exists l1, l2. }
  cbn [foldl]. replace (before ++ x :: l)%list with ((before ++ [x]) ++ l)%list in Hn |- * by (by rewrite <- app_assoc).
  apply IH; [done|]. destruct (num_gt (field x) (field peak)) eqn:Eg.
  - exists before, []. split; [done|]. split; [|by intros q ?%elem_of_nil]. intros q Hq. rewrite E in Hq. unfold num_gt in Eg.
    apply elem_of_app in Hq as [Hq|Hq]; [apply (num_le_lt_trans _ (field peak)); [by apply num_lt_le, H1|done]|].
    apply elem_of_cons in Hq as [->|Hq]; [done|]. apply (num_le_lt_trans _ (field peak)); [|done].
    specialize (H2 q Hq). unfold num_gt in H2. assert (is_nan (field peak) = false ∧ is_nan (field q) = false) as [Np Nq].
    { split; apply Hn; rewrite E, !elem_of_app, elem_of_cons; tauto. }
    rewrite num_not_lt in H2 by done. by apply negb_false_iff in H2.
  - exists l1, (l2 ++ [x])%list. split; [by rewrite E, <- app_assoc|]. split; [done|].
    intros q [Hq| ->%list_elem_of_singleton]%elem_of_app; [by apply H2|done].
Qed.

(** The peak is the first of the points with the greatest value. *)
Theorem peak_first_greatest data (field : ChartDataPoint → num) :
  (∀ q, q ∈ data → is_nan (field q) = false) → data ≠ [] →
  ∃ p l1 l2, peakChartPoint data field = Some p ∧ data = (l1 ++ p :: l2)%list ∧
    (∀ q, q ∈ l1 → num_lt (field q) (field p) = true) ∧ (∀ q, q ∈ l2 → num_gt (field q) (field p) = false).
Proof.
  intros Hn Hd. destruct data as [|x data]; [done|]. unfold peakChartPoint. cbn [foldl].
  assert (num_gt (field x) (field x) = false) as -> by apply num_lt_irrefl.
  destruct (peak_fold field data [x] x Hn) as (l1 & l2 & E & H1 & H2).
  { exists [], []. split; [done|]. split; by intros q ?%elem_of_nil. }
  eexists _, l1, l2. by split_and!.
Qed.

(** ** Samples *)

Definition sample_meter (id zev : string) : MeteringPoint :=
  {| mp_id := id; mp_zev := zev; meter_id := "CH-" ++ id; secondary_meter_id := None; meter_type := MeterConsumption; is_active := true;
     location_description := None; building := ""; building_name := ""; has_behind_meter_generation := false; history_protected := None;
     reading_count := 1; assignment_count := 1; first_reading_at := None; last_reading_at := None; supplementary_source_status := None;
     point_live_state := None |}.

Definition sample_scope (managed : bool) : community_scope :=
  {| isManagedScope := managed; selectedZevId := "z1"; zevKnown := managed; scopeLoading := false; scopeError := false; periodReady := true;
     period_from := "2026-01-01"; period_to := "2026-01-31" |}.

Definition sample_quality (id : string) (f : DataQualitySeverity) : MeteringPointDataQuality :=
  {| dq_id := id; dq_meter_id := "CH-" ++ id; dq_participant_name := ""; severity := f; data_completeness := of_Z 90; days_with_data := 28;
     total_days := 31; dq_gaps := [{| gap_start_date := "2026-01-05"; gap_end_date := "2026-01-07"; duration_days := 3 |}];
     dq_unassigned_days := 0; dq_unassigned_readings := 0; assignment_overlap := false |}.

Definition sample_page (t : metering_tab) (ps : Params) (managed : bool) : page :=
  {| url := ps; tab := t; bucket := BucketDay; gapsSelection := None; scope := sample_scope managed;
     meters := ListKnown [sample_meter "m1" "z1"; sample_meter "m2" "z2"] false false; quality := Some [sample_quality "m1" Red] |}.

Lemma chart_request_sound_witness :
  let s := sample_page ChartTab [("metering_point", "m1")] true in
  ∃ q f, chartQuery s = Some (q, f) ∧ (ALL_METERING_POINTS_VALUE ∉ meteringPointIds s) ∧ f = FetchMeter "m1" "2026-01-01" "2026-01-31" BucketDay ∧
         tab s = ChartTab ∧ meteringPointIds s = ["m1"].
Proof.
  intros s. assert (ALL_METERING_POINTS_VALUE ∉ meteringPointIds s) as Ha by (apply (bool_decide_unpack _); by vm_compute).
  eexists _, _. assert (chartQuery s = Some (QMetering (MeterChartData "m1" "2026-01-01" "2026-01-31" BucketDay), FetchMeter "m1" "2026-01-01" "2026-01-31" BucketDay))
    as E by (by vm_compute).
  split; [exact E|]. split; [done|]. split; [done|]. split; [|by vm_compute]. exact (proj1 (chart_request_sound s _ _ Ha E)).
Defined.

Lemma quality_request_sound_witness :
  let s := sample_page QualityTab [("metering_point", ALL_METERING_POINTS_VALUE)] true in
  qualityQuery s = Some (QMetering (MeterQualityStatus "2026-01-01" "2026-01-31" (Some "z1") None)) ∧ tab s = QualityTab.
Proof.
  intros s. assert (qualityQuery s = Some (QMetering (MeterQualityStatus "2026-01-01" "2026-01-31" (Some "z1") None))) as E by (by vm_compute).
  split; [done|]. exact (proj1 (quality_request_sound s _ _ _ _ E)).
Defined.

(** A meter of another community in the address is dropped from it. *)
Lemma chart_place_filled_witness :
  let s := sample_page ChartTab [("metering_point", "m2"); ("period_start", "2026-01-01")] true in
  (ALL_METERING_POINTS_VALUE ∉ meteringPointIds (settled s)) ∧ url (settled s) = [("period_start", "2026-01-01")] ∧ showChart (settled s) = true ∧
  chart_placeholder (settled s) = None.
Proof.
  intros s. assert (ALL_METERING_POINTS_VALUE ∉ meteringPointIds (settled s)) as Ha by (apply (bool_decide_unpack _); by vm_compute).
  assert (showChart (settled s) = true) as Hs by (by vm_compute).
  split; [done|]. split; [by vm_compute|]. split; [done|]. exact (proj1 (proj1 (chart_place_filled s Ha) Hs)).
Defined.

Lemma gaps_dialog_current_witness :
  let s := settled (sample_page QualityTab [] true) in let p := sample_quality "m1" Red in
  effects s = s ∧ gapsPoint (metering_step (ShowGaps "m1") s) = Some p ∧ dq_gaps p ≠ [] ∧
  gapsPoint (metering_step (ToggleSeverity Red) (metering_step (ShowGaps "m1") s)) = None.
Proof.
  intros s p. assert (effects s = s) as Hs by (by vm_compute).
  assert (gapsPoint (metering_step (ShowGaps "m1") s) = Some p) as Hp by (by vm_compute).
  split; [done|]. split; [done|]. split; [|by vm_compute].
  exact (proj1 (proj2 (gaps_dialog_current s (ShowGaps "m1") p Hs Hp))).
Defined.

Lemma peak_first_greatest_witness :
  let d b n := {| bucket_of := b; chart_in_kwh := of_Z n; chart_out_kwh := of_Z 0 |} in
  let data := [d "a" 1; d "b" 3; d "c" 2; d "d" 3]%Z in
  (∀ q, q ∈ data → is_nan (chart_in_kwh q) = false) ∧
  ∃ p l1 l2, peakChartPoint data chart_in_kwh = Some p ∧ data = (l1 ++ p :: l2)%list ∧
    (∀ q, q ∈ l1 → num_lt (chart_in_kwh q) (chart_in_kwh p) = true) ∧ (∀ q, q ∈ l2 → num_gt (chart_in_kwh q) (chart_in_kwh p) = false).
Proof.
  intros d data. assert (∀ q, q ∈ data → is_nan (chart_in_kwh q) = false) as Hn.
  { apply Forall_forall. unfold data, d. repeat constructor. }
  split; [done|]. by apply (peak_first_greatest data chart_in_kwh).
Defined.
