(* ===== verification/Parties.v ===== *)
(** The people of a community: frontend/src/features/zev/ZevPartiesSection.tsx,
    PartyAccess.tsx and PartyFormModal.tsx. Whom each role, list and row shows, which access
    controls a row has, and the forms: a contact, a change of a role, access to give.

    The second half is a transition system of the section: [handle] is one event. A form of
    the section is numbered when it is mounted, since what a confirmation or an answer does
    later belongs to the form it came from. A click reaches the section as it is rendered.
    [canManage] is the page's and fixed while the section is mounted: a right that is lost
    while a form is open is not followed, the server refuses what the form sends then. *)

From S2P Require Import Prelude JsString Access InvoiceTypes.
Local Open Scope string_scope.

Inductive PartyRoleName := RoleIssuer | RoleRepresentative | RoleLandowner.
#[export] Instance PartyRoleName_eq_dec : EqDecision PartyRoleName.
Proof. solve_decision. Defined.

Record PartyAccount := { account_id : Z; account_email : string; account_full_name : string; account_active : bool }.
Record PartyRoleWindow := { window_id : string; window_role : PartyRoleName; window_from : string; window_to : option string }.

Record PartyInput := {
  kind : PartyKind; title : string; first_name : string; last_name : string; organisation_name : string; name_addition : string; email : string;
  phone : string; address_line1 : string; address_line2 : string; postal_code : string; city : string; notes : string;
}.

Record Party := {
  party_id : string; party_zev : string; party_fields : PartyInput; display_name : string; participations : list (string * string * option string);
  party_roles : list PartyRoleWindow; accounts : list PartyAccount; party_created_at : string; party_updated_at : string;
}.

(** Without its two time stamps. *)
Record ZevPartyRole := {
  row_id : string; row_zev : string; row_party : string; party_display_name : string; role : PartyRoleName; valid_from : string;
  valid_to : option string; building : option string; building_name : option string;
}.

Inductive grant_source := FromGrant | FromRole.
#[export] Instance grant_source_eq_dec : EqDecision grant_source.
Proof. solve_decision. Defined.

Record grant_user := { user_id : Z; user_email : string; user_first_name : string; user_last_name : string; pending_invitation : bool }.

(** [source] absent is a grant. The fields nothing here reads ([zev], [granted_by],
    [created_at], [party_role]) are left out. *)
Record ZevAccessGrant := {
  grant_id : string; grant_role : ZevAccessRole; grant_from : string; grant_to : option string; grant_active : bool; grant_of : grant_user;
  source : option grant_source;
}.

(** ** Roles on a day *)

Definition activeOn (row : ZevPartyRole) (day : string) : bool :=
  str_le (valid_from row) day && match valid_to row with None => true | Some to => str_le day to end.

Definition rows_of (r : PartyRoleName) (rows : list ZevPartyRole) : list ZevPartyRole := bfilter (λ row, bool_decide (role row = r)) rows.

Section Roles.
Context (localeCompare : string → string → Z) (today : string).

Definition current (rows : list ZevPartyRole) : option ZevPartyRole := find_first (λ row, activeOn row today) rows.
Definition upcoming (rows : list ZevPartyRole) : list ZevPartyRole :=
  sort_by (λ a b, localeCompare (valid_from a) (valid_from b) <=? 0)%Z (bfilter (λ row, str_lt today (valid_from row)) rows).
Definition past (rows : list ZevPartyRole) : list ZevPartyRole :=
  sort_by (λ a b, localeCompare (valid_from b) (valid_from a) <=? 0)%Z
    (bfilter (λ row, match valid_to row with Some to => str_lt to today | None => false end) rows).

(** The landowners listed. *)
Definition landowners (rows : list ZevPartyRole) : list ZevPartyRole :=
  sort_by (λ a b, localeCompare (party_display_name a) (party_display_name b) <=? 0)%Z
    (bfilter (λ row, match valid_to row with None => true | Some to => str_le today to end) rows).

End Roles.

(** ** Who is on the page *)

Section People.
Context (parties : list Party) (roles : list ZevPartyRole) (entries : list ZevAccessGrant) (today : string).

Definition contacts : list Party := bfilter (λ p, bool_decide (length (participations p) = 0%nat)) parties.

Definition account_ids (p : Party) : list Z := map account_id (accounts p).

Definition entriesOf (p : Party) : list ZevAccessGrant := bfilter (λ e, oset_has (user_id (grant_of e)) (oset_of (account_ids p))) entries.

Definition role_shown (row : ZevPartyRole) : bool :=
  activeOn row today || (bool_decide (role row = RoleLandowner) && str_lt today (valid_from row)).

Definition shownPartyIds : list string := oset_of (map row_party (bfilter role_shown roles) ++ map party_id contacts)%list.

(** The logins of the parties shown, before the others are added. *)
Definition shown_logins : list Z :=
  oset_of (flat_map account_ids (bfilter (λ p, oset_has (party_id p) shownPartyIds) parties)).

Definition otherParties : list Party :=
  bfilter (λ p, negb (oset_has (party_id p) shownPartyIds) && negb (bool_decide (length (entriesOf p) = 0%nat))) parties.

Definition shownAccountIds : list Z := foldl (λ s id, oset_add id s) shown_logins (flat_map account_ids otherParties).

(** [new Map(...).values()]: one entry per login, the last one. *)
Definition bareLogins : list ZevAccessGrant :=
  map snd (omap_of (map (λ e, (user_id (grant_of e), e)) (bfilter (λ e, negb (oset_has (user_id (grant_of e)) shownAccountIds)) entries))).

Definition listedParties : list Party := (contacts ++ otherParties)%list.
Definition nobodyElse : bool := (length listedParties + length bareLogins =? 0)%nat.

End People.

(** ** The access controls of a row *)

Inductive menu_item := ItemLevel (grant : string) (makes : ZevAccessRole) | ItemResend (grant : string) | ItemRevoke (grant : string).

(** The visible action: invite as manager at once, or open the form. *)
Inductive primary_action := InviteManager (party : string) | OpenGiveForm (party : string).

Inductive no_access_text := NoLoginNoEmail | NoLoginRole | NoAccess.

Record AccessDescription := {
  managed_by_role : option (option string); granted : list ZevAccessGrant; without_access : option no_access_text;
  primary : option primary_action; menuItems : list menu_item;
}.

Definition counts (today : string) (e : ZevAccessGrant) : bool := grant_active e || str_lt today (grant_from e).

Definition grant_items (g : ZevAccessGrant) : list menu_item :=
  ([ItemLevel (grant_id g) (match grant_role g with AccessManager => AccessViewer | AccessViewer => AccessManager end)]
   ++ (if pending_invitation (grant_of g) then [ItemResend (grant_id g)] else []) ++ [ItemRevoke (grant_id g)])%list.

(** [shownEmail] is the address the row shows already. *)
Definition describeAccess (today : string) (entries : list ZevAccessGrant) (party : option Party) (canManage managingRole : bool)
    (shownEmail : option string) : AccessDescription :=
  let active := bfilter (counts today) entries in
  let byRole := bfilter (λ e, bool_decide (source e = Some FromRole)) active in
  let grants := bfilter (λ e, negb (bool_decide (source e = Some FromRole))) active in
  let login := match active with
               | e :: _ => Some (user_email (grant_of e))
               | [] => match party with Some p => account_email <$> head (accounts p) | None => None end
               end in
  let has_login := match party with Some p => negb (bool_decide (length (accounts p) = 0%nat)) | None => false end in
  let has_email := match party with Some p => nonempty (email (party_fields p)) | None => false end in
  let canInvite := has_login || has_email in
  {| managed_by_role := match byRole with
                        | [] => None
                        | _ => Some (if truthy_str login && negb (bool_decide (login = shownEmail)) then login else None)
                        end;
     granted := grants;
     without_access := match active with
                       | [] => Some (if bool_decide (is_Some party) && negb has_login && negb has_email then NoLoginNoEmail
                                     else if managingRole then NoLoginRole else NoAccess)
                       | _ => None
                       end;
     primary := match active, party with
                | [], Some p => if canManage && canInvite
                                then Some (if managingRole then InviteManager (party_id p) else OpenGiveForm (party_id p)) else None
                | _, _ => None
                end;
     menuItems := if canManage then flat_map grant_items grants else [] |}.

(** A contact can be deleted only while nothing depends on it. *)
Definition deletable (canManage : bool) (entries : list ZevAccessGrant) (p : Party) : bool :=
  canManage && bool_decide (length (participations p) = 0%nat) && bool_decide (length (party_roles p) = 0%nat)
  && bool_decide (length (entriesOf entries p) = 0%nat).

(** ** Giving access *)

Record ZevAccessGrantInput := { in_email : option string; in_party : option string; in_role : ZevAccessRole; in_valid_to : option string }.

Inductive give_target := TargetParty | TargetEmail.
Record give_form := { target : give_target; g_party : string; g_email : string; g_role : ZevAccessRole; g_validTo : string }.

Inductive give_error := EmailRequired | PartyRequired.

Definition give_form_for (initialPartyId : option string) : give_form :=
  {| target := if truthy_str initialPartyId then TargetParty else TargetEmail; g_party := default "" initialPartyId; g_email := "";
     g_role := AccessViewer; g_validTo := "" |}.

(** [submit] of the form: what is sent, or the error shown. *)
Definition give_submit (f : give_form) : give_error + ZevAccessGrantInput :=
  let input e p := {| in_email := e; in_party := p; in_role := g_role f; in_valid_to := if nonempty (g_validTo f) then Some (g_validTo f) else None |} in
  match target f with
  | TargetEmail => if nonempty (trim (g_email f)) then inr (input (Some (trim (g_email f))) None) else inl EmailRequired
  | TargetParty => if nonempty (g_party f) then inr (input None (Some (g_party f))) else inl PartyRequired
  end.

(** [toggleRole]: the role sent and whether it is asked about first. *)
Definition toggleRole (g : ZevAccessGrant) : ZevAccessRole * bool :=
  match grant_role g with AccessManager => (AccessViewer, true) | AccessViewer => (AccessManager, false) end.

(** ** The section *)

Definition EMPTY : PartyInput :=
  {| kind := KindPerson; title := ""; first_name := ""; last_name := ""; organisation_name := ""; name_addition := ""; email := ""; phone := "";
     address_line1 := ""; address_line2 := ""; postal_code := ""; city := ""; notes := "" |}.

Inductive contact_error := OrganisationNameRequired | LastNameRequired.

(** [submit] of the contact form. *)
Definition contact_submit (values : PartyInput) : contact_error + PartyInput :=
  match kind values with
  | KindOrganisation =>
      if nonempty (trim (organisation_name values))
      then inr {| kind := kind values; title := title values; first_name := first_name values; last_name := last_name values;
                  organisation_name := trim (organisation_name values); name_addition := name_addition values; email := email values;
                  phone := phone values; address_line1 := address_line1 values; address_line2 := address_line2 values;
                  postal_code := postal_code values; city := city values; notes := notes values |}
      else inl OrganisationNameRequired
  | KindPerson =>
      if nonempty (trim (last_name values))
      then inr {| kind := kind values; title := title values; first_name := first_name values; last_name := last_name values;
                  organisation_name := ""; name_addition := name_addition values; email := email values;
                  phone := phone values; address_line1 := address_line1 values; address_line2 := address_line2 values;
                  postal_code := postal_code values; city := city values; notes := notes values |}
      else inl LastNameRequired
  end.

(** A form of the section, numbered by its mount. *)
Record assign_form := { form_no : nat; a_party : string; a_validFrom : string; a_building : string; a_error : bool }.

Record contact_modal := { partyModalOpen : bool; editingParty : option Party; values : PartyInput; contact_shown : option contact_error;
                          pickAfterCreate : option nat }.

(** [assignPartyRole] and the other requests. *)
Inductive section_write :=
  | SaveParty (id : option string) (input : PartyInput)
  | Assign (r : PartyRoleName) (party validFrom : string) (b : option (option string))
  | EndRole (row : string) (lastDay : string)
  | SetRoleBuilding (row : string) (b : option string).

Record section := {
  contact : contact_modal; forms : PartyRoleName → option assign_form; ending : option (string * string); settingBuilding : option (string * string);
  question : option section_write; in_flight : list section_write; sent : list section_write; mounts : nat;
}.

Definition with_contact (c : contact_modal) (s : section) : section :=
  {| contact := c; forms := forms s; ending := ending s; settingBuilding := settingBuilding s; question := question s; in_flight := in_flight s;
     sent := sent s; mounts := mounts s |}.
Definition with_forms (f : PartyRoleName → option assign_form) (n : nat) (s : section) : section :=
  {| contact := contact s; forms := f; ending := ending s; settingBuilding := settingBuilding s; question := question s; in_flight := in_flight s;
     sent := sent s; mounts := n |}.
Definition with_rows (e b : option (string * string)) (s : section) : section :=
  {| contact := contact s; forms := forms s; ending := e; settingBuilding := b; question := question s; in_flight := in_flight s;
     sent := sent s; mounts := mounts s |}.
Definition with_writes (q : option section_write) (fl l : list section_write) (s : section) : section :=
  {| contact := contact s; forms := forms s; ending := ending s; settingBuilding := settingBuilding s; question := q; in_flight := fl;
     sent := l; mounts := mounts s |}.

Definition set_form (r : PartyRoleName) (f : option assign_form) (s : section) : section :=
  with_forms (λ x, if bool_decide (x = r) then f else forms s x) (mounts s) s.

Definition send (w : section_write) (s : section) : section := with_writes (question s) (in_flight s ++ [w]) (sent s ++ [w]) s.
Definition ask_first (w : section_write) (s : section) : section := with_writes (Some w) (in_flight s) (sent s) s.

(** ** Contacts *)

Definition openContact (p : option Party) (pick : option nat) (s : section) : section :=
  with_contact {| partyModalOpen := true; editingParty := p; values := match p with Some p => party_fields p | None => EMPTY end;
                  contact_shown := None; pickAfterCreate := pick |} s.
(** The edit button leaves the picker as it was. *)
Definition editContact (p : Party) (s : section) : section := openContact (Some p) (pickAfterCreate (contact s)) s.

Definition closeContact (s : section) : section :=
  with_contact {| partyModalOpen := false; editingParty := None; values := values (contact s); contact_shown := contact_shown (contact s);
                  pickAfterCreate := None |} s.

Definition typeContact (f : PartyInput → PartyInput) (s : section) : section :=
  let c := contact s in
  with_contact {| partyModalOpen := partyModalOpen c; editingParty := editingParty c; values := f (values c); contact_shown := contact_shown c;
                  pickAfterCreate := pickAfterCreate c |} s.

Definition submitContact (s : section) : section :=
  let c := contact s in
  match contact_submit (values c) with
  | inl e => with_contact {| partyModalOpen := partyModalOpen c; editingParty := editingParty c; values := values c; contact_shown := Some e;
                             pickAfterCreate := pickAfterCreate c |} s
  | inr input => send (SaveParty (party_id <$> editingParty c) input) s
  end.

(** ** Forms of the roles *)

Section Handlers.
Context (today : string) (canManage : bool).

Definition openForm (r : PartyRoleName) (s : section) : section :=
  with_forms (λ x, if bool_decide (x = r)
                   then Some {| form_no := mounts s; a_party := ""; a_validFrom := today; a_building := ""; a_error := false |} else forms s x)
    (S (mounts s)) s.

Definition edit_form (r : PartyRoleName) (f : assign_form → assign_form) (s : section) : section := set_form r (f <$> forms s r) s.
Definition setParty (id : string) (f : assign_form) : assign_form :=
  {| form_no := form_no f; a_party := id; a_validFrom := a_validFrom f; a_building := a_building f; a_error := false |}.
Definition setValidFrom (iso : string) (f : assign_form) : assign_form :=
  {| form_no := form_no f; a_party := a_party f; a_validFrom := iso; a_building := a_building f; a_error := a_error f |}.
Definition setFormBuilding (b : string) (f : assign_form) : assign_form :=
  {| form_no := form_no f; a_party := a_party f; a_validFrom := a_validFrom f; a_building := b; a_error := a_error f |}.
Definition showError (f : assign_form) : assign_form :=
  {| form_no := form_no f; a_party := a_party f; a_validFrom := a_validFrom f; a_building := a_building f; a_error := true |}.

Definition null_if_empty (v : string) : option string := if nonempty v then Some v else None.

(** The landowner's form sends its building, the others none. *)
Definition assignment (r : PartyRoleName) (f : assign_form) : section_write :=
  Assign r (a_party f) (a_validFrom f)
    (match r with RoleLandowner => Some (null_if_empty (a_building f)) | _ => None end).

Definition submitForm (r : PartyRoleName) (s : section) : section :=
  match forms s r with
  | None => s
  | Some f =>
      if negb (nonempty (a_party f)) then edit_form r showError s
      else if negb (nonempty (a_validFrom f)) then s
      else match r with
           | RoleLandowner => send (assignment r f) s
           | _ => ask_first (assignment r f) s
           end
  end.

(** The picker of form [n], if it is still there. *)
Definition pick_in (n : nat) (id : string) (s : section) : section :=
  with_forms (λ x, match forms s x with
                   | Some f => Some (if (form_no f =? n)%nat then setParty id f else f)
                   | None => None
                   end) (mounts s) s.

(** ** Answers *)

(** [saved] is the id of the saved party. The form of an assignment is told by its role alone:
    [onDone] of an earlier form closes the one open now. *)
Definition on_success (w : section_write) (saved : string) (s : section) : section :=
  match w with
  | SaveParty _ _ =>
      let picked := match pickAfterCreate (contact s) with Some n => pick_in n saved s | None => s end in closeContact picked
  | Assign r _ _ _ => set_form r None s
  | EndRole _ _ => with_rows None (settingBuilding s) s
  | SetRoleBuilding _ _ => with_rows (ending s) None s
  end.

Definition request_ended (i : nat) (saved : option string) (s : section) : section :=
  match in_flight s !! i with
  | None => s
  | Some w =>
      let s := with_writes (question s) (delete i (in_flight s)) (sent s) s in
      match saved with Some id => on_success w id s | None => s end
  end.

Definition settle_question (yes : bool) (s : section) : section :=
  match question s with
  | None => s
  | Some w => let s := with_writes None (in_flight s) (sent s) s in if yes then send w s else s
  end.

(** ** Events *)

Inductive section_event :=
  | NewContact | NewContactFor (r : PartyRoleName) | EditContact (p : Party) | TypeContact (f : PartyInput → PartyInput) | CloseContact | SubmitContact
  | OpenForm (r : PartyRoleName) | PickParty (r : PartyRoleName) (id : string) | SetDay (r : PartyRoleName) (iso : string)
  | SetBuilding (b : string) | CancelForm (r : PartyRoleName) | SubmitForm (r : PartyRoleName)
  | StartEnd (row : string) | SetLastDay (iso : string) | CancelEnd | SubmitEnd
  | StartBuilding (row : string) (b : option string) | PickBuilding (b : string) | CancelBuilding | SubmitBuilding
  | AnswerQuestion (yes : bool) | Answered (i : nat) (saved : option string).

Definition is_contact (w : section_write) : bool := match w with SaveParty _ _ => true | _ => false end.
(** [saveParty.isPending], and [busy] of the roles. *)
Definition contact_pending (s : section) : bool := existsb is_contact (in_flight s).
Definition busy (s : section) : bool := existsb (λ w, negb (is_contact w)) (in_flight s).

(** What the section offers: buttons to open a form only to who may manage, and submit buttons
    while nothing of their kind runs. *)
Definition offered (e : section_event) (s : section) : bool :=
  match e with
  | NewContact | EditContact _ => canManage && negb (partyModalOpen (contact s))
  | NewContactFor r => bool_decide (is_Some (forms s r)) && negb (partyModalOpen (contact s))
  | TypeContact _ | CloseContact => partyModalOpen (contact s)
  | SubmitContact => partyModalOpen (contact s) && negb (contact_pending s)
  | OpenForm r => canManage && bool_decide (forms s r = None)
  | PickParty r _ | SetDay r _ | CancelForm r => bool_decide (is_Some (forms s r))
  | SetBuilding _ => bool_decide (is_Some (forms s RoleLandowner))
  | SubmitForm r => bool_decide (is_Some (forms s r)) && negb (busy s)
  | StartEnd _ | StartBuilding _ _ => canManage
  | SetLastDay _ | CancelEnd => bool_decide (is_Some (ending s))
  | SubmitEnd => match ending s with Some (_, day) => negb (busy s) && nonempty day | None => false end
  | PickBuilding _ | CancelBuilding => bool_decide (is_Some (settingBuilding s))
  | SubmitBuilding => bool_decide (is_Some (settingBuilding s)) && negb (busy s)
  | AnswerQuestion _ => bool_decide (is_Some (question s))
  | Answered i _ => bool_decide (is_Some (in_flight s !! i))
  end.

Definition handle (e : section_event) (s : section) : section :=
  match e with
  | NewContact => openContact None None s
  | NewContactFor r => openContact None (form_no <$> forms s r) s
  | EditContact p => editContact p s
  | TypeContact f => typeContact f s
  | CloseContact => closeContact s
  | SubmitContact => submitContact s
  | OpenForm r => openForm r s
  | PickParty r id => edit_form r (setParty id) s
  | SetDay r iso => edit_form r (setValidFrom iso) s
  | SetBuilding b => edit_form RoleLandowner (setFormBuilding b) s
  | CancelForm r => set_form r None s
  | SubmitForm r => submitForm r s
  | StartEnd row => with_rows (Some (row, today)) (settingBuilding s) s
  | SetLastDay iso => with_rows (match ending s with Some (row, _) => Some (row, iso) | None => None end) (settingBuilding s) s
  | CancelEnd => with_rows None (settingBuilding s) s
  | SubmitEnd => match ending s with Some (row, day) => ask_first (EndRole row day) s | None => s end
  | StartBuilding row b => with_rows (ending s) (Some (row, default "" b)) s
  | PickBuilding b => with_rows (ending s) (match settingBuilding s with Some (row, _) => Some (row, b) | None => None end) s
  | CancelBuilding => with_rows (ending s) None s
  | SubmitBuilding => match settingBuilding s with Some (row, b) => send (SetRoleBuilding row (null_if_empty b)) s | None => s end
  | AnswerQuestion yes => settle_question yes s
  | Answered i saved => request_ended i saved s
  end.

Definition section_init : section :=
  {| contact := {| partyModalOpen := false; editingParty := None; values := EMPTY; contact_shown := None; pickAfterCreate := None |};
     forms := λ _, None; ending := None; settingBuilding := None; question := None; in_flight := []; sent := []; mounts := 0 |}.

Inductive section_reachable : section → Prop :=
  | section_start : section_reachable section_init
  | section_next s e : section_reachable s → offered e s = true → section_reachable (handle e s).

End Handlers.

(** ** Roles and people *)

(** Sorting by a comparator that agrees with a total order on the rows sorted. *)
Lemma dated_sorted {A} (leb R : A → A → bool) (rows l : list A) :
  (∀ a b, a ∈ rows → b ∈ rows → leb a b = R a b) → (∀ a b, R a b = true ∨ R b a = true) →
  (∀ a b c, R a b = true → R b c = true → R a c = true) → (∀ x, x ∈ l → x ∈ rows) → StronglySorted (λ a b, R a b = true) (sort_by leb l).
Proof.
  intros Hle Htot Htr Hl. assert (sort_by leb l = sort_by R l) as ->.
  - assert (∀ x l, x ∈ rows → (∀ y, y ∈ l → y ∈ rows) → insert_sorted leb x l = insert_sorted R x l) as Hins.
    { intros x l'. induction l' as [|y l' IH]; intros Hx Hl'; [done|]. cbn [insert_sorted]. rewrite Hle by (done || (apply Hl'; by left)).
      destruct (R x y); [done|]. rewrite IH; [done|done|]. intros z Hz. apply Hl'. by right. }
    induction l as [|x l IH]; [done|]. unfold sort_by in *. cbn [foldr]. rewrite IH by (intros z Hz; apply Hl; by right).
    apply Hins; [apply Hl; by left|]. intros y. fold (sort_by R l). rewrite sort_by_perm. intros Hy. apply Hl. by right.
  - apply Sorted_StronglySorted; [intros a b d; apply Htr|]. by apply sort_by_sorted.
Qed.

Definition ordered_window (row : ZevPartyRole) : Prop :=
  match valid_to row with None => True | Some to => str_le (valid_from row) to = true end.

(** Every holder of a role is shown once: today's, a scheduled one or a former one, those to
    come first the soonest and the former ones first the latest; with one holder at a time
    today's is the only one whose window covers the day; and the landowners listed are those
    who are not former ones. *)
Theorem role_rows_shown localeCompare today rows :
  (∀ a b, a ∈ rows → b ∈ rows → (localeCompare (valid_from a) (valid_from b) <=? 0)%Z = str_le (valid_from a) (valid_from b)) → (∀ row, row ∈ rows → ordered_window row) →
  (∀ a b, a ∈ rows → b ∈ rows → activeOn a today = true → activeOn b today = true → a = b) →
  (∀ row, row ∈ rows →
     (current today rows = Some row ∧ (row ∉ upcoming localeCompare today rows) ∧ (row ∉ past localeCompare today rows)) ∨
     (current today rows ≠ Some row ∧ row ∈ upcoming localeCompare today rows ∧ (row ∉ past localeCompare today rows)) ∨
     (current today rows ≠ Some row ∧ (row ∉ upcoming localeCompare today rows) ∧ row ∈ past localeCompare today rows)) ∧
  StronglySorted (λ a b, str_le (valid_from a) (valid_from b) = true) (upcoming localeCompare today rows) ∧
  StronglySorted (λ a b, str_le (valid_from b) (valid_from a) = true) (past localeCompare today rows) ∧
  (∀ row, row ∈ landowners localeCompare today rows ↔ row ∈ rows ∧ (row ∉ past localeCompare today rows)).
Proof.
  intros Hlc Hw Hone.
  assert (∀ row, row ∈ upcoming localeCompare today rows ↔ row ∈ rows ∧ str_lt today (valid_from row) = true) as Hup.
  { intros row. unfold upcoming. by rewrite elem_of_sort_by, elem_of_bfilter. }
  assert (∀ row, row ∈ past localeCompare today rows ↔ row ∈ rows ∧ ∃ to, valid_to row = Some to ∧ str_lt to today = true) as Hpast.
  { intros row. unfold past. rewrite elem_of_sort_by, elem_of_bfilter. destruct (valid_to row) as [to|].
    - split; [intros [? ?]; split; [done|]; by exists to|by intros (? & ? & [= <-] & ?)].
    - split; [by intros [_ ?]|by intros (_ & to & ? & _)]. }
  assert (∀ row, row ∈ rows → current today rows = Some row ↔ activeOn row today = true) as Hcur.
  { intros row Hin. unfold current. split; [by intros [_ ?]%find_first_Some|]. intros Ha.
    destruct (find_first_exists (λ row, activeOn row today) rows row Hin Ha) as (y & E). rewrite E. f_equal.
    apply find_first_Some in E as [Hy Ey]. by apply Hone. }
  split; [|split; [|split]].
  - intros row Hin. specialize (Hcur row Hin). pose proof (Hw row Hin) as Hwin. unfold ordered_window in Hwin. rewrite Hcur, Hup, Hpast.
    unfold activeOn in *. destruct (str_lt today (valid_from row)) eqn:El.
    + right; left. assert (str_le (valid_from row) today = false) as -> by (unfold str_le; by rewrite El).
      split; [done|]. split; [done|]. intros (_ & to & E & Hto). rewrite E in Hwin.
      pose proof (str_le_lt_trans _ _ _ Hwin Hto) as H. by rewrite (str_lt_asym _ _ H) in El.
    + assert (str_le (valid_from row) today = true) as -> by (unfold str_le; by rewrite El). cbn [andb].
      destruct (valid_to row) as [to|] eqn:Et; [|left; split; [done|]; split; [by intros [_ ?]|by intros (_ & to & ? & _)]].
      destruct (str_lt to today) eqn:Ep.
      * right; right. assert (str_le today to = false) as -> by (unfold str_le; by rewrite Ep). split; [done|]. split; [by intros [_ ?]|].
        split; [done|]. by exists to.
      * left. assert (str_le today to = true) as -> by (unfold str_le; by rewrite Ep). split; [done|]. split; [by intros [_ ?]|].
        intros (_ & to' & [= <-] & ?). congruence.
  - apply (dated_sorted _ _ rows); [done|by intros; apply str_le_total|by intros a b d; apply str_le_trans|].
    by intros row [? _]%elem_of_bfilter.
  - apply (dated_sorted _ _ rows); [by intros; apply Hlc|by intros; apply str_le_total|by intros a b d ? ?; eapply str_le_trans|].
    by intros row [? _]%elem_of_bfilter.
  - intros row. unfold landowners. rewrite elem_of_sort_by, elem_of_bfilter, Hpast.
    destruct (valid_to row) as [to|]; [|split; [intros [? _]; split; [done|by intros (_ & to & ? & _)]|by intros [? _]]].
    unfold str_le. destruct (str_lt to today) eqn:E; cbn [negb].
    + split; [by intros [_ ?]|]. intros [Hin Hn]. destruct Hn. split; [done|]. by exists to.
    + split; [|by intros [? _]]. intros [Hin _]. split; [done|]. intros (_ & to' & [= <-] & ?). congruence.
Qed.

Section PeopleLaws.
Context (parties : list Party) (roles : list ZevPartyRole) (entries : list ZevAccessGrant) (today : string).

Definition holds_login (p : Party) (id : Z) : Prop := id ∈ account_ids p.
Definition login_of (e : ZevAccessGrant) : Z := user_id (grant_of e).

(** Listed among the people, or on a row of a role. *)
Definition on_page (p : Party) : Prop :=
  p ∈ listedParties parties roles entries today ∨ ∃ row, row ∈ roles ∧ role_shown today row = true ∧ row_party row = party_id p.

Lemma elem_of_entriesOf p e : e ∈ entriesOf entries p ↔ e ∈ entries ∧ holds_login p (login_of e).
Proof. unfold entriesOf. by rewrite elem_of_bfilter, oset_has_true, elem_of_oset_of. Qed.

Lemma elem_of_contacts p : p ∈ contacts parties ↔ p ∈ parties ∧ participations p = [].
Proof. unfold contacts. by rewrite elem_of_bfilter, bool_decide_eq_true, length_zero_iff_nil. Qed.

Lemma elem_of_shownPartyIds id :
  id ∈ shownPartyIds parties roles today ↔
  (∃ row, row ∈ roles ∧ role_shown today row = true ∧ row_party row = id) ∨ ∃ p, p ∈ contacts parties ∧ party_id p = id.
Proof.
  unfold shownPartyIds. rewrite elem_of_oset_of, elem_of_app, !list_elem_of_In, !in_map_iff.
  repeat setoid_rewrite <- list_elem_of_In. setoid_rewrite elem_of_bfilter. naive_solver.
Qed.

Lemma elem_of_otherParties p :
  p ∈ otherParties parties roles entries today ↔
  p ∈ parties ∧ (party_id p ∉ shownPartyIds parties roles today) ∧ entriesOf entries p ≠ [].
Proof.
  unfold otherParties. rewrite elem_of_bfilter, andb_true_iff, !negb_true_iff, oset_has_false, bool_decide_eq_false, length_zero_iff_nil.
  done.
Qed.

Lemma elem_of_shownAccountIds id :
  id ∈ shownAccountIds parties roles entries today ↔
  ∃ p, p ∈ parties ∧ holds_login p id ∧
       (party_id p ∈ shownPartyIds parties roles today ∨ p ∈ otherParties parties roles entries today).
Proof.
  unfold shownAccountIds, shown_logins. rewrite elem_of_foldl_oset_add, elem_of_oset_of, !list_elem_of_In, !in_flat_map.
  repeat setoid_rewrite <- list_elem_of_In. setoid_rewrite elem_of_bfilter. setoid_rewrite oset_has_true.
  unfold holds_login. split.
  - intros [(p & [Hp Hs] & Hid)|(p & Hp & Hid)]; exists p; [by auto|].
    assert (p ∈ otherParties parties roles entries today) as Ho by (by apply elem_of_bfilter). destruct Hp. auto.
  - intros (p & Hp & Hid & [Hs|Ho]); [left|right]; by exists p.
Qed.

(** A login with access whose party exists is that of a party shown. *)
Lemma known_login_shown p e : p ∈ parties → e ∈ entries → holds_login p (login_of e) → login_of e ∈ shownAccountIds parties roles entries today.
Proof.
  intros Hp He Hid. rewrite elem_of_shownAccountIds. exists p. split; [done|]. split; [done|].
  destruct (decide (party_id p ∈ shownPartyIds parties roles today)) as [?|Hn]; [by left|]. right. apply elem_of_otherParties.
  split; [done|]. split; [done|]. intros Hnil. apply (not_elem_of_nil e). rewrite <- Hnil. by apply elem_of_entriesOf.
Qed.

Lemma bareLogins_keys :
  (login_of <$> bareLogins parties roles entries today)
  = oset_of (login_of <$> bfilter (λ e, negb (oset_has (login_of e) (shownAccountIds parties roles entries today))) entries).
Proof.
  unfold bareLogins. set (l := bfilter _ _). transitivity ((omap_of (map (λ e, (login_of e, e)) l)).*1).
  - change (map snd) with (fmap (M:=list) (A:=Z * ZevAccessGrant) snd). rewrite <- list_fmap_compose. apply list_fmap_ext.
    intros i [k e] Hi%list_elem_of_lookup_2%elem_of_omap_of. cbn.
    rewrite list_elem_of_In, in_map_iff in Hi. by destruct Hi as (e' & [= <- <-] & _).
  - rewrite omap_of_keys. f_equal. change (map ?f l) with (f <$> l). by rewrite <- list_fmap_compose.
Qed.

Lemma bareLogins_sound e : e ∈ bareLogins parties roles entries today → e ∈ entries ∧ (login_of e ∉ shownAccountIds parties roles entries today).
Proof.
  unfold bareLogins. rewrite list_elem_of_In, in_map_iff. intros ([k e'] & Heq & Hin). cbn in Heq. subst e'.
  rewrite <- list_elem_of_In in Hin. apply elem_of_omap_of in Hin. rewrite list_elem_of_In, in_map_iff in Hin.
  destruct Hin as (e' & [= <- <-] & Hin). rewrite <- list_elem_of_In, elem_of_bfilter, negb_true_iff, oset_has_false in Hin. done.
Qed.

Lemma bareLogins_complete e :
  e ∈ entries → (login_of e ∉ shownAccountIds parties roles entries today) →
  ∃ e', e' ∈ bareLogins parties roles entries today ∧ login_of e' = login_of e.
Proof.
  intros He Hn. assert (login_of e ∈ (login_of <$> bareLogins parties roles entries today)) as H.
  { rewrite bareLogins_keys, elem_of_oset_of, list_elem_of_fmap. exists e. split; [done|].
    by rewrite elem_of_bfilter, negb_true_iff, oset_has_false. }
  apply list_elem_of_fmap in H as (e' & E & H). by exists e'.
Qed.

End PeopleLaws.

(** Nobody who has to do with the community is missing from the page, and nobody is listed
    twice: a party is on the page when it is a contact, holds a role that is shown or has
    access; the parties listed are distinct; and each login with access either belongs to a
    party on the page or, when it belongs to none, is listed by itself, once. *)
Theorem logins_shown_once parties roles entries today :
  NoDup (party_id <$> parties) →
  (∀ p, p ∈ parties → on_page parties roles entries today p ↔
     participations p = [] ∨ entriesOf entries p ≠ [] ∨ (∃ row, row ∈ roles ∧ role_shown today row = true ∧ row_party row = party_id p)) ∧
  NoDup (party_id <$> listedParties parties roles entries today) ∧ NoDup (login_of <$> bareLogins parties roles entries today) ∧
  (∀ e, e ∈ bareLogins parties roles entries today → e ∈ entries) ∧
  (∀ e, e ∈ entries →
     (∃ p, p ∈ parties ∧ on_page parties roles entries today p ∧ holds_login p (login_of e))
       ∧ (login_of e ∉ (login_of <$> bareLogins parties roles entries today)) ∨
     (∀ p, p ∈ parties → ¬ holds_login p (login_of e)) ∧ login_of e ∈ (login_of <$> bareLogins parties roles entries today)).
Proof.
  intros Hnd.
  assert (∀ p, p ∈ parties → on_page parties roles entries today p ↔
            party_id p ∈ shownPartyIds parties roles today ∨ p ∈ otherParties parties roles entries today) as Hon.
  { intros p Hp. unfold on_page, listedParties. rewrite elem_of_app, elem_of_shownPartyIds. split; [naive_solver|].
    intros [[Hr|(q & Hq & E)]|Ho]; [by right| |by left; right]. left; left.
    pose proof (proj1 (elem_of_contacts _ q) Hq) as [Hqp _]. by rewrite <- (NoDup_map_inj party_id parties q p Hnd Hqp Hp E). }
  split; [|split; [|split; [|split]]].
  - intros p Hp. rewrite Hon, elem_of_otherParties by done. split.
    + rewrite elem_of_shownPartyIds. intros [[Hr|(q & Hq & E)]|(_ & _ & ?)]; [by right; right| |by right; left]. left.
      apply elem_of_contacts in Hq as [Hqp Hq]. by rewrite <- (NoDup_map_inj party_id parties q p Hnd Hqp Hp E).
    + destruct (decide (party_id p ∈ shownPartyIds parties roles today)) as [|Hn]; [by left|]. intros H. right. split; [done|]. split; [done|].
      destruct H as [H|[H|H]]; [|done|]; destruct Hn; apply elem_of_shownPartyIds; [right; exists p; by rewrite elem_of_contacts|by left].
  - unfold listedParties. rewrite fmap_app. apply NoDup_app. split; [by apply NoDup_fmap_bfilter|]. split; [|by apply NoDup_fmap_bfilter].
    intros id (p & -> & Hp)%list_elem_of_fmap (q & E & (_ & Hn & _)%elem_of_otherParties)%list_elem_of_fmap. destruct Hn. rewrite <- E.
    apply elem_of_shownPartyIds. right. by exists p.
  - rewrite bareLogins_keys. apply NoDup_oset_of.
  - by intros e [? _]%bareLogins_sound.
  - intros e He. destruct (decide (login_of e ∈ shownAccountIds parties roles entries today)) as [Hin|Hn].
    + left. pose proof Hin as (p & Hp & Hid & Hs)%elem_of_shownAccountIds. split; [exists p; by rewrite Hon|].
      intros (e' & E & [_ Hn]%bareLogins_sound)%list_elem_of_fmap. destruct Hn. by rewrite <- E.
    + right. split; [intros p Hp Hid; by apply Hn, (known_login_shown _ _ _ _ p)|].
      destruct (bareLogins_complete parties roles entries today e He Hn) as (e' & Hb & E). apply list_elem_of_fmap. by exists e'.
Qed.

(** What a row says of access and offers: the grants that count now or later, the managing by
    a role, the text when nothing counts; the visible action only then, for a party that can
    be invited; the menu only to who may manage, for grants and never for a role, each of
    them revocable, an invitation sent again only while it is pending. *)
Theorem access_described today entries party canManage managingRole shownEmail :
  let d := describeAccess today entries party canManage managingRole shownEmail in
  (∀ g, g ∈ granted d ↔ g ∈ entries ∧ counts today g = true ∧ source g ≠ Some FromRole) ∧
  (is_Some (managed_by_role d) ↔ ∃ e, e ∈ entries ∧ counts today e = true ∧ source e = Some FromRole) ∧
  (is_Some (without_access d) ↔ ∀ e, e ∈ entries → counts today e = false) ∧
  (is_Some (primary d) ↔ canManage = true ∧ (∀ e, e ∈ entries → counts today e = false) ∧
     ∃ p, party = Some p ∧ (accounts p ≠ [] ∨ nonempty (email (party_fields p)) = true)) ∧
  (∀ it, it ∈ menuItems d → canManage = true ∧ ∃ g, g ∈ granted d ∧ it ∈ grant_items g) ∧
  (canManage = true → ∀ g, g ∈ granted d →
     ItemRevoke (grant_id g) ∈ menuItems d ∧ (pending_invitation (grant_of g) = true → ItemResend (grant_id g) ∈ menuItems d)).
Proof.
  unfold describeAccess. cbv zeta. cbn [granted managed_by_role without_access primary menuItems].
  set (active := bfilter (counts today) entries).
  assert (active = [] ↔ ∀ e, e ∈ entries → counts today e = false) as Hact by apply bfilter_nil.
  assert (∀ e, e ∈ active ↔ e ∈ entries ∧ counts today e = true) as Hin by (intros e; apply elem_of_bfilter).
  split; [|split; [|split; [|split; [|split]]]].
  - intros g. rewrite elem_of_bfilter, Hin, negb_true_iff, bool_decide_eq_false. tauto.
  - destruct (bfilter (λ e, bool_decide (source e = Some FromRole)) active) as [|e0 l] eqn:E.
    + rewrite bfilter_nil in E. split; [by intros [? ?]|]. intros (e & He & Hc & Hs).
      specialize (E e (proj2 (Hin e) (conj He Hc))). cbn in E. by rewrite bool_decide_eq_false in E.
    + split; [|by eexists]. intros _. exists e0. assert (e0 ∈ e0 :: l) as H by left. rewrite <- E, elem_of_bfilter, Hin, bool_decide_eq_true in H.
      tauto.
  - rewrite <- Hact. destruct active; [by split; [|eexists]|]. split; [by intros [? ?]|done].
  - rewrite <- Hact. destruct active as [|e0 l]; [|split; [by intros [? ?]|by intros (_ & ? & _)]].
    destruct party as [p|]; [|split; [by intros [? ?]|by intros (_ & _ & ? & ? & _)]].
    split.
    + destruct canManage; [|by intros [? ?]]. cbn [andb].
      destruct (_ || _) eqn:E; [|by intros [? ?]]. intros _. split; [done|]. split; [done|]. exists p. split; [done|].
      apply orb_true_iff in E as [E|E]; [left|by right]. intros Hn. by rewrite Hn in E.
    + intros (-> & _ & p' & [= <-] & Hor). cbn [andb].
      destruct (_ || _) eqn:E; [by eexists|]. apply orb_false_iff in E as [Ea Ee]. destruct Hor as [Hor|Hor]; [|congruence].
      apply negb_false_iff, bool_decide_eq_true, length_zero_iff_nil in Ea. done.
  - intros it. destruct canManage; [|by intros ?%elem_of_nil]. rewrite list_elem_of_In, in_flat_map. intros (g & Hg & Hit).
    split; [done|]. exists g. by rewrite !list_elem_of_In.
  - intros -> g Hg. rewrite !list_elem_of_In in *. rewrite !in_flat_map. split.
    + exists g. split; [done|]. unfold grant_items. rewrite !in_app_iff. right; right; by left.
    + intros Hp. exists g. split; [done|]. unfold grant_items. rewrite !in_app_iff, Hp. right; left; by left.
Qed.

(** Access is asked for one addressee, an address without surrounding blanks or a party
    picked, never both and never none; a row's form addresses its own party. *)
Lemma give_submit_sound f :
  match give_submit f with
  | inl e => match target f with TargetEmail => e = EmailRequired ∧ trim (g_email f) = "" | TargetParty => e = PartyRequired ∧ g_party f = "" end
  | inr i => in_role i = g_role f ∧ match target f with
             | TargetEmail => in_email i = Some (trim (g_email f)) ∧ trim (g_email f) ≠ "" ∧ in_party i = None
             | TargetParty => in_party i = Some (g_party f) ∧ g_party f ≠ "" ∧ in_email i = None
             end
  end.
Proof.
  unfold give_submit. destruct (target f).
  - destruct (nonempty (g_party f)) eqn:E; [by apply nonempty_true in E|by apply nonempty_false in E].
  - destruct (nonempty (trim (g_email f))) eqn:E; [by apply nonempty_true in E|by apply nonempty_false in E].
Qed.

(** ** What the section sends *)

Definition asked_first (w : section_write) : bool :=
  match w with Assign r _ _ _ => negb (bool_decide (r = RoleLandowner)) | EndRole _ _ => true | _ => false end.

Definition valid_contact (input : PartyInput) : Prop :=
  match kind input with
  | KindOrganisation => organisation_name input ≠ "" ∧ trim (organisation_name input) = organisation_name input
  | KindPerson => organisation_name input = "" ∧ trim (last_name input) ≠ ""
  end.

Definition write_ok (w : section_write) : Prop :=
  match w with
  | SaveParty _ input => valid_contact input
  | Assign r p day b => p ≠ "" ∧ day ≠ "" ∧ (is_Some b ↔ r = RoleLandowner) ∧ b ≠ Some (Some "")
  | EndRole _ day => day ≠ ""
  | SetRoleBuilding _ b => b ≠ Some ""
  end.

Lemma rtrim_idemp s : rtrim (rtrim s) = rtrim s.
Proof.
  induction s as [|a s IH]; [done|]. cbn. destruct (is_space a && String.eqb (rtrim s) "") eqn:E; [done|]. cbn. by rewrite IH, E.
Qed.

Lemma trim_idemp s : trim (trim s) = trim s.
Proof.
  unfold trim. assert (ltrim (rtrim (ltrim s)) = rtrim (ltrim s)) as ->; [|apply rtrim_idemp].
  induction s as [|a s IH]; [done|]. cbn. destruct (is_space a) eqn:E; [done|]. cbn. rewrite E. cbn. by rewrite E.
Qed.

Lemma contact_submit_valid values input : contact_submit values = inr input → valid_contact input.
Proof.
  unfold contact_submit, valid_contact. destruct (kind values) eqn:Ek.
  - destruct (nonempty _) eqn:E; [|done]. intros [= <-]. cbn. rewrite ?Ek. by apply nonempty_true in E.
  - destruct (nonempty _) eqn:E; [|done]. intros [= <-]. cbn. rewrite ?Ek. apply nonempty_true in E. split; [done|]. apply trim_idemp.
Qed.

Lemma null_if_empty_ok v : null_if_empty v ≠ Some "".
Proof. unfold null_if_empty. destruct (nonempty v) eqn:E; [|done]. intros [= ->]. by apply nonempty_true in E. Qed.

Section SectionLaws.
Context (today : string) (canManage : bool).

Definition writes_of (s : section) : option section_write * list section_write * list section_write := (question s, in_flight s, sent s).

(** A click that sends at once. *)
Definition sends_at_once (e : section_event) (s : section) (w : section_write) : Prop :=
  asked_first w = false ∧ (e = SubmitContact ∧ is_contact w = true ∧ contact_pending s = false ∨
    (e = SubmitForm RoleLandowner ∨ e = SubmitBuilding) ∧ is_contact w = false ∧ busy s = false).

(** What one event does to the requests. *)
Inductive writes_step (e : section_event) (s s' : section) : Prop :=
  | writes_same : writes_of s' = writes_of s → writes_step e s s'
  | writes_sent w : sends_at_once e s w → write_ok w → writes_of s' = (question s, in_flight s ++ [w], sent s ++ [w])%list → writes_step e s s'
  | writes_asked w : asked_first w = true → write_ok w → writes_of s' = (Some w, in_flight s, sent s) → writes_step e s s'
  | writes_confirmed w : e = AnswerQuestion true → question s = Some w →
      writes_of s' = (None, in_flight s ++ [w], sent s ++ [w])%list → writes_step e s s'
  | writes_refused : e = AnswerQuestion false → writes_of s' = (None, in_flight s, sent s) → writes_step e s s'
  | writes_answered i saved : e = Answered i saved → writes_of s' = (question s, delete i (in_flight s), sent s) → writes_step e s s'.

Lemma assignment_ok r f : nonempty (a_party f) = true → nonempty (a_validFrom f) = true → write_ok (assignment r f).
Proof.
  rewrite !nonempty_true. intros Hp Hd. cbn. split; [done|]. split; [done|]. split; [by destruct r; split; try done; intros [? ?]|].
  destruct r; try done. intros [= H]. by apply (null_if_empty_ok (a_building f)).
Qed.

Lemma submitForm_writes r s : busy s = false → writes_step (SubmitForm r) s (submitForm r s).
Proof.
  intros Hb. unfold submitForm. destruct (forms s r) as [f|]; [|by apply writes_same].
  destruct (nonempty (a_party f)) eqn:Ep; cbn [negb]; [|by apply writes_same].
  destruct (nonempty (a_validFrom f)) eqn:Ed; cbn [negb]; [|by apply writes_same].
  pose proof (assignment_ok r f Ep Ed) as Hok. destruct r.
  - by eapply writes_asked; [|exact Hok|].
  - by eapply writes_asked; [|exact Hok|].
  - eapply writes_sent; [|exact Hok|done]. split; [done|]. right. auto.
Qed.

Lemma on_success_writes w id s : writes_of (on_success w id s) = writes_of s.
Proof. destruct w; cbn; [|done..]. by destruct (pickAfterCreate (contact s)). Qed.

Lemma handle_writes e s : offered canManage e s = true → writes_step e s (handle today e s).
Proof.
  destruct e as [| | | | | | | | | | | |row|iso| | |row b|b| | |yes|i saved]; intros Ho; try (by apply writes_same).
  - cbn in Ho. bool_facts. cbn [handle]. unfold submitContact. destruct (contact_submit _) as [?|input] eqn:E; [by apply writes_same|].
    apply contact_submit_valid in E. apply (writes_sent _ _ _ (SaveParty (party_id <$> editingParty (contact s)) input)); [|exact E|done].
    split; [done|]. by left.
  - cbn in Ho. bool_facts. by apply submitForm_writes.
  - cbn in *. destruct (ending s) as [[row day]|]; [|done]. bool_facts. eapply (writes_asked _ _ _ (EndRole row day)); [done| |done].
    by apply nonempty_true.
  - cbn in *. bool_facts. destruct (settingBuilding s) as [[row b]|]; [|by apply writes_same].
    eapply (writes_sent _ _ _ (SetRoleBuilding row _)); [|apply (null_if_empty_ok b)|done]. split; [done|]. right. auto.
  - cbn [handle]. unfold settle_question. destruct (question s) as [w|] eqn:E; [|by apply writes_same].
    destruct yes; [by eapply writes_confirmed|by apply writes_refused].
  - cbn [handle]. unfold request_ended. destruct (in_flight s !! i); [|by apply writes_same].
    eapply (writes_answered _ _ _ i saved); [done|]. destruct saved; [by rewrite on_success_writes|done].
Qed.

Record section_inv (s : section) : Prop := {
  inv_writes : ∀ w, w ∈ in_flight s ∨ w ∈ sent s ∨ question s = Some w → write_ok w;
  inv_question : ∀ w, question s = Some w → asked_first w = true;
  inv_contacts : (length (bfilter is_contact (in_flight s)) <= 1)%nat;
  inv_mounts : ∀ r f, forms s r = Some f → (form_no f < mounts s)%nat;
  inv_forms : ∀ r r' f f', forms s r = Some f → forms s r' = Some f' → form_no f = form_no f' → r = r';
}.

Lemma not_pending s : contact_pending s = false → bfilter is_contact (in_flight s) = [].
Proof. unfold contact_pending. intros H. apply bfilter_nil. intros w Hw. destruct (is_contact w) eqn:E; [|done].
  assert (existsb is_contact (in_flight s) = true) by (apply existsb_elem; by exists w). congruence. Qed.

(** What one event does to an open form. *)
Inductive assign_form_step (e : section_event) (s s' : section) (r : PartyRoleName) (f : assign_form) : Prop :=
  | form_same : forms s' r = Some f → assign_form_step e s s' r f
  | form_typed f' :
      (∃ x, e = PickParty r x ∧ f' = setParty x f ∨ e = SetDay r x ∧ f' = setValidFrom x f ∨
            e = SetBuilding x ∧ r = RoleLandowner ∧ f' = setFormBuilding x f) →
      forms s' r = Some f' → assign_form_step e s s' r f
  | form_missing : e = SubmitForm r → a_party f = "" → forms s' r = Some (showError f) → assign_form_step e s s' r f
  | form_cancelled : e = CancelForm r → forms s' r = None → assign_form_step e s s' r f
  | form_saved i id p day b : e = Answered i (Some id) → in_flight s !! i = Some (Assign r p day b) → forms s' r = None → assign_form_step e s s' r f
  | form_picked i id pid input : e = Answered i (Some id) → in_flight s !! i = Some (SaveParty pid input) →
      pickAfterCreate (contact s) = Some (form_no f) → forms s' r = Some (setParty id f) → assign_form_step e s s' r f.

Lemma forms_set_form r f s r' : forms (set_form r f s) r' = if bool_decide (r' = r) then f else forms s r'.
Proof. done. Qed.

Lemma forms_edit r g s r' : forms (edit_form r g s) r' = if bool_decide (r' = r) then g <$> forms s r else forms s r'.
Proof. done. Qed.

Lemma forms_pick n id s r : forms (pick_in n id s) r = (λ f, if (form_no f =? n)%nat then setParty id f else f) <$> forms s r.
Proof. cbn. by destruct (forms s r). Qed.

Lemma handle_form e s r f : offered canManage e s = true → forms s r = Some f → assign_form_step e s (handle today e s) r f.
Proof.
  intros Ho Hf.
  destruct e as [| | | | | |r'|r' x|r' x|x|r'|r'| | | | | | | | |yes|i saved]; try (by apply form_same); cbn [handle].
  - unfold submitContact. destruct (contact_submit _); by apply form_same.
  - apply form_same. cbn in *. bool_facts. destruct (bool_decide (r = r')) eqn:E; [|done].
    apply bool_decide_eq_true in E as <-. rewrite Hf in *. done.
  - destruct (decide (r = r')) as [<-|Hne].
    + eapply form_typed; [exists x; by left|]. by rewrite forms_edit, bool_decide_true, Hf.
    + apply form_same. by rewrite forms_edit, bool_decide_false.
  - destruct (decide (r = r')) as [<-|Hne].
    + eapply form_typed; [exists x; by right; left|]. by rewrite forms_edit, bool_decide_true, Hf.
    + apply form_same. by rewrite forms_edit, bool_decide_false.
  - destruct (decide (r = RoleLandowner)) as [->|Hne].
    + eapply form_typed; [exists x; by right; right|]. by rewrite forms_edit, bool_decide_true, Hf.
    + apply form_same. by rewrite forms_edit, bool_decide_false.
  - destruct (decide (r = r')) as [<-|Hne].
    + apply form_cancelled; [done|]. by rewrite forms_set_form, bool_decide_true.
    + apply form_same. by rewrite forms_set_form, bool_decide_false.
  - unfold submitForm. destruct (forms s r') as [f'|] eqn:Hf'; [|by apply form_same].
    destruct (nonempty (a_party f')) eqn:Ep; cbn [negb].
    + destruct (nonempty (a_validFrom f')); cbn [negb]; [|by apply form_same]. destruct r'; by apply form_same.
    + apply nonempty_false in Ep. destruct (decide (r = r')) as [<-|Hne].
      * apply form_missing; [done|congruence|]. rewrite forms_edit, bool_decide_true by done. by rewrite Hf.
      * apply form_same. by rewrite forms_edit, bool_decide_false.
  - destruct (ending s) as [[? ?]|]; by apply form_same.
  - destruct (settingBuilding s) as [[? ?]|]; by apply form_same.
  - unfold settle_question. destruct (question s); [|by apply form_same]. destruct yes; by apply form_same.
  - unfold request_ended. destruct (in_flight s !! i) as [w|] eqn:Hw; [|by apply form_same]. destruct saved as [id|]; [|by apply form_same].
    destruct w as [pid input|r' p day b|?|?]; try (by apply form_same); cbn [on_success].
    + cbn [with_writes contact]. destruct (pickAfterCreate (contact s)) as [n|] eqn:Hn; [|by apply form_same].
      destruct (form_no f =? n)%nat eqn:En.
      * bool_facts. subst n. eapply form_picked; [done|exact Hw|done|].
        change (forms (pick_in (form_no f) id (with_writes (question s) (delete i (in_flight s)) (sent s) s)) r = Some (setParty id f)).
        rewrite forms_pick. cbn [with_writes forms]. rewrite Hf. cbn. by rewrite Nat.eqb_refl.
      * apply form_same. change (forms (pick_in n id (with_writes (question s) (delete i (in_flight s)) (sent s) s)) r = Some f).
        rewrite forms_pick. cbn [with_writes forms]. rewrite Hf. cbn. by rewrite En.
    + destruct (decide (r = r')) as [<-|Hne].
      * eapply form_saved; [done|exact Hw|]. by rewrite forms_set_form, bool_decide_true.
      * apply form_same. by rewrite forms_set_form, bool_decide_false.
Qed.

Lemma forms_edit_none r g s r' : forms s r' = None → forms (edit_form r g s) r' = None.
Proof. rewrite forms_edit. destruct (bool_decide (r' = r)) eqn:E; [|done]. apply bool_decide_eq_true in E as ->. by intros ->. Qed.

Lemma handle_no_form e s r : forms s r = None → forms (handle today e s) r = None ∨ e = OpenForm r.
Proof.
  intros Hf. destruct e as [| | | | | |r'|r' x|r' x|x|r'|r'| | | | | | | | |yes|i saved]; try (by left); cbn [handle].
  - left. unfold submitContact. by destruct (contact_submit _).
  - destruct (decide (r = r')) as [->|Hne]; [by right|left]. cbn. by rewrite bool_decide_false.
  - left. by apply forms_edit_none.
  - left. by apply forms_edit_none.
  - left. by apply forms_edit_none.
  - left. rewrite forms_set_form. by destruct (bool_decide _).
  - left. unfold submitForm. destruct (forms s r'); [|done]. destruct (negb _); [by apply forms_edit_none|]. destruct (negb _); [done|].
    by destruct r'.
  - left. by destruct (ending s) as [[? ?]|].
  - left. by destruct (settingBuilding s) as [[? ?]|].
  - left. unfold settle_question. destruct (question s); [|done]. by destruct yes.
  - left. unfold request_ended. destruct (in_flight s !! i) as [w|]; [|done]. destruct saved as [id|]; [|done].
    destruct w as [pid input|r' p day b|?|?]; try done; cbn [on_success].
    + destruct (pickAfterCreate _) as [n|]; [|done].
      change (forms (pick_in n id (with_writes (question s) (delete i (in_flight s)) (sent s) s)) r = None). rewrite forms_pick. cbn. by rewrite Hf.
    + rewrite forms_set_form. by destruct (bool_decide _).
Qed.

Lemma mounts_handle e s : mounts (handle today e s) = match e with OpenForm _ => S (mounts s) | _ => mounts s end.
Proof.
  destruct e as [| | | | | |r'|r' x|r' x|x|r'|r'| | | | | | | | |yes|i saved]; try done; cbn [handle].
  - unfold submitContact. by destruct (contact_submit _).
  - unfold submitForm. destruct (forms s r'); [|done]. destruct (negb _); [done|]. destruct (negb _); [done|]. by destruct r'.
  - by destruct (ending s) as [[? ?]|].
  - by destruct (settingBuilding s) as [[? ?]|].
  - unfold settle_question. destruct (question s); [|done]. by destruct yes.
  - unfold request_ended. destruct (in_flight s !! i) as [w|]; [|done]. destruct saved as [id|]; [|done].
    destruct w as [pid input|r' p day b|?|?]; try done; cbn [on_success]. by destruct (pickAfterCreate _).
Qed.

(** A form keeps its number; a new one has the next. *)
Lemma handle_number e s r f' : offered canManage e s = true → forms (handle today e s) r = Some f' →
  (∃ f, forms s r = Some f ∧ form_no f' = form_no f) ∨ e = OpenForm r ∧ form_no f' = mounts s.
Proof.
  intros Ho Hf'. destruct (forms s r) as [f|] eqn:Hf.
  - left. exists f. split; [done|].
    destruct (handle_form e s r f Ho Hf) as [E|g Hg E|_ _ E|_ E|i id p day b _ _ E|i id pid input _ _ _ E]; rewrite E in Hf'; simplify_eq; try done.
    by destruct Hg as (x & [[_ ->]|[[_ ->]|(_ & _ & ->)]]).
  - destruct (handle_no_form e s r Hf) as [E|E]; [congruence|]. right. split; [done|]. subst e. cbn in Hf'. rewrite bool_decide_true in Hf' by done.
    by simplify_eq.
Qed.

Lemma section_inv_init : section_inv section_init.
Proof. split; cbn; [|done|lia|done|done]. intros w [H|[H|H]]; [by apply elem_of_nil in H..|done]. Qed.

Lemma writes_step_inv e s s' : section_inv s → writes_step e s s' →
  (∀ w, w ∈ in_flight s' ∨ w ∈ sent s' ∨ question s' = Some w → write_ok w) ∧ (∀ w, question s' = Some w → asked_first w = true) ∧
  (length (bfilter is_contact (in_flight s')) <= 1)%nat.
Proof.
  intros [Hw Hq Hc _ _] Hstep.
  destruct Hstep as [E|w Hs Hok E|w Ha Hok E|w _ Hqw E|_ E|i saved _ E]; injection E as Eq Ef Es; rewrite Eq, Ef, Es.
  - done.
  - split; [|split; [done|]].
    + intros x. rewrite !elem_of_app, !list_elem_of_singleton. intros [[?| ->]|[[?| ->]|?]]; auto.
    + rewrite bfilter_snoc, length_app. destruct Hs as (_ & [(_ & -> & Hp)|(_ & -> & _)]); cbn; [rewrite (not_pending _ Hp); cbn|]; lia.
  - split; [|split; [|done]]; [|by intros x [= <-]]. intros x [?|[?|[= <-]]]; auto.
  - split; [|split; [done|]].
    + intros x. rewrite !elem_of_app, !list_elem_of_singleton. intros [[?| ->]|[[?| ->]|?]]; auto; done.
    + rewrite bfilter_snoc, length_app. pose proof (Hq w Hqw) as Hw1. destruct w; try done; cbn; lia.
  - split; [|split; [done|done]]. intros x [?|[?|?]]; auto; done.
  - split; [|split; [done|]].
    + intros x [?%delete_sublist|[?|?]]; auto.
    + pose proof (length_bfilter_delete is_contact i (in_flight s)). lia.
Qed.

Lemma writes_step_new e s s' : section_inv s → writes_step e s s' →
  ∃ l, sent s' = (sent s ++ l)%list ∧ ∀ w, w ∈ l → asked_first w = true ∧ e = AnswerQuestion true ∧ question s = Some w ∨ sends_at_once e s w.
Proof.
  intros Hinv Hstep.
  destruct Hstep as [E|w Hs Hok E|w Ha Hok E|w He Hqw E|He E|i saved He E]; injection E as _ _ ->;
    try (exists []; split; [by rewrite app_nil_r|by intros x ?%elem_of_nil]).
  - exists [w]. split; [done|]. intros x ->%list_elem_of_singleton. by right.
  - exists [w]. split; [done|]. intros x ->%list_elem_of_singleton. left. split; [|done]. by apply (inv_question _ Hinv).
Qed.

Lemma section_step_inv e s : section_inv s → offered canManage e s = true → section_inv (handle today e s).
Proof.
  intros Hinv Ho. destruct (writes_step_inv e s _ Hinv (handle_writes e s Ho)) as (Hw' & Hq' & Hc'). destruct Hinv as [_ _ _ Hm Hf].
  split; [exact Hw'|exact Hq'|exact Hc'| |].
  - intros r f' E. rewrite mounts_handle. destruct (handle_number e s r f' Ho E) as [(f & Hfs & ->)|[-> ->]]; [|lia].
    specialize (Hm r f Hfs). destruct e; lia.
  - intros r r' g g' E E' Hno. destruct (handle_number e s r g Ho E) as [(f & Hfs & Ef)|[He Ef]], (handle_number e s r' g' Ho E') as [(f' & Hfs' & Ef')|[He' Ef']].
    + apply (Hf r r' f f'); congruence.
    + pose proof (Hm r f Hfs). lia.
    + pose proof (Hm r' f' Hfs'). lia.
    + congruence.
Qed.

Lemma section_reachable_inv s : section_reachable today canManage s → section_inv s.
Proof. induction 1; [apply section_inv_init|by apply section_step_inv]. Qed.
End SectionLaws.

(** ** Requests and forms *)

(** C33. Who may only read leaves the section as it is. Otherwise whatever is sent is complete: a
    contact with its name, a role with its holder and its day, a building for landowners
    only. A change of a managing role and the end of a landowner are sent only by the answer
    to their question, everything else by its own click while nothing of its kind runs; at
    most one contact is being saved. *)
Theorem section_writes_sound today canManage s e :
  section_reachable today canManage s → offered canManage e s = true →
  canManage = true ∧ (∀ w, w ∈ sent (handle today e s) → write_ok w) ∧ (length (bfilter is_contact (in_flight (handle today e s))) <= 1)%nat ∧
  ∃ l, sent (handle today e s) = (sent s ++ l)%list ∧
    ∀ w, w ∈ l → asked_first w = true ∧ e = AnswerQuestion true ∧ question s = Some w ∨ sends_at_once e s w.
Proof.
  intros Hr Ho. assert (canManage = true) as ->.
  { destruct canManage; [done|]. assert (s = section_init) as ->; [|by destruct e].
    clear Ho e. induction Hr as [|s e _ -> Ho]; [done|by destruct e]. }
  split; [done|]. pose proof (section_reachable_inv _ _ _ Hr) as Hinv. pose proof (section_step_inv today _ _ _ Hinv Ho) as [Hw _ Hc _ _].
  split; [by auto|]. split; [done|]. by apply (writes_step_new _ _ _ Hinv), (handle_writes today true).
Qed.

(** What was entered in a form of a role stays until it is cancelled or an assignment of
    that role succeeded: apart from these a form changes only by its own fields, by the
    error of an empty picker, and by the contact created for it, which no other form
    receives. *)
Theorem assign_form_kept today canManage s e r f :
  section_reachable today canManage s → offered canManage e s = true → forms s r = Some f →
  assign_form_step e s (handle today e s) r f ∧ ∀ r' f', forms s r' = Some f' → form_no f' = form_no f → r' = r.
Proof.
  intros Hr Ho Hf. split; [by apply (handle_form today canManage)|]. intros r' f' Hf' En.
  by apply (inv_forms _ (section_reachable_inv _ _ _ Hr) r' r f' f).
Qed.

(** ** Answers that come late *)

Fixpoint play (today : string) (canManage : bool) (es : list section_event) (s : section) : option section :=
  match es with
  | [] => Some s
  | e :: es => if offered canManage e s then play today canManage es (handle today e s) else None
  end.

Lemma play_reachable today canManage es s s' :
  section_reachable today canManage s → play today canManage es s = Some s' → section_reachable today canManage s'.
Proof.
  revert s. induction es as [|e es IH]; intros s Hr; cbn [play]; [by intros [= <-]|].
  destruct (offered canManage e s) eqn:E; [|done]. apply IH. by constructor.
Qed.

(** A contact is created for the issuer's form and its dialog closed before the answer; the
    answer then closes the dialog opened meanwhile for the representative's form and picks
    the contact there. *)
Lemma late_contact_goes_to_other_form :
  ∃ s, play "2026-01-01" true
         [OpenForm RoleIssuer; OpenForm RoleRepresentative; NewContactFor RoleIssuer;
          TypeContact (λ v, {| kind := KindPerson; title := ""; first_name := ""; last_name := "Keller"; organisation_name := "";
            name_addition := ""; email := ""; phone := ""; address_line1 := ""; address_line2 := ""; postal_code := ""; city := ""; notes := "" |});
          SubmitContact; CloseContact; NewContactFor RoleRepresentative] section_init = Some s ∧
    partyModalOpen (contact s) = true ∧ partyModalOpen (contact (handle "2026-01-01" (Answered 0 (Some "keller")) s)) = false ∧
    a_party <$> forms (handle "2026-01-01" (Answered 0 (Some "keller")) s) RoleIssuer = Some "" ∧
    a_party <$> forms (handle "2026-01-01" (Answered 0 (Some "keller")) s) RoleRepresentative = Some "keller".
Proof. eexists. split; [reflexivity|]. repeat split. Qed.

(** An assignment is sent, its form cancelled and another opened: the answer closes that one. *)
Lemma late_assignment_closes_new_form :
  ∃ s, play "2026-01-01" true
         [OpenForm RoleLandowner; PickParty RoleLandowner "anna"; SubmitForm RoleLandowner; CancelForm RoleLandowner;
          OpenForm RoleLandowner; PickParty RoleLandowner "beat"] section_init = Some s ∧
    a_party <$> forms s RoleLandowner = Some "beat" ∧ forms (handle "2026-01-01" (Answered 0 (Some "row")) s) RoleLandowner = None.
Proof. eexists. split; [reflexivity|]. by split. Qed.

(** ** Witnesses *)

Definition sample_row (id from : string) (to : option string) : ZevPartyRole :=
  {| row_id := id; row_zev := "z"; row_party := id; party_display_name := id; role := RoleIssuer; valid_from := from; valid_to := to;
     building := None; building_name := None |}.

Definition sample_party (id : string) (parts : list (string * string * option string)) (logins : list Z) : Party :=
  {| party_id := id; party_zev := "z"; party_fields := EMPTY; display_name := id; participations := parts; party_roles := [];
     accounts := map (λ n, {| account_id := n; account_email := "a@b.ch"; account_full_name := ""; account_active := true |}) logins;
     party_created_at := ""; party_updated_at := "" |}.

Definition sample_grant (n : Z) : ZevAccessGrant :=
  {| grant_id := "g"; grant_role := AccessViewer; grant_from := "2025-01-01"; grant_to := None; grant_active := true;
     grant_of := {| user_id := n; user_email := "a@b.ch"; user_first_name := ""; user_last_name := ""; pending_invitation := false |}; source := None |}.

Lemma role_rows_shown_witness :
  landowners byte_order "2026-01-01" [sample_row "a" "2025-01-01" (Some "2025-06-30"); sample_row "b" "2025-07-01" None]
  = [sample_row "b" "2025-07-01" None] ∧
  StronglySorted (λ a b, str_le (valid_from b) (valid_from a) = true)
    (past byte_order "2026-01-01" [sample_row "a" "2025-01-01" (Some "2025-06-30"); sample_row "b" "2025-07-01" None]).
Proof.
  split; [reflexivity|].
  apply (role_rows_shown byte_order "2026-01-01" [sample_row "a" "2025-01-01" (Some "2025-06-30"); sample_row "b" "2025-07-01" None]).
  - intros a b _ _. apply byte_order_le.
  - intros row [->|[->|?%elem_of_nil]%elem_of_cons]%elem_of_cons; done.
  - intros a b [->|[->|?%elem_of_nil]%elem_of_cons]%elem_of_cons [->|[->|?%elem_of_nil]%elem_of_cons]%elem_of_cons; done.
Defined.

Lemma logins_shown_once_witness :
  bareLogins [sample_party "p" [("x", "2025-01-01", None)] [1%Z]] [] [sample_grant 1; sample_grant 2; sample_grant 2] "2026-01-01" = [sample_grant 2] ∧
  NoDup (login_of <$> bareLogins [sample_party "p" [("x", "2025-01-01", None)] [1%Z]] [] [sample_grant 1; sample_grant 2; sample_grant 2] "2026-01-01").
Proof.
  split; [reflexivity|].
  apply (logins_shown_once [sample_party "p" [("x", "2025-01-01", None)] [1%Z]] [] [sample_grant 1; sample_grant 2; sample_grant 2] "2026-01-01").
  apply NoDup_singleton.
Defined.

(** The question of a change of the issuer, confirmed. *)
Definition sample_section : section :=
  default section_init (play "2026-01-01" true [OpenForm RoleIssuer; PickParty RoleIssuer "anna"; SubmitForm RoleIssuer] section_init).

Lemma sample_section_reachable : section_reachable "2026-01-01" true sample_section.
Proof. apply (play_reachable "2026-01-01" true [OpenForm RoleIssuer; PickParty RoleIssuer "anna"; SubmitForm RoleIssuer] section_init); [constructor|reflexivity]. Qed.

Lemma section_writes_sound_witness :
  sent (handle "2026-01-01" (AnswerQuestion true) sample_section) = [Assign RoleIssuer "anna" "2026-01-01" None] ∧
  (∀ w, w ∈ sent (handle "2026-01-01" (AnswerQuestion true) sample_section) → write_ok w).
Proof.
  split; [reflexivity|].
  apply (section_writes_sound "2026-01-01" true sample_section (AnswerQuestion true)); [apply sample_section_reachable|reflexivity].
Defined.

Lemma assign_form_kept_witness :
  assign_form_step (AnswerQuestion true) sample_section (handle "2026-01-01" (AnswerQuestion true) sample_section) RoleIssuer
    {| form_no := 0; a_party := "anna"; a_validFrom := "2026-01-01"; a_building := ""; a_error := false |}.
Proof.
  apply (assign_form_kept "2026-01-01" true sample_section (AnswerQuestion true) RoleIssuer);
    [apply sample_section_reachable|reflexivity|reflexivity].
Defined.
