(* ===== verification/InvoicesPage.v ===== *)
(** The invoices of a billing period: frontend/src/pages/InvoicesPage.tsx with the mutations of
    features/invoices/useInvoiceActions.tsx and the watch of pdfWatch.ts. The sends and the
    watch on their delivery are InvoiceActions.v's machine, of which a page here has one; the
    actions on offer are those of that file, with the flags read off the running requests.

    One event is a click on what the committed render offers, an answer, the rows of a
    refetch, the passing of time, or a change of what is looked at. An answer runs the
    callbacks of the latest render, as the query library does while a mutation is pending.
    The values of the payment form and the texts of notices are not modelled. *)

From S2P Require Import Prelude JsString JsNumber Json QueryKeys InvoiceTypes Invoices Access BillingPeriod InvoiceActions.
Local Open Scope string_scope.

(** ** Data *)

(** What the page looks at: account, community and period, and what the account may do. *)
Record page_view := {
  v_account : option Z; v_admin : bool; v_zev : string; v_managed : bool; v_writable : bool; v_interval : BillingInterval;
  v_from : string; v_to : string;
}.

(** The mutations but the sends. [GenerateAll] carries the participants that were eligible. *)
Inductive job :=
  | Generate (participant : string) | Pdf (invoice : string) | Approve (invoice : string) | Remove (invoice : string)
  | MarkSent (invoice : string) | MarkPaid (invoice : string) | RecordPayment (invoice : string)
  | GenerateAll (participants : list string) | ApproveAll | GenerateAllPdfs | DownloadAll.

Record job_request := { job_of : job; made_in : page_view; made_scope : nat }.

Inductive failure := DynamicPriceGap | InvalidDynamicTariff | OtherFailure.

(** What a page does to the cache, the notices and the disk. *)
Inductive billing_effect := Refreshed (k : QueryKeys.key) | Said (message : string) | Downloaded (file : string).

#[export] Instance view_eq_dec : EqDecision page_view.
Proof. solve_decision. Defined.
#[export] Instance PdfWatch_eq_dec : EqDecision PdfWatch.
Proof. solve_decision. Defined.

Record billing_page := {
  sends : InvoiceActions.page; here : page_view; running : list job_request; pdf : PdfWatchState;
  deleteModalInvoiceId : option string; recordPaymentInvoiceId : option string; rowFilter : option InvoiceRowFilter;
  done : list billing_effect;
}.

Definition with_dialogs (d r : option string) (p : billing_page) : billing_page :=
  {| sends := sends p; here := here p; running := running p; pdf := pdf p; deleteModalInvoiceId := d; recordPaymentInvoiceId := r;
     rowFilter := rowFilter p; done := done p |}.
Definition with_filter (f : option InvoiceRowFilter) (p : billing_page) : billing_page :=
  {| sends := sends p; here := here p; running := running p; pdf := pdf p; deleteModalInvoiceId := deleteModalInvoiceId p;
     recordPaymentInvoiceId := recordPaymentInvoiceId p; rowFilter := f; done := done p |}.
Definition with_pdf (w : PdfWatchState) (p : billing_page) : billing_page :=
  {| sends := sends p; here := here p; running := running p; pdf := w; deleteModalInvoiceId := deleteModalInvoiceId p;
     recordPaymentInvoiceId := recordPaymentInvoiceId p; rowFilter := rowFilter p; done := done p |}.
Definition act (e : InvoiceActions.event) (p : billing_page) : billing_page :=
  {| sends := InvoiceActions.handle e (sends p); here := here p; running := running p; pdf := pdf p;
     deleteModalInvoiceId := deleteModalInvoiceId p; recordPaymentInvoiceId := recordPaymentInvoiceId p; rowFilter := rowFilter p; done := done p |}.
Definition report (l : list billing_effect) (p : billing_page) : billing_page :=
  {| sends := sends p; here := here p; running := running p; pdf := pdf p; deleteModalInvoiceId := deleteModalInvoiceId p;
     recordPaymentInvoiceId := recordPaymentInvoiceId p; rowFilter := rowFilter p; done := (done p ++ l)%list |}.

(** ** Running requests *)

Definition is_other_batch (j : job) : bool :=
  match j with GenerateAll _ | ApproveAll | GenerateAllPdfs | DownloadAll => true | _ => false end.
Definition is_payment (j : job) : bool := match j with MarkPaid _ | RecordPayment _ => true | _ => false end.
Definition generated_participant (j : job) : option string := match j with Generate id => Some id | _ => None end.
Definition pdf_invoice (j : job) : option string := match j with Pdf id => Some id | _ => None end.

Definition jobs (p : billing_page) : list job := map job_of (running p).

(** [isPending] of the mutations. *)
Definition flags (p : billing_page) : mutations :=
  {| generate_pending := head (omap generated_participant (jobs p));
     generate_all_pending := existsb (λ j, match j with GenerateAll _ => true | _ => false end) (jobs p);
     pdf_pending := head (omap pdf_invoice (jobs p));
     approve_pending := existsb (λ j, match j with Approve _ => true | _ => false end) (jobs p);
     mark_sent_pending := existsb (λ j, match j with MarkSent _ => true | _ => false end) (jobs p);
     payment_pending := existsb is_payment (jobs p);
     delete_pending := existsb (λ j, match j with Remove _ => true | _ => false end) (jobs p);
     InvoiceActions.generationParticipantIds := default [] (pdfWatch (pdf p) ≫= Invoices.generationParticipantIds) |}.

Definition with_running (l : list job_request) (p : billing_page) : billing_page :=
  act (OtherBatch (existsb is_other_batch (map job_of l)))
    {| sends := sends p; here := here p; running := l; pdf := pdf p; deleteModalInvoiceId := deleteModalInvoiceId p;
       recordPaymentInvoiceId := recordPaymentInvoiceId p; rowFilter := rowFilter p; done := done p |}.

Definition submit (j : job) (p : billing_page) : billing_page :=
  with_running (running p ++ [{| job_of := j; made_in := here p; made_scope := scope (sends p) |}]) p.

(** ** What the page offers *)

Definition READ_ONLY_ROW_ITEMS : list string := ["review-conflict"; "open-pdf"].
Definition GENERATING_ITEMS : list string := ["generate"; "generate-again"; "generate-all"].

Definition wholePeriod (v : page_view) : bool :=
  negb (nonempty (v_from v)) || isBillingAlignedPeriod (v_from v) (v_to v) (v_interval v).

Definition offered (v : page_view) (item : Action) : bool :=
  (v_writable v || existsb (String.eqb (key item)) READ_ONLY_ROW_ITEMS)
  && (wholePeriod v || negb (existsb (String.eqb (key item)) GENERATING_ITEMS)).

Definition visibleRows (p : billing_page) : list InvoicePeriodParticipantRow :=
  filterInvoiceRows (rows (sends p)) (rowFilter p) (getRowWork (sends p) (flags p)).

(** The actions of a row, the primary one first. *)
Definition rowItems (p : billing_page) (row : InvoicePeriodParticipantRow) : list Action :=
  bfilter (offered (here p)) (row_actions (sends p) (flags p) (v_admin (here p)) row).

(** The recommended action is the first of the menu's. *)
Definition batchItems (p : billing_page) : list Action :=
  if v_managed (here p) && negb (bool_decide (rows (sends p) = []))
  then bfilter (offered (here p)) (batchMenuItems (sends p) (flags p) (wholePeriod (here p))) else [].

Definition offers_download (p : billing_page) : bool :=
  v_managed (here p) && (0 <? count_pdfs (invoiceRowCounts (rows (sends p)) (getRowWork (sends p) (flags p))))%nat
  && negb (anyBatchPending (sends p)).

Definition enabled (k : string) (items : list Action) : bool := existsb (λ a, String.eqb (key a) k && negb (disabled a)) items.

(** ** Clicks *)

Definition row_invoice_is (row : InvoicePeriodParticipantRow) (f : string → billing_page → billing_page) (p : billing_page) : billing_page :=
  match invoice row with Some i => f (invoice_id i) p | None => p end.

(** What the handlers of a row's actions do; a conflict is navigated to and a PDF opened, which
    changes nothing here. *)
Definition perform_row (k : string) (row : InvoicePeriodParticipantRow) (p : billing_page) : billing_page :=
  if existsb (String.eqb k) ["generate"; "generate-again"] then submit (Generate (participant_id row)) p
  else if String.eqb k "approve" then row_invoice_is row (λ i, submit (Approve i)) p
  else if existsb (String.eqb k) ["send-email"; "resend-email"] then row_invoice_is row (λ i, act (ClickSend i)) p
  else if String.eqb k "mark-paid" then row_invoice_is row (λ i, submit (MarkPaid i)) p
  else if String.eqb k "mark-sent" then row_invoice_is row (λ i, submit (MarkSent i)) p
  else if String.eqb k "record-payment" then row_invoice_is row (λ i p, with_dialogs (deleteModalInvoiceId p) (Some i) p) p
  else if String.eqb k "delete" then row_invoice_is row (λ i p, with_dialogs (Some i) (recordPaymentInvoiceId p) p) p
  else if existsb (String.eqb k) ["generate-pdf"; "regenerate-pdf"] then row_invoice_is row (λ i, submit (Pdf i)) p
  else p.

Definition clickRow (n : nat) (k : string) (p : billing_page) : billing_page :=
  match visibleRows p !! n with
  | Some row => if enabled k (rowItems p row) then perform_row k row p else p
  | None => p
  end.

Definition perform_batch (k : string) (p : billing_page) : billing_page :=
  if String.eqb k "generate-all" then submit (GenerateAll (map participant_id (bfilter is_eligible (rows (sends p))))) p
  else if String.eqb k "approve-all" then submit ApproveAll p
  else if String.eqb k "send-all" then act ClickSendAll p
  else if String.eqb k "generate-all-pdfs" then submit GenerateAllPdfs p
  else p.

Definition clickBatch (k : string) (p : billing_page) : billing_page := if enabled k (batchItems p) then perform_batch k p else p.
Definition clickDownload (p : billing_page) : billing_page := if offers_download p then submit DownloadAll p else p.

(** The button of the delete dialog is off while a deletion runs. *)
Definition confirmDelete (p : billing_page) : billing_page :=
  match deleteModalInvoiceId p with
  | Some id => if delete_pending (flags p) then p else submit (Remove id) p
  | None => p
  end.

(** The invoice of the payment dialog, while it is still listed. *)
Definition recordPaymentInvoice (p : billing_page) : option Invoice :=
  recordPaymentInvoiceId p ≫= row_of (rows (sends p)).

(** [recordRowPayment]: the request is refused unless its scope may be written. *)
Definition recordRowPayment (id : string) (p : billing_page) : billing_page :=
  if payment_pending (flags p) then p
  else if v_writable (here p) && nonempty (v_zev (here p)) then submit (RecordPayment id) p
  else report [Said "pages.invoiceDetail.payments.recordFailed"] p.

Definition submitPayment (p : billing_page) : billing_page :=
  match recordPaymentInvoice p with Some i => recordRowPayment (invoice_id i) p | None => p end.

(** ** Answers *)

Definition overview_key (v : page_view) : QueryKeys.key :=
  if nonempty (v_zev v) then invoice_key (InvoicePeriodOverview (v_zev v) (v_from v) (v_to v)) else strs ["invoices"; "period-overview"].
Definition invalidateInvoicesList : list QueryKeys.key := [invoice_lists; invoice_key InvoicesMine].
Definition invalidateCockpit (zev : string) : list QueryKeys.key :=
  [invoice_key (InvoiceReadiness (Some zev)); invoice_key (InvoiceReadinessList (Some zev)); invoice_key (InvoiceAttention (Some zev))].
Definition refreshRelated (zev : string) : list QueryKeys.key := (invalidateInvoicesList ++ invalidateCockpit zev)%list.

Definition still_current (r : job_request) (p : billing_page) : bool := (made_scope r =? scope (sends p))%nat.

(** The keys an accepted request invalidates, at the view shown when it is answered. *)
Definition refreshed (r : job_request) (current : bool) (shown : page_view) : list QueryKeys.key :=
  match job_of r with
  | Generate _ => overview_key (made_in r) :: if current then refreshRelated (v_zev shown) else []
  | Pdf _ => [overview_key shown]
  | Approve _ | Remove _ | MarkSent _ | MarkPaid _ | ApproveAll => overview_key shown :: refreshRelated (v_zev shown)
  | RecordPayment _ => overview_key (made_in r) :: refreshRelated (v_zev (made_in r))
  | GenerateAll _ => (overview_key (made_in r) :: invalidateInvoicesList ++ if current then invalidateCockpit (v_zev shown) else [])%list
  | GenerateAllPdfs => [overview_key (made_in r)]
  | DownloadAll => []
  end.

Definition said (r : job_request) (current : bool) : list string :=
  match job_of r with
  | Generate _ => if current then ["pages.invoices.messages.generated"] else []
  | Pdf _ => ["pages.invoices.messages.pdfGenerated"]
  | Approve _ => ["pages.invoices.messages.approved"]
  | Remove _ => ["pages.invoices.messages.deleted"]
  | MarkSent _ => ["pages.invoices.markedSent"]
  | MarkPaid _ => ["pages.invoices.messages.markedPaid"]
  | RecordPayment _ => if current then ["pages.invoiceDetail.payments.recorded"] else []
  | ApproveAll => ["pages.invoices.batch.approvedAll"]
  | GenerateAll _ | GenerateAllPdfs | DownloadAll => []
  end.

(** The archive is named by the period shown when it arrives. *)
Definition downloads (r : job_request) (shown : page_view) : list string :=
  match job_of r with DownloadAll => ["invoices-" ++ v_from shown ++ ".zip"] | _ => [] end.

(** [onPdfQueued] of an answer in the scope still shown. *)
Definition queued (r : job_request) : option (list string) :=
  match job_of r with Generate id => Some [id] | GenerateAll ids => Some ids | GenerateAllPdfs => Some [] | _ => None end.

(** The dialog a success closes: the payment dialog only if it still is for that invoice. *)
Definition close_after (r : job_request) (current : bool) (p : billing_page) : billing_page :=
  match job_of r with
  | Remove _ => with_dialogs None (recordPaymentInvoiceId p) p
  | RecordPayment id =>
      if current && bool_decide (recordPaymentInvoiceId p = Some id) then with_dialogs (deleteModalInvoiceId p) None p else p
  | _ => p
  end.

Definition succeeded (r : job_request) (p : billing_page) : billing_page :=
  let current := still_current r p in
  let p := report (map Refreshed (refreshed r current (here p)) ++ map Said (said r current) ++ map Downloaded (downloads r (here p)))%list p in
  let p := match queued r with
           | Some ids => if current then with_pdf (startPdfWatch ids (now (sends p)) (pdf p)) p else p
           | None => p
           end in
  close_after r current p.

(** [showGenerationError]. *)
Definition generation_error (e : failure) (fallback : string) : string :=
  match e with
  | DynamicPriceGap => "pages.invoices.messages.dynamicPriceGap"
  | InvalidDynamicTariff => "pages.invoices.messages.invalidDynamicTariff"
  | OtherFailure => fallback
  end.

Definition failed (r : job_request) (current : bool) (e : failure) : list string :=
  match job_of r with
  | Generate _ => [generation_error e "pages.invoices.messages.generateFailed"]
  | Pdf _ => ["pages.invoices.messages.generatePdfFailed"]
  | Approve _ => ["pages.invoices.messages.approveFailed"]
  | Remove _ => ["pages.invoices.messages.deleteFailed"]
  | MarkSent _ => ["pages.invoices.messages.markSentFailed"]
  | MarkPaid _ => ["pages.invoices.messages.markPaidFailed"]
  | RecordPayment _ => if current then ["pages.invoiceDetail.payments.recordFailed"] else []
  | GenerateAll _ => [generation_error e "pages.invoices.batch.generateAllFailed"]
  | ApproveAll => ["pages.invoices.batch.approveAllFailed"]
  | GenerateAllPdfs => ["pages.invoices.batch.generateAllPdfsFailed"]
  | DownloadAll => ["pages.invoices.batch.downloadFailed"]
  end.

Definition job_answered (i : nat) (error : option failure) (p : billing_page) : billing_page :=
  match running p !! i with
  | None => p
  | Some r =>
      let p := with_running (delete i (running p)) p in
      match error with None => succeeded r p | Some e => report (map Said (failed r (still_current r p) e)) p end
  end.

(** ** What is looked at, and time *)

Definition same_period (v w : page_view) : bool :=
  bool_decide (v_account v = v_account w) && String.eqb (v_zev v) (v_zev w) && String.eqb (v_from v) (v_from w) && String.eqb (v_to v) (v_to w).
Definition same_scope (v w : page_view) : bool := same_period v w && Bool.eqb (v_writable v) (v_writable w).

(** A new view with the rows the cache has for it: the effects reset what belongs to the old
    one. *)
Definition navigated (v : page_view) (r : list InvoicePeriodParticipantRow) (p : billing_page) : billing_page :=
  let kept := same_scope (here p) v in
  let listed := same_period (here p) v in
  {| sends := InvoiceActions.handle (RowsLoaded r) (if kept then sends p else InvoiceActions.handle ScopeChanged (sends p));
     here := v; running := running p; pdf := if listed then pdf p else stopPdfWatch;
     deleteModalInvoiceId := if kept then deleteModalInvoiceId p else None;
     recordPaymentInvoiceId := if kept then recordPaymentInvoiceId p else None; rowFilter := if listed then rowFilter p else None; done := done p |}.

Definition pendingWorkCount (p : billing_page) : nat := countPendingInvoiceWork (rows (sends p)) (pdfWatch (pdf p)).

(** The watch's effect, and its timer once the deadline is reached. *)
Definition end_watch (p : billing_page) : billing_page :=
  with_pdf (if (0 <? pendingWorkCount p)%nat then expirePdfWatch else stopPdfWatch) p.
Definition watch_effect (p : billing_page) : billing_page :=
  match pdfWatch (pdf p) with
  | Some w => if pdfWatchIsFinished w (pendingWorkCount p) (now (sends p)) then end_watch p else p
  | None => p
  end.
Definition watch_timer (p : billing_page) : billing_page :=
  match pdfWatch (pdf p) with Some w => if (until w <=? now (sends p))%Z then end_watch p else p | None => p end.

(** The effect runs when the watch or the pending count changed. *)
Definition committed (old new : billing_page) : billing_page :=
  if bool_decide (pdfWatch (pdf old) = pdfWatch (pdf new)) && (pendingWorkCount old =? pendingWorkCount new)%nat then new else watch_effect new.

Inductive billing_event :=
  | ClickRow (n : nat) (k : string) | ClickBatch (k : string) | ClickDownload | SetFilter (f : option InvoiceRowFilter)
  | CancelDelete | ConfirmDelete | ClosePayment | SubmitPayment
  | JobAnswered (i : nat) (error : option failure) | SendAnswered (ok : bool) | SendAllAnswered (ok : bool) (queued skipped : Z)
  | Loaded (rows : list InvoicePeriodParticipantRow) | Navigated (v : page_view) (rows : list InvoicePeriodParticipantRow) | Passed (t : Z).

Definition react (e : billing_event) (p : billing_page) : billing_page :=
  match e with
  | ClickRow n k => clickRow n k p
  | ClickBatch k => clickBatch k p
  | ClickDownload => clickDownload p
  | SetFilter f => with_filter f p
  | CancelDelete => with_dialogs None (recordPaymentInvoiceId p) p
  | ConfirmDelete => confirmDelete p
  | ClosePayment => with_dialogs (deleteModalInvoiceId p) None p
  | SubmitPayment => submitPayment p
  | JobAnswered i error => job_answered i error p
  | SendAnswered ok => act (EmailAnswered ok) p
  | SendAllAnswered ok q k => act (BatchAnswered ok q k) p
  | Loaded r => act (RowsLoaded r) p
  | Navigated v r => navigated v r p
  | Passed t => watch_timer (act (Tick t) p)
  end.

Definition billing_step (e : billing_event) (p : billing_page) : billing_page := committed p (react e p).

Definition billing_start (t : Z) (v : page_view) (r : list InvoicePeriodParticipantRow) : billing_page :=
  {| sends := InvoiceActions.initial t r; here := v; running := []; pdf := stopPdfWatch; deleteModalInvoiceId := None;
     recordPaymentInvoiceId := None; rowFilter := None; done := [] |}.

(** Rows as the server sends them: an invoice once, and none without a community. *)
Definition rows_for (v : page_view) (r : list InvoicePeriodParticipantRow) : Prop := rows_ok r ∧ (v_zev v = "" → r = []).

Definition possible (e : billing_event) (p : billing_page) : Prop :=
  match e with Loaded r => rows_for (here p) r | Navigated v r => rows_for v r | _ => True end.

Inductive billing_reachable : billing_page → Prop :=
  | billing_started t v r : rows_for v r → billing_reachable (billing_start t v r)
  | billing_next e p : billing_reachable p → possible e p → billing_reachable (billing_step e p).

(** ** What is on offer *)

(** When a row offers an action, and when that action is off. *)
Inductive row_offer (p : InvoiceActions.page) (m : mutations) (is_admin : bool) (row : InvoicePeriodParticipantRow) : Action → Prop :=
  | offer_generate : liveInvoice row = None → eligibility_of row = None ∨ eligibility_of row = Some Eligible →
      row_offer p m is_admin row (action "generate" (generateDisabled p m row))
  | offer_again i : invoice row = Some i → status i = "draft" → row_offer p m is_admin row (action "generate-again" (generateDisabled p m row))
  | offer_approve i : invoice row = Some i → status i = "draft" → row_offer p m is_admin row (action "approve" (approve_pending m))
  | offer_send i k : invoice row = Some i → status i = "approved" ∧ k = "send-email" ∨ status i = "sent" ∧ k = "resend-email" →
      row_offer p m is_admin row (action k (rowSendLocked p (invoice_id i)))
  | offer_paid i : invoice row = Some i → status i = "sent" → row_offer p m is_admin row (action "mark-paid" (payment_pending m))
  | offer_sent i : invoice row = Some i → status i = "approved" → row_offer p m is_admin row (action "mark-sent" (mark_sent_pending m))
  | offer_payment i : invoice row = Some i → canRecordPayment i = true → row_offer p m is_admin row (action "record-payment" (payment_pending m))
  | offer_delete i : invoice row = Some i → hasDeletePermission i is_admin = true → row_offer p m is_admin row (action "delete" (delete_pending m))
  | offer_pdf i k : invoice row = Some i → k = "generate-pdf" ∨ k = "regenerate-pdf" →
      row_offer p m is_admin row (action k (bool_decide (is_Some (pdf_pending m))))
  | offer_view k : k = "review-conflict" ∨ k = "open-pdf" → row_offer p m is_admin row (action k false).

Lemma primary_offer p m is_admin row a : getPrimaryRowAction p m row = Some a → row_offer p m is_admin row a.
Proof.
  unfold getPrimaryRowAction. destruct (liveInvoice row) as [i|] eqn:El.
  - assert (invoice row = Some i) as Hi by (unfold liveInvoice in El; destruct (invoice row) as [x|]; [by destruct (String.eqb _ _); simplify_eq|done]).
    destruct (String.eqb_spec (status i) "draft"); [intros [= <-]; by eapply offer_approve|].
    destruct (String.eqb_spec (status i) "approved"); [intros [= <-]; eapply offer_send; [done|by left]|].
    destruct (String.eqb_spec (status i) "sent"); [intros [= <-]; by eapply offer_paid|done].
  - destruct (bool_decide (eligibility_of row = Some Blocked) && _) eqn:Eb; [intros [= <-]; apply offer_view; by left|].
    destruct (bool_decide (is_Some (eligibility_of row)) && negb (is_eligible row)) eqn:Ee; [done|]. intros [= <-]. apply offer_generate; [done|].
    unfold is_eligible in Ee. destruct (eligibility_of row) as [[]|]; auto; done.
Qed.

Lemma menu_offer p m is_admin row a : a ∈ getRowMenuItems p m is_admin row → row_offer p m is_admin row a.
Proof.
  unfold getRowMenuItems. destruct (invoice row) as [i|] eqn:Hi; [|by intros ?%elem_of_nil].
  rewrite !elem_of_app, !elem_of_action_if, list_elem_of_singleton, !String.eqb_eq.
  intros [[Es ->]|[[Es ->]|[[Ec ->]|[[Ed ->]|[[Eu ->]|[->|[Es ->]]]]]]].
  - destruct (conflict_destination row); [apply offer_view; by left|by eapply offer_again].
  - by eapply offer_sent.
  - by eapply offer_payment.
  - by eapply offer_delete.
  - apply offer_view. by right.
  - eapply offer_pdf; [done|]. destruct (truthy_str (pdf_url i)); [by right|by left].
  - eapply offer_send; [done|by right].
Qed.

Lemma row_items_offer p row a :
  a ∈ rowItems p row → row_offer (sends p) (flags p) (v_admin (here p)) row a ∧ offered (here p) a = true.
Proof.
  unfold rowItems, row_actions. rewrite elem_of_bfilter, elem_of_app. intros [[Ha|Ha] Ho]; split; try done; [|by apply menu_offer].
  apply primary_offer. destruct (getPrimaryRowAction _ _ _); [by apply list_elem_of_singleton in Ha as ->|by apply elem_of_nil in Ha].
Qed.

Lemma enabled_elem k items : enabled k items = true → ∃ a, a ∈ items ∧ key a = k ∧ disabled a = false.
Proof.
  unfold enabled. rewrite existsb_elem. intros (a & Ha & [Hk Hd]%andb_prop). exists a. apply String.eqb_eq in Hk. by rewrite negb_true_iff in Hd.
Qed.

Lemma visible_row p n row : visibleRows p !! n = Some row → row ∈ rows (sends p).
Proof.
  intros E%list_elem_of_lookup_2. unfold visibleRows, filterInvoiceRows in E. destruct (rowFilter p); [|done]. by apply elem_of_bfilter in E as [? _].
Qed.

(** ** Exclusion *)

(** Jobs of one class never run together. *)
Definition is_generating (j : job) : bool := match j with Generate _ | GenerateAll _ => true | _ => false end.
Definition classes : list (job → bool) :=
  [is_generating; is_payment; is_other_batch; λ j, match j with Pdf _ => true | _ => false end; λ j, match j with Approve _ => true | _ => false end;
   λ j, match j with Remove _ => true | _ => false end; λ j, match j with MarkSent _ => true | _ => false end].

Definition free (j : job) (p : billing_page) : Prop :=
  (∀ c, c ∈ classes → c j = true → bfilter c (jobs p) = []) ∧ (is_other_batch j = true → batch_pending (sends p) = None).

Lemma omap_head_none {A B} (f : A → option B) l x : head (omap f l) = None → x ∈ l → f x = None.
Proof.
  intros H Hx. destruct (f x) as [y|] eqn:E; [|done]. assert (y ∈ omap f l) as Hy by (apply list_elem_of_omap; by exists x).
  destruct (omap f l); [by apply elem_of_nil in Hy|done].
Qed.

Lemma existsb_none {A} (f : A → bool) l x : existsb f l = false → x ∈ l → f x = false.
Proof. intros H Hx. destruct (f x) eqn:E; [|done]. assert (existsb f l = true) by (apply existsb_elem; by exists x). congruence. Qed.

Ltac each_class := split; [intros c Hc; repeat (apply elem_of_cons in Hc as [->|Hc]; [|]); [..|by apply elem_of_nil in Hc]|try done].
Ltac none_running := intros _; apply bfilter_nil; intros j Hj; destruct j; try done.

Definition other_batch_known (p : billing_page) : Prop := other_batch_pending (sends p) = existsb is_other_batch (jobs p).

Lemma any_batch_none q : anyBatchPending q = false → batch_pending q = None.
Proof. unfold anyBatchPending. intros [H _]%orb_false_iff. apply bool_decide_eq_false in H. destruct (batch_pending q); [by destruct H|done]. Qed.

Lemma free_generate id p : generate_pending (flags p) = None → generate_all_pending (flags p) = false → free (Generate id) p.
Proof.
  cbn. intros Hg Ha. each_class; try done. none_running.
  - by apply (omap_head_none _ _ _ Hg) in Hj.
  - by apply (existsb_none _ _ _ Ha) in Hj.
Qed.

Lemma free_batch j p : other_batch_known p → is_other_batch j = true → anyBatchPending (sends p) = false →
  (is_generating j = true → generate_pending (flags p) = None) → free j p.
Proof.
  intros Hk Hj Hb Hg. pose proof (any_batch_none _ Hb) as Hs. unfold anyBatchPending in Hb. bool_facts. rewrite Hk in *.
  assert (∀ x, x ∈ jobs p → is_other_batch x = false) as Hn by (intros x Hx; by apply (existsb_none _ _ x H0)).
  each_class; try (by destruct j).
  - intros Hj'. apply bfilter_nil. intros x Hx. pose proof (Hn x Hx). destruct x; try done. by apply (omap_head_none _ _ _ (Hg Hj')) in Hx.
  - intros _. by apply bfilter_nil.
Qed.

(** ** Clicks *)

(** What a job needs of the page it is submitted from. *)
Definition job_fits (p : billing_page) (j : job) : Prop :=
  let listed i P := ∃ row inv, row ∈ rows (sends p) ∧ invoice row = Some inv ∧ invoice_id inv = i ∧ P inv in
  match j with
  | Generate id => wholePeriod (here p) = true ∧ ∃ row, row ∈ rows (sends p) ∧ participant_id row = id ∧
      (liveInvoice row = None ∧ (eligibility_of row = None ∨ eligibility_of row = Some Eligible) ∨ ∃ i, invoice row = Some i ∧ status i = "draft")
  | GenerateAll ids => wholePeriod (here p) = true ∧ ids ≠ [] ∧
      ∀ id, id ∈ ids ↔ ∃ row, row ∈ rows (sends p) ∧ participant_id row = id ∧ eligibility_of row = Some Eligible
  | Approve i => listed i (λ inv, status inv = "draft")
  | MarkSent i => listed i (λ inv, status inv = "approved")
  | MarkPaid i => listed i (λ inv, status inv = "sent")
  | Pdf i => listed i (λ _, True)
  | RecordPayment i => recordPaymentInvoiceId p = Some i ∧ is_Some (row_of (rows (sends p)) i) ∧ v_zev (here p) ≠ ""
  | Remove i => deleteModalInvoiceId p = Some i
  | ApproveAll | GenerateAllPdfs | DownloadAll => rows (sends p) ≠ []
  end.

Definition is_download (j : job) : bool := match j with DownloadAll => true | _ => false end.

(** A job may be submitted: it fits, nothing of its class runs, and the view may be written. *)
Definition submittable (p : billing_page) (j : job) : Prop :=
  job_fits p j ∧ free j p ∧ (is_download j = false → v_writable (here p) = true).

(** A dialog is opened on a row that allows it, while nothing of its kind runs. *)
Definition may_open_delete (p : billing_page) (i : string) : Prop :=
  v_writable (here p) = true ∧ delete_pending (flags p) = false ∧
  ∃ row inv, row ∈ rows (sends p) ∧ invoice row = Some inv ∧ invoice_id inv = i ∧ hasDeletePermission inv (v_admin (here p)) = true.
Definition may_open_payment (p : billing_page) (i : string) : Prop :=
  v_writable (here p) = true ∧
  ∃ row inv, row ∈ rows (sends p) ∧ invoice row = Some inv ∧ invoice_id inv = i ∧ canRecordPayment inv = true.

Inductive click_step (p : billing_page) : billing_page → Prop :=
  | click_nothing : click_step p p
  | click_submits j : submittable p j → click_step p (submit j p)
  | click_sends e : e = ClickSendAll ∨ (∃ i, e = ClickSend i) → v_writable (here p) = true → click_step p (act e p)
  | click_opens_delete i : may_open_delete p i → click_step p (with_dialogs (Some i) (recordPaymentInvoiceId p) p)
  | click_opens_payment i : may_open_payment p i → click_step p (with_dialogs (deleteModalInvoiceId p) (Some i) p).

Lemma offered_writable v a : offered v a = true → existsb (String.eqb (key a)) READ_ONLY_ROW_ITEMS = false → v_writable v = true.
Proof. unfold offered. intros [H _]%andb_prop E. by rewrite E, orb_false_r in H. Qed.

Lemma offered_whole v a : offered v a = true → existsb (String.eqb (key a)) GENERATING_ITEMS = true → wholePeriod v = true.
Proof. unfold offered. intros [_ H]%andb_prop E. by rewrite E, orb_false_r in H. Qed.

Lemma none_flag (c : job → bool) p : existsb c (jobs p) = false → bfilter c (jobs p) = [].
Proof. intros H. apply bfilter_nil. intros j. by apply existsb_none. Qed.

Ltac only_class := each_class; try done; intros _; by apply none_flag.

Lemma free_pdf i p : pdf_pending (flags p) = None → free (Pdf i) p.
Proof. intros H. each_class; try done. none_running. by apply (omap_head_none _ _ _ H) in Hj. Qed.

Lemma generate_enabled p row : generateDisabled (sends p) (flags p) row = false → ∀ id, free (Generate id) p.
Proof.
  unfold generateDisabled. intros H id. apply orb_false_iff in H as [[Hg Ha]%orb_false_iff _]. apply free_generate; [|done].
  apply bool_decide_eq_false in Hg. destruct (generate_pending (flags p)); [by destruct Hg|done].
Qed.

Lemma perform_step p row a :
  row ∈ rows (sends p) → row_offer (sends p) (flags p) (v_admin (here p)) row a → offered (here p) a = true → disabled a = false →
  click_step p (perform_row (key a) row p).
Proof.
  intros Hrow Hoff Ho Hd. pose proof (offered_writable _ _ Ho) as Hw. pose proof (offered_whole _ _ Ho) as Hp.
  destruct Hoff as [Hl He|i Hi Hs|i Hi Hs|i k Hi Hk|i Hi Hs|i Hi Hs|i Hi Hc|i Hi Hc|i k Hi Hk|k Hk]; cbn [key disabled action] in *.
  - apply (click_submits _ (Generate (participant_id row))). split; [|split; [by eapply generate_enabled|by auto]].
    split; [by auto|]. exists row. auto.
  - apply (click_submits _ (Generate (participant_id row))). split; [|split; [by eapply generate_enabled|by auto]].
    split; [by auto|]. exists row. split; [done|]. split; [done|]. right. by exists i.
  - change (click_step p (row_invoice_is row (λ i, submit (Approve i)) p)). unfold row_invoice_is. rewrite Hi.
    apply click_submits. split; [by exists row, i|]. split; [only_class|by auto].
  - assert (perform_row k row p = act (ClickSend (invoice_id i)) p) as -> by (destruct Hk as [[_ ->]|[_ ->]]; cbn; unfold row_invoice_is; by rewrite Hi).
    apply click_sends; [right; by exists (invoice_id i)|]. apply Hw. by destruct Hk as [[_ ->]|[_ ->]].
  - change (click_step p (row_invoice_is row (λ i, submit (MarkPaid i)) p)). unfold row_invoice_is. rewrite Hi.
    apply click_submits. split; [by exists row, i|]. split; [only_class|by auto].
  - change (click_step p (row_invoice_is row (λ i, submit (MarkSent i)) p)). unfold row_invoice_is. rewrite Hi.
    apply click_submits. split; [by exists row, i|]. split; [only_class|by auto].
  - change (click_step p (row_invoice_is row (λ i p, with_dialogs (deleteModalInvoiceId p) (Some i) p) p)). unfold row_invoice_is. rewrite Hi.
    apply click_opens_payment. split; [by auto|]. by exists row, i.
  - change (click_step p (row_invoice_is row (λ i p, with_dialogs (Some i) (recordPaymentInvoiceId p) p) p)). unfold row_invoice_is. rewrite Hi.
    apply click_opens_delete. split; [by auto|]. split; [done|]. by exists row, i.
  - assert (perform_row k row p = submit (Pdf (invoice_id i)) p) as -> by (destruct Hk as [-> | ->]; cbn; unfold row_invoice_is; by rewrite Hi).
    apply click_submits. split; [by exists row, i|]. split; [|intros _; apply Hw; by destruct Hk as [-> | ->]].
    apply free_pdf. apply bool_decide_eq_false in Hd. destruct (pdf_pending (flags p)); [by destruct Hd|done].
  - assert (perform_row k row p = p) as -> by (by destruct Hk as [-> | ->]). apply click_nothing.
Qed.

Lemma clickRow_step n k p : click_step p (clickRow n k p).
Proof.
  unfold clickRow. destruct (visibleRows p !! n) as [row|] eqn:En; [|apply click_nothing].
  destruct (enabled k (rowItems p row)) eqn:Ee; [|apply click_nothing]. apply enabled_elem in Ee as (a & [Ha Ho]%row_items_offer & <- & Hd).
  apply perform_step; [by apply (visible_row p n)|done|done|done].
Qed.

Lemma counted_elem k n d a : a ∈ counted k n d → n ≠ 0%nat ∧ key a = k ∧ disabled a = d.
Proof. unfold counted. destruct (0 <? n)%nat eqn:E; [|by intros ?%elem_of_nil]. intros ->%list_elem_of_singleton. apply Nat.ltb_lt in E. split; [lia|done]. Qed.

Lemma clickBatch_step k p : other_batch_known p → click_step p (clickBatch k p).
Proof.
  intros Hk. unfold clickBatch. destruct (enabled k (batchItems p)) eqn:Ee; [|apply click_nothing].
  apply enabled_elem in Ee as (a & Ha & <- & Hd). unfold batchItems in Ha. destruct (v_managed (here p) && _) eqn:Em; [|by apply elem_of_nil in Ha].
  apply andb_prop in Em as [_ Er]. apply negb_true_iff, bool_decide_eq_false in Er.
  apply elem_of_bfilter in Ha as [Ha Ho]. pose proof (offered_writable _ _ Ho) as Hw. pose proof (offered_whole _ _ Ho) as Hp.
  unfold batchMenuItems, workflowActions in Ha. rewrite !elem_of_app in Ha.
  destruct Ha as [[Ha|[Ha|Ha]]|Ha]; apply counted_elem in Ha as (Hn & Ek & Ed); rewrite Ek in *; rewrite Ed in Hd.
  - apply click_submits. apply orb_false_iff in Hd as [Hb Hg]. unfold generationPending in Hg. apply orb_false_iff in Hg as [Hg _].
    apply bool_decide_eq_false in Hg. split; [|split; [apply free_batch; try done|by auto]].
    + assert (wholePeriod (here p) = true) as Hwp by auto. split; [done|]. rewrite Hwp in Hn. split; [intros E; apply map_eq_nil in E; by rewrite E in Hn|].
      intros id. rewrite list_elem_of_In, in_map_iff. split.
      * intros (row & <- & Hin). rewrite <- list_elem_of_In in Hin. apply elem_of_bfilter in Hin as [? He]. apply bool_decide_eq_true in He. by exists row.
      * intros (row & Hin & <- & He). exists row. split; [done|]. rewrite <- list_elem_of_In. apply elem_of_bfilter. split; [done|]. by apply bool_decide_eq_true.
    + intros _. destruct (generate_pending (flags p)); [by destruct Hg|done].
  - apply (click_submits _ ApproveAll). split; [done|]. split; [by apply free_batch|by auto].
  - apply click_sends; [by left|by auto].
  - apply (click_submits _ GenerateAllPdfs). split; [done|]. split; [by apply free_batch|by auto].
Qed.

Lemma clickDownload_step p : other_batch_known p → click_step p (clickDownload p).
Proof.
  intros Hk. unfold clickDownload. destruct (offers_download p) eqn:E; [|apply click_nothing].
  unfold offers_download in E. bool_facts. apply click_submits. split; [|split; [by apply free_batch|done]].
  intros Er. rewrite Er in *. done.
Qed.

Lemma confirmDelete_step p : (is_Some (deleteModalInvoiceId p) → v_writable (here p) = true) → click_step p (confirmDelete p).
Proof.
  intros Hw. unfold confirmDelete. destruct (deleteModalInvoiceId p) as [i|] eqn:E; [|apply click_nothing].
  destruct (delete_pending (flags p)) eqn:Ed; [apply click_nothing|]. apply click_submits. split; [done|]. split; [only_class|by auto].
Qed.

Lemma submitPayment_step p : (is_Some (recordPaymentInvoiceId p) → v_writable (here p) = true ∧ v_zev (here p) ≠ "") → click_step p (submitPayment p).
Proof.
  intros Hw. unfold submitPayment, recordPaymentInvoice. destruct (recordPaymentInvoiceId p) as [i|] eqn:E; [|apply click_nothing]. cbn [mbind option_bind].
  destruct (row_of (rows (sends p)) i) as [inv|] eqn:Er; [|apply click_nothing]. destruct (Hw ltac:(done)) as [Hwr Hz].
  assert (invoice_id inv = i) as Hi.
  { unfold row_of in Er. destruct (find_first _ _) as [row|] eqn:Ef; [|done]. cbn in Er. apply find_first_Some in Ef as [_ Ef]. rewrite Er in Ef.
    by apply String.eqb_eq. }
  unfold recordRowPayment. destruct (payment_pending (flags p)) eqn:Ep; [apply click_nothing|]. rewrite Hwr.
  rewrite (proj2 (nonempty_true _) Hz). cbn [andb]. apply click_submits. split; [|split; [only_class|by auto]].
  rewrite Hi. split; [done|]. split; [by exists inv|done].
Qed.

(** ** Invariant *)

Record billing_inv (p : billing_page) : Prop := {
  inv_sends : InvoiceActions.page_reachable (sends p);
  inv_rows : rows_for (here p) (rows (sends p));
  inv_batch : other_batch_known p;
  inv_exclusive : ∀ c, c ∈ classes → (length (bfilter c (jobs p)) <= 1)%nat;
  inv_one_batch : batch_pending (sends p) ≠ None → bfilter is_other_batch (jobs p) = [];
  inv_views : ∀ r, r ∈ running p → (made_scope r <= scope (sends p))%nat ∧ (made_scope r = scope (sends p) → same_scope (made_in r) (here p) = true) ∧
                 (is_download (job_of r) = false → v_writable (made_in r) = true);
  inv_dialogs : is_Some (deleteModalInvoiceId p) ∨ is_Some (recordPaymentInvoiceId p) → v_writable (here p) = true;
  inv_payment : is_Some (recordPaymentInvoiceId p) → v_zev (here p) ≠ "";
  inv_delete : ∀ i j, Remove i ∈ jobs p → deleteModalInvoiceId p = Some j → i = j;
}.

(** The machine of the sends as this page drives it. *)
Definition keeps_rows (e : InvoiceActions.event) : bool := match e with RowsLoaded _ | ScopeChanged => false | _ => true end.

Lemma handle_keeps e q : keeps_rows e = true → rows (InvoiceActions.handle e q) = rows q ∧ scope (InvoiceActions.handle e q) = scope q.
Proof.
  assert (∀ q, rows (run_effect q) = rows q ∧ scope (run_effect q) = scope q) as Heff by (intros x; unfold run_effect; by destruct (InvoiceActions.watch x)).
  assert (∀ s t q, rows (tracked s t q) = rows q ∧ scope (tracked s t q) = scope q) as Htr.
  { intros s t x. unfold tracked. destruct (send_scope s =? scope x)%nat; [|done]. by rewrite !(proj1 (Heff _)), !(proj2 (Heff _)). }
  destruct e as [id| |ok|ok a b|r| |t|b]; intros Hk; try done; cbn [InvoiceActions.handle].
  - unfold clickSend. by destruct (offers_send q id).
  - unfold clickSendAll. by destruct (_ && _).
  - unfold emailAnswered. destruct (email_pending q) as [s|]; [|done]. destruct ok; [|done]. by rewrite (proj1 (Htr _ _ _)), (proj2 (Htr _ _ _)).
  - unfold batchAnswered. destruct (batch_pending q) as [s|]; [|done]. destruct ok; cbn [negb]; [|done]. destruct (negb _); [done|].
    destruct (_ && _); [by rewrite (proj1 (Htr _ _ _)), (proj2 (Htr _ _ _))|done].
  - unfold tick. cbn [InvoiceActions.watch]. destruct (InvoiceActions.watch q); [|done]. by destruct (watch_until _ <=? _)%Z.
Qed.

Lemma run_effect_batches q : other_batch_pending (run_effect q) = other_batch_pending q ∧ batch_pending (run_effect q) = batch_pending q.
Proof. unfold run_effect. by destruct (InvoiceActions.watch q). Qed.

Lemma handle_batches e q :
  (other_batch_pending (InvoiceActions.handle e q) = match e with OtherBatch b => b | _ => other_batch_pending q end) ∧
  (batch_pending (InvoiceActions.handle e q) ≠ None → batch_pending q ≠ None ∨ e = ClickSendAll ∧ other_batch_pending q = false).
Proof.
  assert (∀ s t x, other_batch_pending (tracked s t x) = other_batch_pending x ∧ batch_pending (tracked s t x) = batch_pending x) as Htr.
  { intros s t x. unfold tracked. destruct (send_scope s =? scope x)%nat; [|done]. by rewrite !(proj1 (run_effect_batches _)), !(proj2 (run_effect_batches _)). }
  destruct e as [id| |ok|ok a b|r| |t|b]; cbn [InvoiceActions.handle].
  - unfold clickSend. destruct (offers_send q id); by auto.
  - unfold clickSendAll. destruct (_ && _) eqn:E; [|by auto]. split; [done|]. intros _. right. split; [done|].
    unfold sendAllDisabled, anyBatchPending in E. by bool_facts.
  - unfold emailAnswered. destruct (email_pending q) as [s|]; [|by auto]. destruct ok; [|by auto].
    rewrite (proj1 (Htr _ _ _)), (proj2 (Htr _ _ _)). by auto.
  - unfold batchAnswered. destruct (batch_pending q) as [s|] eqn:E; [|rewrite E; by auto]. destruct ok; cbn [negb]; [|by auto]. destruct (negb _); [by auto|].
    destruct (_ && _); [|by auto]. rewrite (proj1 (Htr _ _ _)), (proj2 (Htr _ _ _)). by auto.
  - unfold rowsLoaded. rewrite (proj1 (run_effect_batches _)), (proj2 (run_effect_batches _)). by auto.
  - by auto.
  - unfold tick. cbn [InvoiceActions.watch]. destruct (InvoiceActions.watch q); [|by auto]. destruct (watch_until _ <=? _)%Z; by auto.
  - by auto.
Qed.

Lemma act_inv e p : keeps_rows e = true → (∀ b, e ≠ OtherBatch b) → billing_inv p → billing_inv (act e p).
Proof.
  intros Hk Hob [Hs Hr Hb He Ho Hv Hd Hp Hx]. destruct (handle_keeps e (sends p) Hk) as [Er Es], (handle_batches e (sends p)) as [Eo Eb].
  split; try done.
  - constructor; [done|]. intros r ->. done.
  - unfold act. cbn. by rewrite Er.
  - unfold other_batch_known, act. cbn. rewrite Eo. destruct e; try done. by destruct (Hob b).
  - unfold act. cbn. intros [Hn|[_ Hn]]%Eb; [by apply Ho|]. apply bfilter_nil. intros j. apply existsb_none.
    change (existsb is_other_batch (jobs p) = false). by rewrite <- Hb.
  - unfold act. cbn. intros r Hin. rewrite Es. by apply Hv.
Qed.

(** Replacing the running requests by some that satisfy the invariant. *)
Lemma with_running_inv l p :
  billing_inv p → (∀ c, c ∈ classes → (length (bfilter c (map job_of l)) <= 1)%nat) →
  (batch_pending (sends p) ≠ None → bfilter is_other_batch (map job_of l) = []) →
  (∀ r, r ∈ l → (made_scope r <= scope (sends p))%nat ∧ (made_scope r = scope (sends p) → same_scope (made_in r) (here p) = true) ∧
     (is_download (job_of r) = false → v_writable (made_in r) = true)) →
  (∀ i j, Remove i ∈ map job_of l → deleteModalInvoiceId p = Some j → i = j) → billing_inv (with_running l p).
Proof.
  intros [Hs Hr Hb _ _ _ Hd Hp _] He Ho Hv Hx. split; try done. by constructor.
Qed.

Lemma jobs_snoc j p : map job_of (running p ++ [{| job_of := j; made_in := here p; made_scope := scope (sends p) |}])%list = (jobs p ++ [j])%list.
Proof. unfold jobs. by rewrite map_app. Qed.

Lemma same_scope_refl v : same_scope v v = true.
Proof. unfold same_scope, same_period. by rewrite bool_decide_true, !String.eqb_refl, eqb_reflx by done. Qed.

(** Nothing else of a batch runs when one is submitted. *)
Lemma submit_inv j p :
  billing_inv p → submittable p j → billing_inv (submit j p).
Proof.
  intros Hinv (Hfit & [Hfree Hbatch] & Hwr). pose proof Hinv as [Hs Hr Hb He Ho Hv Hd Hp Hx]. unfold submit. apply with_running_inv; [done| | | |].
  - intros c Hc. rewrite jobs_snoc, bfilter_snoc, length_app. specialize (He c Hc). destruct (c j) eqn:Ec; [|cbn; lia].
    rewrite (Hfree c Hc Ec). done.
  - intros Hn. rewrite jobs_snoc, bfilter_snoc, (Ho Hn). destruct (is_other_batch j) eqn:Ej; [|done]. by destruct Hn, Hbatch.
  - intros r [Hin| ->%list_elem_of_singleton]%elem_of_app; [by apply Hv|]. cbn. split; [done|]. split; [intros _; apply same_scope_refl|done].
  - intros i k. rewrite jobs_snoc. intros [Hin|Hin%list_elem_of_singleton]%elem_of_app Hk; [by apply (Hx i k)|]. subst j. cbn in Hfit. congruence.
Qed.

Lemma with_dialogs_inv d r p :
  billing_inv p → (is_Some d ∨ is_Some r → v_writable (here p) = true) → (is_Some r → v_zev (here p) ≠ "") →
  (∀ i j, Remove i ∈ jobs p → d = Some j → i = j) → billing_inv (with_dialogs d r p).
Proof. intros [Hs Hr Hb He Ho Hv Hd Hp Hx] H1 H2 H3. by split. Qed.

Lemma listed_zev p row : billing_inv p → row ∈ rows (sends p) → v_zev (here p) ≠ "".
Proof. intros [_ [_ Hr] _ _ _ _ _ _ _] Hin E. rewrite (Hr E) in Hin. by apply elem_of_nil in Hin. Qed.

Lemma click_step_inv p p' : billing_inv p → click_step p p' → billing_inv p'.
Proof.
  intros Hinv Hc. destruct Hc as [|j Hj|e He Hw|i (Hw & Hdel & _)|i (Hw & row & inv & Hin & _)].
  - done.
  - by apply submit_inv.
  - apply act_inv; [by destruct He as [->|[? ->]]|by destruct He as [->|[? ->]]|done].
  - apply with_dialogs_inv; [done|done|apply (inv_payment _ Hinv)|]. intros k j Hk _. exfalso.
    pose proof (existsb_none _ _ _ Hdel Hk) as H. done.
  - apply with_dialogs_inv; [done|done|intros _; by apply (listed_zev p row)|apply (inv_delete _ Hinv)].
Qed.

Lemma running_delete_inv i p : billing_inv p → billing_inv (with_running (delete i (running p)) p).
Proof.
  intros Hinv. pose proof Hinv as [Hs Hr Hb He Ho Hv Hd Hp Hx].
  assert (map job_of (delete i (running p)) = delete i (jobs p)) as Ej by (unfold jobs; change (map ?f ?l) with (f <$> l); apply list_fmap_delete).
  apply with_running_inv; [done| | | |]; rewrite ?Ej.
  - intros c Hc. pose proof (length_bfilter_delete c i (jobs p)). specialize (He c Hc). lia.
  - intros Hn. apply bfilter_nil. intros j Hj%delete_sublist. by apply (proj1 (bfilter_nil _ _) (Ho Hn)).
  - intros r Hin%delete_sublist. by apply Hv.
  - intros k j Hk%delete_sublist. by apply Hx.
Qed.

Lemma report_inv l p : billing_inv p → billing_inv (report l p).
Proof. by intros [Hs Hr Hb He Ho Hv Hd Hp Hx]. Qed.
Lemma with_pdf_inv w p : billing_inv p → billing_inv (with_pdf w p).
Proof. by intros [Hs Hr Hb He Ho Hv Hd Hp Hx]. Qed.

Lemma close_after_inv r c p : billing_inv p → billing_inv (close_after r c p).
Proof.
  intros Hinv. pose proof Hinv as [Hs Hr Hb He Ho Hv Hd Hp Hx]. unfold close_after. destruct (job_of r) as [| | |i| | |i| | | |]; try done.
  - apply with_dialogs_inv; [done|intros [[? ?]|?]; [done|by apply Hd; right]|done|done].
  - destruct (c && _); [|done]. apply with_dialogs_inv; [done|intros [?|[? ?]]; [by apply Hd; left|done]|by intros [? ?]|done].
Qed.

Lemma succeeded_inv r p : billing_inv p → billing_inv (succeeded r p).
Proof.
  intros Hinv. unfold succeeded. apply close_after_inv. destruct (queued r); [|by apply report_inv].
  destruct (still_current r p); [by apply with_pdf_inv, report_inv|by apply report_inv].
Qed.

Lemma job_answered_inv i e p : billing_inv p → billing_inv (job_answered i e p).
Proof.
  intros Hinv. unfold job_answered. destruct (running p !! i) as [r|]; [|done].
  destruct e; [apply report_inv|apply succeeded_inv]; by apply running_delete_inv.
Qed.

Lemma same_scope_trans u v w : same_scope u v = true → same_scope v w = true → same_scope u w = true.
Proof.
  unfold same_scope, same_period. intros H1 H2. bool_facts. repeat match goal with
    | H : bool_decide _ = true |- _ => apply bool_decide_eq_true in H | H : String.eqb _ _ = true |- _ => apply String.eqb_eq in H
    | H : Bool.eqb _ _ = true |- _ => apply eqb_prop in H end.
  rewrite bool_decide_true by congruence. rewrite !(proj2 (String.eqb_eq _ _)) by congruence. apply eqb_true_iff. congruence.
Qed.

Lemma same_scope_view v w : same_scope v w = true → v_zev w = v_zev v ∧ v_from w = v_from v ∧ v_to w = v_to v ∧ v_writable w = v_writable v.
Proof.
  unfold same_scope, same_period. intros H. bool_facts. repeat match goal with
    | H : String.eqb _ _ = true |- _ => apply String.eqb_eq in H | H : Bool.eqb _ _ = true |- _ => apply eqb_prop in H end. auto.
Qed.

Lemma navigated_inv v r p : billing_inv p → rows_for v r → billing_inv (navigated v r p).
Proof.
  intros Hinv Hrv. pose proof Hinv as [Hs Hr Hb He Ho Hv Hd Hp Hx].
  set (q := if same_scope (here p) v then sends p else InvoiceActions.handle ScopeChanged (sends p)).
  assert (InvoiceActions.page_reachable q) as Hq by (unfold q; destruct (same_scope _ _); [done|by constructor]).
  assert (other_batch_pending q = other_batch_pending (sends p) ∧ batch_pending q = batch_pending (sends p)) as [Eo Eb]
    by (unfold q; by destruct (same_scope _ _)).
  assert (rows (InvoiceActions.handle (RowsLoaded r) q) = r ∧ scope (InvoiceActions.handle (RowsLoaded r) q) = scope q) as [Er Es].
  { cbn [InvoiceActions.handle]. unfold rowsLoaded, run_effect. by destruct (InvoiceActions.watch _). }
  assert (other_batch_pending (InvoiceActions.handle (RowsLoaded r) q) = other_batch_pending q
          ∧ batch_pending (InvoiceActions.handle (RowsLoaded r) q) = batch_pending q) as [Eo' Eb'].
  { cbn [InvoiceActions.handle]. unfold rowsLoaded. by rewrite (proj1 (run_effect_batches _)), (proj2 (run_effect_batches _)). }
  unfold navigated. fold q. split; cbn [sends here running pdf deleteModalInvoiceId recordPaymentInvoiceId].
  - constructor; [done|]. intros x [= ->]. by destruct Hrv.
  - by rewrite Er.
  - unfold other_batch_known. cbn [sends]. by rewrite Eo', Eo.
  - done.
  - rewrite Eb', Eb. done.
  - intros x Hin. rewrite Es. destruct (Hv x Hin) as (Hle & Heq & Hw). unfold q. destruct (same_scope (here p) v) eqn:Ev; cbn [InvoiceActions.handle scopeChanged scope].
    + split; [done|]. split; [|done]. intros E. by eapply same_scope_trans; [apply Heq|].
    + split; [lia|]. split; [lia|done].
  - destruct (same_scope (here p) v) eqn:Ev; [|by intros [[? ?]|[? ?]]]. apply same_scope_view in Ev as (_ & _ & _ & ->). done.
  - destruct (same_scope (here p) v) eqn:Ev; [|by intros [? ?]]. apply same_scope_view in Ev as (-> & _). done.
  - destruct (same_scope (here p) v); [done|]. done.
Qed.

Lemma loaded_navigated r p : act (RowsLoaded r) p = navigated (here p) r p.
Proof. unfold navigated, act. rewrite same_scope_refl. assert (same_period (here p) (here p) = true) as -> by (by pose proof (same_scope_refl (here p)) as [? _]%andb_prop). done. Qed.

Lemma committed_inv old p : billing_inv p → billing_inv (committed old p).
Proof.
  intros Hinv. unfold committed, watch_effect, end_watch. destruct (_ && _); [done|]. destruct (pdfWatch (pdf p)); [|done].
  destruct (pdfWatchIsFinished _ _ _); [by apply with_pdf_inv|done].
Qed.

Definition is_click (e : billing_event) : bool :=
  match e with ClickRow _ _ | ClickBatch _ | ClickDownload | ConfirmDelete | SubmitPayment => true | _ => false end.

Lemma click_react e p : billing_inv p → is_click e = true → click_step p (react e p).
Proof.
  intros Hinv He. destruct e as [n k|k| | | | | | | | | | | |]; try done; cbn [react].
  - apply clickRow_step.
  - apply clickBatch_step, (inv_batch _ Hinv).
  - apply clickDownload_step, (inv_batch _ Hinv).
  - apply confirmDelete_step. intros H. apply (inv_dialogs _ Hinv). by left.
  - apply submitPayment_step. intros H. split; [apply (inv_dialogs _ Hinv); by right|by apply (inv_payment _ Hinv)].
Qed.

Lemma react_inv e p : billing_inv p → possible e p → billing_inv (react e p).
Proof.
  intros Hinv He. destruct (is_click e) eqn:Ec; [apply (click_step_inv p); [done|by apply click_react]|].
  destruct e as [| | |f| | | | |i o|ok|ok q k|r|v r|t]; try done; cbn [react].
  - by destruct Hinv.
  - apply with_dialogs_inv; [done|intros [[? ?]|?]; [done|by apply (inv_dialogs _ Hinv); right]|apply (inv_payment _ Hinv)|done].
  - apply with_dialogs_inv; [done|intros [?|[? ?]]; [by apply (inv_dialogs _ Hinv); left|done]|by intros [? ?]|apply (inv_delete _ Hinv)].
  - by apply job_answered_inv.
  - by apply act_inv.
  - by apply act_inv.
  - rewrite loaded_navigated. by apply navigated_inv.
  - by apply navigated_inv.
  - unfold watch_timer. assert (billing_inv (act (Tick t) p)) as H by (by apply act_inv). destruct (pdfWatch _); [|done].
    destruct (until _ <=? _)%Z; [by apply with_pdf_inv|done].
Qed.

Lemma billing_reachable_inv p : billing_reachable p → billing_inv p.
Proof.
  induction 1 as [t v r [Hr Hz]|e p _ IH He]; [|by apply committed_inv, react_inv].
  split; try done.
  - by apply page_init.
  - intros c _. cbn. lia.
  - by intros r' ?%elem_of_nil.
  - by intros [[? ?]|[? ?]].
  - by intros [? ?].
Qed.

(** ** Requests *)

Lemma committed_fields old p :
  running (committed old p) = running p ∧ done (committed old p) = done p ∧ sends (committed old p) = sends p ∧ here (committed old p) = here p ∧
  deleteModalInvoiceId (committed old p) = deleteModalInvoiceId p ∧ recordPaymentInvoiceId (committed old p) = recordPaymentInvoiceId p.
Proof.
  unfold committed, watch_effect, end_watch. destruct (_ && _); [done|]. destruct (pdfWatch _); [|done]. by destruct (pdfWatchIsFinished _ _ _).
Qed.

Lemma succeeded_fields r p : running (succeeded r p) = running p ∧ here (succeeded r p) = here p ∧ sends (succeeded r p) = sends p.
Proof.
  unfold succeeded, close_after. destruct (queued r) as [ids|]; [destruct (still_current r p)|]; destruct (job_of r); try done; by destruct (_ && _).
Qed.

(** A request of the page was there before or was just clicked. *)
Lemma new_request e p r : billing_inv p → possible e p →
  r ∈ running (billing_step e p) → r ∈ running p ∨ made_in r = here p ∧ made_scope r = scope (sends p) ∧ submittable p (job_of r).
Proof.
  intros Hinv He. unfold billing_step. rewrite (proj1 (committed_fields _ _)). destruct (is_click e) eqn:Ec.
  - destruct (click_react e p Hinv Ec) as [|j Hj|ev _ _|i _|i _]; try (by left). unfold submit, with_running. cbn [act running].
    intros [?| ->%list_elem_of_singleton]%elem_of_app; [by left|by right].
  - destruct e as [| | |f| | | | |i o|ok|ok q k|rs|v rs|t]; try done; cbn [react]; intros Hin; left; try done.
    + unfold job_answered in Hin. destruct (running p !! i) as [x|]; [|done].
      destruct o; [|rewrite (proj1 (succeeded_fields _ _)) in Hin]; by apply delete_sublist in Hin.
    + unfold watch_timer in Hin. destruct (pdfWatch _); [|done]. by destruct (until _ <=? _)%Z.
Qed.

(** C6. What the page asks of the server is what its view allows. A request goes out for the
    view it was clicked in and, but for the download, only while that may be written; it
    generates invoices only for whole periods and rows that may have one, approves drafts,
    marks approved invoices sent and sent ones paid, records a payment on the invoice of the
    dialog and deletes the one asked about. No two generations, payments, deletions,
    approvals or batches run at once, and no batch beside a send to all. *)
Theorem invoice_jobs_allowed e p r :
  billing_reachable p → possible e p → r ∈ running (billing_step e p) →
  (r ∈ running p ∨ made_in r = here p ∧ made_scope r = scope (sends p) ∧ job_fits p (job_of r) ∧
     (is_download (job_of r) = false → v_writable (here p) = true)) ∧
  (∀ c, c ∈ classes → (length (bfilter c (jobs (billing_step e p))) <= 1)%nat) ∧
  (batch_pending (sends (billing_step e p)) ≠ None → bfilter is_other_batch (jobs (billing_step e p)) = []).
Proof.
  intros Hr He Hin. pose proof (billing_reachable_inv _ Hr) as Hinv.
  pose proof (billing_reachable_inv _ (billing_next e p Hr He)) as [_ _ _ Hex Hb _ _ _ _]. split; [|done].
  destruct (new_request e p r Hinv He Hin) as [?|(Hm & Hs & Hfit & _ & Hw)]; [by left|by right].
Qed.

(** ** Refreshes *)




(** *** The queries of the invoices by what they show *)

(** Of a view's period; without a community the key names every period. *)
Definition overview_of (v : page_view) (q : query) : bool :=
  match q with
  | QInvoices (InvoicePeriodOverview z a b) =>
      negb (nonempty (v_zev v)) || (String.eqb (v_zev v) z && String.eqb (v_from v) a && String.eqb (v_to v) b)
  | _ => false
  end.

Definition lists_invoices (q : query) : bool :=
  match q with QInvoices (InvoiceList _ _) | QInvoices InvoicesMine => true | _ => false end.

Definition tells_community (zev : string) (q : query) : bool :=
  match q with
  | QInvoices (InvoiceReadiness z) | QInvoices (InvoiceReadinessList z) | QInvoices (InvoiceAttention z) => String.eqb zev (default "all" z)
  | _ => false
  end.

Lemma reaches_app l l' q : reaches (l ++ l')%list q ↔ reaches l q ∨ reaches l' q.
Proof. unfold reaches. setoid_rewrite elem_of_app. naive_solver. Qed.

Lemma overview_reached v q : reaches [overview_key v] q ↔ overview_of v q = true.
Proof.
  unfold overview_key, overview_of. destruct (nonempty (v_zev v)).
  - assert ([invoice_key (InvoicePeriodOverview (v_zev v) (v_from v) (v_to v))] = map strs [["invoices"; "period-overview"; v_zev v; v_from v; v_to v]]) as -> by done.
    rewrite reaches_starts. destruct q as [| |a|a|a|a| |a|? ?|a|a|a|a]; try destruct a; try done. cbn -[String.eqb].
    by rewrite orb_false_r, andb_true_r, !andb_assoc.
  - rewrite (reaches_starts [["invoices"; "period-overview"]]). destruct q as [| |a|a|a|a| |a|? ?|a|a|a|a]; try destruct a; done.
Qed.

Lemma lists_reached q : reaches invalidateInvoicesList q ↔ lists_invoices q = true.
Proof.
  assert (invalidateInvoicesList = map strs [["invoices"; "list"]; ["invoices"; "mine"]]) as -> by done.
  rewrite reaches_starts. by destruct q as [| |a|a|a|a| |a|? ?|a|a|a|a]; try destruct a.
Qed.

Lemma cockpit_reached zev q : reaches (invalidateCockpit zev) q ↔ tells_community zev q = true.
Proof.
  assert (invalidateCockpit zev = map strs [["invoices"; "readiness"; zev]; ["invoices"; "readiness-list"; zev]; ["invoices"; "attention"; zev]]) as -> by done.
  rewrite reaches_starts. destruct q as [| |a|a|a|a| |a|? ?|a|a|a|a]; try destruct a; try done; cbn -[String.eqb];
    by rewrite ?andb_true_r, ?orb_false_r.
Qed.

Lemma overview_cons v l q : reaches (overview_key v :: l) q ↔ overview_of v q = true ∨ reaches l q.
Proof. rewrite <- overview_reached. exact (reaches_app [overview_key v] l q). Qed.

(** *** What a kind of request refreshes *)

(** The overview of the view it was made in; the others that of the view shown when they are answered. *)
Definition remembers_period (j : job) : bool :=
  match j with Generate _ | GenerateAll _ | GenerateAllPdfs | RecordPayment _ => true | _ => false end.
Definition records_payment (j : job) : bool := match j with RecordPayment _ => true | _ => false end.
(** The lists as well, and readiness and attention of a community. *)
Definition changes_invoices (j : job) : bool :=
  match j with Pdf _ | GenerateAllPdfs | DownloadAll => false | _ => true end.
(** A generation answered in another view leaves some of them out. *)
Definition is_single_generation (j : job) : bool := match j with Generate _ => true | _ => false end.

(** The keys a request invalidates reach exactly these queries. *)
Lemma refreshed_reaches r current shown q :
  reaches (refreshed r current shown) q ↔
  (is_download (job_of r) = false ∧ overview_of (if remembers_period (job_of r) then made_in r else shown) q = true) ∨
  (changes_invoices (job_of r) = true ∧ (is_single_generation (job_of r) = true → current = true) ∧ lists_invoices q = true) ∨
  (changes_invoices (job_of r) = true ∧ (is_generating (job_of r) = true → current = true) ∧
     tells_community (v_zev (if records_payment (job_of r) then made_in r else shown)) q = true).
Proof.
  unfold refreshed, refreshRelated.
  destruct (job_of r), current; cbn [is_download remembers_period records_payment changes_invoices is_single_generation is_generating];
    rewrite ?overview_cons, ?reaches_app, ?lists_reached, ?cockpit_reached, ?reaches_nil; intuition congruence.
Qed.

(** A payment recorded in the list refreshes no more than one recorded on the invoice's own page,
    which refreshes the credits as well. *)
Lemma payment_pages_agree r current shown q :
  records_payment (job_of r) = true → reaches (refreshed r current shown) q → reaches handleInvoiceChanged q ∧ ¬ reaches (refreshed r current shown) (QInvoices InvoiceCredits).
Proof.
  intros Hj Hq. split.
  - assert (handleInvoiceChanged = map strs [["invoices"; "list"]; ["invoices"; "period-overview"]; ["invoices"; "mine"]; ["invoices"; "credits"];
      ["invoices"; "readiness"]; ["invoices"; "readiness-list"]; ["invoices"; "attention"]]) as -> by done.
    rewrite reaches_starts. apply refreshed_reaches in Hq. destruct q as [| |a|a|a|a| |a|? ?|a|a|a|a]; try destruct a; try done;
      cbn [overview_of lists_invoices tells_community] in Hq; intuition congruence.
  - rewrite refreshed_reaches. cbn [overview_of lists_invoices tells_community]. intuition congruence.
Qed.


(** ** Dialogs *)

Lemma perform_dialogs k row p :
  (k ≠ "delete" → deleteModalInvoiceId (perform_row k row p) = deleteModalInvoiceId p) ∧
  (k ≠ "record-payment" → recordPaymentInvoiceId (perform_row k row p) = recordPaymentInvoiceId p).
Proof.
  unfold perform_row, row_invoice_is.
  destruct (existsb _ _); [done|]. destruct (String.eqb k "approve"); [by destruct (invoice row)|].
  destruct (existsb _ _); [by destruct (invoice row)|]. destruct (String.eqb k "mark-paid"); [by destruct (invoice row)|].
  destruct (String.eqb k "mark-sent"); [by destruct (invoice row)|].
  destruct (String.eqb_spec k "record-payment"); [by destruct (invoice row)|]. destruct (String.eqb_spec k "delete"); [by destruct (invoice row)|].
  destruct (existsb _ _); [by destruct (invoice row)|done].
Qed.

Lemma batch_dialogs k p :
  deleteModalInvoiceId (clickBatch k p) = deleteModalInvoiceId p ∧ recordPaymentInvoiceId (clickBatch k p) = recordPaymentInvoiceId p.
Proof.
  unfold clickBatch, perform_batch. destruct (enabled _ _); [|done].
  destruct (String.eqb k "generate-all"); [done|]. destruct (String.eqb k "approve-all"); [done|]. destruct (String.eqb k "send-all"); [done|].
  by destruct (String.eqb k "generate-all-pdfs").
Qed.

Lemma succeeded_dialogs r p :
  deleteModalInvoiceId (succeeded r p) = match job_of r with Remove _ => None | _ => deleteModalInvoiceId p end ∧
  recordPaymentInvoiceId (succeeded r p) =
    match job_of r with
    | RecordPayment id => if still_current r p && bool_decide (recordPaymentInvoiceId p = Some id) then None else recordPaymentInvoiceId p
    | _ => recordPaymentInvoiceId p
    end.
Proof.
  unfold succeeded. set (q := match queued r with Some _ => _ | None => _ end).
  assert (deleteModalInvoiceId q = deleteModalInvoiceId p ∧ recordPaymentInvoiceId q = recordPaymentInvoiceId p) as [Ed Er]
    by (unfold q; destruct (queued r); [by destruct (still_current r p)|done]).
  unfold close_after. destruct (job_of r); cbn; rewrite ?Er; try done. by destruct (_ && _).
Qed.

(** The page leaves the view its dialogs belong to. *)
Definition leaves (e : billing_event) (p : billing_page) : Prop := ∃ v r, e = Navigated v r ∧ same_scope (here p) v = false.

Definition answers (e : billing_event) (p : billing_page) (j : job) : Prop :=
  ∃ i r, e = JobAnswered i None ∧ running p !! i = Some r ∧ job_of r = j.

(** A dialog asks about the invoice it was opened for, and only while it may be written: it
    closes by its own button, by the success of its own request or when another view is
    shown, and no answer to a request about another invoice touches it; opening one for
    another invoice is a click on that row. *)
Theorem invoice_dialogs_kept e p :
  billing_reachable p → possible e p →
  (is_Some (deleteModalInvoiceId p) ∨ is_Some (recordPaymentInvoiceId p) → v_writable (here p) = true) ∧
  (∀ j, deleteModalInvoiceId p = Some j →
     deleteModalInvoiceId (billing_step e p) = Some j ∨ e = CancelDelete ∨ (∃ n, e = ClickRow n "delete") ∨ leaves e p ∨ answers e p (Remove j)) ∧
  (∀ j, recordPaymentInvoiceId p = Some j →
     recordPaymentInvoiceId (billing_step e p) = Some j ∨ e = ClosePayment ∨ (∃ n, e = ClickRow n "record-payment") ∨ leaves e p ∨
     answers e p (RecordPayment j)).
Proof.
  intros Hr He. pose proof (billing_reachable_inv _ Hr) as Hinv. split; [apply (inv_dialogs _ Hinv)|].
  unfold billing_step. destruct (committed_fields p (react e p)) as (_ & _ & _ & _ & Hd & Hp). rewrite Hd, Hp. clear Hd Hp.
  assert (deleteModalInvoiceId (react e p) = deleteModalInvoiceId p ∧ recordPaymentInvoiceId (react e p) = recordPaymentInvoiceId p →
          (∀ j, deleteModalInvoiceId p = Some j → deleteModalInvoiceId (react e p) = Some j ∨ e = CancelDelete ∨ (∃ n, e = ClickRow n "delete") ∨ leaves e p ∨ answers e p (Remove j)) ∧
          (∀ j, recordPaymentInvoiceId p = Some j → recordPaymentInvoiceId (react e p) = Some j ∨ e = ClosePayment ∨ (∃ n, e = ClickRow n "record-payment") ∨ leaves e p ∨ answers e p (RecordPayment j))) as Hsame.
  { intros [-> ->]. by split; intros j E; left. }
  destruct e as [n k|k| | | | | | |i o|ok|ok q k|r|v r|t]; try (by apply Hsame); cbn [react] in *.
  - unfold clickRow in *. destruct (visibleRows p !! n) as [row|]; [|by apply Hsame]. destruct (enabled k _); [|by apply Hsame].
    destruct (perform_dialogs k row p) as [H1 H2].
    split; intros j E; [destruct (decide (k = "delete")) as [->|Hk]|destruct (decide (k = "record-payment")) as [->|Hk]];
      [right; right; left; by exists n|left; by rewrite H1|right; right; left; by exists n|left; by rewrite H2].
  - apply Hsame, batch_dialogs.
  - apply Hsame. unfold clickDownload. by destruct (offers_download p).
  - split; intros j E; [by right; left|by left].
  - apply Hsame. unfold confirmDelete. destruct (deleteModalInvoiceId p) eqn:E; [|done]. destruct (delete_pending (flags p)); [done|by split; [exact E|]].
  - split; intros j E; [by left|by right; left].
  - apply Hsame. unfold submitPayment, recordRowPayment. destruct (recordPaymentInvoice p); [|done]. destruct (payment_pending (flags p)); [done|].
    by destruct (_ && _).
  - unfold job_answered in *. destruct (running p !! i) as [r|] eqn:Ei; [|by apply Hsame]. destruct o as [f|]; [by apply Hsame|].
    destruct (succeeded_dialogs r (with_running (delete i (running p)) p)) as [-> ->]. split; intros j E.
    + destruct (job_of r) as [| | |x| | | | | | |] eqn:Ej; try (by left). right; right; right; right. exists i, r. split; [done|]. split; [done|].
      rewrite Ej. f_equal. apply (inv_delete _ Hinv x j); [|done]. unfold jobs. rewrite list_elem_of_In, in_map_iff. exists r. split; [done|].
      rewrite <- list_elem_of_In. by eapply list_elem_of_lookup_2.
    + destruct (job_of r) as [| | | | | |x| | | |] eqn:Ej; try (by left). destruct (_ && _) eqn:Eb; [|by left].
      apply andb_prop in Eb as [_ Eb]. apply bool_decide_eq_true in Eb. right; right; right; right. exists i, r. split; [done|]. split; [done|].
      rewrite Ej. change (recordPaymentInvoiceId p = Some x) in Eb. congruence.
  - unfold navigated. cbn [deleteModalInvoiceId recordPaymentInvoiceId]. destruct (same_scope (here p) v) eqn:Es; [by split; intros j E; left|].
    split; intros j E; right; right; right; left; by exists v, r.
  - apply Hsame. unfold watch_timer. destruct (pdfWatch _); [|done]. by destruct (until _ <=? _)%Z.
Qed.

(** ** The watch over pending work *)

(** Work was accepted for the view shown: the only thing that starts or renews a watch. *)
Definition accepts_work (e : billing_event) (p : billing_page) : Prop :=
  ∃ i r ids, e = JobAnswered i None ∧ running p !! i = Some r ∧ queued r = Some ids ∧ still_current r p = true.

Lemma handle_now e q : (now q <= now (InvoiceActions.handle e q))%Z.
Proof.
  assert (∀ x, now (run_effect x) = now x) as Heff by (intros x; unfold run_effect; by destruct (InvoiceActions.watch x)).
  assert (∀ s t x, now (tracked s t x) = now x) as Htr by (intros s t x; unfold tracked; destruct (_ =? _)%nat; [by rewrite Heff|done]).
  destruct e as [id| |ok|ok a b|r| |t|b]; cbn [InvoiceActions.handle]; try done.
  - unfold clickSend. by destruct (offers_send q id).
  - unfold clickSendAll. by destruct (_ && _).
  - unfold emailAnswered. destruct (email_pending q); [|done]. destruct ok; [by rewrite Htr|done].
  - unfold batchAnswered. destruct (batch_pending q); [|done]. destruct ok; cbn [negb]; [|done]. destruct (negb _); [done|].
    destruct (_ && _); [by rewrite Htr|done].
  - unfold rowsLoaded. by rewrite Heff.
  - unfold tick. cbn [InvoiceActions.watch]. destruct (InvoiceActions.watch q); cbn [now]; [|lia]. destruct (watch_until _ <=? _)%Z; cbn [now with_watch]; lia.
Qed.

Lemma click_pdf p p' : click_step p p' → pdf p' = pdf p.
Proof. by destruct 1. Qed.

(** How the watch ended: with work pending it is reported. *)
Definition ended (p : billing_page) (w : PdfWatch) : PdfWatchState :=
  if (0 <? countPendingInvoiceWork (rows (sends p)) (Some w))%nat then expirePdfWatch else stopPdfWatch.

Inductive watch_step (e : billing_event) (p p' : billing_page) : Prop :=
  | watch_kept : pdf p' = pdf p → watch_step e p p'
  | watch_started ids : accepts_work e p → now (sends p') = now (sends p) → pdf p' = startPdfWatch ids (now (sends p)) (pdf p) → watch_step e p p'
  | watch_left v r : e = Navigated v r → pdf p' = stopPdfWatch → watch_step e p p'
  | watch_over w : pdfWatch (pdf p) = Some w → (until w <= now (sends p'))%Z → pdf p' = ended p' w → watch_step e p p'.

Lemma react_watch e p : billing_inv p → watch_step e p (react e p).
Proof.
  intros Hinv. destruct (is_click e) eqn:Ec; [apply watch_kept; by apply click_pdf, click_react|].
  destruct e as [| | |f| | | | |i o|ok|ok q k|r|v r|t]; try done; cbn [react]; try (by apply watch_kept).
  - unfold job_answered. destruct (running p !! i) as [r|] eqn:Ei; [|by apply watch_kept]. destruct o; [by apply watch_kept|].
    unfold succeeded. change (still_current r (with_running (delete i (running p)) p)) with (still_current r p).
    assert (∀ x, pdf (close_after r (still_current r p) x) = pdf x) as Hc by (intros x; unfold close_after; destruct (job_of r); try done; by destruct (_ && _)).
    destruct (queued r) as [ids|] eqn:Eq; [destruct (still_current r p) eqn:Ecur|].
    + apply (watch_started _ _ _ ids); [by exists i, r, ids| |by rewrite Hc]. unfold close_after. destruct (job_of r); try done. by destruct (_ && _).
    + apply watch_kept. by rewrite Hc.
    + apply watch_kept. by rewrite Hc.
  - unfold navigated. destruct (same_period (here p) v); [by apply watch_kept|by eapply watch_left].
  - unfold watch_timer. change (pdf (act (Tick t) p)) with (pdf p). destruct (pdfWatch (pdf p)) as [w|] eqn:Ew; [|by apply watch_kept].
    destruct (until w <=? now (sends (act (Tick t) p)))%Z eqn:El; [|by apply watch_kept]. apply Z.leb_le in El.
    apply (watch_over _ _ _ w); [done|done|]. unfold end_watch, ended, pendingWorkCount. change (pdf (act (Tick t) p)) with (pdf p).
    rewrite Ew. cbn [with_pdf pdf sends]. by destruct (0 <? _)%nat.
Qed.

Lemma committed_watch old p :
  pdf (committed old p) = pdf p ∨
  ∃ w, pdfWatch (pdf p) = Some w ∧ pdf (committed old p) = ended p w ∧
       ((until w <= now (sends p))%Z ∨ countPendingInvoiceWork (rows (sends p)) (Some w) = 0%nat).
Proof.
  unfold committed, watch_effect. destruct (_ && _); [by left|]. destruct (pdfWatch (pdf p)) as [w|] eqn:Ew; [|by left].
  destruct (pdfWatchIsFinished _ _ _) eqn:Ef; [|by left]. right. exists w. split; [done|].
  unfold end_watch, ended, pendingWorkCount in *. rewrite Ew in *. cbn [with_pdf pdf]. split; [by destruct (0 <? _)%nat|].
  unfold pdfWatchIsFinished in Ef. destruct (until w <=? now (sends p))%Z eqn:El; [left; by apply Z.leb_le|right]. by bool_facts.
Qed.

Lemma ended_none p w : pdfWatch (ended p w) = None.
Proof. unfold ended. by destruct (0 <? _)%nat. Qed.

Lemma react_now e p : (now (sends p) <= now (sends (react e p)))%Z.
Proof.
  assert (∀ ev x, (now (sends x) <= now (sends (act ev x)))%Z) as Ha by (intros ev x; apply handle_now).
  assert (∀ k row x, (now (sends x) <= now (sends (perform_row k row x)))%Z) as Hp.
  { intros k row x. unfold perform_row, row_invoice_is. repeat match goal with |- context [if ?b then _ else _] => destruct b end;
      try (destruct (invoice row)); try done; apply Ha. }
  destruct e as [n k|k| | | | | | |i o|ok|ok q k|r|v r|t]; cbn [react]; try done; try apply Ha.
  - unfold clickRow. destruct (visibleRows p !! n); [|done]. destruct (enabled _ _); [apply Hp|done].
  - unfold clickBatch, perform_batch. destruct (enabled _ _); [|done].
    repeat match goal with |- context [if ?b then _ else _] => destruct b end; try done; apply Ha.
  - unfold clickDownload. by destruct (offers_download p).
  - unfold confirmDelete. destruct (deleteModalInvoiceId p); [|done]. by destruct (delete_pending _).
  - unfold submitPayment, recordRowPayment. destruct (recordPaymentInvoice p); [|done]. destruct (payment_pending _); [done|]. by destruct (_ && _).
  - unfold job_answered. destruct (running p !! i) as [r|]; [|done]. destruct o; [done|]. by rewrite (proj2 (proj2 (succeeded_fields _ _))).
  - unfold navigated. cbn [sends]. destruct (same_scope (here p) v); [apply (handle_now (RowsLoaded r))|].
    etransitivity; [apply (handle_now ScopeChanged)|apply (handle_now (RowsLoaded r))].
  - unfold watch_timer. destruct (pdfWatch _); [|apply Ha]. destruct (until _ <=? _)%Z; apply Ha.
Qed.

(** The watch after a whole step. *)
Lemma step_watch e p w :
  billing_inv p → pdfWatch (pdf (billing_step e p)) = Some w →
  pdfWatch (pdf p) = Some w ∨ accepts_work e p ∧ until w = (now (sends p) + PDF_WATCH_MS)%Z.
Proof.
  intros Hinv. unfold billing_step. destruct (committed_watch p (react e p)) as [->|(w' & _ & -> & _)]; [|by rewrite ended_none].
  destruct (react_watch e p Hinv) as [->|ids Hacc _ ->|v r _ ->|w' _ _ ->]; [by left| |done|by rewrite ended_none].
  intros [= <-]. by right.
Qed.

Lemma step_now e p : (now (sends p) <= now (sends (billing_step e p)))%Z.
Proof. unfold billing_step. destruct (committed_fields p (react e p)) as (_ & _ & -> & _). apply react_now. Qed.

(** Steps in which no further work is accepted. *)
Inductive idle (p : billing_page) : billing_page → Prop :=
  | idle_none : idle p p
  | idle_step e q : idle p q → possible e q → ¬ accepts_work e q → idle p (billing_step e q).

Lemma idle_reachable p q : billing_reachable p → idle p q → billing_reachable q.
Proof. intros Hp. induction 1; [done|by constructor]. Qed.

Lemma watch_bound p w : billing_reachable p → pdfWatch (pdf p) = Some w → (until w <= now (sends p) + PDF_WATCH_MS)%Z.
Proof.
  intros Hr. revert w. induction Hr as [t v r _|e p Hr IH _]; intros w; [done|].
  intros [E|[_ ->]]%step_watch; [|pose proof (step_now e p); lia|by apply billing_reachable_inv]. pose proof (step_now e p). specialize (IH w E). lia.
Qed.

Lemma idle_watch p q w : billing_reachable p → idle p q → pdfWatch (pdf q) = Some w → pdfWatch (pdf p) = Some w.
Proof.
  intros Hp Hi. revert w. induction Hi as [|e q Hi IH He Ha]; intros w; [done|].
  intros [E|[? _]]%step_watch; [by apply IH|done|]. by eapply billing_reachable_inv, idle_reachable.
Qed.

(** The page waits for documents it was promised and not for ever. A watch starts only when
    work is accepted for the view shown, it is over once 90 seconds have passed without more
    being accepted, whatever happens meanwhile, and with another account, community or period
    nothing is watched or reported; that work did not finish is reported only after the
    deadline of a watch and while some is pending. *)
Theorem pdf_watch_ends p :
  billing_reachable p →
  (∀ e w, pdfWatch (pdf (billing_step e p)) = Some w → pdfWatch (pdf p) = Some w ∨ accepts_work e p) ∧
  (∀ q t, idle p q → (now (sends p) + PDF_WATCH_MS <= t)%Z → pdfWatch (pdf (billing_step (Passed t) q)) = None) ∧
  (∀ v r, same_period (here p) v = false → pdf (billing_step (Navigated v r) p) = stopPdfWatch) ∧
  (∀ e, pdfWatchExpired (pdf (billing_step e p)) = true → pdfWatchExpired (pdf p) = true ∨
     ∃ w, (until w <= now (sends (billing_step e p)))%Z ∧ (0 < countPendingInvoiceWork (rows (sends (billing_step e p))) (Some w))%nat).
Proof.
  intros Hr. pose proof (billing_reachable_inv _ Hr) as Hinv. split; [|split; [|split]].
  - intros e w [?|[? _]]%step_watch; auto.
  - intros q t Hi Ht. pose proof (idle_reachable _ _ Hr Hi) as Hq. destruct (pdfWatch (pdf (billing_step (Passed t) q))) as [w|] eqn:E; [|done].
    exfalso. unfold billing_step in E. destruct (committed_watch q (react (Passed t) q)) as [Ec|(w' & _ & Ec & _)]; rewrite Ec in E; [|by rewrite ended_none in E].
    cbn [react] in E. unfold watch_timer in E. change (pdf (act (Tick t) q)) with (pdf q) in E.
    destruct (pdfWatch (pdf q)) as [w0|] eqn:Ew; [|change (pdfWatch (pdf q) = Some w) in E; congruence].
    assert (until w0 <= now (sends (act (Tick t) q)))%Z as Hu.
    { pose proof (watch_bound p w0 Hr (idle_watch _ _ _ Hr Hi Ew)). cbn. unfold tick. cbn [InvoiceActions.watch].
      destruct (InvoiceActions.watch (sends q)); cbn [now]; [|lia]. destruct (watch_until _ <=? _)%Z; cbn [now with_watch]; lia. }
    rewrite (proj2 (Z.leb_le _ _) Hu) in E. unfold end_watch in E. cbn [with_pdf pdf] in E. by destruct (0 <? _)%nat.
  - intros v r Hs. unfold billing_step. destruct (committed_watch p (react (Navigated v r) p)) as [->|(w & E & _)]; cbn [react navigated pdf] in *; by rewrite Hs in *.
  - intros e. unfold billing_step. destruct (committed_fields p (react e p)) as (_ & _ & -> & _).
    destruct (committed_watch p (react e p)) as [->|(w & _ & -> & Hw)].
    + destruct (react_watch e p Hinv) as [->|ids _ _ ->|v r _ ->|w _ Hu ->]; [by left|done|done|]. unfold ended.
      destruct (0 <? _)%nat eqn:E; [|done]. right. exists w. apply Nat.ltb_lt in E. done.
    + unfold ended. destruct (0 <? _)%nat eqn:E; [|done]. apply Nat.ltb_lt in E. right. exists w. destruct Hw; [done|lia].
Qed.

(** ** An answer after the period was changed *)

Definition sample_row (st : string) (pdf : option string) : InvoicePeriodParticipantRow :=
  {| participant_id := "p1"; participant_name := "Mia"; participant_email := None; participant_kind := KindPerson;
     participant_name_addition := ""; participant_valid_from := "2025-01-01"; participant_valid_to := None; party_id := "y1";
     metering_point_labels := []; generation_eligibility := None; metering_data_complete := true; metering_points_total := 1;
     metering_points_with_data := 1; missing_meter_ids := []; missing_meter_details := None;
     invoice := Some {| invoice_id := "i1"; invoice_number := "R-1"; invoice_zev := "z1"; invoice_zev_name := "Sonne"; invoice_participant := "p1";
       invoice_participant_name := "Mia"; invoice_period_start := "2026-01-01"; invoice_period_end := "2026-01-31";
       due_date := None; subtotal_chf := None; vat_rate := None; vat_base_chf := None; vat_chf := None; rounding_chf := None;
       total_chf := "120.00"; credit_applied_chf := None; due_rounding_chf := None; amount_due_chf := None; total_local_kwh := None;
       total_grid_kwh := None; total_feed_in_kwh := None; total_local_sold_kwh := None; local_sale_chf := None;
       local_sale_feed_in_chf := None; status := st; sent_at := None; approved_at := None; paid_chf := None;
       outstanding_chf := None; payments := None; credits := None; credit_applications := None; replaces := None;
       replaced_by := None; pdf_url := pdf; pdf_status := None; last_email_status := None; items := None; email_logs := None;
       access_link := None; last_email_log_id := None; needs_data_review := None; open_data_impact_count := None; data_impacts := None |} |}.

Definition sample_view (from to : string) : page_view :=
  {| v_account := Some 1%Z; v_admin := false; v_zev := "z1"; v_managed := true; v_writable := true; v_interval := monthly; v_from := from; v_to := to |}.

Definition january (st : string) (pdf : option string) : billing_page :=
  billing_start 0 (sample_view "2026-01-01" "2026-01-31") [sample_row st pdf].

Lemma january_reachable st pdf : billing_reachable (january st pdf).
Proof. constructor. split; [apply NoDup_singleton|done]. Qed.

(** The documents of January are asked for, February is shown when they arrive, and the file
    of January's documents is named after February. *)
Lemma late_download_named_after_other_period :
  let p := billing_step (Navigated (sample_view "2026-02-01" "2026-02-28") []) (billing_step ClickDownload (january "sent" (Some "/1.pdf"))) in
  billing_reachable p ∧
  (v_from ∘ made_in) <$> head (running p) = Some "2026-01-01" ∧
  done (billing_step (JobAnswered 0 None) p) = [Downloaded "invoices-2026-02-01.zip"].
Proof.
  split; [|split; reflexivity]. apply billing_next; [apply billing_next; [apply january_reachable|done]|].
  split; [apply NoDup_nil_2|done].
Qed.

(** ** Witnesses *)

Definition january_approval : job_request := {| job_of := Approve "i1"; made_in := sample_view "2026-01-01" "2026-01-31"; made_scope := 0 |}.

Lemma invoice_jobs_allowed_witness :
  running (billing_step (ClickRow 0 "approve") (january "draft" None)) = [january_approval] ∧
  (january_approval ∈ running (january "draft" None) ∨ made_in january_approval = here (january "draft" None) ∧
     made_scope january_approval = scope (sends (january "draft" None)) ∧ job_fits (january "draft" None) (job_of january_approval) ∧
     (is_download (job_of january_approval) = false → v_writable (here (january "draft" None)) = true)).
Proof.
  split; [reflexivity|].
  apply (invoice_jobs_allowed (ClickRow 0 "approve") (january "draft" None) january_approval); [apply january_reachable|done|].
  change (january_approval ∈ [january_approval]). by left.
Defined.


Lemma invoice_dialogs_kept_witness :
  deleteModalInvoiceId (billing_step (ClickRow 0 "delete") (january "draft" None)) = Some "i1" ∧
  v_writable (here (billing_step (ClickRow 0 "delete") (january "draft" None))) = true.
Proof.
  split; [reflexivity|].
  refine (proj1 (invoice_dialogs_kept CancelDelete (billing_step (ClickRow 0 "delete") (january "draft" None)) _ I) (or_introl _));
    [apply billing_next; [apply january_reachable|exact I]|]. exists "i1". reflexivity.
Defined.

Lemma pdf_watch_ends_witness :
  pdfWatch (pdf (billing_step (Passed 90000) (january "draft" None))) = None.
Proof.
  refine (proj1 (proj2 (pdf_watch_ends (january "draft" None) _)) _ 90000%Z (idle_none _) _); [apply january_reachable|vm_compute; discriminate].
Defined.
